(* ===== verification/_CoqProject ===== *)
-Q . S2P
Prelude.v
GoStd.v
Json.v
JsonCodec.v
Hash.v
ControlCrypto.v
Naming.v
Msg.v
ConfigV1.v
Decode.v
Auth.v
Validation.v
Ranges.v
ConfigLoad.v
LoadFile.v
NatClassify.v
Analyzer.v
NatController.v
Registry.v
ServerProxy.v
Session.v
Control.v
Wire.v
MsgV2.v
MsgJson.v
UdpBinary.v
ClientProxy.v
Transporter.v
MakeHole.v
EndToEnd.v
ClientVisitor.v
ConfigSource.v
ClientDial.v
Connector.v
ServerConn.v
ClientControl.v
ClientService.v
Backoff.v
Tunnel.v
HoleFlow.v
DataPath.v
UdpListener.v
NetConn.v
ServerListen.v
Flags.v
Discovery.v
Commands.v
Xlog.v
VisitorRun.v
ControlLink.v
SidSend.v
HelloJson.v
StoreJson.v
SidRelay.v
ClientStatus.v
Sockets.v
Quantity.v
HoleSession.v
