(* ===== verification/Prelude.v ===== *)
(** * frp-xtcp-mini: a verification library

    frp-xtcp-mini connects two clients ([frpc]) directly, through their NATs, with the help of a
    server ([frps]) that both can reach.  The proxy owner runs a proxy of type [xtcp], the
    visitor a visitor of type [xtcp]; both keep a control connection to [frps].  A tunnel
    comes about in these steps:

    - a client loads its configuration, completes and validates it;
    - it logs in: hellos that fix codec and encryption, then [Login] with a key made from the
      shared token; [frps] checks it and creates a session ([Control]) under the run id;
    - the owner's proxy manager asks [frps] for each of its proxies ([NewProxy]); [frps]
      enters the name with the proxy manager and the NAT hole controller;
    - the visitor finds out its external addresses and sends [NatHoleVisitor], signed with the
      proxy's secret key; the controller passes it to the owner over a work connection, gets
      the owner's addresses back, classifies both NATs, picks a strategy and sends each side
      a [NatHoleResp];
    - both sides send and await datagrams as told, until they have a pair of addresses that
      works; the visitor's tunnel session runs over that socket.

    ** Conventions

    A function of the source is a definition of the same name.  [(T, error)] is [result T],
    an error being its text; [int] and [int64] are integers with [wrap64] where arithmetic can
    leave 64 bits, and strings are byte strings.  Code that shares state between goroutines is
    a step relation: one step for each critical section, channel operation or blocking call, so
    that every interleaving of those is a run; its theorems are invariants of the reachable
    states, by induction over runs.  Steps that choose the code's own next state do so through
    executable functions, so that the example runs at the end of a file evaluate.  Code outside
    the repository is a class ([Class]) of functions the definitions use; what is relied on is
    a class of laws or a field of it, and every theorem over such a class has an instance at
    which it is applied.

    ** Files

    Foundations:
    - [Prelude]: results, 64-bit integers, tactics, shared lemmas;
    - [GoStd]: the parts of Go's standard library the program computes with;
    - [Json], [JsonCodec]: [encoding/json]: the grammar with its printer and reader, and what
      the package derives from a struct with tags, as combinators whose law (what is printed
      is stored back) is proved once;
    - [Hash]: MD5, SHA-256 and what is built from them, executable, with test vectors.

    Data and checks, without state:
    - [Naming] ([pkg/naming]), [Msg] ([pkg/msg/msg.go]), [ConfigV1] ([pkg/config/v1]),
      [Auth] ([pkg/auth], [pkg/util/util]), [Validation] ([pkg/config/v1/validation],
      [pkg/policy/security]), [Ranges] ([pkg/util/util], [pkg/config/types],
      [pkg/config/template.go]), [Flags] ([pkg/config/flags.go]);
    - [ConfigLoad], [Decode], [LoadFile] ([pkg/config/load.go], [pkg/config/v1/decode.go],
      [pkg/util/jsonx]): a file from its bytes to the configuration the service starts with,
      whose values are of their types, with the errors and their line numbers.
      Registered and addressed names agree; a [NewProxy] message carries a configuration and
      back; client and server derive the same authentication from the same settings, and
      nothing else passes the check; ranges parse to the numbers they denote.

    Bytes:
    - [Wire], [HelloJson] ([pkg/proto/wire]), [MsgV2], [MsgJson] ([pkg/msg/wire_v2.go],
      [handler.go], the tags of [msg.go]), [UdpBinary] ([pkg/msg/udp_binary.go]).  Each codec has
      an exact round trip; the handshake leaves both ends with the same choice and the same
      transcript, and the transcript determines both hellos;
    - [UdpListener], [NetConn] ([pkg/util/net/udp.go], [conn.go]): a socket shared by connections, one
      for each remote address; the wrappers of connections as refinements of what they wrap;
    - [Sockets] ([pkg/util/net/dns.go], [kcp.go], [udp.go]): the resolver's address, the listener of
      KCP sessions as a step relation, the wrapper of a connected UDP socket.

    The server:
    - [NatClassify], [Analyzer], [NatController] ([pkg/nathole/classify.go], [analysis.go],
      [controller.go]): classification against its specification, the roles a recommendation
      gives, the controller's sessions as a step relation: only a signed visitor gets one,
      the two answers of a session belong together, handlers finish and leave nothing behind;
    - [Registry] ([server/registry]): its two maps index each other exactly;
    - [ServerProxy] ([server/proxy], parts of [server/control.go]): names, controller entries
      and proxy objects stay consistent, so closing by name hits the right proxy;
    - [Session], [Control] ([server/control.go], login in [server/service.go]): one session per
      run id serves, an old generation is refused, a shutdown completes, the registry says
      what the sessions are.
    - [ServerConn] ([server/service.go]): a connection from its first byte to its one fate; what a
      client of [ClientDial] writes is accepted as its login, and the session both sides then have
      is the same, with crossed keys ([ControlCrypto], [pkg/util/net/conn.go]); a work connection
      enters the pool of the current control of its run only;
    - [ServerListen] ([pkg/transport/tls.go], [pkg/util/net/tls.go], [NewService], [HandleListener] and [Run] of
      [server/service.go]): the first byte decides for TLS as the client's settings need, and
      a server with a trusted CA accepts no client without its certificate.

    The client:
    - [Connector], [ClientDial], [ClientControl], [ClientService] ([client/connector.go],
      [control_session.go], [control.go], [service.go]): one connection carries a session; a failed
      login releases what it opened; a work connection is delivered or closed; the end of a
      control closes what it had, without a word to the server; the running control has the
      current configuration;
    - [ClientProxy], [ClientVisitor] ([client/proxy], [client/visitor/visitor_manager.go]): the
      managers run what the configuration names, and each message sent belongs to a proxy;
    - [Transporter] ([pkg/transport/message.go]): a request gets its own answer;
    - [MakeHole], [Tunnel], [EndToEnd] ([pkg/nathole/nathole.go], [client/visitor/xtcp.go],
      [client/proxy/xtcp.go]): two sides that succeed have found each other, over a network that
      loses, repeats and reorders and carries the datagrams of strangers and other sessions;
      opening a tunnel terminates; two configurations that fit lead to one session of the server;
    - [HoleFlow], [DataPath] ([client/proxy/xtcp.go], [proxy.go], [client/visitor/xtcp.go],
      [visitor.go], [pkg/util/net/listener.go]): an attempt of either side from its first step to
      its last, with every socket accounted for and one report; the layers of both ends of a
      tunnel's stream, through which bytes arrive as they were sent;
    - [ConfigSource] ([pkg/config/source]): the store refines a map, and its file is the old or
      the new content at any crash; [Backoff] ([pkg/util/wait]): delays stay within their
      bounds and reach the maximum; [StoreJson] ([store.go]): the store's file as JSON;
    - [SidSend] ([pkg/nathole/nathole.go]): the datagrams of a hole with their TTLs, those of the
      goroutines for random ports and the answers included, in every interleaving; [Discovery]
      ([discovery.go], [utils.go]): the addresses a host finds out, with every socket closed;
    - [VisitorRun] ([client/visitor/visitor.go], [xtcp.go]): the goroutines of a visitor and of its
      users, which can all end from wherever they are after [Close], but for a keeper that has
      leaked at its first send;
    - [SidRelay] ([GetWorkConn] of [server/control.go], [server/proxy/xtcp.go], [client/control.go]): a session id on
      its way to the owner over a pool of work connections that may be dead: whole or not at
      all, with every connection closed;
    - [HoleSession]: from two configurations that fit and two preparations that succeed, one session
      runs through the controller to its end, and both clients accept their instructions;
    - [ClientStatus] ([client/service.go], [client/proxy/proxy.go], [server/proxy/proxy.go]): the options' defaults,
      the status of a proxy as the web side is told it, the factories of proxies by type;
    - [Quantity] ([pkg/config/types/types.go], [pkg/util/util]): bandwidths, which go through [float64] as the
      source's do, with the whole numbers that stay exact; random sleeps within their bounds;
    - [ControlLink] ([client/control.go], [server/control.go], [pkg/msg/handler.go]): the handlers of
      both sides over the bytes they exchange: a session of messages that only a late check
      ends;
    - [Commands] ([cmd]): every command from its flags to the service or the exit code; [Xlog]
      ([pkg/util/xlog], [log], [version]): prefixes and their order.

    Theorems named [..._unbounded], [..._lost...], [..._blocks...] and the like are runs of the
    model in which the source does what it does not mean to, as are [keeper_leaks], [hairpin_hole],
    [low_ttl_stays], [huge_timeout_closes] and [huge_fallback_timeout]; they are theorems about the
    same definitions.

    ** Interfaces between the files

    [Auth.Verifier] is the source's interface with its instances; [Session] is created
    against it.  [Control] runs the operations of [Session] and [Registry] inside its steps;
    [ServerProxy] calls [ConfigLoad] and [NatController]; [NatController] calls [Analyzer],
    which calls nothing but its tables, and [NatClassify].  [ClientControl] composes [ClientProxy] and
    [ClientVisitor]; [ClientService] sees a control by its configurations and whether it
    is closed.  [ConfigSource.Entry] and [StoreMap] state what the generic code of the store needs
    of proxies and visitors; the refinement is proved against them.  [MsgV2] is over [Wire]'s
    frames.

    A class that stands for code of the repository or of the language is discharged by an
    instance of the file that models it: [JSON] by [HelloJson.hello_json], [MsgJSON] by
    [MsgJson.msg_json], [StoreCodec] and [StoreLaws] by [StoreJson.store_codec] and [store_laws],
    [Loader] by [LoadFile.file_loader], [SidCodec] by [Discovery.sid_codec], which is
    faithful when sealing and the v1 coding are what they say.  What is left stands for
    third parties: [V1Codec], [ControlCipher], [Layers], [Sealing], [PeerCodec], [TLSLib], [Formats],
    and [Text], [Dirs], [OS] for tables and the system.

    ** Fuel and bounds

    - [Ranges.range_loop] takes fuel, [None] being a loop that has not ended: it ends for every
      upper bound below the largest [int64], with fuel one more than the numbers of the range,
      and for that bound never (both are theorems);
    - [Hash.chunks_of], [GoStd.strip_left], [GoStd.runes_loop] shorten a list in every round and get its
      length;
    - [Json.parse_value] takes twice the length of the text and two more, which more does not
      change ([parse_fuel_enough]); [Json.unquote] and [quote_loop] take the length; nesting is
      bounded by 10000 as in the source's library;
    - [ServerProxy.pool_loop] has the source's own bound, the pool's size plus one;
    - [Tunnel.openTunnel] reads the times its timer fires from a list; forty-two rounds are
      enough for every such list (a theorem);
    - [Backoff] and [MakeHole] run over lists of rounds or datagrams, and end with them.

    ** Not modelled

    - Transport: sockets, certificates and the TLS protocol, the KCP protocol, QUIC, yamux, encryption and
      compression of streams, and copying between two connections are library calls, known by
      their outcomes or laws;
    - third-party formats: wire protocol v1 ([pkg/msg/ctl.go] forwards to a library), the bytes of
      STUN messages, YAML and TOML, the template engine, the parsing of the command line;
    - the JSON of [net.UDPAddr], a parameter of [MsgJson];
    - signals, writing log lines, metrics, installing the resolver, time zones, and structs that only
      carry pointers ([server/controller], [server/metrics], [pkg/auth/user.go]). *)
From Stdlib Require Export ZArith Lia ZifyN ZifyNat.
From stdpp Require Export prelude strings gmap sets pretty numbers.
From stdpp Require Export list.

(** ** Results of fallible Go code

    A Go function that returns [(T, error)] is a function into [result T]:
    [Ok v] is the nil-error return, [Err e] a return with the error text [e]
    (what [err.Error()] gives). *)
Inductive result (A : Type) : Type :=
| Ok (a : A)
| Err (e : string).
Arguments Ok {A} a.
Arguments Err {A} e.

#[export] Instance result_ret : MRet result := @Ok.
#[export] Instance result_bind : MBind result := λ A B f m,
  match m with Ok a => f a | Err e => Err e end.
#[export] Instance result_fmap : FMap result := λ A B f m,
  match m with Ok a => Ok (f a) | Err e => Err e end.
#[export] Instance result_eq_dec `{EqDecision A} : EqDecision (result A).
Proof. intros [a|e] [b|f]; [destruct (decide (a = b))| | |destruct (decide (e = f))]; first [left; congruence | right; congruence]. Defined.

(** [fmt.Errorf("prefix: %v", err)] on the error path only. *)
Definition wrap_err {A} (prefix : string) (m : result A) : result A :=
  match m with Ok a => Ok a | Err e => Err (prefix +:+ e) end.

Lemma wrap_err_Ok {A} prefix (m : result A) a : wrap_err prefix m = Ok a ↔ m = Ok a.
Proof. by destruct m. Qed.

Definition is_ok {A} (m : result A) : bool :=
  match m with Ok _ => true | Err _ => false end.

Lemma result_bind_Ok {A B} (f : A → result B) (m : result A) (b : B) :
  m ≫= f = Ok b ↔ ∃ a, m = Ok a ∧ f a = Ok b.
Proof. destruct m; simpl; naive_solver. Qed.

(** ** Machine integers

    Go's [int] and [int64] are 64-bit two's complement values; arithmetic wraps
    around.  A value is a [Z], and every operation of the source that can leave
    the range is followed by [wrap64]. *)
Declare Scope go_scope.
Delimit Scope go_scope with go.

Definition MinInt64 : Z := (-9223372036854775808)%Z.
Definition MaxInt64 : Z := 9223372036854775807%Z.
Definition in_int64 (z : Z) : Prop := (MinInt64 ≤ z ≤ MaxInt64)%Z.
Definition wrap64 (z : Z) : Z :=
  ((z - MinInt64) mod 18446744073709551616 + MinInt64)%Z.

Notation "a +₆₄ b" := (wrap64 (a + b)%Z) (at level 50, left associativity) : go_scope.
Notation "a -₆₄ b" := (wrap64 (a - b)%Z) (at level 50, left associativity) : go_scope.

#[export] Instance in_int64_dec z : Decision (in_int64 z).
Proof. unfold in_int64. apply _. Defined.

Lemma wrap64_range z : in_int64 (wrap64 z).
Proof.
  unfold in_int64, wrap64, MinInt64, MaxInt64.
  pose proof (Z.mod_pos_bound (z - -9223372036854775808) 18446744073709551616). lia.
Qed.

Lemma wrap64_id z : in_int64 z → wrap64 z = z.
Proof.
  unfold in_int64, wrap64, MinInt64, MaxInt64. intros ?.
  rewrite Z.mod_small by lia. lia.
Qed.

(** ** Tactics of the development *)

(** Case analysis on every [match] and [decide] in sight, closing the branches
    that contradict. *)
Ltac go_case :=
  repeat (case_match || case_decide || case_bool_decide); simplify_eq/=; try done.

(** Invert equations between results. *)
Ltac inv_res :=
  repeat match goal with
  | H : Ok _ = Ok _ |- _ => injection H as H; subst
  | H : Err _ = Err _ |- _ => injection H as H; subst
  | H : Ok _ = Err _ |- _ => discriminate H
  | H : Err _ = Ok _ |- _ => discriminate H
  | H : _ ≫= _ = Ok _ |- _ => apply result_bind_Ok in H as (? & ? & ?)
  end.

(** Decide a boolean comparison on closed integers, the whole context by [lia]. *)
Ltac zify_bool :=
  repeat match goal with
  | H : Z.leb _ _ = true |- _ => apply Z.leb_le in H
  | H : Z.leb _ _ = false |- _ => apply Z.leb_gt in H
  | H : Z.ltb _ _ = true |- _ => apply Z.ltb_lt in H
  | H : Z.ltb _ _ = false |- _ => apply Z.ltb_ge in H
  | H : Z.eqb _ _ = true |- _ => apply Z.eqb_eq in H
  | H : Z.eqb _ _ = false |- _ => apply Z.eqb_neq in H
  end.

Create HintDb frp discriminated.
#[export] Hint Resolve wrap64_range : frp.
Create Rewrite HintDb frp_rw.
#[export] Hint Rewrite @length_app @length_replicate @length_fmap : frp_rw.

(** ** Strings

    A Go [string] is a byte sequence; so is a Rocq [string]. *)
Definition dquote : string := String (Ascii.ascii_of_nat 34) EmptyString.
Definition squoted (s : string) : string := dquote +:+ s +:+ dquote.

Lemma string_app_assoc (a b c : string) : (a +:+ b) +:+ c = a +:+ (b +:+ c).
Proof. induction a as [|x a IH]; [done|]. change (String x ((a +:+ b) +:+ c) = String x (a +:+ (b +:+ c))). by rewrite IH. Qed.

Lemma string_app_nil_r (a : string) : a +:+ "" = a.
Proof. induction a as [|x a IH]; [done|]. change (String x (a +:+ "") = String x a). by rewrite IH. Qed.

Lemma string_app_inj_l (a b c : string) : a +:+ b = a +:+ c → b = c.
Proof. induction a as [|x a IH]; [done|]. intros [=]. by apply IH. Qed.

(** ** List lemmas shared by the components *)

Lemma last_replicate_S {A} (l : list A) n x : last (l ++ replicate (S n) x) = Some x.
Proof. rewrite replicate_S_end, (assoc_L (++)). apply last_snoc. Qed.
