(* ===== verification/GoStd.v ===== *)
(** * The Go standard library, as far as the program uses it

    [strconv.Atoi]/[Itoa], [strings], [net.SplitHostPort]/[JoinHostPort],
    [slices.Compact] with its effect on the argument's backing array,
    [encoding/binary] big-endian integers, [time] arithmetic and [utf8]
    validity.  These are definitions of the language's library and are not
    mapped to files of the repository. *)
From S2P Require Import Prelude.
From Stdlib Require Import Ascii.
From Stdlib Require String.
From Stdlib.Strings Require Export Byte.
From stdpp Require Export list.
Local Open Scope Z_scope.

(** ** Bytes *)
#[export] Instance byte_eq_dec : EqDecision byte := Byte.byte_eq_dec.

Definition byte_of_Z (z : Z) : byte :=
  default Byte.x00 (Byte.of_N (Z.to_N (z mod 256))).
Definition Z_of_byte (b : byte) : Z := Z.of_N (Byte.to_N b).

Lemma Z_of_byte_range b : 0 ≤ Z_of_byte b < 256.
Proof. unfold Z_of_byte. pose proof (Byte.to_N_bounded b). lia. Qed.

Lemma byte_of_Z_of_byte b : byte_of_Z (Z_of_byte b) = b.
Proof.
  unfold byte_of_Z. rewrite Z.mod_small by apply Z_of_byte_range.
  unfold Z_of_byte. by rewrite N2Z.id, Byte.of_to_N.
Qed.

Lemma Z_of_byte_of_Z z : Z_of_byte (byte_of_Z z) = z mod 256.
Proof.
  unfold byte_of_Z, Z_of_byte. pose proof (Z.mod_pos_bound z 256).
  destruct (Byte.of_N (Z.to_N (z mod 256))) as [b|] eqn:E; simpl.
  - apply Byte.to_of_N in E. lia.
  - apply Byte.of_N_None_iff in E. lia.
Qed.

(** [[]byte(s)] and [string(b)]. *)
Definition bytes_of (s : string) : list byte := String.list_byte_of_string s.
Definition string_of (l : list byte) : string := String.string_of_list_byte l.

Lemma string_of_bytes_of s : string_of (bytes_of s) = s.
Proof. apply String.string_of_list_byte_of_string. Qed.
Lemma bytes_of_string_of l : bytes_of (string_of l) = l.
Proof. apply String.list_byte_of_string_of_list_byte. Qed.
Lemma bytes_of_inj s t : bytes_of s = bytes_of t → s = t.
Proof. intros H. by rewrite <-(string_of_bytes_of s), H, string_of_bytes_of. Qed.
Lemma bytes_of_app s t : bytes_of (s +:+ t) = bytes_of s ++ bytes_of t.
Proof.
  unfold bytes_of, String.list_byte_of_string.
  induction s as [|c s IH]; [done|].
  change (byte_of_ascii c :: List.map byte_of_ascii (String.list_ascii_of_string (s +:+ t))
    = byte_of_ascii c :: (List.map byte_of_ascii (String.list_ascii_of_string s)
        ++ List.map byte_of_ascii (String.list_ascii_of_string t))).
  by rewrite IH.
Qed.

(** ** [encoding/binary]: big-endian unsigned integers of [n] bytes *)
Fixpoint be_split (n : nat) (z : Z) : list byte :=
  match n with
  | O => []
  | S m => byte_of_Z (z / 256 ^ Z.of_nat m) :: be_split m z
  end.

Fixpoint be_combine (l : list byte) : Z :=
  match l with
  | [] => 0
  | b :: l => Z_of_byte b * 256 ^ Z.of_nat (length l) + be_combine l
  end.

Lemma length_be_split n z : length (be_split n z) = n.
Proof. induction n; simpl; congruence. Qed.

Lemma be_combine_range l : 0 ≤ be_combine l < 256 ^ Z.of_nat (length l).
Proof.
  induction l as [|b l IH]; simpl; [lia|].
  rewrite Nat2Z.inj_succ, Z.pow_succ_r by lia.
  pose proof (Z_of_byte_range b). nia.
Qed.

Lemma be_combine_split n z : be_combine (be_split n z) = z mod 256 ^ Z.of_nat n.
Proof.
  induction n as [|n IH]; simpl; [by rewrite Z.mod_1_r|].
  rewrite Z_of_byte_of_Z, length_be_split, IH, Nat2Z.inj_succ, Z.pow_succ_r by lia.
  rewrite (Z.mul_comm 256), Z.rem_mul_r by lia. lia.
Qed.

Lemma be_split_combine l : be_split (length l) (be_combine l) = l.
Proof.
  cut (∀ z, z mod 256 ^ Z.of_nat (length l) = be_combine l → be_split (length l) z = l).
  { intros H. apply H, Z.mod_small, be_combine_range. }
  induction l as [|b l IH]; intros z; simpl; [done|].
  rewrite Nat2Z.inj_succ, Z.pow_succ_r, Z.mul_comm, Z.rem_mul_r by lia.
  pose proof (be_combine_range l). pose proof (Z_of_byte_range b).
  pose proof (Z.mod_pos_bound z (256 ^ Z.of_nat (length l))).
  pose proof (Z.mod_pos_bound (z / 256 ^ Z.of_nat (length l)) 256).
  intros Hz. set (P := 256 ^ Z.of_nat (length l)) in *.
  assert ((z / P) mod 256 = Z_of_byte b ∧ z mod P = be_combine l) as [Hb Hl].
  { assert ((z / P) mod 256 = Z_of_byte b) by nia. split; [done|]. nia. }
  f_equal; [|by apply IH].
  rewrite <-(byte_of_Z_of_byte b), <-Hb. unfold byte_of_Z. by rewrite Z.mod_mod.
Qed.

(** [b[i:j]] of a Go slice expression whose bounds hold. *)
Definition sub_slice {A} (i j : nat) (l : list A) : list A := take (j - i) (drop i l).

(** ** Strings: indexing, slicing, prefixes *)
Notation "'chr' c" := (Ascii.ascii_of_nat c) (at level 10, only parsing).
Definition colon : ascii := Ascii.ascii_of_nat 58.
Definition lbracket : ascii := Ascii.ascii_of_nat 91.
Definition rbracket : ascii := Ascii.ascii_of_nat 93.

(** [strings.IndexByte]. *)
Fixpoint index_byte (c : ascii) (s : string) : option nat :=
  match s with
  | EmptyString => None
  | String d s => if decide (c = d) then Some 0%nat else S <$> index_byte c s
  end.
(** [strings.LastIndexByte]. *)
Fixpoint last_index_byte (c : ascii) (s : string) : option nat :=
  match s with
  | EmptyString => None
  | String d s =>
      match last_index_byte c s with
      | Some i => Some (S i)
      | None => if decide (c = d) then Some 0%nat else None
      end
  end.
Definition contains_byte (c : ascii) (s : string) : bool := bool_decide (is_Some (index_byte c s)).

(** [s[:n]], [s[n:]] and [s[n]]. *)
Fixpoint str_take (n : nat) (s : string) : string :=
  match n, s with
  | S n, String c s => String c (str_take n s)
  | _, _ => EmptyString
  end.
Fixpoint str_drop (n : nat) (s : string) : string :=
  match n, s with
  | O, _ => s
  | S n, String _ s => str_drop n s
  | S _, EmptyString => EmptyString
  end.
Fixpoint str_at (n : nat) (s : string) : option ascii :=
  match n, s with
  | _, EmptyString => None
  | O, String c _ => Some c
  | S n, String _ s => str_at n s
  end.

(** [strings.CutPrefix(s, prefix)]: [Some rest] when [s] has the prefix. *)
Fixpoint cut_prefix (prefix s : string) : option string :=
  match prefix, s with
  | EmptyString, _ => Some s
  | String c p, String d s => if decide (c = d) then cut_prefix p s else None
  | String _ _, EmptyString => None
  end.

Lemma cut_prefix_app p s : cut_prefix p (p +:+ s) = Some s.
Proof.
  induction p as [|c p IH]; [done|].
  change (cut_prefix (String c p) (String c (p +:+ s)) = Some s). simpl.
  by rewrite decide_True.
Qed.

Lemma cut_prefix_Some p s r : cut_prefix p s = Some r → s = p +:+ r.
Proof.
  revert s. induction p as [|c p IH]; intros [|d s]; simpl; intros H; simplify_eq; try done.
  case_decide; [subst|done].
  change (String d s = String d (p +:+ r)). f_equal. by apply IH.
Qed.

Lemma str_take_app s t : str_take (String.length s) (s +:+ t) = s.
Proof. induction s as [|c s IH]; [by destruct t|]. cbn. f_equal. apply IH. Qed.
Lemma str_drop_app s t : str_drop (String.length s) (s +:+ t) = t.
Proof. induction s as [|c s IH]; [done|]. cbn. apply IH. Qed.

Lemma index_byte_app_None c s t : index_byte c s = None →
  index_byte c (s +:+ t) = Nat.add (String.length s) <$> index_byte c t.
Proof.
  induction s as [|d s IH]; intros H.
  - change ("" +:+ t) with t. by destruct (index_byte c t).
  - change (String d s +:+ t) with (String d (s +:+ t)). simpl in *. case_decide; [done|].
    destruct (index_byte c s); [done|]. rewrite IH by done. by destruct (index_byte c t).
Qed.
Lemma index_byte_head c s : index_byte c (String c s) = Some 0%nat.
Proof. simpl. by rewrite decide_True. Qed.
Lemma last_index_byte_None c s : last_index_byte c s = None ↔ index_byte c s = None.
Proof.
  induction s as [|d s IH]; simpl; [done|].
  destruct (last_index_byte c s), (index_byte c s); case_decide; simpl; naive_solver.
Qed.
Lemma last_index_byte_app c s t i :
  last_index_byte c t = Some i → last_index_byte c (s +:+ t) = Some (String.length s + i)%nat.
Proof.
  intros H. induction s as [|d s IH]; [done|].
  change (String d s +:+ t) with (String d (s +:+ t)). simpl. by rewrite IH.
Qed.

(** ** [strconv]: decimal integers *)
Definition digit_val (c : ascii) : option Z :=
  let n := Z.of_nat (Ascii.nat_of_ascii c) in
  if bool_decide (48 ≤ n ≤ 57) then Some (n - 48) else None.

Inductive num_err : Type := ErrSyntax | ErrRange.

Definition MaxUint64 : Z := 18446744073709551615.

(** The digit loop of [strconv.ParseUint(s, 10, 64)]. *)
Fixpoint parse_uint_loop (acc : Z) (s : string) : Z + num_err :=
  match s with
  | EmptyString => inl acc
  | String c s =>
      match digit_val c with
      | None => inr ErrSyntax
      | Some d =>
          if bool_decide (MaxUint64 < acc * 10 + d) then inr ErrRange
          else parse_uint_loop (acc * 10 + d) s
      end
  end.
Definition parse_uint (s : string) : Z + num_err :=
  match s with EmptyString => inr ErrSyntax | _ => parse_uint_loop 0 s end.

Definition split_sign (s : string) : bool * string :=
  match s with
  | String c r =>
      if decide (c = Ascii.ascii_of_nat 45) then (true, r)
      else if decide (c = Ascii.ascii_of_nat 43) then (false, r) else (false, s)
  | EmptyString => (false, s)
  end.

(** [strconv.ParseInt(s, 10, 64)]. *)
Definition parse_int64 (s : string) : Z + num_err :=
  match s with
  | EmptyString => inr ErrSyntax
  | _ =>
      let '(neg, r) := split_sign s in
      match parse_uint r with
      | inr e => inr e
      | inl un =>
          if neg then (if bool_decide (9223372036854775808 < un) then inr ErrRange else inl (- un))
          else (if bool_decide (9223372036854775808 ≤ un) then inr ErrRange else inl un)
      end
  end.

(** [NumError.Error()]; [strconv.Quote] is exact on printable ASCII text. *)
Definition num_error (fn s : string) (e : num_err) : string :=
  "strconv." +:+ fn +:+ ": parsing " +:+ squoted s +:+ ": " +:+
  match e with ErrSyntax => "invalid syntax" | ErrRange => "value out of range" end.

Definition Atoi (s : string) : result Z :=
  match parse_int64 s with inl z => Ok z | inr e => Err (num_error "Atoi" s e) end.
Definition ParseInt64 (s : string) : result Z :=
  match parse_int64 s with inl z => Ok z | inr e => Err (num_error "ParseInt" s e) end.

Definition Itoa (z : Z) : string := pretty z.
Definition FormatBool (b : bool) : string := if b then "true" else "false".

Lemma parse_int64_range s z : parse_int64 s = inl z → in_int64 z.
Proof.
  assert (Hloop : ∀ s acc v, 0 ≤ acc → parse_uint_loop acc s = inl v → 0 ≤ v).
  { clear. induction s as [|c s IH]; intros acc v Hacc; simpl; [naive_solver|].
    destruct (digit_val c) as [d|] eqn:Hd; [|done]. case_bool_decide; [done|].
    apply IH. unfold digit_val in Hd. case_bool_decide; simplify_eq. lia. }
  unfold parse_int64, in_int64, MinInt64, MaxInt64.
  destruct s as [|c s]; [done|]. destruct (split_sign _) as [neg r].
  unfold parse_uint. destruct r as [|c' r]; [done|].
  destruct (parse_uint_loop 0 _) as [un|] eqn:Hun; [|done].
  apply Hloop in Hun; [|lia]. destruct neg; case_bool_decide; intros; simplify_eq; lia.
Qed.

Lemma Atoi_range s z : Atoi s = Ok z → in_int64 z.
Proof. unfold Atoi. destruct (parse_int64 s) eqn:E; intros; simplify_eq. by eapply parse_int64_range. Qed.

(** [Atoi (Itoa z) = z] on 64-bit integers. *)
Lemma digit_val_char (d : N) : (d < 10)%N → digit_val (pretty_N_char d) = Some (Z.of_N d).
Proof.
  intros H.
  assert (d = 0 ∨ d = 1 ∨ d = 2 ∨ d = 3 ∨ d = 4 ∨ d = 5 ∨ d = 6 ∨ d = 7 ∨ d = 8 ∨ d = 9)%N
    as Hd by lia.
  by repeat destruct Hd as [->|Hd]; [..|subst].
Qed.

Lemma parse_pretty_go (n : N) (acc : Z) (s : string) (k : nat) :
  (n < 10 ^ N.of_nat k)%N → 0 ≤ acc → acc * 10 ^ Z.of_nat k + Z.of_N n ≤ MaxUint64 →
  ∃ k' : nat, (k' ≤ k)%nat ∧ (n < 10 ^ N.of_nat k')%N ∧ (n = 0%N → k' = 0%nat) ∧
    parse_uint_loop acc (pretty_N_go n s) = parse_uint_loop (acc * 10 ^ Z.of_nat k' + Z.of_N n) s.
Proof.
  revert n acc s. induction k as [|k IH]; intros n acc s Hn Hacc Hmax.
  - assert (n = 0%N) as -> by (simpl in Hn; lia). exists 0%nat. rewrite pretty_N_go_0. simpl.
    split_and!; [lia|simpl; lia|done|f_equal; lia].
  - destruct (decide (n = 0%N)) as [->|Hnz].
    { exists 0%nat. rewrite pretty_N_go_0. split_and!; [lia|simpl; lia|done|f_equal; simpl; lia]. }
    rewrite pretty_N_go_step by lia.
    rewrite Nat2N.inj_succ, N.pow_succ_r' in Hn.
    rewrite Nat2Z.inj_succ, Z.pow_succ_r in Hmax by lia.
    pose proof (N.div_mod n 10 ltac:(lia)) as Hdm. pose proof (N.mod_lt n 10 ltac:(lia)).
    assert (0 ≤ acc * 10 ^ Z.of_nat k) by (apply Z.mul_nonneg_nonneg; [lia|apply Z.pow_nonneg; lia]).
    assert (acc * 10 ^ Z.of_nat k + Z.of_N (n / 10) ≤ MaxUint64).
    { replace (acc * (10 * 10 ^ Z.of_nat k)) with (10 * (acc * 10 ^ Z.of_nat k)) in Hmax by ring. lia. }
    destruct (IH (n / 10)%N acc (String (pretty_N_char (n mod 10)) s)) as (k' & ? & Hk' & Hz & ->);
      [apply N.Div0.div_lt_upper_bound; lia|lia|done|].
    exists (S k'). split_and!; [lia| |lia|].
    + rewrite Nat2N.inj_succ, N.pow_succ_r'. nia.
    + simpl. rewrite digit_val_char by lia.
      assert (Heq : (acc * 10 ^ Z.of_nat k' + Z.of_N (n / 10)) * 10 + Z.of_N (n mod 10)
        = acc * 10 ^ Z.of_nat (S k') + Z.of_N n)
        by (rewrite Nat2Z.inj_succ, Z.pow_succ_r by lia; lia).
      rewrite Heq.
      assert (Hpow : 10 ^ Z.of_nat (S k') ≤ 10 * 10 ^ Z.of_nat k).
      { rewrite <-Z.pow_succ_r by lia. apply Z.pow_le_mono_r; lia. }
      pose proof (Z.mul_le_mono_nonneg_l _ _ acc Hacc Hpow).
      rewrite bool_decide_eq_false_2 by lia. done.
Qed.

Lemma parse_uint_pretty (n : N) : Z.of_N n ≤ MaxUint64 → parse_uint (pretty n) = inl (Z.of_N n).
Proof.
  intros Hn. unfold MaxUint64 in Hn.
  assert (Hk : (n < 10 ^ N.of_nat 20)%N) by (eapply N.lt_le_trans with 18446744073709551616%N; [lia|apply N.leb_le; vm_compute; reflexivity]).
  destruct (parse_pretty_go n 0 "" 20 Hk) as (k' & _ & _ & _ & Hp);
    [lia|unfold MaxUint64; lia|].
  rewrite Z.mul_0_l, Z.add_0_l in Hp. change (parse_uint_loop (Z.of_N n) "") with (inl (B:=num_err) (Z.of_N n)) in Hp.
  unfold pretty, pretty_N, parse_uint. case_decide as Hz; [by subst|].
  destruct (pretty_N_go n "") as [|c r]; [|done].
  injection Hp as Hp. lia.
Qed.

Lemma pretty_N_go_head (n : N) s : (0 < n)%N →
  ∃ d r, (d < 10)%N ∧ pretty_N_go n s = String (pretty_N_char d) r.
Proof.
  revert s. induction (N.lt_wf_0 n) as [n _ IH]; intros s Hn.
  rewrite pretty_N_go_step by done.
  destruct (decide (n / 10 = 0)%N) as [->|].
  - rewrite pretty_N_go_0. exists (n mod 10)%N. eexists. split; [apply N.mod_lt; lia|done].
  - apply IH; [apply N.div_lt; lia|lia].
Qed.

Lemma split_sign_pretty_N (n : N) : split_sign (pretty n) = (false, pretty n) ∧ pretty n ≠ "".
Proof.
  unfold pretty, pretty_N. case_decide; [done|].
  destruct (pretty_N_go_head n "") as (d & r & Hd & ->); [lia|]. split; [|done].
  assert (d = 0 ∨ d = 1 ∨ d = 2 ∨ d = 3 ∨ d = 4 ∨ d = 5 ∨ d = 6 ∨ d = 7 ∨ d = 8 ∨ d = 9)%N
    as Hc by lia.
  by repeat destruct Hc as [->|Hc]; [..|subst].
Qed.

Lemma Atoi_Itoa z : in_int64 z → Atoi (Itoa z) = Ok z.
Proof.
  intros Hz. unfold in_int64, MinInt64, MaxInt64 in Hz. unfold Atoi, parse_int64, Itoa.
  destruct z as [|p|p].
  - done.
  - change (pretty (Z.pos p)) with (pretty (N.pos p)).
    destruct (split_sign_pretty_N (N.pos p)) as [-> Hne].
    destruct (pretty (N.pos p)) eqn:E; [done|]. rewrite <-E.
    rewrite parse_uint_pretty by (unfold MaxUint64; lia).
    rewrite bool_decide_eq_false_2 by lia. done.
  - change (pretty (Z.neg p)) with (String (Ascii.ascii_of_nat 45) (pretty (N.pos p))).
    simpl split_sign. cbv iota beta.
    rewrite parse_uint_pretty by (unfold MaxUint64; lia).
    rewrite bool_decide_eq_false_2 by lia. done.
Qed.

(** ** [net]: host and port *)
Definition addr_error (addr why : string) : string :=
  if bool_decide (addr = "") then why else "address " +:+ addr +:+ ": " +:+ why.

Definition missingPort : string := "missing port in address".
Definition tooManyColons : string := "too many colons in address".

(** [net.SplitHostPort]. *)
Definition SplitHostPort (hostport : string) : result (string * string) :=
  let addrErr why := Err (addr_error hostport why) in
  let brackets j k host port :=
    if contains_byte lbracket (str_drop j hostport) then addrErr "unexpected '[' in address"
    else if contains_byte rbracket (str_drop k hostport) then addrErr "unexpected ']' in address"
    else Ok (host, port) in
  match last_index_byte colon hostport with
  | None => addrErr missingPort
  | Some i =>
      let port := str_drop (S i) hostport in
      if bool_decide (str_at 0 hostport = Some lbracket) then
        match index_byte rbracket hostport with
        | None => addrErr "missing ']' in address"
        | Some en =>
            if bool_decide (S en = String.length hostport) then addrErr missingPort
            else if bool_decide (S en = i) then
              brackets 1%nat (S en) (str_take (en - 1) (str_drop 1 hostport)) port
            else if bool_decide (str_at (S en) hostport = Some colon) then addrErr tooManyColons
            else addrErr missingPort
        end
      else
        let host := str_take i hostport in
        if contains_byte colon host then addrErr tooManyColons
        else brackets 0%nat 0%nat host port
  end.

(** [net.JoinHostPort]. *)
Definition JoinHostPort (host port : string) : string :=
  if contains_byte colon host then "[" +:+ host +:+ "]:" +:+ port else host +:+ ":" +:+ port.

Example split_v4 : SplitHostPort "1.2.3.4:80" = Ok ("1.2.3.4", "80").
Proof. reflexivity. Qed.
Example split_v6 : SplitHostPort "[::1]:80" = Ok ("::1", "80").
Proof. reflexivity. Qed.
Example split_none : SplitHostPort "" = Err "missing port in address".
Proof. reflexivity. Qed.
Example split_many : SplitHostPort "::1:80" = Err "address ::1:80: too many colons in address".
Proof. reflexivity. Qed.

(** ** [slices.Compact] and the argument's backing array

    [slices.Compact(s)] returns the prefix without adjacent duplicates and
    clears the rest of [s] in place (Go 1.22 and later): after the call the
    caller's slice reads [compact_backing s]. *)
Fixpoint compact_from (prev : string) (l : list string) : list string :=
  match l with
  | [] => []
  | x :: l => if decide (x = prev) then compact_from prev l else x :: compact_from x l
  end.
Definition Compact (l : list string) : list string :=
  match l with [] => [] | x :: l => x :: compact_from x l end.
Definition compact_backing (l : list string) : list string :=
  Compact l ++ replicate (length l - length (Compact l)) "".

Lemma length_compact_from prev l : (length (compact_from prev l) ≤ length l)%nat.
Proof. revert prev. induction l as [|x l IH]; intros prev; simpl; [lia|]. case_decide; simpl; [specialize (IH prev)|specialize (IH x)]; lia. Qed.
Lemma length_Compact l : (length (Compact l) ≤ length l)%nat.
Proof. destruct l as [|x l]; simpl; [lia|]. pose proof (length_compact_from x l). lia. Qed.
Lemma length_compact_backing l : length (compact_backing l) = length l.
Proof. unfold compact_backing. rewrite length_app, length_replicate. pose proof (length_Compact l). lia. Qed.

Lemma elem_of_compact_from y prev l : y ∈ compact_from prev l → y ∈ l.
Proof.
  revert prev. induction l as [|x l IH]; intros prev; simpl; [done|].
  case_decide; rewrite ?elem_of_cons; naive_solver.
Qed.
Lemma elem_of_Compact y l : y ∈ Compact l ↔ y ∈ l.
Proof.
  destruct l as [|x l]; simpl; [done|]. rewrite !elem_of_cons. split.
  - intros [->|H]; [by left|right]. by eapply elem_of_compact_from.
  - intros [->|H]; [by left|]. revert x. induction l as [|z l IH]; intros x; [by inversion H|].
    simpl. apply elem_of_cons in H as [->|H].
    + case_decide; [naive_solver|]. right. left.
    + case_decide; [by apply IH|]. destruct (IH H z) as [->|Hin]; right; [left|by right].
Qed.

(** No two neighbours are equal. *)
Fixpoint no_adjacent (l : list string) : Prop :=
  match l with
  | x :: ((y :: _) as r) => x ≠ y ∧ no_adjacent r
  | _ => True
  end.
Lemma compact_from_no_adjacent prev l : no_adjacent (prev :: compact_from prev l).
Proof.
  revert prev. induction l as [|x l IH]; intros prev; [done|].
  simpl. case_decide; [apply IH|]. simpl. split; [done|]. apply (IH x).
Qed.
Lemma Compact_no_adjacent l : no_adjacent (Compact l).
Proof. destruct l as [|x l]; [done|]. apply compact_from_no_adjacent. Qed.
Lemma Compact_id l : no_adjacent l → Compact l = l.
Proof.
  destruct l as [|x l]; [done|]. intros H. simpl. f_equal. revert x H.
  induction l as [|y l IH]; intros x H; [done|]. destruct H as [Hxy H]. simpl.
  rewrite decide_False by congruence. f_equal. by apply IH.
Qed.

(** ** [time]: instants and durations in nanoseconds

    An instant is the number of nanoseconds since year 1, [0] being the zero
    [time.Time]; [Time.Sub] saturates at the limits of [time.Duration]. *)
Definition Second : Z := 1000000000.
Definition Millisecond : Z := 1000000.
Definition Hour : Z := 3600 * Second.
Definition time_sub (a b : Z) : Z := Z.max MinInt64 (Z.min MaxInt64 (a - b)).
Definition time_after (a b : Z) : bool := bool_decide (b < a).
Definition time_is_zero (a : Z) : bool := bool_decide (a = 0).

(** ** [strings.TrimSpace]

    The UTF-8 encodings of the runes for which [unicode.IsSpace] holds. *)
Definition space_seqs : list (list byte) :=
  [[Byte.x09]; [Byte.x0a]; [Byte.x0b]; [Byte.x0c]; [Byte.x0d]; [Byte.x20];
   [Byte.xc2; Byte.x85]; [Byte.xc2; Byte.xa0]; [Byte.xe1; Byte.x9a; Byte.x80]]
  ++ ((λ n, [Byte.xe2; Byte.x80; byte_of_Z (128 + Z.of_nat n)]) <$> seq 0 11)
  ++ [[Byte.xe2; Byte.x80; Byte.xa8]; [Byte.xe2; Byte.x80; Byte.xa9];
      [Byte.xe2; Byte.x80; Byte.xaf]; [Byte.xe2; Byte.x81; Byte.x9f];
      [Byte.xe3; Byte.x80; Byte.x80]].

Fixpoint strip_one (seqs : list (list byte)) (l : list byte) : option (list byte) :=
  match seqs with
  | [] => None
  | q :: seqs => if decide (take (length q) l = q) then Some (drop (length q) l)
                 else strip_one seqs l
  end.
Fixpoint strip_left (fuel : nat) (seqs : list (list byte)) (l : list byte) : list byte :=
  match fuel with
  | O => l
  | S fuel => match strip_one seqs l with
              | None => l
              | Some l' => strip_left fuel seqs l'
              end
  end.
Definition TrimSpace (s : string) : string :=
  let l := bytes_of s in
  let l := strip_left (length l) space_seqs l in
  let r := reverse l in
  string_of (reverse (strip_left (length r) (reverse <$> space_seqs) r)).

Example trim_token : TrimSpace (string_of [Byte.x20; Byte.x61; Byte.x20; Byte.x62; Byte.x0a; Byte.xe2; Byte.x80; Byte.xa8]) = "a b".
Proof. vm_compute. reflexivity. Qed.

(** ** [unicode/utf8]: decoding with Go's accepted ranges *)
Definition is_cont (z : Z) : bool := (128 <=? z) && (z <=? 191).

Definition decode_rune (l : list byte) : option (Z * nat) :=
  match Z_of_byte <$> l with
  | [] => None
  | b0 :: r =>
      if b0 <? 128 then Some (b0, 1%nat)
      else if (194 <=? b0) && (b0 <=? 223) then
        match r with
        | b1 :: _ => if is_cont b1 then Some ((b0 - 192) * 64 + (b1 - 128), 2%nat) else None
        | _ => None
        end
      else if (224 <=? b0) && (b0 <=? 239) then
        match r with
        | b1 :: b2 :: _ =>
            let lo := if b0 =? 224 then 160 else 128 in
            let hi := if b0 =? 237 then 159 else 191 in
            if (lo <=? b1) && (b1 <=? hi) && is_cont b2
            then Some ((b0 - 224) * 4096 + (b1 - 128) * 64 + (b2 - 128), 3%nat) else None
        | _ => None
        end
      else if (240 <=? b0) && (b0 <=? 244) then
        match r with
        | b1 :: b2 :: b3 :: _ =>
            let lo := if b0 =? 240 then 144 else 128 in
            let hi := if b0 =? 244 then 143 else 191 in
            if (lo <=? b1) && (b1 <=? hi) && is_cont b2 && is_cont b3
            then Some ((b0 - 240) * 262144 + (b1 - 128) * 4096 + (b2 - 128) * 64 + (b3 - 128), 4%nat)
            else None
        | _ => None
        end
      else None
  end.

(** The runes of a valid UTF-8 text; [None] when it is not valid.  Every rune takes
    at least one byte, so the length is enough fuel. *)
Fixpoint runes_loop (fuel : nat) (l : list byte) : option (list Z) :=
  match fuel, l with
  | _, [] => Some []
  | O, _ => None
  | S fuel, _ =>
      match decode_rune l with
      | Some (r, n) => (cons r) <$> runes_loop fuel (drop n l)
      | None => None
      end
  end.
Definition runes (s : string) : option (list Z) :=
  let l := bytes_of s in runes_loop (length l) l.
Definition ValidString (s : string) : bool := bool_decide (is_Some (runes s)).

Lemma runes_loop_ascii fuel l :
  Forall (λ b, Z_of_byte b < 128) l → (length l ≤ fuel)%nat →
  runes_loop fuel l = Some (Z_of_byte <$> l).
Proof.
  revert fuel. induction l as [|b l IH]; intros [|fuel] Hl Hf; simpl in *; try done; [lia|].
  apply Forall_cons in Hl as [Hb Hl]. unfold decode_rune. cbn [fmap list_fmap].
  destruct (Z.ltb_spec (Z_of_byte b) 128); [|lia]. simpl. rewrite IH by (done || lia). done.
Qed.
Lemma ValidString_ascii l : Forall (λ b, Z_of_byte b < 128) l → ValidString (string_of l) = true.
Proof.
  intros Hl. unfold ValidString, runes. rewrite bytes_of_string_of, runes_loop_ascii by done.
  apply bool_decide_eq_true_2. by eexists.
Qed.

(** [fmt]'s [%v] of a slice of strings. *)
Fixpoint join_str (sep : string) (l : list string) : string :=
  match l with
  | [] => ""
  | [x] => x
  | x :: l => x +:+ sep +:+ join_str sep l
  end.
Definition fmt_slice (l : list string) : string := "[" +:+ join_str " " l +:+ "]".

(** [strings.Split] with a one-byte separator. *)
Fixpoint split_on (c : ascii) (s : string) : list string :=
  match s with
  | EmptyString => [""]
  | String d s =>
      if decide (d = c) then "" :: split_on c s
      else match split_on c s with
           | [] => [String d ""]
           | x :: l => String d x :: l
           end
  end.

Lemma split_on_nonempty c s : split_on c s ≠ [].
Proof. destruct s as [|d s]; simpl; [done|]. case_decide; [done|]. by destruct (split_on c s). Qed.

Lemma split_on_no c s : index_byte c s = None → split_on c s = [s].
Proof.
  induction s as [|d s IH]; simpl; [done|]. case_decide as Hc; [done|].
  rewrite decide_False by congruence. destruct (index_byte c s); [done|]. intros _. by rewrite IH.
Qed.

Lemma split_on_app c s t : index_byte c s = None →
  split_on c (s +:+ String c t) = s :: split_on c t.
Proof.
  induction s as [|d s IH]; intros Hs.
  - change ("" +:+ String c t) with (String c t). simpl. by rewrite decide_True.
  - change (String d s +:+ String c t) with (String d (s +:+ String c t)). simpl in *.
    case_decide as Hc; [done|]. rewrite decide_False by congruence.
    destruct (index_byte c s); [done|]. by rewrite IH.
Qed.

(** ** Texts of a restricted alphabet *)
Lemma bytes_of_cons c s : bytes_of (String c s) = Ascii.byte_of_ascii c :: bytes_of s.
Proof. done. Qed.
Lemma length_bytes_of s : length (bytes_of s) = String.length s.
Proof. induction s as [|c s IH]; [done|]. rewrite bytes_of_cons. simpl. by rewrite IH. Qed.

Lemma index_byte_None_bytes c s :
  Forall (λ b, b ≠ Ascii.byte_of_ascii c) (bytes_of s) → index_byte c s = None.
Proof.
  induction s as [|d s IH]; [done|]. rewrite bytes_of_cons, Forall_cons. intros [Hd Hs].
  simpl. rewrite decide_False by congruence. by rewrite IH.
Qed.

Lemma pretty_N_go_bytes (n : N) s :
  Forall (λ b, 48 ≤ Z_of_byte b ≤ 57) (bytes_of s) →
  Forall (λ b, 48 ≤ Z_of_byte b ≤ 57) (bytes_of (pretty_N_go n s)).
Proof.
  revert s. induction (N.lt_wf_0 n) as [n _ IH]; intros s Hs.
  destruct (decide (n = 0%N)) as [->|]; [by rewrite pretty_N_go_0|].
  rewrite pretty_N_go_step by lia. apply IH; [apply N.div_lt; lia|].
  rewrite bytes_of_cons. constructor; [|done].
  pose proof (N.mod_lt n 10 ltac:(lia)). set (d := (n mod 10)%N) in *.
  assert (d = 0 ∨ d = 1 ∨ d = 2 ∨ d = 3 ∨ d = 4 ∨ d = 5 ∨ d = 6 ∨ d = 7 ∨ d = 8 ∨ d = 9)%N
    as Hc by lia.
  by repeat destruct Hc as [->|Hc]; [..|rewrite Hc].
Qed.

Lemma Itoa_digits z : 0 ≤ z → Forall (λ b, 48 ≤ Z_of_byte b ≤ 57) (bytes_of (Itoa z)).
Proof.
  intros Hz. destruct z as [|p|p]; [by repeat constructor| |lia].
  change (Itoa (Z.pos p)) with (pretty (N.pos p)). unfold pretty, pretty_N.
  case_decide; [done|]. by apply pretty_N_go_bytes.
Qed.

(** [TrimSpace] leaves a text of visible ASCII characters alone. *)
Definition visible (b : byte) : Prop := 33 ≤ Z_of_byte b ≤ 126.
#[export] Instance visible_dec b : Decision (visible b).
Proof. unfold visible. apply _. Defined.
Definition starts_invisible (q : list byte) : Prop :=
  match q with [] => False | h :: _ => ¬ visible h end.
#[export] Instance starts_invisible_dec q : Decision (starts_invisible q).
Proof. destruct q; simpl; apply _. Defined.

Lemma strip_left_visible fuel seqs l :
  Forall starts_invisible seqs → Forall visible l → strip_left fuel seqs l = l.
Proof.
  intros Hseqs Hl. destruct fuel as [|fuel]; [done|]. simpl.
  assert (strip_one seqs l = None) as ->; [|done].
  induction Hseqs as [|q seqs Hq Hseqs IH]; [done|]. simpl. rewrite decide_False; [done|].
  destruct q as [|h q]; [done|]. destruct Hl as [|b l Hb Hl]; [done|]. simpl. intros [= -> _]. done.
Qed.

Lemma TrimSpace_visible s : Forall visible (bytes_of s) → TrimSpace s = s.
Proof.
  intros Hs. unfold TrimSpace. rewrite (strip_left_visible _ space_seqs).
  - rewrite (strip_left_visible _ (reverse <$> space_seqs)).
    + rewrite reverse_involutive. apply string_of_bytes_of.
    + apply (bool_decide_unpack _). vm_compute. exact I.
    + by apply Forall_reverse.
  - apply (bool_decide_unpack _). vm_compute. exact I.
  - done.
Qed.

Lemma ParseInt64_Itoa z : in_int64 z → ParseInt64 (Itoa z) = Ok z.
Proof.
  intros Hz. pose proof (Atoi_Itoa z Hz) as H. unfold Atoi, ParseInt64 in *.
  by destruct (parse_int64 (Itoa z)).
Qed.
