(* ===== verification/Json.v ===== *)
(** * JSON texts: the part of [encoding/json] the program uses

    A JSON value, its compact text as [json.Marshal] writes it (HTML characters and the line
    separators escaped, invalid UTF-8 replaced), and the grammar [json.Unmarshal] and a
    [json.Decoder] accept, with the limit on nesting.  A number keeps its literal, as the
    decoder does until it knows the target's type.  These are definitions of the language's
    library and are not mapped to files of the repository. *)
From S2P Require Import Prelude GoStd.
From stdpp Require Import list.
Local Open Scope Z_scope.

#[local] Arguments Byte.eqb : simpl never.

Inductive json : Type :=
| JNull
| JBool (b : bool)
| JNum (lit : list byte)
| JStr (s : string)
| JArr (l : list json)
| JObj (l : list (string * json)).

(** Induction with the hypothesis for every element and member. *)
Section json_ind.
Context (P : json → Prop) (Hnull : P JNull) (Hbool : ∀ b, P (JBool b))
  (Hnum : ∀ lit, P (JNum lit)) (Hstr : ∀ s, P (JStr s))
  (Harr : ∀ l, Forall P l → P (JArr l))
  (Hobj : ∀ l, Forall (λ kv, P kv.2) l → P (JObj l)).
Fixpoint json_full_ind (j : json) : P j :=
  match j with
  | JNull => Hnull
  | JBool b => Hbool b
  | JNum lit => Hnum lit
  | JStr s => Hstr s
  | JArr l =>
      Harr l ((fix go (l : list json) : Forall P l :=
        match l with
        | [] => Forall_nil_2 _
        | j :: l => Forall_cons_2 _ _ _ (json_full_ind j) (go l)
        end) l)
  | JObj l =>
      Hobj l ((fix go (l : list (string * json)) : Forall (λ kv, P kv.2) l :=
        match l with
        | [] => Forall_nil_2 _
        | kv :: l => Forall_cons_2 _ _ _ (json_full_ind kv.2) (go l)
        end) l)
  end.
End json_ind.

(** ** Runes *)
Definition RuneError : Z := 65533.
(** [utf8.AppendRune] below the surrogates' replacement. *)
Definition encode_rune (r : Z) : list byte :=
  if r <? 128 then [byte_of_Z r]
  else if r <? 2048 then [byte_of_Z (192 + r / 64); byte_of_Z (128 + r mod 64)]
  else if r <? 65536 then
    [byte_of_Z (224 + r / 4096); byte_of_Z (128 + (r / 64) mod 64); byte_of_Z (128 + r mod 64)]
  else
    [byte_of_Z (240 + r / 262144); byte_of_Z (128 + (r / 4096) mod 64);
     byte_of_Z (128 + (r / 64) mod 64); byte_of_Z (128 + r mod 64)].

(** A step of decoding: its bytes are the head of the text, and what follows them does not
    matter. *)
Lemma decode_rune_app l r n k : decode_rune l = Some (r, n) →
  (1 ≤ n ≤ length l)%nat ∧ decode_rune (take n l ++ k) = Some (r, n).
Proof.
  unfold decode_rune. destruct l as [|b0 [|b1 [|b2 [|b3 l]]]]; [done|..]; cbn [fmap list_fmap];
    intros Hd;
    repeat (match type of Hd with context [if ?c then _ else _] => destruct c eqn:? end;
            try discriminate Hd);
    injection Hd as <- <-; (split; [simpl; lia|]); cbn [take app fmap list_fmap];
    repeat match goal with E : ?c = _ |- context [if ?c then _ else _] => rewrite E end; done.
Qed.
Lemma decode_rune_ascii b l : Z_of_byte b < 128 → decode_rune (b :: l) = Some (Z_of_byte b, 1%nat).
Proof. intros H. unfold decode_rune. cbn [fmap list_fmap]. by rewrite (proj2 (Z.ltb_lt _ _) H). Qed.

(** ** Strings *)
Local Open Scope byte_scope.
Definition hex_digits : list byte :=
  ["0"; "1"; "2"; "3"; "4"; "5"; "6"; "7"; "8"; "9"; "a"; "b"; "c"; "d"; "e"; "f"]%byte.
Definition hex_digit (z : Z) : byte := default "0" (hex_digits !! Z.to_nat z).
Definition hex_val (b : byte) : option Z :=
  let z := Z_of_byte b in
  if (48 <=? z) && (z <=? 57) then Some (z - 48)
  else if (97 <=? z) && (z <=? 102) then Some (z - 87)
  else if (65 <=? z) && (z <=? 70) then Some (z - 55)
  else None.
Definition backslash : byte := x5c.
Definition quote_char : byte := x22.

(** What stands for a byte below 128 in a text. *)
Definition quote_byte (b : byte) : list byte :=
  if Byte.eqb b quote_char || Byte.eqb b backslash then [backslash; b]
  else if Byte.eqb b x08 then [backslash; "b"]
  else if Byte.eqb b x0c then [backslash; "f"]
  else if Byte.eqb b x0a then [backslash; "n"]
  else if Byte.eqb b x0d then [backslash; "r"]
  else if Byte.eqb b x09 then [backslash; "t"]
  else if (Z_of_byte b <? 32) || Byte.eqb b "<" || Byte.eqb b ">" || Byte.eqb b "&" then
    [backslash; "u"; "0"; "0"; hex_digit (Z_of_byte b / 16); hex_digit (Z_of_byte b mod 16)]
  else [b].

(** [appendString] with HTML escaping: one rune in every round, so the length is enough fuel. *)
Fixpoint quote_loop (fuel : nat) (l : list byte) : list byte :=
  match fuel, l with
  | S fuel, b :: r =>
      if Z_of_byte b <? 128 then quote_byte b ++ quote_loop fuel r
      else if bool_decide (take 3 l = [xe2; x80; xa8]) then
        [backslash; "u"; "2"; "0"; "2"; "8"] ++ quote_loop fuel (drop 3 l)
      else if bool_decide (take 3 l = [xe2; x80; xa9]) then
        [backslash; "u"; "2"; "0"; "2"; "9"] ++ quote_loop fuel (drop 3 l)
      else match decode_rune l with
           | Some (_, n) => take n l ++ quote_loop fuel (drop n l)
           | None => [backslash; "u"; "f"; "f"; "f"; "d"] ++ quote_loop fuel r
           end
  | _, _ => []
  end.
Definition quote (s : string) : list byte :=
  let l := bytes_of s in quote_char :: quote_loop (length l) l ++ [quote_char].

(** The four hexadecimal digits of an escape. *)
Definition hex4 (l : list byte) : option Z :=
  match l with
  | a :: b :: c :: d :: _ =>
      match hex_val a, hex_val b, hex_val c, hex_val d with
      | Some a, Some b, Some c, Some d => Some (a * 4096 + b * 256 + c * 16 + d)
      | _, _, _, _ => None
      end
  | _ => None
  end.
(** [getu4]: an escaped code unit at the head of the text. *)
Definition getu4 (l : list byte) : option Z :=
  match l with
  | a :: b :: r => if Byte.eqb a backslash && Byte.eqb b "u" then hex4 r else None
  | _ => None
  end.
Definition is_surrogate (r : Z) : bool := (55296 <=? r) && (r <? 57344).
(** [utf16.DecodeRune]. *)
Definition decode_surrogates (hi lo : Z) : option Z :=
  if (55296 <=? hi) && (hi <? 56320) && (56320 <=? lo) && (lo <? 57344)
  then Some ((hi - 55296) * 1024 + (lo - 56320) + 65536) else None.

Definition unescape (b : byte) : option byte :=
  if Byte.eqb b quote_char || Byte.eqb b backslash || Byte.eqb b "/" then Some b
  else if Byte.eqb b "b" then Some x08
  else if Byte.eqb b "f" then Some x0c
  else if Byte.eqb b "n" then Some x0a
  else if Byte.eqb b "r" then Some x0d
  else if Byte.eqb b "t" then Some x09
  else None.

(** A string after its opening quote: its bytes and what follows the closing quote.  A round
    takes at least one byte. *)
Definition prepend {B} (h : list byte) (x : option (list byte * B)) : option (list byte * B) :=
  '(l, r) ← x; Some (h ++ l, r).
Fixpoint unquote (fuel : nat) (l : list byte) : option (list byte * list byte) :=
  match fuel, l with
  | S fuel, b :: r =>
      if Byte.eqb b quote_char then Some ([], r)
      else if Byte.eqb b backslash then
        match r with
        | [] => None
        | e :: r' =>
            if Byte.eqb e "u" then
              match hex4 r' with
              | None => None
              | Some rr =>
                  let r'' := drop 4 r' in
                  if is_surrogate rr then
                    match getu4 r'' ≫= decode_surrogates rr with
                    | Some dec => prepend (encode_rune dec) (unquote fuel (drop 6 r''))
                    | None => prepend (encode_rune RuneError) (unquote fuel r'')
                    end
                  else prepend (encode_rune rr) (unquote fuel r'')
              end
            else match unescape e with
                 | Some c => prepend [c] (unquote fuel r')
                 | None => None
                 end
        end
      else if Z_of_byte b <? 32 then None
      else match decode_rune l with
           | Some (_, n) => prepend (take n l) (unquote fuel (drop n l))
           | None => prepend (encode_rune RuneError) (unquote fuel r)
           end
  | _, _ => None
  end.
Close Scope byte_scope.

(** Escaping a byte and reading the escape back. *)
Lemma unquote_byte fuel b k : Z_of_byte b < 128 →
  unquote (S fuel) (quote_byte b ++ k) = prepend [b] (unquote fuel k).
Proof. intros Hb. destruct b; first [reflexivity | vm_compute in Hb; discriminate Hb]. Qed.

Lemma not_special b : 128 ≤ Z_of_byte b →
  Byte.eqb b quote_char = false ∧ Byte.eqb b backslash = false ∧ (Z_of_byte b <? 32) = false.
Proof. intros Hb. destruct b; first [done | vm_compute in Hb; by exfalso]. Qed.

Lemma runes_loop_step fuel l rs : l ≠ [] → runes_loop (S fuel) l = Some rs →
  ∃ r n rs', decode_rune l = Some (r, n) ∧ runes_loop fuel (drop n l) = Some rs'.
Proof.
  intros Hl H. destruct l as [|b l]; [done|]. cbn [runes_loop] in H.
  destruct (decode_rune (b :: l)) as [[r n]|]; [|done].
  destruct (runes_loop fuel (drop n (b :: l))) as [rs'|] eqn:E; [|done]. by exists r, n, rs'.
Qed.

(** A valid text survives quoting, whatever follows and with any fuel that is long enough. *)
Lemma unquote_quote_loop fuel fuel' l k rs : (length l ≤ fuel)%nat → (length l < fuel')%nat →
  runes_loop fuel l = Some rs →
  unquote fuel' (quote_loop fuel l ++ quote_char :: k) = Some (l, k).
Proof.
  revert fuel' l rs. induction fuel as [|fuel IH]; intros fuel' l rs Hf Hf' Hv.
  { destruct l; [|simpl in Hf; lia]. destruct fuel'; [simpl in Hf'; lia|done]. }
  destruct l as [|b l]; [destruct fuel'; [simpl in Hf'; lia|done]|].
  apply runes_loop_step in Hv as (r & n & rs' & Hd & Hv); [|done].
  destruct (decode_rune_app _ _ _ [] Hd) as [Hn _].
  destruct fuel' as [|fuel']; [simpl in Hf'; lia|]. cbn [quote_loop].
  assert (Hrec : unquote fuel' (quote_loop fuel (drop n (b :: l)) ++ quote_char :: k)
    = Some (drop n (b :: l), k)).
  { eapply IH; [| |done]; rewrite length_drop; lia. }
  destruct (Z.ltb_spec (Z_of_byte b) 128) as [Hb|Hb].
  { rewrite decode_rune_ascii in Hd by done. injection Hd as <- <-.
    rewrite <-(assoc_L (++)), unquote_byte by done. simpl in Hrec. rewrite drop_0 in Hrec. by rewrite Hrec. }
  case_bool_decide as H8; [|case_bool_decide as H9].
  - destruct l as [|b1 [|b2 l]]; [done..|]. simpl in H8. injection H8 as -> -> ->.
    vm_compute in Hd. injection Hd as <- <-. cbn [drop] in *.
    change (prepend [xe2; x80; xa8] (unquote fuel' (quote_loop fuel l ++ quote_char :: k)) =
      Some (xe2 :: x80 :: xa8 :: l, k)). by rewrite drop_0 in Hrec; rewrite Hrec.
  - destruct l as [|b1 [|b2 l]]; [done..|]. simpl in H9. injection H9 as -> -> ->.
    vm_compute in Hd. injection Hd as <- <-. cbn [drop] in *.
    change (prepend [xe2; x80; xa9] (unquote fuel' (quote_loop fuel l ++ quote_char :: k)) =
      Some (xe2 :: x80 :: xa9 :: l, k)). by rewrite drop_0 in Hrec; rewrite Hrec.
  - rewrite Hd. destruct (not_special b Hb) as (Hq & Hs & Hc).
    destruct (decode_rune_app _ _ _ (quote_loop fuel (drop n (b :: l)) ++ quote_char :: k) Hd) as [_ Hd'].
    rewrite <-(assoc_L (++)).
    destruct n as [|n]; [lia|]. cbn [take app] in Hd' |- *. cbn [unquote].
    rewrite Hq, Hs, Hc, Hd'. cbn [take drop].
    assert (Hlen : length (take n l) = n) by (rewrite length_take; simpl in Hn; lia).
    rewrite take_app_le, take_ge, drop_app_ge by lia. rewrite Hlen, Nat.sub_diag, drop_0.
    cbn [drop] in Hrec. rewrite Hrec. cbn [prepend mbind option_bind]. by rewrite <-app_comm_cons, take_drop.
Qed.

Lemma unquote_quote s k : ValidString s = true →
  ∃ l, quote s = quote_char :: l ∧ ∀ fuel, (String.length s < fuel)%nat →
    unquote fuel (l ++ k) = Some (bytes_of s, k).
Proof.
  intros Hv. apply bool_decide_eq_true in Hv as [rs Hv]. eexists. split; [done|].
  intros fuel Hf. rewrite <-(assoc_L (++)). eapply unquote_quote_loop; [done| |done].
  by rewrite length_bytes_of.
Qed.

(** ** Numbers *)
Definition is_digit (b : byte) : bool := (48 <=? Z_of_byte b) && (Z_of_byte b <=? 57).
Fixpoint digits (l : list byte) : list byte * list byte :=
  match l with
  | b :: r => if is_digit b then let '(d, r') := digits r in (b :: d, r') else ([], l)
  | [] => ([], [])
  end.
(** At least one digit. *)
Definition digits1 (l : list byte) : option (list byte * list byte) :=
  match digits l with ([], _) => None | (d, r) => Some (d, r) end.
Definition scan_int (l : list byte) : option (list byte * list byte) :=
  match l with
  | b :: r => if Byte.eqb b "0" then Some ([b], r)
              else if is_digit b then let '(d, r') := digits r in Some (b :: d, r') else None
  | [] => None
  end.
Definition scan_frac (l : list byte) : option (list byte * list byte) :=
  match l with
  | b :: r => if Byte.eqb b "." then prepend [b] (digits1 r) else Some ([], l)
  | [] => Some ([], [])
  end.
Definition scan_exp (l : list byte) : option (list byte * list byte) :=
  match l with
  | b :: r =>
      if Byte.eqb b "e" || Byte.eqb b "E" then
        match r with
        | s :: r' => if Byte.eqb s "+" || Byte.eqb s "-" then prepend [b; s] (digits1 r')
                     else prepend [b] (digits1 r)
        | [] => None
        end
      else Some ([], l)
  | [] => Some ([], [])
  end.
Definition scan_unsigned (l : list byte) : option (list byte * list byte) :=
  '(i, r) ← scan_int l; '(f, r) ← scan_frac r; '(e, r) ← scan_exp r; Some (i ++ f ++ e, r).
Definition scan_number (l : list byte) : option (list byte * list byte) :=
  match l with
  | b :: r => if Byte.eqb b "-" then prepend [b] (scan_unsigned r) else scan_unsigned l
  | [] => None
  end.
(** A literal of the grammar. *)
Definition number_literal (l : list byte) : bool := bool_decide (scan_number l = Some (l, [])).

(** What can follow a number. *)
Definition stops (k : list byte) : Prop :=
  match k with
  | [] => True
  | b :: _ => is_digit b = false ∧ b ≠ "."%byte ∧ b ≠ "e"%byte ∧ b ≠ "E"%byte
  end.
Definition extensible (scan : list byte → option (list byte * list byte)) : Prop :=
  ∀ l a r k, scan l = Some (a, r) → stops k → scan (l ++ k) = Some (a, r ++ k).

Lemma digits_app l a r k : digits l = (a, r) → stops k → digits (l ++ k) = (a, r ++ k).
Proof.
  revert a r. induction l as [|b l IH]; simpl; intros a r H Hk; simplify_eq.
  - destruct k as [|b k]; [done|]. simpl in *. by destruct Hk as [-> _].
  - destruct (is_digit b); [|by simplify_eq]. destruct (digits l) as [d r'] eqn:E; simplify_eq.
    by rewrite (IH _ _ eq_refl Hk).
Qed.
Lemma digits1_ext : extensible digits1.
Proof.
  intros l a r k. unfold digits1. destruct (digits l) as [[|x d] r'] eqn:E; [done|].
  intros [= <- <-] Hk. by rewrite (digits_app _ _ _ _ E Hk).
Qed.
Lemma prepend_Some {B} h (x : option (list byte * B)) a r :
  prepend h x = Some (a, r) ↔ ∃ a', x = Some (a', r) ∧ a = h ++ a'.
Proof. destruct x as [[a' r']|]; simpl; naive_solver. Qed.

Lemma scan_int_ext : extensible scan_int.
Proof.
  intros [|b l] a r k; [done|]. simpl. case_match; [naive_solver|]. case_match; [|done].
  destruct (digits l) as [d r'] eqn:E. intros [= <- <-] Hk. by rewrite (digits_app _ _ _ _ E Hk).
Qed.
Lemma scan_frac_ext : extensible scan_frac.
Proof.
  intros [|b l] a r k; simpl.
  - intros [= <- <-] Hk. destruct k as [|b k]; [done|]. destruct Hk as (_ & Hb & _). simpl.
    destruct (Byte.eqb b ".") eqn:E; [by apply Byte.byte_dec_bl in E|done].
  - case_match; [|naive_solver]. rewrite prepend_Some. intros (a' & Hd & ->) Hk.
    by rewrite (digits1_ext _ _ _ _ Hd Hk).
Qed.
Lemma scan_exp_ext : extensible scan_exp.
Proof.
  intros [|b l] a r k; simpl.
  - intros [= <- <-] Hk. destruct k as [|b k]; [done|]. destruct Hk as (_ & _ & He & HE). simpl.
    destruct (Byte.eqb b "e") eqn:E; [by apply Byte.byte_dec_bl in E|].
    destruct (Byte.eqb b "E") eqn:E'; [by apply Byte.byte_dec_bl in E'|done].
  - case_match; [|naive_solver]. destruct l as [|s l]; [done|]. simpl.
    case_match; rewrite prepend_Some; intros (a' & Hd & ->) Hk;
      [by rewrite (digits1_ext _ _ _ _ Hd Hk)|].
    change (s :: l ++ k) with ((s :: l) ++ k). by rewrite (digits1_ext _ _ _ _ Hd Hk).
Qed.
Lemma scan_number_ext : extensible scan_number.
Proof.
  assert (Hu : extensible scan_unsigned).
  { intros l a r k. unfold scan_unsigned.
    destruct (scan_int l) as [[i r1]|] eqn:E1; [|done]. cbn [mbind option_bind].
    destruct (scan_frac r1) as [[f r2]|] eqn:E2; [|done]. cbn [mbind option_bind].
    destruct (scan_exp r2) as [[e r3]|] eqn:E3; [|done]. intros [= <- <-] Hk.
    rewrite (scan_int_ext _ _ _ _ E1 Hk). cbn [mbind option_bind].
    rewrite (scan_frac_ext _ _ _ _ E2 Hk). cbn [mbind option_bind].
    by rewrite (scan_exp_ext _ _ _ _ E3 Hk). }
  intros [|b l] a r k; [done|]. simpl. case_match.
  - rewrite prepend_Some. intros (a' & Hd & ->) Hk. by rewrite (Hu _ _ _ _ Hd Hk).
  - intros Hd Hk. change (b :: l ++ k) with ((b :: l) ++ k). by apply Hu.
Qed.

(** ** Values *)
Definition byte_str (s : string) : list byte := bytes_of s.
Fixpoint commas (l : list (list byte)) : list byte :=
  match l with
  | [] => []
  | [x] => x
  | x :: l => x ++ ","%byte :: commas l
  end.
(** The compact text of a value: [json.Marshal]. *)
Fixpoint print (j : json) : list byte :=
  match j with
  | JNull => bytes_of "null"
  | JBool true => bytes_of "true"
  | JBool false => bytes_of "false"
  | JNum lit => lit
  | JStr s => quote s
  | JArr l => "["%byte :: commas (List.map print l) ++ ["]"%byte]
  | JObj l =>
      "{"%byte :: commas (List.map (λ kv, quote kv.1 ++ ":"%byte :: print kv.2) l) ++ ["}"%byte]
  end.

Definition is_space (b : byte) : bool :=
  Byte.eqb b x20 || Byte.eqb b x09 || Byte.eqb b x0d || Byte.eqb b x0a.
Fixpoint skip_ws (l : list byte) : list byte :=
  match l with b :: r => if is_space b then skip_ws r else l | [] => [] end.
(** A keyword at the head of the text. *)
Definition keyword (w : list byte) (j : json) (l : list byte) : option (json * list byte) :=
  if bool_decide (take (length w) l = w) then Some (j, drop (length w) l) else None.
Definition parse_string (l : list byte) : option (string * list byte) :=
  match l with
  | b :: r => if Byte.eqb b quote_char
              then '(s, r) ← unquote (S (length r)) r; Some (string_of s, r) else None
  | [] => None
  end.

(** The grammar, [depth] being the nesting still allowed.  A value costs one unit of fuel
    and so does an element or member. *)
Fixpoint parse_value (fuel : nat) (depth : Z) (l : list byte) : option (json * list byte) :=
  match fuel with
  | O => None
  | S fuel =>
      match skip_ws l with
      | [] => None
      | b :: r =>
          if Byte.eqb b "{" then
            if depth <=? 0 then None
            else match skip_ws r with
                 | [] => None
                 | c :: r' =>
                     if Byte.eqb c "}" then Some (JObj [], r')
                     else '(ms, r) ← parse_members fuel (depth - 1) r; Some (JObj ms, r)
                 end
          else if Byte.eqb b "[" then
            if depth <=? 0 then None
            else match skip_ws r with
                 | [] => None
                 | c :: r' =>
                     if Byte.eqb c "]" then Some (JArr [], r')
                     else '(vs, r) ← parse_elems fuel (depth - 1) r; Some (JArr vs, r)
                 end
          else if Byte.eqb b quote_char then '(s, r) ← parse_string (b :: r); Some (JStr s, r)
          else if Byte.eqb b "n" then keyword (bytes_of "null") JNull (b :: r)
          else if Byte.eqb b "t" then keyword (bytes_of "true") (JBool true) (b :: r)
          else if Byte.eqb b "f" then keyword (bytes_of "false") (JBool false) (b :: r)
          else '(lit, r) ← scan_number (b :: r); Some (JNum lit, r)
      end
  end
with parse_elems (fuel : nat) (depth : Z) (l : list byte) : option (list json * list byte) :=
  match fuel with
  | O => None
  | S fuel =>
      '(v, r) ← parse_value fuel depth l;
      match skip_ws r with
      | b :: r =>
          if Byte.eqb b "," then '(vs, r) ← parse_elems fuel depth r; Some (v :: vs, r)
          else if Byte.eqb b "]" then Some ([v], r) else None
      | [] => None
      end
  end
with parse_members (fuel : nat) (depth : Z) (l : list byte)
    : option (list (string * json) * list byte) :=
  match fuel with
  | O => None
  | S fuel =>
      '(k, r) ← parse_string (skip_ws l);
      match skip_ws r with
      | b :: r =>
          if Byte.eqb b ":" then
            '(v, r) ← parse_value fuel depth r;
            match skip_ws r with
            | b :: r =>
                if Byte.eqb b "," then
                  '(ms, r) ← parse_members fuel depth r; Some ((k, v) :: ms, r)
                else if Byte.eqb b "}" then Some ([(k, v)], r) else None
            | [] => None
            end
          else None
      | [] => None
      end
  end.

Definition maxNestingDepth : Z := 10000.
(** What [Decoder.Decode] reads: the first value, whatever follows it. *)
Definition parse_first (l : list byte) : option json :=
  fst <$> parse_value (2 * length l + 2) maxNestingDepth l.
(** What [json.Unmarshal] reads: a value and nothing else. *)
Definition parse_all (l : list byte) : option json :=
  '(j, r) ← parse_value (2 * length l + 2) maxNestingDepth l;
  match skip_ws r with [] => Some j | _ => None end.

Example parse_example :
  parse_all (bytes_of (" { " +:+ squoted "a" +:+ " : [1, -2.5e3,null ,true], " +:+ squoted "b\u00e9\n" +:+ ":{}} "))
  = Some (JObj [("a", JArr [JNum (bytes_of "1"); JNum (bytes_of "-2.5e3"); JNull; JBool true]);
                (string_of [x62; xc3; xa9; x0a], JObj [])]).
Proof. vm_compute. reflexivity. Qed.
Example parse_surrogates :
  parse_all (bytes_of (squoted "\ud83d\ude00\ud83dx")) =
  Some (JStr (string_of [xf0; x9f; x98; x80; xef; xbf; xbd; x78])).
Proof. vm_compute. reflexivity. Qed.
Example parse_garbage :
  let l := bytes_of "01" in parse_all l = None ∧ parse_first l = Some (JNum (bytes_of "0")).
Proof. vm_compute. done. Qed.

(** ** Every reader shortens the text, so the fuel given is enough *)
Lemma skip_ws_length l : (length (skip_ws l) ≤ length l)%nat.
Proof. induction l as [|b l IH]; simpl; [lia|]. case_match; simpl; lia. Qed.
Lemma skip_ws_cons l b r : skip_ws l = b :: r → (length r < length l)%nat.
Proof. intros H. pose proof (skip_ws_length l). rewrite H in *. simpl in *. lia. Qed.

Lemma unquote_length fuel l s r : unquote fuel l = Some (s, r) → (length r < length l)%nat.
Proof.
  revert l s r. induction fuel as [|fuel IH]; [done|]. intros l s r. cbn [unquote].
  destruct l as [|b l]; [done|].
  assert (Hrec : ∀ h l', (length l' ≤ length l)%nat →
    prepend h (unquote fuel l') = Some (s, r) → (length r < length (b :: l))%nat).
  { intros h l' Hl. rewrite prepend_Some. intros (a & Ha & _). apply IH in Ha. simpl. lia. }
  destruct (Byte.eqb b quote_char); [intros [= _ ->]; simpl; lia|].
  destruct (Byte.eqb b backslash).
  - destruct l as [|e l]; [done|]. destruct (Byte.eqb e "u").
    + destruct (hex4 l); [|done]. destruct (is_surrogate _); [destruct (getu4 _ ≫= _)|];
        apply Hrec; rewrite ?length_drop; simpl; lia.
    + destruct (unescape e); [|done]. apply Hrec. simpl. lia.
  - destruct (_ <? 32); [done|]. destruct (decode_rune (b :: l)) as [[z n]|] eqn:Hd.
    + apply Hrec. destruct (decode_rune_app _ _ _ [] Hd) as [? _]. rewrite length_drop. simpl. lia.
    + by apply Hrec.
Qed.
Lemma parse_string_length l s r : parse_string l = Some (s, r) → (length r < length l)%nat.
Proof.
  unfold parse_string. destruct l as [|b l]; [done|]. case_match; [|done].
  destruct (unquote _ l) as [[s' r']|] eqn:E; [|done]. intros [= _ <-].
  apply unquote_length in E. simpl. lia.
Qed.

Lemma digits_length l d r : digits l = (d, r) → (length d + length r = length l)%nat.
Proof.
  revert d r. induction l as [|b l IH]; simpl; intros d r H; simplify_eq; [done|].
  case_match; [|by simplify_eq]. destruct (digits l) as [d' r'] eqn:E. simplify_eq. simpl.
  by rewrite (IH _ _ eq_refl).
Qed.
Lemma scan_number_length l d r : scan_number l = Some (d, r) → (length r < length l)%nat.
Proof.
  assert (Hd1 : ∀ l d r, digits1 l = Some (d, r) → (length r < length l)%nat).
  { clear. intros l d r. unfold digits1. destruct (digits l) as [[|x d'] r'] eqn:E; [done|].
    intros [= _ <-]. apply digits_length in E. simpl in E. lia. }
  assert (Hu : ∀ l d r, scan_unsigned l = Some (d, r) → (length r < length l)%nat).
  { clear -Hd1. intros l d r. unfold scan_unsigned.
    destruct (scan_int l) as [[i r1]|] eqn:E1; [|done]. cbn [mbind option_bind].
    destruct (scan_frac r1) as [[f r2]|] eqn:E2; [|done]. cbn [mbind option_bind].
    destruct (scan_exp r2) as [[e r3]|] eqn:E3; [|done]. intros [= _ <-].
    assert (length r1 < length l)%nat.
    { destruct l as [|b l]; [done|]. simpl in E1. case_match; [simplify_eq; simpl; lia|]. case_match; [|done].
      destruct (digits l) as [d' r'] eqn:E; simplify_eq. apply digits_length in E. simpl. lia. }
    assert (length r2 ≤ length r1)%nat.
    { destruct r1 as [|b r1]; simpl in E2; [by simplify_eq|].
      case_match; [|by simplify_eq].
      apply prepend_Some in E2 as (? & E2%Hd1 & _). simpl. lia. }
    assert (length r3 ≤ length r2)%nat; [|lia].
    destruct r2 as [|b r2]; simpl in E3; [by simplify_eq|]. case_match; [|by simplify_eq].
    destruct r2 as [|s r2]; [done|]. case_match; apply prepend_Some in E3 as (? & E3%Hd1 & _); simpl in *; lia. }
  unfold scan_number. destruct l as [|b l]; [done|]. case_match; [|by apply Hu].
  rewrite prepend_Some. intros (? & H1%Hu & _). simpl. lia.
Qed.
Lemma keyword_length w j l j' r : (1 ≤ length w)%nat → keyword w j l = Some (j', r) → (length r < length l)%nat.
Proof.
  unfold keyword. intros Hw. case_bool_decide as Ht; [|done]. intros [= _ <-].
  apply (f_equal length) in Ht. rewrite length_take in Ht. rewrite length_drop.
  lia.
Qed.

Lemma parse_length fuel :
  (∀ d l v r, parse_value fuel d l = Some (v, r) → (length r < length l)%nat) ∧
  (∀ d l v r, parse_elems fuel d l = Some (v, r) → (length r < length l)%nat) ∧
  (∀ d l v r, parse_members fuel d l = Some (v, r) → (length r < length l)%nat).
Proof.
  induction fuel as [|fuel (IHv & IHe & IHm)]; [done|]. split; [|split]; intros d l v r;
    cbn [parse_value parse_elems parse_members].
  - destruct (skip_ws l) as [|b l1] eqn:El; [done|]. pose proof (skip_ws_cons _ _ _ El).
    repeat case_match; try done; intros Hp;
      repeat match goal with
      | H : _ ≫= _ = Some _ |- _ => apply bind_Some in H as ([? ?] & ? & ?)
      | H : skip_ws _ = _ :: _ |- _ => apply skip_ws_cons in H
      | H : parse_members fuel _ _ = _ |- _ => apply IHm in H
      | H : parse_elems fuel _ _ = _ |- _ => apply IHe in H
      | H : parse_string _ = _ |- _ => apply parse_string_length in H
      | H : scan_number _ = _ |- _ => apply scan_number_length in H
      | H : keyword _ _ _ = _ |- _ => apply keyword_length in H; [|vm_compute; lia]
      end; simplify_eq; cbn [length] in *; try lia.
  - intros Hp. apply bind_Some in Hp as ([v1 r1] & H1 & Hp). apply IHv in H1.
    destruct (skip_ws r1) as [|b r2] eqn:E; [done|]. apply skip_ws_cons in E.
    repeat case_match; try done.
    + apply bind_Some in Hp as ([? ?] & Hq & ?). apply IHe in Hq. simplify_eq. lia.
    + simplify_eq. lia.
  - intros Hp. apply bind_Some in Hp as ([k1 r1] & H1 & Hp). apply parse_string_length in H1.
    pose proof (skip_ws_length l).
    destruct (skip_ws r1) as [|b r2] eqn:E; [done|]. apply skip_ws_cons in E. case_match; [|done].
    apply bind_Some in Hp as ([v1 r3] & H3 & Hp). apply IHv in H3.
    destruct (skip_ws r3) as [|c r4] eqn:E4; [done|]. apply skip_ws_cons in E4.
    repeat case_match; try done.
    + apply bind_Some in Hp as ([? ?] & Hq & ?). apply IHm in Hq. simplify_eq. lia.
    + simplify_eq. lia.
Qed.

(** More fuel than a text can use up changes nothing. *)
Lemma parse_fuel_enough f1 : ∀ f2,
  (∀ d l, (2 * length l + 1 ≤ f1)%nat → (2 * length l + 1 ≤ f2)%nat →
     parse_value f1 d l = parse_value f2 d l) ∧
  (∀ d l, (2 * length l + 2 ≤ f1)%nat → (2 * length l + 2 ≤ f2)%nat →
     parse_elems f1 d l = parse_elems f2 d l) ∧
  (∀ d l, (2 * length l + 2 ≤ f1)%nat → (2 * length l + 2 ≤ f2)%nat →
     parse_members f1 d l = parse_members f2 d l).
Proof.
  induction f1 as [|f1 IH]; intros [|f2]; [split; [|split]; intros; lia..|].
  destruct (IH f2) as (IHv & IHe & IHm). destruct (parse_length f2) as (Hv & _ & _).
  split; [|split]; intros d l H1 H2; cbn [parse_value parse_elems parse_members].
  - destruct (skip_ws l) as [|b r] eqn:E; [done|]. apply skip_ws_cons in E.
    by rewrite IHe, IHm by lia.
  - rewrite IHv by lia. destruct (parse_value f2 d l) as [[v r]|] eqn:E; [|done]. apply Hv in E.
    cbn [mbind option_bind]. destruct (skip_ws r) as [|b r'] eqn:E'; [done|].
    apply skip_ws_cons in E'. by rewrite IHe by lia.
  - pose proof (skip_ws_length l).
    destruct (parse_string (skip_ws l)) as [[k r]|] eqn:Ek; [|done]. apply parse_string_length in Ek.
    cbn [mbind option_bind]. destruct (skip_ws r) as [|b r'] eqn:E'; [done|].
    apply skip_ws_cons in E'. case_match; [|done]. rewrite IHv by lia.
    destruct (parse_value f2 d r') as [[v r2]|] eqn:E; [|done]. apply Hv in E.
    cbn [mbind option_bind]. destruct (skip_ws r2) as [|c r3] eqn:E3; [done|].
    apply skip_ws_cons in E3. by rewrite IHm by lia.
Qed.

(** ** A printed value is read back *)

(** What can be printed and read back: texts of valid UTF-8, literals of the grammar. *)
Fixpoint printable (j : json) : bool :=
  match j with
  | JNull | JBool _ => true
  | JNum lit => number_literal lit
  | JStr s => ValidString s
  | JArr l => forallb printable l
  | JObj l => forallb (λ kv, ValidString kv.1 && printable kv.2) l
  end.
Fixpoint nesting (j : json) : Z :=
  match j with
  | JArr l => 1 + foldr (λ j n, Z.max (nesting j) n) 0 l
  | JObj l => 1 + foldr (λ kv n, Z.max (nesting kv.2) n) 0 l
  | _ => 0
  end.

Lemma quote_loop_length fuel l : (length l ≤ fuel)%nat → (length l ≤ length (quote_loop fuel l))%nat.
Proof.
  revert l. induction fuel as [|fuel IH]; intros l Hf; [lia|]. destruct l as [|b l]; [done|].
  assert (Hb : (1 ≤ length (quote_byte b))%nat) by (destruct b; vm_compute; lia).
  assert (Hd : ∀ n, (1 ≤ n)%nat → (length (b :: l) ≤ n + length (quote_loop fuel (drop n (b :: l))))%nat).
  { intros n Hn. pose proof (IH (drop n (b :: l))) as H. rewrite length_drop in H. simpl in *. lia. }
  assert (H1 : (length l ≤ length (quote_loop fuel l))%nat) by (apply IH; simpl in Hf; lia).
  cbn [quote_loop]. repeat case_match; rewrite length_app; cbn [length]; try lia.
  - specialize (Hd 3%nat). cbn [length] in Hd. lia.
  - specialize (Hd 3%nat). cbn [length] in Hd. lia.
  - match goal with E : decode_rune _ = Some _ |- _ => destruct (decode_rune_app _ _ _ [] E) as [Hn _] end.
    specialize (Hd n). rewrite length_take. cbn [length] in *. lia.
Qed.

Lemma parse_string_quote s k : ValidString s = true → parse_string (quote s ++ k) = Some (s, k).
Proof.
  intros Hs. destruct (unquote_quote s k Hs) as (l & Hq & Hl).
  assert (Hlen : (String.length s < length l)%nat).
  { unfold quote in Hq. injection Hq as <-. rewrite length_app. simpl.
    pose proof (quote_loop_length (length (bytes_of s)) (bytes_of s)). rewrite length_bytes_of in *. lia. }
  rewrite Hq. cbn [app parse_string]. change (Byte.eqb quote_char quote_char) with true. cbv iota.
  rewrite Hl by (rewrite length_app; lia). cbn [mbind option_bind]. by rewrite string_of_bytes_of.
Qed.

(** How a printed value begins. *)
Definition value_head (b : byte) : bool :=
  negb (is_space b || Byte.eqb b "]" || Byte.eqb b "}").
Lemma skip_ws_head b l : value_head b = true → skip_ws (b :: l) = b :: l.
Proof. intros H. simpl. unfold value_head in H. by destruct (is_space b). Qed.
Definition number_head (b : byte) : bool := Byte.eqb b "-" || is_digit b.
Lemma number_literal_head lit : number_literal lit = true →
  ∃ b r, lit = b :: r ∧ number_head b = true.
Proof.
  intros H%bool_decide_eq_true. destruct lit as [|b r]; [done|]. exists b, r. split; [done|].
  unfold scan_number in H. unfold number_head. destruct (Byte.eqb b "-"); [done|]. simpl.
  unfold scan_unsigned, scan_int in H. destruct (Byte.eqb b "0") eqn:E; [|by destruct (is_digit b)].
  apply Byte.byte_dec_bl in E. by subst.
Qed.
Lemma number_head_spec b : number_head b = true →
  value_head b = true ∧ Byte.eqb b "{" = false ∧ Byte.eqb b "[" = false ∧
  Byte.eqb b quote_char = false ∧ Byte.eqb b "n" = false ∧ Byte.eqb b "t" = false ∧
  Byte.eqb b "f" = false.
Proof. destruct b; vm_compute; intros; repeat split; congruence. Qed.

Lemma print_head j : printable j = true → ∃ b r, print j = b :: r ∧ value_head b = true.
Proof.
  intros H. destruct j as [|[]|lit|s|l|l]; try (by eexists _, _; split).
  destruct (number_literal_head lit H) as (b & r & -> & Hb). exists b, r. split; [done|].
  by apply number_head_spec.
Qed.

Section print_parse.
Notation member_text := (λ kv : string * json, quote kv.1 ++ ":"%byte :: print kv.2).
Definition reads_back (j : json) : Prop :=
  printable j = true → ∀ d k fuel, nesting j ≤ d → stops k → (2 * length (print j) < fuel)%nat →
  parse_value fuel d (print j ++ k) = Some (j, k).

Lemma commas_cons x y l : commas (x :: y :: l) = x ++ ","%byte :: commas (y :: l).
Proof. done. Qed.

Lemma parse_elems_print l : Forall reads_back l → l ≠ [] → forallb printable l = true →
  ∀ d k fuel, foldr (λ j n, Z.max (nesting j) n) 0 l ≤ d →
  (2 * length (commas (List.map print l)) + 1 < fuel)%nat →
  parse_elems fuel d (commas (List.map print l) ++ "]"%byte :: k) = Some (l, k).
Proof.
  induction l as [|j l IH]; [done|]. intros [Hj Hl]%Forall_cons _ [Hpj Hpl]%andb_true_iff d k fuel Hd Hf.
  simpl in Hd. destruct fuel as [|fuel]; [lia|]. destruct l as [|j' l].
  - cbn [List.map commas] in *. cbn [parse_elems]. rewrite Hj by (done || lia). done.
  - cbn [List.map] in *. rewrite commas_cons in *. rewrite length_app in Hf. cbn [length] in Hf.
    destruct (print_head j Hpj) as (b & r & Hb & _).
    assert (1 ≤ length (print j))%nat by (rewrite Hb; simpl; lia).
    cbn [parse_elems]. rewrite <-(assoc_L (++)). cbn [app].
    rewrite Hj by (done || lia). cbn [mbind option_bind].
    change (skip_ws (","%byte :: ?x)) with (","%byte :: x).
    change (Byte.eqb "," ",") with true. cbv iota.
    rewrite IH; [done|done|done|done|lia|lia].
Qed.

Lemma parse_members_print l : Forall (λ kv, reads_back kv.2) l → l ≠ [] →
  forallb (λ kv, ValidString kv.1 && printable kv.2) l = true →
  ∀ d k fuel, foldr (λ kv n, Z.max (nesting kv.2) n) 0 l ≤ d →
  (2 * length (commas (List.map member_text l)) + 1 < fuel)%nat →
  parse_members fuel d (commas (List.map member_text l) ++ "}"%byte :: k) = Some (l, k).
Proof.
  induction l as [|[key j] l IH]; [done|].
  intros [Hj Hl]%Forall_cons _ [[Hk Hpj]%andb_true_iff Hpl]%andb_true_iff d k fuel Hd Hf.
  cbn [fst snd] in *. simpl in Hd. destruct fuel as [|fuel]; [lia|].
  assert (Hkey : ∀ r, parse_string (skip_ws ((quote key ++ r))) = Some (key, r)).
  { intros r. unfold quote at 1. cbn [app]. rewrite skip_ws_head by done. by apply (parse_string_quote key). }
  destruct l as [|kv l].
  - cbn [List.map commas fst snd] in *. rewrite length_app in Hf. cbn [length] in Hf.
    cbn [parse_members]. rewrite <-(assoc_L (++)), Hkey. cbn [app mbind option_bind].
    change (skip_ws (":"%byte :: ?x)) with (":"%byte :: x).
    change (Byte.eqb ":" ":") with true. cbv iota.
    rewrite Hj by (done || lia). done.
  - cbn [List.map] in *. rewrite commas_cons in *. rewrite !length_app in Hf. cbn [length fst snd] in Hf.
    cbn [parse_members fst snd]. rewrite <-!(assoc_L (++)), Hkey. cbn [app mbind option_bind].
    change (skip_ws (":"%byte :: ?x)) with (":"%byte :: x).
    change (Byte.eqb ":" ":") with true. cbv iota.
    rewrite Hj by (done || lia). cbn [mbind option_bind].
    change (skip_ws (","%byte :: ?x)) with (","%byte :: x).
    change (Byte.eqb "," ",") with true. cbv iota.
    rewrite IH; [done|done|done|done|lia|lia].
Qed.

Lemma foldr_max_nonneg {A} (f : A → Z) l : 0 ≤ foldr (λ x n, Z.max (f x) n) 0 l.
Proof. induction l as [|x l IH]; simpl; lia. Qed.

Lemma parse_value_print j : reads_back j.
Proof.
  induction j as [|b|lit|s|l IH|l IH] using json_full_ind; intros Hp d k fuel Hd Hk Hf;
    (destruct fuel as [|fuel]; [lia|]).
  - done.
  - by destruct b.
  - destruct (number_literal_head lit Hp) as (b & r & -> & Hb).
    destruct (number_head_spec b Hb) as (Hv & H1 & H2 & H3 & H4 & H5 & H6).
    cbn [print app parse_value]. rewrite skip_ws_head by done.
    rewrite H1, H2, H3, H4, H5, H6. apply bool_decide_eq_true in Hp.
    apply (scan_number_ext _ _ _ _ Hp) in Hk. cbn [app] in Hk. by rewrite Hk.
  - cbn [print] in *. change (quote s ++ k) with (quote_char :: tail (quote s) ++ k).
    cbn [parse_value]. rewrite skip_ws_head by done.
    change (quote_char :: tail (quote s) ++ k) with (quote s ++ k).
    by rewrite parse_string_quote.
  - cbn [print app parse_value] in *. rewrite skip_ws_head by done.
    change (Byte.eqb "[" "{") with false. change (Byte.eqb "[" "[") with true. cbv iota.
    cbn [nesting] in Hd. pose proof (foldr_max_nonneg nesting l).
    rewrite (proj2 (Z.leb_gt _ _)) by lia.
    cbn [length] in Hf. rewrite length_app in Hf. cbn [length] in Hf.
    rewrite <-(assoc_L (++)). cbn [app]. destruct l as [|j l]; [done|].
    assert (∃ c r, commas (List.map print (j :: l)) = c :: r ∧ value_head c = true) as (c & r & Hc & Hh).
    { cbn [printable forallb] in Hp. apply andb_true_iff in Hp as [Hpj _].
      destruct (print_head j Hpj) as (c & r & Hc & Hh). cbn [List.map commas].
      rewrite Hc. destruct (List.map print l); eauto. }
    replace (skip_ws _) with (commas (List.map print (j :: l)) ++ "]"%byte :: k)
      by (rewrite Hc; cbn [app]; by rewrite skip_ws_head).
    rewrite Hc at 1. cbn [app]. unfold value_head in Hh.
    destruct (Byte.eqb c "]"); [by rewrite orb_true_r in Hh|].
    rewrite parse_elems_print; [done|done|done|done|lia|lia].
  - cbn [print app parse_value] in *. rewrite skip_ws_head by done.
    change (Byte.eqb "{" "{") with true. cbv iota.
    cbn [nesting] in Hd. pose proof (foldr_max_nonneg (λ kv : string * json, nesting kv.2) l).
    rewrite (proj2 (Z.leb_gt _ _)) by lia.
    cbn [length] in Hf. rewrite length_app in Hf. cbn [length] in Hf.
    rewrite <-(assoc_L (++)). cbn [app]. destruct l as [|kv l]; [done|].
    assert (∃ r, commas (List.map member_text (kv :: l)) = quote_char :: r) as (r & Hc).
    { cbn [List.map commas]. destruct (List.map _ l); by eexists. }
    replace (skip_ws _) with (commas (List.map member_text (kv :: l)) ++ "}"%byte :: k)
      by (rewrite Hc; cbn [app]; by rewrite skip_ws_head).
    rewrite Hc at 1. cbn [app]. change (Byte.eqb quote_char "}") with false. cbv iota.
    rewrite parse_members_print; [done|done|done|done|lia|lia].
Qed.
End print_parse.

(** Printing then reading is the identity, with either entry point. *)
Lemma parse_print j : printable j = true → nesting j ≤ maxNestingDepth →
  parse_all (print j) = Some j ∧ ∀ k, stops k → parse_first (print j ++ k) = Some j.
Proof.
  intros Hp Hn. unfold parse_all, parse_first. split.
  - rewrite <-(app_nil_r (print j)) at 2. by rewrite parse_value_print by (done || lia).
  - intros k Hk. rewrite parse_value_print; [done|done|done|done|].
    rewrite length_app. lia.
Qed.

(** ** A value that was read can be printed *)

(** A sequence of encoded runes. *)
Inductive utf8 : list byte → Prop :=
| utf8_nil : utf8 []
| utf8_rune c k r : (1 ≤ length c)%nat → decode_rune c = Some (r, length c) → utf8 k → utf8 (c ++ k).

Lemma utf8_runes l fuel : utf8 l → (length l ≤ fuel)%nat → is_Some (runes_loop fuel l).
Proof.
  intros Hl. revert fuel. induction Hl as [|c k r Hc Hd Hk IH]; intros fuel Hf; [by destruct fuel|].
  destruct (decode_rune_app _ _ _ k Hd) as [_ Hd']. rewrite take_ge in Hd' by done.
  rewrite length_app in Hf. destruct fuel as [|fuel]; [lia|]. destruct c as [|b c]; [simpl in Hc; lia|].
  cbn [runes_loop app] in *. rewrite Hd'. cbn [length drop app]. rewrite drop_app_length.
  destruct (IH fuel) as [rs ->]; [simpl in Hf; lia|]. by eexists.
Qed.
Lemma utf8_valid l : utf8 l → ValidString (string_of l) = true.
Proof.
  intros Hl. apply bool_decide_eq_true. unfold runes. rewrite bytes_of_string_of. by apply utf8_runes.
Qed.
Lemma decode_rune_take l r n k : decode_rune l = Some (r, n) → utf8 k → utf8 (take n l ++ k).
Proof.
  intros Hd Hk. destruct (decode_rune_app _ _ _ [] Hd) as [Hn Hd']. rewrite app_nil_r in Hd'.
  assert (length (take n l) = n) as Hl by (rewrite length_take; lia).
  econstructor; [lia| |done]. by rewrite Hl.
Qed.
Lemma utf8_byte b k : Z_of_byte b < 128 → utf8 k → utf8 (b :: k).
Proof. intros Hb Hk. change (b :: k) with ([b] ++ k). econstructor; [done|by apply decode_rune_ascii|done]. Qed.

Lemma encode_rune_utf8 r k : 0 ≤ r < 1114112 → is_surrogate r = false → utf8 k → utf8 (encode_rune r ++ k).
Proof.
  intros Hr Hs Hk. unfold is_surrogate in Hs. unfold encode_rune.
  assert (Hb : ∀ z, 0 ≤ z < 256 → Z_of_byte (byte_of_Z z) = z).
  { intros z Hz. rewrite Z_of_byte_of_Z. by apply Z.mod_small. }
  assert (Hm : ∀ z, 0 ≤ z mod 64 < 64) by (intros z; apply Z.mod_pos_bound; lia).
  assert (Hdec : ∀ c, (1 ≤ length c)%nat → decode_rune c = Some (r, length c) → utf8 (c ++ k)).
  { intros c ? ?. by econstructor. }
  pose proof (Z.div_mod r 64 ltac:(lia)) as E0. pose proof (Z.div_mod (r / 64) 64 ltac:(lia)) as E1.
  pose proof (Z.div_mod (r / 4096) 64 ltac:(lia)) as E2.
  replace (r / 64 / 64) with (r / 4096) in E1 by (rewrite Z.div_div by lia; done).
  replace (r / 4096 / 64) with (r / 262144) in E2 by (rewrite Z.div_div by lia; done).
  pose proof (Hm r). pose proof (Hm (r / 64)). pose proof (Hm (r / 4096)).
  set (q0 := r / 64) in *. set (q1 := r / 4096) in *. set (q2 := r / 262144) in *.
  set (m0 := r mod 64) in *. set (m1 := q0 mod 64) in *. set (m2 := q1 mod 64) in *.
  clearbody q0 q1 q2 m0 m1 m2.
  destruct (Z.ltb_spec r 128); [|destruct (Z.ltb_spec r 2048); [|destruct (Z.ltb_spec r 65536)]];
    (apply Hdec; [simpl; lia|]); unfold decode_rune, is_cont; cbn [fmap list_fmap length];
    rewrite !Hb by lia;
    repeat match goal with |- context [if ?c then _ else _] => destruct c eqn:? end;
    repeat match goal with H : context [if ?c then _ else _] |- _ => destruct c eqn:? end;
    first [lia | f_equal; f_equal; lia].
Qed.

Lemma hex_val_range b v : hex_val b = Some v → 0 ≤ v < 16.
Proof. unfold hex_val. pose proof (Z_of_byte_range b). repeat case_match; intros; simplify_eq; lia. Qed.
Lemma hex4_range l v : hex4 l = Some v → 0 ≤ v < 65536.
Proof.
  unfold hex4. intros H. repeat case_match; simplify_eq.
  repeat match goal with E : hex_val _ = Some _ |- _ => apply hex_val_range in E end. lia.
Qed.
Lemma unescape_ascii b c : unescape b = Some c → Z_of_byte c < 128.
Proof. destruct b; vm_compute; intros; simplify_eq; done. Qed.

Lemma unquote_utf8 fuel l s r : unquote fuel l = Some (s, r) → utf8 s.
Proof.
  revert l s r. induction fuel as [|fuel IH]; [done|]. intros l s r. cbn [unquote].
  destruct l as [|b l]; [done|].
  assert (Hrec : ∀ (h : list byte) l', (∀ k, utf8 k → utf8 (h ++ k)) →
    prepend h (unquote fuel l') = Some (s, r) → utf8 s).
  { intros h l' Hh. rewrite prepend_Some. intros (a & Ha & ->). apply Hh. by eapply IH. }
  destruct (Byte.eqb b quote_char); [intros [= <- _]; constructor|].
  destruct (Byte.eqb b backslash).
  - destruct l as [|e l]; [done|]. destruct (Byte.eqb e "u").
    + destruct (hex4 l) as [rr|] eqn:Hx; [|done]. apply hex4_range in Hx.
      destruct (is_surrogate rr) eqn:Hs.
      * destruct (getu4 _ ≫= _) as [dec|] eqn:Hd; apply Hrec; intros k Hk; apply encode_rune_utf8; try done.
        -- apply bind_Some in Hd as (lo & _ & Hd). unfold decode_surrogates in Hd. case_match; [|done].
           simplify_eq. lia.
        -- apply bind_Some in Hd as (lo & _ & Hd). unfold decode_surrogates in Hd. case_match; [|done].
           simplify_eq. unfold is_surrogate. lia.
      * apply Hrec. intros k Hk. apply encode_rune_utf8; [lia|done|done].
    + destruct (unescape e) as [c|] eqn:Hc; [|done]. apply unescape_ascii in Hc.
      apply Hrec. intros k. by apply utf8_byte.
  - destruct (_ <? 32); [done|]. destruct (decode_rune (b :: l)) as [[z n]|] eqn:Hd.
    + apply Hrec. intros k. by eapply decode_rune_take.
    + apply Hrec. intros k. by apply encode_rune_utf8.
Qed.
Lemma parse_string_valid l s r : parse_string l = Some (s, r) → ValidString s = true.
Proof.
  unfold parse_string. destruct l as [|b l]; [done|]. case_match; [|done].
  destruct (unquote _ l) as [[s' r']|] eqn:E; [|done]. intros [= <- _].
  eapply utf8_valid, unquote_utf8, E.
Qed.

(** A scanner reads a prefix, and reads it again when what follows is cut short. *)
Definition truncatable (scan : list byte → option (list byte * list byte)) : Prop :=
  ∀ l a q r, scan l = Some (a, q ++ r) → l = a ++ q ++ r ∧ scan (a ++ q) = Some (a, q).
Lemma digits_truncate l a q r : digits l = (a, q ++ r) → l = a ++ q ++ r ∧ digits (a ++ q) = (a, q).
Proof.
  revert a. induction l as [|b l IH]; simpl; intros a H.
  - injection H as <- H. destruct q, r; try done.
  - destruct (is_digit b) eqn:Hb.
    + destruct (digits l) as [d r'] eqn:E. simplify_eq. destruct (IH d eq_refl) as [-> Hd].
      split; [done|]. simpl. by rewrite Hb, Hd.
    + injection H as <- H. destruct q as [|c q]; [by rewrite H|]. injection H as <- ->.
      split; [done|]. simpl. by rewrite Hb.
Qed.
Lemma digits1_nonempty l a r : digits1 l = Some (a, r) → a ≠ [].
Proof. unfold digits1. destruct (digits l) as [[|]]; naive_solver. Qed.
Lemma digits1_truncate : truncatable digits1.
Proof.
  intros l a q r. unfold digits1. destruct (digits l) as [[|x d] r'] eqn:E; [done|].
  intros [= <- ->]. destruct (digits_truncate _ _ _ _ E) as [-> Hd]. split; [done|]. by rewrite Hd.
Qed.
Lemma scan_int_truncate : truncatable scan_int.
Proof.
  intros [|b l] a q r; [done|]. simpl. destruct (Byte.eqb b "0") eqn:E0.
  - intros [= <- ->]. simpl. by rewrite E0.
  - destruct (is_digit b) eqn:Eb; [|done]. destruct (digits l) as [d r'] eqn:E. intros [= <- ->].
    destruct (digits_truncate _ _ _ _ E) as [-> Hd]. simpl. by rewrite E0, Eb, Hd.
Qed.
Lemma scan_frac_truncate : truncatable scan_frac.
Proof.
  intros [|b l] a q r; simpl.
  - intros [= <- H]. by destruct q, r.
  - destruct (Byte.eqb b ".") eqn:E.
    + rewrite prepend_Some. intros (a' & Hd & ->). apply digits1_truncate in Hd as [-> Hd].
      simpl. by rewrite E, Hd.
    + intros [= <- H]. rewrite H. split; [done|]. destruct q as [|c q]; [done|].
      injection H as <- _. simpl. by rewrite E.
Qed.
Lemma scan_exp_truncate : truncatable scan_exp.
Proof.
  intros [|b l] a q r; simpl.
  - intros [= <- H]. by destruct q, r.
  - destruct (Byte.eqb b "e" || Byte.eqb b "E") eqn:E.
    + destruct l as [|s l]; [done|]. destruct (Byte.eqb s "+" || Byte.eqb s "-") eqn:Es;
        rewrite prepend_Some; intros (a' & Hd & ->); apply digits1_truncate in Hd as [Hl Hd]; simpl.
      * subst. by rewrite E, Es, Hd.
      * rewrite E, Hl. split; [done|]. destruct a' as [|c a']; [by apply digits1_nonempty in Hd|].
        injection Hl as <- _. simpl. rewrite Es. by rewrite <-app_comm_cons in Hd; rewrite Hd.
    + intros [= <- H]. rewrite H. split; [done|]. destruct q as [|c q]; [done|].
      injection H as <- _. simpl. by rewrite E.
Qed.
Lemma scan_number_literal l a r : scan_number l = Some (a, r) → number_literal a = true.
Proof.
  assert (Hu : ∀ l a r, scan_unsigned l = Some (a, r) → scan_unsigned a = Some (a, [])).
  { clear. intros l a r. unfold scan_unsigned.
    destruct (scan_int l) as [[i r1]|] eqn:E1; [|done]. cbn [mbind option_bind].
    destruct (scan_frac r1) as [[f r2]|] eqn:E2; [|done]. cbn [mbind option_bind].
    destruct (scan_exp r2) as [[e r3]|] eqn:E3; [|done]. intros [= <- <-].
    apply (scan_exp_truncate _ _ []) in E3 as [-> E3]. rewrite app_nil_r in E3. cbn [app] in E2.
    apply scan_frac_truncate in E2 as [-> E2]. rewrite !(assoc_L (++)) in E1.
    apply scan_int_truncate in E1 as [-> E1]. rewrite E1. cbn [mbind option_bind].
    rewrite E2. cbn [mbind option_bind]. by rewrite E3. }
  intros H. apply bool_decide_eq_true. destruct l as [|b l]; [done|]. simpl in H.
  destruct (Byte.eqb b "-") eqn:E.
  - apply prepend_Some in H as (a' & H%Hu & ->). simpl. by rewrite E, H.
  - pose proof (Hu _ _ _ H) as H'. destruct a as [|c a]; [done|]. simpl.
    assert (c = b) as ->; [|by rewrite E].
    unfold scan_unsigned in H. destruct (scan_int (b :: l)) as [[i r1]|] eqn:E1; [|done].
    cbn [mbind option_bind] in H. destruct (scan_frac r1) as [[f r2]|]; [|done].
    cbn [mbind option_bind] in H. destruct (scan_exp r2) as [[e r3]|]; [|done]. simpl in H.
    injection H as H _. simpl in E1.
    destruct (Byte.eqb b "0"); [injection E1 as <- _; by injection H|].
    destruct (is_digit b); [|done]. destruct (digits l). injection E1 as <- _. by injection H.
Qed.

Lemma parse_printable fuel :
  (∀ d l v r, parse_value fuel d l = Some (v, r) → 0 ≤ d → printable v = true ∧ nesting v ≤ d) ∧
  (∀ d l v r, parse_elems fuel d l = Some (v, r) → 0 ≤ d →
     forallb printable v = true ∧ foldr (λ j n, Z.max (nesting j) n) 0 v ≤ d) ∧
  (∀ d l v r, parse_members fuel d l = Some (v, r) → 0 ≤ d →
     forallb (λ kv, ValidString kv.1 && printable kv.2) v = true ∧
     foldr (λ kv n, Z.max (nesting kv.2) n) 0 v ≤ d).
Proof.
  induction fuel as [|fuel (IHv & IHe & IHm)]; [done|]. split; [|split]; intros d l v r;
    cbn [parse_value parse_elems parse_members].
  - destruct (skip_ws l) as [|b l1] eqn:El; [done|].
    repeat case_match; try done; unfold keyword; intros Hp Hd; repeat case_bool_decide; simplify_eq; try done;
      repeat match goal with
      | H : _ ≫= _ = Some _ |- _ => apply bind_Some in H as ([? ?] & ? & ?)
      | H : parse_members fuel _ _ = _ |- _ => apply IHm in H as [??]; [|lia]
      | H : parse_elems fuel _ _ = _ |- _ => apply IHe in H as [??]; [|lia]
      | H : parse_string _ = _ |- _ => apply parse_string_valid in H
      | H : scan_number _ = _ |- _ => apply scan_number_literal in H
      end; simplify_eq; cbn [printable nesting forallb foldr]; try (split; [done|lia]).
  - intros Hp Hd. apply bind_Some in Hp as ([v1 r1] & H1 & Hp). apply IHv in H1 as [? ?]; [|done].
    destruct (skip_ws r1) as [|b r2] eqn:E; [done|].
    repeat case_match; try done.
    + apply bind_Some in Hp as ([? ?] & Hq & ?). apply IHe in Hq as [? ?]; [|done]. simplify_eq.
      cbn [forallb foldr]. rewrite andb_true_iff. split; [done|lia].
    + simplify_eq. cbn [forallb foldr]. rewrite andb_true_iff. split; [done|lia].
  - intros Hp Hd. apply bind_Some in Hp as ([k1 r1] & H1 & Hp). apply parse_string_valid in H1.
    destruct (skip_ws r1) as [|b r2] eqn:E; [done|]. case_match; [|done].
    apply bind_Some in Hp as ([v1 r3] & H3 & Hp). apply IHv in H3 as [? ?]; [|done].
    destruct (skip_ws r3) as [|c r4] eqn:E4; [done|].
    repeat case_match; try done.
    + apply bind_Some in Hp as ([? ?] & Hq & ?). apply IHm in Hq as [? ?]; [|done]. simplify_eq.
      cbn [forallb foldr fst snd]. rewrite !andb_true_iff. split; [done|lia].
    + simplify_eq. cbn [forallb foldr fst snd]. rewrite !andb_true_iff. split; [done|lia].
Qed.

(** What a reader can produce. *)
Definition readable (j : json) : Prop := printable j = true ∧ nesting j ≤ maxNestingDepth.
Lemma readable_arr j l : readable (JArr (j :: l)) → readable j ∧ readable (JArr l).
Proof.
  unfold readable. cbn [printable nesting forallb foldr]. rewrite andb_true_iff.
  pose proof (foldr_max_nonneg nesting l). intros [[? ?] ?]. split; (split; [done|lia]).
Qed.
Lemma readable_obj kv l : readable (JObj (kv :: l)) →
  ValidString kv.1 = true ∧ readable kv.2 ∧ readable (JObj l).
Proof.
  unfold readable. cbn [printable nesting forallb foldr]. rewrite !andb_true_iff.
  pose proof (foldr_max_nonneg (λ kv : string * json, nesting kv.2) l).
  intros [[[? ?] ?] ?]. split; [done|]. split; (split; [done|lia]).
Qed.
Lemma parse_first_printable l j : parse_first l = Some j → readable j.
Proof.
  unfold parse_first. intros ([v r] & H & ->)%fmap_Some.
  by apply (proj1 (parse_printable _)) in H.
Qed.
Lemma parse_all_first l j : parse_all l = Some j → parse_first l = Some j.
Proof.
  unfold parse_all, parse_first. intros ([v r] & Hv & H)%bind_Some. rewrite Hv. simpl.
  by destruct (skip_ws r); simplify_eq.
Qed.
