(* ===== verification/JsonCodec.v ===== *)
(** * Structs as JSON: the reflection of [encoding/json]

    A [codec] is what the package derives from a Go type: its name in error texts, its zero
    value, storing a JSON value into a variable of the type and printing a variable.  Storing
    goes on after an error and keeps the errors in order; the package reports the first.
    Structs are built of [field]s, each with its key, whether an empty value is omitted, and
    the embedded structs on the way to it.  A law ([Lawful]) is proved once for every
    combinator: what is printed is stored back.  These are definitions of the language's
    library and are not mapped to files of the repository. *)
From S2P Require Import Prelude GoStd Json.
From stdpp Require Import list sorting.
Local Open Scope Z_scope.

(** [*json.UnmarshalTypeError] (its value, struct, field path and type), the error of an
    unknown field, the error of a type's own decoding, and a text outside the grammar. *)
Inductive json_error : Type :=
| JTypeError (value struct : string) (field : list string) (type : string)
| JUnknownField (name : string)
| JOther (text : string)
| JSyntaxError.
#[export] Instance json_error_eq_dec : EqDecision json_error.
Proof. solve_decision. Defined.

Record codec (T : Type) := mkCodec {
  c_type : string;                                       (* the type's name *)
  c_zero : T;
  c_dec : bool → json → T → T * list json_error;         (* strict, value, variable *)
  c_enc : T → json;
  c_empty : T → bool;                                    (* what [omitempty] omits *)
  c_ok : T → Prop;                                       (* what the type can hold *)
  c_depth : Z;                                           (* a bound on the nesting printed *)
}.
Arguments c_type {T}. Arguments c_zero {T}. Arguments c_dec {T}. Arguments c_enc {T}.
Arguments c_empty {T}. Arguments c_ok {T}. Arguments c_depth {T}.

(** Storing what was printed gives it back, into a fresh variable or one that holds it; a
    variable holds what its type can whatever is stored. *)
Class Lawful {T} (c : codec T) := {
  zero_ok : c_ok c (c_zero c);
  dec_ok : ∀ strict j old, readable j → c_ok c old → c_ok c (c_dec c strict j old).1;
  enc_nesting : ∀ x, c_ok c x → nesting (c_enc c x) ≤ c_depth c;
  dec_enc : ∀ strict x old, c_ok c x → old = c_zero c ∨ old = x →
    c_dec c strict (c_enc c x) old = (x, []);
  enc_printable : ∀ x, c_ok c x → printable (c_enc c x) = true;
  empty_zero : ∀ x, c_empty c x = true → x = c_zero c;
}.
(** Types whose values are never printed as [null]. *)
Class NotNull {T} (c : codec T) := enc_not_null : ∀ x, c_enc c x ≠ JNull.

(** ** Basic types *)
Definition kind_of (j : json) : string :=
  match j with
  | JNull => "null" | JBool _ => "bool" | JNum _ => "number" | JStr _ => "string"
  | JArr _ => "array" | JObj _ => "object"
  end.
Definition type_error (j : json) (type : string) : json_error := JTypeError (kind_of j) "" [] type.

Definition c_string (type : string) : codec string := {|
  c_type := type; c_zero := "";
  c_dec _ j old := match j with
                   | JStr s => (s, []) | JNull => (old, []) | _ => (old, [type_error j type])
                   end;
  c_enc := JStr; c_empty s := bool_decide (s = ""); c_ok s := ValidString s = true; c_depth := 0 |}.
Definition c_bool : codec bool := {|
  c_type := "bool"; c_zero := false;
  c_dec _ j old := match j with
                   | JBool b => (b, []) | JNull => (old, []) | _ => (old, [type_error j "bool"])
                   end;
  c_enc := JBool; c_empty := negb; c_ok _ := True; c_depth := 0 |}.
(** Signed integers of 64 bits: [int] and [int64]. *)
Definition c_int (type : string) : codec Z := {|
  c_type := type; c_zero := 0;
  c_dec _ j old := match j with
                   | JNum lit =>
                       match parse_int64 (string_of lit) with
                       | inl z => (z, [])
                       | inr _ => (old, [JTypeError ("number " +:+ string_of lit) "" [] type])
                       end
                   | JNull => (old, []) | _ => (old, [type_error j type])
                   end;
  c_enc z := JNum (bytes_of (Itoa z)); c_empty z := bool_decide (z = 0); c_ok z := in_int64 z;
  c_depth := 0 |}.

(** ** Pointers, slices, maps *)
Definition c_ptr {T} (c : codec T) : codec (option T) := {|
  c_type := c_type c; c_zero := None;
  c_dec strict j old := match j with
                        | JNull => (None, [])
                        | _ => let '(x, es) := c_dec c strict j (default (c_zero c) old) in (Some x, es)
                        end;
  c_enc x := match x with Some x => c_enc c x | None => JNull end;
  c_empty x := match x with None => true | Some _ => false end;
  c_ok x := match x with Some x => c_ok c x | None => True end; c_depth := Z.max 0 (c_depth c) |}.

(** The elements are stored into those the slice has. *)
Fixpoint slice_dec {T} (c : codec T) (strict : bool) (js : list json) (old : list T)
    : list T * list json_error :=
  match js with
  | [] => ([], [])
  | j :: js =>
      let '(x, es) := c_dec c strict j (default (c_zero c) (head old)) in
      let '(xs, es') := slice_dec c strict js (tail old) in
      (x :: xs, es ++ es')
  end.
Definition c_slice {T} (type : string) (c : codec T) : codec (list T) := {|
  c_type := type; c_zero := [];
  c_dec strict j old := match j with
                        | JNull => ([], [])
                        | JArr js => slice_dec c strict js old
                        | _ => (old, [type_error j type])
                        end;
  c_enc l := JArr (c_enc c <$> l); c_empty l := bool_decide (length l = 0%nat);
  c_ok l := Forall (c_ok c) l; c_depth := 1 + Z.max 0 (c_depth c) |}.

(** [map[string]string]: entries are added to those the map has, and printed in the order of
    the keys. *)
Definition entry_dec (strict : bool) (acc : gmap string string * list json_error)
    (kv : string * json) : gmap string string * list json_error :=
  let '(x, es) := c_dec (c_string "string") strict kv.2 "" in (<[kv.1 := x]> acc.1, acc.2 ++ es).
Definition insert_entry (m : gmap string string) (kv : string * string) : gmap string string :=
  <[kv.1 := kv.2]> m.
Definition string_member (kv : string * string) : string * json := (kv.1, JStr kv.2).
Definition key_le (a b : string * string) : Prop := Is_true (String.leb a.1 b.1).
#[export] Instance key_le_dec a b : Decision (key_le a b).
Proof. unfold key_le. apply _. Defined.
Definition c_strmap : codec (gmap string string) := {|
  c_type := "map[string]string"; c_zero := ∅;
  c_dec strict j old := match j with
    | JNull => (∅, [])
    | JObj ms =>
        foldl (entry_dec strict) (old, []) ms
    | _ => (old, [type_error j "map[string]string"])
    end;
  c_enc m := JObj (string_member <$> merge_sort key_le (map_to_list m));
  c_empty m := bool_decide (m = ∅);
  c_ok m := map_Forall (λ k v, ValidString k = true ∧ ValidString v = true) m;
  c_depth := 1 |}.

(** ** Structs *)
Record field (R : Type) := mkField {
  f_name : string;
  f_path : list string;        (* the embedded structs *)
  f_T : Type;
  f_codec : codec f_T;
  f_omitempty : bool;
  f_get : R → f_T;
  f_set : f_T → R → R;
}.
Arguments mkField {R} f_name f_path {f_T} f_codec f_omitempty f_get f_set.
Arguments f_name {R}. Arguments f_path {R}. Arguments f_T {R}. Arguments f_codec {R}.
Arguments f_omitempty {R}. Arguments f_get {R}. Arguments f_set {R}.

(** The fields an embedded struct contributes. *)
Definition embed {R S} (name : string) (get : R → S) (set : S → R → R) (fs : list (field S))
    : list (field R) :=
  (λ f, mkField (f_name f) (name :: f_path f) (f_codec f) (f_omitempty f)
          (λ r, f_get f (get r)) (λ x r, set (f_set f x (get r)) r)) <$> fs.

(** [foldName] as far as comparisons with ASCII names go: ASCII letters, the long s and the
    Kelvin sign fold to ASCII, other runes to none. *)
Definition upper (b : byte) : byte :=
  if (97 <=? Z_of_byte b) && (Z_of_byte b <=? 122) then byte_of_Z (Z_of_byte b - 32) else b.
Fixpoint fold_name (l : list byte) : list byte :=
  match l with
  | [] => []
  | b :: r =>
      match r with
      | b' :: r' =>
          if bool_decide (b = xc5 ∧ b' = xbf) then "S"%byte :: fold_name r'
          else match r' with
               | b'' :: r'' =>
                   if bool_decide (b = xe2 ∧ b' = x84 ∧ b'' = xaa) then "K"%byte :: fold_name r''
                   else upper b :: fold_name r
               | [] => upper b :: fold_name r
               end
      | [] => [upper b]
      end
  end.
Definition find_field {R} (fs : list (field R)) (key : string) : option (field R) :=
  match List.find (λ f, bool_decide (f_name f = key)) fs with
  | Some f => Some f
  | None => List.find (λ f, bool_decide (fold_name (bytes_of (f_name f)) = fold_name (bytes_of key))) fs
  end.

(** [addErrorContext]: the innermost struct, the path of keys from the outermost. *)
Definition in_field (struct : string) (path : list string) (e : json_error) : json_error :=
  match e with
  | JTypeError v s fld t => JTypeError v (if bool_decide (fld = []) then struct else s) (path ++ fld) t
  | e => e
  end.

Definition member_dec {R} (struct : string) (fs : list (field R)) (strict : bool)
    (acc : R * list json_error) (kv : string * json) : R * list json_error :=
  match find_field fs kv.1 with
  | Some f =>
      let '(x, es) := c_dec (f_codec f) strict kv.2 (f_get f acc.1) in
      (f_set f x acc.1, acc.2 ++ (in_field struct (f_path f ++ [f_name f]) <$> es))
  | None => (acc.1, if strict then acc.2 ++ [JUnknownField kv.1] else acc.2)
  end.
Definition struct_dec {R} (struct type : string) (fs : list (field R)) (strict : bool) (j : json) (old : R)
    : R * list json_error :=
  match j with
  | JNull => (old, [])
  | JObj ms => foldl (member_dec struct fs strict) (old, []) ms
  | _ => (old, [type_error j type])
  end.
Definition field_member {R} (r : R) (f : field R) : option (string * json) :=
  if f_omitempty f && c_empty (f_codec f) (f_get f r) then None
  else Some (f_name f, c_enc (f_codec f) (f_get f r)).
Definition struct_enc {R} (fs : list (field R)) (r : R) : json := JObj (omap (field_member r) fs).

(** A struct type of package [pkg]. *)
Definition c_struct {R} (pkg struct : string) (zero : R) (fs : list (field R)) : codec R := {|
  c_type := pkg +:+ "." +:+ struct; c_zero := zero;
  c_dec := struct_dec struct (pkg +:+ "." +:+ struct) fs; c_enc := struct_enc fs;
  c_empty _ := false;
  c_ok r := Forall (λ f, c_ok (f_codec f) (f_get f r)) fs;
  c_depth := 1 + foldr (λ f n, Z.max (c_depth (f_codec f)) n) 0 fs |}.

(** A variable seen through an interface with one implementation. *)
Definition c_iface {A B} (wrap : A → B) (unwrap : B → A) (c : codec A) : codec B := {|
  c_type := c_type c; c_zero := wrap (c_zero c);
  c_dec strict j old := let '(x, es) := c_dec c strict j (unwrap old) in (wrap x, es);
  c_enc x := c_enc c (unwrap x); c_empty x := c_empty c (unwrap x); c_ok x := c_ok c (unwrap x);
  c_depth := c_depth c |}.

(** ** Entry points *)
(** [json.Unmarshal] into a variable; [strict]: [Decoder.Decode] after
    [DisallowUnknownFields], which reads one value and does not look further. *)
Definition store {T} (c : codec T) (strict : bool) (text : option json) (old : T) : T + json_error :=
  match text with
  | None => inr JSyntaxError
  | Some j => match c_dec c strict j old with
              | (x, []) => inl x
              | (_, e :: _) => inr e
              end
  end.
Definition json_Unmarshal {T} (c : codec T) (b : list byte) (old : T) : T + json_error :=
  store c false (parse_all b) old.
Definition json_DecodeStrict {T} (c : codec T) (b : list byte) (old : T) : T + json_error :=
  store c true (parse_first b) old.
Definition json_Marshal {T} (c : codec T) (x : T) : list byte := print (c_enc c x).

(** ** Laws of the combinators *)
#[export] Instance c_string_lawful type : Lawful (c_string type).
Proof.
  split; [done| |done|done|done|by intros x ?%bool_decide_eq_true].
  by intros strict [] old [Hj _] Ho.
Qed.
#[export] Instance c_string_notnull type : NotNull (c_string type).
Proof. done. Qed.
#[export] Instance c_bool_lawful : Lawful c_bool.
Proof. split; [done|done|done|done|done|]. by intros []. Qed.
#[export] Instance c_bool_notnull : NotNull c_bool.
Proof. done. Qed.

Lemma digits_all d : Forall (λ b, is_digit b = true) d → digits d = (d, []).
Proof. induction 1 as [|b d Hb Hd IH]; [done|]. simpl. by rewrite Hb, IH. Qed.
Lemma pretty_N_go_leading (n : N) s : (0 < n)%N →
  ∃ b r, bytes_of (pretty_N_go n s) = b :: r ∧ b ≠ "0"%byte ∧ is_digit b = true.
Proof.
  revert s. induction (N.lt_wf_0 n) as [n _ IH]; intros s Hn.
  rewrite pretty_N_go_step by done. destruct (decide (n / 10 = 0)%N) as [Hz|Hz].
  - rewrite Hz, pretty_N_go_0, bytes_of_cons. eexists _, _. split; [done|].
    pose proof (N.div_mod n 10 ltac:(lia)). pose proof (N.mod_lt n 10 ltac:(lia)).
    assert (n mod 10 ≠ 0)%N by lia. set (d := (n mod 10)%N) in *.
    assert (d = 1 ∨ d = 2 ∨ d = 3 ∨ d = 4 ∨ d = 5 ∨ d = 6 ∨ d = 7 ∨ d = 8 ∨ d = 9)%N as Hd by lia.
    by repeat destruct Hd as [->|Hd]; [..|rewrite Hd].
  - apply IH; [apply N.div_lt; lia|lia].
Qed.
Lemma scan_unsigned_pretty (n : N) :
  scan_unsigned (bytes_of (pretty n)) = Some (bytes_of (pretty n), []) ∧
  ∃ b r, bytes_of (pretty n) = b :: r ∧ is_digit b = true.
Proof.
  assert (Hdig : Forall (λ b, is_digit b = true) (bytes_of (pretty n))).
  { assert (Hi : Itoa (Z.of_N n) = pretty n) by (by destruct n). rewrite <-Hi.
    eapply Forall_impl; [apply Itoa_digits; lia|]. intros b Hb. unfold is_digit.
    rewrite andb_true_iff, !Z.leb_le. done. }
  unfold pretty, pretty_N in *. case_decide; [split; [done|by eexists _, _]|].
  destruct (pretty_N_go_leading n "") as (b & r & Hr & Hb0 & Hb); [lia|].
  rewrite Hr in *. split; [|by eexists _, _]. inversion Hdig as [|? ? _ Hdr]; subst.
  unfold scan_unsigned, scan_int. destruct (Byte.eqb b "0") eqn:E; [by apply Byte.byte_dec_bl in E|].
  rewrite Hb, (digits_all r Hdr). cbn. by rewrite app_nil_r.
Qed.
Lemma Itoa_literal z : number_literal (bytes_of (Itoa z)) = true.
Proof.
  apply bool_decide_eq_true. unfold Itoa. destruct z as [|p|p]; [done| |].
  - change (pretty (Z.pos p)) with (pretty (N.pos p)).
    destruct (scan_unsigned_pretty (N.pos p)) as (Hs & b & r & Hb & Hd).
    rewrite Hb in *. unfold scan_number. destruct (Byte.eqb b "-") eqn:E; [|done].
    apply Byte.byte_dec_bl in E. by subst.
  - change (bytes_of (pretty (Z.neg p))) with ("-"%byte :: bytes_of (pretty (N.pos p))).
    destruct (scan_unsigned_pretty (N.pos p)) as (Hs & _). cbn [scan_number].
    change (Byte.eqb "-" "-") with true. cbv iota. by rewrite Hs.
Qed.
#[export] Instance c_int_lawful type : Lawful (c_int type).
Proof.
  split; [done| |done| | |].
  - intros strict [] old Hj Ho; simpl; try done.
    destruct (parse_int64 _) eqn:E; [|done]. by eapply parse_int64_range.
  - intros strict x old Hx _. simpl. rewrite string_of_bytes_of.
    pose proof (Atoi_Itoa x Hx) as H. unfold Atoi in H. by destruct (parse_int64 (Itoa x)); simplify_eq.
  - intros x _. apply Itoa_literal.
  - by intros x ?%bool_decide_eq_true.
Qed.
#[export] Instance c_int_notnull type : NotNull (c_int type).
Proof. done. Qed.

#[export] Instance c_ptr_lawful {T} (c : codec T) `{!Lawful c} `{!NotNull c} : Lawful (c_ptr c).
Proof.
  split; [done| | | | |].
  - intros strict j old Hj Ho. simpl.
    assert (c_ok c (default (c_zero c) old)) as Hd by (destruct old; [done|apply zero_ok]).
    pose proof (dec_ok strict j _ Hj Hd) as Hx.
    by destruct j; [done|destruct (c_dec c _ _ _)..].
  - intros [x|] Hx; simpl in *; [|lia]. pose proof (enc_nesting x Hx). lia.
  - intros strict [x|] old Hx Hold; [|done]. simpl in *.
    pose proof (enc_not_null x) as Hnn.
    assert (c_dec c strict (c_enc c x) (default (c_zero c) old) = (x, [])) as Hd.
    { apply dec_enc; [done|]. destruct Hold as [->| ->]; simpl; auto. }
    by destruct (c_enc c x); [|rewrite Hd..].
  - intros [x|] Hx; [|done]. simpl. by apply enc_printable.
  - by intros [].
Qed.

Lemma slice_dec_ok {T} (c : codec T) `{!Lawful c} strict js old :
  readable (JArr js) → Forall (c_ok c) old → Forall (c_ok c) (slice_dec c strict js old).1.
Proof.
  revert old. induction js as [|j js IH]; intros old Hj Ho; [constructor|].
  apply readable_arr in Hj as [Hj Hjs]. simpl.
  assert (c_ok c (default (c_zero c) (head old))) as Hd.
  { destruct Ho; [apply zero_ok|done]. }
  pose proof (dec_ok strict j _ Hj Hd) as Hx. destruct (c_dec c _ _ _) as [x es].
  assert (Forall (c_ok c) (tail old)) as Ht by (by destruct Ho).
  specialize (IH _ Hjs Ht). destruct (slice_dec c strict js (tail old)) as [xs es'].
  by constructor.
Qed.
Lemma slice_dec_enc {T} (c : codec T) `{!Lawful c} strict l old :
  Forall (c_ok c) l → old = [] ∨ old = l → slice_dec c strict (c_enc c <$> l) old = (l, []).
Proof.
  intros Hl. revert old. induction Hl as [|x l Hx Hl IH]; intros old Hold; [done|]. simpl.
  rewrite dec_enc; [|done|destruct Hold as [->| ->]; simpl; auto].
  rewrite IH; [done|]. destruct Hold as [->| ->]; simpl; auto.
Qed.
#[export] Instance c_slice_lawful {T} type (c : codec T) `{!Lawful c} : Lawful (c_slice type c).
Proof.
  split; [constructor| | | | |].
  - intros strict j old Hj Ho. destruct j; simpl; try done. by apply slice_dec_ok.
  - intros l Hl. cbn [c_enc c_slice c_depth nesting c_ok] in *. induction Hl as [|x l Hx Hl IH]; [simpl; lia|].
    rewrite fmap_cons. cbn [foldr]. pose proof (enc_nesting x Hx). lia.
  - intros strict x old Hx Hold. simpl in *. by apply slice_dec_enc.
  - intros x Hx. simpl in *. apply Is_true_true, forallb_True, Forall_fmap. eapply Forall_impl; [exact Hx|].
    intros y Hy. apply Is_true_true. by apply enc_printable.
  - by intros [] ?%bool_decide_eq_true.
Qed.
#[export] Instance c_slice_notnull {T} type (c : codec T) : NotNull (c_slice type c).
Proof. done. Qed.

Lemma strmap_dec_sorted strict (l : list (string * string)) m :
  foldl (entry_dec strict) (m, []) (string_member <$> l) = (foldl insert_entry m l, []).
Proof. revert m. induction l as [|[k v] l IH]; intros m; [done|]. simpl. apply IH. Qed.
Lemma foldl_insert_map (l : list (string * string)) m m0 : NoDup l.*1 → l ≡ₚ map_to_list m →
  m0 = ∅ ∨ m0 = m → foldl insert_entry m0 l = m.
Proof.
  intros Hnd Hl Hm0.
  assert (Hgen : ∀ l (m0 : gmap string string), NoDup l.*1 →
    foldl insert_entry m0 l = list_to_map l ∪ m0).
  { clear. induction l as [|[k v] l IH]; intros m0 Hnd; [simpl; by rewrite (left_id_L ∅ (∪))|].
    apply NoDup_cons in Hnd as [Hk Hnd]. cbn [foldl]. unfold insert_entry at 2. cbn [fst snd]. rewrite IH by done.
    cbn [list_to_map fst snd]. rewrite <-insert_union_r, insert_union_l; [done|].
    by apply not_elem_of_list_to_map. }
  rewrite Hgen by done.
  rewrite (list_to_map_proper l (map_to_list m)) by done. rewrite list_to_map_to_list.
  destruct Hm0 as [->| ->]; [apply (right_id_L ∅ (∪))|apply (idemp_L (∪))].
Qed.
Lemma strmap_dec_ok strict (l : list (string * json)) acc :
  readable (JObj l) → c_ok c_strmap acc.1 →
  c_ok c_strmap (foldl (entry_dec strict) acc l).1.
Proof.
  revert acc. induction l as [|[k j] l IH]; intros acc Hl Ho; [done|].
  apply readable_obj in Hl as (Hk & Hj & Hl). simpl.
  apply IH; [done|]. unfold entry_dec. cbn [fst snd].
  pose proof (dec_ok (c := c_string "string") strict j "" Hj eq_refl) as Hx.
  destruct (c_dec _ _ _ _) as [x es]. by apply map_Forall_insert_2.
Qed.
#[export] Instance c_strmap_lawful : Lawful c_strmap.
Proof.
  split; [apply map_Forall_empty| | | | |].
  - intros strict j old Hj Ho. destruct j; try done; [].
    by apply (strmap_dec_ok strict _ (old, [])).
  - intros m _. cbn [c_enc c_strmap c_depth nesting]. generalize (merge_sort key_le (map_to_list m)). intros l.
    induction l as [|kv l IH]; [simpl; lia|]. rewrite fmap_cons. cbn [foldr string_member snd nesting]. lia.
  - intros strict m old _ Hold. simpl in Hold.
    set (l := merge_sort key_le (map_to_list m)).
    assert (Hp : l ≡ₚ map_to_list m) by apply merge_sort_Permutation.
    change (c_enc c_strmap m) with (JObj (string_member <$> l)). cbn [c_dec c_strmap].
    rewrite strmap_dec_sorted. f_equal. apply foldl_insert_map; [|done|done].
    rewrite Hp. apply NoDup_fst_map_to_list.
  - intros m Hm. simpl in *. apply Is_true_true, forallb_True, Forall_fmap.
    apply Forall_forall. intros [k v] Hin. rewrite merge_sort_Permutation in Hin.
    apply elem_of_map_to_list in Hin. destruct (Hm _ _ Hin) as [Hk Hv]. apply Is_true_true. simpl. by rewrite Hk, Hv.
  - by intros m ?%bool_decide_eq_true.
Qed.

(** *** Structs

    Storing the fields of [r] one after the other: each variable is as it was before its turn,
    and in the end the struct is [r].  For a concrete struct this is computation. *)
Fixpoint fields_track {R} (r old acc : R) (fs : list (field R)) : Prop :=
  match fs with
  | [] => acc = r
  | f :: fs => f_get f acc = f_get f old ∧ fields_track r old (f_set f (f_get f r) acc) fs
  end.
(** A field is what was stored in it last, and storing in another leaves it alone. *)
Fixpoint fields_indep {R} (fs : list (field R)) : Prop :=
  match fs with
  | [] => True
  | f :: fs => (∀ x r, f_get f (f_set f x r) = x) ∧
               Forall (λ g, (∀ x r, f_get g (f_set f x r) = f_get g r) ∧
                            (∀ x r, f_get f (f_set g x r) = f_get f r)) fs ∧ fields_indep fs
  end.
Class StructLaws {R} (zero : R) (fs : list (field R)) := {
  sl_names : NoDup (f_name <$> fs);
  sl_valid : Forall (λ f, ValidString (f_name f) = true) fs;
  sl_track : ∀ r old, fields_track r old old fs;
  sl_set_get : Forall (λ f, ∀ r, f_set f (f_get f r) r = r) fs;
  sl_zero : Forall (λ f, f_get f zero = c_zero (f_codec f)) fs;
  sl_lawful : Forall (λ f, Lawful (f_codec f)) fs;
  sl_indep : fields_indep fs;
}.

Lemma fields_set_ok {R} (fs : list (field R)) f r x : fields_indep fs → f ∈ fs →
  c_ok (f_codec f) x → Forall (λ g, c_ok (f_codec g) (f_get g r)) fs →
  Forall (λ g, c_ok (f_codec g) (f_get g (f_set f x r))) fs.
Proof.
  intros Hi Hf Hx Hr. induction fs as [|h fs IH]; [constructor|].
  destruct Hi as (Hh & Hind & Hi). apply Forall_cons in Hr as [Hrh Hr].
  apply elem_of_cons in Hf as [->|Hf].
  - constructor; [by rewrite Hh|]. apply Forall_forall. intros g Hg.
    destruct (proj1 (Forall_forall _ _) Hind g Hg) as [-> _].
    by apply (proj1 (Forall_forall _ _) Hr g Hg).
  - constructor; [|by apply IH]. by destruct (proj1 (Forall_forall _ _) Hind f Hf) as [_ ->].
Qed.
Lemma find_field_elem {R} (fs : list (field R)) key f : find_field fs key = Some f → f ∈ fs.
Proof.
  unfold find_field. intros H.
  assert (∃ p, List.find p fs = Some f) as [p Hp].
  { destruct (List.find (λ f, bool_decide (f_name f = key)) fs) eqn:E; [simplify_eq|]; eauto. }
  apply find_some in Hp as [Hp _]. by apply list_elem_of_In.
Qed.
Lemma find_field_name {R} (fs : list (field R)) f :
  NoDup (f_name <$> fs) → f ∈ fs → find_field fs (f_name f) = Some f.
Proof.
  intros Hnd Hf. unfold find_field.
  assert (List.find (λ g, bool_decide (f_name g = f_name f)) fs = Some f) as ->; [|done].
  induction fs as [|g fs IH]; [by apply not_elem_of_nil in Hf|]. simpl.
  apply NoDup_cons in Hnd as [Hg Hnd]. apply elem_of_cons in Hf as [->|Hf].
  - by rewrite bool_decide_eq_true_2.
  - rewrite bool_decide_eq_false_2; [by apply IH|]. intros Heq. apply Hg. rewrite Heq.
    by apply list_elem_of_fmap_2.
Qed.

Section struct_laws.
Context {R : Type} (zero : R) (fs : list (field R)) `{!StructLaws zero fs}.

(** The struct may hold, field by field, nothing or already what is stored. *)
Definition field_fresh (r old : R) (f : field R) : Prop :=
  f_get f old = c_zero (f_codec f) ∨ f_get f old = f_get f r.

Lemma struct_dec_enc struct type strict r old :
  Forall (λ f, c_ok (f_codec f) (f_get f r)) fs → Forall (field_fresh r old) fs →
  struct_dec struct type fs strict (struct_enc fs r) old = (r, []).
Proof.
  intros Hok Hold. unfold struct_enc. cbn [struct_dec].
  assert (Hgen : ∀ fs2 acc, fs2 ⊆ fs → fields_track r old acc fs2 →
    foldl (member_dec struct fs strict) (acc, []) (omap (field_member r) fs2) = (r, [])).
  { induction fs2 as [|f fs2 IH]; intros acc Hsub Ht; [simpl in *; congruence|].
    destruct Ht as [Hacc Ht]. assert (Hf : f ∈ fs) by (apply Hsub; left).
    assert (Hsub2 : fs2 ⊆ fs) by (intros x Hx; apply Hsub; by right).
    pose proof (proj1 (Forall_forall _ _) sl_lawful f Hf) as Hlaw. simpl in Hlaw.
    pose proof (proj1 (Forall_forall _ _) Hok f Hf) as Hokf.
    pose proof (proj1 (Forall_forall _ _) Hold f Hf) as Hfr. cbn beta in *.
    cbn [omap list_omap]. unfold field_member at 1.
    destruct (f_omitempty f && _) eqn:He.
    - apply andb_true_iff in He as [_ He]. apply empty_zero in He.
      assert (f_get f acc = f_get f r) as Heq.
      { rewrite Hacc. destruct Hfr as [Hz|Hz]; congruence. }
      pose proof (proj1 (Forall_forall _ _) sl_set_get f Hf acc) as Hsg.
      rewrite Heq in Hsg. rewrite Hsg in Ht. by apply IH.
    - cbn [foldl]. unfold member_dec at 2. cbn [fst snd].
      rewrite (find_field_name fs f sl_names Hf).
      rewrite dec_enc; [|done|rewrite Hacc; by destruct Hfr; auto]. by apply IH. }
  apply Hgen; [done|apply sl_track].
Qed.
Lemma struct_dec_ok struct type strict j old : readable j →
  Forall (λ f, c_ok (f_codec f) (f_get f old)) fs →
  Forall (λ f, c_ok (f_codec f) (f_get f (struct_dec struct type fs strict j old).1)) fs.
Proof.
  intros Hj Ho. destruct j as [| | | | |ms]; try done. cbn [struct_dec].
  assert (Hgen : ∀ acc, Forall (λ f, c_ok (f_codec f) (f_get f acc.1)) fs →
    Forall (λ f, c_ok (f_codec f) (f_get f (foldl (member_dec struct fs strict) acc ms).1)) fs);
    [|by apply Hgen].
  clear Ho old. induction ms as [|[k v] ms IH]; intros acc Hacc; [done|].
  apply readable_obj in Hj as (_ & Hv & Hms). cbn [foldl].
  apply IH; [done|]. unfold member_dec. cbn [fst snd].
  destruct (find_field fs k) as [f|] eqn:Hf; [|done]. apply find_field_elem in Hf.
  pose proof (proj1 (Forall_forall _ _) sl_lawful f Hf) as Hlaw. simpl in Hlaw.
  pose proof (proj1 (Forall_forall _ _) Hacc f Hf) as Hok. cbn beta in Hok.
  pose proof (dec_ok strict v _ Hv Hok) as Hx. destruct (c_dec _ _ _ _) as [x es].
  apply fields_set_ok; [apply sl_indep|done..].
Qed.
#[export] Instance c_struct_lawful pkg struct : Lawful (c_struct pkg struct zero fs).
Proof.
  split.
  - apply Forall_forall. intros f Hf. cbn [c_zero c_struct].
    rewrite (proj1 (Forall_forall _ _) sl_zero f Hf).
    pose proof (proj1 (Forall_forall _ _) sl_lawful f Hf) as Hlaw. simpl in Hlaw. apply zero_ok.
  - intros strict j old Hj Ho. by apply struct_dec_ok.
  - intros x. cbn [c_enc c_struct c_depth c_ok]. unfold struct_enc. cbn [nesting].
    pose proof sl_lawful as Hl. revert Hl. clear. induction fs as [|f l IH]; intros Hl Hx; [done|].
    apply Forall_cons in Hl as [Hf Hl]. apply Forall_cons in Hx as [Hxf Hx].
    specialize (IH Hl Hx). cbn [omap list_omap foldr].
    unfold field_member at 1. pose proof (enc_nesting (c := f_codec f) (f_get f x) Hxf).
    destruct (_ && _); cbn [foldr snd]; lia.
  - intros strict x old Hx Hold. apply struct_dec_enc; [done|].
    destruct Hold as [->| ->]; apply Forall_forall; intros f Hf; [left|by right].
    by apply (proj1 (Forall_forall _ _) sl_zero f Hf).
  - intros x Hx. simpl in *. apply Is_true_true, forallb_True, Forall_forall.
    intros kv (f & Hf & Hm)%list_elem_of_omap. unfold field_member in Hm. case_match; [done|].
    injection Hm as <-. apply Is_true_true. cbn [fst snd].
    rewrite (proj1 (Forall_forall _ _) sl_valid f Hf). simpl.
    pose proof (proj1 (Forall_forall _ _) sl_lawful f Hf) as Hlaw. simpl in Hlaw.
    apply enc_printable, (proj1 (Forall_forall _ _) Hx f Hf).
  - done.
Qed.
#[export] Instance c_struct_notnull pkg struct : NotNull (c_struct pkg struct zero fs).
Proof. done. Qed.
End struct_laws.

Lemma c_iface_lawful {A B} (wrap : A → B) unwrap (c : codec A) `{!Lawful c} :
  (∀ a, unwrap (wrap a) = a) → (∀ b, wrap (unwrap b) = b) → Lawful (c_iface wrap unwrap c).
Proof.
  intros Huw Hwu. split; simpl.
  - rewrite Huw. apply zero_ok.
  - intros strict j old Hj Ho. pose proof (dec_ok strict j _ Hj Ho) as H.
    destruct (c_dec c strict j (unwrap old)). simpl in *. by rewrite Huw.
  - intros x. apply enc_nesting.
  - intros strict x old Hx Ho. rewrite dec_enc; [by rewrite Hwu|done|].
    destruct Ho as [->| ->]; [left; apply Huw|by right].
  - intros x. apply enc_printable.
  - intros x Hx. rewrite <-(Hwu x). f_equal. by apply empty_zero.
Qed.

(** A printed variable is read back by either entry point, into a fresh variable. *)
Lemma json_roundtrip {T} (c : codec T) `{!Lawful c} x :
  c_ok c x → c_depth c ≤ maxNestingDepth →
  json_Unmarshal c (json_Marshal c x) (c_zero c) = inl x ∧
  json_DecodeStrict c (json_Marshal c x) (c_zero c) = inl x.
Proof.
  intros Hx Hn. pose proof (enc_nesting x Hx) as Hd.
  destruct (parse_print (c_enc c x) (enc_printable x Hx) ltac:(lia)) as [Ha Hf].
  unfold json_Unmarshal, json_DecodeStrict, json_Marshal, store. rewrite Ha.
  specialize (Hf [] I). rewrite app_nil_r in Hf. rewrite Hf.
  by rewrite !dec_enc by auto.
Qed.

(** Solves the laws of a concrete struct: the fields' codecs are found by instance search. *)
Ltac struct_laws :=
  split;
  [apply (bool_decide_unpack _); vm_compute; exact I
  |apply (bool_decide_unpack _); vm_compute; exact I
  |
  |
  |repeat constructor
  |repeat (constructor; [cbn; apply _|]); constructor
  |repeat constructor].
