(* ===== verification/Hash.v ===== *)
(** * Hash functions of the Go standard library, executable

    [crypto/md5] (authentication keys, analysis keys), [crypto/sha256] (the
    wire v2 transcript), [crypto/hkdf] (the keys of the control channel) and
    [encoding/hex], as functions on byte lists, so that
    every definition that hashes evaluates on concrete inputs.  Their test
    vectors are the examples at the end of each section. *)
From S2P Require Import Prelude GoStd.
From Stdlib Require Import Ascii.
From Stdlib Require String.
From stdpp Require Import list.
Local Open Scope Z_scope.

Definition mask32 (z : Z) : Z := Z.land z 4294967295.
Definition not32 (z : Z) : Z := Z.lxor z 4294967295.
Definition rotl32 (z n : Z) : Z := Z.lor (mask32 (Z.shiftl z n)) (Z.shiftr z (32 - n)).
Definition rotr32 (z n : Z) : Z := rotl32 z (32 - n).

(** [n] bytes of [z], least significant first. *)
Definition le_split (n : nat) (z : Z) : list byte := reverse (be_split n z).
Definition le_combine (l : list byte) : Z := be_combine (reverse l).

(** Cut a list into chunks of [n]; the fuel is the length of the list. *)
Fixpoint chunks_of {A} (n : nat) (l : list A) (fuel : nat) : list (list A) :=
  match fuel, l with
  | _, [] => []
  | O, _ => []
  | S fuel, _ => take n l :: chunks_of n (drop n l) fuel
  end.
Definition chunks {A} (n : nat) (l : list A) : list (list A) := chunks_of n l (length l).

(** The padding common to both hashes, [len] being the encoded bit length. *)
Definition md_pad (len : list byte) (m : list byte) : list byte :=
  m ++ byte_of_Z 128 :: replicate (Z.to_nat ((55 - Z.of_nat (length m)) mod 64)) (byte_of_Z 0) ++ len.
Definition bit_length (m : list byte) : Z := 8 * Z.of_nat (length m).

(** ** [crypto/md5] *)
Definition md5_K : list Z :=
  [3614090360; 3905402710; 606105819; 3250441966; 4118548399; 1200080426;
   2821735955; 4249261313; 1770035416; 2336552879; 4294925233; 2304563134;
   1804603682; 4254626195; 2792965006; 1236535329; 4129170786; 3225465664;
   643717713; 3921069994; 3593408605; 38016083; 3634488961; 3889429448;
   568446438; 3275163606; 4107603335; 1163531501; 2850285829; 4243563512;
   1735328473; 2368359562; 4294588738; 2272392833; 1839030562; 4259657740;
   2763975236; 1272893353; 4139469664; 3200236656; 681279174; 3936430074;
   3572445317; 76029189; 3654602809; 3873151461; 530742520; 3299628645;
   4096336452; 1126891415; 2878612391; 4237533241; 1700485571; 2399980690;
   4293915773; 2240044497; 1873313359; 4264355552; 2734768916; 1309151649;
   4149444226; 3174756917; 718787259; 3951481745].
Definition md5_S : list Z :=
  [7; 12; 17; 22; 7; 12;
   17; 22; 7; 12; 17; 22;
   7; 12; 17; 22; 5; 9;
   14; 20; 5; 9; 14; 20;
   5; 9; 14; 20; 5; 9;
   14; 20; 4; 11; 16; 23;
   4; 11; 16; 23; 4; 11;
   16; 23; 4; 11; 16; 23;
   6; 10; 15; 21; 6; 10;
   15; 21; 6; 10; 15; 21;
   6; 10; 15; 21].

Definition md5_round (w : list Z) (st : Z * Z * Z * Z) (i : nat) : Z * Z * Z * Z :=
  let '(a, b, c, d) := st in
  let '(f, g) :=
    if bool_decide (i < 16)%nat then (Z.lor (Z.land b c) (Z.land (not32 b) d), i)
    else if bool_decide (i < 32)%nat then (Z.lor (Z.land d b) (Z.land (not32 d) c), ((5 * i + 1) mod 16)%nat)
    else if bool_decide (i < 48)%nat then (Z.lxor b (Z.lxor c d), ((3 * i + 5) mod 16)%nat)
    else (Z.lxor c (Z.lor b (not32 d)), ((7 * i) mod 16)%nat) in
  let x := mask32 (a + f + default 0 (md5_K !! i) + default 0 (w !! g)) in
  (d, mask32 (b + rotl32 x (default 0 (md5_S !! i))), b, c).

Definition md5_block (st : Z * Z * Z * Z) (block : list byte) : Z * Z * Z * Z :=
  let w := le_combine <$> chunks 4 block in
  let '(a, b, c, d) := st in
  let '(a', b', c', d') := foldl (md5_round w) st (seq 0 64) in
  (mask32 (a + a'), mask32 (b + b'), mask32 (c + c'), mask32 (d + d')).

Definition md5 (m : list byte) : list byte :=
  let '(a, b, c, d) :=
    foldl md5_block (1732584193, 4023233417, 2562383102, 271733878)
      (chunks 64 (md_pad (le_split 8 (bit_length m)) m)) in
  le_split 4 a ++ le_split 4 b ++ le_split 4 c ++ le_split 4 d.

(** ** [crypto/sha256] *)
Definition sha256_K : list Z :=
  [1116352408; 1899447441; 3049323471; 3921009573; 961987163; 1508970993;
   2453635748; 2870763221; 3624381080; 310598401; 607225278; 1426881987;
   1925078388; 2162078206; 2614888103; 3248222580; 3835390401; 4022224774;
   264347078; 604807628; 770255983; 1249150122; 1555081692; 1996064986;
   2554220882; 2821834349; 2952996808; 3210313671; 3336571891; 3584528711;
   113926993; 338241895; 666307205; 773529912; 1294757372; 1396182291;
   1695183700; 1986661051; 2177026350; 2456956037; 2730485921; 2820302411;
   3259730800; 3345764771; 3516065817; 3600352804; 4094571909; 275423344;
   430227734; 506948616; 659060556; 883997877; 958139571; 1322822218;
   1537002063; 1747873779; 1955562222; 2024104815; 2227730452; 2361852424;
   2428436474; 2756734187; 3204031479; 3329325298].

(** The message schedule, newest word first; [n] more words. *)
Fixpoint sha256_schedule (n : nat) (w : list Z) : list Z :=
  match n with
  | O => w
  | S n =>
      let at_ i := default 0 (w !! i) in
      let s0 := Z.lxor (rotr32 (at_ 14%nat) 7) (Z.lxor (rotr32 (at_ 14%nat) 18) (Z.shiftr (at_ 14%nat) 3)) in
      let s1 := Z.lxor (rotr32 (at_ 1%nat) 17) (Z.lxor (rotr32 (at_ 1%nat) 19) (Z.shiftr (at_ 1%nat) 10)) in
      sha256_schedule n (mask32 (at_ 15%nat + s0 + at_ 6%nat + s1) :: w)
  end.

Definition sha256_round (st : list Z) (kw : Z * Z) : list Z :=
  match st with
  | [a; b; c; d; e; f; g; h] =>
      let s1 := Z.lxor (rotr32 e 6) (Z.lxor (rotr32 e 11) (rotr32 e 25)) in
      let ch := Z.lxor (Z.land e f) (Z.land (not32 e) g) in
      let t1 := mask32 (h + s1 + ch + kw.1 + kw.2) in
      let s0 := Z.lxor (rotr32 a 2) (Z.lxor (rotr32 a 13) (rotr32 a 22)) in
      let maj := Z.lxor (Z.land a b) (Z.lxor (Z.land a c) (Z.land b c)) in
      [mask32 (t1 + s0 + maj); a; b; c; mask32 (d + t1); e; f; g]
  | _ => st
  end.

Definition sha256_block (st : list Z) (block : list byte) : list Z :=
  let w := reverse (sha256_schedule 48 (reverse (be_combine <$> chunks 4 block))) in
  zip_with (λ x y, mask32 (x + y)) st (foldl sha256_round st (zip sha256_K w)).

Definition sha256 (m : list byte) : list byte :=
  concat (be_split 4 <$>
    foldl sha256_block [1779033703; 3144134277; 1013904242; 2773480762; 1359893119; 2600822924; 528734635; 1541459225]
      (chunks 64 (md_pad (be_split 8 (bit_length m)) m))).

(** ** [crypto/hmac] and [crypto/hkdf], over SHA-256 *)
Definition xor_pad (x : Z) (key : list byte) : list byte :=
  (λ b, byte_of_Z (Z.lxor (Z_of_byte b) x)) <$> key ++ replicate (64 - length key) (byte_of_Z 0).
Definition hmac_sha256 (key m : list byte) : list byte :=
  let key := if decide (length key ≤ 64)%nat then key else sha256 key in
  sha256 (xor_pad 92 key ++ sha256 (xor_pad 54 key ++ m)).
(** [n] more blocks of the expansion after block [i] with text [prev]. *)
Fixpoint hkdf_blocks (prk info prev : list byte) (i n : nat) : list byte :=
  match n with
  | O => []
  | S n =>
      let t := hmac_sha256 prk (prev ++ info ++ [byte_of_Z (Z.of_nat (S i))]) in
      t ++ hkdf_blocks prk info t (S i) n
  end.
(** [hkdf.Key(sha256.New, secret, salt, info, keyLength)]. *)
Definition hkdf_Key (secret salt : list byte) (info : string) (keyLength : nat) : result (list byte) :=
  if decide (255 * 32 < keyLength)%nat then Err "hkdf: requested key length too large"
  else Ok (take keyLength
             (hkdf_blocks (hmac_sha256 salt secret) (bytes_of info) [] 0 (Nat.div (keyLength + 31) 32))).

(** ** [encoding/hex] *)
Definition hex_digit (n : Z) : ascii :=
  Ascii.ascii_of_nat (Z.to_nat (if bool_decide (n < 10) then 48 + n else 87 + n)).
Fixpoint hex_encode (l : list byte) : string :=
  match l with
  | [] => EmptyString
  | b :: l => String (hex_digit (Z_of_byte b / 16)) (String (hex_digit (Z_of_byte b mod 16)) (hex_encode l))
  end.

Lemma length_hex_encode l : String.length (hex_encode l) = (2 * length l)%nat.
Proof. induction l as [|b l IH]; simpl; [done|]. rewrite IH. lia. Qed.

Example md5_empty : hex_encode (md5 []) = "d41d8cd98f00b204e9800998ecf8427e".
Proof. vm_compute. reflexivity. Qed.
Example md5_fox : hex_encode (md5 (bytes_of "The quick brown fox jumps over the lazy dog"))
  = "9e107d9d372bb6826bd81d3542a419d6".
Proof. vm_compute. reflexivity. Qed.
Example md5_long : hex_encode (md5 (bytes_of "12345678901234567890123456789012345678901234567890123456789012345678901234567890"))
  = "57edf4a22be3c955ac49da2e2107b67a".
Proof. vm_compute. reflexivity. Qed.
Example sha256_abc : hex_encode (sha256 (bytes_of "abc"))
  = "ba7816bf8f01cfea414140de5dae2223b00361a396177a9cb410ff61f20015ad".
Proof. vm_compute. reflexivity. Qed.

(** Test vectors of RFC 4231 (case 2) and RFC 5869 (case 1). *)
Example hmac_jefe : hex_encode (hmac_sha256 (bytes_of "Jefe") (bytes_of "what do ya want for nothing?"))
  = "5bdcc146bf60754e6a042426089575c75a003f089d2739839dec58b964ec3843".
Proof. vm_compute. reflexivity. Qed.
Example hkdf_rfc5869 :
  hex_encode <$> hkdf_Key (replicate 22 (byte_of_Z 11)) (byte_of_Z <$> seqZ 0 13)
    (string_of (byte_of_Z <$> seqZ 240 10)) 42
  = Ok "3cb25f25faacd57a90434f64d0362f2a2d2d0a90cf1a5a4c5db02d56ecc4c5bf34007208d5b887185865".
Proof. vm_compute. reflexivity. Qed.

(** The value of a hex digit tells it apart. *)
Lemma hex_digit_code x : 0 ≤ x < 16 →
  Z.of_nat (Ascii.nat_of_ascii (hex_digit x)) = (if bool_decide (x < 10) then 48 + x else 87 + x).
Proof.
  intros Hx. unfold hex_digit. case_bool_decide; rewrite Ascii.nat_ascii_embedding; lia.
Qed.
Lemma hex_digit_inj x y : 0 ≤ x < 16 → 0 ≤ y < 16 → hex_digit x = hex_digit y → x = y.
Proof.
  intros Hx Hy H. pose proof (hex_digit_code x Hx) as Ex. pose proof (hex_digit_code y Hy) as Ey.
  rewrite H in Ex. repeat case_bool_decide; lia.
Qed.
Lemma hex_encode_inj l k : hex_encode l = hex_encode k → l = k.
Proof.
  revert k. induction l as [|b l IH]; intros [|c k]; simpl; intros H; try done.
  injection H as H1 H2 H3.
  pose proof (Z_of_byte_range b). pose proof (Z_of_byte_range c).
  pose proof (Z.mod_pos_bound (Z_of_byte b) 16 ltac:(lia)).
  pose proof (Z.mod_pos_bound (Z_of_byte c) 16 ltac:(lia)).
  apply hex_digit_inj in H1; [|split; [apply Z.div_pos; lia|apply Z.div_lt_upper_bound; lia]..].
  apply hex_digit_inj in H2; [|done..].
  assert (Z_of_byte b = Z_of_byte c) as Hbc by (rewrite (Z.div_mod (Z_of_byte b) 16), (Z.div_mod (Z_of_byte c) 16); lia).
  f_equal; [|by apply IH]. by rewrite <-(byte_of_Z_of_byte b), Hbc, byte_of_Z_of_byte.
Qed.
