(* ===== verification/ControlCrypto.v ===== *)
(** * Encryption of the control connection: [pkg/util/net/conn.go]

    The constructors of the encrypting reader and writer: under wire v2 one key for each
    direction, derived from the shared key, the algorithm and the transcript's hash.  The
    ciphers are a third-party library, known by which algorithm and key they accept. *)
From S2P Require Import Prelude GoStd Hash.
From stdpp Require Import list.
Local Open Scope Z_scope.

(** [golib/crypto]: the length of an AEAD key, and the error of each constructor. *)
Class ControlCipher := {
  AEADKeySize : nat;
  NewAEADStreamReader : string → list byte → result unit;
  NewAEADStreamWriter : string → list byte → result unit;
  NewWriter : list byte → result unit;
}.

(** [AEADCryptoRole] is an [int]. *)
Definition AEADCryptoRoleClient : Z := 1.
Definition AEADCryptoRoleServer : Z := 2.
Definition aeadControlHKDFInfoPrefix : string := "frp wire v2 control aead".
Definition aeadDirectionClientToServer : string := "client-to-server".
Definition aeadDirectionServerToClient : string := "server-to-client".

(** A reader and writer over a connection: the stream cipher of wire v1, or the AEAD
    streams of wire v2 with the keys they were given. *)
Inductive control_rw : Type :=
| StreamRW (key : list byte)
| AEADRW (algorithm : string) (readKey writeKey : list byte).
#[export] Instance control_rw_eq_dec : EqDecision control_rw.
Proof. solve_decision. Defined.

Definition aead_info (algorithm direction : string) : string :=
  aeadControlHKDFInfoPrefix +:+ " " +:+ algorithm +:+ " " +:+ direction.

Section crypto.
Context `{ControlCipher}.

Definition NewCryptoReadWriter (key : list byte) : result control_rw :=
  NewWriter key ≫= λ _, Ok (StreamRW key).
Definition deriveAEADControlKey (key : list byte) (algorithm : string) (transcriptHash : list byte)
    (direction : string) : result (list byte) :=
  hkdf_Key key transcriptHash (aead_info algorithm direction) AEADKeySize.
(** The key from the client to the server, and the one back. *)
Definition deriveAEADControlKeys (key : list byte) (algorithm : string) (transcriptHash : list byte)
    : result (list byte * list byte) :=
  deriveAEADControlKey key algorithm transcriptHash aeadDirectionClientToServer ≫= λ c2s,
  deriveAEADControlKey key algorithm transcriptHash aeadDirectionServerToClient ≫= λ s2c,
  Ok (c2s, s2c).
Definition NewAEADCryptoReadWriter (key : list byte) (role : Z) (algorithm : string)
    (transcriptHash : list byte) : result control_rw :=
  deriveAEADControlKeys key algorithm transcriptHash ≫= λ '(c2s, s2c),
  (if decide (role = AEADCryptoRoleClient) then Ok (s2c, c2s)
   else if decide (role = AEADCryptoRoleServer) then Ok (c2s, s2c)
   else Err "invalid aead crypto role") ≫= λ '(readKey, writeKey),
  NewAEADStreamReader algorithm readKey ≫= λ _,
  NewAEADStreamWriter algorithm writeKey ≫= λ _,
  Ok (AEADRW algorithm readKey writeKey).
End crypto.

Definition directions : list string := [aeadDirectionClientToServer; aeadDirectionServerToClient].

(** What one end writes the other end reads: the same cipher, the keys crossed. *)
Definition meets (a b : control_rw) : Prop :=
  match a, b with
  | StreamRW k, StreamRW k' => k = k'
  | AEADRW alg r w, AEADRW alg' r' w' => alg = alg' ∧ r = w' ∧ w = r'
  | _, _ => False
  end.

(** ** Lemmas *)
(** The text a key is derived for tells the algorithm and the direction. *)
Lemma aead_info_inj a d a' d' : String.length d = String.length d' →
  aead_info a d = aead_info a' d' → a = a' ∧ d = d'.
Proof.
  unfold aead_info. intros Hl H. apply string_app_inj_l, string_app_inj_l in H.
  apply (f_equal bytes_of) in H. rewrite !bytes_of_app in H.
  rewrite !(assoc_L (++)) in H. apply app_inj_2 in H as [H1 H2]; [|by rewrite !length_bytes_of].
  apply app_inj_2 in H1 as [H1 _]; [|done]. split; by apply bytes_of_inj.
Qed.

Lemma NewAEADCryptoReadWriter_Ok `{ControlCipher} key role alg th rw :
  NewAEADCryptoReadWriter key role alg th = Ok rw →
  ∃ c2s s2c, deriveAEADControlKey key alg th aeadDirectionClientToServer = Ok c2s
    ∧ deriveAEADControlKey key alg th aeadDirectionServerToClient = Ok s2c
    ∧ (role = AEADCryptoRoleClient ∧ rw = AEADRW alg s2c c2s
       ∨ role = AEADCryptoRoleServer ∧ rw = AEADRW alg c2s s2c).
Proof.
  unfold NewAEADCryptoReadWriter, deriveAEADControlKeys.
  intros ([c2s s2c] & (c & Hc & (s & Hs & [= -> ->])%result_bind_Ok)%result_bind_Ok & Hr)%result_bind_Ok.
  exists c2s, s2c. apply result_bind_Ok in Hr as ([r w] & Hr & (? & _ & (? & _ & [= <-])%result_bind_Ok)%result_bind_Ok).
  repeat case_decide; naive_solver.
Qed.

(** The control channel's ends fit.  With the same key, algorithm and transcript the
    client's and the server's constructors give ends that meet: the client writes with the
    key the server reads with, and back; no other role is accepted; and the texts the two
    keys are derived for differ, from each other and from those of any other algorithm. *)
Theorem control_ends_meet `{ControlCipher} (key : list byte) (alg : string) (th : list byte) :
  (∀ c s, NewAEADCryptoReadWriter key AEADCryptoRoleClient alg th = Ok c →
     NewAEADCryptoReadWriter key AEADCryptoRoleServer alg th = Ok s → meets c s)
  ∧ (∀ c s, NewCryptoReadWriter key = Ok c → NewCryptoReadWriter key = Ok s → meets c s)
  ∧ (∀ role rw, NewAEADCryptoReadWriter key role alg th = Ok rw →
       role = AEADCryptoRoleClient ∨ role = AEADCryptoRoleServer)
  ∧ ∀ alg' d d', d ∈ directions → d' ∈ directions →
       aead_info alg d = aead_info alg' d' → alg = alg' ∧ d = d'.
Proof.
  split_and!.
  - intros c s (c2s & s2c & H1 & H2 & [[? ->]|[? _]])%NewAEADCryptoReadWriter_Ok
      (c2s' & s2c' & H1' & H2' & [[? _]|[_ ->]])%NewAEADCryptoReadWriter_Ok; try done.
    rewrite H1 in H1'. rewrite H2 in H2'. injection H1' as <-. by injection H2' as <-.
  - unfold NewCryptoReadWriter. intros c s (? & _ & [= <-])%result_bind_Ok (? & _ & [= <-])%result_bind_Ok. done.
  - intros role rw (? & ? & _ & _ & [[? _]|[? _]])%NewAEADCryptoReadWriter_Ok; auto.
  - intros alg' d d' Hd Hd'. apply aead_info_inj. unfold directions in *.
    rewrite !elem_of_cons, elem_of_nil in Hd, Hd'. by destruct_or!; subst.
Qed.
