(* ===== verification/Naming.v ===== *)
(** * Proxy names on the wire: [pkg/naming/names.go]

    A proxy is called [user.name] between [frpc] and [frps] and [name] inside
    [frpc].  The theorems say that the two functions are inverse to each other
    on the names a client sends, and when two users cannot collide. *)
From S2P Require Import Prelude GoStd.
Local Open Scope Z_scope.

Definition AddUserPrefix (user name : string) : string :=
  if bool_decide (user = "") then name else user +:+ "." +:+ name.

Definition StripUserPrefix (user name : string) : string :=
  if bool_decide (user = "") then name
  else match cut_prefix (user +:+ ".") name with
       | Some trimmed => trimmed
       | None => name
       end.

Definition BuildTargetServerProxyName (localUser serverUser serverName : string) : string :=
  if bool_decide (serverUser ≠ "") then AddUserPrefix serverUser serverName
  else AddUserPrefix localUser serverName.

(** ** Lemmas *)
Lemma StripUserPrefix_AddUserPrefix user name :
  StripUserPrefix user (AddUserPrefix user name) = name.
Proof.
  unfold StripUserPrefix, AddUserPrefix. case_bool_decide; [done|].
  by rewrite <-string_app_assoc, cut_prefix_app.
Qed.

(** A name received back is either the client's own or is passed unchanged. *)
Lemma StripUserPrefix_cases user name :
  AddUserPrefix user (StripUserPrefix user name) = name ∨ StripUserPrefix user name = name.
Proof.
  unfold StripUserPrefix, AddUserPrefix. case_bool_decide; [by left|].
  destruct (cut_prefix (user +:+ ".") name) as [t|] eqn:E; [left|by right].
  apply cut_prefix_Some in E. by rewrite E, string_app_assoc.
Qed.

(** The first [.] of a wire name tells the user: users without a dot never collide. *)
Lemma AddUserPrefix_inj u1 u2 n1 n2 :
  u1 ≠ "" → u2 ≠ "" →
  contains_byte (Ascii.ascii_of_nat 46) u1 = false →
  contains_byte (Ascii.ascii_of_nat 46) u2 = false →
  AddUserPrefix u1 n1 = AddUserPrefix u2 n2 → u1 = u2 ∧ n1 = n2.
Proof.
  intros Hu1 Hu2 Hd1 Hd2. unfold AddUserPrefix, contains_byte in *.
  rewrite !bool_decide_eq_false_2 by done. intros H.
  apply bool_decide_eq_false, eq_None_not_Some in Hd1.
  apply bool_decide_eq_false, eq_None_not_Some in Hd2.
  assert (Hlen : String.length u1 = String.length u2).
  { apply (f_equal (index_byte (Ascii.ascii_of_nat 46))) in H.
    rewrite (index_byte_app_None _ u1), (index_byte_app_None _ u2) in H by done.
    change ("." +:+ n1) with (String (Ascii.ascii_of_nat 46) n1) in H.
    change ("." +:+ n2) with (String (Ascii.ascii_of_nat 46) n2) in H.
    rewrite !index_byte_head in H. simplify_eq/=. lia. }
  assert (u1 = u2) as ->.
  { apply (f_equal (str_take (String.length u1))) in H.
    rewrite str_take_app, Hlen, str_take_app in H. done. }
  split; [done|]. apply string_app_inj_l in H. by injection H.
Qed.

(** A visitor addresses exactly the proxy another client registered: for
    every user and proxy name, the target name the visitor computes (with
    [serverUser] set to that user, or left empty by a visitor of the same user)
    is the wire name under which the owner registers its proxy, and the owner
    maps that wire name back to the local name it configured. *)
Theorem target_name_is_registered_name (owner visitor name : string) :
  owner ≠ "" →
  BuildTargetServerProxyName visitor owner name = AddUserPrefix owner name
  ∧ BuildTargetServerProxyName owner "" name = AddUserPrefix owner name
  ∧ StripUserPrefix owner (BuildTargetServerProxyName visitor owner name) = name.
Proof.
  intros Ho. unfold BuildTargetServerProxyName.
  rewrite (bool_decide_eq_true_2 (owner ≠ "")), (bool_decide_eq_false_2 ("" ≠ "")) by naive_solver.
  auto using StripUserPrefix_AddUserPrefix.
Qed.

Lemma target_name_is_registered_name_witness :
  "alice" ≠ "" ∧ StripUserPrefix "alice" (BuildTargetServerProxyName "bob" "alice" "ssh") = "ssh".
Proof.
  split; [discriminate|].
  apply (target_name_is_registered_name "alice" "bob" "ssh"). discriminate.
Defined.
