(* ===== verification/Msg.v ===== *)
(** * Messages exchanged by [frpc] and [frps]: [pkg/msg/msg.go]

    One record per Go struct, with its fields in the source's order, and the
    sum [Message] of the structs that [msgTypeMap] registers.  The one-byte
    type codes of wire protocol v1 are [TypeOf]. *)
From S2P Require Import Prelude GoStd.
Local Open Scope Z_scope.

Record ClientSpec := mkClientSpec {
  cs_Type : string;
  cs_AlwaysAuthPass : bool;
}.

Record Login := mkLogin {
  lg_Version : string;
  lg_Hostname : string;
  lg_Os : string;
  lg_Arch : string;
  lg_User : string;
  lg_PrivilegeKey : string;
  lg_Timestamp : Z;
  lg_RunID : string;
  lg_ClientID : string;
  lg_Metas : gmap string string;
  lg_ClientSpec : ClientSpec;
  lg_PoolCount : Z;
}.

Record LoginResp := mkLoginResp {
  lr_Version : string;
  lr_RunID : string;
  lr_Error : string;
}.

Record NewProxy := mkNewProxy {
  np_ProxyName : string;
  np_ProxyType : string;
  np_UseEncryption : bool;
  np_UseCompression : bool;
  np_BandwidthLimit : string;
  np_BandwidthLimitMode : string;
  np_Group : string;
  np_GroupKey : string;
  np_Metas : gmap string string;
  np_Annotations : gmap string string;
  np_RemotePort : Z;
  np_CustomDomains : list string;
  np_SubDomain : string;
  np_Locations : list string;
  np_HTTPUser : string;
  np_HTTPPwd : string;
  np_HostHeaderRewrite : string;
  np_Headers : gmap string string;
  np_ResponseHeaders : gmap string string;
  np_RouteByHTTPUser : string;
  np_Sk : string;
  np_AllowUsers : list string;
  np_Multiplexer : string;
}.

Record NewProxyResp := mkNewProxyResp {
  npr_ProxyName : string;
  npr_RemoteAddr : string;
  npr_Error : string;
}.

Record CloseProxy := mkCloseProxy { cp_ProxyName : string }.

Record NewWorkConn := mkNewWorkConn {
  nw_RunID : string;
  nw_PrivilegeKey : string;
  nw_Timestamp : Z;
}.

Record StartWorkConn := mkStartWorkConn {
  sw_ProxyName : string;
  sw_SrcAddr : string;
  sw_DstAddr : string;
  sw_SrcPort : Z;
  sw_DstPort : Z;
  sw_Error : string;
}.

Record NewVisitorConn := mkNewVisitorConn {
  nvc_RunID : string;
  nvc_ProxyName : string;
  nvc_SignKey : string;
  nvc_Timestamp : Z;
  nvc_UseEncryption : bool;
  nvc_UseCompression : bool;
}.

Record NewVisitorConnResp := mkNewVisitorConnResp {
  nvr_ProxyName : string;
  nvr_Error : string;
}.

Record Ping := mkPing {
  pi_PrivilegeKey : string;
  pi_Timestamp : Z;
}.

Record Pong := mkPong { po_Error : string }.

(** [net.UDPAddr]: the address bytes as the source stores them, a port that is
    a Go [int], and the IPv6 zone. *)
Record UDPAddr := mkUDPAddr {
  ua_IP : list byte;
  ua_Port : Z;
  ua_Zone : string;
}.

Record UDPPacket := mkUDPPacket {
  up_Content : list byte;
  up_LocalAddr : option UDPAddr;
  up_RemoteAddr : option UDPAddr;
}.

Record NatHoleVisitor := mkNatHoleVisitor {
  nv_TransactionID : string;
  nv_ProxyName : string;
  nv_PreCheck : bool;
  nv_Protocol : string;
  nv_SignKey : string;
  nv_Timestamp : Z;
  nv_MappedAddrs : list string;
  nv_AssistedAddrs : list string;
}.

Record NatHoleClient := mkNatHoleClient {
  nc_TransactionID : string;
  nc_ProxyName : string;
  nc_Sid : string;
  nc_MappedAddrs : list string;
  nc_AssistedAddrs : list string;
}.

Record PortsRange := mkPortsRange {
  pr_From : Z;
  pr_To : Z;
}.

Record NatHoleDetectBehavior := mkNatHoleDetectBehavior {
  db_Role : string;
  db_Mode : Z;
  db_TTL : Z;
  db_SendDelayMs : Z;
  db_ReadTimeoutMs : Z;
  db_CandidatePorts : list PortsRange;
  db_SendRandomPorts : Z;
  db_ListenRandomPorts : Z;
}.

Record NatHoleResp := mkNatHoleResp {
  nr_TransactionID : string;
  nr_Sid : string;
  nr_Protocol : string;
  nr_CandidateAddrs : list string;
  nr_AssistedAddrs : list string;
  nr_DetectBehavior : NatHoleDetectBehavior;
  nr_Error : string;
}.

Record NatHoleSid := mkNatHoleSid {
  ns_TransactionID : string;
  ns_Sid : string;
  ns_Response : bool;
  ns_Nonce : string;
}.

Record NatHoleReport := mkNatHoleReport {
  nh_Sid : string;
  nh_Success : bool;
}.

(** The zero value of a message's optional part. *)
Definition zero_DetectBehavior : NatHoleDetectBehavior :=
  mkNatHoleDetectBehavior "" 0 0 0 0 [] 0 0.

Inductive Message : Type :=
| MLogin (m : Login)
| MLoginResp (m : LoginResp)
| MNewProxy (m : NewProxy)
| MNewProxyResp (m : NewProxyResp)
| MCloseProxy (m : CloseProxy)
| MNewWorkConn (m : NewWorkConn)
| MReqWorkConn
| MStartWorkConn (m : StartWorkConn)
| MNewVisitorConn (m : NewVisitorConn)
| MNewVisitorConnResp (m : NewVisitorConnResp)
| MPing (m : Ping)
| MPong (m : Pong)
| MUDPPacket (m : UDPPacket)
| MNatHoleVisitor (m : NatHoleVisitor)
| MNatHoleClient (m : NatHoleClient)
| MNatHoleResp (m : NatHoleResp)
| MNatHoleSid (m : NatHoleSid)
| MNatHoleReport (m : NatHoleReport).

(** Go's [reflect.TypeOf]: the struct type of a message. *)
Inductive MsgType : Type :=
| TLogin | TLoginResp | TNewProxy | TNewProxyResp | TCloseProxy | TNewWorkConn
| TReqWorkConn | TStartWorkConn | TNewVisitorConn | TNewVisitorConnResp | TPing
| TPong | TUDPPacket | TNatHoleVisitor | TNatHoleClient | TNatHoleResp
| TNatHoleSid | TNatHoleReport.
#[export] Instance MsgType_eq_dec : EqDecision MsgType.
Proof. solve_decision. Defined.

Definition all_types : list MsgType :=
  [TLogin; TLoginResp; TNewProxy; TNewProxyResp; TCloseProxy; TNewWorkConn;
   TReqWorkConn; TStartWorkConn; TNewVisitorConn; TNewVisitorConnResp; TPing;
   TPong; TUDPPacket; TNatHoleVisitor; TNatHoleClient; TNatHoleResp;
   TNatHoleSid; TNatHoleReport].

Lemma elem_of_all_types t : t ∈ all_types.
Proof. apply list_elem_of_In. destruct t; simpl; tauto. Qed.

Definition type_of (m : Message) : MsgType :=
  match m with
  | MLogin _ => TLogin | MLoginResp _ => TLoginResp | MNewProxy _ => TNewProxy
  | MNewProxyResp _ => TNewProxyResp | MCloseProxy _ => TCloseProxy
  | MNewWorkConn _ => TNewWorkConn | MReqWorkConn => TReqWorkConn
  | MStartWorkConn _ => TStartWorkConn | MNewVisitorConn _ => TNewVisitorConn
  | MNewVisitorConnResp _ => TNewVisitorConnResp | MPing _ => TPing | MPong _ => TPong
  | MUDPPacket _ => TUDPPacket | MNatHoleVisitor _ => TNatHoleVisitor
  | MNatHoleClient _ => TNatHoleClient | MNatHoleResp _ => TNatHoleResp
  | MNatHoleSid _ => TNatHoleSid | MNatHoleReport _ => TNatHoleReport
  end.

(** The type bytes of wire protocol v1, as their ASCII codes. *)
Definition msgTypeByte (t : MsgType) : Z :=
  match t with
  | TLogin => 111 (* 'o' *) | TLoginResp => 49 (* '1' *) | TNewProxy => 112 (* 'p' *)
  | TNewProxyResp => 50 (* '2' *) | TCloseProxy => 99 (* 'c' *) | TNewWorkConn => 119 (* 'w' *)
  | TReqWorkConn => 114 (* 'r' *) | TStartWorkConn => 115 (* 's' *)
  | TNewVisitorConn => 118 (* 'v' *) | TNewVisitorConnResp => 51 (* '3' *)
  | TPing => 104 (* 'h' *) | TPong => 52 (* '4' *) | TUDPPacket => 117 (* 'u' *)
  | TNatHoleVisitor => 105 (* 'i' *) | TNatHoleClient => 110 (* 'n' *)
  | TNatHoleResp => 109 (* 'm' *) | TNatHoleSid => 53 (* '5' *) | TNatHoleReport => 54 (* '6' *)
  end.

(** [msgTypeMap]: the struct registered for a type byte. *)
Definition msgTypeMap (b : Z) : option MsgType :=
  list_find (λ t, msgTypeByte t = b) all_types ≫= λ p, Some p.2.

Lemma msgTypeMap_byte t : msgTypeMap (msgTypeByte t) = Some t.
Proof. by destruct t. Qed.
Lemma msgTypeByte_inj t1 t2 : msgTypeByte t1 = msgTypeByte t2 → t1 = t2.
Proof. intros H. apply (inj Some). by rewrite <-!msgTypeMap_byte, H. Qed.
