(* ===== verification/ConfigV1.v ===== *)
(** * Configuration types: [pkg/config/v1/*.go]

    The records of the configuration files with their [Complete] methods, the
    proxy and visitor configurers, and their translation to and from the
    [NewProxy] message.  A Go pointer to a scalar is an [option]; a nil map or
    slice is the empty one (nothing modelled here tells them apart). *)
From S2P Require Import Prelude GoStd Msg.
From stdpp Require Import list.
Local Open Scope Z_scope.

(** [util.EmptyOr]: the value, or the fallback when it is the zero value. *)
Definition EmptyOr {T} `{EqDecision T} (zero v fallback : T) : T :=
  if decide (zero = v) then fallback else v.
Definition str_or (v fallback : string) : string := EmptyOr "" v fallback.
Definition int_or (v fallback : Z) : Z := EmptyOr 0 v fallback.
Definition ptr_or {T} `{EqDecision T} (v fallback : option T) : option T := EmptyOr None v fallback.

(** [lo.FromPtr] on a [*bool]. *)
Definition from_ptr (b : option bool) : bool := default false b.
(** [util.ClonePtr]: a fresh cell with the same contents. *)
Definition ClonePtr {T} (v : option T) : option T :=
  match v with None => None | Some out => Some out end.

Lemma EmptyOr_idem {T} `{EqDecision T} (zero v fb : T) :
  EmptyOr zero (EmptyOr zero v fb) fb = EmptyOr zero v fb.
Proof. unfold EmptyOr. by repeat case_decide. Qed.
Lemma EmptyOr_nonzero {T} `{EqDecision T} (zero v fb : T) : fb ≠ zero → EmptyOr zero v fb ≠ zero.
Proof. unfold EmptyOr. case_decide; congruence. Qed.
Lemma EmptyOr_Some {T} `{EqDecision T} (v : T) fb : EmptyOr None (Some v) fb = Some v.
Proof. unfold EmptyOr. by case_decide. Qed.
Lemma EmptyOr_None {T} `{EqDecision T} (fb : option T) : EmptyOr None None fb = fb.
Proof. unfold EmptyOr. by case_decide. Qed.
#[export] Hint Rewrite @EmptyOr_idem @EmptyOr_Some @EmptyOr_None : frp_rw.
#[export] Hint Resolve EmptyOr_nonzero : frp.

(** ** Common pieces *)
Definition AuthScope : Type := string.
Definition AuthScopeHeartBeats : AuthScope := "HeartBeats".
Definition AuthScopeNewWorkConns : AuthScope := "NewWorkConns".
Definition AuthMethod : Type := string.
Definition AuthMethodToken : AuthMethod := "token".

Record QUICOptions := mkQUICOptions {
  q_KeepalivePeriod : Z;
  q_MaxIdleTimeout : Z;
  q_MaxIncomingStreams : Z;
}.
Definition QUICOptions_Complete (c : QUICOptions) : QUICOptions :=
  mkQUICOptions (int_or (q_KeepalivePeriod c) 10) (int_or (q_MaxIdleTimeout c) 30)
    (int_or (q_MaxIncomingStreams c) 100000).

Record TLSConfig := mkTLSConfig {
  tls_CertFile : string;
  tls_KeyFile : string;
  tls_TrustedCaFile : string;
  tls_ServerName : string;
}.

Record NatTraversalConfig := mkNatTraversal { nt_DisableAssistedAddrs : bool }.
Definition NatTraversal_Clone (c : option NatTraversalConfig) : option NatTraversalConfig :=
  match c with None => None | Some out => Some out end.

Record LogConfig := mkLogConfig {
  log_To : string;
  log_Level : string;
  log_MaxDays : Z;
  log_DisablePrintColor : bool;
}.
Definition LogConfig_Complete (c : LogConfig) : LogConfig :=
  mkLogConfig (str_or (log_To c) "console") (str_or (log_Level c) "info")
    (int_or (log_MaxDays c) 3) (log_DisablePrintColor c).

(** ** Value sources *)
Record FileSource := mkFileSource { fs_Path : string }.
Record ExecEnvVar := mkExecEnvVar { ev_Name : string; ev_Value : string }.
Record ExecSource := mkExecSource {
  es_Command : string;
  es_Args : list string;
  es_Env : list ExecEnvVar;
}.
Record ValueSource := mkValueSource {
  vs_Type : string;
  vs_File : option FileSource;
  vs_Exec : option ExecSource;
}.

#[export] Instance FileSource_eq_dec : EqDecision FileSource.
Proof. solve_decision. Defined.
#[export] Instance ExecEnvVar_eq_dec : EqDecision ExecEnvVar.
Proof. solve_decision. Defined.
#[export] Instance ExecSource_eq_dec : EqDecision ExecSource.
Proof. solve_decision. Defined.
#[export] Instance ValueSource_eq_dec : EqDecision ValueSource.
Proof. solve_decision. Defined.

Definition FileSource_Validate (f : option FileSource) : result unit :=
  match f with
  | None => Err "fileSource cannot be nil"
  | Some f => if bool_decide (fs_Path f = "") then Err "file path cannot be empty" else Ok tt
  end.

(** The loop of [ExecSource.Validate] over the environment. *)
Fixpoint exec_env_validate (env : list ExecEnvVar) : result unit :=
  match env with
  | [] => Ok tt
  | e :: env =>
      if bool_decide (ev_Name e = "") then Err "exec env name cannot be empty"
      else if contains_byte (Ascii.ascii_of_nat 61) (ev_Name e) then
        Err "exec env name cannot contain '='"
      else exec_env_validate env
  end.
Definition ExecSource_Validate (e : option ExecSource) : result unit :=
  match e with
  | None => Err "execSource cannot be nil"
  | Some e =>
      if bool_decide (es_Command e = "") then Err "exec command cannot be empty"
      else exec_env_validate (es_Env e)
  end.

Definition ValueSource_Validate (v : option ValueSource) : result unit :=
  match v with
  | None => Err "valueSource cannot be nil"
  | Some v =>
      if bool_decide (vs_Type v = "file") then
        match vs_File v with
        | None => Err "file configuration is required when type is 'file'"
        | Some f => FileSource_Validate (Some f)
        end
      else if bool_decide (vs_Type v = "exec") then
        match vs_Exec v with
        | None => Err "exec configuration is required when type is 'exec'"
        | Some e => ExecSource_Validate (Some e)
        end
      else Err ("unsupported value source type: " +:+ vs_Type v
                +:+ " (only 'file' and 'exec' are supported)")
  end.

(** What a value source reads from the operating system: a file's contents and
    the output of a command run with extra environment bindings. *)
Class OS := {
  ReadFile : string → result string;
  CommandOutput : string → list string → list string → result string;
  Getenv : string → string;
  Environ : list string;
}.

Section value_source.
Context `{OS}.

Definition FileSource_Resolve (f : option FileSource) : result string :=
  FileSource_Validate f ≫= λ _,
  match f with
  | None => Err "fileSource cannot be nil"
  | Some f =>
      match ReadFile (fs_Path f) with
      | Err e => Err ("failed to read file " +:+ fs_Path f +:+ ": " +:+ e)
      | Ok content => Ok (TrimSpace content)
      end
  end.

Definition ExecSource_Resolve (e : option ExecSource) : result string :=
  ExecSource_Validate e ≫= λ _,
  match e with
  | None => Err "execSource cannot be nil"
  | Some e =>
      let env := match es_Env e with
                 | [] => []  (* cmd.Env nil: the child inherits the environment *)
                 | _ => Environ ++ ((λ v, ev_Name v +:+ "=" +:+ ev_Value v) <$> es_Env e)
                 end in
      match CommandOutput (es_Command e) (es_Args e) env with
      | Err er => Err ("failed to execute command " +:+ es_Command e +:+ ": " +:+ er)
      | Ok content => Ok (TrimSpace content)
      end
  end.

Definition ValueSource_Resolve (v : option ValueSource) : result string :=
  ValueSource_Validate v ≫= λ _,
  match v with
  | None => Err "valueSource cannot be nil"
  | Some v =>
      if bool_decide (vs_Type v = "file") then FileSource_Resolve (vs_File v)
      else if bool_decide (vs_Type v = "exec") then ExecSource_Resolve (vs_Exec v)
      else Err ("unsupported value source type: " +:+ vs_Type v)
  end.
End value_source.

(** ** Client configuration *)
Record AuthClientConfig := mkAuthClientConfig {
  ac_Method : AuthMethod;
  ac_AdditionalScopes : list AuthScope;
  ac_Token : string;
  ac_TokenSource : option ValueSource;
}.
Definition AuthClientConfig_Complete (c : AuthClientConfig) : result AuthClientConfig :=
  Ok (mkAuthClientConfig (str_or (ac_Method c) "token") (ac_AdditionalScopes c)
        (ac_Token c) (ac_TokenSource c)).

Record TLSClientConfig := mkTLSClientConfig {
  tc_Enable : option bool;
  tc_DisableCustomTLSFirstByte : option bool;
  tc_TLSConfig : TLSConfig;
}.
Definition TLSClientConfig_Complete (c : TLSClientConfig) : TLSClientConfig :=
  mkTLSClientConfig (ptr_or (tc_Enable c) (Some true))
    (ptr_or (tc_DisableCustomTLSFirstByte c) (Some true)) (tc_TLSConfig c).

Record ClientTransportConfig := mkClientTransportConfig {
  ct_Protocol : string;
  ct_WireProtocol : string;
  ct_DialServerTimeout : Z;
  ct_DialServerKeepAlive : Z;
  ct_ConnectServerLocalIP : string;
  ct_ProxyURL : string;
  ct_PoolCount : Z;
  ct_TCPMux : option bool;
  ct_TCPMuxKeepaliveInterval : Z;
  ct_QUIC : QUICOptions;
  ct_HeartbeatInterval : Z;
  ct_HeartbeatTimeout : Z;
  ct_TLS : TLSClientConfig;
}.

Record ClientCommonConfig := mkClientCommonConfig {
  cc_Version : string;
  cc_Auth : AuthClientConfig;
  cc_User : string;
  cc_ClientID : string;
  cc_ServerAddr : string;
  cc_ServerPort : Z;
  cc_NatHoleSTUNServer : string;
  cc_DNSServer : string;
  cc_LoginFailExit : option bool;
  cc_Start : list string;
  cc_Log : LogConfig;
  cc_Transport : ClientTransportConfig;
  cc_Metadatas : gmap string string;
  cc_IncludeConfigFiles : list string;
  cc_Store_Path : string;
}.

(** [StoreConfig.IsEnabled]. *)
Definition StoreConfig_IsEnabled (path : string) : bool := negb (bool_decide (path = "")).

Section client_complete.
Context `{OS}.
Definition ClientTransportConfig_Complete (c : ClientTransportConfig) : ClientTransportConfig :=
  let mux := ptr_or (ct_TCPMux c) (Some true) in
  let '(hi, ht) :=
    if from_ptr mux
    then (int_or (ct_HeartbeatInterval c) (-1), int_or (ct_HeartbeatTimeout c) (-1))
    else (int_or (ct_HeartbeatInterval c) 30, int_or (ct_HeartbeatTimeout c) 90) in
  mkClientTransportConfig (str_or (ct_Protocol c) "tcp") (str_or (ct_WireProtocol c) "v1")
    (int_or (ct_DialServerTimeout c) 10) (int_or (ct_DialServerKeepAlive c) 7200)
    (ct_ConnectServerLocalIP c) (str_or (ct_ProxyURL c) (Getenv "http_proxy"))
    (int_or (ct_PoolCount c) 1) mux (int_or (ct_TCPMuxKeepaliveInterval c) 30)
    (QUICOptions_Complete (ct_QUIC c)) hi ht (TLSClientConfig_Complete (ct_TLS c)).

Definition ClientCommonConfig_Complete (c : ClientCommonConfig) : result ClientCommonConfig :=
  AuthClientConfig_Complete (cc_Auth c) ≫= λ auth,
  Ok (mkClientCommonConfig (cc_Version c) auth (cc_User c) (cc_ClientID c)
        (str_or (cc_ServerAddr c) "0.0.0.0") (int_or (cc_ServerPort c) 7000)
        (str_or (cc_NatHoleSTUNServer c) "stun.easyvoip.com:3478") (cc_DNSServer c)
        (ptr_or (cc_LoginFailExit c) (Some true)) (cc_Start c) (LogConfig_Complete (cc_Log c))
        (ClientTransportConfig_Complete (cc_Transport c)) (cc_Metadatas c)
        (cc_IncludeConfigFiles c) (cc_Store_Path c)).
End client_complete.

(** ** Server configuration *)
Record AuthServerConfig := mkAuthServerConfig {
  as_Method : AuthMethod;
  as_AdditionalScopes : list AuthScope;
  as_Token : string;
  as_TokenSource : option ValueSource;
}.
Definition AuthServerConfig_Complete (c : AuthServerConfig) : result AuthServerConfig :=
  Ok (mkAuthServerConfig (str_or (as_Method c) "token") (as_AdditionalScopes c)
        (as_Token c) (as_TokenSource c)).

Record TLSServerConfig := mkTLSServerConfig { ts_Force : bool; ts_TLSConfig : TLSConfig }.

Record ServerTransportConfig := mkServerTransportConfig {
  st_TCPMux : option bool;
  st_TCPMuxKeepaliveInterval : Z;
  st_TCPKeepAlive : Z;
  st_MaxPoolCount : Z;
  st_HeartbeatTimeout : Z;
  st_QUIC : QUICOptions;
  st_TLS : TLSServerConfig;
}.
Definition ServerTransportConfig_Complete (c : ServerTransportConfig) : ServerTransportConfig :=
  let mux := ptr_or (st_TCPMux c) (Some true) in
  let ht := if from_ptr mux then int_or (st_HeartbeatTimeout c) (-1)
            else int_or (st_HeartbeatTimeout c) 90 in
  let tls := st_TLS c in
  mkServerTransportConfig mux (int_or (st_TCPMuxKeepaliveInterval c) 30)
    (int_or (st_TCPKeepAlive c) 7200) (int_or (st_MaxPoolCount c) 5) ht
    (QUICOptions_Complete (st_QUIC c))
    (if bool_decide (tls_TrustedCaFile (ts_TLSConfig tls) = "") then tls
     else mkTLSServerConfig true (ts_TLSConfig tls)).

Record ServerConfig := mkServerConfig {
  sc_Version : string;
  sc_Auth : AuthServerConfig;
  sc_BindAddr : string;
  sc_BindPort : Z;
  sc_Log : LogConfig;
  sc_Transport : ServerTransportConfig;
  sc_DetailedErrorsToClient : option bool;
  sc_UserConnTimeout : Z;
  sc_NatHoleAnalysisDataReserveHours : Z;
}.
Definition ServerConfig_Complete (c : ServerConfig) : result ServerConfig :=
  AuthServerConfig_Complete (sc_Auth c) ≫= λ auth,
  Ok (mkServerConfig (sc_Version c) auth (str_or (sc_BindAddr c) "0.0.0.0")
        (int_or (sc_BindPort c) 7000) (LogConfig_Complete (sc_Log c))
        (ServerTransportConfig_Complete (sc_Transport c))
        (ptr_or (sc_DetailedErrorsToClient c) (Some true)) (int_or (sc_UserConnTimeout c) 10)
        (int_or (sc_NatHoleAnalysisDataReserveHours c) (7 * 24))).

(** ** Proxies *)
Record ProxyTransport := mkProxyTransport { pt_UseEncryption : bool; pt_UseCompression : bool }.
Record ProxyBackend := mkProxyBackend { pb_LocalIP : string; pb_LocalPort : Z }.
Record ProxyBaseConfig := mkProxyBaseConfig {
  pc_Name : string;
  pc_Type : string;
  pc_Enabled : option bool;
  pc_Annotations : gmap string string;
  pc_Transport : ProxyTransport;
  pc_Metadatas : gmap string string;
  pc_Backend : ProxyBackend;
}.
Record XTCPProxyConfig := mkXTCPProxyConfig {
  xp_Base : ProxyBaseConfig;
  xp_Secretkey : string;
  xp_AllowUsers : list string;
  xp_NatTraversal : option NatTraversalConfig;
}.
(** The implementations of the interface [ProxyConfigurer]. *)
Inductive ProxyConfigurer : Type := PC_XTCP (c : XTCPProxyConfig).

#[export] Instance NatTraversal_eq_dec : EqDecision NatTraversalConfig.
Proof. solve_decision. Defined.
#[export] Instance ProxyTransport_eq_dec : EqDecision ProxyTransport.
Proof. solve_decision. Defined.
#[export] Instance ProxyBackend_eq_dec : EqDecision ProxyBackend.
Proof. solve_decision. Defined.
#[export] Instance ProxyBaseConfig_eq_dec : EqDecision ProxyBaseConfig.
Proof. solve_decision. Defined.
#[export] Instance XTCPProxyConfig_eq_dec : EqDecision XTCPProxyConfig.
Proof. solve_decision. Defined.
#[export] Instance ProxyConfigurer_eq_dec : EqDecision ProxyConfigurer.
Proof. solve_decision. Defined.

Definition ProxyBase_Complete (c : ProxyBaseConfig) : ProxyBaseConfig :=
  mkProxyBaseConfig (pc_Name c) (pc_Type c) (pc_Enabled c) (pc_Annotations c) (pc_Transport c)
    (pc_Metadatas c)
    (mkProxyBackend (str_or (pb_LocalIP (pc_Backend c)) "127.0.0.1") (pb_LocalPort (pc_Backend c))).

Definition ProxyBase_Clone (c : ProxyBaseConfig) : ProxyBaseConfig :=
  mkProxyBaseConfig (pc_Name c) (pc_Type c) (ClonePtr (pc_Enabled c)) (pc_Annotations c)
    (pc_Transport c) (pc_Metadatas c) (pc_Backend c).

Definition ProxyBase_MarshalToMsg (c : ProxyBaseConfig) (m : NewProxy) : NewProxy :=
  {| np_ProxyName := pc_Name c; np_ProxyType := pc_Type c;
     np_UseEncryption := pt_UseEncryption (pc_Transport c);
     np_UseCompression := pt_UseCompression (pc_Transport c);
     np_BandwidthLimit := np_BandwidthLimit m; np_BandwidthLimitMode := np_BandwidthLimitMode m;
     np_Group := np_Group m; np_GroupKey := np_GroupKey m;
     np_Metas := pc_Metadatas c; np_Annotations := pc_Annotations c;
     np_RemotePort := np_RemotePort m; np_CustomDomains := np_CustomDomains m;
     np_SubDomain := np_SubDomain m; np_Locations := np_Locations m;
     np_HTTPUser := np_HTTPUser m; np_HTTPPwd := np_HTTPPwd m;
     np_HostHeaderRewrite := np_HostHeaderRewrite m; np_Headers := np_Headers m;
     np_ResponseHeaders := np_ResponseHeaders m; np_RouteByHTTPUser := np_RouteByHTTPUser m;
     np_Sk := np_Sk m; np_AllowUsers := np_AllowUsers m; np_Multiplexer := np_Multiplexer m |}.

Definition ProxyBase_UnmarshalFromMsg (c : ProxyBaseConfig) (m : NewProxy) : ProxyBaseConfig :=
  mkProxyBaseConfig (np_ProxyName m) (np_ProxyType m) (pc_Enabled c) (np_Annotations m)
    (mkProxyTransport (np_UseEncryption m) (np_UseCompression m)) (np_Metas m) (pc_Backend c).

Definition XTCP_MarshalToMsg (c : XTCPProxyConfig) (m : NewProxy) : NewProxy :=
  let m := ProxyBase_MarshalToMsg (xp_Base c) m in
  {| np_ProxyName := np_ProxyName m; np_ProxyType := np_ProxyType m;
     np_UseEncryption := np_UseEncryption m; np_UseCompression := np_UseCompression m;
     np_BandwidthLimit := np_BandwidthLimit m; np_BandwidthLimitMode := np_BandwidthLimitMode m;
     np_Group := np_Group m; np_GroupKey := np_GroupKey m;
     np_Metas := np_Metas m; np_Annotations := np_Annotations m;
     np_RemotePort := np_RemotePort m; np_CustomDomains := np_CustomDomains m;
     np_SubDomain := np_SubDomain m; np_Locations := np_Locations m;
     np_HTTPUser := np_HTTPUser m; np_HTTPPwd := np_HTTPPwd m;
     np_HostHeaderRewrite := np_HostHeaderRewrite m; np_Headers := np_Headers m;
     np_ResponseHeaders := np_ResponseHeaders m; np_RouteByHTTPUser := np_RouteByHTTPUser m;
     np_Sk := xp_Secretkey c; np_AllowUsers := xp_AllowUsers c;
     np_Multiplexer := np_Multiplexer m |}.

Definition XTCP_UnmarshalFromMsg (c : XTCPProxyConfig) (m : NewProxy) : XTCPProxyConfig :=
  mkXTCPProxyConfig (ProxyBase_UnmarshalFromMsg (xp_Base c) m) (np_Sk m) (np_AllowUsers m)
    (xp_NatTraversal c).

Definition XTCP_Clone (c : XTCPProxyConfig) : XTCPProxyConfig :=
  mkXTCPProxyConfig (ProxyBase_Clone (xp_Base c)) (xp_Secretkey c) (xp_AllowUsers c)
    (NatTraversal_Clone (xp_NatTraversal c)).

(** The methods of [ProxyConfigurer]; [XTCPProxyConfig] inherits [Complete]. *)
Definition GetBaseConfig (c : ProxyConfigurer) : ProxyBaseConfig :=
  match c with PC_XTCP c => xp_Base c end.
Definition Proxy_Complete (c : ProxyConfigurer) : ProxyConfigurer :=
  match c with
  | PC_XTCP c => PC_XTCP (mkXTCPProxyConfig (ProxyBase_Complete (xp_Base c)) (xp_Secretkey c)
                            (xp_AllowUsers c) (xp_NatTraversal c))
  end.
Definition Proxy_Clone (c : ProxyConfigurer) : ProxyConfigurer :=
  match c with PC_XTCP c => PC_XTCP (XTCP_Clone c) end.
Definition MarshalToMsg (c : ProxyConfigurer) (m : NewProxy) : NewProxy :=
  match c with PC_XTCP c => XTCP_MarshalToMsg c m end.
Definition UnmarshalFromMsg (c : ProxyConfigurer) (m : NewProxy) : ProxyConfigurer :=
  match c with PC_XTCP c => PC_XTCP (XTCP_UnmarshalFromMsg c m) end.

Definition ProxyTypeXTCP : string := "xtcp".
Definition zero_ProxyBase : ProxyBaseConfig :=
  mkProxyBaseConfig "" "" None ∅ (mkProxyTransport false false) ∅ (mkProxyBackend "" 0).

(** [NewProxyConfigurerByType]: a zero configurer with its type set. *)
Definition NewProxyConfigurerByType (proxyType : string) : option ProxyConfigurer :=
  if bool_decide (proxyType = ProxyTypeXTCP) then
    Some (PC_XTCP (mkXTCPProxyConfig
      (mkProxyBaseConfig "" proxyType None ∅ (mkProxyTransport false false) ∅ (mkProxyBackend "" 0))
      "" [] None))
  else None.

Definition zero_NewProxy : NewProxy :=
  {| np_ProxyName := ""; np_ProxyType := ""; np_UseEncryption := false;
     np_UseCompression := false; np_BandwidthLimit := ""; np_BandwidthLimitMode := "";
     np_Group := ""; np_GroupKey := ""; np_Metas := ∅; np_Annotations := ∅;
     np_RemotePort := 0; np_CustomDomains := []; np_SubDomain := ""; np_Locations := [];
     np_HTTPUser := ""; np_HTTPPwd := ""; np_HostHeaderRewrite := ""; np_Headers := ∅;
     np_ResponseHeaders := ∅; np_RouteByHTTPUser := ""; np_Sk := ""; np_AllowUsers := [];
     np_Multiplexer := "" |}.

(** ** Visitors *)
Record VisitorTransport := mkVisitorTransport { vt_UseEncryption : bool; vt_UseCompression : bool }.
Record VisitorBaseConfig := mkVisitorBaseConfig {
  vb_Name : string;
  vb_Type : string;
  vb_Enabled : option bool;
  vb_Transport : VisitorTransport;
  vb_SecretKey : string;
  vb_ServerUser : string;
  vb_ServerName : string;
  vb_BindAddr : string;
  vb_BindPort : Z;
}.
Record XTCPVisitorConfig := mkXTCPVisitorConfig {
  xv_Base : VisitorBaseConfig;
  xv_Protocol : string;
  xv_KeepTunnelOpen : bool;
  xv_MaxRetriesAnHour : Z;
  xv_MinRetryInterval : Z;
  xv_FallbackTo : string;
  xv_FallbackTimeoutMs : Z;
  xv_NatTraversal : option NatTraversalConfig;
}.
Inductive VisitorConfigurer : Type := VC_XTCP (c : XTCPVisitorConfig).

#[export] Instance VisitorTransport_eq_dec : EqDecision VisitorTransport.
Proof. solve_decision. Defined.
#[export] Instance VisitorBaseConfig_eq_dec : EqDecision VisitorBaseConfig.
Proof. solve_decision. Defined.
#[export] Instance XTCPVisitorConfig_eq_dec : EqDecision XTCPVisitorConfig.
Proof. solve_decision. Defined.
#[export] Instance VisitorConfigurer_eq_dec : EqDecision VisitorConfigurer.
Proof. solve_decision. Defined.

Definition VisitorBase_Complete (c : VisitorBaseConfig) : VisitorBaseConfig :=
  mkVisitorBaseConfig (vb_Name c) (vb_Type c) (vb_Enabled c) (vb_Transport c) (vb_SecretKey c)
    (vb_ServerUser c) (vb_ServerName c)
    (if bool_decide (vb_BindAddr c = "") then "127.0.0.1" else vb_BindAddr c) (vb_BindPort c).
Definition VisitorBase_Clone (c : VisitorBaseConfig) : VisitorBaseConfig :=
  mkVisitorBaseConfig (vb_Name c) (vb_Type c) (ClonePtr (vb_Enabled c)) (vb_Transport c)
    (vb_SecretKey c) (vb_ServerUser c) (vb_ServerName c) (vb_BindAddr c) (vb_BindPort c).

Definition XTCPVisitor_Complete (c : XTCPVisitorConfig) : XTCPVisitorConfig :=
  mkXTCPVisitorConfig (VisitorBase_Complete (xv_Base c)) (str_or (xv_Protocol c) "quic")
    (xv_KeepTunnelOpen c) (int_or (xv_MaxRetriesAnHour c) 8) (int_or (xv_MinRetryInterval c) 90)
    (xv_FallbackTo c) (int_or (xv_FallbackTimeoutMs c) 1000) (xv_NatTraversal c).
Definition XTCPVisitor_Clone (c : XTCPVisitorConfig) : XTCPVisitorConfig :=
  mkXTCPVisitorConfig (VisitorBase_Clone (xv_Base c)) (xv_Protocol c) (xv_KeepTunnelOpen c)
    (xv_MaxRetriesAnHour c) (xv_MinRetryInterval c) (xv_FallbackTo c) (xv_FallbackTimeoutMs c)
    (NatTraversal_Clone (xv_NatTraversal c)).

Definition Visitor_GetBaseConfig (c : VisitorConfigurer) : VisitorBaseConfig :=
  match c with VC_XTCP c => xv_Base c end.
Definition Visitor_Complete (c : VisitorConfigurer) : VisitorConfigurer :=
  match c with VC_XTCP c => VC_XTCP (XTCPVisitor_Complete c) end.
Definition Visitor_Clone (c : VisitorConfigurer) : VisitorConfigurer :=
  match c with VC_XTCP c => VC_XTCP (XTCPVisitor_Clone c) end.

Definition VisitorTypeXTCP : string := "xtcp".
Definition NewVisitorConfigurerByType (t : string) : option VisitorConfigurer :=
  if bool_decide (t = VisitorTypeXTCP) then
    Some (VC_XTCP (mkXTCPVisitorConfig
      (mkVisitorBaseConfig "" t None (mkVisitorTransport false false) "" "" "" "" 0)
      "" false 0 0 "" 0 None))
  else None.

(** ** Theorems *)

(** Completing a configuration is idempotent: a client or server
    configuration to which [Complete] has been applied is not changed by a second
    application (which happens when a completed configuration is loaded again),
    and completion never fails.  The dependent defaults (the heartbeat values
    that depend on [tcpMux], [tls.force] on the CA file) are included. *)
Theorem complete_idempotent `{OS} (c : ClientCommonConfig) (s : ServerConfig) :
  (∃ c', ClientCommonConfig_Complete c = Ok c' ∧ ClientCommonConfig_Complete c' = Ok c')
  ∧ (∃ s', ServerConfig_Complete s = Ok s' ∧ ServerConfig_Complete s' = Ok s').
Proof.
  split; eexists; (split; [done|]).
  - destruct c as [? [] ? ? ? ? ? ? ? ? [] [? ? ? ? ? ? ? mux ? [] ? ? []] ? ? ?].
    unfold ClientCommonConfig_Complete, AuthClientConfig_Complete, ClientTransportConfig_Complete, LogConfig_Complete,
      TLSClientConfig_Complete, QUICOptions_Complete, str_or, int_or, ptr_or; simpl.
    rewrite !EmptyOr_idem. destruct mux as [[]|]; rewrite ?EmptyOr_Some, ?EmptyOr_None; simpl;
      by autorewrite with frp_rw.
  - destruct s as [? [] ? ? [] [mux ? ? ? ? [] [force tls]] ? ? ?].
    unfold ServerConfig_Complete, AuthServerConfig_Complete, ServerTransportConfig_Complete, LogConfig_Complete,
      QUICOptions_Complete, str_or, int_or, ptr_or; simpl.
    rewrite !EmptyOr_idem.
    destruct mux as [[]|]; rewrite ?EmptyOr_Some, ?EmptyOr_None; simpl; autorewrite with frp_rw;
      destruct (bool_decide (tls_TrustedCaFile tls = "")) eqn:Hca; simpl; by rewrite ?Hca.
Qed.

(** What a client registers is what the server sees: marshalling a proxy
    into a [NewProxy] message and unmarshalling it into a fresh configurer of the
    message's type preserves name, type, transport flags, metadata, annotations,
    secret key and allowed users; the fields that are local to the client (enabled
    flag, local address, NAT options) do not travel. *)
Theorem proxy_msg_roundtrip (c : ProxyConfigurer) :
  pc_Type (GetBaseConfig c) = ProxyTypeXTCP →
  let m := MarshalToMsg c zero_NewProxy in
  ∃ d, NewProxyConfigurerByType (np_ProxyType m) = Some d ∧
  match c, UnmarshalFromMsg d m with
  | PC_XTCP x, PC_XTCP y =>
      xp_Secretkey y = xp_Secretkey x ∧ xp_AllowUsers y = xp_AllowUsers x ∧
      xp_NatTraversal y = None ∧
      xp_Base y = mkProxyBaseConfig (pc_Name (xp_Base x)) (pc_Type (xp_Base x)) None
        (pc_Annotations (xp_Base x)) (pc_Transport (xp_Base x)) (pc_Metadatas (xp_Base x))
        (mkProxyBackend "" 0)
  end.
Proof.
  destruct c as [[[? t ? ? [] ? ?] ? ? ?]]; simpl. intros ->.
  eexists; split; [reflexivity|done].
Qed.

Lemma proxy_msg_roundtrip_witness :
  ∃ d, NewProxyConfigurerByType "xtcp" = Some d ∧
    match UnmarshalFromMsg d (MarshalToMsg (PC_XTCP (mkXTCPProxyConfig
      (mkProxyBaseConfig "p" "xtcp" (Some true) ∅ (mkProxyTransport true false) ∅
         (mkProxyBackend "127.0.0.1" 22)) "sk" ["*"] None)) zero_NewProxy) with
    | PC_XTCP y => xp_Secretkey y = "sk"
    end.
Proof.
  destruct (proxy_msg_roundtrip (PC_XTCP (mkXTCPProxyConfig
      (mkProxyBaseConfig "p" "xtcp" (Some true) ∅ (mkProxyTransport true false) ∅
         (mkProxyBackend "127.0.0.1" 22)) "sk" ["*"] None)) eq_refl) as (d & Hd & Hrest).
  exists d. split; [exact Hd|]. cbv zeta iota in Hrest.
  destruct (UnmarshalFromMsg d _) as [y]. exact (proj1 Hrest).
Defined.
