(* ===== verification/Decode.v ===== *)
(** * Decoding configurations: [pkg/config/v1/decode.go], [pkg/util/jsonx]

    The struct types of a configuration with the keys of their tags, as codecs of
    [JsonCodec]; the proxies and visitors, whose type is found in a first pass over the same
    text; the client's file, whose proxies and visitors are kept as raw values until then.
    A [RawMessage] is the text of one value and is kept as that value. *)
From S2P Require Import Prelude GoStd Json JsonCodec Msg ConfigV1.
From stdpp Require Import list.
Local Open Scope Z_scope.

(** ** Errors: a text, an error of the JSON package, [%v] (the text only) and [%w] (the error
    is still found by [errors.As]) *)
Inductive go_error : Type :=
| EText (e : string)
| EJson (e : json_error)
| EFmtV (prefix : string) (e : go_error)
| EFmtW (prefix : string) (e : go_error).
#[export] Instance go_error_eq_dec : EqDecision go_error.
Proof. solve_decision. Defined.
(** [errors.As(err, &typeErr)]. *)
Fixpoint as_type_error (e : go_error) : option (string * string * list string * string) :=
  match e with
  | EJson (JTypeError v s f t) => Some (v, s, f, t)
  | EFmtW _ e => as_type_error e
  | _ => None
  end.

(** ** [jsonx] *)
Record DecodeOptions := mkDecodeOptions { DisallowUnknownFields : bool }.
Definition strictly : DecodeOptions := mkDecodeOptions true.
Definition leniently : DecodeOptions := mkDecodeOptions false.
Definition jsonx_Unmarshal {T} (c : codec T) (b : list byte) (out : T) : T + json_error :=
  json_Unmarshal c b out.
Definition UnmarshalWithOptions {T} (c : codec T) (b : list byte) (out : T) (options : DecodeOptions)
    : T + json_error :=
  if DisallowUnknownFields options then json_DecodeStrict c b out else json_Unmarshal c b out.
Definition jsonx_Marshal {T} (c : codec T) (x : T) : list byte := json_Marshal c x.
(** [RawMessage]: [UnmarshalJSON] stores the value as it is, [null] included; the zero value
    prints as [null]. *)
Definition RawMessage : Type := json.
Definition c_raw : codec RawMessage := {|
  c_type := "jsonx.RawMessage"; c_zero := JNull; c_dec _ j _ := (j, []); c_enc j := j;
  c_empty j := match j with JNull => true | _ => false end;
  c_ok := readable; c_depth := maxNestingDepth |}.
#[export] Instance c_raw_lawful : Lawful c_raw.
Proof. split; [split; [done|by vm_compute]|done|by intros ? []|done|by intros ? []|by intros []]. Qed.

(** ** The structs of a configuration *)
Definition fields_NatTraversalConfig : list (field NatTraversalConfig) :=
  [mkField "disableAssistedAddrs" [] c_bool true nt_DisableAssistedAddrs (λ x _, mkNatTraversal x)].
Definition c_NatTraversalConfig : codec NatTraversalConfig :=
  c_struct "v1" "NatTraversalConfig" (mkNatTraversal false) fields_NatTraversalConfig.
#[export] Instance NatTraversalConfig_laws : StructLaws (mkNatTraversal false) fields_NatTraversalConfig.
Proof. struct_laws; [intros [] []; repeat split|repeat constructor; by intros []]. Qed.

Definition fields_ProxyTransport : list (field ProxyTransport) :=
  [mkField "useEncryption" [] c_bool true pt_UseEncryption (λ x r, mkProxyTransport x (pt_UseCompression r));
   mkField "useCompression" [] c_bool true pt_UseCompression (λ x r, mkProxyTransport (pt_UseEncryption r) x)].
Definition c_ProxyTransport : codec ProxyTransport :=
  c_struct "v1" "ProxyTransport" (mkProxyTransport false false) fields_ProxyTransport.
#[export] Instance ProxyTransport_laws : StructLaws (mkProxyTransport false false) fields_ProxyTransport.
Proof. struct_laws; [intros [] []; repeat split|repeat constructor; by intros []]. Qed.

Definition fields_ProxyBackend : list (field ProxyBackend) :=
  [mkField "localIP" [] (c_string "string") true pb_LocalIP (λ x r, mkProxyBackend x (pb_LocalPort r));
   mkField "localPort" [] (c_int "int") true pb_LocalPort (λ x r, mkProxyBackend (pb_LocalIP r) x)].
Definition set_pc_Backend (x : ProxyBackend) (r : ProxyBaseConfig) : ProxyBaseConfig :=
  mkProxyBaseConfig (pc_Name r) (pc_Type r) (pc_Enabled r) (pc_Annotations r) (pc_Transport r)
    (pc_Metadatas r) x.
Definition fields_ProxyBaseConfig : list (field ProxyBaseConfig) :=
  [mkField "name" [] (c_string "string") false pc_Name (λ x r,
     mkProxyBaseConfig x (pc_Type r) (pc_Enabled r) (pc_Annotations r) (pc_Transport r) (pc_Metadatas r) (pc_Backend r));
   mkField "type" [] (c_string "string") false pc_Type (λ x r,
     mkProxyBaseConfig (pc_Name r) x (pc_Enabled r) (pc_Annotations r) (pc_Transport r) (pc_Metadatas r) (pc_Backend r));
   mkField "enabled" [] (c_ptr c_bool) true pc_Enabled (λ x r,
     mkProxyBaseConfig (pc_Name r) (pc_Type r) x (pc_Annotations r) (pc_Transport r) (pc_Metadatas r) (pc_Backend r));
   mkField "annotations" [] c_strmap true pc_Annotations (λ x r,
     mkProxyBaseConfig (pc_Name r) (pc_Type r) (pc_Enabled r) x (pc_Transport r) (pc_Metadatas r) (pc_Backend r));
   mkField "transport" [] c_ProxyTransport true pc_Transport (λ x r,
     mkProxyBaseConfig (pc_Name r) (pc_Type r) (pc_Enabled r) (pc_Annotations r) x (pc_Metadatas r) (pc_Backend r));
   mkField "metadatas" [] c_strmap true pc_Metadatas (λ x r,
     mkProxyBaseConfig (pc_Name r) (pc_Type r) (pc_Enabled r) (pc_Annotations r) (pc_Transport r) x (pc_Backend r))]
  ++ embed "ProxyBackend" pc_Backend set_pc_Backend fields_ProxyBackend.

Definition set_xp_Base (x : ProxyBaseConfig) (r : XTCPProxyConfig) : XTCPProxyConfig :=
  mkXTCPProxyConfig x (xp_Secretkey r) (xp_AllowUsers r) (xp_NatTraversal r).
Definition fields_XTCPProxyConfig : list (field XTCPProxyConfig) :=
  embed "ProxyBaseConfig" xp_Base set_xp_Base fields_ProxyBaseConfig ++
  [mkField "secretKey" [] (c_string "string") true xp_Secretkey (λ x r,
     mkXTCPProxyConfig (xp_Base r) x (xp_AllowUsers r) (xp_NatTraversal r));
   mkField "allowUsers" [] (c_slice "[]string" (c_string "string")) true xp_AllowUsers (λ x r,
     mkXTCPProxyConfig (xp_Base r) (xp_Secretkey r) x (xp_NatTraversal r));
   mkField "natTraversal" [] (c_ptr c_NatTraversalConfig) true xp_NatTraversal (λ x r,
     mkXTCPProxyConfig (xp_Base r) (xp_Secretkey r) (xp_AllowUsers r) x)].
Definition zero_XTCPProxyConfig : XTCPProxyConfig := mkXTCPProxyConfig zero_ProxyBase "" [] None.
Definition c_XTCPProxyConfig : codec XTCPProxyConfig :=
  c_struct "v1" "XTCPProxyConfig" zero_XTCPProxyConfig fields_XTCPProxyConfig.
#[export] Instance XTCPProxyConfig_laws : StructLaws zero_XTCPProxyConfig fields_XTCPProxyConfig.
Proof.
  struct_laws.
  - intros [[? ? ? ? ? ? []]] [[? ? ? ? ? ? []]]. repeat split.
  - repeat constructor; by intros [[? ? ? ? ? ? []]].
Qed.

Definition fields_VisitorTransport : list (field VisitorTransport) :=
  [mkField "useEncryption" [] c_bool true vt_UseEncryption (λ x r,
     mkVisitorTransport x (vt_UseCompression r));
   mkField "useCompression" [] c_bool true vt_UseCompression (λ x r,
     mkVisitorTransport (vt_UseEncryption r) x)].
Definition zero_VisitorTransport : VisitorTransport := mkVisitorTransport false false.
Definition c_VisitorTransport : codec VisitorTransport :=
  c_struct "v1" "VisitorTransport" zero_VisitorTransport fields_VisitorTransport.
#[export] Instance VisitorTransport_laws : StructLaws zero_VisitorTransport fields_VisitorTransport.
Proof.
  struct_laws.
  - intros [] []. repeat split.
  - repeat constructor; by intros [].
Qed.

Definition fields_VisitorBaseConfig : list (field VisitorBaseConfig) :=
  [mkField "name" [] (c_string "string") false vb_Name (λ x r,
     mkVisitorBaseConfig x (vb_Type r) (vb_Enabled r) (vb_Transport r) (vb_SecretKey r) (vb_ServerUser r)
       (vb_ServerName r) (vb_BindAddr r) (vb_BindPort r));
   mkField "type" [] (c_string "string") false vb_Type (λ x r,
     mkVisitorBaseConfig (vb_Name r) x (vb_Enabled r) (vb_Transport r) (vb_SecretKey r) (vb_ServerUser r)
       (vb_ServerName r) (vb_BindAddr r) (vb_BindPort r));
   mkField "enabled" [] (c_ptr c_bool) true vb_Enabled (λ x r,
     mkVisitorBaseConfig (vb_Name r) (vb_Type r) x (vb_Transport r) (vb_SecretKey r) (vb_ServerUser r)
       (vb_ServerName r) (vb_BindAddr r) (vb_BindPort r));
   mkField "transport" [] c_VisitorTransport true vb_Transport (λ x r,
     mkVisitorBaseConfig (vb_Name r) (vb_Type r) (vb_Enabled r) x (vb_SecretKey r) (vb_ServerUser r)
       (vb_ServerName r) (vb_BindAddr r) (vb_BindPort r));
   mkField "secretKey" [] (c_string "string") true vb_SecretKey (λ x r,
     mkVisitorBaseConfig (vb_Name r) (vb_Type r) (vb_Enabled r) (vb_Transport r) x (vb_ServerUser r)
       (vb_ServerName r) (vb_BindAddr r) (vb_BindPort r));
   mkField "serverUser" [] (c_string "string") true vb_ServerUser (λ x r,
     mkVisitorBaseConfig (vb_Name r) (vb_Type r) (vb_Enabled r) (vb_Transport r) (vb_SecretKey r) x
       (vb_ServerName r) (vb_BindAddr r) (vb_BindPort r));
   mkField "serverName" [] (c_string "string") true vb_ServerName (λ x r,
     mkVisitorBaseConfig (vb_Name r) (vb_Type r) (vb_Enabled r) (vb_Transport r) (vb_SecretKey r)
       (vb_ServerUser r) x (vb_BindAddr r) (vb_BindPort r));
   mkField "bindAddr" [] (c_string "string") true vb_BindAddr (λ x r,
     mkVisitorBaseConfig (vb_Name r) (vb_Type r) (vb_Enabled r) (vb_Transport r) (vb_SecretKey r)
       (vb_ServerUser r) (vb_ServerName r) x (vb_BindPort r));
   mkField "bindPort" [] (c_int "int") true vb_BindPort (λ x r,
     mkVisitorBaseConfig (vb_Name r) (vb_Type r) (vb_Enabled r) (vb_Transport r) (vb_SecretKey r)
       (vb_ServerUser r) (vb_ServerName r) (vb_BindAddr r) x)].
Definition zero_VisitorBaseConfig : VisitorBaseConfig := mkVisitorBaseConfig "" "" None (mkVisitorTransport
  false false) "" "" "" "" 0.

Definition set_xv_Base (x : VisitorBaseConfig) (r : XTCPVisitorConfig) : XTCPVisitorConfig :=
  mkXTCPVisitorConfig x (xv_Protocol r) (xv_KeepTunnelOpen r) (xv_MaxRetriesAnHour r) (xv_MinRetryInterval
    r) (xv_FallbackTo r) (xv_FallbackTimeoutMs r) (xv_NatTraversal r).
Definition fields_XTCPVisitorConfig : list (field XTCPVisitorConfig) :=
  embed "VisitorBaseConfig" xv_Base set_xv_Base fields_VisitorBaseConfig ++
  [mkField "protocol" [] (c_string "string") true xv_Protocol (λ x r,
     mkXTCPVisitorConfig (xv_Base r) x (xv_KeepTunnelOpen r) (xv_MaxRetriesAnHour r) (xv_MinRetryInterval r)
       (xv_FallbackTo r) (xv_FallbackTimeoutMs r) (xv_NatTraversal r));
   mkField "keepTunnelOpen" [] c_bool true xv_KeepTunnelOpen (λ x r,
     mkXTCPVisitorConfig (xv_Base r) (xv_Protocol r) x (xv_MaxRetriesAnHour r) (xv_MinRetryInterval r)
       (xv_FallbackTo r) (xv_FallbackTimeoutMs r) (xv_NatTraversal r));
   mkField "maxRetriesAnHour" [] (c_int "int") true xv_MaxRetriesAnHour (λ x r,
     mkXTCPVisitorConfig (xv_Base r) (xv_Protocol r) (xv_KeepTunnelOpen r) x (xv_MinRetryInterval r)
       (xv_FallbackTo r) (xv_FallbackTimeoutMs r) (xv_NatTraversal r));
   mkField "minRetryInterval" [] (c_int "int") true xv_MinRetryInterval (λ x r,
     mkXTCPVisitorConfig (xv_Base r) (xv_Protocol r) (xv_KeepTunnelOpen r) (xv_MaxRetriesAnHour r) x
       (xv_FallbackTo r) (xv_FallbackTimeoutMs r) (xv_NatTraversal r));
   mkField "fallbackTo" [] (c_string "string") true xv_FallbackTo (λ x r,
     mkXTCPVisitorConfig (xv_Base r) (xv_Protocol r) (xv_KeepTunnelOpen r) (xv_MaxRetriesAnHour r)
       (xv_MinRetryInterval r) x (xv_FallbackTimeoutMs r) (xv_NatTraversal r));
   mkField "fallbackTimeoutMs" [] (c_int "int") true xv_FallbackTimeoutMs (λ x r,
     mkXTCPVisitorConfig (xv_Base r) (xv_Protocol r) (xv_KeepTunnelOpen r) (xv_MaxRetriesAnHour r)
       (xv_MinRetryInterval r) (xv_FallbackTo r) x (xv_NatTraversal r));
   mkField "natTraversal" [] (c_ptr c_NatTraversalConfig) true xv_NatTraversal (λ x r,
     mkXTCPVisitorConfig (xv_Base r) (xv_Protocol r) (xv_KeepTunnelOpen r) (xv_MaxRetriesAnHour r)
       (xv_MinRetryInterval r) (xv_FallbackTo r) (xv_FallbackTimeoutMs r) x)].
Definition zero_XTCPVisitorConfig : XTCPVisitorConfig := mkXTCPVisitorConfig zero_VisitorBaseConfig "" false
  0 0 "" 0 None.
Definition c_XTCPVisitorConfig : codec XTCPVisitorConfig :=
  c_struct "v1" "XTCPVisitorConfig" zero_XTCPVisitorConfig fields_XTCPVisitorConfig.
#[export] Instance XTCPVisitorConfig_laws : StructLaws zero_XTCPVisitorConfig fields_XTCPVisitorConfig.
Proof.
  struct_laws.
  - intros [[]] [[]]. repeat split.
  - repeat constructor; by intros [[]].
Qed.

(** *** The common part of a client's file and the server's file *)
Definition fields_FileSource : list (field FileSource) :=
  [mkField "path" [] (c_string "string") false fs_Path (λ x _, mkFileSource x)].
Definition zero_FileSource : FileSource := mkFileSource "".
Definition c_FileSource : codec FileSource :=
  c_struct "v1" "FileSource" zero_FileSource fields_FileSource.
#[export] Instance FileSource_laws : StructLaws zero_FileSource fields_FileSource.
Proof.
  struct_laws.
  - intros [] []. repeat split.
  - repeat constructor; by intros [].
Qed.

Definition fields_ExecEnvVar : list (field ExecEnvVar) :=
  [mkField "name" [] (c_string "string") false ev_Name (λ x r,
     mkExecEnvVar x (ev_Value r));
   mkField "value" [] (c_string "string") false ev_Value (λ x r,
     mkExecEnvVar (ev_Name r) x)].
Definition zero_ExecEnvVar : ExecEnvVar := mkExecEnvVar "" "".
Definition c_ExecEnvVar : codec ExecEnvVar :=
  c_struct "v1" "ExecEnvVar" zero_ExecEnvVar fields_ExecEnvVar.
#[export] Instance ExecEnvVar_laws : StructLaws zero_ExecEnvVar fields_ExecEnvVar.
Proof.
  struct_laws.
  - intros [] []. repeat split.
  - repeat constructor; by intros [].
Qed.

Definition fields_ExecSource : list (field ExecSource) :=
  [mkField "command" [] (c_string "string") false es_Command (λ x r,
     mkExecSource x (es_Args r) (es_Env r));
   mkField "args" [] (c_slice "[]string" (c_string "string")) true es_Args (λ x r,
     mkExecSource (es_Command r) x (es_Env r));
   mkField "env" [] (c_slice "[]v1.ExecEnvVar" c_ExecEnvVar) true es_Env (λ x r,
     mkExecSource (es_Command r) (es_Args r) x)].
Definition zero_ExecSource : ExecSource := mkExecSource "" [] [].
Definition c_ExecSource : codec ExecSource :=
  c_struct "v1" "ExecSource" zero_ExecSource fields_ExecSource.
#[export] Instance ExecSource_laws : StructLaws zero_ExecSource fields_ExecSource.
Proof.
  struct_laws.
  - intros [] []. repeat split.
  - repeat constructor; by intros [].
Qed.

Definition fields_ValueSource : list (field ValueSource) :=
  [mkField "type" [] (c_string "string") false vs_Type (λ x r,
     mkValueSource x (vs_File r) (vs_Exec r));
   mkField "file" [] (c_ptr c_FileSource) true vs_File (λ x r,
     mkValueSource (vs_Type r) x (vs_Exec r));
   mkField "exec" [] (c_ptr c_ExecSource) true vs_Exec (λ x r,
     mkValueSource (vs_Type r) (vs_File r) x)].
Definition zero_ValueSource : ValueSource := mkValueSource "" None None.
Definition c_ValueSource : codec ValueSource :=
  c_struct "v1" "ValueSource" zero_ValueSource fields_ValueSource.
#[export] Instance ValueSource_laws : StructLaws zero_ValueSource fields_ValueSource.
Proof.
  struct_laws.
  - intros [] []. repeat split.
  - repeat constructor; by intros [].
Qed.

Definition fields_AuthClientConfig : list (field AuthClientConfig) :=
  [mkField "method" [] (c_string "v1.AuthMethod") true ac_Method (λ x r,
     mkAuthClientConfig x (ac_AdditionalScopes r) (ac_Token r) (ac_TokenSource r));
   mkField "additionalScopes" [] (c_slice "[]v1.AuthScope" (c_string "v1.AuthScope")) true
     ac_AdditionalScopes (λ x r,
     mkAuthClientConfig (ac_Method r) x (ac_Token r) (ac_TokenSource r));
   mkField "token" [] (c_string "string") true ac_Token (λ x r,
     mkAuthClientConfig (ac_Method r) (ac_AdditionalScopes r) x (ac_TokenSource r));
   mkField "tokenSource" [] (c_ptr c_ValueSource) true ac_TokenSource (λ x r,
     mkAuthClientConfig (ac_Method r) (ac_AdditionalScopes r) (ac_Token r) x)].
Definition zero_AuthClientConfig : AuthClientConfig := mkAuthClientConfig "" [] "" None.
Definition c_AuthClientConfig : codec AuthClientConfig :=
  c_struct "v1" "AuthClientConfig" zero_AuthClientConfig fields_AuthClientConfig.
#[export] Instance AuthClientConfig_laws : StructLaws zero_AuthClientConfig fields_AuthClientConfig.
Proof.
  struct_laws.
  - intros [] []. repeat split.
  - repeat constructor; by intros [].
Qed.

Definition fields_AuthServerConfig : list (field AuthServerConfig) :=
  [mkField "method" [] (c_string "v1.AuthMethod") true as_Method (λ x r,
     mkAuthServerConfig x (as_AdditionalScopes r) (as_Token r) (as_TokenSource r));
   mkField "additionalScopes" [] (c_slice "[]v1.AuthScope" (c_string "v1.AuthScope")) true
     as_AdditionalScopes (λ x r,
     mkAuthServerConfig (as_Method r) x (as_Token r) (as_TokenSource r));
   mkField "token" [] (c_string "string") true as_Token (λ x r,
     mkAuthServerConfig (as_Method r) (as_AdditionalScopes r) x (as_TokenSource r));
   mkField "tokenSource" [] (c_ptr c_ValueSource) true as_TokenSource (λ x r,
     mkAuthServerConfig (as_Method r) (as_AdditionalScopes r) (as_Token r) x)].
Definition zero_AuthServerConfig : AuthServerConfig := mkAuthServerConfig "" [] "" None.
Definition c_AuthServerConfig : codec AuthServerConfig :=
  c_struct "v1" "AuthServerConfig" zero_AuthServerConfig fields_AuthServerConfig.
#[export] Instance AuthServerConfig_laws : StructLaws zero_AuthServerConfig fields_AuthServerConfig.
Proof.
  struct_laws.
  - intros [] []. repeat split.
  - repeat constructor; by intros [].
Qed.

Definition fields_LogConfig : list (field LogConfig) :=
  [mkField "to" [] (c_string "string") true log_To (λ x r,
     mkLogConfig x (log_Level r) (log_MaxDays r) (log_DisablePrintColor r));
   mkField "level" [] (c_string "string") true log_Level (λ x r,
     mkLogConfig (log_To r) x (log_MaxDays r) (log_DisablePrintColor r));
   mkField "maxDays" [] (c_int "int64") false log_MaxDays (λ x r,
     mkLogConfig (log_To r) (log_Level r) x (log_DisablePrintColor r));
   mkField "disablePrintColor" [] c_bool true log_DisablePrintColor (λ x r,
     mkLogConfig (log_To r) (log_Level r) (log_MaxDays r) x)].
Definition zero_LogConfig : LogConfig := mkLogConfig "" "" 0 false.
Definition c_LogConfig : codec LogConfig :=
  c_struct "v1" "LogConfig" zero_LogConfig fields_LogConfig.
#[export] Instance LogConfig_laws : StructLaws zero_LogConfig fields_LogConfig.
Proof.
  struct_laws.
  - intros [] []. repeat split.
  - repeat constructor; by intros [].
Qed.

Definition fields_QUICOptions : list (field QUICOptions) :=
  [mkField "keepalivePeriod" [] (c_int "int") true q_KeepalivePeriod (λ x r,
     mkQUICOptions x (q_MaxIdleTimeout r) (q_MaxIncomingStreams r));
   mkField "maxIdleTimeout" [] (c_int "int") true q_MaxIdleTimeout (λ x r,
     mkQUICOptions (q_KeepalivePeriod r) x (q_MaxIncomingStreams r));
   mkField "maxIncomingStreams" [] (c_int "int") true q_MaxIncomingStreams (λ x r,
     mkQUICOptions (q_KeepalivePeriod r) (q_MaxIdleTimeout r) x)].
Definition zero_QUICOptions : QUICOptions := mkQUICOptions 0 0 0.
Definition c_QUICOptions : codec QUICOptions :=
  c_struct "v1" "QUICOptions" zero_QUICOptions fields_QUICOptions.
#[export] Instance QUICOptions_laws : StructLaws zero_QUICOptions fields_QUICOptions.
Proof.
  struct_laws.
  - intros [] []. repeat split.
  - repeat constructor; by intros [].
Qed.

Definition fields_TLSConfig : list (field TLSConfig) :=
  [mkField "certFile" [] (c_string "string") true tls_CertFile (λ x r,
     mkTLSConfig x (tls_KeyFile r) (tls_TrustedCaFile r) (tls_ServerName r));
   mkField "keyFile" [] (c_string "string") true tls_KeyFile (λ x r,
     mkTLSConfig (tls_CertFile r) x (tls_TrustedCaFile r) (tls_ServerName r));
   mkField "trustedCaFile" [] (c_string "string") true tls_TrustedCaFile (λ x r,
     mkTLSConfig (tls_CertFile r) (tls_KeyFile r) x (tls_ServerName r));
   mkField "serverName" [] (c_string "string") true tls_ServerName (λ x r,
     mkTLSConfig (tls_CertFile r) (tls_KeyFile r) (tls_TrustedCaFile r) x)].
Definition zero_TLSConfig : TLSConfig := mkTLSConfig "" "" "" "".

Definition set_tc_TLSConfig (x : TLSConfig) (r : TLSClientConfig) : TLSClientConfig :=
  mkTLSClientConfig (tc_Enable r) (tc_DisableCustomTLSFirstByte r) x.
Definition fields_TLSClientConfig : list (field TLSClientConfig) :=
  [mkField "enable" [] (c_ptr c_bool) true tc_Enable (λ x r,
     mkTLSClientConfig x (tc_DisableCustomTLSFirstByte r) (tc_TLSConfig r));
   mkField "disableCustomTLSFirstByte" [] (c_ptr c_bool) true tc_DisableCustomTLSFirstByte (λ x r,
     mkTLSClientConfig (tc_Enable r) x (tc_TLSConfig r))] ++
  embed "TLSConfig" tc_TLSConfig set_tc_TLSConfig fields_TLSConfig.
Definition zero_TLSClientConfig : TLSClientConfig := mkTLSClientConfig None None zero_TLSConfig.
Definition c_TLSClientConfig : codec TLSClientConfig :=
  c_struct "v1" "TLSClientConfig" zero_TLSClientConfig fields_TLSClientConfig.
#[export] Instance TLSClientConfig_laws : StructLaws zero_TLSClientConfig fields_TLSClientConfig.
Proof.
  struct_laws.
  - intros [? ? []] [? ? []]. repeat split.
  - repeat constructor; by intros [? ? []].
Qed.

Definition set_ts_TLSConfig (x : TLSConfig) (r : TLSServerConfig) : TLSServerConfig :=
  mkTLSServerConfig (ts_Force r) x.
Definition fields_TLSServerConfig : list (field TLSServerConfig) :=
  [mkField "force" [] c_bool true ts_Force (λ x r,
     mkTLSServerConfig x (ts_TLSConfig r))] ++
  embed "TLSConfig" ts_TLSConfig set_ts_TLSConfig fields_TLSConfig.
Definition zero_TLSServerConfig : TLSServerConfig := mkTLSServerConfig false zero_TLSConfig.
Definition c_TLSServerConfig : codec TLSServerConfig :=
  c_struct "v1" "TLSServerConfig" zero_TLSServerConfig fields_TLSServerConfig.
#[export] Instance TLSServerConfig_laws : StructLaws zero_TLSServerConfig fields_TLSServerConfig.
Proof.
  struct_laws.
  - intros [? []] [? []]. repeat split.
  - repeat constructor; by intros [? []].
Qed.

Definition fields_ClientTransportConfig : list (field ClientTransportConfig) :=
  [mkField "protocol" [] (c_string "string") true ct_Protocol (λ x r,
     mkClientTransportConfig x (ct_WireProtocol r) (ct_DialServerTimeout r) (ct_DialServerKeepAlive r)
       (ct_ConnectServerLocalIP r) (ct_ProxyURL r) (ct_PoolCount r) (ct_TCPMux r)
       (ct_TCPMuxKeepaliveInterval r) (ct_QUIC r) (ct_HeartbeatInterval r) (ct_HeartbeatTimeout r) (ct_TLS
       r));
   mkField "wireProtocol" [] (c_string "string") true ct_WireProtocol (λ x r,
     mkClientTransportConfig (ct_Protocol r) x (ct_DialServerTimeout r) (ct_DialServerKeepAlive r)
       (ct_ConnectServerLocalIP r) (ct_ProxyURL r) (ct_PoolCount r) (ct_TCPMux r)
       (ct_TCPMuxKeepaliveInterval r) (ct_QUIC r) (ct_HeartbeatInterval r) (ct_HeartbeatTimeout r) (ct_TLS
       r));
   mkField "dialServerTimeout" [] (c_int "int64") true ct_DialServerTimeout (λ x r,
     mkClientTransportConfig (ct_Protocol r) (ct_WireProtocol r) x (ct_DialServerKeepAlive r)
       (ct_ConnectServerLocalIP r) (ct_ProxyURL r) (ct_PoolCount r) (ct_TCPMux r)
       (ct_TCPMuxKeepaliveInterval r) (ct_QUIC r) (ct_HeartbeatInterval r) (ct_HeartbeatTimeout r) (ct_TLS
       r));
   mkField "dialServerKeepalive" [] (c_int "int64") true ct_DialServerKeepAlive (λ x r,
     mkClientTransportConfig (ct_Protocol r) (ct_WireProtocol r) (ct_DialServerTimeout r) x
       (ct_ConnectServerLocalIP r) (ct_ProxyURL r) (ct_PoolCount r) (ct_TCPMux r)
       (ct_TCPMuxKeepaliveInterval r) (ct_QUIC r) (ct_HeartbeatInterval r) (ct_HeartbeatTimeout r) (ct_TLS
       r));
   mkField "connectServerLocalIP" [] (c_string "string") true ct_ConnectServerLocalIP (λ x r,
     mkClientTransportConfig (ct_Protocol r) (ct_WireProtocol r) (ct_DialServerTimeout r)
       (ct_DialServerKeepAlive r) x (ct_ProxyURL r) (ct_PoolCount r) (ct_TCPMux r)
       (ct_TCPMuxKeepaliveInterval r) (ct_QUIC r) (ct_HeartbeatInterval r) (ct_HeartbeatTimeout r) (ct_TLS
       r));
   mkField "proxyURL" [] (c_string "string") true ct_ProxyURL (λ x r,
     mkClientTransportConfig (ct_Protocol r) (ct_WireProtocol r) (ct_DialServerTimeout r)
       (ct_DialServerKeepAlive r) (ct_ConnectServerLocalIP r) x (ct_PoolCount r) (ct_TCPMux r)
       (ct_TCPMuxKeepaliveInterval r) (ct_QUIC r) (ct_HeartbeatInterval r) (ct_HeartbeatTimeout r) (ct_TLS
       r));
   mkField "poolCount" [] (c_int "int") true ct_PoolCount (λ x r,
     mkClientTransportConfig (ct_Protocol r) (ct_WireProtocol r) (ct_DialServerTimeout r)
       (ct_DialServerKeepAlive r) (ct_ConnectServerLocalIP r) (ct_ProxyURL r) x (ct_TCPMux r)
       (ct_TCPMuxKeepaliveInterval r) (ct_QUIC r) (ct_HeartbeatInterval r) (ct_HeartbeatTimeout r) (ct_TLS
       r));
   mkField "tcpMux" [] (c_ptr c_bool) true ct_TCPMux (λ x r,
     mkClientTransportConfig (ct_Protocol r) (ct_WireProtocol r) (ct_DialServerTimeout r)
       (ct_DialServerKeepAlive r) (ct_ConnectServerLocalIP r) (ct_ProxyURL r) (ct_PoolCount r) x
       (ct_TCPMuxKeepaliveInterval r) (ct_QUIC r) (ct_HeartbeatInterval r) (ct_HeartbeatTimeout r) (ct_TLS
       r));
   mkField "tcpMuxKeepaliveInterval" [] (c_int "int64") true ct_TCPMuxKeepaliveInterval (λ x r,
     mkClientTransportConfig (ct_Protocol r) (ct_WireProtocol r) (ct_DialServerTimeout r)
       (ct_DialServerKeepAlive r) (ct_ConnectServerLocalIP r) (ct_ProxyURL r) (ct_PoolCount r) (ct_TCPMux r)
       x (ct_QUIC r) (ct_HeartbeatInterval r) (ct_HeartbeatTimeout r) (ct_TLS r));
   mkField "quic" [] c_QUICOptions true ct_QUIC (λ x r,
     mkClientTransportConfig (ct_Protocol r) (ct_WireProtocol r) (ct_DialServerTimeout r)
       (ct_DialServerKeepAlive r) (ct_ConnectServerLocalIP r) (ct_ProxyURL r) (ct_PoolCount r) (ct_TCPMux r)
       (ct_TCPMuxKeepaliveInterval r) x (ct_HeartbeatInterval r) (ct_HeartbeatTimeout r) (ct_TLS r));
   mkField "heartbeatInterval" [] (c_int "int64") true ct_HeartbeatInterval (λ x r,
     mkClientTransportConfig (ct_Protocol r) (ct_WireProtocol r) (ct_DialServerTimeout r)
       (ct_DialServerKeepAlive r) (ct_ConnectServerLocalIP r) (ct_ProxyURL r) (ct_PoolCount r) (ct_TCPMux r)
       (ct_TCPMuxKeepaliveInterval r) (ct_QUIC r) x (ct_HeartbeatTimeout r) (ct_TLS r));
   mkField "heartbeatTimeout" [] (c_int "int64") true ct_HeartbeatTimeout (λ x r,
     mkClientTransportConfig (ct_Protocol r) (ct_WireProtocol r) (ct_DialServerTimeout r)
       (ct_DialServerKeepAlive r) (ct_ConnectServerLocalIP r) (ct_ProxyURL r) (ct_PoolCount r) (ct_TCPMux r)
       (ct_TCPMuxKeepaliveInterval r) (ct_QUIC r) (ct_HeartbeatInterval r) x (ct_TLS r));
   mkField "tls" [] c_TLSClientConfig true ct_TLS (λ x r,
     mkClientTransportConfig (ct_Protocol r) (ct_WireProtocol r) (ct_DialServerTimeout r)
       (ct_DialServerKeepAlive r) (ct_ConnectServerLocalIP r) (ct_ProxyURL r) (ct_PoolCount r) (ct_TCPMux r)
       (ct_TCPMuxKeepaliveInterval r) (ct_QUIC r) (ct_HeartbeatInterval r) (ct_HeartbeatTimeout r) x)].
Definition zero_ClientTransportConfig : ClientTransportConfig := mkClientTransportConfig "" "" 0 0 "" "" 0
  None 0 zero_QUICOptions 0 0 zero_TLSClientConfig.
Definition c_ClientTransportConfig : codec ClientTransportConfig :=
  c_struct "v1" "ClientTransportConfig" zero_ClientTransportConfig fields_ClientTransportConfig.
#[export] Instance ClientTransportConfig_laws : StructLaws zero_ClientTransportConfig
  fields_ClientTransportConfig.
Proof.
  struct_laws.
  - intros [] []. repeat split.
  - repeat constructor; by intros [].
Qed.

Definition fields_ServerTransportConfig : list (field ServerTransportConfig) :=
  [mkField "tcpMux" [] (c_ptr c_bool) true st_TCPMux (λ x r,
     mkServerTransportConfig x (st_TCPMuxKeepaliveInterval r) (st_TCPKeepAlive r) (st_MaxPoolCount r)
       (st_HeartbeatTimeout r) (st_QUIC r) (st_TLS r));
   mkField "tcpMuxKeepaliveInterval" [] (c_int "int64") true st_TCPMuxKeepaliveInterval (λ x r,
     mkServerTransportConfig (st_TCPMux r) x (st_TCPKeepAlive r) (st_MaxPoolCount r) (st_HeartbeatTimeout r)
       (st_QUIC r) (st_TLS r));
   mkField "tcpKeepalive" [] (c_int "int64") true st_TCPKeepAlive (λ x r,
     mkServerTransportConfig (st_TCPMux r) (st_TCPMuxKeepaliveInterval r) x (st_MaxPoolCount r)
       (st_HeartbeatTimeout r) (st_QUIC r) (st_TLS r));
   mkField "maxPoolCount" [] (c_int "int64") true st_MaxPoolCount (λ x r,
     mkServerTransportConfig (st_TCPMux r) (st_TCPMuxKeepaliveInterval r) (st_TCPKeepAlive r) x
       (st_HeartbeatTimeout r) (st_QUIC r) (st_TLS r));
   mkField "heartbeatTimeout" [] (c_int "int64") true st_HeartbeatTimeout (λ x r,
     mkServerTransportConfig (st_TCPMux r) (st_TCPMuxKeepaliveInterval r) (st_TCPKeepAlive r)
       (st_MaxPoolCount r) x (st_QUIC r) (st_TLS r));
   mkField "quic" [] c_QUICOptions true st_QUIC (λ x r,
     mkServerTransportConfig (st_TCPMux r) (st_TCPMuxKeepaliveInterval r) (st_TCPKeepAlive r)
       (st_MaxPoolCount r) (st_HeartbeatTimeout r) x (st_TLS r));
   mkField "tls" [] c_TLSServerConfig true st_TLS (λ x r,
     mkServerTransportConfig (st_TCPMux r) (st_TCPMuxKeepaliveInterval r) (st_TCPKeepAlive r)
       (st_MaxPoolCount r) (st_HeartbeatTimeout r) (st_QUIC r) x)].
Definition zero_ServerTransportConfig : ServerTransportConfig := mkServerTransportConfig None 0 0 0 0
  zero_QUICOptions zero_TLSServerConfig.
Definition c_ServerTransportConfig : codec ServerTransportConfig :=
  c_struct "v1" "ServerTransportConfig" zero_ServerTransportConfig fields_ServerTransportConfig.
#[export] Instance ServerTransportConfig_laws : StructLaws zero_ServerTransportConfig
  fields_ServerTransportConfig.
Proof.
  struct_laws.
  - intros [] []. repeat split.
  - repeat constructor; by intros [].
Qed.

(** [StoreConfig] has one field, its path, and is kept as that. *)
Definition fields_StoreConfig : list (field string) :=
  [mkField "path" [] (c_string "string") true id (λ x _, x)].
Definition c_StoreConfig : codec string := c_struct "v1" "StoreConfig" "" fields_StoreConfig.
#[export] Instance StoreConfig_laws : StructLaws "" fields_StoreConfig.
Proof. struct_laws; [repeat split|repeat constructor]. Qed.

(** [APIMetadata] contributes [version]. *)
Definition fields_ClientCommonConfig : list (field ClientCommonConfig) :=
  [mkField "version" ["APIMetadata"] (c_string "string") false cc_Version (λ x r,
     mkClientCommonConfig x (cc_Auth r) (cc_User r) (cc_ClientID r) (cc_ServerAddr r) (cc_ServerPort r)
       (cc_NatHoleSTUNServer r) (cc_DNSServer r) (cc_LoginFailExit r) (cc_Start r) (cc_Log r) (cc_Transport
       r) (cc_Metadatas r) (cc_IncludeConfigFiles r) (cc_Store_Path r));
   mkField "auth" [] c_AuthClientConfig true cc_Auth (λ x r,
     mkClientCommonConfig (cc_Version r) x (cc_User r) (cc_ClientID r) (cc_ServerAddr r) (cc_ServerPort r)
       (cc_NatHoleSTUNServer r) (cc_DNSServer r) (cc_LoginFailExit r) (cc_Start r) (cc_Log r) (cc_Transport
       r) (cc_Metadatas r) (cc_IncludeConfigFiles r) (cc_Store_Path r));
   mkField "user" [] (c_string "string") true cc_User (λ x r,
     mkClientCommonConfig (cc_Version r) (cc_Auth r) x (cc_ClientID r) (cc_ServerAddr r) (cc_ServerPort r)
       (cc_NatHoleSTUNServer r) (cc_DNSServer r) (cc_LoginFailExit r) (cc_Start r) (cc_Log r) (cc_Transport
       r) (cc_Metadatas r) (cc_IncludeConfigFiles r) (cc_Store_Path r));
   mkField "clientID" [] (c_string "string") true cc_ClientID (λ x r,
     mkClientCommonConfig (cc_Version r) (cc_Auth r) (cc_User r) x (cc_ServerAddr r) (cc_ServerPort r)
       (cc_NatHoleSTUNServer r) (cc_DNSServer r) (cc_LoginFailExit r) (cc_Start r) (cc_Log r) (cc_Transport
       r) (cc_Metadatas r) (cc_IncludeConfigFiles r) (cc_Store_Path r));
   mkField "serverAddr" [] (c_string "string") true cc_ServerAddr (λ x r,
     mkClientCommonConfig (cc_Version r) (cc_Auth r) (cc_User r) (cc_ClientID r) x (cc_ServerPort r)
       (cc_NatHoleSTUNServer r) (cc_DNSServer r) (cc_LoginFailExit r) (cc_Start r) (cc_Log r) (cc_Transport
       r) (cc_Metadatas r) (cc_IncludeConfigFiles r) (cc_Store_Path r));
   mkField "serverPort" [] (c_int "int") true cc_ServerPort (λ x r,
     mkClientCommonConfig (cc_Version r) (cc_Auth r) (cc_User r) (cc_ClientID r) (cc_ServerAddr r) x
       (cc_NatHoleSTUNServer r) (cc_DNSServer r) (cc_LoginFailExit r) (cc_Start r) (cc_Log r) (cc_Transport
       r) (cc_Metadatas r) (cc_IncludeConfigFiles r) (cc_Store_Path r));
   mkField "natHoleStunServer" [] (c_string "string") true cc_NatHoleSTUNServer (λ x r,
     mkClientCommonConfig (cc_Version r) (cc_Auth r) (cc_User r) (cc_ClientID r) (cc_ServerAddr r)
       (cc_ServerPort r) x (cc_DNSServer r) (cc_LoginFailExit r) (cc_Start r) (cc_Log r) (cc_Transport r)
       (cc_Metadatas r) (cc_IncludeConfigFiles r) (cc_Store_Path r));
   mkField "dnsServer" [] (c_string "string") true cc_DNSServer (λ x r,
     mkClientCommonConfig (cc_Version r) (cc_Auth r) (cc_User r) (cc_ClientID r) (cc_ServerAddr r)
       (cc_ServerPort r) (cc_NatHoleSTUNServer r) x (cc_LoginFailExit r) (cc_Start r) (cc_Log r)
       (cc_Transport r) (cc_Metadatas r) (cc_IncludeConfigFiles r) (cc_Store_Path r));
   mkField "loginFailExit" [] (c_ptr c_bool) true cc_LoginFailExit (λ x r,
     mkClientCommonConfig (cc_Version r) (cc_Auth r) (cc_User r) (cc_ClientID r) (cc_ServerAddr r)
       (cc_ServerPort r) (cc_NatHoleSTUNServer r) (cc_DNSServer r) x (cc_Start r) (cc_Log r) (cc_Transport
       r) (cc_Metadatas r) (cc_IncludeConfigFiles r) (cc_Store_Path r));
   mkField "start" [] (c_slice "[]string" (c_string "string")) true cc_Start (λ x r,
     mkClientCommonConfig (cc_Version r) (cc_Auth r) (cc_User r) (cc_ClientID r) (cc_ServerAddr r)
       (cc_ServerPort r) (cc_NatHoleSTUNServer r) (cc_DNSServer r) (cc_LoginFailExit r) x (cc_Log r)
       (cc_Transport r) (cc_Metadatas r) (cc_IncludeConfigFiles r) (cc_Store_Path r));
   mkField "log" [] c_LogConfig true cc_Log (λ x r,
     mkClientCommonConfig (cc_Version r) (cc_Auth r) (cc_User r) (cc_ClientID r) (cc_ServerAddr r)
       (cc_ServerPort r) (cc_NatHoleSTUNServer r) (cc_DNSServer r) (cc_LoginFailExit r) (cc_Start r) x
       (cc_Transport r) (cc_Metadatas r) (cc_IncludeConfigFiles r) (cc_Store_Path r));
   mkField "transport" [] c_ClientTransportConfig true cc_Transport (λ x r,
     mkClientCommonConfig (cc_Version r) (cc_Auth r) (cc_User r) (cc_ClientID r) (cc_ServerAddr r)
       (cc_ServerPort r) (cc_NatHoleSTUNServer r) (cc_DNSServer r) (cc_LoginFailExit r) (cc_Start r) (cc_Log
       r) x (cc_Metadatas r) (cc_IncludeConfigFiles r) (cc_Store_Path r));
   mkField "metadatas" [] c_strmap true cc_Metadatas (λ x r,
     mkClientCommonConfig (cc_Version r) (cc_Auth r) (cc_User r) (cc_ClientID r) (cc_ServerAddr r)
       (cc_ServerPort r) (cc_NatHoleSTUNServer r) (cc_DNSServer r) (cc_LoginFailExit r) (cc_Start r) (cc_Log
       r) (cc_Transport r) x (cc_IncludeConfigFiles r) (cc_Store_Path r));
   mkField "includes" [] (c_slice "[]string" (c_string "string")) true cc_IncludeConfigFiles (λ x r,
     mkClientCommonConfig (cc_Version r) (cc_Auth r) (cc_User r) (cc_ClientID r) (cc_ServerAddr r)
       (cc_ServerPort r) (cc_NatHoleSTUNServer r) (cc_DNSServer r) (cc_LoginFailExit r) (cc_Start r) (cc_Log
       r) (cc_Transport r) (cc_Metadatas r) x (cc_Store_Path r));
   mkField "store" [] c_StoreConfig true cc_Store_Path (λ x r,
     mkClientCommonConfig (cc_Version r) (cc_Auth r) (cc_User r) (cc_ClientID r) (cc_ServerAddr r)
       (cc_ServerPort r) (cc_NatHoleSTUNServer r) (cc_DNSServer r) (cc_LoginFailExit r) (cc_Start r) (cc_Log
       r) (cc_Transport r) (cc_Metadatas r) (cc_IncludeConfigFiles r) x)].
Definition zero_ClientCommonConfig : ClientCommonConfig := mkClientCommonConfig "" zero_AuthClientConfig ""
  "" "" 0 "" "" None [] zero_LogConfig zero_ClientTransportConfig ∅ [] "".
Definition c_ClientCommonConfig : codec ClientCommonConfig :=
  c_struct "v1" "ClientCommonConfig" zero_ClientCommonConfig fields_ClientCommonConfig.
#[export] Instance ClientCommonConfig_laws : StructLaws zero_ClientCommonConfig fields_ClientCommonConfig.
Proof.
  struct_laws.
  - intros [] []. repeat split.
  - repeat constructor; by intros [].
Qed.

Definition fields_ServerConfig : list (field ServerConfig) :=
  [mkField "version" ["APIMetadata"] (c_string "string") false sc_Version (λ x r,
     mkServerConfig x (sc_Auth r) (sc_BindAddr r) (sc_BindPort r) (sc_Log r) (sc_Transport r)
       (sc_DetailedErrorsToClient r) (sc_UserConnTimeout r) (sc_NatHoleAnalysisDataReserveHours r));
   mkField "auth" [] c_AuthServerConfig true sc_Auth (λ x r,
     mkServerConfig (sc_Version r) x (sc_BindAddr r) (sc_BindPort r) (sc_Log r) (sc_Transport r)
       (sc_DetailedErrorsToClient r) (sc_UserConnTimeout r) (sc_NatHoleAnalysisDataReserveHours r));
   mkField "bindAddr" [] (c_string "string") true sc_BindAddr (λ x r,
     mkServerConfig (sc_Version r) (sc_Auth r) x (sc_BindPort r) (sc_Log r) (sc_Transport r)
       (sc_DetailedErrorsToClient r) (sc_UserConnTimeout r) (sc_NatHoleAnalysisDataReserveHours r));
   mkField "bindPort" [] (c_int "int") true sc_BindPort (λ x r,
     mkServerConfig (sc_Version r) (sc_Auth r) (sc_BindAddr r) x (sc_Log r) (sc_Transport r)
       (sc_DetailedErrorsToClient r) (sc_UserConnTimeout r) (sc_NatHoleAnalysisDataReserveHours r));
   mkField "log" [] c_LogConfig true sc_Log (λ x r,
     mkServerConfig (sc_Version r) (sc_Auth r) (sc_BindAddr r) (sc_BindPort r) x (sc_Transport r)
       (sc_DetailedErrorsToClient r) (sc_UserConnTimeout r) (sc_NatHoleAnalysisDataReserveHours r));
   mkField "transport" [] c_ServerTransportConfig true sc_Transport (λ x r,
     mkServerConfig (sc_Version r) (sc_Auth r) (sc_BindAddr r) (sc_BindPort r) (sc_Log r) x
       (sc_DetailedErrorsToClient r) (sc_UserConnTimeout r) (sc_NatHoleAnalysisDataReserveHours r));
   mkField "detailedErrorsToClient" [] (c_ptr c_bool) true sc_DetailedErrorsToClient (λ x r,
     mkServerConfig (sc_Version r) (sc_Auth r) (sc_BindAddr r) (sc_BindPort r) (sc_Log r) (sc_Transport r) x
       (sc_UserConnTimeout r) (sc_NatHoleAnalysisDataReserveHours r));
   mkField "userConnTimeout" [] (c_int "int64") true sc_UserConnTimeout (λ x r,
     mkServerConfig (sc_Version r) (sc_Auth r) (sc_BindAddr r) (sc_BindPort r) (sc_Log r) (sc_Transport r)
       (sc_DetailedErrorsToClient r) x (sc_NatHoleAnalysisDataReserveHours r));
   mkField "natholeAnalysisDataReserveHours" [] (c_int "int64") true sc_NatHoleAnalysisDataReserveHours (λ x
     r,
     mkServerConfig (sc_Version r) (sc_Auth r) (sc_BindAddr r) (sc_BindPort r) (sc_Log r) (sc_Transport r)
       (sc_DetailedErrorsToClient r) (sc_UserConnTimeout r) x)].
Definition zero_ServerConfig : ServerConfig := mkServerConfig "" zero_AuthServerConfig "" 0 zero_LogConfig
  zero_ServerTransportConfig None 0 0.
Definition c_ServerConfig : codec ServerConfig :=
  c_struct "v1" "ServerConfig" zero_ServerConfig fields_ServerConfig.
#[export] Instance ServerConfig_laws : StructLaws zero_ServerConfig fields_ServerConfig.
Proof.
  struct_laws.
  - intros [] []. repeat split.
  - repeat constructor; by intros [].
Qed.

(** ** [decode.go]

    [NewProxyConfigurerByType] and its like hand out a variable; the codec of a configurer is
    that of the struct it points to. *)
Definition unwrap_proxy (p : ProxyConfigurer) : XTCPProxyConfig := match p with PC_XTCP c => c end.
Definition unwrap_visitor (v : VisitorConfigurer) : XTCPVisitorConfig := match v with VC_XTCP c => c end.
Definition c_ProxyConfigurer : codec ProxyConfigurer := c_iface PC_XTCP unwrap_proxy c_XTCPProxyConfig.
Definition c_VisitorConfigurer : codec VisitorConfigurer :=
  c_iface VC_XTCP unwrap_visitor c_XTCPVisitorConfig.

(** A text to decode: whether [isJSONNull] holds of it, what [Unmarshal] reads in it and what
    a strict decoder reads.  The three are computed from bytes; a [RawMessage], the exact text
    of one value, is the same for both. *)
Record json_text := mkText { t_null : bool; t_all : option json; t_first : option json }.
Definition isJSONNull (b : list byte) : bool :=
  bool_decide (length b = 0%nat) || bool_decide (b = bytes_of "null").
Definition text_of_bytes (b : list byte) : json_text := mkText (isJSONNull b) (parse_all b) (parse_first b).
Definition text_of_raw (m : RawMessage) : json_text :=
  mkText (match m with JNull => true | _ => false end) (Some m) (Some m).
Definition decodeJSONWithOptions {T} (c : codec T) (t : json_text) (out : T) (options : DecodeOptions)
    : T + json_error :=
  if DisallowUnknownFields options then store c true (t_first t) out else store c false (t_all t) out.
Lemma decodeJSONWithOptions_bytes {T} (c : codec T) b out options :
  decodeJSONWithOptions c (text_of_bytes b) out options = UnmarshalWithOptions c b out options.
Proof. done. Qed.

Record typedEnvelope := mkEnvelope { te_Type : string }.
Definition fields_typedEnvelope : list (field typedEnvelope) :=
  [mkField "type" [] (c_string "string") false te_Type (λ x _, mkEnvelope x)].
Definition c_typedEnvelope : codec typedEnvelope :=
  c_struct "v1" "typedEnvelope" (mkEnvelope "") fields_typedEnvelope.

(** What both decoders do: the envelope first, then the whole into the variable that its type
    names. *)
Section decode_typed.
Context {C : Type} (c : codec C) (new_by_type : string → option C) (kind Kind : string).
Definition decode_typed (b : json_text) (options : DecodeOptions) : C + go_error :=
  if t_null b then inr (EText "type is required")
  else match store c_typedEnvelope false (t_all b) (mkEnvelope "") with
       | inr e => inr (EJson e)
       | inl env =>
           match new_by_type (te_Type env) with
           | None => inr (EText ("unknown " +:+ kind +:+ " type: " +:+ te_Type env))
           | Some configurer =>
               match decodeJSONWithOptions c b configurer options with
               | inr e => inr (EFmtV ("unmarshal " +:+ Kind +:+ "Config error: ") (EJson e))
               | inl configurer => inl configurer
               end
           end
       end.
End decode_typed.
Definition DecodeProxyConfigurerJSON : json_text → DecodeOptions → ProxyConfigurer + go_error :=
  decode_typed c_ProxyConfigurer NewProxyConfigurerByType "proxy" "Proxy".
Definition DecodeVisitorConfigurerJSON : json_text → DecodeOptions → VisitorConfigurer + go_error :=
  decode_typed c_VisitorConfigurer NewVisitorConfigurerByType "visitor" "Visitor".

(** [TypedProxyConfig], [TypedVisitorConfig]: the configurer and its type. *)
Record TypedConfig (C : Type) := mkTyped { ty_Type : string; ty_Configurer : C }.
Arguments mkTyped {C}. Arguments ty_Type {C}. Arguments ty_Configurer {C}.
Definition TypedProxyConfig : Type := TypedConfig ProxyConfigurer.
Definition TypedVisitorConfig : Type := TypedConfig VisitorConfigurer.
Definition typed_proxy (p : ProxyConfigurer) : TypedProxyConfig := mkTyped (pc_Type (GetBaseConfig p)) p.
Definition typed_visitor (v : VisitorConfigurer) : TypedVisitorConfig :=
  mkTyped (vb_Type (Visitor_GetBaseConfig v)) v.
Definition map_inl {A B E} (f : A → B) (x : A + E) : B + E :=
  match x with inl a => inl (f a) | inr e => inr e end.
Definition TypedProxy_UnmarshalJSON (b : list byte) : TypedProxyConfig + go_error :=
  map_inl typed_proxy (DecodeProxyConfigurerJSON (text_of_bytes b) (mkDecodeOptions false)).
Definition TypedProxy_MarshalJSON (c : TypedProxyConfig) : list byte :=
  jsonx_Marshal c_ProxyConfigurer (ty_Configurer c).
Definition TypedVisitor_UnmarshalJSON (b : list byte) : TypedVisitorConfig + go_error :=
  map_inl typed_visitor (DecodeVisitorConfigurerJSON (text_of_bytes b) (mkDecodeOptions false)).
Definition TypedVisitor_MarshalJSON (c : TypedVisitorConfig) : list byte :=
  jsonx_Marshal c_VisitorConfigurer (ty_Configurer c).

(** ** A client's file *)
Record rawClientConfig := mkRaw {
  raw_Common : ClientCommonConfig;
  raw_Proxies : list RawMessage;
  raw_Visitors : list RawMessage;
}.
Definition set_raw_Common (x : ClientCommonConfig) (r : rawClientConfig) : rawClientConfig :=
  mkRaw x (raw_Proxies r) (raw_Visitors r).
Definition fields_rawClientConfig : list (field rawClientConfig) :=
  embed "ClientCommonConfig" raw_Common set_raw_Common fields_ClientCommonConfig ++
  [mkField "proxies" [] (c_slice "[]jsonx.RawMessage" c_raw) true raw_Proxies
     (λ x r, mkRaw (raw_Common r) x (raw_Visitors r));
   mkField "visitors" [] (c_slice "[]jsonx.RawMessage" c_raw) true raw_Visitors
     (λ x r, mkRaw (raw_Common r) (raw_Proxies r) x)].
Definition zero_rawClientConfig : rawClientConfig := mkRaw zero_ClientCommonConfig [] [].
Definition c_rawClientConfig : codec rawClientConfig :=
  c_struct "v1" "rawClientConfig" zero_rawClientConfig fields_rawClientConfig.

Record ClientFile := mkClientFile {
  cf_Common : ClientCommonConfig;
  cf_Proxies : list TypedProxyConfig;
  cf_Visitors : list TypedVisitorConfig;
}.
(** The loops over the raw proxies and visitors, with the index in the error. *)
Fixpoint decode_each {C} (decode : json_text → DecodeOptions → C + go_error) (what : string)
    (options : DecodeOptions) (i : Z) (l : list RawMessage) : list C + go_error :=
  match l with
  | [] => inl []
  | m :: l =>
      match decode (text_of_raw m) options with
      | inr e => inr (EFmtW ("decode " +:+ what +:+ " at index " +:+ Itoa i +:+ ": ") e)
      | inl c => map_inl (cons c) (decode_each decode what options (i + 1) l)
      end
  end.
Definition DecodeClientConfigJSON (b : list byte) (options : DecodeOptions) : ClientFile + go_error :=
  match decodeJSONWithOptions c_rawClientConfig (text_of_bytes b) zero_rawClientConfig options with
  | inr e => inr (EJson e)
  | inl raw =>
      match decode_each DecodeProxyConfigurerJSON "proxy" options 0 (raw_Proxies raw) with
      | inr e => inr e
      | inl ps =>
          match decode_each DecodeVisitorConfigurerJSON "visitor" options 0 (raw_Visitors raw) with
          | inr e => inr e
          | inl vs => inl (mkClientFile (raw_Common raw) (typed_proxy <$> ps) (typed_visitor <$> vs))
          end
      end
  end.

(** ** Lemmas *)

(** *** The type of a struct and of its envelope *)
Definition folded_type : list byte := fold_name (bytes_of "type").
Definition store_field {R} (g : field R) (strict : bool) (v : json) (r : R) : R :=
  f_set g (c_dec (f_codec g) strict v (f_get g r)).1 r.
Definition type_step (strict : bool) (key : string) (v : json) (t : string) : string :=
  if bool_decide (folded_type = fold_name (bytes_of key))
  then (c_dec (c_string "string") strict v t).1 else t.
(** The struct has a field [type], read by [tget], and no other field touches it. *)
Definition tracks_type {R} (fs : list (field R)) (tget : R → string) : Prop :=
  Forall (λ g, ∀ strict v r, tget (store_field g strict v r) = type_step strict (f_name g) v (tget r)) fs
  ∧ Exists (λ g, fold_name (bytes_of (f_name g)) = folded_type) fs.

Lemma find_field_fold {R} (fs : list (field R)) key :
  match find_field fs key with
  | Some g => g ∈ fs ∧ fold_name (bytes_of (f_name g)) = fold_name (bytes_of key)
  | None => Forall (λ g, fold_name (bytes_of (f_name g)) ≠ fold_name (bytes_of key)) fs
  end.
Proof.
  unfold find_field. destruct (List.find (λ f, bool_decide (f_name f = key)) fs) as [g|] eqn:E.
  - apply find_some in E as [Hg E%bool_decide_eq_true]. split; [by apply list_elem_of_In|by rewrite E].
  - clear E. destruct (List.find (λ f, bool_decide (fold_name (bytes_of (f_name f)) = fold_name (bytes_of key))) fs) as [g|] eqn:E'.
    + apply find_some in E' as [Hg E'%bool_decide_eq_true]. split; [by apply list_elem_of_In|done].
    + apply Forall_forall. intros g Hg%list_elem_of_In.
      pose proof (find_none _ _ E' g Hg) as Hn. by apply bool_decide_eq_false in Hn.
Qed.

Lemma member_dec_type {R} struct fs (tget : R → string) strict acc kv : tracks_type fs tget →
  tget (member_dec struct fs strict acc kv).1 = type_step strict kv.1 kv.2 (tget acc.1).
Proof.
  intros [Ht He]. unfold member_dec. pose proof (find_field_fold fs kv.1) as Hf.
  destruct (find_field fs kv.1) as [g|].
  - destruct Hf as [Hg Hfold]. pose proof (proj1 (Forall_forall _ _) Ht g Hg strict kv.2 acc.1) as H.
    unfold store_field in H. destruct (c_dec (f_codec g) strict kv.2 (f_get g acc.1)) as [x es].
    cbn [fst] in *. rewrite H. unfold type_step. by rewrite Hfold.
  - cbn [fst]. unfold type_step. rewrite bool_decide_eq_false_2; [done|]. intros Heq.
    apply Exists_exists in He as (g & Hg & He).
    apply (proj1 (Forall_forall _ _) Hf g Hg). by rewrite He.
Qed.
(** Two structs that track their type have the same one after the same members, unless no
    member gives one. *)
Lemma members_type {R R'} s s' (fs : list (field R)) (fs' : list (field R')) tget tget' strict strict' t0 ms :
  tracks_type fs tget → tracks_type fs' tget' → ∀ acc acc',
  tget acc.1 = tget' acc'.1 ∨ tget acc.1 = "" ∧ tget' acc'.1 = t0 →
  let e := foldl (member_dec s fs strict) acc ms in let e' := foldl (member_dec s' fs' strict') acc' ms in
  tget e.1 = tget' e'.1 ∨ tget e.1 = "" ∧ tget' e'.1 = t0.
Proof.
  intros H H'. induction ms as [|kv ms IH]; intros acc acc' Hacc; [done|]. simpl. apply IH.
  rewrite !member_dec_type by done. unfold type_step. case_bool_decide; [|done].
  simpl. by destruct kv.2; simpl; auto.
Qed.

Ltac tracks_type := split; [repeat (constructor; [by intros ? [] ?|]); constructor
                           |repeat (first [apply Exists_cons_hd; reflexivity|apply Exists_cons_tl])].
Lemma envelope_tracks : tracks_type fields_typedEnvelope te_Type.
Proof. tracks_type. Qed.
Lemma proxy_tracks : tracks_type fields_XTCPProxyConfig (λ c, pc_Type (xp_Base c)).
Proof. tracks_type. Qed.
Lemma visitor_tracks : tracks_type fields_XTCPVisitorConfig (λ c, vb_Type (xv_Base c)).
Proof. tracks_type. Qed.

(** *** The codecs of configurers *)
#[export] Instance c_ProxyConfigurer_lawful : Lawful c_ProxyConfigurer.
Proof. apply (c_iface_lawful _ _ _); [done|by intros []]. Qed.
#[export] Instance c_VisitorConfigurer_lawful : Lawful c_VisitorConfigurer.
Proof. apply (c_iface_lawful _ _ _); [done|by intros []]. Qed.

(** A text whose readings agree: bytes always are one, and so are raw values that were read. *)
Definition coherent (t : json_text) : Prop :=
  (∀ j, t_all t = Some j → t_first t = Some j) ∧ (∀ j, t_first t = Some j → readable j).
Lemma coherent_bytes b : coherent (text_of_bytes b).
Proof. split; intros j; simpl; [apply parse_all_first|apply parse_first_printable]. Qed.
Lemma coherent_raw m : readable m → coherent (text_of_raw m).
Proof. intros H. split; intros j; simpl; congruence. Qed.

Lemma store_inl {T} (c : codec T) strict t old x :
  store c strict t old = inl x ↔ ∃ j, t = Some j ∧ c_dec c strict j old = (x, []).
Proof.
  unfold store. destruct t as [j|]; [|split; [done|by intros (? & ? & _)]].
  destruct (c_dec c strict j old) as [y [|e es]] eqn:E;
    (split; [intros; simplify_eq; eauto|intros (j' & [= <-] & H); congruence]).
Qed.

(** What a successful decoding went through. *)
Lemma decode_typed_inl {C} (c : codec C) new kind Kind t options x : coherent t →
  decode_typed c new kind Kind t options = inl x →
  ∃ j env y, t_all t = Some j ∧ readable j ∧
    c_dec c_typedEnvelope false j (mkEnvelope "") = (env, []) ∧ new (te_Type env) = Some y ∧
    c_dec c (DisallowUnknownFields options) j y = (x, []).
Proof.
  intros [Hall Hpr]. unfold decode_typed. destruct (t_null t); [done|].
  destruct (store c_typedEnvelope false (t_all t) (mkEnvelope "")) as [env|] eqn:He; [|done].
  apply store_inl in He as (j & Hj & He). destruct (new (te_Type env)) as [y|] eqn:Hy; [|done].
  unfold decodeJSONWithOptions. intros Hd. exists j, env, y. rewrite (Hall j Hj), Hj in Hd.
  destruct (DisallowUnknownFields options); (destruct (store c _ (Some j) y) as [x'|] eqn:Hx; [|done]);
    apply store_inl in Hx as (j' & [= <-] & Hx); simplify_eq; auto 10 using Hpr.
Qed.

Definition proxy_typed (p : ProxyConfigurer) : Prop :=
  pc_Type (GetBaseConfig p) = ProxyTypeXTCP ∧ c_ok c_ProxyConfigurer p.
Definition visitor_typed (v : VisitorConfigurer) : Prop :=
  vb_Type (Visitor_GetBaseConfig v) = VisitorTypeXTCP ∧ c_ok c_VisitorConfigurer v.

Lemma struct_type {R R'} s ty s' ty' (fs : list (field R)) (fs' : list (field R')) tget tget'
    strict strict' j r r' e e' :
  tracks_type fs tget → tracks_type fs' tget' →
  struct_dec s ty fs strict j r = e → struct_dec s' ty' fs' strict' j r' = e' → tget r = "" →
  tget e.1 = tget' e'.1 ∨ tget e.1 = "" ∧ tget' e'.1 = tget' r'.
Proof.
  intros H H' <- <- Hr. destruct j; simpl; auto. by apply members_type; [..|right].
Qed.
Lemma DecodeProxy_typed t options p : coherent t → DecodeProxyConfigurerJSON t options = inl p → proxy_typed p.
Proof.
  intros Ht Hd. apply decode_typed_inl in Hd as (j & env & y & _ & Hj & He & Hy & Hx); [|done].
  unfold NewProxyConfigurerByType in Hy. case_bool_decide as Hty; [|done]. injection Hy as <-.
  split.
  - cbn [c_dec c_ProxyConfigurer c_iface unwrap_proxy] in Hx.
    destruct (c_dec c_XTCPProxyConfig _ j _) as [x es] eqn:Hc; simplify_eq.
    destruct (struct_type _ _ _ _ _ _ te_Type (λ c, pc_Type (xp_Base c)) _ _ j _ _ _ _
      envelope_tracks proxy_tracks He Hc eq_refl) as [Heq|[Heq _]];
      unfold ProxyTypeXTCP in *; simpl in *; congruence.
  - match type of Hx with c_dec _ _ _ ?y = _ => assert (Hy : c_ok c_ProxyConfigurer y) end.
    { rewrite Hty. by repeat constructor. }
    pose proof (dec_ok (DisallowUnknownFields options) j _ Hj Hy) as Hok. by rewrite Hx in Hok.
Qed.
Lemma DecodeVisitor_typed t options v : coherent t → DecodeVisitorConfigurerJSON t options = inl v → visitor_typed v.
Proof.
  intros Ht Hd. apply decode_typed_inl in Hd as (j & env & y & _ & Hj & He & Hy & Hx); [|done].
  unfold NewVisitorConfigurerByType in Hy. case_bool_decide as Hty; [|done]. injection Hy as <-.
  split.
  - cbn [c_dec c_VisitorConfigurer c_iface unwrap_visitor] in Hx.
    destruct (c_dec c_XTCPVisitorConfig _ j _) as [x es] eqn:Hc; simplify_eq.
    destruct (struct_type _ _ _ _ _ _ te_Type (λ c, vb_Type (xv_Base c)) _ _ j _ _ _ _
      envelope_tracks visitor_tracks He Hc eq_refl) as [Heq|[Heq _]];
      unfold VisitorTypeXTCP in *; simpl in *; congruence.
  - match type of Hx with c_dec _ _ _ ?y = _ => assert (Hy : c_ok c_VisitorConfigurer y) end.
    { rewrite Hty. by repeat constructor. }
    pose proof (dec_ok (DisallowUnknownFields options) j _ Hj Hy) as Hok. by rewrite Hx in Hok.
Qed.

Lemma decode_each_inl {C} decode what options i l (xs : list C) :
  decode_each decode what options i l = inl xs →
  Forall2 (λ m x, decode (text_of_raw m) options = inl x) l xs.
Proof.
  revert i xs. induction l as [|m l IH]; intros i xs; simpl; [intros [= <-]; constructor|].
  destruct (decode (text_of_raw m) options) as [x|] eqn:Hm; [|done].
  destruct (decode_each decode what options (i + 1) l) as [xs'|] eqn:Hl; [|done].
  intros [= <-]. constructor; [done|]. by eapply IH.
Qed.

#[export] Instance rawClientConfig_laws : StructLaws zero_rawClientConfig fields_rawClientConfig.
Proof.
  struct_laws.
  - intros [[]] [[]]. repeat split.
  - repeat constructor; by intros [[]].
Qed.
Lemma raw_config_ok b options raw :
  decodeJSONWithOptions c_rawClientConfig (text_of_bytes b) zero_rawClientConfig options = inl raw →
  c_ok c_ClientCommonConfig (raw_Common raw) ∧ Forall readable (raw_Proxies raw) ∧
  Forall readable (raw_Visitors raw).
Proof.
  intros Hd. assert (∃ j strict, readable j ∧ c_dec c_rawClientConfig strict j zero_rawClientConfig = (raw, []))
    as (j & strict & Hj & Hraw).
  { unfold decodeJSONWithOptions in Hd. destruct (coherent_bytes b) as [Hall Hpr].
    destruct (DisallowUnknownFields options); apply store_inl in Hd as (j & Hj & Hd); eauto 6. }
  assert (c_ok c_rawClientConfig raw) as Hok.
  { replace raw with (c_dec c_rawClientConfig strict j zero_rawClientConfig).1 by (by rewrite Hraw).
    apply dec_ok; [done|]. apply (zero_ok (c := c_rawClientConfig)). }
  cbn [c_ok c_rawClientConfig c_struct] in Hok. unfold fields_rawClientConfig in Hok.
  apply Forall_app in Hok as [Hc Hr]. split.
  - unfold embed in Hc. rewrite Forall_fmap in Hc. exact Hc.
  - apply Forall_cons in Hr as [Hp Hr]. apply Forall_cons in Hr as [Hv _]. by split.
Qed.

(** *** A configurer's printed text *)
Lemma member_dec_other {R} struct (fs : list (field R)) ms acc :
  Forall (λ kv, find_field fs kv.1 = None) ms → foldl (member_dec struct fs false) acc ms = acc.
Proof.
  intros H. revert acc. induction H as [|kv ms Hkv _ IH]; intros acc; [done|]. cbn [foldl].
  unfold member_dec at 2. rewrite Hkv, IH. by destruct acc.
Qed.
Lemma field_members_keys {R} (r : R) fs (P : string → Prop) :
  Forall (λ f, P (f_name f)) fs → Forall (λ kv, P kv.1) (omap (field_member r) fs).
Proof.
  intros H. induction H as [|f fs Hf _ IH]; [constructor|]. cbn [omap list_omap].
  unfold field_member at 1. destruct (_ && _); [done|]. by constructor.
Qed.
(** The envelope of a printed struct whose second member is its type. *)
Lemma envelope_dec {R} (fs : list (field R)) (r : R) name v ty :
  struct_enc fs r = JObj ((name, v) :: ("type", JStr ty) :: omap (field_member r) (drop 2 fs)) →
  Forall (λ f, find_field fields_typedEnvelope (f_name f) = None) (drop 2 fs) →
  find_field fields_typedEnvelope name = None →
  c_dec c_typedEnvelope false (struct_enc fs r) (mkEnvelope "") = (mkEnvelope ty, []).
Proof.
  intros -> Hfs Hname. cbn [c_dec c_typedEnvelope c_struct struct_dec foldl].
  unfold member_dec at 3. cbn [fst snd]. rewrite Hname.
  change (member_dec ?s fields_typedEnvelope false ?a ("type", JStr ty)) with (mkEnvelope ty, @nil json_error).
  apply member_dec_other. by apply (field_members_keys r _ (λ k, find_field _ k = None)).
Qed.

(** A value that is printed and decoded again. *)
Lemma decode_typed_print {C} (c : codec C) `{!Lawful c} new kind Kind x y t options :
  c_ok c x → c_depth c ≤ maxNestingDepth → isJSONNull (print (c_enc c x)) = false →
  c_dec c_typedEnvelope false (c_enc c x) (mkEnvelope "") = (mkEnvelope t, []) →
  new t = Some y → (∀ strict, c_dec c strict (c_enc c x) y = (x, [])) →
  decode_typed c new kind Kind (text_of_bytes (jsonx_Marshal c x)) options = inl x.
Proof.
  intros Hx Hd Hnull Henv Hnew Hdec. unfold jsonx_Marshal, json_Marshal. pose proof (enc_nesting x Hx).
  destruct (parse_print _ (enc_printable x Hx) ltac:(lia)) as [Ha Hf]. specialize (Hf [] I).
  rewrite app_nil_r in Hf. unfold decode_typed, decodeJSONWithOptions, text_of_bytes.
  cbn [t_null t_all t_first]. rewrite Hnull, Ha, Hf. unfold store at 1. rewrite Henv. cbn [te_Type].
  rewrite Hnew. unfold store. rewrite !Hdec. by destruct (DisallowUnknownFields options).
Qed.

Lemma proxy_print_decode p options : proxy_typed p →
  DecodeProxyConfigurerJSON (text_of_bytes (jsonx_Marshal c_ProxyConfigurer p)) options = inl p.
Proof.
  intros [Ht Hok]. destruct p as [c]. cbn [GetBaseConfig] in Ht.
  eapply (decode_typed_print c_ProxyConfigurer _ _ _ _ _ ProxyTypeXTCP); [done|by vm_compute|done| |done|].
  - rewrite <-Ht. apply (envelope_dec fields_XTCPProxyConfig c "name" (JStr (pc_Name (xp_Base c))));
      [done|repeat (constructor; [by vm_compute|]); constructor|by vm_compute].
  - intros strict. cbn [c_dec c_ProxyConfigurer c_iface unwrap_proxy c_enc].
    unfold c_XTCPProxyConfig at 1. cbn [c_dec c_struct c_enc c_XTCPProxyConfig].
    rewrite (struct_dec_enc zero_XTCPProxyConfig); [done|apply _|exact Hok|].
    constructor; [by left|]. constructor; [by right|]. repeat (constructor; [by left|]). constructor.
Qed.
Lemma visitor_print_decode v options : visitor_typed v →
  DecodeVisitorConfigurerJSON (text_of_bytes (jsonx_Marshal c_VisitorConfigurer v)) options = inl v.
Proof.
  intros [Ht Hok]. destruct v as [c]. cbn [Visitor_GetBaseConfig] in Ht.
  eapply (decode_typed_print c_VisitorConfigurer _ _ _ _ _ VisitorTypeXTCP); [done|by vm_compute|done| |done|].
  - rewrite <-Ht. apply (envelope_dec fields_XTCPVisitorConfig c "name" (JStr (vb_Name (xv_Base c))));
      [done|repeat (constructor; [by vm_compute|]); constructor|by vm_compute].
  - intros strict. cbn [c_dec c_VisitorConfigurer c_iface unwrap_visitor c_enc].
    unfold c_XTCPVisitorConfig at 1. cbn [c_dec c_struct c_enc c_XTCPVisitorConfig].
    rewrite (struct_dec_enc zero_XTCPVisitorConfig); [done|apply _|exact Hok|].
    constructor; [by left|]. constructor; [by right|]. repeat (constructor; [by left|]). constructor.
Qed.

(** A strict decoder that succeeds knew every key. *)
Lemma struct_dec_strict {R} struct type (fs : list (field R)) ms old x :
  struct_dec struct type fs true (JObj ms) old = (x, []) → Forall (λ kv, is_Some (find_field fs kv.1)) ms.
Proof.
  cbn [struct_dec].
  assert (Hgrow : ∀ ms acc, ∃ es, (foldl (member_dec struct fs true) acc ms).2 = acc.2 ++ es).
  { clear. induction ms as [|kv ms IH]; intros acc; [exists []; by rewrite app_nil_r|]. cbn [foldl].
    destruct (IH (member_dec struct fs true acc kv)) as [es ->]. unfold member_dec.
    destruct (find_field fs kv.1); [destruct (c_dec _ _ _ _)|]; cbn [snd]; rewrite <-(assoc_L (++)); eauto. }
  assert (Hgen : ∀ acc, (foldl (member_dec struct fs true) acc ms).2 = [] →
    Forall (λ kv, is_Some (find_field fs kv.1)) ms).
  { induction ms as [|kv ms IH]; intros acc H; [constructor|]. cbn [foldl] in H. constructor; [|by eapply IH].
    destruct (Hgrow ms (member_dec struct fs true acc kv)) as [es Hes]. rewrite H in Hes.
    unfold member_dec in Hes. destruct (find_field fs kv.1); [by eexists|].
    cbn [snd] in Hes. by destruct acc.2. }
  intros H. apply (Hgen (old, [])). by rewrite H.
Qed.

Lemma typed_keys_known {C R} (wrap : R → C) unwrap pkg struct zero (fs : list (field R)) new kind Kind m x :
  decode_typed (c_iface wrap unwrap (c_struct pkg struct zero fs)) new kind Kind (text_of_raw m) strictly = inl x →
  ∃ ms, m = JObj ms ∧ Forall (λ kv, is_Some (find_field fs kv.1)) ms.
Proof.
  unfold decode_typed, decodeJSONWithOptions. cbn [t_null t_all t_first text_of_raw DisallowUnknownFields strictly].
  destruct m as [|b|lit|s|l|ms]; [intros Hd; done..|]. exists ms. split; [done|].
  destruct (store c_typedEnvelope _ _ _) as [env|]; [|done]. destruct (new _) as [y|]; [|done].
  destruct (store (c_iface _ _ _) _ _ _) as [x'|] eqn:Hx; [|done].
  apply store_inl in Hx as (? & [= <-] & Hx). cbn [c_dec c_iface] in Hx.
  destruct (c_dec (c_struct pkg struct zero fs) true _ (unwrap y)) as [x'' es] eqn:Hs.
  injection Hx as _ ->. exact (struct_dec_strict struct (pkg +:+ "." +:+ struct) fs ms _ _ Hs).
Qed.

(** ** Theorems *)

Definition sample_client : list byte := bytes_of
  ("{ " +:+ squoted "serverAddr" +:+ ": " +:+ squoted "example.com" +:+ ", " +:+ squoted "serverPort" +:+ ": 7001,"
   +:+ squoted "proxies" +:+ ": [ {" +:+ squoted "name" +:+ ":" +:+ squoted "ssh" +:+ "," +:+ squoted "TYPE" +:+ ":"
   +:+ squoted "xtcp" +:+ "," +:+ squoted "localPort" +:+ ":22} ] }").
Example sample_client_decoded :
  match DecodeClientConfigJSON sample_client strictly with
  | inl f => cc_ServerPort (cf_Common f) = 7001 ∧
             ((λ p, (ty_Type p, pb_LocalPort (pc_Backend (GetBaseConfig (ty_Configurer p))))) <$> cf_Proxies f) = [("xtcp", 22)]
  | inr _ => False
  end.
Proof. vm_compute. split; reflexivity. Qed.
Example sample_type_error :
  DecodeClientConfigJSON (bytes_of ("{" +:+ squoted "transport" +:+ ":{" +:+ squoted "tls" +:+ ":{" +:+ squoted "keyFile" +:+ ":5}}}")) leniently
  = inr (EJson (JTypeError "number" "TLSClientConfig" ["ClientCommonConfig"; "transport"; "tls"; "TLSConfig"; "keyFile"] "string")).
Proof. vm_compute. reflexivity. Qed.
Example sample_unknown_type :
  DecodeClientConfigJSON (bytes_of ("{" +:+ squoted "visitors" +:+ ":[null]}")) leniently
  = inr (EFmtW "decode visitor at index 0: " (EText "type is required")).
Proof. vm_compute. reflexivity. Qed.

(** A decoded client file is well typed: every proxy and visitor has the type under
    which it was registered, in its configuration and beside it, and all values of the file
    are within their Go types: integers within 64 bits, texts of valid UTF-8. *)
Lemma client_file_typed (b : list byte) (options : DecodeOptions) (f : ClientFile) :
  DecodeClientConfigJSON b options = inl f →
  c_ok c_ClientCommonConfig (cf_Common f) ∧
  Forall (λ p, ty_Type p = ProxyTypeXTCP ∧ proxy_typed (ty_Configurer p)) (cf_Proxies f) ∧
  Forall (λ v, ty_Type v = VisitorTypeXTCP ∧ visitor_typed (ty_Configurer v)) (cf_Visitors f).
Proof.
  unfold DecodeClientConfigJSON.
  destruct (decodeJSONWithOptions _ _ _ _) as [raw|] eqn:Hraw; [|done].
  destruct (raw_config_ok _ _ _ Hraw) as (Hc & Hp & Hv).
  destruct (decode_each DecodeProxyConfigurerJSON _ _ _ _) as [ps|] eqn:Hps; [|done].
  destruct (decode_each DecodeVisitorConfigurerJSON _ _ _ _) as [vs|] eqn:Hvs; [|done].
  intros [= <-]. apply decode_each_inl in Hps, Hvs. cbn [cf_Common cf_Proxies cf_Visitors].
  split; [done|]. rewrite !Forall_fmap. split.
  - eapply Forall2_Forall_r; [exact Hps|]. eapply Forall_impl; [exact Hp|]. intros m Hm p Hd.
    apply DecodeProxy_typed in Hd; [|by apply coherent_raw]. split; [apply Hd|done].
  - eapply Forall2_Forall_r; [exact Hvs|]. eapply Forall_impl; [exact Hv|]. intros m Hm v Hd.
    apply DecodeVisitor_typed in Hd; [|by apply coherent_raw]. split; [apply Hd|done].
Qed.

(** C32. A decoded configurer has a normal form: whatever text it was read from (keys in
    another case or order, repeated or unknown members, spaces, escapes), the text it prints is
    decoded, strictly or not, to the same configurer. *)
Theorem decoded_configurer_normal_form (b : list byte) (options options' : DecodeOptions) :
  (∀ p, DecodeProxyConfigurerJSON (text_of_bytes b) options = inl p →
     DecodeProxyConfigurerJSON (text_of_bytes (TypedProxy_MarshalJSON (typed_proxy p))) options' = inl p) ∧
  (∀ v, DecodeVisitorConfigurerJSON (text_of_bytes b) options = inl v →
     DecodeVisitorConfigurerJSON (text_of_bytes (TypedVisitor_MarshalJSON (typed_visitor v))) options' = inl v).
Proof.
  split; intros c Hc.
  - apply DecodeProxy_typed in Hc; [|apply coherent_bytes]. by apply (proxy_print_decode c).
  - apply DecodeVisitor_typed in Hc; [|apply coherent_bytes]. by apply (visitor_print_decode c).
Qed.

(** In strict mode no key of the file is ignored: a file that decodes has, at its top level
    and in each of its proxies and visitors, only keys of the struct's tags (in any case). *)
Theorem strict_rejects_unknown_keys (b : list byte) (f : ClientFile) (j : json) :
  DecodeClientConfigJSON b strictly = inl f → parse_first b = Some j →
  match j with
  | JObj ms =>
      Forall (λ kv, is_Some (find_field fields_rawClientConfig kv.1)) ms ∧
      ∃ raws rawv, length raws = length (cf_Proxies f) ∧ length rawv = length (cf_Visitors f) ∧
        store c_rawClientConfig true (Some j) zero_rawClientConfig =
          inl (mkRaw (cf_Common f) raws rawv) ∧
        Forall (λ m, ∃ ms, m = JObj ms ∧
                  Forall (λ kv, is_Some (find_field fields_XTCPProxyConfig kv.1)) ms) raws ∧
        Forall (λ m, ∃ ms, m = JObj ms ∧
                  Forall (λ kv, is_Some (find_field fields_XTCPVisitorConfig kv.1)) ms) rawv
  | _ => j = JNull
  end.
Proof.
  unfold DecodeClientConfigJSON, decodeJSONWithOptions. cbn [DisallowUnknownFields strictly t_first text_of_bytes].
  intros Hf Hj. rewrite Hj in Hf.
  destruct (store c_rawClientConfig true (Some j) zero_rawClientConfig) as [raw|] eqn:Hraw; [|done].
  destruct (decode_each DecodeProxyConfigurerJSON _ _ _ _) as [ps|] eqn:Hps; [|done].
  destruct (decode_each DecodeVisitorConfigurerJSON _ _ _ _) as [vs|] eqn:Hvs; [|done].
  injection Hf as <-. apply decode_each_inl in Hps, Hvs.
  pose proof Hraw as Hraw'. apply store_inl in Hraw' as (? & [= <-] & Hd).
  cbn [c_dec c_rawClientConfig c_struct] in Hd.
  destruct j as [| | | | |ms]; try done. split; [exact (struct_dec_strict _ "v1.rawClientConfig" _ _ _ _ Hd)|].
  exists (raw_Proxies raw), (raw_Visitors raw). cbn [cf_Common cf_Proxies cf_Visitors].
  rewrite !length_fmap, (Forall2_length _ _ _ Hps), (Forall2_length _ _ _ Hvs).
  split; [done|]. split; [done|]. split; [by destruct raw|]. split.
  - eapply Forall2_Forall_l; [exact Hps|]. apply Forall_forall. intros x _ m. apply typed_keys_known.
  - eapply Forall2_Forall_l; [exact Hvs|]. apply Forall_forall. intros x _ m. apply typed_keys_known.
Qed.
Lemma strict_rejects_unknown_keys_witness :
  match DecodeClientConfigJSON sample_client strictly, parse_first sample_client with
  | inl f, Some (JObj ms) =>
      Forall (λ kv, is_Some (find_field fields_rawClientConfig kv.1)) ms ∧ length ms = 3%nat
  | _, _ => False
  end.
Proof.
  destruct (DecodeClientConfigJSON sample_client strictly) as [f|e] eqn:E; [|vm_compute in E; discriminate].
  destruct (parse_first sample_client) as [j|] eqn:Ej; [|vm_compute in Ej; discriminate].
  pose proof (strict_rejects_unknown_keys sample_client f j E Ej) as H.
  destruct j as [| | | | |ms]; try (vm_compute in Ej; discriminate).
  split; [exact (proj1 H)|]. vm_compute in Ej. injection Ej as <-. reflexivity.
Defined.

(** Strict mode reads one value and stops: what follows it in the file is ignored, while the
    lenient mode refuses such a file. *)
Theorem strict_ignores_trailing_data :
  let b := bytes_of "{} proxies" in
  DecodeClientConfigJSON b strictly = inl (mkClientFile zero_ClientCommonConfig [] []) ∧
  DecodeClientConfigJSON b leniently = inr (EJson JSyntaxError).
Proof. vm_compute. split; reflexivity. Qed.

Lemma decoded_configurer_normal_form_witness :
  let b := bytes_of ("{" +:+ squoted "Name" +:+ ":" +:+ squoted "a" +:+ "," +:+ squoted "x" +:+ ":[1],"
                     +:+ squoted "type" +:+ ":" +:+ squoted "xtcp" +:+ "," +:+ squoted "NAME" +:+ ":" +:+ squoted "b" +:+ "}") in
  match DecodeProxyConfigurerJSON (text_of_bytes b) leniently with
  | inl p => DecodeProxyConfigurerJSON (text_of_bytes (TypedProxy_MarshalJSON (typed_proxy p))) strictly = inl p
             ∧ pc_Name (GetBaseConfig p) = "b"
  | inr _ => False
  end.
Proof.
  set (b := bytes_of _). cbv zeta.
  destruct (DecodeProxyConfigurerJSON (text_of_bytes b) leniently) as [p|e] eqn:E; [|vm_compute in E; discriminate].
  split; [exact (proj1 (decoded_configurer_normal_form b leniently strictly) p E)|].
  vm_compute in E. injection E as <-. reflexivity.
Defined.
