(* ===== verification/Auth.v ===== *)
(** * Authentication: [pkg/util/util/util.go], [pkg/auth/*.go]

    The privilege key is [hex (md5 (token ++ decimal timestamp))]; [frpc] puts it
    into [Login], and into [Ping] and [NewWorkConn] when the scope asks for it,
    and [frps] recomputes it.  [Verifier] is the interface of the source as a
    class, with the token verifier and the always-passing one as instances. *)
From S2P Require Import Prelude GoStd Hash Msg ConfigV1.
From stdpp Require Import list.
Local Open Scope Z_scope.

(** ** [pkg/util/util] *)
Definition GetAuthKey (token : string) (timestamp : Z) : string :=
  hex_encode (md5 (bytes_of token ++ bytes_of (Itoa timestamp))).

(** [subtle.ConstantTimeCompare(a, b) == 1]: equal lengths and equal bytes,
    accumulated with xor and or over all positions. *)
Definition ct_diff (a b : list byte) : Z :=
  foldr (λ p acc, Z.lor (Z.lxor (Z_of_byte p.1) (Z_of_byte p.2)) acc) 0 (zip a b).
Definition ConstantTimeEqString (a b : string) : bool :=
  let x := bytes_of a in
  let y := bytes_of b in
  if decide (length x = length y) then bool_decide (ct_diff x y = 0) else false.

(** [RandIDWithLen]: hexadecimal text of the [idLen/2+1] random bytes [b]; the
    source of randomness is an argument. *)
Definition RandIDWithLen (rnd : nat → list byte) (idLen : nat) : string :=
  if decide (idLen = 0%nat) then ""
  else str_take idLen (hex_encode (rnd (Nat.div idLen 2 + 1)%nat)).
Definition RandID (rnd : nat → list byte) : string := RandIDWithLen rnd 16.

(** ** Interface of a verifier *)
Class Verifier (V : Type) := {
  VerifyLogin : V → Login → result unit;
  VerifyPing : V → Ping → result unit;
  VerifyNewWorkConn : V → NewWorkConn → result unit;
}.

Record TokenAuth := mkTokenAuth {
  ta_scopes : list AuthScope;
  ta_token : string;
}.
Definition NewTokenAuth (additionalAuthScopes : list AuthScope) (token : string) : TokenAuth :=
  mkTokenAuth additionalAuthScopes token.

Definition contains (l : list string) (s : string) : bool := bool_decide (s ∈ l).

Definition set_login_key (m : Login) (key : string) : Login :=
  mkLogin (lg_Version m) (lg_Hostname m) (lg_Os m) (lg_Arch m) (lg_User m) key (lg_Timestamp m)
    (lg_RunID m) (lg_ClientID m) (lg_Metas m) (lg_ClientSpec m) (lg_PoolCount m).

Definition SetLogin (a : TokenAuth) (m : Login) : Login :=
  set_login_key m (GetAuthKey (ta_token a) (lg_Timestamp m)).
(** [now] is [time.Now().Unix()]. *)
Definition SetPing (a : TokenAuth) (now : Z) (m : Ping) : Ping :=
  if contains (ta_scopes a) AuthScopeHeartBeats then mkPing (GetAuthKey (ta_token a) now) now
  else m.
Definition SetNewWorkConn (a : TokenAuth) (now : Z) (m : NewWorkConn) : NewWorkConn :=
  if contains (ta_scopes a) AuthScopeNewWorkConns
  then mkNewWorkConn (nw_RunID m) (GetAuthKey (ta_token a) now) now else m.

Definition token_VerifyLogin (a : TokenAuth) (m : Login) : result unit :=
  if ConstantTimeEqString (GetAuthKey (ta_token a) (lg_Timestamp m)) (lg_PrivilegeKey m)
  then Ok tt else Err "token in login doesn't match token from configuration".
Definition token_VerifyPing (a : TokenAuth) (m : Ping) : result unit :=
  if contains (ta_scopes a) AuthScopeHeartBeats then
    if ConstantTimeEqString (GetAuthKey (ta_token a) (pi_Timestamp m)) (pi_PrivilegeKey m)
    then Ok tt else Err "token in heartbeat doesn't match token from configuration"
  else Ok tt.
Definition token_VerifyNewWorkConn (a : TokenAuth) (m : NewWorkConn) : result unit :=
  if contains (ta_scopes a) AuthScopeNewWorkConns then
    if ConstantTimeEqString (GetAuthKey (ta_token a) (nw_Timestamp m)) (nw_PrivilegeKey m)
    then Ok tt else Err "token in NewWorkConn doesn't match token from configuration"
  else Ok tt.

#[export] Instance TokenAuth_Verifier : Verifier TokenAuth := {
  VerifyLogin := token_VerifyLogin;
  VerifyPing := token_VerifyPing;
  VerifyNewWorkConn := token_VerifyNewWorkConn;
}.

Inductive alwaysPass : Type := AlwaysPassVerifier.
#[export] Instance alwaysPass_Verifier : Verifier alwaysPass := {
  VerifyLogin := λ _ _, Ok tt;
  VerifyPing := λ _ _, Ok tt;
  VerifyNewWorkConn := λ _ _, Ok tt;
}.

(** A value of the interface type: either implementation. *)
Inductive AnyVerifier : Type := VToken (a : TokenAuth) | VPass (p : alwaysPass).
#[export] Instance AnyVerifier_Verifier : Verifier AnyVerifier := {
  VerifyLogin v := match v with VToken a => VerifyLogin a | VPass p => VerifyLogin p end;
  VerifyPing v := match v with VToken a => VerifyPing a | VPass p => VerifyPing p end;
  VerifyNewWorkConn v :=
    match v with VToken a => VerifyNewWorkConn a | VPass p => VerifyNewWorkConn p end;
}.

(** ** Building the two sides from their configuration *)
Record ClientAuth := mkClientAuth { ca_Setter : TokenAuth; ca_key : list byte }.
Record ServerAuth := mkServerAuth { sa_Verifier : TokenAuth; sa_key : list byte }.

Definition NewAuthSetter (cfg : AuthClientConfig) : result TokenAuth :=
  if bool_decide (ac_Method cfg = AuthMethodToken)
  then Ok (NewTokenAuth (ac_AdditionalScopes cfg) (ac_Token cfg))
  else Err ("unsupported auth method: " +:+ ac_Method cfg).
Definition NewAuthVerifier (cfg : AuthServerConfig) : TokenAuth :=
  NewTokenAuth (as_AdditionalScopes cfg) (as_Token cfg).

Section build.
Context `{OS}.
Definition resolve_token (method : AuthMethod) (token : string) (src : option ValueSource)
    : result string :=
  match src with
  | Some v =>
      if bool_decide (method = AuthMethodToken) then
        wrap_err "failed to resolve auth.tokenSource: " (ValueSource_Resolve (Some v))
      else Ok token
  | None => Ok token
  end.

Definition BuildClientAuth (cfg : option AuthClientConfig) : result ClientAuth :=
  match cfg with
  | None => Err "auth config is nil"
  | Some cfg =>
      resolve_token (ac_Method cfg) (ac_Token cfg) (ac_TokenSource cfg) ≫= λ token,
      let resolved := mkAuthClientConfig (ac_Method cfg) (ac_AdditionalScopes cfg) token
                        (ac_TokenSource cfg) in
      NewAuthSetter resolved ≫= λ setter,
      Ok (mkClientAuth setter (bytes_of token))
  end.

Definition BuildServerAuth (cfg : option AuthServerConfig) : result ServerAuth :=
  match cfg with
  | None => Err "auth config is nil"
  | Some cfg =>
      resolve_token (as_Method cfg) (as_Token cfg) (as_TokenSource cfg) ≫= λ token,
      let resolved := mkAuthServerConfig (as_Method cfg) (as_AdditionalScopes cfg) token
                        (as_TokenSource cfg) in
      Ok (mkServerAuth (NewAuthVerifier resolved) (bytes_of token))
  end.
End build.

(** A file system with one token file, for the witnesses. *)
Definition demo_os : OS :=
  {| ReadFile p := if decide (p = "/etc/token") then Ok " secret " else Err "no such file";
     CommandOutput _ _ _ := Err "exec disabled"; Getenv _ := ""; Environ := [] |}.

(** ** Lemmas *)
Lemma ct_diff_nonneg a b : 0 ≤ ct_diff a b.
Proof.
  unfold ct_diff. induction (zip a b) as [|[x y] l IH]; [done|]. simpl.
  apply Z.lor_nonneg. split; [|done]. apply Z.lxor_nonneg.
  pose proof (Z_of_byte_range x). pose proof (Z_of_byte_range y). lia.
Qed.

Lemma ct_diff_0 a b : length a = length b → ct_diff a b = 0 ↔ a = b.
Proof.
  revert b. induction a as [|x a IH]; intros [|y b]; try done.
  intros [=Hlen]. unfold ct_diff. simpl.
  change (foldr _ 0 (zip a b)) with (ct_diff a b).
  rewrite Z.lor_eq_0_iff, Z.lxor_eq_0_iff, IH by done. split; [|naive_solver].
  intros [Hx ->]. f_equal. by rewrite <-(byte_of_Z_of_byte x), Hx, byte_of_Z_of_byte.
Qed.

(** The constant-time comparison is string equality. *)
Lemma ConstantTimeEqString_spec a b : ConstantTimeEqString a b = bool_decide (a = b).
Proof.
  unfold ConstantTimeEqString. case_decide as Hlen.
  - apply bool_decide_ext. rewrite ct_diff_0 by done. split; [apply bytes_of_inj|congruence].
  - rewrite bool_decide_eq_false_2; [done|]. congruence.
Qed.

Lemma contains_spec l s : contains l s = true ↔ s ∈ l.
Proof. apply bool_decide_eq_true. Qed.

(** ** Theorems *)

(** C14. Token authentication of a login: the server accepts a login message, whoever
    made it, exactly when the key in it is the one of the server's token and the
    login's timestamp.  So a client with the same token is always accepted, for
    every login and timestamp; and if a login that was keyed with token [t1] is
    accepted under token [t2], the two MD5 inputs have the same digest: equal
    inputs or an MD5 collision. *)
Theorem login_auth_correct (c s : TokenAuth) (m : Login) :
  (VerifyLogin s m = Ok tt ↔ lg_PrivilegeKey m = GetAuthKey (ta_token s) (lg_Timestamp m))
  ∧ (ta_token c = ta_token s → VerifyLogin s (SetLogin c m) = Ok tt)
  ∧ (VerifyLogin s (SetLogin c m) = Ok tt →
       md5 (bytes_of (ta_token c) ++ bytes_of (Itoa (lg_Timestamp m)))
       = md5 (bytes_of (ta_token s) ++ bytes_of (Itoa (lg_Timestamp m)))).
Proof.
  simpl. unfold token_VerifyLogin. rewrite !ConstantTimeEqString_spec. simpl. unfold GetAuthKey.
  split; [|split].
  - case_bool_decide; naive_solver.
  - intros ->. by rewrite bool_decide_eq_true_2.
  - case_bool_decide as Heq; [|done]. intros _. symmetry. by apply hex_encode_inj.
Qed.

(** Scope gating of heartbeats and work connections: for a server and a
    client with the same token, the server accepts every [Ping] and [NewWorkConn]
    the client sets up, provided the client has the scopes the server checks; a
    server without a scope accepts any message of that kind; and a server with it
    rejects every message whose key is not the one for its timestamp. *)
Theorem scoped_auth_correct (c s : TokenAuth) (now : Z) (p : Ping) (w : NewWorkConn) :
  ta_token c = ta_token s →
  (∀ scope, scope ∈ ta_scopes s → scope ∈ ta_scopes c) →
  VerifyPing s (SetPing c now p) = Ok tt
  ∧ VerifyNewWorkConn s (SetNewWorkConn c now w) = Ok tt
  ∧ (VerifyPing s p = Ok tt ↔ (AuthScopeHeartBeats ∈ ta_scopes s →
        pi_PrivilegeKey p = GetAuthKey (ta_token s) (pi_Timestamp p)))
  ∧ (VerifyNewWorkConn s w = Ok tt ↔ (AuthScopeNewWorkConns ∈ ta_scopes s →
        nw_PrivilegeKey w = GetAuthKey (ta_token s) (nw_Timestamp w))).
Proof.
  intros Ht Hs. simpl.
  unfold token_VerifyPing, token_VerifyNewWorkConn, SetPing, SetNewWorkConn.
  rewrite !ConstantTimeEqString_spec. unfold contains.
  split; [|split; [|split]].
  - destruct (decide (AuthScopeHeartBeats ∈ ta_scopes s)) as [Hin|Hin].
    + rewrite !bool_decide_eq_true_2 by (first [done|by apply Hs|by rewrite bool_decide_eq_true_2 by (by apply Hs); simpl; rewrite Ht]).
      done.
    + by rewrite (bool_decide_eq_false_2 (_ ∈ ta_scopes s)).
  - destruct (decide (AuthScopeNewWorkConns ∈ ta_scopes s)) as [Hin|Hin].
    + rewrite !bool_decide_eq_true_2 by (first [done|by apply Hs|by rewrite bool_decide_eq_true_2 by (by apply Hs); simpl; rewrite Ht]).
      done.
    + by rewrite (bool_decide_eq_false_2 (_ ∈ ta_scopes s)).
  - repeat case_bool_decide; naive_solver.
  - repeat case_bool_decide; naive_solver.
Qed.

Lemma scoped_auth_correct_witness :
  VerifyPing (mkTokenAuth ["HeartBeats"] "t")
    (SetPing (mkTokenAuth ["HeartBeats"] "t") 1700000000 (mkPing "" 0)) = Ok tt.
Proof.
  refine (proj1 (scoped_auth_correct (mkTokenAuth ["HeartBeats"] "t")
    (mkTokenAuth ["HeartBeats"] "t") 1700000000 (mkPing "" 0) (mkNewWorkConn "r" "" 0) _ _)).
  - reflexivity.
  - intros scope Hscope. exact Hscope.
Defined.

(** Both ends derive the same secret from the same configuration: when the
    client and the server are configured with the token method, the same token
    and the same token source, [BuildClientAuth] and [BuildServerAuth] either both
    fail with the same error or give the same encryption key, and the server
    accepts the client's login. *)
Theorem build_auth_agree `{OS} (cc : AuthClientConfig) (sc : AuthServerConfig) (m : Login) :
  ac_Method cc = AuthMethodToken → as_Method sc = AuthMethodToken →
  ac_Token cc = as_Token sc → ac_TokenSource cc = as_TokenSource sc →
  match BuildClientAuth (Some cc), BuildServerAuth (Some sc) with
  | Ok ca, Ok sa =>
      ca_key ca = sa_key sa ∧ VerifyLogin (sa_Verifier sa) (SetLogin (ca_Setter ca) m) = Ok tt
  | Err e1, Err e2 => e1 = e2
  | _, _ => False
  end.
Proof.
  intros Hm Hsm Ht Hts. unfold BuildClientAuth, BuildServerAuth, NewAuthSetter.
  rewrite Hm, Hsm, Ht, Hts. destruct (resolve_token _ _ _) as [tok|e]; simpl; [|done].
  split; [done|]. unfold token_VerifyLogin. rewrite ConstantTimeEqString_spec.
  by rewrite bool_decide_eq_true_2.
Qed.

Lemma build_auth_agree_witness :
  match @BuildClientAuth demo_os (Some (mkAuthClientConfig "token" [] ""
          (Some (mkValueSource "file" (Some (mkFileSource "/etc/token")) None)))),
        @BuildServerAuth demo_os (Some (mkAuthServerConfig "token" [] ""
          (Some (mkValueSource "file" (Some (mkFileSource "/etc/token")) None)))) with
  | Ok ca, Ok sa => ca_key ca = sa_key sa ∧ ca_key ca = bytes_of "secret"
  | _, _ => False
  end.
Proof.
  pose proof (@build_auth_agree demo_os
    (mkAuthClientConfig "token" [] ""
          (Some (mkValueSource "file" (Some (mkFileSource "/etc/token")) None)))
    (mkAuthServerConfig "token" [] ""
          (Some (mkValueSource "file" (Some (mkFileSource "/etc/token")) None)))
    (mkLogin "" "" "" "" "" "" 0 "" "" ∅ (mkClientSpec "" false) 0)
    eq_refl eq_refl eq_refl eq_refl) as Hagree.
  vm_compute in Hagree |- *. destruct Hagree as [Hk _]. split; [exact Hk|reflexivity].
Defined.
