(* ===== verification/Validation.v ===== *)
(** * Validation: [pkg/config/v1/validation/*.go], [pkg/policy/security/unsafe.go]

    A joined error ([errors.Join]) is the list of its messages, [[]] being nil:
    [AppendError] concatenates, and [error_text] is [Error()].  The Unicode tables
    and the name check of the Kubernetes library are the class [Text]; the file
    system is the class [Dirs]. *)
From S2P Require Import Prelude GoStd Hash Msg ConfigV1 Auth.
From stdpp Require Import list.
Local Open Scope Z_scope.

Notation errs := (list string).
Definition AppendError (err : errs) (es : list errs) : errs :=
  match es with [] => err | _ => err ++ concat es end.
Definition newline : string := String (Ascii.ascii_of_nat 10) "".
Definition error_text (e : errs) : string := join_str newline e.

(** [unicode.IsPrint] beyond ASCII, [strings.ToLower], and the Kubernetes
    library's [validation.IsQualifiedName] (its complaints about a name). *)
Class Text := {
  IsPrintNonASCII : Z → bool;
  ToLower : string → string;
  IsQualifiedName : string → list string;
}.
Class Dirs := {
  AbsDir : string → result string;  (* filepath.Abs (filepath.Dir f) *)
  IsNotExist : string → bool;       (* os.IsNotExist after os.Stat *)
}.

Definition SupportedTransportProtocols : list string := ["tcp"].
Definition SupportedWireProtocols : list string := ["v1"; "v2"].
Definition SupportedAuthMethods : list AuthMethod := ["token"].
Definition SupportedAuthAdditionalScopes : list AuthScope := ["HeartBeats"; "NewWorkConns"].
Definition SupportedLogLevels : list string := ["trace"; "debug"; "info"; "warn"; "error"].

(** ** Unsafe features *)
Definition TokenSourceExec : string := "TokenSourceExec".
Definition UnsafeFeatures : Type := gset string.
Definition NewUnsafeFeatures (allowed : list string) : UnsafeFeatures := list_to_set allowed.
Definition IsEnabled (u : option UnsafeFeatures) (feature : string) : bool :=
  match u with None => false | Some f => bool_decide (feature ∈ f) end.

(** A [ConfigValidator] is its set of unsafe features. *)
Definition ConfigValidator : Type := option UnsafeFeatures.
Definition ValidateUnsafeFeature (v : ConfigValidator) (feature : string) : errs :=
  if IsEnabled v feature then []
  else ["unsafe feature " +:+ squoted feature +:+ " is not enabled. " +:+
        "To enable it, ensure it is allowed in the configuration or command line flags"].

Definition validateAuthTokenSource (v : ConfigValidator) (token : string)
    (tokenSource : option ValueSource) : errs :=
  let errs0 : errs :=
    if negb (bool_decide (token = "")) && bool_decide (tokenSource ≠ None)
    then AppendError [] [["cannot specify both auth.token and auth.tokenSource"]] else [] in
  match tokenSource with
  | None => errs0
  | Some ts =>
      let errs1 :=
        if bool_decide (vs_Type ts = "exec") then
          match ValidateUnsafeFeature v TokenSourceExec with
          | [] => errs0
          | e => AppendError errs0 [e]
          end
        else errs0 in
      match ValueSource_Validate (Some ts) with
      | Ok _ => errs1
      | Err e => AppendError errs1 [["invalid auth.tokenSource: " +:+ e]]
      end
  end.

(** ** Ports, log, identifiers *)
Definition ValidatePort (port : Z) (fieldPath : string) : errs :=
  if (0 <=? port) && (port <=? 65535) then []
  else [fieldPath +:+ ": port number " +:+ Itoa port +:+ " must be in the range 0..65535"].

Definition validateLogConfig (c : LogConfig) : errs :=
  if contains SupportedLogLevels (log_Level c) then []
  else ["invalid log level, optional values are " +:+ fmt_slice SupportedLogLevels].

Definition MaxRunIDLength : nat := 64.

Section text.
Context `{Text}.
Definition IsPrint (r : Z) : bool :=
  if r <? 128 then (32 <=? r) && (r <=? 126) else IsPrintNonASCII r.

Definition validateIdentifier (value kind : string) (maxLength : nat) : result unit :=
  if bool_decide (value = "") then Err (kind +:+ " cannot be empty")
  else if (maxLength <? String.length value)%nat then
    Err (kind +:+ " is too long: length " +:+ Itoa (Z.of_nat (String.length value))
         +:+ " exceeds maximum " +:+ Itoa (Z.of_nat maxLength))
  else match runes value with
       | None => Err (kind +:+ " must be valid UTF-8")
       | Some rs => if forallb IsPrint rs then Ok tt
                    else Err (kind +:+ " contains non-printable character")
       end.
Definition ValidateRunID (runID : string) : result unit :=
  validateIdentifier runID "run id" MaxRunIDLength.

(** ** Proxies and visitors *)
Definition TotalAnnotationSizeLimitB : Z := 256 * 1024.
Definition annotations_size (annotations : gmap string string) : Z :=
  map_fold (λ k v acc, (acc +₆₄ (Z.of_nat (String.length k) + Z.of_nat (String.length v)))%go)
    0 annotations.
Definition ValidateAnnotationsSize (annotations : gmap string string) : errs :=
  let totalSize := annotations_size annotations in
  if TotalAnnotationSizeLimitB <? totalSize then
    ["annotations size " +:+ Itoa totalSize +:+ " is larger than limit "
     +:+ Itoa TotalAnnotationSizeLimitB]
  else [].
(** The keys are visited in some order; the model visits them in the order of
    [map_to_list]. *)
Definition ValidateAnnotations (annotations : gmap string string) : errs :=
  if bool_decide (annotations = ∅) then []
  else
    let es := kv ← map_to_list annotations;
              m ← IsQualifiedName (ToLower kv.1);
              ["annotation key " +:+ kv.1 +:+ " is invalid: " +:+ m] in
    match ValidateAnnotationsSize annotations with
    | [] => es
    | e => AppendError es [e]
    end.

(** A joined error as a Go [error] value. *)
Definition as_result (e : errs) : result unit :=
  match e with [] => Ok tt | _ => Err (error_text e) end.

Definition validateProxyBaseConfigForClient (c : ProxyBaseConfig) : result unit :=
  if bool_decide (pc_Name c = "") then Err "name should not be empty"
  else
    as_result (ValidateAnnotations (pc_Annotations c)) ≫= λ _,
    wrap_err "localPort: " (as_result (ValidatePort (pb_LocalPort (pc_Backend c)) "localPort")).
Definition validateProxyBaseConfigForServer (c : ProxyBaseConfig) : result unit :=
  as_result (ValidateAnnotations (pc_Annotations c)).

Definition ValidateProxyConfigurerForClient (c : ProxyConfigurer) : result unit :=
  validateProxyBaseConfigForClient (GetBaseConfig c) ≫= λ _, match c with PC_XTCP _ => Ok tt end.
Definition ValidateProxyConfigurerForServer (c : ProxyConfigurer) : result unit :=
  validateProxyBaseConfigForServer (GetBaseConfig c) ≫= λ _, match c with PC_XTCP _ => Ok tt end.

Definition validateVisitorBaseConfig (c : VisitorBaseConfig) : result unit :=
  if bool_decide (vb_Name c = "") then Err "name is required"
  else if bool_decide (vb_ServerName c = "") then Err "server name is required"
  else if vb_BindPort c =? 0 then Err "bind port is required"
  else Ok tt.
Definition validateXTCPVisitorConfig (c : XTCPVisitorConfig) : result unit :=
  if contains ["kcp"; "quic"] (xv_Protocol c) then Ok tt
  else Err "protocol should be kcp or quic".
Definition ValidateVisitorConfigurer (c : VisitorConfigurer) : result unit :=
  validateVisitorBaseConfig (Visitor_GetBaseConfig c) ≫= λ _,
  match c with VC_XTCP v => validateXTCPVisitorConfig v end.

(** ** Whole configurations: warnings and errors *)
Definition validateAuthConfig (v : ConfigValidator) (c : AuthClientConfig) : errs * errs :=
  let e0 := if contains SupportedAuthMethods (ac_Method c) then []
            else ["invalid auth method, optional values are " +:+ fmt_slice SupportedAuthMethods] in
  let e1 := if forallb (contains SupportedAuthAdditionalScopes) (ac_AdditionalScopes c) then e0
            else AppendError e0 [["invalid auth additional scopes, optional values are "
                                  +:+ fmt_slice SupportedAuthAdditionalScopes]] in
  ([], AppendError e1 [validateAuthTokenSource v (ac_Token c) (ac_TokenSource c)]).

Definition validateTransportConfig (c : ClientTransportConfig) : errs * errs :=
  let e0 : errs :=
    if (0 <? ct_HeartbeatTimeout c) && (0 <? ct_HeartbeatInterval c)
       && (ct_HeartbeatTimeout c <? ct_HeartbeatInterval c)
    then ["invalid transport.heartbeatTimeout, heartbeat timeout should not less than heartbeat interval"]
    else [] in
  let check name value : errs :=
    if bool_decide (value = "") then [] else [name +:+ " is invalid when transport.tls.enable is false"] in
  let tls := tc_TLSConfig (ct_TLS c) in
  let w := if from_ptr (tc_Enable (ct_TLS c)) then []
           else AppendError (AppendError (AppendError []
                  [check "transport.tls.certFile" (tls_CertFile tls)])
                  [check "transport.tls.keyFile" (tls_KeyFile tls)])
                  [check "transport.tls.trustedCaFile" (tls_TrustedCaFile tls)] in
  let e1 := if contains SupportedTransportProtocols (ct_Protocol c) then e0
            else AppendError e0 [["invalid transport.protocol, optional values are "
                                  +:+ fmt_slice SupportedTransportProtocols]] in
  let e2 := if contains SupportedWireProtocols (ct_WireProtocol c) then e1
            else AppendError e1 [["invalid transport.wireProtocol, optional values are "
                                  +:+ fmt_slice SupportedWireProtocols]] in
  (w, e2).

Context `{Dirs}.
Definition validateIncludeFiles (files : list string) : errs * errs :=
  ([], f ← files;
       match AbsDir f with
       | Err e => ["include: parse directory of " +:+ f +:+ " failed: " +:+ e]
       | Ok absDir => if IsNotExist absDir then ["include: directory of " +:+ f +:+ " not exist"]
                      else []
       end).

Definition ValidateClientCommonConfig (v : ConfigValidator) (c : ClientCommonConfig) : errs * errs :=
  foldl (λ acc we, (AppendError acc.1 [we.1], AppendError acc.2 [we.2])) ([], [])
    [validateAuthConfig v (cc_Auth c); ([], validateLogConfig (cc_Log c));
     validateTransportConfig (cc_Transport c); validateIncludeFiles (cc_IncludeConfigFiles c)].

(** The two loops of [ValidateAllClientConfig]. *)
Fixpoint validate_proxies (proxyCfgs : list ProxyConfigurer) : result unit :=
  match proxyCfgs with
  | [] => Ok tt
  | c :: cs =>
      wrap_err ("proxy " +:+ pc_Name (GetBaseConfig c) +:+ ": ") (ValidateProxyConfigurerForClient c)
      ≫= λ _, validate_proxies cs
  end.
Fixpoint validate_visitors (visitorCfgs : list VisitorConfigurer) : result unit :=
  match visitorCfgs with
  | [] => Ok tt
  | c :: cs =>
      wrap_err ("visitor " +:+ vb_Name (Visitor_GetBaseConfig c) +:+ ": ") (ValidateVisitorConfigurer c)
      ≫= λ _, validate_visitors cs
  end.
Definition ValidateAllClientConfig (c : option ClientCommonConfig) (proxyCfgs : list ProxyConfigurer)
    (visitorCfgs : list VisitorConfigurer) (unsafe : ConfigValidator) : errs * result unit :=
  let '(warnings, e) := match c with
                        | Some c => ValidateClientCommonConfig unsafe c
                        | None => ([], [])
                        end in
  (warnings,
   as_result e ≫= λ _, validate_proxies proxyCfgs ≫= λ _, validate_visitors visitorCfgs).

Definition ValidateServerConfig (v : ConfigValidator) (c : ServerConfig) : errs * errs :=
  let e0 := if contains SupportedAuthMethods (as_Method (sc_Auth c)) then []
            else ["invalid auth method, optional values are " +:+ fmt_slice SupportedAuthMethods] in
  let e1 := if forallb (contains SupportedAuthAdditionalScopes) (as_AdditionalScopes (sc_Auth c)) then e0
            else AppendError e0 [["invalid auth additional scopes, optional values are "
                                  +:+ fmt_slice SupportedAuthAdditionalScopes]] in
  let e2 := AppendError e1 [validateAuthTokenSource v (as_Token (sc_Auth c)) (as_TokenSource (sc_Auth c))] in
  let e3 := match validateLogConfig (sc_Log c) with [] => e2 | e => AppendError e2 [e] end in
  let e4 := AppendError e3 [ValidatePort (sc_BindPort c) "bindPort"] in
  let e5 := if st_MaxPoolCount (sc_Transport c) <? 0
            then AppendError e4 [["invalid transport.maxPoolCount, must be non-negative"]] else e4 in
  ([], e5).
End text.

(** ** Lemmas *)
Lemma AppendError_nil e1 es : AppendError e1 es = [] ↔ e1 = [] ∧ Forall (λ e, e = []) es.
Proof.
  destruct es as [|e es]; simpl; [split; [intros ->; by split|by intros [-> _]]|].
  rewrite app_nil, Forall_cons.
  assert (Hc : ∀ l : list errs, concat l = [] ↔ Forall (λ e, e = []) l).
  { induction l as [|x l IH]; simpl; [by split|]. rewrite app_nil, Forall_cons, IH. done. }
  rewrite <-Hc. change (concat (e :: es)) with (e ++ concat es). rewrite app_nil. tauto.
Qed.

Lemma as_result_Ok e : as_result e = Ok tt ↔ e = [].
Proof. by destruct e. Qed.

Lemma validate_proxies_Ok `{Text} cs :
  validate_proxies cs = Ok tt ↔ Forall (λ c, ValidateProxyConfigurerForClient c = Ok tt) cs.
Proof.
  induction cs as [|c cs IH]; simpl; [by split|].
  rewrite result_bind_Ok, Forall_cons, <-IH. setoid_rewrite wrap_err_Ok.
  split; [intros ([] & ? & ?); auto|intros [? ?]; by exists tt].
Qed.

Lemma validate_visitors_Ok cs :
  validate_visitors cs = Ok tt ↔ Forall (λ c, ValidateVisitorConfigurer c = Ok tt) cs.
Proof.
  induction cs as [|c cs IH]; simpl; [by split|].
  rewrite result_bind_Ok, Forall_cons, <-IH. setoid_rewrite wrap_err_Ok.
  split; [intros ([] & ? & ?); auto|intros [? ?]; by exists tt].
Qed.

Lemma validateAuthTokenSource_nil v token ts :
  validateAuthTokenSource v token ts = [] ↔
  (token = "" ∨ ts = None) ∧
  ∀ t, ts = Some t → (vs_Type t = "exec" → IsEnabled v TokenSourceExec = true)
                     ∧ ValueSource_Validate (Some t) = Ok tt.
Proof.
  unfold validateAuthTokenSource, ValidateUnsafeFeature. destruct ts as [t|].
  - rewrite (bool_decide_eq_true_2 (Some t ≠ None)) by done. rewrite andb_true_r.
    destruct (ValueSource_Validate (Some t)) as [[]|e] eqn:Ht.
    + repeat case_bool_decide; simpl; destruct (IsEnabled v TokenSourceExec); simpl; naive_solver.
    + split; [|intros [_ H]; destruct (H t eq_refl) as [_ ?]; congruence].
      rewrite AppendError_nil, Forall_singleton. by intros [_ ?].
  - rewrite (bool_decide_eq_false_2 (None ≠ None)) by naive_solver. rewrite andb_false_r. naive_solver.
Qed.

Lemma forallb_contains l sup : forallb (contains sup) l = true ↔ ∀ s, s ∈ l → s ∈ sup.
Proof.
  rewrite forallb_forall. setoid_rewrite contains_spec.
  split; intros H s Hs; apply H; by apply list_elem_of_In.
Qed.

(** A chain of checks is empty iff every check passed. *)
Lemma check_nil (b : bool) (m : errs) : m ≠ [] → (if b then [] else m) = [] ↔ b = true.
Proof. destruct b; naive_solver. Qed.
Lemma check_app_nil (b : bool) (e m : errs) :
  m ≠ [] → (if b then e else AppendError e [m]) = [] ↔ e = [] ∧ b = true.
Proof. intros. destruct b; rewrite ?AppendError_nil, ?Forall_singleton; naive_solver. Qed.

Lemma validateAuthConfig_nil v c :
  (validateAuthConfig v c).2 = [] ↔
  ac_Method c ∈ SupportedAuthMethods
  ∧ (∀ s, s ∈ ac_AdditionalScopes c → s ∈ SupportedAuthAdditionalScopes)
  ∧ validateAuthTokenSource v (ac_Token c) (ac_TokenSource c) = [].
Proof.
  unfold validateAuthConfig. cbn [snd]. rewrite AppendError_nil, Forall_singleton.
  rewrite check_app_nil, check_nil, contains_spec, forallb_contains by done. tauto.
Qed.

Lemma validateTransportConfig_nil c :
  (validateTransportConfig c).2 = [] ↔
  (0 < ct_HeartbeatTimeout c → 0 < ct_HeartbeatInterval c →
     ct_HeartbeatInterval c ≤ ct_HeartbeatTimeout c)
  ∧ ct_Protocol c ∈ SupportedTransportProtocols ∧ ct_WireProtocol c ∈ SupportedWireProtocols.
Proof.
  unfold validateTransportConfig. cbn [snd]. rewrite !check_app_nil, !contains_spec by done.
  destruct (Z.ltb_spec 0 (ct_HeartbeatTimeout c)), (Z.ltb_spec 0 (ct_HeartbeatInterval c)),
    (Z.ltb_spec (ct_HeartbeatTimeout c) (ct_HeartbeatInterval c)); simpl; naive_solver lia.
Qed.

Lemma validateLogConfig_nil c : validateLogConfig c = [] ↔ log_Level c ∈ SupportedLogLevels.
Proof. unfold validateLogConfig. by rewrite check_nil, contains_spec. Qed.

Lemma validateIncludeFiles_nil `{Dirs} files :
  (validateIncludeFiles files).2 = [] ↔
  ∀ f, f ∈ files → ∃ d, AbsDir f = Ok d ∧ IsNotExist d = false.
Proof.
  unfold validateIncludeFiles. cbn [snd]. induction files as [|f files IH]; [set_solver|].
  cbn [mbind list_bind]. rewrite app_nil, IH. setoid_rewrite elem_of_cons.
  destruct (AbsDir f) as [d|e] eqn:Hf.
  - destruct (IsNotExist d) eqn:Hd; [|naive_solver].
    split; [by intros [? _]|]. intros H'. destruct (H' f) as (? & ? & ?); [by left|]. congruence.
  - split; [by intros [? _]|]. intros H'. destruct (H' f) as (? & ? & ?); [by left|]. congruence.
Qed.

(** ** Lemmas: bytes of a valid text *)
Lemma decode_rune_bytes l r n :
  decode_rune l = Some (r, n) →
  (1 ≤ n)%nat ∧ Forall (λ b, Z_of_byte b < 128 → r = Z_of_byte b) (take n l).
Proof.
  unfold decode_rune, is_cont. destruct l as [|b0 l]; [done|]. cbn [fmap list_fmap]. cbv zeta.
  pose proof (Z_of_byte_range b0).
  destruct (Z.ltb_spec (Z_of_byte b0) 128).
  - intros [= <- <-]. split; [lia|]. by repeat constructor.
  - repeat case_match; intros; simplify_eq; (split; [lia|]);
      repeat match goal with H : (_ && _)%bool = true |- _ => apply andb_true_iff in H as [??] end;
      zify_bool;
      repeat match goal with
        | H : list_fmap _ _ _ ?k = _ :: _ |- _ => destruct k; simpl in H; simplify_eq
        | H : _ <$> ?k = _ :: _ |- _ => destruct k; simpl in H; simplify_eq
        end;
      cbn [take]; rewrite ?take_0;
      repeat first [apply Forall_nil; exact I | apply Forall_cons; split]; intros; lia.
Qed.

Lemma runes_loop_bytes fuel l rs :
  runes_loop fuel l = Some rs → Forall (λ b, Z_of_byte b < 128 → Z_of_byte b ∈ rs) l.
Proof.
  revert l rs. induction fuel as [|fuel IH]; intros l rs H;
    (destruct l as [|b l]; [constructor|]); simpl in H; [done|].
  destruct (decode_rune (b :: l)) as [[r n]|] eqn:Hd; [|done].
  apply decode_rune_bytes in Hd as [Hn Htake].
  destruct (runes_loop fuel (drop n (b :: l))) as [rs'|] eqn:Hr; simplify_eq/=.
  rewrite <-(take_drop n (b :: l)). apply Forall_app. split.
  - eapply Forall_impl; [exact Htake|]. simpl. intros c Hc ?. rewrite <-Hc by done. left.
  - eapply Forall_impl; [by apply IH|]. simpl. intros c Hc ?. right. auto.
Qed.

(** ** Lemmas: generated run ids *)
Lemma hex_digit_byte x : 0 ≤ x < 16 →
  48 ≤ Z_of_byte (Ascii.byte_of_ascii (hex_digit x)) ≤ 102.
Proof.
  intros Hx. assert (x = 0 ∨ x = 1 ∨ x = 2 ∨ x = 3 ∨ x = 4 ∨ x = 5 ∨ x = 6 ∨ x = 7 ∨ x = 8
    ∨ x = 9 ∨ x = 10 ∨ x = 11 ∨ x = 12 ∨ x = 13 ∨ x = 14 ∨ x = 15) as Hc by lia.
  by repeat destruct Hc as [->|Hc]; [..|subst].
Qed.

Lemma hex_encode_bytes l : Forall (λ b, 48 ≤ Z_of_byte b ≤ 102) (bytes_of (hex_encode l)).
Proof.
  induction l as [|b l IH]; simpl; [constructor|]. rewrite !bytes_of_cons.
  pose proof (Z_of_byte_range b).
  repeat (apply Forall_cons; split); [apply hex_digit_byte; lia..|done].
Qed.

Lemma bytes_of_str_take n s : bytes_of (str_take n s) = take n (bytes_of s).
Proof.
  revert n. induction s as [|c s IH]; intros [|n]; [done..|].
  cbn [str_take]. rewrite !bytes_of_cons. cbn [take]. by rewrite IH.
Qed.

(** ** Theorems *)

(** Run ids are safe to log and to index with: an accepted run id is not empty,
    has at most 64 bytes, is valid UTF-8 of printable characters, and contains no
    ASCII control byte (so it cannot forge a log line); and every run id the server
    generates itself is accepted. *)
Theorem run_id_safe `{Text} (runID : string) (rnd : nat → list byte) :
  (ValidateRunID runID = Ok tt →
     runID ≠ "" ∧ (String.length runID ≤ 64)%nat ∧
     (∃ rs, runes runID = Some rs ∧ Forall (λ r, IsPrint r = true) rs) ∧
     Forall (λ b, 32 ≤ Z_of_byte b ∧ Z_of_byte b ≠ 127) (bytes_of runID))
  ∧ (length (rnd 9%nat) = 9%nat → ValidateRunID (RandID rnd) = Ok tt).
Proof.
  unfold ValidateRunID, validateIdentifier. split.
  - case_bool_decide as Hne; [done|]. destruct (Nat.ltb_spec MaxRunIDLength (String.length runID)); [done|].
    destruct (runes runID) as [rs|] eqn:Hrs; [|done]. destruct (forallb IsPrint rs) eqn:Hp; [|done].
    intros _. split; [done|]. split; [by unfold MaxRunIDLength in *|].
    rewrite forallb_forall in Hp.
    split; [exists rs; split; [done|]; apply Forall_forall; intros; apply Hp; by apply list_elem_of_In|].
    apply runes_loop_bytes in Hrs. eapply Forall_impl; [exact Hrs|]. simpl. intros b Hb.
    destruct (Z_lt_le_dec (Z_of_byte b) 128) as [Hlt|]; [|lia].
    specialize (Hp (Z_of_byte b) (proj1 (list_elem_of_In _ _) (Hb Hlt))). unfold IsPrint in Hp.
    destruct (Z.ltb_spec (Z_of_byte b) 128); [|lia].
    apply andb_true_iff in Hp as [??]. zify_bool. lia.
  - intros Hlen. unfold RandID, RandIDWithLen. rewrite decide_False by done.
    change (Nat.div 16 2 + 1)%nat with 9%nat.
    set (s := str_take 16 (hex_encode (rnd 9%nat))).
    assert (Hb : Forall (λ b, 48 ≤ Z_of_byte b ≤ 102) (bytes_of s)).
    { subst s. rewrite bytes_of_str_take. apply Forall_take, hex_encode_bytes. }
    assert (Hl : String.length s = 16%nat).
    { rewrite <-length_bytes_of. subst s. rewrite bytes_of_str_take, length_take, length_bytes_of,
        length_hex_encode. lia. }
    rewrite bool_decide_eq_false_2 by (intros Hs; by rewrite Hs in Hl).
    destruct (Nat.ltb_spec MaxRunIDLength (String.length s)); [unfold MaxRunIDLength in *; lia|].
    unfold runes. rewrite runes_loop_ascii; [|eapply Forall_impl; [exact Hb|]; simpl; lia|done].
    assert (forallb IsPrint (Z_of_byte <$> bytes_of s) = true) as ->; [|done].
    apply forallb_forall. intros z Hz. apply list_elem_of_In, list_elem_of_fmap in Hz as (b & -> & Hin).
    rewrite Forall_forall in Hb. specialize (Hb _ Hin). unfold IsPrint.
    destruct (Z.ltb_spec (Z_of_byte b) 128); [|lia]. apply andb_true_iff. split; apply Z.leb_le; lia.
Qed.

(** Text tables that know ASCII only, and a name check that accepts everything. *)
Definition demo_text : Text :=
  {| IsPrintNonASCII _ := false; ToLower s := s; IsQualifiedName _ := [] |}.
Definition demo_dirs : Dirs := {| AbsDir f := Ok f; IsNotExist d := bool_decide (d = "/missing") |}.

Lemma run_id_safe_witness :
  @ValidateRunID demo_text (RandID (λ n, replicate n Byte.xa7)) = Ok tt.
Proof. exact (proj2 (@run_id_safe demo_text "" (λ n, replicate n Byte.xa7)) eq_refl). Defined.

(** What an accepted client configuration guarantees, and nothing more: the
    method and scopes are known; not both a token and a token source; a token source
    is well formed and an [exec] source is only accepted when the operator enabled
    that unsafe feature; the log level, protocol and wire protocol are known; the
    heartbeat time-out is not below the interval; the include directories exist; and
    every proxy and visitor is valid on its own. *)
Theorem client_config_accepted `{Text} `{Dirs} (c : ClientCommonConfig)
    (ps : list ProxyConfigurer) (vs : list VisitorConfigurer) (u : ConfigValidator) :
  (ValidateAllClientConfig (Some c) ps vs u).2 = Ok tt ↔
  ac_Method (cc_Auth c) ∈ SupportedAuthMethods
  ∧ (∀ s, s ∈ ac_AdditionalScopes (cc_Auth c) → s ∈ SupportedAuthAdditionalScopes)
  ∧ (ac_Token (cc_Auth c) = "" ∨ ac_TokenSource (cc_Auth c) = None)
  ∧ (∀ t, ac_TokenSource (cc_Auth c) = Some t →
       (vs_Type t = "exec" → IsEnabled u TokenSourceExec = true)
       ∧ ValueSource_Validate (Some t) = Ok tt)
  ∧ log_Level (cc_Log c) ∈ SupportedLogLevels
  ∧ (0 < ct_HeartbeatTimeout (cc_Transport c) → 0 < ct_HeartbeatInterval (cc_Transport c) →
       ct_HeartbeatInterval (cc_Transport c) ≤ ct_HeartbeatTimeout (cc_Transport c))
  ∧ ct_Protocol (cc_Transport c) ∈ SupportedTransportProtocols
  ∧ ct_WireProtocol (cc_Transport c) ∈ SupportedWireProtocols
  ∧ (∀ f, f ∈ cc_IncludeConfigFiles c → ∃ d, AbsDir f = Ok d ∧ IsNotExist d = false)
  ∧ Forall (λ p, ValidateProxyConfigurerForClient p = Ok tt) ps
  ∧ Forall (λ v, ValidateVisitorConfigurer v = Ok tt) vs.
Proof.
  unfold ValidateAllClientConfig.
  destruct (ValidateClientCommonConfig u c) as [w e] eqn:Hv. cbn [snd].
  assert (He : e = [] ↔ (validateAuthConfig u (cc_Auth c)).2 = [] ∧ validateLogConfig (cc_Log c) = []
    ∧ (validateTransportConfig (cc_Transport c)).2 = [] ∧ (validateIncludeFiles (cc_IncludeConfigFiles c)).2 = []).
  { apply (f_equal snd) in Hv. unfold ValidateClientCommonConfig in Hv. cbn [foldl snd] in Hv.
    rewrite <-Hv, !AppendError_nil, !Forall_singleton. tauto. }
  assert (Hall : (as_result e ≫= λ _, validate_proxies ps ≫= λ _, validate_visitors vs) = Ok tt
    ↔ e = [] ∧ validate_proxies ps = Ok tt ∧ validate_visitors vs = Ok tt).
  { rewrite <-(as_result_Ok e). destruct (as_result e) as [[]|]; simpl; [|naive_solver].
    destruct (validate_proxies ps) as [[]|]; simpl; naive_solver. }
  rewrite Hall, He, validateAuthConfig_nil, validateAuthTokenSource_nil, validateLogConfig_nil,
    validateTransportConfig_nil, validateIncludeFiles_nil, validate_proxies_Ok, validate_visitors_Ok.
  tauto.
Qed.
