(* ===== verification/Ranges.v ===== *)
(** * Number ranges: [ParseRangeNumbers] of [pkg/util/util/util.go],
    [pkg/config/template.go], [PortsRangeSlice] of [pkg/config/types/types.go]

    Texts such as [1000-2000,2001,3000-4000].  [range_loop] is the source's loop
    over an [int64] counter, with fuel: [None] means that the loop has not ended. *)
From S2P Require Import Prelude GoStd.
From Stdlib Require Import Ascii.
From Stdlib Require String.
From stdpp Require Import list.
Local Open Scope Z_scope.

Definition comma : ascii := Ascii.ascii_of_nat 44.
Definition dash : ascii := Ascii.ascii_of_nat 45.
Definition invalid : string := "range number is invalid".

(** [for i := minValue; i <= maxValue; i++ { numbers = append(numbers, i) }] *)
Fixpoint range_loop (fuel : nat) (i maxValue : Z) (numbers : list Z) : option (list Z) :=
  match fuel with
  | O => None
  | S fuel =>
      if i <=? maxValue then range_loop fuel (i +₆₄ 1)%go maxValue (numbers ++ [i])
      else Some numbers
  end.

(** One element of the comma-separated list: a single number or two bounds. *)
Inductive range_elem : Type := Single (n : Z) | Bounds (lo hi : Z).

Definition parse_elem (numRangeStr : string) : result range_elem :=
  match split_on dash numRangeStr with
  | [x] =>
      n ← wrap_err "range number is invalid, " (ParseInt64 (TrimSpace x)); Ok (Single n)
  | [x; y] =>
      lo ← wrap_err "range number is invalid, " (ParseInt64 (TrimSpace x));
      hi ← wrap_err "range number is invalid, " (ParseInt64 (TrimSpace y));
      if hi <? lo then Err invalid else Ok (Bounds lo hi)
  | _ => Err invalid
  end.

(** The loop over the elements; on an error the source also returns the numbers
    read so far, which its callers drop. *)
Fixpoint parse_numbers (fuel : nat) (elems : list string) (numbers : list Z)
    : option (result (list Z)) :=
  match elems with
  | [] => Some (Ok numbers)
  | e :: elems =>
      match parse_elem e with
      | Err m => Some (Err m)
      | Ok (Single n) => parse_numbers fuel elems (numbers ++ [n])
      | Ok (Bounds lo hi) =>
          match range_loop fuel lo hi numbers with
          | None => None
          | Some numbers => parse_numbers fuel elems numbers
          end
      end
  end.
Definition ParseRangeNumbers (fuel : nat) (rangeStr : string) : option (result (list Z)) :=
  parse_numbers fuel (split_on comma (TrimSpace rangeStr)) [].

Definition parseNumberRange (fuel : nat) (s : string) : option (result (list Z)) :=
  ParseRangeNumbers fuel s.
Definition parseNumberRangePair (fuel : nat) (first second : string)
    : option (result (list (Z * Z))) :=
  match ParseRangeNumbers fuel first with
  | None => None
  | Some (Err e) => Some (Err e)
  | Some (Ok l1) =>
      match ParseRangeNumbers fuel second with
      | None => None
      | Some (Err e) => Some (Err e)
      | Some (Ok l2) =>
          if negb (bool_decide (length l1 = length l2))
          then Some (Err "first and second range numbers are not in pairs")
          else Some (Ok (zip l1 l2))
      end
  end.

(** ** [PortsRangeSlice] *)
Record PortsRangeCfg := mkPortsRangeCfg { prc_Start : Z; prc_End : Z; prc_Single : Z }.
#[export] Instance PortsRangeCfg_eq_dec : EqDecision PortsRangeCfg.
Proof. solve_decision. Defined.

Definition elem_string (v : PortsRangeCfg) : string :=
  if 0 <? prc_Single v then Itoa (prc_Single v)
  else Itoa (prc_Start v) +:+ "-" +:+ Itoa (prc_End v).
Definition PortsRangeSlice_String (p : list PortsRangeCfg) : string :=
  match p with [] => "" | _ => join_str "," (elem_string <$> p) end.

Definition elem_cfg (e : range_elem) : PortsRangeCfg :=
  match e with Single n => mkPortsRangeCfg 0 0 n | Bounds lo hi => mkPortsRangeCfg lo hi 0 end.
Fixpoint parse_ranges (elems : list string) : result (list PortsRangeCfg) :=
  match elems with
  | [] => Ok []
  | e :: elems =>
      r ← parse_elem e;
      rs ← parse_ranges elems;
      Ok (elem_cfg r :: rs)
  end.
Definition NewPortsRangeSliceFromString (str : string) : result (list PortsRangeCfg) :=
  parse_ranges (split_on comma (TrimSpace str)).

Example range_example :
  ParseRangeNumbers 10 " 10-12, 7,3 - 4" = Some (Ok [10; 11; 12; 7; 3; 4]).
Proof. vm_compute. reflexivity. Qed.
Example range_bad : ParseRangeNumbers 10 "5-3" = Some (Err invalid).
Proof. vm_compute. reflexivity. Qed.

(** ** Lemmas *)
Lemma range_loop_spec (n : nat) (lo hi : Z) acc :
  in_int64 lo → hi < MaxInt64 → (Z.to_nat (hi - lo + 1) ≤ n)%nat →
  range_loop (S n) lo hi acc = Some (acc ++ seqZ lo (hi - lo + 1)).
Proof.
  intros Hlo Hhi. revert lo acc Hlo. induction n as [|n IH]; intros lo acc Hlo Hn; cbn [range_loop].
  - destruct (Z.leb_spec lo hi); [lia|]. by rewrite seqZ_nil, app_nil_r by lia.
  - destruct (Z.leb_spec lo hi) as [Hle|]; [|by rewrite seqZ_nil, app_nil_r by lia].
    rewrite wrap64_id by (unfold in_int64 in *; lia).
    change (range_loop (S n) (lo + 1) hi (acc ++ [lo]) = Some (acc ++ seqZ lo (hi - lo + 1))).
    rewrite IH by (unfold in_int64 in *; lia).
    rewrite (seqZ_cons lo) by lia. rewrite <-(assoc_L (++)). simpl.
    by replace (hi - (lo + 1) + 1) with (Z.pred (hi - lo + 1)) by lia.
Qed.

Lemma range_loop_max (fuel : nat) (lo : Z) acc : in_int64 lo → range_loop fuel lo MaxInt64 acc = None.
Proof.
  revert lo acc. induction fuel as [|fuel IH]; intros lo acc Hlo; [done|]. cbn [range_loop].
  destruct (Z.leb_spec lo MaxInt64) as [|Hgt]; [|unfold in_int64 in Hlo; lia].
  apply IH, wrap64_range.
Qed.

(** ** Lemmas: printing and parsing ranges *)
Definition valid_range (v : PortsRangeCfg) : Prop :=
  (0 < prc_Single v ≤ MaxInt64 ∧ prc_Start v = 0 ∧ prc_End v = 0)
  ∨ (prc_Single v = 0 ∧ 0 ≤ prc_Start v ≤ prc_End v ∧ prc_End v ≤ MaxInt64).

Definition digit_byte (b : byte) : Prop := 48 ≤ Z_of_byte b ≤ 57.

Lemma digits_no_dash s : Forall digit_byte (bytes_of s) → index_byte dash s = None.
Proof.
  intros H. apply index_byte_None_bytes. eapply Forall_impl; [exact H|].
  intros b [Hb _] ->. by apply Hb.
Qed.

Lemma digits_visible s : Forall digit_byte (bytes_of s) → Forall visible (bytes_of s).
Proof. intros H. eapply Forall_impl; [exact H|]. unfold digit_byte, visible. intros; lia. Qed.

Lemma elem_bytes v : valid_range v →
  Forall (λ b, digit_byte b ∨ b = Ascii.byte_of_ascii dash) (bytes_of (elem_string v)).
Proof.
  unfold elem_string. intros Hv. destruct (Z.ltb_spec 0 (prc_Single v)) as [Hs|Hs].
  - eapply Forall_impl; [apply Itoa_digits; lia|]. intros; by left.
  - assert (0 ≤ prc_Start v ≤ prc_End v) by (destruct Hv as [?|?]; lia).
    rewrite !bytes_of_app, !Forall_app. split_and!.
    + eapply Forall_impl; [apply Itoa_digits; lia|]. intros; by left.
    + by repeat constructor; right.
    + eapply Forall_impl; [apply Itoa_digits; lia|]. intros; by left.
Qed.

Lemma parse_elem_string v : valid_range v →
  ∃ e, parse_elem (elem_string v) = Ok e ∧ elem_cfg e = v.
Proof.
  intros Hv. unfold elem_string, parse_elem.
  assert (Hnum : ∀ z, 0 ≤ z ≤ MaxInt64 → ParseInt64 (TrimSpace (Itoa z)) = Ok z).
  { intros z Hz. rewrite TrimSpace_visible by (apply digits_visible, Itoa_digits; lia).
    apply ParseInt64_Itoa. unfold in_int64, MinInt64. lia. }
  destruct (Z.ltb_spec 0 (prc_Single v)) as [Hs|Hs].
  - rewrite split_on_no by (apply digits_no_dash, Itoa_digits; lia).
    destruct Hv as [(? & ? & ?)|?]; [|lia]. rewrite Hnum by lia. simpl.
    eexists. split; [done|]. destruct v; simpl in *. by subst.
  - destruct Hv as [?|(? & ? & ?)]; [lia|].
    change (Itoa (prc_Start v) +:+ "-" +:+ Itoa (prc_End v))
      with (Itoa (prc_Start v) +:+ String dash (Itoa (prc_End v))).
    rewrite split_on_app by (apply digits_no_dash, Itoa_digits; lia).
    rewrite split_on_no by (apply digits_no_dash, Itoa_digits; lia).
    rewrite !Hnum by lia. cbn [mbind result_bind wrap_err].
    destruct (Z.ltb_spec (prc_End v) (prc_Start v)); [lia|].
    eexists. split; [done|]. destruct v; simpl in *. by subst.
Qed.

Lemma elem_no_comma v : valid_range v → index_byte comma (elem_string v) = None.
Proof.
  intros Hv. apply index_byte_None_bytes. eapply Forall_impl; [by apply elem_bytes|].
  intros b [[Hb _]|Hb] ->; [by apply Hb|discriminate].
Qed.

Lemma split_join p : Forall valid_range p → p ≠ [] →
  split_on comma (join_str "," (elem_string <$> p)) = elem_string <$> p.
Proof.
  induction 1 as [|v p Hv Hp IH]; intros Hne; [done|].
  destruct p as [|w p]; [by apply split_on_no, elem_no_comma|].
  change (join_str "," (elem_string <$> v :: w :: p))
    with (elem_string v +:+ String comma (join_str "," (elem_string <$> w :: p))).
  rewrite split_on_app by by apply elem_no_comma. by rewrite IH.
Qed.

Lemma join_visible p : Forall valid_range p →
  Forall visible (bytes_of (join_str "," (elem_string <$> p))).
Proof.
  assert (Hel : ∀ v, valid_range v → Forall visible (bytes_of (elem_string v))).
  { intros v Hv. eapply Forall_impl; [by apply elem_bytes|].
    intros b [Hb|Hb]; [unfold digit_byte, visible in *; lia|]. rewrite Hb. vm_compute. split; discriminate. }
  induction 1 as [|v p Hv Hp IH]; [constructor|].
  destruct p as [|w p]; [by apply Hel|].
  change (join_str "," (elem_string <$> v :: w :: p))
    with (elem_string v +:+ String comma (join_str "," (elem_string <$> w :: p))).
  rewrite bytes_of_app, bytes_of_cons. apply Forall_app. split; [by apply Hel|].
  constructor; [vm_compute; split; discriminate|done].
Qed.

Lemma parse_ranges_strings p : Forall valid_range p → parse_ranges (elem_string <$> p) = Ok p.
Proof.
  induction 1 as [|v p Hv Hp IH]; [done|].
  destruct (parse_elem_string v Hv) as (e & He & <-). cbn [fmap list_fmap parse_ranges].
  rewrite He. cbn [mbind result_bind]. by rewrite IH.
Qed.

(** ** Theorems *)

(** The counting loop of [ParseRangeNumbers] and its overflow: for bounds
    [lo..hi] with [hi] below the largest [int64] it ends after [hi - lo + 2] tests and
    appends exactly the numbers from [lo] to [hi] in order; for an upper bound that
    is the largest [int64] it never ends, because the counter wraps around. *)
Theorem range_loop_ends (lo hi : Z) (acc : list Z) :
  in_int64 lo → in_int64 hi →
  (hi < MaxInt64 →
     range_loop (S (Z.to_nat (hi - lo + 1))) lo hi acc = Some (acc ++ seqZ lo (hi - lo + 1)))
  ∧ (hi = MaxInt64 → ∀ fuel, range_loop fuel lo hi acc = None).
Proof.
  intros Hlo Hhi. split.
  - intros Hlt. by apply range_loop_spec.
  - intros -> fuel. by apply range_loop_max.
Qed.

Lemma range_loop_ends_witness : range_loop 4 10 12 [] = Some [10; 11; 12].
Proof.
  refine (proj1 (range_loop_ends 10 12 [] _ _) _).
  - unfold in_int64, MinInt64, MaxInt64. lia.
  - unfold in_int64, MinInt64, MaxInt64. lia.
  - unfold MaxInt64. lia.
Defined.

(** Port ranges survive printing and parsing: for a non-empty list of single
    ports and intervals, parsing the printed text gives the list back. *)
Theorem ports_range_roundtrip (p : list PortsRangeCfg) :
  Forall valid_range p → p ≠ [] →
  NewPortsRangeSliceFromString (PortsRangeSlice_String p) = Ok p.
Proof.
  intros Hp Hne. unfold NewPortsRangeSliceFromString, PortsRangeSlice_String.
  destruct p as [|v p]; [done|].
  rewrite TrimSpace_visible by by apply join_visible.
  rewrite split_join by done. by apply parse_ranges_strings.
Qed.

Lemma ports_range_roundtrip_witness :
  NewPortsRangeSliceFromString "1000-2000,3000"
  = Ok [mkPortsRangeCfg 1000 2000 0; mkPortsRangeCfg 0 0 3000].
Proof.
  change "1000-2000,3000" with
    (PortsRangeSlice_String [mkPortsRangeCfg 1000 2000 0; mkPortsRangeCfg 0 0 3000]).
  apply ports_range_roundtrip.
  - repeat constructor; unfold valid_range, MaxInt64; simpl; lia.
  - discriminate.
Defined.
