(* ===== verification/ConfigLoad.v ===== *)
(** * Loading configurations: [pkg/config/load.go]

    Reading and decoding a file is the class [Loader], whose instance is in [LoadFile]; this
    file starts with the decoded [ClientConfig].  [FilterClientConfigurers], completion, the duplicate check, the
    merge of included files and the server's [NewProxyConfigurerFromMsg] follow the
    source. *)
From S2P Require Import Prelude GoStd Msg ConfigV1 Auth Validation.
From Stdlib Require Import Ascii.
From Stdlib Require String.
From stdpp Require Import list.
Local Open Scope Z_scope.

(** A decoded client file: the embedded common part, the proxies, the visitors. *)
Record ClientConfig := mkClientConfig {
  cl_Common : ClientCommonConfig;
  cl_Proxies : list ProxyConfigurer;
  cl_Visitors : list VisitorConfigurer;
}.

(** A directory entry: its name and whether it is a directory. *)
Class Loader := {
  LoadClientFile : string → bool → result ClientConfig;
  LoadServerFile : string → bool → result ServerConfig;
  ReadDir : string → result (list (string * bool));
  MatchFile : string → string → bool;  (* filepath.Match dir/base against dir/name *)
}.

(** ** The server's side of a [NewProxy] message *)
Definition set_proxy_type (m : NewProxy) (t : string) : NewProxy :=
  {| np_ProxyName := np_ProxyName m; np_ProxyType := t;
     np_UseEncryption := np_UseEncryption m; np_UseCompression := np_UseCompression m;
     np_BandwidthLimit := np_BandwidthLimit m; np_BandwidthLimitMode := np_BandwidthLimitMode m;
     np_Group := np_Group m; np_GroupKey := np_GroupKey m;
     np_Metas := np_Metas m; np_Annotations := np_Annotations m;
     np_RemotePort := np_RemotePort m; np_CustomDomains := np_CustomDomains m;
     np_SubDomain := np_SubDomain m; np_Locations := np_Locations m;
     np_HTTPUser := np_HTTPUser m; np_HTTPPwd := np_HTTPPwd m;
     np_HostHeaderRewrite := np_HostHeaderRewrite m; np_Headers := np_Headers m;
     np_ResponseHeaders := np_ResponseHeaders m; np_RouteByHTTPUser := np_RouteByHTTPUser m;
     np_Sk := np_Sk m; np_AllowUsers := np_AllowUsers m; np_Multiplexer := np_Multiplexer m |}.

Definition NewProxyConfigurerFromMsg `{Text} (m : NewProxy) : result ProxyConfigurer :=
  let m := set_proxy_type m (str_or (np_ProxyType m) ProxyTypeXTCP) in
  match NewProxyConfigurerByType (np_ProxyType m) with
  | None => Err ("unknown proxy type: " +:+ np_ProxyType m)
  | Some configurer =>
      let configurer := Proxy_Complete (UnmarshalFromMsg configurer m) in
      ValidateProxyConfigurerForServer configurer ≫= λ _, Ok configurer
  end.

(** ** Duplicate names, completion, filters *)
Fixpoint first_duplicate (seen : gset string) (names : list string) : option string :=
  match names with
  | [] => None
  | n :: names => if bool_decide (n ∈ seen) then Some n else first_duplicate ({[n]} ∪ seen) names
  end.
Definition proxy_name (c : ProxyConfigurer) : string := pc_Name (GetBaseConfig c).
Definition visitor_name (c : VisitorConfigurer) : string := vb_Name (Visitor_GetBaseConfig c).
Definition validateNoDuplicateNames (proxies : list ProxyConfigurer)
    (visitors : list VisitorConfigurer) : result unit :=
  match first_duplicate ∅ (proxy_name <$> proxies) with
  | Some name => Err ("proxy name [" +:+ name +:+ "] is duplicated")
  | None =>
      match first_duplicate ∅ (visitor_name <$> visitors) with
      | Some name => Err ("visitor name [" +:+ name +:+ "] is duplicated")
      | None => Ok tt
      end
  end.

Definition CompleteProxyConfigurers (proxies : list ProxyConfigurer) : list ProxyConfigurer :=
  Proxy_Complete <$> proxies.
Definition CompleteVisitorConfigurers (visitors : list VisitorConfigurer) : list VisitorConfigurer :=
  Visitor_Complete <$> visitors.

Definition is_enabled (enabled : option bool) : bool :=
  match enabled with None => true | Some b => b end.
Definition started (start : list string) (name : string) : bool :=
  match start with [] => true | _ => bool_decide (name ∈ (list_to_set start : gset string)) end.
Definition FilterClientConfigurers (start : list string) (proxies : list ProxyConfigurer)
    (visitors : list VisitorConfigurer) : list ProxyConfigurer * list VisitorConfigurer :=
  let proxyCfgs := List.filter (λ c, started start (proxy_name c)) proxies in
  let visitorCfgs := List.filter (λ c, started start (visitor_name c)) visitors in
  (List.filter (λ c, is_enabled (pc_Enabled (GetBaseConfig c))) proxyCfgs,
   List.filter (λ c, is_enabled (vb_Enabled (Visitor_GetBaseConfig c))) visitorCfgs).

(** ** Loading *)
Section load.
Context `{Loader} `{Dirs} `{OS}.

(** The entries of one include pattern. *)
Fixpoint load_matching (path : string) (strict : bool) (files : list (string * bool))
    : result (list ProxyConfigurer * list VisitorConfigurer) :=
  match files with
  | [] => Ok ([], [])
  | (name, isDir) :: files =>
      if isDir then load_matching path strict files
      else if MatchFile path name then
        match LoadClientFile name strict with
        | Err e => Err ("load additional config from " +:+ name +:+ " error: " +:+ e)
        | Ok cfg =>
            rest ← load_matching path strict files;
            Ok (cl_Proxies cfg ++ rest.1, cl_Visitors cfg ++ rest.2)
        end
      else load_matching path strict files
  end.
Fixpoint LoadAdditionalClientConfigs (paths : list string) (strict : bool)
    : result (list ProxyConfigurer * list VisitorConfigurer) :=
  match paths with
  | [] => Ok ([], [])
  | path :: paths =>
      absDir ← AbsDir path;
      if IsNotExist absDir then Err ("stat " +:+ absDir +:+ ": no such file or directory")
      else
        files ← ReadDir absDir;
        here ← load_matching path strict files;
        rest ← LoadAdditionalClientConfigs paths strict;
        Ok (here.1 ++ rest.1, here.2 ++ rest.2)
  end.

Definition LoadClientConfigResult (path : string) (strict : bool) : result ClientConfig :=
  allCfg ← LoadClientFile path strict;
  ext ← (match cc_IncludeConfigFiles (cl_Common allCfg) with
         | [] => Ok ([], [])
         | files => LoadAdditionalClientConfigs files strict
         end);
  common ← ClientCommonConfig_Complete (cl_Common allCfg);
  let proxies := cl_Proxies allCfg ++ ext.1 in
  let visitors := cl_Visitors allCfg ++ ext.2 in
  _ ← validateNoDuplicateNames proxies visitors;
  Ok (mkClientConfig common proxies visitors).

Definition LoadClientConfig (path : string) (strict : bool)
    : result (ClientCommonConfig * list ProxyConfigurer * list VisitorConfigurer) :=
  r ← LoadClientConfigResult path strict;
  let '(ps, vs) := FilterClientConfigurers (cc_Start (cl_Common r)) (cl_Proxies r) (cl_Visitors r) in
  Ok (cl_Common r, CompleteProxyConfigurers ps, CompleteVisitorConfigurers vs).

Definition LoadServerConfig (path : string) (strict : bool) : result ServerConfig :=
  svrCfg ← LoadServerFile path strict;
  ServerConfig_Complete svrCfg.
End load.

(** ** Lemmas *)
Lemma first_duplicate_None seen names :
  first_duplicate seen names = None ↔ NoDup names ∧ ∀ n, n ∈ names → n ∉ seen.
Proof.
  revert seen. induction names as [|n names IH]; intros seen; simpl.
  - split; [|done]. intros _. split; [constructor|set_solver].
  - case_bool_decide as Hn.
    + split; [done|]. intros [_ H]. by destruct (H n); [left|].
    + rewrite IH, NoDup_cons. split.
      * intros [Hnd Hs]. split; [split; [|done]|].
        { intros Hin. specialize (Hs _ Hin). set_solver. }
        intros m [->|Hm]%elem_of_cons; [done|]. specialize (Hs _ Hm). set_solver.
      * intros [[Hnin Hnd] Hs]. split; [done|]. intros m Hm.
        assert (m ≠ n) by congruence. specialize (Hs m ltac:(by right)). set_solver.
Qed.

Lemma validateNoDuplicateNames_Ok ps vs :
  validateNoDuplicateNames ps vs = Ok tt ↔ NoDup (proxy_name <$> ps) ∧ NoDup (visitor_name <$> vs).
Proof.
  unfold validateNoDuplicateNames.
  destruct (first_duplicate ∅ (proxy_name <$> ps)) eqn:Hp.
  - split; [done|]. intros [Hnd _]. assert (first_duplicate ∅ (proxy_name <$> ps) = None); [|congruence].
    apply first_duplicate_None. set_solver.
  - apply first_duplicate_None in Hp as [Hp _].
    destruct (first_duplicate ∅ (visitor_name <$> vs)) eqn:Hv.
    + split; [done|]. intros [_ Hnd]. assert (first_duplicate ∅ (visitor_name <$> vs) = None); [|congruence].
      apply first_duplicate_None. set_solver.
    + apply first_duplicate_None in Hv as [Hv _]. done.
Qed.

Lemma sublist_filter {A} (f : A → bool) l : sublist (List.filter f l) l.
Proof. induction l as [|x l IH]; simpl; [constructor|]. destruct (f x); by constructor. Qed.

Lemma complete_proxy_name c : proxy_name (Proxy_Complete c) = proxy_name c.
Proof. by destruct c as [[[]]]. Qed.
Lemma complete_visitor_name c : visitor_name (Visitor_Complete c) = visitor_name c.
Proof. by destruct c as [[[]]]. Qed.

Lemma elem_of_Lfilter {A} (f : A → bool) l x : x ∈ List.filter f l ↔ x ∈ l ∧ f x = true.
Proof. by rewrite !list_elem_of_In, filter_In. Qed.

(** ** Theorems *)

(** What [frpc] starts from a configuration file: when loading succeeds, the
    proxies handed out have pairwise distinct names, and so have the visitors; and
    they are exactly the configured ones (inline or included) that are not disabled
    and, if a [start] list is given, are named in it, each one completed. *)
Theorem loaded_client_config `{Loader} `{Dirs} `{OS} (path : string) (strict : bool)
    (common : ClientCommonConfig) (ps : list ProxyConfigurer) (vs : list VisitorConfigurer) :
  LoadClientConfig path strict = Ok (common, ps, vs) →
  ∃ r, LoadClientConfigResult path strict = Ok r ∧ cl_Common r = common ∧
  NoDup (proxy_name <$> ps) ∧ NoDup (visitor_name <$> vs) ∧
  (∀ p, p ∈ ps ↔ ∃ c, c ∈ cl_Proxies r ∧ p = Proxy_Complete c ∧
     pc_Enabled (GetBaseConfig c) ≠ Some false ∧
     (cc_Start common = [] ∨ proxy_name c ∈ cc_Start common)) ∧
  (∀ v, v ∈ vs ↔ ∃ c, c ∈ cl_Visitors r ∧ v = Visitor_Complete c ∧
     vb_Enabled (Visitor_GetBaseConfig c) ≠ Some false ∧
     (cc_Start common = [] ∨ visitor_name c ∈ cc_Start common)).
Proof.
  unfold LoadClientConfig. intros Hl. apply result_bind_Ok in Hl as (r & Hr & Hl).
  unfold FilterClientConfigurers in Hl. simplify_eq. exists r. split; [done|]. split; [done|].
  assert (Hnd : NoDup (proxy_name <$> cl_Proxies r) ∧ NoDup (visitor_name <$> cl_Visitors r)).
  { unfold LoadClientConfigResult in Hr.
    repeat (apply result_bind_Ok in Hr as (? & ? & Hr)). simplify_eq.
    apply validateNoDuplicateNames_Ok. by match goal with u : () |- _ => destruct u end. }
  assert (Hst : ∀ n, started (cc_Start (cl_Common r)) n = true ↔
    cc_Start (cl_Common r) = [] ∨ n ∈ cc_Start (cl_Common r)).
  { intros n. unfold started. destruct (cc_Start (cl_Common r)) as [|x l]; [naive_solver|].
    rewrite bool_decide_eq_true, elem_of_list_to_set. naive_solver. }
  assert (Hen : ∀ o, is_enabled o = true ↔ o ≠ Some false) by (intros [[]|]; naive_solver).
  assert (Hsub : ∀ {A B} (f : A → B) l k, sublist l k → NoDup (f <$> k) → NoDup (f <$> l)).
  { intros A B f l k Hs Hk. eapply sublist_NoDup; [exact Hk|by apply fmap_sublist]. }
  unfold CompleteProxyConfigurers, CompleteVisitorConfigurers.
  split; [|split; [|split]].
  - rewrite <-list_fmap_compose. erewrite (list_fmap_ext _ proxy_name); [|intros; apply complete_proxy_name].
    eapply Hsub; [|apply Hnd]. etrans; apply sublist_filter.
  - rewrite <-list_fmap_compose. erewrite (list_fmap_ext _ visitor_name); [|intros; apply complete_visitor_name].
    eapply Hsub; [|apply Hnd]. etrans; apply sublist_filter.
  - intros p. rewrite list_elem_of_fmap. setoid_rewrite elem_of_Lfilter. setoid_rewrite elem_of_Lfilter.
    setoid_rewrite Hst. setoid_rewrite Hen. naive_solver.
  - intros v. rewrite list_elem_of_fmap. setoid_rewrite elem_of_Lfilter. setoid_rewrite elem_of_Lfilter.
    setoid_rewrite Hst. setoid_rewrite Hen. naive_solver.
Qed.

(** A loader that knows one file. *)
Definition demo_proxy_cfg (name : string) (enabled : option bool) : ProxyConfigurer :=
  PC_XTCP (mkXTCPProxyConfig (mkProxyBaseConfig name "xtcp" enabled ∅
    (mkProxyTransport false false) ∅ (mkProxyBackend "" 22)) "sk" [] None).
Definition demo_common : ClientCommonConfig :=
  mkClientCommonConfig "" (mkAuthClientConfig "" [] "" None) "" "" "" 0 "" "" None ["ssh"; "web"]
    (mkLogConfig "" "" 0 false)
    (mkClientTransportConfig "" "" 0 0 "" "" 0 None 0 (mkQUICOptions 0 0 0) 0 0
       (mkTLSClientConfig None None (mkTLSConfig "" "" "" "")))
    ∅ [] "".
Definition demo_loader : Loader :=
  {| LoadClientFile path _ :=
       if decide (path = "frpc.toml")
       then Ok (mkClientConfig demo_common
                  [demo_proxy_cfg "ssh" None; demo_proxy_cfg "rdp" None;
                   demo_proxy_cfg "web" (Some false)] [])
       else Err "no such file";
     LoadServerFile _ _ := Err "no such file"; ReadDir _ := Ok []; MatchFile _ _ := false |}.

Lemma loaded_client_config_witness :
  match @LoadClientConfig demo_loader demo_dirs demo_os "frpc.toml" true with
  | Ok (_, ps, _) => NoDup (proxy_name <$> ps) ∧ proxy_name <$> ps = ["ssh"]
  | Err _ => False
  end.
Proof.
  destruct (@LoadClientConfig demo_loader demo_dirs demo_os "frpc.toml" true)
    as [[[common ps] vs]|e] eqn:E; [|vm_compute in E; discriminate].
  destruct (@loaded_client_config demo_loader demo_dirs demo_os "frpc.toml" true common ps vs E)
    as (r & _ & _ & Hnd & _).
  split; [exact Hnd|]. vm_compute in E. injection E as _ <- _. reflexivity.
Defined.

(** The server accepts exactly the registrations it can serve: a [NewProxy]
    message yields a configurer iff its type is [xtcp] (or missing) and its
    annotations are valid; the configurer then carries the message's name, secret key
    and allowed users, and a default local address. *)
Theorem NewProxyConfigurerFromMsg_spec `{Text} (m : NewProxy) :
  match NewProxyConfigurerFromMsg m with
  | Ok (PC_XTCP c) =>
      (np_ProxyType m = "" ∨ np_ProxyType m = "xtcp") ∧ ValidateAnnotations (np_Annotations m) = []
      ∧ pc_Name (xp_Base c) = np_ProxyName m ∧ pc_Type (xp_Base c) = "xtcp"
      ∧ xp_Secretkey c = np_Sk m ∧ xp_AllowUsers c = np_AllowUsers m
      ∧ pb_LocalIP (pc_Backend (xp_Base c)) = "127.0.0.1"
  | Err _ =>
      (np_ProxyType m ≠ "" ∧ np_ProxyType m ≠ "xtcp") ∨ ValidateAnnotations (np_Annotations m) ≠ []
  end.
Proof.
  unfold NewProxyConfigurerFromMsg, NewProxyConfigurerByType, ProxyTypeXTCP. cbn [np_ProxyType set_proxy_type].
  assert (Hor : str_or (np_ProxyType m) "xtcp" = "xtcp" ↔ np_ProxyType m = "" ∨ np_ProxyType m = "xtcp").
  { unfold str_or, EmptyOr. case_decide; naive_solver. }
  case_bool_decide as Ht; [|left; split; intros ?; apply Ht, Hor; auto].
  unfold ValidateProxyConfigurerForServer, validateProxyBaseConfigForServer.
  cbn [UnmarshalFromMsg Proxy_Complete GetBaseConfig XTCP_UnmarshalFromMsg xp_Base ProxyBase_Complete
    ProxyBase_UnmarshalFromMsg pc_Annotations np_Annotations set_proxy_type].
  destruct (ValidateAnnotations (np_Annotations m)) as [|e es]; simpl; [|by right].
  rewrite Ht. split; [by apply Hor|]. repeat (split; [done|]). done.
Qed.
