(* ===== verification/LoadFile.v ===== *)
(** * From a file's bytes to a configuration: [pkg/config/load.go]

    The environment for templates, the choice of the format, YAML's keys with a leading dot,
    strict and lenient decoding ([Decode]) and the line numbers of decode errors.  The template
    engine and the TOML and YAML libraries are the class [Formats]: a TOML or YAML text is the
    JSON value its library makes of it.  The instance of [ConfigLoad.Loader] at the end puts
    this under the loading of whole configurations. *)
From S2P Require Import Prelude GoStd Json JsonCodec Decode ConfigV1 Auth Validation ConfigLoad.
From Stdlib Require Import Ascii.
From Stdlib Require String.
From stdpp Require Import list.
Local Open Scope Z_scope.

(** ** Paths *)
(** [strings.ToLower (filepath.Ext path)] on ASCII names. *)
Definition lower_ascii (c : ascii) : ascii :=
  let n := Ascii.nat_of_ascii c in
  if (65 <=? n)%nat && (n <=? 90)%nat then Ascii.ascii_of_nat (n + 32) else c.
Fixpoint lower (s : string) : string :=
  match s with EmptyString => "" | String c s => String (lower_ascii c) (lower s) end.
(** [filepath.Ext]: from the last dot of the last path element. *)
Definition path_ext (path : string) : string :=
  let slash := match last_index_byte (Ascii.ascii_of_nat 47) path with Some i => S i | None => O end in
  match last_index_byte (Ascii.ascii_of_nat 46) path with
  | Some i => if (i <? slash)%nat then "" else str_drop i path
  | None => ""
  end.
Definition detectFormatFromPath (path : string) : string :=
  let e := lower (path_ext path) in
  if bool_decide (e = ".toml") then "toml"
  else if bool_decide (e = ".yaml") || bool_decide (e = ".yml") then "yaml"
  else if bool_decide (e = ".json") then "json" else "".

(** ** Line numbers for decode errors *)
Definition nl : ascii := Ascii.ascii_of_nat 10.
Fixpoint has_substring (sub s : string) : bool :=
  match cut_prefix sub s with
  | Some _ => true
  | None => match s with EmptyString => false | String _ s => has_substring sub s end
  end.
Definition line_matches (searchKey line : string) : bool :=
  let trimmed := TrimSpace line in
  match cut_prefix searchKey trimmed with
  | Some rest =>
      bool_decide (str_at 0 (TrimSpace rest) = Some (Ascii.ascii_of_nat 61))
      || has_substring ("[[" +:+ searchKey +:+ "]]") trimmed
  | None => has_substring ("[[" +:+ searchKey +:+ "]]") trimmed
  end.
Fixpoint find_line (searchKey : string) (i : Z) (lines : list string) : Z :=
  match lines with
  | [] => 0
  | l :: lines => if line_matches searchKey l then i + 1 else find_line searchKey (i + 1) lines
  end.
Definition findFieldLineInContent (content fieldPath : string) : Z :=
  if bool_decide (fieldPath = "") then 0
  else
    let parts := split_on (Ascii.ascii_of_nat 46) fieldPath in
    find_line (default "" (last parts)) 0 (split_on nl content).

(** [enhanceDecodeError]: only an error that [errors.As] still finds is rewritten. *)
Definition field_path (f : list string) : string := join_str "." f.
Definition enhanceDecodeError (err : go_error) (originalContent : string) (includeLine : bool) : go_error :=
  match as_type_error err with
  | Some (value, _, field, type) =>
      let field := field_path field in
      if bool_decide (field = "") then err
      else
        let rest := "field " +:+ squoted field +:+ ": cannot unmarshal " +:+ value
                    +:+ " into " +:+ type in
        let line := findFieldLineInContent originalContent field in
        EText (if includeLine && (0 <? line) then "line " +:+ Itoa line +:+ ": " +:+ rest else rest)
  | None => err
  end.

(** ** Environment *)
(** [init] and [GetValues]: the bindings of [os.Environ], the last one of a name winning. *)
Definition split_env (envs : list string) : gmap string string :=
  foldl (λ m env, match index_byte (Ascii.ascii_of_nat 61) env with
                  | Some i => <[str_take i env := str_drop (S i) env]> m
                  | None => m
                  end) ∅ envs.
Definition GetValues `{OS} : gmap string string := split_env Environ.

(** ** Formats *)
Inductive toml_error : Type :=
| TomlDecodeError (row col : Z) (text : string)
| TomlStrictMissingError (text : string)
| TomlOtherError (text : string).
Definition formatTOMLError (err : toml_error) : go_error :=
  match err with
  | TomlDecodeError row col text =>
      EText ("toml: line " +:+ Itoa row +:+ ", column " +:+ Itoa col +:+ ": " +:+ text)
  | TomlStrictMissingError text | TomlOtherError text => EText text
  end.

Class Formats := {
  Template : string → gmap string string → result string;
  (* the value as [json.Marshal] sees it; it can fail to print (NaN) *)
  toml_Unmarshal : string → (json + string) + toml_error;
  yaml_Unmarshal : string → json + string;
  yaml_client : string → ClientFile + go_error;   (* [yaml.Unmarshal] into the struct *)
  yaml_server : string → ServerConfig + go_error;
  IsJSONBuffer : string → bool;
  error_text : go_error → string;                 (* [err.Error()] *)
}.

(** What [LoadConfigure] decodes into: a client's or the server's configuration. *)
Class Target (T : Type) := {
  decodeJSONContent : string → bool → T + go_error;
  yaml_into : string → T + go_error;
}.

Section formats.
Context `{Formats} `{OS}.

#[export] Instance client_target : Target ClientFile := {|
  decodeJSONContent content strict := DecodeClientConfigJSON (bytes_of content) (mkDecodeOptions strict);
  yaml_into := yaml_client |}.
#[export] Instance server_target : Target ServerConfig := {|
  decodeJSONContent content strict :=
    match UnmarshalWithOptions c_ServerConfig (bytes_of content) zero_ServerConfig (mkDecodeOptions strict) with
    | inl c => inl c
    | inr e => inr (EJson e)
    end;
  yaml_into := yaml_server |}.

Section target.
Context {T : Type} `{Target T}.

(** Keys with a leading dot are dropped from a YAML map, which is then decoded strictly. *)
Definition dot_key (key : string) : bool := bool_decide (is_Some (cut_prefix "." key)).
Definition drop_dot_keys (temp : json) : json :=
  match temp with
  | JObj ms => JObj (List.filter (λ kv, negb (dot_key kv.1)) ms)
  | _ => temp
  end.
Definition parseYAMLWithDotFieldsHandling (content : string) : T + go_error :=
  match yaml_Unmarshal content with
  | inr e => inr (EText e)
  | inl temp => decodeJSONContent (string_of (print (drop_dot_keys temp))) true
  end.

(** From the JSON or YAML text [b] on; [original] is the file's text. *)
Definition load_text (b original : string) (strict parsedFromTOML : bool) : T + go_error :=
  let enhance r := match r with
                   | inl c => inl c
                   | inr err => inr (enhanceDecodeError err original (negb parsedFromTOML))
                   end in
  if IsJSONBuffer b then enhance (decodeJSONContent b strict)
  else if strict then enhance (parseYAMLWithDotFieldsHandling b)
  else yaml_into b.
Definition LoadConfigure (b : string) (strict : bool) (format : string) : T + go_error :=
  match toml_Unmarshal b with
  | inl (inl tomlObj) => load_text (string_of (print tomlObj)) b strict true
  | inl (inr e) => inr (EText e)
  | inr tomlErr =>
      if bool_decide (format = "toml") then inr (formatTOMLError tomlErr)
      else load_text b b strict false
  end.

Definition LoadFileContentWithTemplate (path : string) (values : gmap string string) : result string :=
  b ← ReadFile path; Template b values.
Definition LoadConfigureFromFile (path : string) (strict : bool) : T + go_error :=
  match LoadFileContentWithTemplate path GetValues with
  | Err e => inr (EText e)
  | Ok content => LoadConfigure content strict (detectFormatFromPath path)
  end.
End target.

(** ** The loader of [ConfigLoad] *)
Definition to_result {A} (r : A + go_error) : result A :=
  match r with inl a => Ok a | inr e => Err (error_text e) end.
(** Loading keeps the configurers of the typed configurations. *)
Definition client_config (f : ClientFile) : ClientConfig :=
  mkClientConfig (cf_Common f) (ty_Configurer <$> cf_Proxies f) (ty_Configurer <$> cf_Visitors f).
Definition file_loader (read_dir : string → result (list (string * bool)))
    (match_file : string → string → bool) : Loader := {|
  LoadClientFile path strict := client_config <$> to_result (LoadConfigureFromFile path strict);
  LoadServerFile path strict := to_result (LoadConfigureFromFile path strict);
  ReadDir := read_dir;
  MatchFile := match_file |}.
End formats.

(** ** Lemmas *)
Lemma to_result_Ok `{Formats} {A} (r : A + go_error) a : to_result r = Ok a ↔ r = inl a.
Proof. destruct r; simpl; naive_solver. Qed.

Lemma find_line_spec key i lines n : find_line key i lines = n → n ≠ 0 → 0 ≤ i →
  ∃ l, lines !! Z.to_nat (n - 1 - i) = Some l ∧ i < n ∧ line_matches key l = true ∧
    ∀ k l', lines !! k = Some l' → Z.of_nat k < n - 1 - i → line_matches key l' = false.
Proof.
  revert i. induction lines as [|l lines IH]; intros i; simpl; [congruence|].
  destruct (line_matches key l) eqn:Hl; intros Hn Hnz Hi.
  - subst n. replace (Z.to_nat (i + 1 - 1 - i)) with 0%nat by lia. exists l. split; [done|].
    split; [lia|]. split; [done|]. intros k l' _ ?. lia.
  - destruct (IH (i + 1) Hn Hnz ltac:(lia)) as (l' & Hlk & Hlt & Hm & Hmin). exists l'.
    replace (Z.to_nat (n - 1 - i)) with (S (Z.to_nat (n - 1 - (i + 1)))) by lia.
    split; [done|]. split; [lia|]. split; [done|]. intros [|k] l'' Hk ?; simplify_eq/=; [done|].
    eapply Hmin; [done|lia].
Qed.

Section typed.
Context `{Formats} `{OS} `{Dirs}.
Context (read_dir : string → result (list (string * bool))) (match_file : string → string → bool).

Definition configurers_typed (ps : list ProxyConfigurer) (vs : list VisitorConfigurer) : Prop :=
  Forall proxy_typed ps ∧ Forall visitor_typed vs.
Lemma configurers_typed_app ps vs ps' vs' :
  configurers_typed ps vs → configurers_typed ps' vs' → configurers_typed (ps ++ ps') (vs ++ vs').
Proof. intros [] []. split; by apply Forall_app. Qed.

(** Strictly, whatever the format, the file goes through [DecodeClientConfigJSON]. *)
Lemma strict_load_decodes b format f : LoadConfigure (T := ClientFile) b true format = inl f →
  ∃ t, DecodeClientConfigJSON t strictly = inl f.
Proof.
  unfold LoadConfigure, load_text, parseYAMLWithDotFieldsHandling. cbn [decodeJSONContent client_target].
  intros Hl. repeat (case_match; try done); simplify_eq; eauto.
Qed.
Lemma LoadClientFile_typed path c :
  LoadClientFile (Loader := file_loader read_dir match_file) path true = Ok c →
  configurers_typed (cl_Proxies c) (cl_Visitors c).
Proof.
  cbn [LoadClientFile file_loader]. intros Hl.
  destruct (to_result (LoadConfigureFromFile path true)) as [f|] eqn:Hf; [|done].
  injection Hl as <-. apply to_result_Ok in Hf. unfold LoadConfigureFromFile in Hf.
  destruct (LoadFileContentWithTemplate path GetValues) as [b|]; [|done].
  apply strict_load_decodes in Hf as [t Ht]. apply client_file_typed in Ht as (_ & Hp & Hv).
  unfold configurers_typed, client_config. cbn [cl_Proxies cl_Visitors]. rewrite !Forall_fmap.
  split; (eapply Forall_impl; [done|]); by intros x [_ ?].
Qed.
Lemma load_matching_typed path files r :
  load_matching (H := file_loader read_dir match_file) path true files = Ok r → configurers_typed r.1 r.2.
Proof.
  revert r. induction files as [|[name d] files IH]; simpl; intros r Hr; [by simplify_eq|].
  destruct d; [by apply IH|]. destruct (match_file path name); [|by apply IH].
  destruct (client_config <$> _) as [c|] eqn:Hc; [|done]. apply result_bind_Ok in Hr as (rest & Hrest & Hr).
  injection Hr as <-. apply configurers_typed_app; [|by apply IH]. by apply LoadClientFile_typed in Hc.
Qed.
Lemma LoadAdditional_typed paths r :
  LoadAdditionalClientConfigs (H := file_loader read_dir match_file) paths true = Ok r → configurers_typed r.1 r.2.
Proof.
  revert r. induction paths as [|path paths IH]; simpl; intros r Hr; [by simplify_eq|].
  apply result_bind_Ok in Hr as (d & _ & Hr). case_match; [done|].
  apply result_bind_Ok in Hr as (files & _ & Hr). apply result_bind_Ok in Hr as (here & Hh & Hr).
  apply result_bind_Ok in Hr as (rest & Hrest & Hr). injection Hr as <-.
  apply configurers_typed_app; [by eapply load_matching_typed|by apply IH].
Qed.
(** A default is within its type too: field by field. *)
Ltac complete_ok H :=
  repeat (apply Forall_cons in H as [? H]; constructor;
    [first [done | cbn in *; unfold str_or, int_or, EmptyOr; first [case_decide|case_bool_decide];
                   first [done | by vm_compute]]|]); constructor.
Lemma Proxy_Complete_typed p : proxy_typed p → proxy_typed (Proxy_Complete p).
Proof.
  destruct p as [[[n ty en an tr me [ip port]] sk au nt]]. intros [Ht Hok]. split; [done|].
  cbn in *. complete_ok Hok.
Qed.
Lemma Visitor_Complete_typed v : visitor_typed v → visitor_typed (Visitor_Complete v).
Proof.
  destruct v as [[[n ty en tr sk su sn ba bp] pr kt mr mi ft fm nt]]. intros [Ht Hok]. split; [done|].
  cbn in *. complete_ok Hok.
Qed.

(** C15. Whatever [frpc] starts with after a strict load is well typed: each proxy and
    visitor, from the file or from one it includes, in TOML, YAML or JSON, has the type it was
    registered under, its integers are within 64 bits and its texts are valid UTF-8, defaults
    included. *)
Theorem loaded_configuration_typed (path : string) (common : ClientCommonConfig)
    (ps : list ProxyConfigurer) (vs : list VisitorConfigurer) :
  LoadClientConfig (H := file_loader read_dir match_file) path true = Ok (common, ps, vs) →
  configurers_typed ps vs.
Proof.
  unfold LoadClientConfig. intros Hl. apply result_bind_Ok in Hl as (r & Hr & Hl). simplify_eq/=.
  unfold LoadClientConfigResult in Hr. apply result_bind_Ok in Hr as (c & Hc & Hr).
  apply result_bind_Ok in Hr as (ext & He & Hr). apply result_bind_Ok in Hr as (common' & _ & Hr).
  apply result_bind_Ok in Hr as (u & _ & Hr). injection Hr as <-. cbn [cl_Proxies cl_Visitors cl_Common].
  assert (configurers_typed (cl_Proxies c ++ ext.1) (cl_Visitors c ++ ext.2)) as [Hp Hv].
  { apply configurers_typed_app; [by eapply LoadClientFile_typed|].
    destruct (cc_IncludeConfigFiles (cl_Common c)); [by simplify_eq/=|by eapply LoadAdditional_typed]. }
  assert (Hfilter : ∀ {A} (P : A → Prop) f l, Forall P l → Forall P (List.filter f l)).
  { intros A P f l. rewrite !Forall_forall. intros Hl x [Hx _]%elem_of_Lfilter. auto. }
  split; unfold CompleteProxyConfigurers, CompleteVisitorConfigurers; rewrite Forall_fmap.
  - eapply Forall_impl; [by apply Hfilter, Hfilter|]. intros p. apply Proxy_Complete_typed.
  - eapply Forall_impl; [by apply Hfilter, Hfilter|]. intros v. apply Visitor_Complete_typed.
Qed.
End typed.

(** The libraries at one file each: TOML and YAML texts that denote a value of a JSON text. *)
Definition demo_tree : json :=
  JObj [(".x", JNum (bytes_of "1")); ("proxies", JArr [JObj [("name", JStr "ssh"); ("type", JStr "xtcp")]])].
Definition demo_formats : Formats := {|
  Template content _ := Ok content;
  toml_Unmarshal b := if bool_decide (b = "[[proxies]]") then inl (inl (drop_dot_keys demo_tree))
                      else inr (TomlDecodeError 1 1 "not TOML");
  yaml_Unmarshal b := if bool_decide (b = ".x: 1") then inl demo_tree else inr "not YAML";
  yaml_client _ := inr (EText "not YAML"); yaml_server _ := inr (EText "not YAML");
  IsJSONBuffer b := bool_decide (str_at 0 b = Some (Ascii.ascii_of_nat 123));
  error_text _ := "error" |}.
Definition demo_files : OS := {|
  ReadFile path := if bool_decide (path = "frpc.toml") then Ok "[[proxies]]"
                   else if bool_decide (path = "frpc.yaml") then Ok ".x: 1" else Err "no such file";
  CommandOutput _ _ _ := Err "no command"; Getenv _ := ""; Environ := ["A=1"; "B"; "A=2=3"] |}.

Example demo_env : @GetValues demo_files = {["A" := "2=3"]}.
Proof. vm_compute. reflexivity. Qed.

Lemma loaded_configuration_typed_witness :
  match @LoadClientConfig (@file_loader demo_formats demo_files (λ _, Err "no directory") (λ _ _, false))
          demo_dirs demo_files "frpc.yaml" true with
  | Ok (_, ps, vs) => configurers_typed ps vs ∧ proxy_name <$> ps = ["ssh"]
  | Err _ => False
  end.
Proof.
  destruct (@LoadClientConfig (@file_loader demo_formats demo_files (λ _, Err "no directory") (λ _ _, false))
    demo_dirs demo_files "frpc.yaml" true) as [[[common ps] vs]|e] eqn:E; [|vm_compute in E; discriminate].
  split; [exact (@loaded_configuration_typed demo_formats demo_files demo_dirs _ _ "frpc.yaml" common ps vs E)|].
  vm_compute in E. injection E as _ <- _. reflexivity.
Defined.

(** The format of a file does not matter: a TOML file loads exactly when the JSON file that
    prints the same value does, with the same result, for a client's and a server's
    configuration, strictly or not. *)
Theorem toml_and_json_agree `{Formats} {T} `{Target T} (toml : string) (tree : json) (strict : bool)
    (format : string) (e : toml_error) (x : T) :
  let json := string_of (print tree) in
  toml_Unmarshal toml = inl (inl tree) → toml_Unmarshal json = inr e → format ≠ "toml" →
  LoadConfigure toml strict "toml" = inl x ↔ LoadConfigure json strict format = inl x.
Proof.
  intros json Ht Hj Hf. unfold LoadConfigure. rewrite Ht, Hj, bool_decide_eq_false_2 by done.
  fold json. unfold load_text. repeat case_match; split; congruence.
Qed.
Lemma toml_and_json_agree_witness :
  @LoadConfigure demo_formats ClientFile (@client_target demo_formats) "[[proxies]]" true "toml"
  = @LoadConfigure demo_formats ClientFile (@client_target demo_formats)
      (string_of (print (drop_dot_keys demo_tree))) true "json".
Proof.
  destruct (@LoadConfigure demo_formats ClientFile (@client_target demo_formats)
    "[[proxies]]" true "toml") as [f|e] eqn:E; [|vm_compute in E; discriminate].
  symmetry. exact (proj1 (@toml_and_json_agree demo_formats ClientFile (@client_target demo_formats) "[[proxies]]"
    (drop_dot_keys demo_tree) true "json" (TomlDecodeError 1 1 "not TOML") f eq_refl ltac:(vm_compute; reflexivity)
    ltac:(discriminate)) E).
Defined.

(** The line of a decode error is searched in TOML syntax, and only for files that are not TOML:
    for an ordinary JSON file no line is reported. *)
Definition wrong_port : string :=
  string_of (bytes_of ("{" +:+ String nl ("  " +:+ squoted "serverPort" +:+ ": " +:+ squoted "7000" +:+ String nl "}"))).
Theorem json_error_without_line :
  @LoadConfigure demo_formats ServerConfig (@server_target demo_formats)
    ("{ " +:+ squoted "bindPort" +:+ ": " +:+ squoted "7000" +:+ " }") true "json"
  = inr (EText ("field " +:+ squoted "bindPort" +:+ ": cannot unmarshal string into int")) ∧
  findFieldLineInContent wrong_port "serverPort" = 0.
Proof. vm_compute. split; reflexivity. Qed.

(** An error inside a proxy loses its field: the decoder wraps it as a text. *)
Theorem proxy_error_without_field :
  @LoadConfigure demo_formats ClientFile (@client_target demo_formats)
    ("{" +:+ squoted "proxies" +:+ ":[{" +:+ squoted "type" +:+ ":" +:+ squoted "xtcp" +:+ "," +:+ squoted "localPort"
     +:+ ":" +:+ squoted "x" +:+ "}]}") true "json"
  = inr (EFmtW "decode proxy at index 0: " (EFmtV "unmarshal ProxyConfig error: "
      (EJson (JTypeError "string" "XTCPProxyConfig" ["ProxyBaseConfig"; "ProxyBackend"; "localPort"] "int")))).
Proof. vm_compute. reflexivity. Qed.
