(* ===== verification/NatClassify.v ===== *)
(** * NAT classification: [pkg/nathole/classify.go], [parseIPs] of [nathole.go]

    From the external addresses a host learned from STUN servers and its own
    local IPs, the classifier decides whether its NAT is easy or hard and how its
    ports change.  [classify_loop] is the loop of the source with its variables;
    [feature_spec] is what the result means. *)
From S2P Require Import Prelude GoStd.
From stdpp Require Import list.
Local Open Scope Z_scope.

Definition EasyNAT : string := "EasyNAT".
Definition HardNAT : string := "HardNAT".
Definition BehaviorNoChange : string := "BehaviorNoChange".
Definition BehaviorIPChanged : string := "BehaviorIPChanged".
Definition BehaviorPortChanged : string := "BehaviorPortChanged".
Definition BehaviorBothChanged : string := "BehaviorBothChanged".

Record NatFeature := mkNatFeature {
  NatType : string;
  Behavior : string;
  PortsDifference : Z;
  RegularPortsChange : bool;
  PublicNetwork : bool;
}.
#[export] Instance NatFeature_eq_dec : EqDecision NatFeature.
Proof. solve_decision. Defined.

(** [parseIPs]: the hosts of the addresses that parse. *)
Fixpoint parseIPs (addrs : list string) : list string :=
  match addrs with
  | [] => []
  | addr :: addrs =>
      match SplitHostPort addr with
      | Ok (ip, _) => ip :: parseIPs addrs
      | Err _ => parseIPs addrs
      end
  end.

(** The variables of the loop of [ClassifyNATFeature]. *)
Record cls := mkCls {
  ipChanged : bool;
  portChanged : bool;
  baseIP : string;
  basePort : string;
  portMax : Z;
  portMin : Z;
  isPublic : bool;
}.
Definition cls_init : cls := mkCls false false "" "" 0 0 false.

Fixpoint classify_loop (localIPs : list string) (addresses : list string) (s : cls) : result cls :=
  match addresses with
  | [] => Ok s
  | addr :: rest =>
      SplitHostPort addr ≫= λ '(ip, port),
      Atoi port ≫= λ portNum,
      let pub := isPublic s || bool_decide (ip ∈ localIPs) in
      if bool_decide (baseIP s = "") then
        classify_loop localIPs rest
          (mkCls (ipChanged s) (portChanged s) ip port portNum portNum pub)
      else
        classify_loop localIPs rest
          (mkCls (ipChanged s || negb (bool_decide (baseIP s = ip)))
                 (portChanged s || negb (bool_decide (basePort s = port)))
                 (baseIP s) (basePort s)
                 (Z.max (portMax s) portNum) (Z.min (portMin s) portNum) pub)
  end.

(** The [switch] and the port statistics after the loop. *)
Definition classify_finish (s : cls) : NatFeature :=
  let '(ty, beh) :=
    if ipChanged s && portChanged s then (HardNAT, BehaviorBothChanged)
    else if ipChanged s then (HardNAT, BehaviorIPChanged)
    else if portChanged s then (HardNAT, BehaviorPortChanged)
    else (EasyNAT, BehaviorNoChange) in
  if bool_decide (beh = BehaviorPortChanged) then
    let diff := (portMax s -₆₄ portMin s)%go in
    mkNatFeature ty beh diff ((diff <=? 5) && (1 <=? diff)) (isPublic s)
  else mkNatFeature ty beh 0 false (isPublic s).

Definition ClassifyNATFeature (addresses localIPs : list string) : result NatFeature :=
  if (length addresses <=? 1)%nat then Err "not enough addresses"
  else classify_loop localIPs addresses cls_init ≫= λ s, Ok (classify_finish s).

(** [(easyCount, hardCount, portsChangedRegularCount)]. *)
Fixpoint ClassifyFeatureCount (features : list NatFeature) : Z * Z * Z :=
  match features with
  | [] => (0, 0, 0)
  | f :: fs =>
      let '(e, h, r) := ClassifyFeatureCount fs in
      if bool_decide (NatType f = EasyNAT) then (e + 1, h, r)
      else (e, h + 1, if RegularPortsChange f then r + 1 else r)
  end.

(** ** What a feature means *)

(** An address with the host, port text and port number the classifier reads. *)
Definition addr_parse (addr : string) (p : string * string * Z) : Prop :=
  SplitHostPort addr = Ok (p.1.1, p.1.2) ∧ Atoi p.1.2 = Ok p.2.

Definition ips_differ (b : string * string * Z) (l : list (string * string * Z)) : bool :=
  existsb (λ p, negb (bool_decide (b.1.1 = p.1.1))) l.
Definition ports_differ (b : string * string * Z) (l : list (string * string * Z)) : bool :=
  existsb (λ p, negb (bool_decide (b.1.2 = p.1.2))) l.
Definition max_port (b : string * string * Z) (l : list (string * string * Z)) : Z :=
  fold_left Z.max (snd <$> l) b.2.
Definition min_port (b : string * string * Z) (l : list (string * string * Z)) : Z :=
  fold_left Z.min (snd <$> l) b.2.
Definition any_local (localIPs : list string) (l : list (string * string * Z)) : bool :=
  existsb (λ p, bool_decide (p.1.1 ∈ localIPs)) l.

(** The feature of a host seen as [b] first and as [l] afterwards. *)
Definition feature_spec (localIPs : list string) (b : string * string * Z)
    (l : list (string * string * Z)) : NatFeature :=
  let pub := any_local localIPs (b :: l) in
  let diff := (max_port b l -₆₄ min_port b l)%go in
  match ips_differ b l, ports_differ b l with
  | true, true => mkNatFeature HardNAT BehaviorBothChanged 0 false pub
  | true, false => mkNatFeature HardNAT BehaviorIPChanged 0 false pub
  | false, true => mkNatFeature HardNAT BehaviorPortChanged diff ((diff <=? 5) && (1 <=? diff)) pub
  | false, false => mkNatFeature EasyNAT BehaviorNoChange 0 false pub
  end.

(** The invariants of a classified feature. *)
Definition wf_feature (f : NatFeature) : Prop :=
  (NatType f = EasyNAT ↔ Behavior f = BehaviorNoChange)
  ∧ (NatType f = EasyNAT ∨ NatType f = HardNAT)
  ∧ (RegularPortsChange f = true → Behavior f = BehaviorPortChanged ∧ 1 ≤ PortsDifference f ≤ 5)
  ∧ (Behavior f ≠ BehaviorPortChanged → PortsDifference f = 0).

(** ** Lemmas *)
Lemma classify_loop_spec localIPs addrs ps s :
  Forall2 addr_parse addrs ps → baseIP s ≠ "" →
  classify_loop localIPs addrs s = Ok
    (let b := (baseIP s, basePort s, portMax s) in
     mkCls (ipChanged s || ips_differ b ps) (portChanged s || ports_differ b ps)
       (baseIP s) (basePort s) (fold_left Z.max (snd <$> ps) (portMax s))
       (fold_left Z.min (snd <$> ps) (portMin s)) (isPublic s || any_local localIPs ps)).
Proof.
  intros H. revert s. induction H as [|addr [[ip port] n] addrs ps [Hs Ha] Hps IH]; intros s Hb.
  - simpl. rewrite !orb_false_r. by destruct s.
  - simpl in *. rewrite Hs. simpl. rewrite Ha. simpl.
    rewrite bool_decide_eq_false_2 by done. rewrite IH by done. simpl.
    by rewrite !orb_assoc.
Qed.

Lemma classify_loop_is_ok localIPs addrs s :
  is_ok (classify_loop localIPs addrs s) = true ↔ Forall (λ a, ∃ p, addr_parse a p) addrs.
Proof.
  revert s. induction addrs as [|a addrs IH]; intros s; simpl; [by split|].
  rewrite Forall_cons. unfold addr_parse at 1.
  destruct (SplitHostPort a) as [[ip port]|e] eqn:Hs; simpl.
  - destruct (Atoi port) as [n|e] eqn:Ha; simpl.
    + assert (∃ p : string * string * Z,
        Ok (ip, port) = Ok (p.1.1, p.1.2) ∧ Atoi p.1.2 = Ok p.2) by (by exists (ip, port, n)).
      case_bool_decide; rewrite IH; tauto.
    + split; [done|]. intros [([[? ?] ?] & [=] & ?) ?]. simpl in *. by subst; rewrite Ha in *.
  - split; [done|]. intros [(? & ? & ?) ?]. done.
Qed.

Lemma classify_finish_wf s : wf_feature (classify_finish s).
Proof.
  unfold wf_feature, classify_finish.
  destruct (ipChanged s), (portChanged s); cbn -[wrap64]; case_bool_decide; try done;
    cbn -[wrap64]; (split; [done|]); (split; [auto|]); (split; [intros Hr|try done]); try done.
  apply andb_true_iff in Hr as [? ?]. zify_bool. auto.
Qed.

(** ** Theorems *)

(** C34. The classifier computes what a feature means: given at least two
    addresses that parse, the first with a non-empty host, the NAT is easy iff
    every observation has the host and port of the first one, the behaviour names
    which of the two changed, the port difference is the spread of the observed
    ports (and is reported only when the ports alone change), it is regular iff
    the spread is between 1 and 5, and the host is on a public network iff one of
    its observed hosts is a local IP. *)
Theorem ClassifyNATFeature_correct (localIPs addrs : list string)
    (b : string * string * Z) (ps : list (string * string * Z)) :
  Forall2 addr_parse addrs (b :: ps) → b.1.1 ≠ "" → ps ≠ [] →
  ClassifyNATFeature addrs localIPs = Ok (feature_spec localIPs b ps).
Proof.
  intros H Hb Hps. unfold ClassifyNATFeature.
  pose proof (Forall2_length _ _ _ H) as Hlen. destruct ps as [|p ps]; [done|].
  rewrite (proj2 (Nat.leb_gt _ _)) by (simpl in Hlen; lia).
  destruct addrs as [|a addrs]; [done|]. apply Forall2_cons in H as [[Hs Ha] H].
  destruct b as [[ip port] n]. simpl in Hs, Ha, Hb.
  cbn [classify_loop]. rewrite Hs. cbn [mbind result_bind]. rewrite Ha. cbn [mbind result_bind].
  rewrite bool_decide_eq_true_2 by done.
  rewrite (classify_loop_spec _ _ _ _ H) by done. clear H Hlen. generalize (p :: ps). intros l.
  unfold classify_finish, feature_spec, any_local, max_port, min_port.
  cbn [mbind result_bind ipChanged portChanged isPublic portMax portMin baseIP basePort existsb
    fst snd orb].
  destruct (ips_differ _ _), (ports_differ _ _); reflexivity.
Qed.

Lemma ClassifyNATFeature_correct_witness :
  ClassifyNATFeature ["1.2.3.4:4000"; "1.2.3.4:4003"; "1.2.3.4:4001"] ["10.0.0.2"]
  = Ok (mkNatFeature HardNAT BehaviorPortChanged 3 true false).
Proof.
  rewrite (ClassifyNATFeature_correct ["10.0.0.2"]
    ["1.2.3.4:4000"; "1.2.3.4:4003"; "1.2.3.4:4001"] ("1.2.3.4", "4000", 4000)
    [("1.2.3.4", "4003", 4003); ("1.2.3.4", "4001", 4001)]).
  - vm_compute. reflexivity.
  - repeat constructor; vm_compute; reflexivity.
  - discriminate.
  - discriminate.
Defined.

(** When classification fails, and the shape of what it returns: it succeeds
    exactly when there are at least two addresses and every one has the form
    [host:port] with a decimal 64-bit port, and then the feature is well formed
    (easy iff nothing changed, regular only for port changes with a spread of 1
    to 5, no spread reported otherwise). *)
Theorem ClassifyNATFeature_total (localIPs addrs : list string) :
  (is_ok (ClassifyNATFeature addrs localIPs) = true ↔
     (2 ≤ length addrs)%nat ∧ Forall (λ a, ∃ p, addr_parse a p) addrs)
  ∧ match ClassifyNATFeature addrs localIPs with Ok f => wf_feature f | Err _ => True end.
Proof.
  unfold ClassifyNATFeature. split.
  - destruct (Nat.leb_spec (length addrs) 1).
    + split; [done|]. intros [? _]. lia.
    + rewrite <-(classify_loop_is_ok localIPs addrs cls_init).
      destruct (classify_loop _ _ _); simpl; naive_solver.
  - destruct (Nat.leb _ _); [done|].
    destruct (classify_loop _ _ _); simpl; [apply classify_finish_wf|done].
Qed.

Lemma ClassifyFeatureCount_sum fs e h r :
  ClassifyFeatureCount fs = (e, h, r) → e + h = Z.of_nat (length fs) ∧ 0 ≤ e ∧ 0 ≤ r ≤ h.
Proof.
  revert e h r. induction fs as [|f fs IH]; simpl; intros e h r; [intros [= <- <- <-]; lia|].
  destruct (ClassifyFeatureCount fs) as [[e' h'] r']. specialize (IH _ _ _ eq_refl).
  case_bool_decide; [|destruct (RegularPortsChange f)]; intros [= <- <- <-]; lia.
Qed.
