(* ===== verification/Analyzer.v ===== *)
(** * Hole-punching decisions: [pkg/nathole/analysis.go]

    The analyzer keeps, per pair of hosts, a score for each strategy (a
    mode and an index into that mode's table) and recommends the first strategy
    with the highest score, lowering its score by one; a reported success raises
    the score of its strategy by two, up to 10.  Each critical section of the
    source is one function here; the instant [now] is an argument.  [int] scores
    are integers without a bound: leaving the 64-bit range takes 2^63
    recommendations for one pair of hosts. *)
From S2P Require Import Prelude GoStd NatClassify.
From stdpp Require Import list.
Local Open Scope Z_scope.

Definition DetectMode0 : Z := 0.
Definition DetectMode1 : Z := 1.
Definition DetectMode2 : Z := 2.
Definition DetectMode3 : Z := 3.
Definition DetectMode4 : Z := 4.
Definition DetectRoleSender : string := "sender".
Definition DetectRoleReceiver : string := "receiver".

Record RecommandBehavior := mkRB {
  rb_Role : string;
  rb_TTL : Z;
  rb_SendDelayMs : Z;
  rb_PortsRangeNumber : Z;
  rb_PortsRandomNumber : Z;
  rb_ListenRandomPorts : Z;
}.
Definition zero_RB : RecommandBehavior := mkRB "" 0 0 0 0 0.

(** Keyed struct literals of the tables: role and the fields that are set. *)
Definition sender (delay rng rnd : Z) : RecommandBehavior :=
  mkRB DetectRoleSender 0 delay rng rnd 0.
Definition receiver (ttl rng lst : Z) : RecommandBehavior :=
  mkRB DetectRoleReceiver ttl 0 rng 0 lst.

Definition mode0Behaviors : list (RecommandBehavior * RecommandBehavior) :=
  [(sender 0 0 0, receiver 7 0 0); (receiver 7 0 0, sender 0 0 0);
   (sender 0 0 0, receiver 4 0 0); (receiver 4 0 0, sender 0 0 0);
   (sender 0 0 0, receiver 0 0 0); (receiver 0 0 0, sender 0 0 0);
   (sender 5000 0 0, receiver 0 0 0); (sender 10000 0 0, receiver 0 0 0);
   (receiver 0 0 0, sender 5000 0 0); (receiver 0 0 0, sender 10000 0 0)].
Definition mode1Behaviors : list (RecommandBehavior * RecommandBehavior) :=
  [(sender 0 0 0, receiver 7 10 0); (sender 2000 0 0, receiver 7 10 0);
   (sender 0 0 0, receiver 4 10 0); (sender 2000 0 0, receiver 4 10 0);
   (sender 0 0 0, receiver 0 10 0); (sender 2000 0 0, receiver 0 10 0)].
Definition mode2Behaviors : list (RecommandBehavior * RecommandBehavior) :=
  [(sender 3000 0 1000, receiver 7 0 256); (sender 3000 0 1000, receiver 4 0 256);
   (sender 3000 0 1000, receiver 0 0 256)].
Definition mode3Behaviors : list (RecommandBehavior * RecommandBehavior) :=
  [(sender 0 10 0, receiver 7 10 0); (sender 0 10 0, receiver 4 10 0);
   (sender 0 10 0, receiver 0 10 0); (receiver 7 10 0, sender 0 10 0);
   (receiver 4 10 0, sender 0 10 0); (receiver 0 10 0, sender 0 10 0)].
Definition mode4Behaviors : list (RecommandBehavior * RecommandBehavior) :=
  [(sender 3000 0 1000, receiver 7 2 256); (sender 3000 0 1000, receiver 4 2 256);
   (sender 3000 0 1000, receiver 0 2 256)].

Definition getBehaviorByMode (mode : Z) : list (RecommandBehavior * RecommandBehavior) :=
  match mode with
  | 0 => mode0Behaviors
  | 1 => mode1Behaviors
  | 2 => mode2Behaviors
  | 3 => mode3Behaviors
  | 4 => mode4Behaviors
  | _ => mode0Behaviors
  end.

(** A negative index panics in the source; [index_in_table] shows that the
    analyzer never produces one. *)
Definition getBehaviorByModeAndIndex (mode index : Z) : RecommandBehavior * RecommandBehavior :=
  let behaviors := getBehaviorByMode mode in
  if Z.of_nat (length behaviors) <=? index then (zero_RB, zero_RB)
  else default (zero_RB, zero_RB) (behaviors !! Z.to_nat index).

Record behaviorScore := mkScore { bs_Mode : Z; bs_Index : Z; bs_Score : Z }.

Definition getBehaviorScoresByMode2 (mode senderScore receiverScore : Z) : list behaviorScore :=
  imap (λ i (b : RecommandBehavior * RecommandBehavior),
    mkScore mode (Z.of_nat i)
      (if bool_decide (rb_Role b.1 = DetectRoleSender) then senderScore else receiverScore))
    (getBehaviorByMode mode).
Definition getBehaviorScoresByMode (mode defaultScore : Z) : list behaviorScore :=
  getBehaviorScoresByMode2 mode defaultScore defaultScore.

#[export] Instance behaviorScore_eq_dec : EqDecision behaviorScore.
Proof. solve_decision. Defined.

Record makeHoleRecords := mkRecords {
  mhr_scores : list behaviorScore;
  lastUpdateTime : Z;
}.

(** The closure [appendMode0] of [newMakeHoleRecordsWithClock]. *)
Definition appendMode0 (c v : NatFeature) : list behaviorScore :=
  if PublicNetwork c then getBehaviorScoresByMode2 DetectMode0 0 1
  else if PublicNetwork v then getBehaviorScoresByMode2 DetectMode0 1 0
  else getBehaviorScoresByMode DetectMode0 0.

Definition newMakeHoleRecords (now : Z) (c v : NatFeature) : makeHoleRecords :=
  let '(easyCount, hardCount, regular) := ClassifyFeatureCount [c; v] in
  mkRecords
    (if easyCount =? 2 then appendMode0 c v
     else if (hardCount =? 1) && (regular =? 1) then
       getBehaviorScoresByMode DetectMode1 0 ++ getBehaviorScoresByMode DetectMode2 0
         ++ appendMode0 c v
     else if (hardCount =? 1) && (regular =? 0) then
       getBehaviorScoresByMode DetectMode2 0 ++ getBehaviorScoresByMode DetectMode1 0
         ++ appendMode0 c v
     else if (hardCount =? 2) && (regular =? 2) then
       getBehaviorScoresByMode DetectMode3 0 ++ getBehaviorScoresByMode DetectMode4 0
     else if (hardCount =? 2) && (regular =? 1) then getBehaviorScoresByMode DetectMode4 0
     else
       getBehaviorScoresByMode DetectMode0 1 ++ getBehaviorScoresByMode DetectMode1 1
         ++ getBehaviorScoresByMode DetectMode3 1)
    now.

(** The loop of [reportSuccess] up to its [return]. *)
Fixpoint bump_score (mode index : Z) (scores : list behaviorScore) : list behaviorScore :=
  match scores with
  | [] => []
  | s :: scores =>
      if negb (bool_decide (bs_Mode s = mode)) || negb (bool_decide (bs_Index s = index))
      then s :: bump_score mode index scores
      else mkScore (bs_Mode s) (bs_Index s) (Z.min (bs_Score s + 2) 10) :: scores
  end.
Definition reportSuccess (now mode index : Z) (r : makeHoleRecords) : makeHoleRecords :=
  mkRecords (bump_score mode index (mhr_scores r)) now.

(** The position [slices.MaxFunc] returns: the first maximal element. *)
Fixpoint max_pos (best : nat) (m : Z) (i : nat) (scores : list behaviorScore) : nat :=
  match scores with
  | [] => best
  | s :: scores => if m <? bs_Score s then max_pos i (bs_Score s) (S i) scores
                   else max_pos best m (S i) scores
  end.
Definition MaxFunc (scores : list behaviorScore) : option nat :=
  match scores with
  | [] => None
  | s :: rest => Some (max_pos 0 (bs_Score s) 1 rest)
  end.

Definition dec_score (s : behaviorScore) : behaviorScore :=
  mkScore (bs_Mode s) (bs_Index s) (bs_Score s - 1).

Definition recommand (now : Z) (r : makeHoleRecords) : Z * Z * makeHoleRecords :=
  match MaxFunc (mhr_scores r) with
  | None => (0, 0, r)
  | Some k =>
      match mhr_scores r !! k with
      | None => (0, 0, r)
      | Some s => (bs_Mode s, bs_Index s, mkRecords (alter dec_score k (mhr_scores r)) now)
      end
  end.

(** ** The analyzer *)
Record Analyzer := mkAnalyzer {
  an_records : gmap string makeHoleRecords;
  dataReserveDuration : Z;
}.
Definition NewAnalyzer (dur : Z) : Analyzer := mkAnalyzer ∅ dur.

(** The [switch] of [GetRecommandBehaviors] that decides which host plays which part. *)
Definition orient (mode : Z) (c : NatFeature) (b : RecommandBehavior * RecommandBehavior)
    : RecommandBehavior * RecommandBehavior :=
  if mode =? DetectMode1 then
    (if bool_decide (NatType c = EasyNAT) then (b.2, b.1) else b)
  else if mode =? DetectMode2 then
    (if bool_decide (NatType c = HardNAT) then (b.2, b.1) else b)
  else if mode =? DetectMode4 then
    (if negb (RegularPortsChange c) then (b.2, b.1) else b)
  else b.

Definition GetRecommandBehaviors (now : Z) (key : string) (c v : NatFeature) (a : Analyzer)
    : Z * Z * RecommandBehavior * RecommandBehavior * Analyzer :=
  let records := match an_records a !! key with
                 | Some r => r
                 | None => newMakeHoleRecords now c v
                 end in
  let '(mode, index, records) := recommand now records in
  let '(cBehavior, vBehavior) := orient mode c (getBehaviorByModeAndIndex mode index) in
  (mode, index, cBehavior, vBehavior,
   mkAnalyzer (<[key := records]> (an_records a)) (dataReserveDuration a)).

Definition ReportSuccess (now : Z) (key : string) (mode index : Z) (a : Analyzer) : Analyzer :=
  match an_records a !! key with
  | None => a
  | Some r => mkAnalyzer (<[key := reportSuccess now mode index r]> (an_records a))
                (dataReserveDuration a)
  end.

(** [Clean] returns the number of deleted records and the number there were. *)
Definition stale (now : Z) (a : Analyzer) (r : makeHoleRecords) : Prop :=
  dataReserveDuration a < time_sub now (lastUpdateTime r).
#[export] Instance stale_dec now a r : Decision (stale now a r).
Proof. unfold stale. apply _. Defined.
Definition Clean (now : Z) (a : Analyzer) : Z * Z * Analyzer :=
  let keep := filter (λ kr : string * makeHoleRecords, ¬ stale now a kr.2) (an_records a) in
  (Z.of_nat (size (an_records a)) - Z.of_nat (size keep), Z.of_nat (size (an_records a)),
   mkAnalyzer keep (dataReserveDuration a)).

(** ** Steps and reachable states *)
Inductive astep : Analyzer → Analyzer → Prop :=
| astep_get now key c v a m i cb vb a' :
    GetRecommandBehaviors now key c v a = (m, i, cb, vb, a') → astep a a'
| astep_report now key m i a : astep a (ReportSuccess now key m i a)
| astep_clean now a n t a' : Clean now a = (n, t, a') → astep a a'.

Definition a_reachable (a : Analyzer) : Prop := ∃ dur, rtc astep (NewAnalyzer dur) a.

(** ** Invariant: every score is for a strategy in its mode's table and is at most 10,
    and the strategies of a record are distinct. *)
Definition score_ok (s : behaviorScore) : Prop :=
  0 ≤ bs_Mode s ≤ 4 ∧ 0 ≤ bs_Index s < Z.of_nat (length (getBehaviorByMode (bs_Mode s)))
  ∧ bs_Score s ≤ 10.
Definition strategy (s : behaviorScore) : Z * Z := (bs_Mode s, bs_Index s).
Definition records_ok (r : makeHoleRecords) : Prop :=
  mhr_scores r ≠ [] ∧ Forall score_ok (mhr_scores r) ∧ NoDup (strategy <$> mhr_scores r).
Definition analyzer_ok (a : Analyzer) : Prop := map_Forall (λ _, records_ok) (an_records a).

(** One side sends, the other receives. *)
Definition opposite_roles (b : RecommandBehavior * RecommandBehavior) : Prop :=
  (rb_Role b.1 = DetectRoleSender ∧ rb_Role b.2 = DetectRoleReceiver)
  ∨ (rb_Role b.1 = DetectRoleReceiver ∧ rb_Role b.2 = DetectRoleSender).
#[export] Instance opposite_roles_dec b : Decision (opposite_roles b).
Proof. unfold opposite_roles. apply _. Defined.

(** ** Lemmas: the choice *)
Lemma max_pos_spec pre scores best m :
  (∃ b, pre !! best = Some b ∧ bs_Score b = m) →
  (∀ j e, pre !! j = Some e → bs_Score e ≤ m) →
  (∀ j e, pre !! j = Some e → (j < best)%nat → bs_Score e < m) →
  ∃ b, (pre ++ scores) !! max_pos best m (length pre) scores = Some b ∧
    (∀ j e, (pre ++ scores) !! j = Some e → bs_Score e ≤ bs_Score b) ∧
    (∀ j e, (pre ++ scores) !! j = Some e → (j < max_pos best m (length pre) scores)%nat →
       bs_Score e < bs_Score b).
Proof.
  revert pre best m. induction scores as [|s scores IH]; intros pre best m Hb Hle Hlt; simpl.
  - rewrite app_nil_r. destruct Hb as (b & Hb & <-). eauto.
  - replace (pre ++ s :: scores) with ((pre ++ [s]) ++ scores) by (by rewrite <-(assoc_L (++))).
    assert (Hlen : length (pre ++ [s]) = S (length pre)) by (rewrite length_app; simpl; lia).
    rewrite <-Hlen.
    assert (Hsplit : ∀ j e, (pre ++ [s]) !! j = Some e → pre !! j = Some e ∨ (j = length pre ∧ e = s)).
    { intros j e Hj. apply lookup_app_Some in Hj as [?|[? Hj]]; [by left|right].
      destruct (j - length pre)%nat eqn:Hd; simplify_eq/=. split; [lia|done]. }
    destruct (Z.ltb_spec m (bs_Score s)); apply IH.
    + exists s. rewrite lookup_app_r, Nat.sub_diag by lia. done.
    + intros j e [Hj|[-> ->]]%Hsplit; [apply Hle in Hj|]; lia.
    + intros j e [Hj|[-> ->]]%Hsplit ?; [apply Hle in Hj|]; lia.
    + destruct Hb as (b & ? & ?). exists b. split; [|done]. by apply lookup_app_l_Some.
    + intros j e [Hj|[-> ->]]%Hsplit; [by eapply Hle|lia].
    + intros j e [Hj|[-> ->]]%Hsplit ?; [by eapply Hlt|].
      destruct Hb as (b & Hb%lookup_lt_Some & _). lia.
Qed.

(** The element chosen is maximal and everything before it is smaller. *)
Definition first_max (scores : list behaviorScore) (k : nat) (b : behaviorScore) : Prop :=
  scores !! k = Some b ∧
  (∀ j e, scores !! j = Some e → bs_Score e ≤ bs_Score b) ∧
  (∀ j e, scores !! j = Some e → (j < k)%nat → bs_Score e < bs_Score b).

Lemma MaxFunc_spec scores : scores ≠ [] → ∃ k b, MaxFunc scores = Some k ∧ first_max scores k b.
Proof.
  destruct scores as [|s rest]; [done|intros _].
  destruct (max_pos_spec [s] rest 0 (bs_Score s)) as (b & Hb & Hle & Hlt).
  - by exists s.
  - intros [|j] e Hj; simplify_eq/=. lia.
  - intros j e _ ?. lia.
  - exists (max_pos 0 (bs_Score s) 1 rest), b. done.
Qed.

Lemma first_max_unique scores k1 b1 k2 b2 :
  first_max scores k1 b1 → first_max scores k2 b2 → k1 = k2 ∧ b1 = b2.
Proof.
  intros (H1 & Hle1 & Hlt1) (H2 & Hle2 & Hlt2).
  assert (k1 = k2) as ->; [|by simplify_eq].
  destruct (lt_eq_lt_dec k1 k2) as [[?|?]|?]; [|done|].
  - specialize (Hlt2 _ _ H1 ltac:(lia)). specialize (Hle1 _ _ H2). lia.
  - specialize (Hlt1 _ _ H2 ltac:(lia)). specialize (Hle2 _ _ H1). lia.
Qed.

Lemma recommand_first_max now r k b :
  first_max (mhr_scores r) k b →
  recommand now r = (bs_Mode b, bs_Index b, mkRecords (alter dec_score k (mhr_scores r)) now).
Proof.
  intros Hm. unfold recommand.
  destruct (MaxFunc_spec (mhr_scores r)) as (k' & b' & -> & Hm').
  { intros Hnil. destruct Hm as [Hm _]. by rewrite Hnil in Hm. }
  destruct (first_max_unique _ _ _ _ _ Hm Hm') as [<- <-]. by rewrite (proj1 Hm).
Qed.

Lemma recommand_cases now r : mhr_scores r ≠ [] →
  ∃ k b, first_max (mhr_scores r) k b ∧
    recommand now r = (bs_Mode b, bs_Index b, mkRecords (alter dec_score k (mhr_scores r)) now).
Proof.
  intros Hr. destruct (MaxFunc_spec _ Hr) as (k & b & _ & Hm). exists k, b.
  split; [done|]. by apply recommand_first_max.
Qed.

(** ** Lemmas: the invariant *)
Lemma strategy_dec s : strategy (dec_score s) = strategy s.
Proof. done. Qed.

Lemma strategy_alter (k : nat) (scores : list behaviorScore) : strategy <$> alter dec_score k scores = strategy <$> scores.
Proof.
  revert k. induction scores as [|s scores IH]; intros [|k]; [done..|].
  change (strategy s :: (strategy <$> alter dec_score k scores) = strategy s :: (strategy <$> scores)).
  by rewrite IH.
Qed.

Lemma strategy_bump m i scores : strategy <$> bump_score m i scores = strategy <$> scores.
Proof.
  induction scores as [|s scores IH]; [done|]. cbn [bump_score].
  destruct (_ || _); cbn [fmap list_fmap]; [by rewrite IH|done].
Qed.

Lemma score_ok_bump m i scores : Forall score_ok scores → Forall score_ok (bump_score m i scores).
Proof.
  induction 1 as [|s scores Hs Hss IH]; cbn [bump_score]; [done|].
  destruct (_ || _); constructor; try done. unfold score_ok in *. simpl. lia.
Qed.

Lemma score_ok_alter k scores : Forall score_ok scores → Forall score_ok (alter dec_score k scores).
Proof. intros. apply Forall_alter; [done|]. unfold score_ok. simpl. intros; lia. Qed.

Lemma records_ok_recommand now r m i r' :
  records_ok r → recommand now r = (m, i, r') →
  records_ok r' ∧ (∃ s, s ∈ mhr_scores r ∧ bs_Mode s = m ∧ bs_Index s = i).
Proof.
  intros (Hne & Hok & Hnd) Hr.
  destruct (recommand_cases now r Hne) as (k & b & [Hb _] & Hr'). rewrite Hr in Hr'. simplify_eq.
  split; [|exists b; split; [by eapply list_elem_of_lookup_2|done]].
  split_and!; simpl.
  - intros Hnil. apply Hne. apply length_zero_iff_nil. rewrite <-(length_alter dec_score _ k).
    by rewrite Hnil.
  - by apply score_ok_alter.
  - by rewrite strategy_alter.
Qed.

Lemma records_ok_report now m i r : records_ok r → records_ok (reportSuccess now m i r).
Proof.
  intros (Hne & Hok & Hnd). split_and!; simpl.
  - intros Hnil. apply Hne. apply (f_equal (fmap strategy)) in Hnil.
    rewrite strategy_bump in Hnil. by apply fmap_nil_inv in Hnil.
  - by apply score_ok_bump.
  - by rewrite strategy_bump.
Qed.

Definition records_okb (scores : list behaviorScore) : bool :=
  negb (bool_decide (scores = [])) &&
  forallb (λ s, (0 <=? bs_Mode s) && (bs_Mode s <=? 4) && (0 <=? bs_Index s)
    && (bs_Index s <? Z.of_nat (length (getBehaviorByMode (bs_Mode s)))) && (bs_Score s <=? 10)) scores
  && bool_decide (NoDup (strategy <$> scores)).

Lemma records_okb_sound scores now : records_okb scores = true → records_ok (mkRecords scores now).
Proof.
  unfold records_okb, records_ok. rewrite !andb_true_iff, negb_true_iff, forallb_forall.
  intros ((Hne%bool_decide_eq_false & Hok) & Hnd%bool_decide_eq_true).
  split_and!; [done| |done]. apply Forall_forall. intros s Hs%list_elem_of_In.
  apply Hok in Hs. rewrite !andb_true_iff in Hs. destruct Hs as [[[[? ?] ?] ?] ?].
  zify_bool. unfold score_ok. lia.
Qed.

Lemma newMakeHoleRecords_ok now c v : records_ok (newMakeHoleRecords now c v).
Proof.
  unfold newMakeHoleRecords, appendMode0, ClassifyFeatureCount.
  repeat case_bool_decide;
    destruct (RegularPortsChange c), (RegularPortsChange v), (PublicNetwork c), (PublicNetwork v);
    apply records_okb_sound; vm_compute; reflexivity.
Qed.

Lemma behavior_table_roles mode index :
  0 ≤ mode ≤ 4 → 0 ≤ index < Z.of_nat (length (getBehaviorByMode mode)) →
  opposite_roles (getBehaviorByModeAndIndex mode index).
Proof.
  intros Hm Hi. unfold getBehaviorByModeAndIndex.
  destruct (Z.leb_spec (Z.of_nat (length (getBehaviorByMode mode))) index); [lia|].
  assert (Hall : Forall opposite_roles (getBehaviorByMode mode)).
  { assert (mode = 0 ∨ mode = 1 ∨ mode = 2 ∨ mode = 3 ∨ mode = 4) as Hc by lia.
    repeat destruct Hc as [->|Hc]; [..|subst]; apply (bool_decide_unpack _); vm_compute; done. }
  destruct (lookup_lt_is_Some_2 (getBehaviorByMode mode) (Z.to_nat index)) as [b Hb]; [lia|].
  rewrite Hb. simpl. by eapply Forall_lookup_1.
Qed.

Lemma orient_roles mode c b : opposite_roles b → opposite_roles (orient mode c b).
Proof. unfold orient, opposite_roles. intros. repeat case_match; simpl; tauto. Qed.

Lemma GetRecommand_spec now key c v a m i cb vb a' :
  analyzer_ok a → GetRecommandBehaviors now key c v a = (m, i, cb, vb, a') →
  ∃ r r', r = default (newMakeHoleRecords now c v) (an_records a !! key) ∧ records_ok r ∧
    recommand now r = (m, i, r') ∧ records_ok r' ∧
    (cb, vb) = orient m c (getBehaviorByModeAndIndex m i) ∧
    an_records a' = <[key := r']> (an_records a) ∧
    0 ≤ m ≤ 4 ∧ 0 ≤ i < Z.of_nat (length (getBehaviorByMode m)).
Proof.
  intros Hok Hg. unfold GetRecommandBehaviors in Hg.
  set (r := default (newMakeHoleRecords now c v) (an_records a !! key)).
  assert (Hr : records_ok r).
  { subst r. destruct (an_records a !! key) eqn:E; [by apply (Hok _ _ E)|].
    apply newMakeHoleRecords_ok. }
  change (match an_records a !! key with Some r0 => r0 | None => newMakeHoleRecords now c v end)
    with r in Hg.
  destruct (recommand now r) as [[m' i'] r'] eqn:Hrec.
  destruct (records_ok_recommand _ _ _ _ _ Hr Hrec) as [Hr' (s & Hs & <- & <-)].
  destruct Hr as (? & Hall & ?). pose proof Hall as Hall'. rewrite Forall_forall in Hall'.
  destruct (Hall' _ Hs) as (? & ? & _).
  destruct (orient _ _ _) as [cb' vb'] eqn:Hor. simplify_eq.
  exists r, r'. repeat (split; [done|]). done.
Qed.

Lemma astep_ok a a' : analyzer_ok a → astep a a' → analyzer_ok a'.
Proof.
  intros Hok Hstep. destruct Hstep as [now key c v a m i cb vb a' Hg|now key m i a|now a n t a' Hc].
  - destruct (GetRecommand_spec _ _ _ _ _ _ _ _ _ _ Hok Hg) as (r & r' & _ & _ & _ & Hr' & _ & Ha & _).
    unfold analyzer_ok. rewrite Ha. by apply map_Forall_insert_2.
  - unfold ReportSuccess. destruct (an_records a !! key) as [r|] eqn:Hk; [|done].
    apply map_Forall_insert_2; [|done]. apply records_ok_report. by apply (Hok _ _ Hk).
  - unfold Clean in Hc. simplify_eq. intros key r [Hk _]%map_lookup_filter_Some.
    by apply (Hok key).
Qed.

Lemma a_reachable_ok a : a_reachable a → analyzer_ok a.
Proof.
  intros [dur Hr]. assert (Hinit : analyzer_ok (NewAnalyzer dur)) by apply map_Forall_empty.
  induction Hr; eauto using astep_ok.
Qed.

Lemma first_max_split scores k b : first_max scores k b →
  ∃ pre post, scores = pre ++ b :: post ∧ k = length pre ∧
    Forall (λ e, bs_Score e < bs_Score b) pre ∧ Forall (λ e, bs_Score e ≤ bs_Score b) post.
Proof.
  intros (Hk & Hle & Hlt). exists (take k scores), (drop (S k) scores).
  pose proof (lookup_lt_Some _ _ _ Hk). split_and!.
  - by rewrite take_drop_middle.
  - rewrite length_take. lia.
  - apply Forall_lookup. intros j e [Hj ?]%lookup_take_Some. by eapply Hlt.
  - apply Forall_lookup. intros j e Hj. rewrite lookup_drop in Hj. by eapply Hle.
Qed.

Lemma alter_dec_middle pre b post :
  alter dec_score (length pre) (pre ++ b :: post) = pre ++ dec_score b :: post.
Proof. rewrite alter_app_r_alt by lia. by rewrite Nat.sub_diag. Qed.

(** A report finds its strategy behind strategies that differ from it. *)
Lemma bump_middle pre b post :
  (∀ e, e ∈ pre → strategy e ≠ strategy b) →
  bump_score (bs_Mode b) (bs_Index b) (pre ++ b :: post)
    = pre ++ mkScore (bs_Mode b) (bs_Index b) (Z.min (bs_Score b + 2) 10) :: post.
Proof.
  induction pre as [|e pre IH]; intros Hnin; cbn [app bump_score].
  - by rewrite !bool_decide_eq_true_2.
  - assert (Hne : negb (bool_decide (bs_Mode e = bs_Mode b))
      || negb (bool_decide (bs_Index e = bs_Index b)) = true).
    { specialize (Hnin e ltac:(left)). unfold strategy in Hnin.
      repeat case_bool_decide; simpl; congruence. }
    rewrite Hne, IH; [done|]. intros x Hx. apply Hnin. by right.
Qed.

(** ** Lemmas: exploration *)

(** [n] recommendations in a row. *)
Fixpoint recommand_n (now : Z) (n : nat) (r : makeHoleRecords) : list (Z * Z) * makeHoleRecords :=
  match n with
  | O => ([], r)
  | S n =>
      let '(m, i, r) := recommand now r in
      let '(l, r) := recommand_n now n r in ((m, i) :: l, r)
  end.

Lemma first_max_middle pre b post :
  Forall (λ e, bs_Score e < bs_Score b) pre → Forall (λ e, bs_Score e ≤ bs_Score b) post →
  first_max (pre ++ b :: post) (length pre) b.
Proof.
  intros Hpre Hpost. rewrite Forall_lookup in Hpre, Hpost. split_and!.
  - by rewrite lookup_app_r, Nat.sub_diag by lia.
  - intros j e [Hj|[? Hj]]%lookup_app_Some; [apply Hpre in Hj; lia|].
    destruct (j - length pre)%nat; simplify_eq/=; [lia|]. by eapply Hpost.
  - intros j e Hj ?. rewrite lookup_app_l in Hj by lia. by eapply Hpre.
Qed.

Lemma recommand_n_uniform now s pre post :
  Forall (λ e, bs_Score e < s) pre → Forall (λ e, bs_Score e = s) post →
  ∀ t, recommand_n now (length post) (mkRecords (pre ++ post) t)
    = (strategy <$> post,
       mkRecords (pre ++ (dec_score <$> post)) (if decide (post = []) then t else now)).
Proof.
  revert pre. induction post as [|b post IH]; intros pre Hpre Hpost t; [done|].
  apply Forall_cons in Hpost as [Hb Hpost]. cbn [length recommand_n].
  rewrite (recommand_first_max now _ (length pre) b).
  2:{ apply first_max_middle; rewrite Hb; [done|]. eapply Forall_impl; [done|]. simpl. lia. }
  simpl mhr_scores.
  rewrite alter_dec_middle.
  replace (pre ++ dec_score b :: post) with ((pre ++ [dec_score b]) ++ post)
    by (by rewrite <-(assoc_L (++))).
  rewrite (IH (pre ++ [dec_score b])); [|apply Forall_app; split; [done|]|done].
  - rewrite (decide_False (P := b :: post = [])) by done. rewrite <-(assoc_L (++)).
    cbn [fmap list_fmap app]. by destruct (decide (post = [])).
  - constructor; [simpl; lia|done].
Qed.

(** ** Theorems *)

(** Every recommendation makes the hosts complementary: whatever sequence of
    recommendations, success reports and clean-ups came before, for every pair of
    hosts the recommended mode is one of the five, the index is in that mode's
    table, and exactly one of client and visitor is told to send while the other
    is told to receive. *)
Theorem recommendation_roles (a : Analyzer) now key c v m i cb vb a' :
  a_reachable a → GetRecommandBehaviors now key c v a = (m, i, cb, vb, a') →
  0 ≤ m ≤ 4 ∧ 0 ≤ i < Z.of_nat (length (getBehaviorByMode m)) ∧ opposite_roles (cb, vb).
Proof.
  intros Hr%a_reachable_ok Hg.
  destruct (GetRecommand_spec _ _ _ _ _ _ _ _ _ _ Hr Hg)
    as (r & r' & _ & _ & _ & _ & Hor & _ & Hm & Hi).
  rewrite Hor. eauto using orient_roles, behavior_table_roles.
Qed.

(** Three pairs of features for examples. *)
Definition hard_regular : NatFeature := mkNatFeature HardNAT BehaviorPortChanged 3 true false.
Definition easy_nat : NatFeature := mkNatFeature EasyNAT BehaviorNoChange 0 false false.
Definition easy_public : NatFeature := mkNatFeature EasyNAT BehaviorNoChange 0 false true.

Lemma recommendation_roles_witness :
  opposite_roles (sender 0 0 0, receiver 7 10 0).
Proof.
  refine (proj2 (proj2 (recommendation_roles (NewAnalyzer Hour) 1 "k" hard_regular easy_nat 1 0
    (sender 0 0 0) (receiver 7 10 0) _ _ _))).
  - exists Hour. apply rtc_refl.
  - reflexivity.
Defined.

(** The invariant of the analyzer, preserved by every operation in every
    order: each record has at least one strategy, no strategy twice, every
    strategy exists in the tables and no score exceeds 10. *)
Theorem analyzer_invariant (a : Analyzer) : a_reachable a →
  ∀ key r, an_records a !! key = Some r →
    mhr_scores r ≠ [] ∧ NoDup (strategy <$> mhr_scores r) ∧
    (∀ s, s ∈ mhr_scores r → 0 ≤ bs_Mode s ≤ 4 ∧
       0 ≤ bs_Index s < Z.of_nat (length (getBehaviorByMode (bs_Mode s))) ∧ bs_Score s ≤ 10).
Proof.
  intros Hr%a_reachable_ok key r Hk. destruct (Hr _ _ Hk) as (? & Hall & ?).
  rewrite Forall_forall in Hall. auto.
Qed.

Lemma analyzer_invariant_witness :
  ∃ r, an_records (GetRecommandBehaviors 1 "k" hard_regular easy_nat (NewAnalyzer Hour)).2
         !! "k" = Some r ∧ mhr_scores r ≠ [].
Proof.
  eexists. split; [reflexivity|].
  refine (proj1 (analyzer_invariant
    (GetRecommandBehaviors 1 "k" hard_regular easy_nat (NewAnalyzer Hour)).2 _ "k" _ eq_refl)).
  exists Hour. eapply rtc_l; [|apply rtc_refl].
  eapply (astep_get 1 "k" hard_regular easy_nat). reflexivity.
Defined.

(** Exploration: starting from equal scores, the analyzer recommends every
    strategy of a pair exactly once, in table order, before any of them a second
    time, and is then back at equal scores. *)
Theorem recommand_explores (now t s : Z) (scores : list behaviorScore) :
  Forall (λ e, bs_Score e = s) scores →
  recommand_n now (length scores) (mkRecords scores t)
    = (strategy <$> scores,
       mkRecords (dec_score <$> scores) (if decide (scores = []) then t else now)).
Proof. intros Hs. by apply (recommand_n_uniform now s [] scores). Qed.

Lemma recommand_explores_witness :
  (recommand_n 1 3 (mkRecords (getBehaviorScoresByMode DetectMode4 0) 0)).1 = [(4, 0); (4, 1); (4, 2)].
Proof.
  change 3%nat with (length (getBehaviorScoresByMode DetectMode4 0)).
  rewrite (recommand_explores 1 0 0 (getBehaviorScoresByMode DetectMode4 0)).
  - reflexivity.
  - repeat constructor.
Defined.

(** A success sticks: when the strategy just recommended is reported
    successful, the next recommendation for the same pair of hosts is that same
    strategy (also when its score is already at the cap of 10). *)
Theorem success_is_repeated (now now' now'' : Z) (r r' : makeHoleRecords) (m i : Z) :
  records_ok r → recommand now r = (m, i, r') →
  (recommand now'' (reportSuccess now' m i r')).1 = (m, i).
Proof.
  intros (Hne & Hok & Hnd) Hr.
  destruct (recommand_cases now r Hne) as (k & b & Hmax & Hr'). rewrite Hr in Hr'. simplify_eq.
  destruct (first_max_split _ _ _ Hmax) as (pre & post & Hsp & -> & Hpre & Hpost).
  rewrite Hsp in *. simpl. rewrite Forall_app, Forall_cons in Hok.
  destruct Hok as (_ & (_ & _ & Hb) & _).
  rewrite fmap_app, fmap_cons in Hnd. apply NoDup_app in Hnd as (_ & Hnd & _).
  rewrite alter_dec_middle. unfold reportSuccess. simpl mhr_scores.
  rewrite (bump_middle pre (dec_score b)).
  2:{ intros e He Heq. apply (Hnd (strategy e)); [by apply list_elem_of_fmap_2|].
      rewrite Heq. left. }
  rewrite (recommand_first_max _ _ (length pre)
    (mkScore (bs_Mode b) (bs_Index b) (Z.min (bs_Score b - 1 + 2) 10))); [done|].
  apply first_max_middle; eapply Forall_impl; try done; simpl; intros; lia.
Qed.

Lemma success_is_repeated_witness :
  (recommand 3 (reportSuccess 2 2 0
     (recommand 1 (newMakeHoleRecords 0 easy_nat (mkNatFeature HardNAT BehaviorBothChanged 0 false false))).2)).1
  = (2, 0).
Proof.
  apply (success_is_repeated 1 2 3
    (newMakeHoleRecords 0 easy_nat (mkNatFeature HardNAT BehaviorBothChanged 0 false false))).
  - apply newMakeHoleRecords_ok.
  - reflexivity.
Defined.

(** ** Lemmas: the state after recommendations for one pair of hosts *)
Lemma get_records now key c v a :
  an_records (GetRecommandBehaviors now key c v a).2 !! key
  = Some (recommand now (default (newMakeHoleRecords now c v) (an_records a !! key))).2.
Proof.
  unfold GetRecommandBehaviors. destruct (an_records a !! key) as [r|]; simpl.
  - destruct (recommand now r) as [[m i] r']. destruct (orient _ _ _). apply lookup_insert_eq.
  - destruct (recommand now (newMakeHoleRecords now c v)) as [[m i] r'].
    destruct (orient _ _ _). apply lookup_insert_eq.
Qed.

Lemma get_reachable now key c v a :
  a_reachable a → a_reachable (GetRecommandBehaviors now key c v a).2.
Proof.
  intros [dur Ha]. exists dur. eapply rtc_r; [exact Ha|].
  destruct (GetRecommandBehaviors now key c v a) as [[[[m i] cb] vb] a'] eqn:E.
  by eapply astep_get.
Qed.

(** Three failed attempts lower all three scores of mode 4 by one. *)
Lemma mode4_round z r1 r2 r3 m1 i1 m2 i2 m3 i3 :
  recommand 0 (mkRecords (getBehaviorScoresByMode DetectMode4 z) 0) = (m1, i1, r1) →
  recommand 0 r1 = (m2, i2, r2) → recommand 0 r2 = (m3, i3, r3) →
  r3 = mkRecords (getBehaviorScoresByMode DetectMode4 (z - 1)) 0.
Proof.
  intros H1 H2 H3.
  pose proof (recommand_n_uniform 0 z [] (getBehaviorScoresByMode DetectMode4 z)
    ltac:(constructor) ltac:(repeat constructor) 0) as Hn.
  change (length (getBehaviorScoresByMode DetectMode4 z)) with 3%nat in Hn.
  cbn [recommand_n app] in Hn. rewrite H1, H2, H3 in Hn. by injection Hn.
Qed.

Definition irregular_hard : NatFeature := mkNatFeature HardNAT BehaviorBothChanged 0 false false.

Lemma mode4_reachable (n : nat) : ∃ a, a_reachable a ∧
  an_records a !! "k" = Some (mkRecords (getBehaviorScoresByMode DetectMode4 (- Z.of_nat (S n))) 0).
Proof.
  set (get := λ a, (GetRecommandBehaviors 0 "k" hard_regular irregular_hard a).2).
  assert (Hround : ∀ a z, a_reachable a →
    default (newMakeHoleRecords 0 hard_regular irregular_hard) (an_records a !! "k")
      = mkRecords (getBehaviorScoresByMode DetectMode4 z) 0 →
    ∃ a', a_reachable a' ∧
      an_records a' !! "k" = Some (mkRecords (getBehaviorScoresByMode DetectMode4 (z - 1)) 0)).
  { intros a z Ha Hz. exists (get (get (get a))). split; [by repeat apply get_reachable|].
    unfold get. rewrite get_records, get_records, get_records, Hz. simpl.
    destruct (recommand 0 (mkRecords _ 0)) as [[? ?] r1] eqn:E1. simpl.
    destruct (recommand 0 r1) as [[? ?] r2] eqn:E2. simpl.
    destruct (recommand 0 r2) as [[? ?] r3] eqn:E3. simpl. f_equal. by eapply mode4_round. }
  induction n as [|n (a & Ha & Hk)].
  - apply (Hround (NewAnalyzer 0) 0); [by exists 0; apply rtc_refl|reflexivity].
  - destruct (Hround a (- Z.of_nat (S n)) Ha) as (a' & ? & Hk'); [by rewrite Hk|].
    exists a'. split; [done|]. rewrite Hk'. do 3 f_equal. lia.
Qed.

(** Scores have no lower bound: the comment on [behaviorScore.Score] promises
    values between -10 and 10, but failed attempts keep lowering the scores; for
    every bound there is a reachable analyzer with a lower score. *)
Theorem score_unbounded_below (bound : Z) :
  ∃ a key r s, a_reachable a ∧ an_records a !! key = Some r ∧ s ∈ mhr_scores r ∧ bs_Score s < bound.
Proof.
  destruct (mode4_reachable (Z.to_nat (- bound))) as (a & Ha & Hk).
  eexists a, "k", _, _. split; [done|]. split; [exact Hk|]. split; [left|]. simpl. lia.
Qed.

(** The public host is not always the receiver, against the comment on the
    mode 0 table: for two easy hosts of which the client is public, the first five
    recommendations make the client the receiver, and the sixth (after five
    failures) makes it the sender. *)
Theorem public_host_becomes_sender :
  let get a := GetRecommandBehaviors 0 "k" easy_public easy_nat a in
  let role a := rb_Role (get a).1.1.2 in
  let a0 := NewAnalyzer Hour in
  let a1 := (get a0).2 in let a2 := (get a1).2 in let a3 := (get a2).2 in
  let a4 := (get a3).2 in let a5 := (get a4).2 in
  (role a0, role a1, role a2, role a3, role a4, role a5)
  = (DetectRoleReceiver, DetectRoleReceiver, DetectRoleReceiver, DetectRoleReceiver,
     DetectRoleReceiver, DetectRoleSender).
Proof. vm_compute. reflexivity. Qed.
