(* ===== verification/NatController.v ===== *)
(** * The NAT hole controller of [frps]: [pkg/nathole/controller.go]

    A visitor's request starts a handler that looks up the proxy, checks the
    visitor's signature, enters a session into [sessions], hands the session id to
    the proxy over an unbuffered channel, waits for the proxy owner's answer,
    analyses both hosts and sends each its instructions.  Handlers of different
    visitors, client answers, reports, registrations and the cleaner interleave;
    each critical section or blocking operation of the source is one step of
    [cstep].  [Session] objects live in a heap, since handlers and the map share
    them; [sent] and [delivered] record the outputs. *)
From S2P Require Import Prelude GoStd Hash Msg Auth NatClassify Analyzer.
From stdpp Require Import list.
Local Open Scope Z_scope.

Record ClientCfg := mkClientCfg {
  cfg_name : string;
  cfg_sk : string;
  cfg_allowUsers : list string;
  cfg_sidCh : nat;  (* the channel, by identity *)
}.

(** A transporter, by identity. *)
Definition transporter : Type := nat.

Record Session := mkSession {
  s_sid : string;
  s_analysisKey : string;
  s_recommandMode : Z;
  s_recommandIndex : Z;
  s_visitorMsg : NatHoleVisitor;
  s_visitorTransporter : transporter;
  s_vNatFeature : option NatFeature;
  s_vBehavior : RecommandBehavior;
  s_clientMsg : option NatHoleClient;
  s_clientTransporter : option transporter;
  s_cNatFeature : option NatFeature;
  s_cBehavior : RecommandBehavior;
  s_notifyCh : bool;  (* the one-slot channel holds a token *)
}.

(** [GenSid]: seconds and a random identifier. *)
Definition GenSid (t : Z) (rnd : nat → list byte) : string := Itoa t +:+ RandID rnd.

Definition genAnalysisKey (vm cm : list string) (v c : NatFeature) : string :=
  let first l := match Compact (parseIPs l) with [] => [] | ip :: _ => bytes_of ip end in
  let part l f := first l ++ bytes_of (NatType f) ++ bytes_of (Behavior f)
                  ++ bytes_of (FormatBool (RegularPortsChange f)) in
  hex_encode (md5 (part vm v ++ part cm c)).

(** [getRangePorts]: the interval of ports around the last observed one. *)
Definition getRangePorts (addrs : list string) (difference maxNumber : Z) : list PortsRange :=
  if maxNumber <=? 0 then []
  else match last addrs with
       | None => []
       | Some addr =>
           match SplitHostPort addr with
           | Err _ => []
           | Ok (_, portStr) =>
               match Atoi portStr with
               | Err _ => []
               | Ok port =>
                   [mkPortsRange
                      (Z.max (Z.max (port -₆₄ difference -₆₄ 5)%go (port -₆₄ maxNumber)%go) 1)
                      (Z.min (Z.min (port +₆₄ difference +₆₄ 5)%go (port +₆₄ maxNumber)%go) 65535)]
               end
           end
       end.

(** [newNatHoleResponse] and what its two calls of [slices.Compact] leave in the
    slices [candidateAddrs] and [assistedAddrs] of the caller. *)
Definition newNatHoleResponse (transactionID sid protocol : string) (mode : Z)
    (candidateAddrs assistedAddrs : list string) (behavior : RecommandBehavior)
    (readTimeoutMs portsDifference : Z) : NatHoleResp * list string * list string :=
  let candidateAddrs' := compact_backing candidateAddrs in
  let assistedAddrs' := compact_backing assistedAddrs in
  (mkNatHoleResp transactionID sid protocol (Compact candidateAddrs) (Compact assistedAddrs)
     (mkNatHoleDetectBehavior (rb_Role behavior) mode (rb_TTL behavior) (rb_SendDelayMs behavior)
        readTimeoutMs
        (getRangePorts candidateAddrs' portsDifference (rb_PortsRangeNumber behavior))
        (rb_PortsRandomNumber behavior) (rb_ListenRandomPorts behavior))
     "",
   candidateAddrs', assistedAddrs').

Definition GenNatHoleResponse (transactionID : string) (session : option Session) (errInfo : string)
    : NatHoleResp :=
  mkNatHoleResp transactionID (match session with Some s => s_sid s | None => "" end) "" [] []
    zero_DetectBehavior errInfo.

Definition set_visitor_addrs (m : NatHoleVisitor) (mapped assisted : list string) : NatHoleVisitor :=
  mkNatHoleVisitor (nv_TransactionID m) (nv_ProxyName m) (nv_PreCheck m) (nv_Protocol m)
    (nv_SignKey m) (nv_Timestamp m) mapped assisted.
Definition set_client_addrs (m : NatHoleClient) (mapped assisted : list string) : NatHoleClient :=
  mkNatHoleClient (nc_TransactionID m) (nc_ProxyName m) (nc_Sid m) mapped assisted.

(** [analysis]; [cm] is [session.clientMsg].  On success the session is updated
    and the address slices of both messages have been compacted in place. *)
Definition analysis (now : Z) (an : Analyzer) (session : Session) (cm : NatHoleClient)
    : result (NatHoleResp * NatHoleResp * Session * Analyzer) :=
  let vm := s_visitorMsg session in
  wrap_err "classify client nat feature error: "
    (ClassifyNATFeature (nc_MappedAddrs cm) (parseIPs (nc_AssistedAddrs cm))) ≫= λ cNat,
  wrap_err "classify visitor nat feature error: "
    (ClassifyNATFeature (nv_MappedAddrs vm) (parseIPs (nv_AssistedAddrs vm))) ≫= λ vNat,
  let key := genAnalysisKey (nv_MappedAddrs vm) (nc_MappedAddrs cm) vNat cNat in
  let '(mode, index, cBehavior, vBehavior, an) := GetRecommandBehaviors now key cNat vNat an in
  let timeoutMs := Z.max (rb_SendDelayMs cBehavior) (rb_SendDelayMs vBehavior) + 5000 in
  let timeoutMs := if (0 <? rb_ListenRandomPorts cBehavior) || (0 <? rb_ListenRandomPorts vBehavior)
                   then timeoutMs + 30000 else timeoutMs in
  let '(vResp, cMapped, cAssisted) :=
    newNatHoleResponse (nv_TransactionID vm) (s_sid session) (nv_Protocol vm) mode
      (nc_MappedAddrs cm) (nc_AssistedAddrs cm) vBehavior
      (timeoutMs - rb_SendDelayMs vBehavior) (PortsDifference cNat) in
  let '(cResp, vMapped, vAssisted) :=
    newNatHoleResponse (nc_TransactionID cm) (s_sid session) (nv_Protocol vm) mode
      (nv_MappedAddrs vm) (nv_AssistedAddrs vm) cBehavior
      (timeoutMs - rb_SendDelayMs cBehavior) (PortsDifference vNat) in
  Ok (vResp, cResp,
      mkSession (s_sid session) key mode index
        (set_visitor_addrs vm vMapped vAssisted) (s_visitorTransporter session)
        (Some vNat) vBehavior (Some (set_client_addrs cm cMapped cAssisted))
        (s_clientTransporter session) (Some cNat) cBehavior (s_notifyCh session),
      an).

(** ** State *)

(** Where a visitor's handler is. *)
Inductive phase : Type :=
| PSend (ch : nat)                       (* blocked on [clientCfg.sidCh <- sid] *)
| PWait                                  (* the [select] on [notifyCh] and the timer *)
| PRespond (vResp cResp : option NatHoleResp)  (* the two sends that are left *)
| PSleep.                                (* the final [time.Sleep] *)

Record Controller := mkController {
  clientCfgs : gmap string ClientCfg;
  sessions : gmap string nat;
  analyzer : Analyzer;
  heap : gmap nat Session;               (* session objects *)
  handlers : gmap nat phase;             (* running handlers, by their session object *)
  receivers : gset nat;                  (* sid channels with a proxy reading from them *)
  next_ch : nat;                         (* fresh channel identity *)
  sent : list (transporter * NatHoleResp);
  delivered : list (nat * string);
}.

Definition NewController (dur : Z) : Controller :=
  mkController ∅ ∅ (NewAnalyzer dur) ∅ ∅ ∅ 0 [] [].

(** ** Operations *)
Definition ListenClient (name sk : string) (allowUsers : list string) (c : Controller)
    : result nat * Controller :=
  match clientCfgs c !! name with
  | Some _ => (Err ("proxy [" +:+ name +:+ "] is repeated"), c)
  | None =>
      let cfg := mkClientCfg name sk allowUsers (next_ch c) in
      (Ok (next_ch c),
       mkController (<[name := cfg]> (clientCfgs c)) (sessions c) (analyzer c) (heap c)
         (handlers c) ({[next_ch c]} ∪ receivers c) (S (next_ch c)) (sent c) (delivered c))
  end.

Definition CloseClient (name : string) (c : Controller) : Controller :=
  mkController (delete name (clientCfgs c)) (sessions c) (analyzer c) (heap c)
    (handlers c) (receivers c) (next_ch c) (sent c) (delivered c).

(** The proxy's goroutine that reads the channel returns when the proxy closes. *)
Definition stop_receiver (ch : nat) (c : Controller) : Controller :=
  mkController (clientCfgs c) (sessions c) (analyzer c) (heap c)
    (handlers c) (receivers c ∖ {[ch]}) (next_ch c) (sent c) (delivered c).

Definition Send (t : transporter) (r : NatHoleResp) (c : Controller) : Controller :=
  mkController (clientCfgs c) (sessions c) (analyzer c) (heap c) (handlers c) (receivers c)
    (next_ch c) (sent c ++ [(t, r)]) (delivered c).

(** The [PreCheck] branch of [HandleVisitor]. *)
Definition pre_check_error (m : NatHoleVisitor) (visitorUser : string) (c : Controller) : string :=
  match clientCfgs c !! nv_ProxyName m with
  | None => "xtcp server for [" +:+ nv_ProxyName m +:+ "] doesn't exist"
  | Some cfg =>
      if negb (contains (cfg_allowUsers cfg) visitorUser) && negb (contains (cfg_allowUsers cfg) "*")
      then "xtcp visitor user [" +:+ visitorUser +:+ "] not allowed for [" +:+ nv_ProxyName m +:+ "]"
      else ""
  end.

(** The locked closure of [HandleVisitor]: lookup and authentication. *)
Definition admit_visitor (m : NatHoleVisitor) (c : Controller) : result ClientCfg :=
  match clientCfgs c !! nv_ProxyName m with
  | None => Err ("xtcp server for [" +:+ nv_ProxyName m +:+ "] doesn't exist")
  | Some cfg =>
      if ConstantTimeEqString (nv_SignKey m) (GetAuthKey (cfg_sk cfg) (nv_Timestamp m))
      then Ok cfg
      else Err ("xtcp connection of [" +:+ nv_ProxyName m +:+ "] auth failed")
  end.

Definition new_session (sid : string) (m : NatHoleVisitor) (t : transporter) : Session :=
  mkSession sid "" 0 0 m t None zero_RB None None None zero_RB false.

(** [HandleVisitor] up to its first blocking operation; [r] is the identity of
    the new session object and [sid] the generated session id. *)
Definition HandleVisitor (r : nat) (sid : string) (m : NatHoleVisitor) (t : transporter)
    (visitorUser : string) (c : Controller) : Controller :=
  if nv_PreCheck m then
    Send t (GenNatHoleResponse (nv_TransactionID m) None (pre_check_error m visitorUser c)) c
  else
    match admit_visitor m c with
    | Err e => Send t (GenNatHoleResponse (nv_TransactionID m) None e) c
    | Ok cfg =>
        mkController (clientCfgs c) (<[sid := r]> (sessions c)) (analyzer c)
          (<[r := new_session sid m t]> (heap c)) (<[r := PSend (cfg_sidCh cfg)]> (handlers c))
          (receivers c) (next_ch c) (sent c) (delivered c)
    end.

Definition set_phase (r : nat) (p : phase) (c : Controller) : Controller :=
  mkController (clientCfgs c) (sessions c) (analyzer c) (heap c) (<[r := p]> (handlers c))
    (receivers c) (next_ch c) (sent c) (delivered c).

(** The rendezvous of [clientCfg.sidCh <- sid] with the proxy's receive. *)
Definition deliver_sid (r ch : nat) (sid : string) (c : Controller) : Controller :=
  mkController (clientCfgs c) (sessions c) (analyzer c) (heap c) (<[r := PWait]> (handlers c))
    (receivers c) (next_ch c) (sent c) (delivered c ++ [(ch, sid)]).

(** The handler returns: the deferred [delete(c.sessions, sid)]. *)
Definition finish (r : nat) (sid : string) (c : Controller) : Controller :=
  mkController (clientCfgs c) (delete sid (sessions c)) (analyzer c) (heap c)
    (delete r (handlers c)) (receivers c) (next_ch c) (sent c) (delivered c).

Definition set_client (s : Session) (m : NatHoleClient) (t : transporter) : Session :=
  mkSession (s_sid s) (s_analysisKey s) (s_recommandMode s) (s_recommandIndex s) (s_visitorMsg s)
    (s_visitorTransporter s) (s_vNatFeature s) (s_vBehavior s) (Some m) (Some t) (s_cNatFeature s)
    (s_cBehavior s) true.
Definition take_token (s : Session) : Session :=
  mkSession (s_sid s) (s_analysisKey s) (s_recommandMode s) (s_recommandIndex s) (s_visitorMsg s)
    (s_visitorTransporter s) (s_vNatFeature s) (s_vBehavior s) (s_clientMsg s)
    (s_clientTransporter s) (s_cNatFeature s) (s_cBehavior s) false.

(** [HandleClient]: the non-blocking send leaves a token in either case. *)
Definition HandleClient (m : NatHoleClient) (t : transporter) (c : Controller) : Controller :=
  match sessions c !! nc_Sid m with
  | None => c
  | Some r =>
      mkController (clientCfgs c) (sessions c) (analyzer c) (alter (λ s, set_client s m t) r (heap c))
        (handlers c) (receivers c) (next_ch c) (sent c) (delivered c)
  end.

(** The handler after its token: decide, and keep the two responses to send. *)
Definition decide_session (now : Z) (r : nat) (s : Session) (cm : NatHoleClient) (c : Controller)
    : Controller :=
  match analysis now (analyzer c) (take_token s) cm with
  | Ok (vResp, cResp, s', an) =>
      mkController (clientCfgs c) (sessions c) an (<[r := s']> (heap c))
        (<[r := PRespond (Some vResp) (Some cResp)]> (handlers c)) (receivers c) (next_ch c)
        (sent c) (delivered c)
  | Err e =>
      let vResp := GenNatHoleResponse (nv_TransactionID (s_visitorMsg s)) None e in
      let cResp := GenNatHoleResponse (nc_TransactionID cm) None e in
      mkController (clientCfgs c) (sessions c) (analyzer c) (<[r := take_token s]> (heap c))
        (<[r := PRespond (Some vResp) (Some cResp)]> (handlers c)) (receivers c) (next_ch c)
        (sent c) (delivered c)
  end.

Definition HandleReport (now : Z) (m : NatHoleReport) (c : Controller) : Controller :=
  match sessions c !! nh_Sid m ≫= λ r, heap c !! r with
  | None => c
  | Some s =>
      if nh_Success m then
        mkController (clientCfgs c) (sessions c)
          (ReportSuccess now (s_analysisKey s) (s_recommandMode s) (s_recommandIndex s) (analyzer c))
          (heap c) (handlers c) (receivers c) (next_ch c) (sent c) (delivered c)
      else c
  end.

(** One tick of [CleanWorker]. *)
Definition CleanTick (now : Z) (c : Controller) : Controller :=
  let '(_, _, an) := Clean now (analyzer c) in
  mkController (clientCfgs c) (sessions c) an (heap c) (handlers c) (receivers c) (next_ch c)
    (sent c) (delivered c).

(** ** Steps: every interleaving of the operations above.  Session ids are 64
    random bits after the time, so a new one is taken not to be in use. *)
Inductive cstep : Controller → Controller → Prop :=
| cs_listen name sk allow c res c' : ListenClient name sk allow c = (res, c') → cstep c c'
| cs_close name cfg c :
    clientCfgs c !! name = Some cfg → cstep c (stop_receiver (cfg_sidCh cfg) (CloseClient name c))
| cs_visitor r sid m t u c :
    sessions c !! sid = None → heap c !! r = None → cstep c (HandleVisitor r sid m t u c)
| cs_deliver r ch s c :
    handlers c !! r = Some (PSend ch) → ch ∈ receivers c → heap c !! r = Some s →
    cstep c (deliver_sid r ch (s_sid s) c)
| cs_client m t c : cstep c (HandleClient m t c)
| cs_decide now r s cm c :
    handlers c !! r = Some PWait → heap c !! r = Some s → s_notifyCh s = true →
    s_clientMsg s = Some cm → cstep c (decide_session now r s cm c)
| cs_timeout r s c :
    handlers c !! r = Some PWait → heap c !! r = Some s → cstep c (finish r (s_sid s) c)
| cs_send_visitor r v cr s c :
    handlers c !! r = Some (PRespond (Some v) cr) → heap c !! r = Some s →
    cstep c (set_phase r (PRespond None cr) (Send (s_visitorTransporter s) v c))
| cs_send_client r vr cl s t c :
    handlers c !! r = Some (PRespond vr (Some cl)) → heap c !! r = Some s →
    s_clientTransporter s = Some t →
    cstep c (set_phase r (PRespond vr None) (Send t cl c))
| cs_sleep r c :
    handlers c !! r = Some (PRespond None None) → cstep c (set_phase r PSleep c)
| cs_wake r s c :
    handlers c !! r = Some PSleep → heap c !! r = Some s → cstep c (finish r (s_sid s) c)
| cs_report now m c : cstep c (HandleReport now m c)
| cs_clean now c : cstep c (CleanTick now c).

Definition c_reachable (c : Controller) : Prop := ∃ dur, rtc cstep (NewController dur) c.

(** ** Invariants *)

(** The session map lists exactly the sessions of running handlers. *)
Definition links (se : gmap string nat) (h : gmap nat Session) (hd : gmap nat phase) : Prop :=
  (∀ sid r, se !! sid = Some r ↔ ∃ s, h !! r = Some s ∧ s_sid s = sid ∧ is_Some (hd !! r))
  ∧ (∀ r, is_Some (hd !! r) → is_Some (h !! r)).

Definition session_ok (s : Session) : Prop :=
  (s_notifyCh s = true → is_Some (s_clientMsg s))
  ∧ (is_Some (s_clientMsg s) → is_Some (s_clientTransporter s)).

Definition responding_ok (c : Controller) : Prop :=
  ∀ r vr cl s, handlers c !! r = Some (PRespond vr (Some cl)) → heap c !! r = Some s →
    is_Some (s_clientTransporter s).

Definition channels_ok (c : Controller) : Prop :=
  (∀ ch, ch ∈ receivers c → (ch < next_ch c)%nat)
  ∧ (∀ name cfg, clientCfgs c !! name = Some cfg → (cfg_sidCh cfg < next_ch c)%nat)
  ∧ (∀ r ch, handlers c !! r = Some (PSend ch) → (ch < next_ch c)%nat).

Record ctl_inv (c : Controller) : Prop := mkInv {
  inv_links : links (sessions c) (heap c) (handlers c);
  inv_sessions : map_Forall (λ _, session_ok) (heap c);
  inv_responding : responding_ok c;
  inv_channels : channels_ok c;
  inv_analyzer : a_reachable (analyzer c);
}.

(** ** Lemmas: the session map *)
Lemma links_update se h hd h' hd' :
  links se h hd →
  (∀ r, s_sid <$> h' !! r = s_sid <$> h !! r) →
  (∀ r, is_Some (hd' !! r) ↔ is_Some (hd !! r)) →
  links se h' hd'.
Proof.
  intros [Hse Hhd] Hh Hd. split.
  - intros sid r. rewrite Hse. specialize (Hh r). specialize (Hd r).
    split; intros (s & Hs & <- & Hr%Hd).
    + rewrite Hs in Hh. destruct (h' !! r) as [s'|]; simplify_eq/=. by exists s'.
    + rewrite Hs in Hh. destruct (h !! r) as [s'|]; simplify_eq/=. by exists s'.
  - intros r Hr. apply Hd, Hhd in Hr as [s Hs]. specialize (Hh r). rewrite Hs in Hh.
    destruct (h' !! r); simplify_eq/=; eauto.
Qed.

Lemma links_start se h hd sid r s p :
  links se h hd → se !! sid = None → h !! r = None → s_sid s = sid →
  links (<[sid := r]> se) (<[r := s]> h) (<[r := p]> hd).
Proof.
  intros [Hse Hhd] Hsid Hr Hs. split.
  - intros sid' r'. destruct (decide (sid' = sid)) as [->|Hne].
    + rewrite lookup_insert_eq. split.
      * intros [= <-]. exists s. by rewrite !lookup_insert_eq.
      * intros (s' & Hs' & Hsid' & Hr'). destruct (decide (r' = r)) as [->|]; [done|].
        rewrite lookup_insert_ne in Hs' by done. rewrite lookup_insert_ne in Hr' by done.
        assert (se !! sid = Some r') by (apply Hse; eauto). congruence.
    + rewrite lookup_insert_ne by done. rewrite Hse. split.
      * intros (s' & Hs' & ? & ?). assert (r' ≠ r) by congruence.
        exists s'. by rewrite !lookup_insert_ne.
      * intros (s' & Hs' & Hsid' & Hr'). destruct (decide (r' = r)) as [->|].
        { rewrite lookup_insert_eq in Hs'. congruence. }
        rewrite lookup_insert_ne in Hs' by done. rewrite lookup_insert_ne in Hr' by done. eauto.
  - intros r'. destruct (decide (r' = r)) as [->|]; [rewrite !lookup_insert_eq; eauto|].
    rewrite !lookup_insert_ne by done. apply Hhd.
Qed.

Lemma links_finish se h hd r s p :
  links se h hd → h !! r = Some s → hd !! r = Some p →
  links (delete (s_sid s) se) h (delete r hd).
Proof.
  intros [Hse Hhd] Hr Hp.
  assert (Hs : se !! s_sid s = Some r) by (apply Hse; eauto). split.
  - intros sid' r'. rewrite lookup_delete_Some, Hse. split.
    + intros [Hne (s' & ? & ? & ?)]. exists s'. split_and!; [done..|].
      rewrite lookup_delete_ne; [done|]. intros ->. simplify_eq.
    + intros (s' & Hs' & Hsid' & [p' [Hne Hp']%lookup_delete_Some]).
      split; [|by eauto]. intros Heq.
      assert (se !! sid' = Some r') by (apply Hse; eauto). congruence.
  - intros r' [p' [_ Hp']%lookup_delete_Some]. apply Hhd. eauto.
Qed.

Lemma is_Some_insert_same {A} (m : gmap nat A) r x y :
  m !! r = Some x → ∀ i, is_Some (<[r := y]> m !! i) ↔ is_Some (m !! i).
Proof.
  intros Hx i. destruct (decide (i = r)) as [->|].
  - rewrite lookup_insert_eq, Hx. split; eauto.
  - by rewrite lookup_insert_ne.
Qed.

Lemma sid_insert_same (h : gmap nat Session) r s s' :
  h !! r = Some s → s_sid s' = s_sid s →
  ∀ i, s_sid <$> (<[r := s']> h) !! i = s_sid <$> h !! i.
Proof.
  intros Hs Hsid i. destruct (decide (i = r)) as [->|].
  - rewrite lookup_insert_eq, Hs. simpl. by f_equal.
  - by rewrite lookup_insert_ne.
Qed.

(** ** Lemmas: the analysis *)
Lemma analysis_Ok now an s cm vResp cResp s' an' :
  analysis now an s cm = Ok (vResp, cResp, s', an') →
  ∃ cNat vNat mode index cB vB,
    ClassifyNATFeature (nc_MappedAddrs cm) (parseIPs (nc_AssistedAddrs cm)) = Ok cNat ∧
    ClassifyNATFeature (nv_MappedAddrs (s_visitorMsg s)) (parseIPs (nv_AssistedAddrs (s_visitorMsg s)))
      = Ok vNat ∧
    GetRecommandBehaviors now
      (genAnalysisKey (nv_MappedAddrs (s_visitorMsg s)) (nc_MappedAddrs cm) vNat cNat) cNat vNat an
      = (mode, index, cB, vB, an') ∧
    s_sid s' = s_sid s ∧ s_notifyCh s' = s_notifyCh s ∧ is_Some (s_clientMsg s') ∧
    s_clientTransporter s' = s_clientTransporter s ∧
    (∃ tv pc c1 c2, newNatHoleResponse (nv_TransactionID (s_visitorMsg s)) (s_sid s)
       (nv_Protocol (s_visitorMsg s)) mode (nc_MappedAddrs cm) (nc_AssistedAddrs cm) vB
       (tv - rb_SendDelayMs vB) pc = (vResp, c1, c2) ∧
     ∃ pv v1 v2, newNatHoleResponse (nc_TransactionID cm) (s_sid s)
       (nv_Protocol (s_visitorMsg s)) mode (nv_MappedAddrs (s_visitorMsg s))
       (nv_AssistedAddrs (s_visitorMsg s)) cB (tv - rb_SendDelayMs cB) pv = (cResp, v1, v2) ∧
     tv = Z.max (rb_SendDelayMs cB) (rb_SendDelayMs vB) + 5000
        + (if (0 <? rb_ListenRandomPorts cB) || (0 <? rb_ListenRandomPorts vB) then 30000 else 0)).
Proof.
  intros H. unfold analysis in H. cbv zeta in H.
  apply result_bind_Ok in H as (cNat & Hc & H). apply result_bind_Ok in H as (vNat & Hv & H).
  destruct (GetRecommandBehaviors _ _ _ _ _) as [[[[mode index] cB] vB] an1] eqn:Hg.
  unfold newNatHoleResponse in H. simplify_eq.
  exists cNat, vNat, mode, index, cB, vB.
  apply wrap_err_Ok in Hc, Hv. do 7 (split; [by eauto|]).
  eexists _, _, _, _. split; [reflexivity|]. eexists _, _, _. split; [reflexivity|].
  destruct (_ || _); lia.
Qed.

(** ** Lemmas: every step preserves the invariant *)
Lemma inv_NewController dur : ctl_inv (NewController dur).
Proof.
  split; simpl.
  - split; [|by intros ? [? ?]]. intros sid r. split; [done|]. by intros (? & ? & _).
  - apply map_Forall_empty.
  - intros r vr cl s ?. done.
  - split_and!; simpl; [set_solver|done|done].
  - by exists dur; apply rtc_refl.
Qed.

(** Steps that leave the sessions and the handlers alone. *)
Lemma inv_ListenClient name sk allow c : ctl_inv c → ctl_inv (ListenClient name sk allow c).2.
Proof.
  intros [? ? ? (Hr & Hc & Hh) ?]. unfold ListenClient.
  destruct (clientCfgs c !! name) eqn:Hn; [by split|]. split; try done. split_and!; simpl.
  - intros ch [->%elem_of_singleton|Hin%Hr]%elem_of_union; lia.
  - intros name' cfg. rewrite lookup_insert_Some. intros [[<- <-]|[_ H%Hc]]; simpl; lia.
  - intros r ch H%Hh. lia.
Qed.

Lemma inv_close name ch c : ctl_inv c → ctl_inv (stop_receiver ch (CloseClient name c)).
Proof.
  intros [? ? ? (Hr & Hc & Hh) ?]. split; try done. split_and!; simpl.
  - intros ch' [? _]%elem_of_difference. auto.
  - intros name' cfg [_ ?]%lookup_delete_Some. eauto.
  - eauto.
Qed.

Lemma inv_Send t r c : ctl_inv c → ctl_inv (Send t r c).
Proof. intros []. by split. Qed.

Lemma inv_HandleVisitor r sid m t u c :
  ctl_inv c → sessions c !! sid = None → heap c !! r = None →
  ctl_inv (HandleVisitor r sid m t u c).
Proof.
  intros Hinv Hsid Hr. unfold HandleVisitor. destruct (nv_PreCheck m); [by apply inv_Send|].
  destruct (admit_visitor m c) as [cfg|e] eqn:Ha; [|by apply inv_Send].
  destruct Hinv as [Hl Hs Hresp (Hrc & Hc & Hh) ?]. split; simpl; [| | | |done].
  - by apply links_start.
  - apply map_Forall_insert_2; [|done]. split; [done|]. by intros [? ?].
  - intros r' vr cl s. simpl. destruct (decide (r = r')) as [<-|Hne].
    + by rewrite lookup_insert_eq.
    + rewrite !lookup_insert_ne by done. apply Hresp.
  - split_and!; simpl; [done|done|]. intros r' ch. rewrite lookup_insert_Some.
    intros [[<- [= <-]]|[_ ?]]; [|by eapply Hh].
    unfold admit_visitor in Ha. destruct (clientCfgs c !! _) as [cfg'|] eqn:E; [|done].
    destruct (ConstantTimeEqString _ _); simplify_eq. by eapply Hc.
Qed.

(** Replacing a running handler's phase. *)
Lemma inv_set_phase r p q c :
  ctl_inv c → handlers c !! r = Some p →
  (∀ ch, q ≠ PSend ch) →
  (∀ vr cl s, q = PRespond vr (Some cl) → heap c !! r = Some s → is_Some (s_clientTransporter s)) →
  ctl_inv (set_phase r q c).
Proof.
  intros [Hl Hs Hresp (Hrc & Hc & Hh) ?] Hp Hq Hcl. split; simpl; [|done| |split_and!; simpl; [done..|]|done].
  - eapply links_update; [done|done|]. by eapply is_Some_insert_same.
  - intros r' vr cl s. simpl. rewrite lookup_insert_Some. intros [[<- ->]|[_ ?]]; [by eapply Hcl|by eapply Hresp].
  - intros r' ch. rewrite lookup_insert_Some. intros [[<- ->]|[_ ?]]; [by destruct (Hq ch)|eauto].
Qed.

Lemma inv_deliver r ch sid p c :
  ctl_inv c → handlers c !! r = Some p → ctl_inv (deliver_sid r ch sid c).
Proof. intros Hinv Hp. by destruct (inv_set_phase r p PWait c Hinv Hp). Qed.

Lemma inv_finish r s p c :
  ctl_inv c → handlers c !! r = Some p → heap c !! r = Some s → ctl_inv (finish r (s_sid s) c).
Proof.
  intros [Hl Hs Hresp (Hrc & Hc & Hh) ?] Hp Hr. split; simpl; [|done| |split_and!; simpl; [done..|]|done].
  - by eapply links_finish.
  - intros r' vr cl s'. simpl. intros [_ ?]%lookup_delete_Some ?. by eapply Hresp.
  - intros r' ch [_ ?]%lookup_delete_Some. eauto.
Qed.

Lemma inv_HandleClient m t c : ctl_inv c → ctl_inv (HandleClient m t c).
Proof.
  intros Hinv. unfold HandleClient. destruct (sessions c !! nc_Sid m) as [r|] eqn:Hm; [|done].
  destruct Hinv as [Hl Hs Hresp Hch ?]. split; simpl; [| | |done|done].
  - eapply links_update; [done| |done]. intros r'.
    destruct (decide (r = r')) as [<-|]; [|by rewrite lookup_alter_ne].
    rewrite lookup_alter_eq. by destruct (heap c !! r).
  - intros r' s. rewrite lookup_alter_Some. intros [(-> & s' & Hs' & ->)|[_ Hs']]; [|by eapply Hs].
    split; simpl; by eauto.
  - intros r' vr cl s Hp Hs'. simpl in Hs'. apply lookup_alter_Some in Hs' as [(_ & s' & _ & ->)|[_ Hs']];
      [simpl; by eauto|by eapply Hresp].
Qed.

Lemma inv_decide now r s cm c :
  ctl_inv c → handlers c !! r = Some PWait → heap c !! r = Some s → s_clientMsg s = Some cm →
  ctl_inv (decide_session now r s cm c).
Proof.
  intros [Hl Hs Hresp Hch Han] Hp Hr Hcm.
  assert (Htr : is_Some (s_clientTransporter s)) by (apply (Hs _ _ Hr); eauto).
  assert (Hgen : ∀ s' an q, s_sid s' = s_sid s → session_ok s' → a_reachable an →
    s_clientTransporter s' = s_clientTransporter s → (∀ ch, q ≠ PSend ch) →
    ctl_inv (mkController (clientCfgs c) (sessions c) an (<[r := s']> (heap c))
      (<[r := q]> (handlers c)) (receivers c) (next_ch c) (sent c) (delivered c))).
  { intros s' an q Hsid Hok Ha Ht Hq. destruct Hch as (Hrc & Hc & Hh).
    split; simpl; [| | |split_and!; simpl; [done..|]|done].
    - eapply links_update; [done|by eapply sid_insert_same|by eapply is_Some_insert_same].
    - by apply map_Forall_insert_2.
    - intros r' vr cl s0. simpl. destruct (decide (r = r')) as [<-|Hne].
      + rewrite !lookup_insert_eq. intros _ [= <-]. by rewrite Ht.
      + rewrite !lookup_insert_ne by done. apply Hresp.
    - intros r' ch. rewrite lookup_insert_Some. intros [[<- ->]|[_ ?]]; [by destruct (Hq ch)|eauto]. }
  unfold decide_session. destruct (analysis _ _ _ _) as [[[[vResp cResp] s'] an']|e] eqn:Ha.
  - apply analysis_Ok in Ha as (? & ? & ? & ? & ? & ? & _ & _ & Hg & Hsid & Hn & Hcl & Ht & _).
    apply Hgen; [done| | |done|done].
    + split; [by rewrite Hn|]. by rewrite Ht.
    + destruct Han as [dur Han]. exists dur. eapply rtc_r; [exact Han|]. by eapply astep_get.
  - apply Hgen; [done| |done..]. split; [done|]. simpl. done.
Qed.

Lemma inv_HandleReport now m c : ctl_inv c → ctl_inv (HandleReport now m c).
Proof.
  intros Hinv. unfold HandleReport. destruct (sessions c !! _ ≫= _) as [s|]; [|done].
  destruct (nh_Success m); [|done]. destruct Hinv as [? ? ? ? [dur Han]]. split; try done.
  exists dur. eapply rtc_r; [exact Han|]. apply astep_report.
Qed.

Lemma inv_CleanTick now c : ctl_inv c → ctl_inv (CleanTick now c).
Proof.
  intros [? ? ? ? [dur Han]]. unfold CleanTick. destruct (Clean now (analyzer c)) as [[n t] an] eqn:E.
  split; try done. exists dur. eapply rtc_r; [exact Han|]. by eapply astep_clean.
Qed.

Lemma cstep_inv c c' : ctl_inv c → cstep c c' → ctl_inv c'.
Proof.
  intros Hinv Hstep. destruct Hstep as [name sk allow c res c' H| | | | | | | | | | | |].
  - pose proof (inv_ListenClient name sk allow c Hinv) as Hi. by rewrite H in Hi.
  - by apply inv_close.
  - by apply inv_HandleVisitor.
  - by eapply inv_deliver.
  - by apply inv_HandleClient.
  - by apply inv_decide.
  - by eapply inv_finish.
  - eapply (inv_set_phase _ _ _ (Send _ _ _)); [by apply inv_Send|done|done|].
    intros vr cl s' Heq ?. simplify_eq. by eapply (inv_responding _ Hinv).
  - eapply (inv_set_phase _ _ _ (Send _ _ _)); [by apply inv_Send|done|done|done].
  - by eapply inv_set_phase.
  - by eapply inv_finish.
  - by apply inv_HandleReport.
  - by apply inv_CleanTick.
Qed.

Lemma c_reachable_inv c : c_reachable c → ctl_inv c.
Proof.
  intros [dur Hr]. pose proof (inv_NewController dur) as Hinit.
  induction Hr; eauto using cstep_inv.
Qed.

(** A handler blocked on a channel nobody reads stays there. *)
Definition stuck (r ch : nat) (c : Controller) : Prop :=
  handlers c !! r = Some (PSend ch) ∧ ch ∉ receivers c.

Lemma stuck_step r ch c c' : ctl_inv c → stuck r ch c → cstep c c' → stuck r ch c'.
Proof.
  intros Hinv [Hr Hch] Hstep.
  assert (Hlt : (ch < next_ch c)%nat) by (destruct (inv_channels _ Hinv) as (_ & _ & H); eauto).
  assert (Hins : ∀ r' p q, handlers c !! r' = Some p → p ≠ PSend ch →
    <[r' := q]> (handlers c) !! r = Some (PSend ch))
    by (intros r' p q ? ?; rewrite lookup_insert_ne; congruence).
  assert (Hdel : ∀ r' p, handlers c !! r' = Some p → p ≠ PSend ch →
    delete r' (handlers c) !! r = Some (PSend ch))
    by (intros r' p ? ?; rewrite lookup_delete_ne; congruence).
  destruct Hstep as [name sk allow c res c' H| |r' sid m t u c Hsid Hr'|r' ch' s c Hp Hin Hs
    |m t c|now r' s cm c Hp|r' s c Hp|r' v cr s c Hp|r' vr cl s t c Hp|r' c Hp|r' s c Hp|now m c|now c].
  - unfold ListenClient in H. destruct (clientCfgs c !! name); simplify_eq; [done|]. split; [done|].
    simpl. rewrite elem_of_union, elem_of_singleton. intros [->|?]; [lia|done].
  - split; [done|]. simpl. set_solver.
  - unfold HandleVisitor. destruct (nv_PreCheck m); [done|]. destruct (admit_visitor m c); [|done].
    split; [|done]. simpl. rewrite lookup_insert_ne; [done|]. intros ->.
    destruct (inv_links _ Hinv) as [_ Hl]. destruct (Hl r) as [? ?]; [eauto|congruence].
  - split; [|done]. simpl. eapply Hins; [done|]. intros [=]. by subst.
  - unfold HandleClient. by destruct (sessions c !! _).
  - unfold decide_session. destruct (analysis _ _ _ _) as [[[[? ?] ?] ?]|?]; (split; [|done]); simpl;
      by eapply Hins.
  - split; [|done]. simpl. by eapply Hdel.
  - split; [|done]. simpl. by eapply Hins.
  - split; [|done]. simpl. by eapply Hins.
  - split; [|done]. simpl. by eapply Hins.
  - split; [|done]. simpl. by eapply Hdel.
  - unfold HandleReport. destruct (sessions c !! _ ≫= _); [|done]. by destruct (nh_Success m).
  - unfold CleanTick. by destruct (Clean now (analyzer c)) as [[? ?] ?].
Qed.

Lemma stuck_forever r ch c c' : ctl_inv c → stuck r ch c → rtc cstep c c' → stuck r ch c' ∧ ctl_inv c'.
Proof. intros Hi Hs Hr. induction Hr; eauto using stuck_step, cstep_inv. Qed.

(** ** Lemmas: handlers run to completion *)
Definition completes (r : nat) (c : Controller) : Prop := ∃ c', rtc cstep c c' ∧ handlers c' !! r = None.

Lemma completes_step r c c' : cstep c c' → completes r c' → completes r c.
Proof. intros Hs (c'' & Hr & Hn). exists c''. split; [by eapply rtc_l|done]. Qed.

Lemma completes_sleep r c : ctl_inv c → handlers c !! r = Some PSleep → completes r c.
Proof.
  intros Hinv Hp. destruct (proj2 (inv_links _ Hinv) r) as [s Hs]; [eauto|].
  exists (finish r (s_sid s) c). split; [by eapply rtc_once, cs_wake|apply lookup_delete_eq].
Qed.

Lemma completes_respond r vr cr c :
  ctl_inv c → handlers c !! r = Some (PRespond vr cr) → completes r c.
Proof.
  assert (Hnn : ∀ c, ctl_inv c → handlers c !! r = Some (PRespond None None) → completes r c).
  { intros d Hi Hp. assert (Hstep := cs_sleep r d Hp). eapply completes_step; [exact Hstep|].
    apply completes_sleep; [by eapply cstep_inv|]. apply lookup_insert_eq. }
  assert (Hnc : ∀ c cr, ctl_inv c → handlers c !! r = Some (PRespond None cr) → completes r c).
  { intros d [cl|] Hi Hp; [|by apply Hnn].
    destruct (proj2 (inv_links _ Hi) r) as [s Hs]; [eauto|].
    destruct (inv_responding _ Hi _ _ _ _ Hp Hs) as [t Ht].
    assert (Hstep := cs_send_client r None cl s t d Hp Hs Ht). eapply completes_step; [exact Hstep|].
    apply Hnn; [by eapply cstep_inv|]. apply lookup_insert_eq. }
  intros Hi Hp. destruct vr as [v|]; [|by eapply Hnc].
  destruct (proj2 (inv_links _ Hi) r) as [s Hs]; [eauto|].
  assert (Hstep := cs_send_visitor r v cr s c Hp Hs). eapply completes_step; [exact Hstep|].
  eapply Hnc; [by eapply cstep_inv|]. apply lookup_insert_eq.
Qed.

Lemma completes_wait r c : ctl_inv c → handlers c !! r = Some PWait → completes r c.
Proof.
  intros Hinv Hp. destruct (proj2 (inv_links _ Hinv) r) as [s Hs]; [eauto|].
  exists (finish r (s_sid s) c). split; [by eapply rtc_once, cs_timeout|apply lookup_delete_eq].
Qed.

(** ** Lemmas: candidate ports *)
Lemma last_compact_backing addrs :
  (length (Compact addrs) < length addrs)%nat → last (compact_backing addrs) = Some "".
Proof.
  intros Hlt. unfold compact_backing.
  destruct (length addrs - length (Compact addrs))%nat as [|n] eqn:E; [lia|]. apply last_replicate_S.
Qed.

Lemma compact_backing_same addrs :
  ¬ (length (Compact addrs) < length addrs)%nat → compact_backing addrs = Compact addrs.
Proof.
  intros Hge. unfold compact_backing. replace (length addrs - _)%nat with 0%nat by lia.
  apply app_nil_r.
Qed.

Lemma Compact_full_length addrs : length (Compact addrs) = length addrs → Compact addrs = addrs.
Proof.
  destruct addrs as [|x l]; [done|]. simpl. intros [=H]. f_equal.
  revert x H. induction l as [|y l IH]; intros x H; [done|]. simpl in *.
  case_decide; [pose proof (length_compact_from x l); lia|]. f_equal. apply IH. simpl in H. lia.
Qed.

(** ** Theorems *)

(** Both responses of an analysis, field by field. *)
Lemma analysis_coordinated (now : Z) (an an' : Analyzer) (s s' : Session) (cm : NatHoleClient)
    (v c : NatHoleResp) :
  a_reachable an → analysis now an s cm = Ok (v, c, s', an') →
  let vm := s_visitorMsg s in
  let vb := nr_DetectBehavior v in
  let cb := nr_DetectBehavior c in
  (nr_Sid v = s_sid s ∧ nr_Sid c = s_sid s)
  ∧ (nr_TransactionID v = nv_TransactionID vm ∧ nr_TransactionID c = nc_TransactionID cm)
  ∧ (nr_Protocol v = nv_Protocol vm ∧ nr_Protocol c = nv_Protocol vm)
  ∧ (db_Mode vb = db_Mode cb ∧ 0 ≤ db_Mode vb ≤ 4)
  ∧ ((db_Role vb = "sender" ∧ db_Role cb = "receiver")
     ∨ (db_Role vb = "receiver" ∧ db_Role cb = "sender"))
  ∧ (nr_CandidateAddrs v = Compact (nc_MappedAddrs cm)
     ∧ nr_CandidateAddrs c = Compact (nv_MappedAddrs vm)
     ∧ nr_AssistedAddrs v = Compact (nc_AssistedAddrs cm)
     ∧ nr_AssistedAddrs c = Compact (nv_AssistedAddrs vm))
  ∧ (db_SendDelayMs vb + db_ReadTimeoutMs vb = db_SendDelayMs cb + db_ReadTimeoutMs cb
     ∧ Z.max (db_SendDelayMs vb) (db_SendDelayMs cb) + 5000 ≤ db_SendDelayMs vb + db_ReadTimeoutMs vb).
Proof.
  intros Han Ha.
  apply analysis_Ok in Ha as (cNat & vNat & mode & index & cB & vB & _ & _ & Hg & _ & _ & _ & _ &
    tv & pc & c1 & c2 & Hv & pv & v1 & v2 & Hc & Htv).
  destruct (GetRecommand_spec _ _ _ _ _ _ _ _ _ _ (a_reachable_ok _ Han) Hg)
    as (_ & _ & _ & _ & _ & _ & Hor & _ & Hm & Hi).
  pose proof (orient_roles mode cNat _ (behavior_table_roles _ _ Hm Hi)) as Hroles.
  rewrite <-Hor in Hroles. unfold opposite_roles in Hroles. simpl in Hroles.
  unfold newNatHoleResponse in Hv, Hc. simplify_eq/=.
  repeat (split; [done|]). split; [tauto|]. split; [done|].
  destruct (_ || _); lia.
Qed.

(** C8. The two instructions of one session fit together.  When the analysis
    succeeds, visitor and client get the same session id, mode and protocol, each
    under its own transaction id; exactly one of them is told to send; each gets
    the other's mapped and assisted addresses without neighbouring duplicates; and
    the read time-outs end together: send delay plus read time-out is the same
    number on both sides, at least 5 seconds after the later of the two sends. *)
Theorem analysis_coordinates (now : Z) (an an' : Analyzer) (s s' : Session) (cm : NatHoleClient)
    (v c : NatHoleResp) :
  a_reachable an → analysis now an s cm = Ok (v, c, s', an') →
  let vm := s_visitorMsg s in
  let vb := nr_DetectBehavior v in
  let cb := nr_DetectBehavior c in
  (nr_Sid v = s_sid s ∧ nr_Sid c = s_sid s)
  ∧ (nr_TransactionID v = nv_TransactionID vm ∧ nr_TransactionID c = nc_TransactionID cm)
  ∧ (nr_Protocol v = nv_Protocol vm ∧ nr_Protocol c = nv_Protocol vm)
  ∧ (db_Mode vb = db_Mode cb ∧ 0 ≤ db_Mode vb ≤ 4)
  ∧ ((db_Role vb = "sender" ∧ db_Role cb = "receiver")
     ∨ (db_Role vb = "receiver" ∧ db_Role cb = "sender"))
  ∧ (nr_CandidateAddrs v = Compact (nc_MappedAddrs cm)
     ∧ nr_CandidateAddrs c = Compact (nv_MappedAddrs vm)
     ∧ nr_AssistedAddrs v = Compact (nc_AssistedAddrs cm)
     ∧ nr_AssistedAddrs c = Compact (nv_AssistedAddrs vm))
  ∧ (db_SendDelayMs vb + db_ReadTimeoutMs vb = db_SendDelayMs cb + db_ReadTimeoutMs cb
     ∧ Z.max (db_SendDelayMs vb) (db_SendDelayMs cb) + 5000 ≤ db_SendDelayMs vb + db_ReadTimeoutMs vb).
Proof. apply analysis_coordinated. Qed.

Definition demo_cm : NatHoleClient :=
  mkNatHoleClient "tc" "p" "s1" ["5.6.7.8:5000"; "5.6.7.8:5000"] ["10.0.0.3:5000"].
Definition demo_vm : NatHoleVisitor :=
  mkNatHoleVisitor "tv" "p" false "quic" "" 0 ["1.2.3.4:4000"; "1.2.3.4:4003"] ["10.0.0.2:4000"].

Lemma analysis_coordinates_witness :
  match analysis 1 (NewAnalyzer Hour) (new_session "s1" demo_vm 7%nat) demo_cm with
  | Ok (v, c, _, _) => db_SendDelayMs (nr_DetectBehavior v) + db_ReadTimeoutMs (nr_DetectBehavior v)
                       = db_SendDelayMs (nr_DetectBehavior c) + db_ReadTimeoutMs (nr_DetectBehavior c)
  | Err _ => False
  end.
Proof.
  destruct (analysis 1 (NewAnalyzer Hour) (new_session "s1" demo_vm 7%nat) demo_cm)
    as [[[[v c] s'] an']|e] eqn:E; [|vm_compute in E; discriminate].
  refine (proj1 (proj2 (proj2 (proj2 (proj2 (proj2 (proj2
    (analysis_coordinates 1 (NewAnalyzer Hour) an' (new_session "s1" demo_vm 7%nat) s' demo_cm v c _ E)))))))).
  exists Hour. apply rtc_refl.
Defined.

(** C1. No session without the proxy's key: a step that enters a session id into
    the session map is a visitor's request for a proxy registered at that moment,
    signed with that proxy's secret key, and the handler it starts will offer the
    id to that proxy's channel and no other. *)
Theorem session_needs_signature (c c' : Controller) (sid : string) (r : nat) :
  c_reachable c → cstep c c' → sessions c !! sid = None → sessions c' !! sid = Some r →
  ∃ s cfg, heap c' !! r = Some s ∧ s_sid s = sid ∧
    clientCfgs c !! nv_ProxyName (s_visitorMsg s) = Some cfg ∧
    nv_SignKey (s_visitorMsg s) = GetAuthKey (cfg_sk cfg) (nv_Timestamp (s_visitorMsg s)) ∧
    handlers c' !! r = Some (PSend (cfg_sidCh cfg)).
Proof.
  intros Hreach Hstep Hno Hyes.
  destruct Hstep as [name sk allow c res c' H| |r' sid' m t u c Hsid Hr'| |m t c|now r' s cm c| | | | | |now m c|now c];
    simpl in *; try congruence.
  - unfold ListenClient in H. destruct (clientCfgs c !! name); simplify_eq/=; congruence.
  - unfold HandleVisitor in *. destruct (nv_PreCheck m); simpl in *; [congruence|].
    destruct (admit_visitor m c) as [cfg|e] eqn:Ha; simpl in *; [|congruence].
    apply lookup_insert_Some in Hyes as [[<- <-]|[_ ?]]; [|congruence].
    exists (new_session sid' m t), cfg. rewrite !lookup_insert_eq.
    unfold admit_visitor in Ha. destruct (clientCfgs c !! nv_ProxyName m) as [cfg'|] eqn:Hc; [|done].
    rewrite ConstantTimeEqString_spec in Ha. case_bool_decide; simplify_eq. done.
  - unfold HandleClient in *. destruct (sessions c !! nc_Sid m); simpl in *; congruence.
  - unfold decide_session in *. destruct (analysis _ _ _ _) as [[[[? ?] ?] ?]|?]; simpl in *; congruence.
  - apply lookup_delete_Some in Hyes as [_ ?]. congruence.
  - apply lookup_delete_Some in Hyes as [_ ?]. congruence.
  - unfold HandleReport in *. destruct (sessions c !! _ ≫= _); [|congruence].
    destruct (nh_Success m); simpl in *; congruence.
Qed.

Definition demo_proxy : Controller := (ListenClient "p" "sk" ["alice"] (NewController Hour)).2.
Definition demo_request : NatHoleVisitor :=
  mkNatHoleVisitor "tv" "p" false "quic" (GetAuthKey "sk" 1700000000) 1700000000
    ["1.2.3.4:4000"; "1.2.3.4:4003"] [].
Definition demo_started : Controller := HandleVisitor 0%nat "s1" demo_request 7%nat "mallory" demo_proxy.

Lemma demo_proxy_reachable : c_reachable demo_proxy.
Proof. exists Hour. apply rtc_once. by eapply (cs_listen "p" "sk" ["alice"]). Qed.
Lemma demo_started_reachable : c_reachable demo_started.
Proof.
  destruct demo_proxy_reachable as [dur H]. exists dur. eapply rtc_r; [exact H|].
  by apply cs_visitor.
Qed.
Lemma demo_started_phase : handlers demo_started !! 0%nat = Some (PSend 0).
Proof. vm_compute. reflexivity. Qed.
Lemma demo_started_session : sessions demo_started !! "s1" = Some 0%nat.
Proof. vm_compute. reflexivity. Qed.

Lemma session_needs_signature_witness :
  ∃ s cfg, heap demo_started !! 0%nat = Some s ∧ s_sid s = "s1" ∧
    clientCfgs demo_proxy !! nv_ProxyName (s_visitorMsg s) = Some cfg ∧
    nv_SignKey (s_visitorMsg s) = GetAuthKey (cfg_sk cfg) (nv_Timestamp (s_visitorMsg s)) ∧
    handlers demo_started !! 0%nat = Some (PSend (cfg_sidCh cfg)).
Proof.
  apply (session_needs_signature demo_proxy demo_started "s1" 0%nat).
  - exact demo_proxy_reachable.
  - apply cs_visitor; reflexivity.
  - reflexivity.
  - exact demo_started_session.
Defined.

(** C10. The session map is exact and no handler reads a missing message: in every
    reachable state a session id is in the map iff a handler is running for a
    session with that id (so the map cannot grow beyond the running handlers and
    two handlers never share an id), and a session whose notification has arrived
    has a client message and a transporter to answer the client on. *)
Theorem sessions_exact (c : Controller) :
  c_reachable c →
  (∀ sid r, sessions c !! sid = Some r ↔
     ∃ s, heap c !! r = Some s ∧ s_sid s = sid ∧ is_Some (handlers c !! r))
  ∧ (∀ r s, heap c !! r = Some s → s_notifyCh s = true →
       is_Some (s_clientMsg s) ∧ is_Some (s_clientTransporter s)).
Proof.
  intros Hr%c_reachable_inv. split; [apply (inv_links _ Hr)|].
  intros r s Hs Hn. destruct (inv_sessions _ Hr _ _ Hs) as [H1 H2]. auto.
Qed.

Lemma sessions_exact_witness :
  ∃ s, heap demo_started !! 0%nat = Some s ∧ s_sid s = "s1" ∧ is_Some (handlers demo_started !! 0%nat).
Proof.
  exact (proj1 (proj1 (sessions_exact demo_started demo_started_reachable) "s1" 0%nat)
    demo_started_session).
Defined.

(** C33. Handlers finish: in every reachable state a running handler that is not
    waiting for a closed proxy can run to its end by steps that are always enabled
    (delivery, time-out, sends, wake-up), after which no session id refers to it. *)
Theorem handler_completes (c : Controller) (r : nat) (p : phase) :
  c_reachable c → handlers c !! r = Some p → (∀ ch, p = PSend ch → ch ∈ receivers c) →
  ∃ c', rtc cstep c c' ∧ handlers c' !! r = None ∧ ∀ sid, sessions c' !! sid ≠ Some r.
Proof.
  intros Hreach Hp Hch. pose proof (c_reachable_inv _ Hreach) as Hinv.
  assert (completes r c) as (c' & Hr & Hn).
  { destruct p as [ch| |vr cr|].
    - destruct (proj2 (inv_links _ Hinv) r) as [s Hs]; [eauto|].
      assert (Hstep := cs_deliver r ch s c Hp (Hch _ eq_refl) Hs).
      eapply completes_step; [exact Hstep|].
      apply completes_wait; [by eapply cstep_inv|apply lookup_insert_eq].
    - by apply completes_wait.
    - by eapply completes_respond.
    - by apply completes_sleep. }
  exists c'. split; [done|]. split; [done|]. intros sid Hsid.
  assert (Hinv' : ctl_inv c').
  { apply c_reachable_inv. destruct Hreach as [dur ?]. exists dur. by etransitivity. }
  apply (proj1 (inv_links _ Hinv')) in Hsid as (? & _ & _ & [? ?]). congruence.
Qed.

Lemma handler_completes_witness :
  ∃ c', rtc cstep demo_started c' ∧ handlers c' !! 0%nat = None ∧ ∀ sid, sessions c' !! sid ≠ Some 0%nat.
Proof.
  apply (handler_completes demo_started 0%nat (PSend 0)).
  - exact demo_started_reachable.
  - exact demo_started_phase.
  - intros ch [= <-]. apply (bool_decide_unpack _). vm_compute. exact I.
Defined.

(** The exception to the above: a handler that looked its proxy up before the
    proxy closed blocks for ever on the proxy's channel.  Whatever happens
    afterwards, the handler stays in that phase and its session id stays in the
    map. *)
Theorem closed_proxy_blocks_handler (c c' : Controller) (r ch : nat) :
  c_reachable c → handlers c !! r = Some (PSend ch) → ch ∉ receivers c → rtc cstep c c' →
  handlers c' !! r = Some (PSend ch) ∧ ∃ sid, sessions c' !! sid = Some r.
Proof.
  intros Hreach%c_reachable_inv Hp Hch Hr.
  destruct (stuck_forever r ch c c' Hreach (conj Hp Hch) Hr) as [[Hp' _] Hinv].
  split; [done|]. destruct (proj2 (inv_links _ Hinv) r) as [s Hs]; [eauto|].
  exists (s_sid s). apply (proj1 (inv_links _ Hinv)). eauto.
Qed.

Lemma closed_proxy_blocks_handler_witness :
  handlers (stop_receiver 0%nat (CloseClient "p" demo_started)) !! 0%nat = Some (PSend 0).
Proof.
  refine (proj1 (closed_proxy_blocks_handler (stop_receiver 0%nat (CloseClient "p" demo_started))
    (stop_receiver 0%nat (CloseClient "p" demo_started)) 0%nat 0%nat _ _ _ _)).
  - destruct demo_started_reachable as [dur H]. exists dur. eapply rtc_r; [exact H|].
    by eapply (cs_close "p" (mkClientCfg "p" "sk" ["alice"] 0%nat)).
  - exact demo_started_phase.
  - apply (bool_decide_unpack _). vm_compute. exact I.
  - apply rtc_refl.
Defined.

(** Who may connect.  The pre-check answers without an error exactly when the
    proxy exists and allows the visitor's user (or everybody), and changes nothing
    but the log of answers.  The request that follows does not look at the user at
    all: whoever knows the secret key is admitted, allowed or not. *)
Theorem allow_users_enforcement (r : nat) (sid : string) (m : NatHoleVisitor) (t : transporter)
    (u u' : string) (c : Controller) :
  (nv_PreCheck m = true →
     let c' := HandleVisitor r sid m t u c in
     (∃ e, sent c' = sent c ++ [(t, GenNatHoleResponse (nv_TransactionID m) None e)] ∧
        (e = "" ↔ ∃ cfg, clientCfgs c !! nv_ProxyName m = Some cfg ∧
                    (u ∈ cfg_allowUsers cfg ∨ "*" ∈ cfg_allowUsers cfg)))
     ∧ sessions c' = sessions c ∧ handlers c' = handlers c)
  ∧ (nv_PreCheck m = false → HandleVisitor r sid m t u c = HandleVisitor r sid m t u' c).
Proof.
  unfold HandleVisitor. split; intros ->; [|done]. simpl. split; [|done].
  exists (pre_check_error m u c). split; [done|]. unfold pre_check_error, contains.
  destruct (clientCfgs c !! nv_ProxyName m) as [cfg|]; [|split; [done|by intros (? & ? & _)]].
  repeat case_bool_decide; simpl; naive_solver.
Qed.

Lemma allow_users_enforcement_witness :
  HandleVisitor 0%nat "s1" demo_request 7%nat "mallory" demo_proxy
  = HandleVisitor 0%nat "s1" demo_request 7%nat "alice" demo_proxy.
Proof. exact (proj2 (allow_users_enforcement 0%nat "s1" demo_request 7%nat "mallory" "alice" demo_proxy) eq_refl). Defined.

(** Guessed port ranges stay in the port space: the only range has a lower end
    of at least 1 and an upper end of at most 65535; and when the last observed
    port is a real port, and the difference and the limit are what the classifier
    and the tables give, the range contains that port and is at most
    [2 * maxNumber + 1] ports wide. *)
Theorem range_ports_bounds (addrs : list string) (difference maxNumber : Z) :
  match getRangePorts addrs difference maxNumber with
  | [] => True
  | [p] => 1 ≤ pr_From p ∧ pr_To p ≤ 65535
      ∧ (∀ addr host port n, last addrs = Some addr → SplitHostPort addr = Ok (host, port) →
           Atoi port = Ok n → 1 ≤ n ≤ 65535 → 0 ≤ difference ≤ 65535 → maxNumber ≤ 10 →
           pr_From p ≤ n ≤ pr_To p ∧ pr_To p - pr_From p + 1 ≤ 2 * maxNumber + 1)
  | _ => False
  end.
Proof.
  unfold getRangePorts. destruct (Z.leb_spec maxNumber 0); [done|].
  destruct (last addrs) as [addr|]; [|done].
  destruct (SplitHostPort addr) as [[host portStr]|] eqn:Hs; [|done].
  destruct (Atoi portStr) as [port|] eqn:Ha; [|done]. cbn [pr_From pr_To].
  split_and!; [lia|lia|]. intros ? ? ? n [= <-] Hs' Ha' Hn Hd Hm.
  rewrite Hs in Hs'. simplify_eq. rewrite Ha in Ha'. simplify_eq.
  assert (Hid : ∀ z, -1000000 ≤ z ≤ 1000000 → wrap64 z = z).
  { intros z Hz. apply wrap64_id. unfold in_int64, MinInt64, MaxInt64. lia. }
  rewrite (Hid (n - difference)), (Hid (n + difference)) by lia.
  rewrite !Hid by lia. lia.
Qed.

(** The candidate ports get lost when the observed addresses repeat: the
    compaction of [candidateAddrs] clears the tail of the caller's slice before the
    last address is read from it, so as soon as two neighbouring addresses are
    equal, no candidate ports are sent at all, and otherwise they are those around
    the last address. *)
Theorem candidate_ports_lost (tid sid protocol : string) (mode rt diff : Z)
    (cand assisted : list string) (b : RecommandBehavior) :
  let resp := (newNatHoleResponse tid sid protocol mode cand assisted b rt diff).1.1 in
  db_CandidatePorts (nr_DetectBehavior resp)
  = if (length (Compact cand) <? length cand)%nat then []
    else getRangePorts cand diff (rb_PortsRangeNumber b).
Proof.
  simpl. destruct (Nat.ltb_spec (length (Compact cand)) (length cand)) as [Hlt|Hge].
  - unfold getRangePorts. destruct (_ <=? 0); [done|]. by rewrite last_compact_backing.
  - rewrite compact_backing_same by lia. by rewrite Compact_full_length by (pose proof (length_Compact cand); lia).
Qed.
