(* ===== verification/Registry.v ===== *)
(** * The client registry of [frps]: [server/registry/registry.go]

    Two maps under one lock: client records by key ([user.clientID], with the run
    id standing in for a missing client id) and the key a run id is registered
    under.  A [ClientInfo] pointer is only reachable through the map, so a record
    is a value here and an update replaces it. *)
From S2P Require Import Prelude GoStd.
From stdpp Require Import list.
Local Open Scope Z_scope.

Record ClientInfo := mkClientInfo {
  ci_Key : string;
  ci_User : string;
  ci_RawClientID : string;
  ci_RunID : string;
  ci_ControlID : Z;
  ci_Hostname : string;
  ci_IP : string;
  ci_Version : string;
  ci_WireProtocol : string;
  ci_FirstConnectedAt : Z;
  ci_LastConnectedAt : Z;
  ci_DisconnectedAt : Z;
  ci_Online : bool;
}.

Record ClientRegistry := mkRegistry {
  clients : gmap string ClientInfo;
  runIndex : gmap string string;
}.
Definition NewClientRegistry : ClientRegistry := mkRegistry ∅ ∅.

Definition composeClientKey (user id : string) : string :=
  if bool_decide (user = "") then id
  else if bool_decide (id = "") then user
  else user +:+ "." +:+ id.

Definition setClientOffline (now : Z) (i : ClientInfo) : ClientInfo :=
  mkClientInfo (ci_Key i) (ci_User i) (ci_RawClientID i) "" 0 (ci_Hostname i) (ci_IP i)
    (ci_Version i) (ci_WireProtocol i) (ci_FirstConnectedAt i) (ci_LastConnectedAt i) now false.

(** A record leaves the registry, or stays as an offline client with its id. *)
Definition drop_client (now : Z) (key : string) (i : ClientInfo) (cl : gmap string ClientInfo)
    : gmap string ClientInfo :=
  if bool_decide (ci_RawClientID i = "") then delete key cl
  else <[key := setClientOffline now i]> cl.

(** The run moved from another key: lines 97-106 of the source. *)
Definition leave_previous_key (now : Z) (runID key : string) (cr : ClientRegistry) : ClientRegistry :=
  match runIndex cr !! runID with
  | Some previousKey =>
      if bool_decide (previousKey = key) then cr
      else
        let cl := match clients cr !! previousKey with
                  | Some previous =>
                      if bool_decide (ci_RunID previous = runID)
                      then drop_client now previousKey previous (clients cr) else clients cr
                  | None => clients cr
                  end in
        mkRegistry cl (delete runID (runIndex cr))
  | None => cr
  end.

Record RegisterArgs := mkRegisterArgs {
  ra_user : string;
  ra_rawClientID : string;
  ra_runID : string;
  ra_hostname : string;
  ra_version : string;
  ra_remoteAddr : string;
  ra_wireProtocol : string;
  ra_controlID : Z;
}.

Definition client_key (a : RegisterArgs) : string :=
  composeClientKey (ra_user a)
    (if bool_decide (ra_rawClientID a = "") then ra_runID a else ra_rawClientID a).

(** The fields set for a client that comes online. *)
Definition online_info (now : Z) (a : RegisterArgs) (old : option ClientInfo) : ClientInfo :=
  let '(key, user, first) := match old with
    | None => (client_key a, ra_user a, now)
    | Some i => (ci_Key i, ci_User i, ci_FirstConnectedAt i)
    end in
  mkClientInfo key user (ra_rawClientID a) (ra_runID a) (ra_controlID a) (ra_hostname a)
    (ra_remoteAddr a) (ra_version a) (ra_wireProtocol a)
    (if time_is_zero first then now else first) now 0 true.

Definition RegisterWithControlID (now : Z) (a : RegisterArgs) (cr : ClientRegistry)
    : string * bool * ClientRegistry :=
  if bool_decide (ra_runID a = "") then ("", false, cr)
  else
    let key := client_key a in
    let existing := clients cr !! key in
    let conflict := match existing with
      | Some i => negb (bool_decide (ra_rawClientID a = "")) && ci_Online i
                  && negb (bool_decide (ci_RunID i = "")) && negb (bool_decide (ci_RunID i = ra_runID a))
      | None => false
      end in
    if conflict then (key, true, cr)
    else
      let cr := leave_previous_key now (ra_runID a) key cr in
      let ri := match existing with
                | Some i => if bool_decide (ci_RunID i = "") then runIndex cr
                            else delete (ci_RunID i) (runIndex cr)
                | None => runIndex cr
                end in
      (key, false,
       mkRegistry (<[key := online_info now a existing]> (clients cr))
         (<[ra_runID a := key]> ri)).

Definition Register (now : Z) (user rawClientID runID hostname version remoteAddr wireProtocol : string)
    (cr : ClientRegistry) : string * bool * ClientRegistry :=
  RegisterWithControlID now
    (mkRegisterArgs user rawClientID runID hostname version remoteAddr wireProtocol 0) cr.

Definition markOfflineByRunID (now : Z) (runID : string) (controlID : Z) (matchControlID : bool)
    (cr : ClientRegistry) : ClientRegistry :=
  match runIndex cr !! runID with
  | None => cr
  | Some key =>
      let cl := match clients cr !! key with
                | Some i =>
                    if bool_decide (ci_RunID i = runID)
                       && (negb matchControlID || bool_decide (ci_ControlID i = controlID))
                    then drop_client now key i (clients cr) else clients cr
                | None => clients cr
                end in
      let stale := match cl !! key with
                   | None => true
                   | Some i => negb (bool_decide (ci_RunID i = runID))
                   end in
      mkRegistry cl (if stale then delete runID (runIndex cr) else runIndex cr)
  end.
Definition MarkOfflineByRunID (now : Z) (runID : string) (cr : ClientRegistry) : ClientRegistry :=
  markOfflineByRunID now runID 0 false cr.
Definition MarkOfflineByRunIDAndControlID (now : Z) (runID : string) (controlID : Z)
    (cr : ClientRegistry) : ClientRegistry :=
  markOfflineByRunID now runID controlID true cr.

Definition List (cr : ClientRegistry) : list ClientInfo := (map_to_list (clients cr)).*2.
Definition GetByKey (key : string) (cr : ClientRegistry) : option ClientInfo := clients cr !! key.
Definition ClientID (i : ClientInfo) : string :=
  if bool_decide (ci_RawClientID i = "") then ci_RunID i else ci_RawClientID i.

(** ** Steps *)
Inductive rstep : ClientRegistry → ClientRegistry → Prop :=
| rs_register now a cr key b cr' : RegisterWithControlID now a cr = (key, b, cr') → rstep cr cr'
| rs_offline now runID cid m cr : rstep cr (markOfflineByRunID now runID cid m cr).

Definition r_reachable (cr : ClientRegistry) : Prop := rtc rstep NewClientRegistry cr.

(** ** Invariant: the run index and the online records describe each other; an
    offline record has a client id of its own. *)
Record reg_inv (cr : ClientRegistry) : Prop := mkRegInv {
  ri_index : ∀ run key, runIndex cr !! run = Some key →
    ∃ i, clients cr !! key = Some i ∧ ci_RunID i = run ∧ run ≠ "";
  ri_online : ∀ key i, clients cr !! key = Some i → ci_RunID i ≠ "" →
    runIndex cr !! ci_RunID i = Some key;
  ri_flag : ∀ key i, clients cr !! key = Some i →
    (ci_Online i = true ↔ ci_RunID i ≠ "") ∧ (ci_Online i = false → ci_RawClientID i ≠ "");
}.

(** ** Lemmas *)
Lemma drop_client_Some now key i cl k j :
  drop_client now key i cl !! k = Some j →
  (k ≠ key ∧ cl !! k = Some j)
  ∨ (k = key ∧ ci_RunID j = "" ∧ ci_Online j = false ∧ ci_RawClientID j ≠ "").
Proof.
  unfold drop_client. case_bool_decide.
  - rewrite lookup_delete_Some. intros [? ?]. left. naive_solver.
  - rewrite lookup_insert_Some. intros [[<- <-]|[? ?]]; [right; by split_and!|left; naive_solver].
Qed.

Lemma drop_client_ne now key i cl k : k ≠ key → drop_client now key i cl !! k = cl !! k.
Proof.
  intros. unfold drop_client. case_bool_decide; [by rewrite lookup_delete_ne|by rewrite lookup_insert_ne].
Qed.

(** Dropping the record of a run and its index entry together keeps the invariant. *)
Lemma reg_inv_drop now cr run key i :
  reg_inv cr → runIndex cr !! run = Some key → clients cr !! key = Some i → ci_RunID i = run →
  reg_inv (mkRegistry (drop_client now key i (clients cr)) (delete run (runIndex cr))).
Proof.
  intros [Hidx Hon Hfl] Hr Hk Hrun. split; simpl.
  - intros run' key' [Hne H]%lookup_delete_Some.
    destruct (Hidx _ _ H) as (j & Hj & Hjr & Hjn). exists j. split; [|done].
    rewrite drop_client_ne; [done|]. intros ->. simplify_eq.
  - intros key' j Hj Hjr. apply drop_client_Some in Hj as [[Hne Hj]|(-> & Hj & _)]; [|done].
    rewrite lookup_delete_ne; [by apply Hon|]. intros Heq. apply Hne.
    pose proof (Hon _ _ Hj Hjr) as H. rewrite <-Heq, Hr in H. by simplify_eq.
  - intros key' j Hj. apply drop_client_Some in Hj as [[Hne Hj]|(-> & Hj & Ho & Hraw)]; [by eapply Hfl|].
    rewrite Hj, Ho. naive_solver.
Qed.

Lemma leave_previous_key_inv now run key cr :
  reg_inv cr →
  reg_inv (leave_previous_key now run key cr)
  ∧ clients (leave_previous_key now run key cr) !! key = clients cr !! key
  ∧ (∀ k, runIndex (leave_previous_key now run key cr) !! run = Some k → k = key).
Proof.
  intros Hinv. unfold leave_previous_key.
  destruct (runIndex cr !! run) as [pk|] eqn:Hpk; [|split; [done|]; split; [done|]; congruence].
  case_bool_decide as Hd; [subst; split; [done|]; split; [done|]; congruence|].
  destruct (ri_index _ Hinv _ _ Hpk) as (p & Hp & Hpr & Hne). rewrite Hp, bool_decide_eq_true_2 by done.
  split; [by apply reg_inv_drop|]. split; [by apply drop_client_ne|].
  simpl. intros k Hk. by rewrite lookup_delete_eq in Hk.
Qed.

Lemma reg_inv_register now a cr key b cr' :
  reg_inv cr → RegisterWithControlID now a cr = (key, b, cr') → reg_inv cr'.
Proof.
  intros Hinv H. unfold RegisterWithControlID in H.
  case_bool_decide as Hrun; [by simplify_eq|].
  set (ky := client_key a) in *.
  destruct (match clients cr !! ky with Some i => _ | None => false end); [by simplify_eq|].
  destruct (leave_previous_key_inv now (ra_runID a) ky cr Hinv) as ([Hidx Hon Hfl] & Hkey & Honly).
  set (cr1 := leave_previous_key now (ra_runID a) ky cr) in *. injection H as <- <- <-.
  set (ri := match clients cr !! ky with Some i => _ | None => _ end).
  assert (Hri : ∀ run k, ri !! run = Some k →
    runIndex cr1 !! run = Some k ∧ (run = ra_runID a ∨ k ≠ ky)).
  { subst ri. rewrite <-Hkey. intros run k.
    destruct (clients cr1 !! ky) as [i|] eqn:Hi.
    - case_bool_decide as Hir.
      + intros Hk. split; [done|]. right. intros ->.
        destruct (Hidx _ _ Hk) as (j & Hj & Hjr & ?). rewrite Hi in Hj. simplify_eq.
      + intros [Hne Hk]%lookup_delete_Some. split; [done|]. right. intros ->.
        destruct (Hidx _ _ Hk) as (j & Hj & Hjr & ?). rewrite Hi in Hj. by simplify_eq.
    - intros Hk. split; [done|]. right. intros ->.
      destruct (Hidx _ _ Hk) as (j & Hj & _). by rewrite Hi in Hj. }
  assert (Hri' : ∀ run k, runIndex cr1 !! run = Some k → k ≠ ky → ri !! run = Some k).
  { subst ri. rewrite <-Hkey. intros run k Hk Hne. destruct (clients cr1 !! ky) as [i|] eqn:Hi; [|done].
    case_bool_decide; [done|]. rewrite lookup_delete_ne; [done|]. intros Heq.
    pose proof (Hon _ _ Hi ltac:(done)) as H'. rewrite Heq, Hk in H'. by simplify_eq. }
  assert (Hinfo : ∀ o, ci_RunID (online_info now a o) = ra_runID a ∧ ci_Online (online_info now a o) = true)
    by (by intros [?|]).
  split; simpl.
  - intros run k. rewrite lookup_insert_Some. intros [[<- <-]|[Hne Hk]].
    + eexists. rewrite lookup_insert_eq. split; [done|]. by rewrite (proj1 (Hinfo _)).
    + apply Hri in Hk as [Hk [->|Hky]]; [done|].
      destruct (Hidx _ _ Hk) as (j & Hj & ? & ?). exists j. by rewrite lookup_insert_ne.
  - intros k i. rewrite lookup_insert_Some. intros [[<- <-]|[Hne Hk]] Hr.
    + rewrite (proj1 (Hinfo _)). apply lookup_insert_eq.
    + pose proof (Hon _ _ Hk Hr) as Hki.
      destruct (decide (ci_RunID i = ra_runID a)) as [Heq|].
      * rewrite Heq in Hki. apply Honly in Hki. congruence.
      * rewrite lookup_insert_ne by done. by apply Hri'.
  - intros k i. rewrite lookup_insert_Some. intros [[<- <-]|[Hne Hk]]; [|by eapply Hfl].
    destruct (Hinfo (clients cr !! ky)) as [-> ->]. naive_solver.
Qed.

Lemma reg_inv_offline now run cid m cr : reg_inv cr → reg_inv (markOfflineByRunID now run cid m cr).
Proof.
  intros Hinv. unfold markOfflineByRunID. destruct (runIndex cr !! run) as [key|] eqn:Hk; [|done].
  destruct (ri_index _ Hinv _ _ Hk) as (i & Hi & Hr & Hne). rewrite Hi.
  rewrite (bool_decide_eq_true_2 (ci_RunID i = run)) by done. simpl.
  destruct (negb m || _); simpl.
  - assert (Hst : match drop_client now key i (clients cr) !! key with
      | None => true | Some j => negb (bool_decide (ci_RunID j = run)) end = true).
    { destruct (drop_client now key i (clients cr) !! key) as [j|] eqn:Hj; [|done].
      apply drop_client_Some in Hj as [[? _]|(_ & Hj & _)]; [done|].
      by rewrite bool_decide_eq_false_2 by congruence. }
    rewrite Hst. by apply reg_inv_drop.
  - rewrite Hi, bool_decide_eq_true_2 by done. by destruct cr.
Qed.

Lemma r_reachable_inv cr : r_reachable cr → reg_inv cr.
Proof.
  intros Hr. assert (Hinit : reg_inv NewClientRegistry) by (split; simpl; intros; set_solver).
  induction Hr as [|x y z [] ? IH]; [done|..]; apply IH;
    eauto using reg_inv_register, reg_inv_offline.
Qed.

(** What is online after a registration: the new record, and those of other runs that
    were online before. *)
Lemma register_online now a cr key cr' k i :
  reg_inv cr → RegisterWithControlID now a cr = (key, false, cr') → ra_runID a ≠ "" →
  clients cr' !! k = Some i → ci_RunID i ≠ "" →
  ci_RunID i = ra_runID a ∧ ci_ControlID i = ra_controlID a
  ∨ ci_RunID i ≠ ra_runID a ∧ clients cr !! k = Some i.
Proof.
  intros Hinv HR Hne Hk Hi. unfold RegisterWithControlID in HR.
  rewrite bool_decide_eq_false_2 in HR by done.
  destruct (match clients cr !! client_key a with Some i => _ | None => false end); [done|].
  injection HR as <- <-. simpl in Hk. apply lookup_insert_Some in Hk as [[<- <-]|[Hkey Hk]].
  { left. by destruct (clients cr !! client_key a). }
  destruct (leave_previous_key_inv now (ra_runID a) (client_key a) cr Hinv) as ([_ Hon _] & _ & Honly).
  right. split.
  - intros Heq. pose proof (Hon _ _ Hk Hi) as H. rewrite Heq in H. apply Honly in H. congruence.
  - unfold leave_previous_key in Hk. destruct (runIndex cr !! ra_runID a); [|done].
    case_bool_decide; [done|]. simpl in Hk. destruct (clients cr !! s) as [p|]; [|done].
    case_bool_decide; [|done]. by apply drop_client_Some in Hk as [[_ ?]|(_ & ? & _)].
Qed.

(** What is online after the disconnection of a generation. *)
Lemma offline_online now run cid cr k i :
  reg_inv cr → clients (MarkOfflineByRunIDAndControlID now run cid cr) !! k = Some i →
  ci_RunID i ≠ "" → clients cr !! k = Some i ∧ (ci_RunID i = run → ci_ControlID i ≠ cid).
Proof.
  intros [Hidx Hon _] Hk Hi. unfold MarkOfflineByRunIDAndControlID, markOfflineByRunID in Hk.
  destruct (runIndex cr !! run) as [key|] eqn:Hkey; simpl in Hk.
  - destruct (Hidx _ _ Hkey) as (j & Hj & Hjr & _). rewrite Hj in Hk.
    rewrite (bool_decide_eq_true_2 (ci_RunID j = run)) in Hk by done. simpl in Hk.
    assert (Hsame : ∀ i', clients cr !! k = Some i' → ci_RunID i' = run → ci_RunID i' ≠ "" → k = key).
    { intros i' Hi' Hr Hne. pose proof (Hon _ _ Hi' Hne) as H. rewrite Hr, Hkey in H. congruence. }
    case_bool_decide as Hc.
    + apply drop_client_Some in Hk as [[Hne Hk]|(_ & ? & _)]; [|done]. split; [done|].
      intros Hr. exfalso. by apply Hne, (Hsame i).
    + split; [done|]. intros Hr. pose proof (Hsame _ Hk Hr Hi) as ->. by simplify_eq.
  - split; [done|]. intros Hr. pose proof (Hon _ _ Hk Hi) as H. congruence.
Qed.

(** ** Theorems *)

(** The run index of the registry is exact: in every state reached by
    registrations and disconnections, a run id is indexed under a key iff the record
    of that key is online and belongs to that run (so a run is online under at most
    one key), and a record that is offline has a client id of its own. *)
Theorem registry_index_exact (cr : ClientRegistry) :
  r_reachable cr →
  (∀ run key, runIndex cr !! run = Some key ↔
     ∃ i, clients cr !! key = Some i ∧ ci_RunID i = run ∧ ci_Online i = true)
  ∧ (∀ key i, clients cr !! key = Some i → ci_Online i = false → ci_RawClientID i ≠ "").
Proof.
  intros [Hidx Hon Hfl]%r_reachable_inv. split; [|intros key i Hi; by apply (Hfl key)].
  intros run key. split.
  - intros H. destruct (Hidx _ _ H) as (i & Hi & Hr & Hne). exists i. split; [done|].
    split; [done|]. apply (Hfl _ _ Hi). congruence.
  - intros (i & Hi & <- & Ho). apply Hon; [done|]. by apply (Hfl _ _ Hi).
Qed.

Definition demo_args (user id run : string) (cid : Z) : RegisterArgs :=
  mkRegisterArgs user id run "host" "0.1" "10.0.0.1" "v1" cid.
Definition demo_registry : ClientRegistry :=
  (RegisterWithControlID 5 (demo_args "u" "c" "r1" 1) NewClientRegistry).2.
Lemma demo_registry_reachable : r_reachable demo_registry.
Proof. apply rtc_once. by eapply (rs_register 5 (demo_args "u" "c" "r1" 1)). Qed.

Lemma registry_index_exact_witness :
  ∃ i, clients demo_registry !! "u.c" = Some i ∧ ci_RunID i = "r1" ∧ ci_Online i = true.
Proof.
  exact (proj1 (proj1 (registry_index_exact demo_registry demo_registry_reachable) "r1" "u.c") eq_refl).
Defined.

(** Generations of one run id.  A registration succeeds unless another online
    run holds the same explicit client id; after it the client is online under its
    key with its control id.  From then on a disconnection of an older generation
    (another control id) changes nothing, while the disconnection of this
    generation takes the run out of the index. *)
Theorem registry_generations (now now' : Z) (a : RegisterArgs) (cr : ClientRegistry) (other : Z) :
  r_reachable cr → ra_runID a ≠ "" → other ≠ ra_controlID a →
  match RegisterWithControlID now a cr with
  | (key, true, cr') =>
      cr' = cr ∧ ra_rawClientID a ≠ "" ∧
      ∃ i, clients cr !! key = Some i ∧ ci_Online i = true ∧ ci_RunID i ≠ ra_runID a
  | (key, false, cr') =>
      key = client_key a ∧ runIndex cr' !! ra_runID a = Some key ∧
      (∃ i, clients cr' !! key = Some i ∧ ci_Online i = true ∧ ci_ControlID i = ra_controlID a) ∧
      MarkOfflineByRunIDAndControlID now' (ra_runID a) other cr' = cr' ∧
      runIndex (MarkOfflineByRunIDAndControlID now' (ra_runID a) (ra_controlID a) cr') !! ra_runID a
        = None
  end.
Proof.
  intros _ Hrun Hother. unfold RegisterWithControlID.
  rewrite bool_decide_eq_false_2 by done.
  set (key := client_key a).
  destruct (match clients cr !! key with Some i => _ | None => false end) eqn:Hc.
  - destruct (clients cr !! key) as [i|] eqn:Hi; [|done].
    rewrite !andb_true_iff, !negb_true_iff, !bool_decide_eq_false in Hc.
    destruct Hc as [[[? ?] ?] ?]. split; [done|]. split; [done|]. eauto.
  - set (old := clients cr !! key). set (cr1 := leave_previous_key _ _ _ _).
    set (ri := match old with Some i => _ | None => _ end).
    assert (Hrid : ci_RunID (online_info now a old) = ra_runID a) by (by destruct old).
    assert (Hcid : ci_ControlID (online_info now a old) = ra_controlID a) by (by destruct old).
    split; [done|]. cbn [runIndex clients]. split; [by rewrite lookup_insert_eq|].
    split; [eexists; rewrite lookup_insert_eq; split; [done|]; by destruct old|].
    unfold MarkOfflineByRunIDAndControlID, markOfflineByRunID. cbn [runIndex clients].
    rewrite !lookup_insert_eq, Hrid, Hcid.
    rewrite (bool_decide_eq_true_2 (ra_runID a = ra_runID a)) by done.
    rewrite (bool_decide_eq_true_2 (ra_controlID a = ra_controlID a)) by done.
    rewrite (bool_decide_eq_false_2 (ra_controlID a = other)) by done. cbn [andb orb negb].
    rewrite lookup_insert_eq, Hrid, (bool_decide_eq_true_2 (ra_runID a = ra_runID a)) by done.
    split; [done|]. cbn [runIndex].
    destruct (drop_client now' key _ _ !! key) as [j|] eqn:Hj.
    + apply drop_client_Some in Hj as [[? _]|(_ & Hj & _)]; [done|].
      rewrite bool_decide_eq_false_2 by congruence. cbn [negb]. apply lookup_delete_eq.
    + apply lookup_delete_eq.
Qed.

Lemma registry_generations_witness :
  runIndex demo_registry !! "r1" = Some "u.c"
  ∧ MarkOfflineByRunIDAndControlID 9 "r1" 0 demo_registry = demo_registry.
Proof.
  pose proof (registry_generations 5 9 (demo_args "u" "c" "r1" 1) NewClientRegistry 0
    (rtc_refl _ _) ltac:(discriminate) ltac:(discriminate)) as H.
  change (RegisterWithControlID 5 (demo_args "u" "c" "r1" 1) NewClientRegistry)
    with ("u.c", false, demo_registry) in H.
  cbv iota in H. split; [exact (proj1 (proj2 H))|exact (proj1 (proj2 (proj2 (proj2 H))))].
Defined.

(** Registry keys are not unique per user.  A client of user [a] with client id
    [b.c] blocks the login of a client of user [a.b] with client id [c]; and a
    client without a client id, whose run id equals another client's id, takes over
    that client's record, after which the first client is not indexed although it
    is still connected. *)
Theorem registry_key_collisions :
  (RegisterWithControlID 6 (demo_args "a.b" "c" "r2" 2)
     (RegisterWithControlID 5 (demo_args "a" "b.c" "r1" 1) NewClientRegistry).2).1 = ("a.b.c", true)
  ∧ let cr := (RegisterWithControlID 6 (demo_args "u" "" "c" 2) demo_registry).2 in
    runIndex demo_registry !! "r1" = Some "u.c" ∧ runIndex cr !! "r1" = None
    ∧ runIndex cr !! "c" = Some "u.c".
Proof. vm_compute. auto. Qed.
