(* ===== verification/ServerProxy.v ===== *)
(** * Proxies on the server: [server/proxy/proxy.go], [server/proxy/xtcp.go],
    [RegisterProxy]/[CloseProxy]/[closeProxy] of [server/control.go]

    A registration runs through four shared structures, each with its own lock:
    the proxy manager is asked whether the name exists, the NAT hole controller
    accepts the name, the manager enters it, and the control owns it.  Closing takes
    the name out again, by name.  Each of these calls is one step of [pstep], so that
    the registrations and closings of all clients interleave; a proxy object carries
    the phase it is in.  The theorems say that the two name-keyed tables and the
    proxy objects stay consistent, so closing by name never hits another client's
    proxy. *)
From S2P Require Import Prelude GoStd Msg ConfigV1 Auth Validation ConfigLoad NatClassify.
From S2P Require Import Analyzer NatController.
From stdpp Require Import list.
Local Open Scope Z_scope.

(** ** Work connections *)

(** The value [strconv.ParseUint(s, 10, 16)] returns, its error ignored: 0 on bad
    syntax, the largest value on overflow. *)
Fixpoint parse_port16_loop (acc : Z) (s : string) : Z :=
  match s with
  | EmptyString => acc
  | String c s =>
      match digit_val c with
      | None => 0
      | Some d => if 65535 <? acc * 10 + d then 65535 else parse_port16_loop (acc * 10 + d) s
      end
  end.
Definition parse_port16 (s : string) : Z := parse_port16_loop 0 s.
Definition split_or_empty (addr : option string) : string * string :=
  match addr with
  | Some a => match SplitHostPort a with Ok p => p | Err _ => ("", "") end
  | None => ("", "")
  end.
Definition start_msg (name : string) (src dst : option string) : StartWorkConn :=
  let '(srcAddr, srcPortStr) := split_or_empty src in
  let '(dstAddr, dstPortStr) := split_or_empty dst in
  mkStartWorkConn name srcAddr dstAddr
    (match src with Some _ => parse_port16 srcPortStr | None => 0 end)
    (match dst with Some _ => parse_port16 dstPortStr | None => 0 end) "".

(** What the loop of [GetWorkConnFromPool] does to a connection: [WorkConn.Start], and whether
    its [WriteMsg] succeeds; [WorkConn.Close]. *)
Inductive peffect : Type := PStart (conn : nat) (m : StartWorkConn) (ok : bool) | PClose (conn : nat).
(** The loop: [get i] is the [i]-th call of [getWorkConnFn], [start c m] the write of message
    [m] on connection [c]. *)
Fixpoint pool_loop (get : nat → result nat) (start : nat → StartWorkConn → result unit)
    (m : StartWorkConn) (i fuel : nat) (err : string) : result nat * list peffect :=
  match fuel with
  | O => (Err err, [])
  | S fuel =>
      match get i with
      | Err e => (Err e, [])
      | Ok c =>
          match start c m with
          | Ok _ => (Ok c, [PStart c m true])
          | Err e => let '(r, t) := pool_loop get start m (S i) fuel e in (r, PStart c m false :: PClose c :: t)
          end
      end
  end.
Definition GetWorkConnFromPool (name : string) (poolCount : nat) (src dst : option string)
    (get : nat → result nat) (start : nat → StartWorkConn → result unit)
    : result nat * list peffect :=
  pool_loop get start (start_msg name src dst) 0 (poolCount + 1) "".

(** ** State *)
Inductive pphase : Type :=
| PhChecked               (* the name was free when [Exist] was asked *)
| PhRunning (ch : nat)    (* [Run] returned: registered at the NAT hole controller *)
| PhAdded (ch : nat)      (* entered into the manager *)
| PhOwned (ch : nat)      (* in the control's [proxies] map *)
| PhClosing (ch : nat)    (* taken out of that map, to be closed *)
| PhClosed                (* [Close] done, still in the manager *)
| PhDead.

Record SProxy := mkSProxy {
  sp_owner : nat;          (* the control, by identity *)
  sp_user : string;        (* the login's user *)
  sp_cfg : XTCPProxyConfig;
  sp_phase : pphase;
}.
Definition sp_name (p : SProxy) : string := pc_Name (xp_Base (sp_cfg p)).
Definition set_pphase (ph : pphase) (p : SProxy) : SProxy :=
  mkSProxy (sp_owner p) (sp_user p) (sp_cfg p) ph.

(** The server's proxies: [Manager.pxys], the proxy objects, the NAT hole
    controller, and per control its [proxies] map, the registration its message loop
    is working on, and whether its worker has taken the map. *)
Record pworld := mkPworld {
  pxys : gmap string nat;
  objs : gmap nat SProxy;
  natc : Controller;
  owned : gmap nat (gmap string nat);
  busy : gmap nat nat;
  exited : gset nat;
}.
Definition owned_by (w : pworld) (k : nat) : gmap string nat := default ∅ (owned w !! k).

(** ** Operations *)
Definition Manager_Exist (name : string) (w : pworld) : bool := bool_decide (is_Some (pxys w !! name)).
Definition Manager_GetByName (name : string) (w : pworld) : option nat := pxys w !! name.
Definition Manager_Add (name : string) (r : nat) (m : gmap string nat) : result (gmap string nat) :=
  match m !! name with
  | Some _ => Err ("proxy name [" +:+ name +:+ "] is already in use")
  | None => Ok (<[name := r]> m)
  end.
Definition Manager_Del (name : string) (m : gmap string nat) : gmap string nat := delete name m.

(** [NewProxy]: the only registered factory is the one of xtcp proxies. *)
Definition NewProxy_obj (k : nat) (user : string) (c : ProxyConfigurer) : SProxy :=
  match c with PC_XTCP c => mkSProxy k user c PhChecked end.

(** The users [Run] allows: those configured, or the proxy's own user. *)
Definition allow_users (p : SProxy) : list string :=
  match xp_AllowUsers (sp_cfg p) with [] => [sp_user p] | l => l end.
Definition Run (p : SProxy) (n : Controller) : result nat * Controller :=
  ListenClient (sp_name p) (xp_Secretkey (sp_cfg p)) (allow_users p) n.
(** [XTCPProxy.Close] of a proxy that runs on channel [ch]. *)
Definition Close (p : SProxy) (ch : nat) (n : Controller) : Controller :=
  stop_receiver ch (CloseClient (sp_name p) n).

(** [RegisterProxy] up to [PxyManager.Exist]. *)
Definition register_check `{Text} (k r : nat) (user : string) (m : NewProxy) (w : pworld)
    : result pworld :=
  NewProxyConfigurerFromMsg m ≫= λ c,
  if Manager_Exist (np_ProxyName m) w
  then Err ("proxy [" +:+ np_ProxyName m +:+ "] already exists")
  else Ok (mkPworld (pxys w) (<[r := NewProxy_obj k user c]> (objs w)) (natc w) (owned w)
             (<[k := r]> (busy w)) (exited w)).

(** [pxy.Run()]. *)
Definition register_run (k r : nat) (p : SProxy) (w : pworld) : pworld :=
  match Run p (natc w) with
  | (Ok ch, n) => mkPworld (pxys w) (<[r := set_pphase (PhRunning ch) p]> (objs w)) n (owned w)
                    (busy w) (exited w)
  | (Err _, n) => mkPworld (pxys w) (<[r := set_pphase PhDead p]> (objs w)) n (owned w)
                    (delete k (busy w)) (exited w)
  end.
(** [PxyManager.Add], with the deferred [pxy.Close()] on failure. *)
Definition register_add (k r ch : nat) (p : SProxy) (w : pworld) : pworld :=
  match Manager_Add (sp_name p) r (pxys w) with
  | Ok m => mkPworld m (<[r := set_pphase (PhAdded ch) p]> (objs w)) (natc w) (owned w)
              (busy w) (exited w)
  | Err _ => mkPworld (pxys w) (<[r := set_pphase PhDead p]> (objs w)) (Close p ch (natc w))
               (owned w) (delete k (busy w)) (exited w)
  end.
(** [ctl.proxies[name] = pxy], the end of [RegisterProxy]. *)
Definition register_own (k r ch : nat) (p : SProxy) (w : pworld) : pworld :=
  mkPworld (pxys w) (<[r := set_pphase (PhOwned ch) p]> (objs w)) (natc w)
    (<[k := <[sp_name p := r]> (owned_by w k)]> (owned w)) (delete k (busy w)) (exited w).

(** [CloseProxy]: take the proxy out of the control's map. *)
Definition close_take (k r ch : nat) (p : SProxy) (w : pworld) : pworld :=
  mkPworld (pxys w) (<[r := set_pphase (PhClosing ch) p]> (objs w)) (natc w)
    (<[k := delete (sp_name p) (owned_by w k)]> (owned w)) (busy w) (exited w).
(** The worker takes the whole map when the connection is gone. *)
Definition mark_closing (k : nat) (p : SProxy) : SProxy :=
  match sp_phase p with
  | PhOwned ch => if decide (sp_owner p = k) then set_pphase (PhClosing ch) p else p
  | _ => p
  end.
Definition exit_take (k : nat) (w : pworld) : pworld :=
  mkPworld (pxys w) (mark_closing k <$> objs w) (natc w) (<[k := ∅]> (owned w)) (busy w)
    ({[k]} ∪ exited w).
(** [closeProxy]: [pxy.Close()], then [PxyManager.Del]. *)
Definition close_close (r ch : nat) (p : SProxy) (w : pworld) : pworld :=
  mkPworld (pxys w) (<[r := set_pphase PhClosed p]> (objs w)) (Close p ch (natc w)) (owned w)
    (busy w) (exited w).
Definition close_del (r : nat) (p : SProxy) (w : pworld) : pworld :=
  mkPworld (Manager_Del (sp_name p) (pxys w)) (<[r := set_pphase PhDead p]> (objs w)) (natc w)
    (owned w) (busy w) (exited w).

Definition init_pworld (dur : Z) : pworld := mkPworld ∅ ∅ (NewController dur) ∅ ∅ ∅.

(** ** Steps.  A control's message loop handles one message at a time, so it has at
    most one registration in progress, and the worker takes the map only after the
    loop has ended. *)
Section steps.
Context `{Text}.
Inductive pstep : pworld → pworld → Prop :=
| ps_check k r user m w w' :
    busy w !! k = None → k ∉ exited w → objs w !! r = None →
    register_check k r user m w = Ok w' → pstep w w'
| ps_run k r p w :
    busy w !! k = Some r → objs w !! r = Some p → sp_phase p = PhChecked →
    pstep w (register_run k r p w)
| ps_add k r p ch w :
    busy w !! k = Some r → objs w !! r = Some p → sp_phase p = PhRunning ch →
    pstep w (register_add k r ch p w)
| ps_own k r p ch w :
    busy w !! k = Some r → objs w !! r = Some p → sp_phase p = PhAdded ch →
    pstep w (register_own k r ch p w)
| ps_close_take k r p ch name w :
    busy w !! k = None → owned_by w k !! name = Some r → objs w !! r = Some p →
    sp_phase p = PhOwned ch → pstep w (close_take k r ch p w)
| ps_exit k w : busy w !! k = None → pstep w (exit_take k w)
| ps_close r p ch w :
    objs w !! r = Some p → sp_phase p = PhClosing ch → pstep w (close_close r ch p w)
| ps_del r p w :
    objs w !! r = Some p → sp_phase p = PhClosed → pstep w (close_del r p w)
| ps_other n w :   (* the controller does something else: sessions, messages, timers *)
    cstep (natc w) n → clientCfgs n = clientCfgs (natc w) → next_ch n = next_ch (natc w) →
    pstep w (mkPworld (pxys w) (objs w) n (owned w) (busy w) (exited w)).

Definition p_reachable (w : pworld) : Prop := ∃ dur, rtc pstep (init_pworld dur) w.
End steps.

(** ** Invariant *)

(** The channel a phase holds at the NAT hole controller, and whether it holds the
    name in the manager. *)
Definition holds_nat (ph : pphase) : option nat :=
  match ph with
  | PhRunning ch | PhAdded ch | PhOwned ch | PhClosing ch => Some ch
  | _ => None
  end.
Definition holds_pm (ph : pphase) : bool :=
  match ph with PhAdded _ | PhOwned _ | PhClosing _ | PhClosed => true | _ => false end.
Definition registering (ph : pphase) : bool :=
  match ph with PhChecked | PhRunning _ | PhAdded _ => true | _ => false end.

(** The entry of the NAT hole controller that belongs to a proxy. *)
Definition cfg_of (p : SProxy) (ch : nat) : ClientCfg :=
  mkClientCfg (sp_name p) (xp_Secretkey (sp_cfg p)) (allow_users p) ch.

(** Every proxy that holds a channel has its own entry at the controller, and every
    entry is such a proxy's. *)
Definition nat_inv (o : gmap nat SProxy) (n : Controller) : Prop :=
  (∀ r p ch, o !! r = Some p → holds_nat (sp_phase p) = Some ch →
     clientCfgs n !! sp_name p = Some (cfg_of p ch) ∧ (ch < next_ch n)%nat ∧
     ∀ r' p', o !! r' = Some p' → holds_nat (sp_phase p') = Some ch → r' = r)
  ∧ (∀ name cfg, clientCfgs n !! name = Some cfg →
     ∃ r p, o !! r = Some p ∧ sp_name p = name ∧ holds_nat (sp_phase p) = Some (cfg_sidCh cfg)).
(** The manager's entries are the proxies that hold their name there. *)
Definition pm_inv (o : gmap nat SProxy) (m : gmap string nat) : Prop :=
  ∀ name r, m !! name = Some r ↔
    ∃ p, o !! r = Some p ∧ sp_name p = name ∧ holds_pm (sp_phase p) = true.
(** The controls' maps are the owned proxies. *)
Definition own_inv (o : gmap nat SProxy) (ow : gmap nat (gmap string nat)) : Prop :=
  ∀ k name r, default ∅ (ow !! k) !! name = Some r ↔
    ∃ p ch, o !! r = Some p ∧ sp_name p = name ∧ sp_owner p = k ∧ sp_phase p = PhOwned ch.
(** A control is busy with the proxy it is registering. *)
Definition busy_inv (o : gmap nat SProxy) (b : gmap nat nat) : Prop :=
  ∀ k r, b !! k = Some r ↔
    ∃ p, o !! r = Some p ∧ sp_owner p = k ∧ registering (sp_phase p) = true.
Definition exit_inv (w : pworld) : Prop :=
  ∀ k, k ∈ exited w → busy w !! k = None ∧ owned_by w k = ∅.

Record pinv (w : pworld) : Prop := mkPinv {
  pi_nat : nat_inv (objs w) (natc w);
  pi_pm : pm_inv (objs w) (pxys w);
  pi_own : own_inv (objs w) (owned w);
  pi_busy : busy_inv (objs w) (busy w);
  pi_exit : exit_inv w;
}.

(** ** Lemmas: one object changes its phase *)
Lemma same_nat o n r1 p1 c1 r2 p2 c2 :
  nat_inv o n → o !! r1 = Some p1 → holds_nat (sp_phase p1) = Some c1 →
  o !! r2 = Some p2 → holds_nat (sp_phase p2) = Some c2 → sp_name p1 = sp_name p2 → r1 = r2.
Proof.
  intros [Hi _] H1 Hc1 H2 Hc2 Hn.
  destruct (Hi _ _ _ H1 Hc1) as (E1 & _ & _). destruct (Hi _ _ _ H2 Hc2) as (E2 & _ & Hu).
  rewrite Hn, E2 in E1. unfold cfg_of in E1. simplify_eq. by eapply Hu.
Qed.

Section change.
Context (o : gmap nat SProxy) (r : nat) (p : SProxy) (ph : pphase).
Hypothesis Hp : o !! r = Some p.
Notation o' := (<[r := set_pphase ph p]> o).

Lemma objs_change r' q : o' !! r' = Some q ↔
  (r' = r ∧ q = set_pphase ph p) ∨ (r' ≠ r ∧ o !! r' = Some q).
Proof. rewrite lookup_insert_Some. naive_solver. Qed.

Lemma nat_keep n : holds_nat ph = holds_nat (sp_phase p) → nat_inv o n → nat_inv o' n.
Proof.
  intros Hh [Hi Hc]. split.
  - intros r1 q ch [[-> ->]|[Hne Hq]]%objs_change Hch.
    + simpl in Hch. rewrite Hh in Hch. destruct (Hi _ _ _ Hp Hch) as (? & ? & Hu).
      split_and!; [done..|]. intros r' q [[-> ->]|[_ Hq]]%objs_change Hq'; [done|by eapply Hu].
    + destruct (Hi _ _ _ Hq Hch) as (? & ? & Hu). split_and!; [done..|].
      intros r' q' [[-> ->]|[_ Hq']]%objs_change Hch'; [|by eapply Hu].
      simpl in Hch'. rewrite Hh in Hch'. by eapply Hu.
  - intros name cfg H. destruct (Hc _ _ H) as (r1 & q & Hq & Hn & Hch).
    destruct (decide (r1 = r)) as [->|Hne].
    + exists r, (set_pphase ph p). simplify_eq. split_and!; [by apply objs_change; left|done|].
      simpl. by rewrite Hh.
    + exists r1, q. split_and!; [by apply objs_change; right|done|done].
Qed.

Lemma nat_gain n cl rc se h hd an s dl :
  holds_nat (sp_phase p) = None → holds_nat ph = Some (next_ch n) →
  clientCfgs n !! sp_name p = None → nat_inv o n →
  cl = <[sp_name p := cfg_of p (next_ch n)]> (clientCfgs n) →
  nat_inv o' (mkController cl se an h hd rc (S (next_ch n)) s dl).
Proof.
  intros Hold Hh Hfree [Hi Hc] ->.
  assert (Hother : ∀ r1 q ch, r1 ≠ r → o !! r1 = Some q → holds_nat (sp_phase q) = Some ch →
    sp_name q ≠ sp_name p ∧ (ch < next_ch n)%nat).
  { intros r1 q ch Hne Hq Hch. destruct (Hi _ _ _ Hq Hch) as (E & ? & _). split; [|done].
    intros Heq. rewrite Heq in E. congruence. }
  split; simpl.
  - intros r1 q ch [[-> ->]|[Hne Hq]]%objs_change Hch.
    + simpl in Hch. rewrite Hh in Hch. simplify_eq. split_and!; [apply lookup_insert_eq|lia|].
      intros r' q [[-> ->]|[Hne Hq]]%objs_change Hq'; [done|].
      destruct (Hother _ _ _ Hne Hq Hq'). lia.
    + destruct (Hother _ _ _ Hne Hq Hch) as [Hn Hlt]. destruct (Hi _ _ _ Hq Hch) as (? & ? & Hu).
      split_and!; [by rewrite lookup_insert_ne|lia|].
      intros r' q' [[-> ->]|[_ Hq']]%objs_change Hch'; [|by eapply Hu].
      simpl in Hch'. rewrite Hh in Hch'. simplify_eq. lia.
  - intros name cfg. rewrite lookup_insert_Some. intros [[<- <-]|[Hne H]].
    + exists r, (set_pphase ph p). split_and!; [by apply objs_change; left|done|done].
    + destruct (Hc _ _ H) as (r1 & q & Hq & Hn & Hch). exists r1, q.
      split_and!; [|done..]. apply objs_change. right. split; [|done]. intros ->.
      simplify_eq; congruence.
Qed.

Lemma nat_lose n ch : holds_nat (sp_phase p) = Some ch → holds_nat ph = None →
  nat_inv o n → nat_inv o' (Close p ch n).
Proof.
  intros Hold Hh Hn. destruct Hn as [Hi Hc] eqn:E. clear E. split; simpl.
  - intros r1 q ch1 [[-> ->]|[Hne Hq]]%objs_change Hch1; [simpl in Hch1; congruence|].
    destruct (Hi _ _ _ Hq Hch1) as (? & ? & Hu). split_and!; [|done|].
    + rewrite lookup_delete_ne; [done|]. intros Heq. apply Hne.
      by eapply (same_nat o n r1 q _ r p).
    + intros r' q' [[-> ->]|[_ Hq']]%objs_change Hch'; [simpl in Hch'; congruence|by eapply Hu].
  - intros name cfg [Hne H]%lookup_delete_Some.
    destruct (Hc _ _ H) as (r1 & q & Hq & Hnm & Hch1). exists r1, q. split_and!; [|done..].
    apply objs_change. right. split; [|done]. intros ->. simplify_eq.
Qed.

Lemma pm_keep m : holds_pm ph = holds_pm (sp_phase p) → pm_inv o m → pm_inv o' m.
Proof.
  intros Hh Hi name r1. rewrite (Hi name r1). setoid_rewrite objs_change. split.
  - intros (q & Hq & Hn & Hpm). destruct (decide (r1 = r)) as [->|]; [|by eauto 10].
    simplify_eq. exists (set_pphase ph p). simpl. rewrite Hh. eauto.
  - intros (q & [[-> ->]|[_ Hq]] & Hn & Hpm); [|by eauto].
    exists p. simpl in Hpm. by rewrite <-Hh.
Qed.

Lemma pm_gain m : holds_pm (sp_phase p) = false → holds_pm ph = true →
  m !! sp_name p = None → pm_inv o m → pm_inv o' (<[sp_name p := r]> m).
Proof.
  intros Hold Hh Hfree Hi name r1. rewrite lookup_insert_Some, (Hi name r1).
  setoid_rewrite objs_change. split.
  - intros [[<- <-]|[Hne (q & Hq & Hn & Hpm)]].
    + exists (set_pphase ph p). eauto.
    + exists q. split; [|done]. right. split; [|done]. intros ->. congruence.
  - intros (q & [[-> ->]|[Hne Hq]] & <- & Hpm); [by left|right].
    split; [|by eauto]. intros Heq. assert (m !! sp_name q = Some r1) by (apply Hi; eauto). congruence.
Qed.

Lemma pm_lose m : holds_pm (sp_phase p) = true → holds_pm ph = false →
  pm_inv o m → pm_inv o' (Manager_Del (sp_name p) m).
Proof.
  intros Hold Hh Hi name r1. unfold Manager_Del. rewrite lookup_delete_Some, (Hi name r1).
  setoid_rewrite objs_change. split.
  - intros [Hne (q & Hq & Hn & Hpm)]. exists q. split; [|done]. right. split; [|done].
    intros ->. congruence.
  - intros (q & [[-> ->]|[Hne Hq]] & <- & Hpm); [simpl in Hpm; congruence|]. split; [|by eauto].
    intros Heq. apply Hne. assert (m !! sp_name q = Some r1) by (apply Hi; eauto).
    assert (m !! sp_name p = Some r) by (apply Hi; eauto). congruence.
Qed.

Lemma own_keep ow : (∀ ch, ph ≠ PhOwned ch) → (∀ ch, sp_phase p ≠ PhOwned ch) →
  own_inv o ow → own_inv o' ow.
Proof.
  intros Hh Hold Hi k name r1. rewrite (Hi k name r1). setoid_rewrite objs_change. split.
  - intros (q & ch & Hq & Hn & Hk & Hph). exists q, ch. split; [|done]. right. split; [|done].
    intros ->. simplify_eq. by destruct (Hold ch).
  - intros (q & ch & [[-> ->]|[_ Hq]] & Hn & Hk & Hph); [by destruct (Hh ch)|by eauto 10].
Qed.

Lemma own_gain ow ch : ph = PhOwned ch → (∀ ch, sp_phase p ≠ PhOwned ch) →
  default ∅ (ow !! sp_owner p) !! sp_name p = None → own_inv o ow →
  own_inv o' (<[sp_owner p := <[sp_name p := r]> (default ∅ (ow !! sp_owner p))]> ow).
Proof.
  intros Heqph Hold Hfree Hi k name r1. setoid_rewrite objs_change. split.
  - destruct (decide (k = sp_owner p)) as [->|Hk].
    + rewrite lookup_insert_eq. simpl. rewrite lookup_insert_Some. intros [[<- <-]|[Hne H]].
      * exists (set_pphase ph p), ch. simpl. eauto 10.
      * apply Hi in H as (q & c & Hq & Hn & Ho & Hph). exists q, c. split; [|done]. right.
        split; [|done]. intros ->. simplify_eq.
    + rewrite lookup_insert_ne by done. intros H. apply Hi in H as (q & c & Hq & Hn & Ho & Hph).
      exists q, c. split; [|done]. right. split; [|done]. intros ->. by simplify_eq.
  - intros (q & c & [[-> ->]|[Hne Hq]] & <- & <- & Hph).
    + simpl. rewrite lookup_insert_eq. simpl. apply lookup_insert_eq.
    + assert (Hin : default ∅ (ow !! sp_owner q) !! sp_name q = Some r1) by (apply Hi; eauto 10).
      destruct (decide (sp_owner q = sp_owner p)) as [Heq|Hk]; [|by rewrite lookup_insert_ne].
      rewrite Heq in *. rewrite lookup_insert_eq. simpl. rewrite lookup_insert_ne; [done|].
      intros Hn. rewrite Hn in Hfree. congruence.
Qed.

Lemma own_lose ow ch : sp_phase p = PhOwned ch → (∀ ch, ph ≠ PhOwned ch) → own_inv o ow →
  own_inv o' (<[sp_owner p := delete (sp_name p) (default ∅ (ow !! sp_owner p))]> ow).
Proof.
  intros Hold Hh Hi k name r1. setoid_rewrite objs_change. split.
  - destruct (decide (k = sp_owner p)) as [->|Hk].
    + rewrite lookup_insert_eq. simpl. rewrite lookup_delete_Some. intros [Hne H].
      apply Hi in H as (q & c & Hq & Hn & Ho & Hph). exists q, c. split; [|done]. right.
      split; [|done]. intros ->. simplify_eq.
    + rewrite lookup_insert_ne by done. intros H. apply Hi in H as (q & c & Hq & Hn & Ho & Hph).
      exists q, c. split; [|done]. right. split; [|done]. intros ->. by simplify_eq.
  - intros (q & c & [[-> ->]|[Hne Hq]] & <- & <- & Hph); [by destruct (Hh c)|].
    assert (Hin : default ∅ (ow !! sp_owner q) !! sp_name q = Some r1) by (apply Hi; eauto 10).
    destruct (decide (sp_owner q = sp_owner p)) as [Heq|Hk]; [|by rewrite lookup_insert_ne].
    rewrite Heq in *. rewrite lookup_insert_eq. simpl. rewrite lookup_delete_ne; [done|].
    intros Hn. assert (default ∅ (ow !! sp_owner p) !! sp_name p = Some r) by (apply Hi; eauto 10).
    rewrite Hn in *. congruence.
Qed.

Lemma busy_keep b : registering ph = registering (sp_phase p) → busy_inv o b → busy_inv o' b.
Proof.
  intros Hh Hi k r1. rewrite (Hi k r1). setoid_rewrite objs_change. split.
  - intros (q & Hq & Hk & Hr). destruct (decide (r1 = r)) as [->|]; [|by eauto 10].
    simplify_eq. exists (set_pphase ph p). simpl. rewrite Hh. eauto.
  - intros (q & [[-> ->]|[_ Hq]] & Hk & Hr); [|by eauto]. exists p. simpl in Hr. by rewrite <-Hh.
Qed.

Lemma busy_lose b : registering (sp_phase p) = true → registering ph = false → busy_inv o b →
  busy_inv o' (delete (sp_owner p) b).
Proof.
  intros Hold Hh Hi k r1. rewrite lookup_delete_Some, (Hi k r1). setoid_rewrite objs_change. split.
  - intros [Hne (q & Hq & Hk & Hr)]. exists q. split; [|done]. right. split; [|done].
    intros ->. simplify_eq.
  - intros (q & [[-> ->]|[Hne Hq]] & <- & Hr); [simpl in Hr; congruence|]. split; [|by eauto].
    intros Heq. apply Hne. assert (b !! sp_owner q = Some r1) by (apply Hi; eauto).
    assert (b !! sp_owner p = Some r) by (apply Hi; eauto). congruence.
Qed.
End change.

(** ** Lemmas: every step preserves the invariant *)
Lemma pinv_init dur : pinv (init_pworld dur).
Proof.
  split; simpl.
  - split; [intros r p ch H|intros name cfg H]; simpl in H; by rewrite lookup_empty in H.
  - intros name r. rewrite lookup_empty. split; [done|]. intros (? & H & _). by rewrite lookup_empty in H.
  - intros k name r. rewrite lookup_empty. simpl. rewrite lookup_empty. split; [done|].
    intros (? & ? & H & _). by rewrite lookup_empty in H.
  - intros k r. rewrite lookup_empty. split; [done|]. intros (? & H & _). by rewrite lookup_empty in H.
  - intros k Hk. simpl in Hk. set_solver.
Qed.

Lemma busy_owner w k r p : pinv w → busy w !! k = Some r → objs w !! r = Some p → sp_owner p = k.
Proof. intros Hi Hb Hp. apply (pi_busy _ Hi) in Hb as (q & Hq & Ho & _). by simplify_eq. Qed.

Lemma pinv_check `{Text} k r user m w w' :
  pinv w → busy w !! k = None → k ∉ exited w → objs w !! r = None →
  register_check k r user m w = Ok w' → pinv w'.
Proof.
  intros [[Hn Hc] Hpm Hown Hb He] Hbk Hk Hr Hw. unfold register_check in Hw.
  apply result_bind_Ok in Hw as (c & _ & Hw). destruct (Manager_Exist _ _); simplify_eq.
  set (p := NewProxy_obj k user c). assert (Hph : sp_phase p = PhChecked) by (by destruct c).
  assert (Howner : sp_owner p = k) by (by destruct c).
  assert (Hold : ∀ r' q, <[r := p]> (objs w) !! r' = Some q ↔
    (r' = r ∧ q = p) ∨ (r' ≠ r ∧ objs w !! r' = Some q)).
  { intros r' q. rewrite lookup_insert_Some. naive_solver. }
  assert (Hne : ∀ r' q, objs w !! r' = Some q → r' ≠ r) by (intros r' q Hq ->; congruence).
  split; simpl.
  - split.
    + intros r1 q ch [[-> ->]|[_ Hq]]%Hold Hch; [by rewrite Hph in Hch|].
      destruct (Hn _ _ _ Hq Hch) as (? & ? & Hu). split_and!; [done..|].
      intros r' q' [[-> ->]|[_ Hq']]%Hold Hch'; [by rewrite Hph in Hch'|by eapply Hu].
    + intros name cfg (r1 & q & Hq & ? & ?)%Hc. exists r1, q. split; [|done]. apply Hold. eauto.
  - intros name r1. rewrite (Hpm name r1). split; intros (q & Hq & Hnm & Hh); exists q.
    + split; [|done]. apply Hold. eauto.
    + apply Hold in Hq as [[-> ->]|[_ Hq]]; [by rewrite Hph in Hh|done].
  - intros k1 name r1. rewrite (Hown k1 name r1). split; intros (q & ch & Hq & Hnm & Ho & Hh); exists q, ch.
    + split; [|done]. apply Hold. eauto.
    + apply Hold in Hq as [[-> ->]|[_ Hq]]; [by rewrite Hph in Hh|done].
  - intros k1 r1. rewrite lookup_insert_Some, (Hb k1 r1). split.
    + intros [[<- <-]|[Hnk (q & Hq & Ho & Hh)]]; [exists p|exists q].
      * split; [apply Hold; eauto|]. by rewrite Howner, Hph.
      * split; [apply Hold; eauto|done].
    + intros (q & [[-> ->]|[_ Hq]]%Hold & Ho & Hh); [left; by rewrite <-Ho|].
      right. split; [|eauto]. intros <-. assert (busy w !! k = Some r1) by (apply Hb; eauto). congruence.
  - intros k1 Hk1. destruct (He _ Hk1) as [Hbn ?]. split; [|done]. simpl.
    rewrite lookup_insert_ne; [done|]. by intros ->.
Qed.

Lemma pinv_run k r p w :
  pinv w → busy w !! k = Some r → objs w !! r = Some p → sp_phase p = PhChecked →
  pinv (register_run k r p w).
Proof.
  intros Hi Hbk Hp Hph. pose proof (busy_owner _ _ _ _ Hi Hbk Hp) as <-.
  destruct Hi as [Hn Hpm Hown Hb He]. unfold register_run, Run, ListenClient.
  destruct (clientCfgs (natc w) !! sp_name p) eqn:Hfree; split; simpl.
  - by apply nat_keep; rewrite ?Hph.
  - by apply pm_keep; rewrite ?Hph.
  - by apply own_keep; rewrite ?Hph.
  - by apply busy_lose; rewrite ?Hph.
  - intros k Hk. destruct (He _ Hk). simpl. split; [by rewrite lookup_delete_None; right|done].
  - by apply nat_gain; rewrite ?Hph.
  - by apply pm_keep; rewrite ?Hph.
  - by apply own_keep; rewrite ?Hph.
  - by apply busy_keep; rewrite ?Hph.
  - done.
Qed.

Lemma pinv_add k r p ch w :
  pinv w → busy w !! k = Some r → objs w !! r = Some p → sp_phase p = PhRunning ch →
  pinv (register_add k r ch p w).
Proof.
  intros Hi Hbk Hp Hph. pose proof (busy_owner _ _ _ _ Hi Hbk Hp) as <-.
  destruct Hi as [Hn Hpm Hown Hb He]. unfold register_add, Manager_Add.
  destruct (pxys w !! sp_name p) eqn:Hfree; split; simpl.
  - by apply nat_lose; rewrite ?Hph.
  - by apply pm_keep; rewrite ?Hph.
  - by apply own_keep; rewrite ?Hph.
  - by apply busy_lose; rewrite ?Hph.
  - intros k Hk. destruct (He _ Hk). simpl. split; [by rewrite lookup_delete_None; right|done].
  - by apply nat_keep; rewrite ?Hph.
  - by apply pm_gain; rewrite ?Hph.
  - by apply own_keep; rewrite ?Hph.
  - by apply busy_keep; rewrite ?Hph.
  - done.
Qed.

Lemma pinv_own k r p ch w :
  pinv w → busy w !! k = Some r → objs w !! r = Some p → sp_phase p = PhAdded ch →
  pinv (register_own k r ch p w).
Proof.
  intros Hi Hbk Hp Hph. pose proof (busy_owner _ _ _ _ Hi Hbk Hp) as <-.
  destruct Hi as [Hn Hpm Hown Hb He]. unfold register_own, owned_by. split; simpl.
  - by apply nat_keep; rewrite ?Hph.
  - by apply pm_keep; rewrite ?Hph.
  - eapply own_gain; [done|done|by rewrite Hph| |done].
    destruct (default ∅ (owned w !! sp_owner p) !! sp_name p) as [r1|] eqn:E; [|done].
    apply Hown in E as (q & c & Hq & Hnm & _ & Hqph).
    assert (r1 = r) as ->; [|simplify_eq; congruence].
    eapply (same_nat (objs w) (natc w)); [done|done|by rewrite Hqph|done|by rewrite Hph|done].
  - by apply busy_lose; rewrite ?Hph.
  - intros k Hk. destruct (He _ Hk) as [Hbn Ho]. unfold owned_by in *. simpl.
    assert (k ≠ sp_owner p) by (intros ->; congruence).
    by rewrite lookup_delete_ne, lookup_insert_ne by done.
Qed.

Lemma pinv_close_take k r p ch name w :
  pinv w → owned_by w k !! name = Some r → objs w !! r = Some p → sp_phase p = PhOwned ch →
  pinv (close_take k r ch p w).
Proof.
  intros [Hn Hpm Hown Hb He] Hk Hp Hph.
  assert (sp_owner p = k ∧ sp_name p = name) as [<- <-].
  { apply Hown in Hk as (q & c & Hq & ? & ? & _). by simplify_eq. }
  unfold close_take, owned_by. split; simpl.
  - by apply nat_keep; rewrite ?Hph.
  - by apply pm_keep; rewrite ?Hph.
  - by eapply own_lose; rewrite ?Hph.
  - by apply busy_keep; rewrite ?Hph.
  - intros k1 Hk1. destruct (He _ Hk1) as [? Ho]. unfold owned_by in *. simpl. split; [done|].
    rewrite lookup_insert_ne; [done|]. intros <-. rewrite Ho in Hk. by rewrite lookup_empty in Hk.
Qed.

(** What the worker's take-over leaves of a proxy. *)
Lemma mark_closing_facts k q :
  sp_name (mark_closing k q) = sp_name q ∧ sp_owner (mark_closing k q) = sp_owner q
  ∧ sp_cfg (mark_closing k q) = sp_cfg q ∧ sp_user (mark_closing k q) = sp_user q
  ∧ holds_nat (sp_phase (mark_closing k q)) = holds_nat (sp_phase q)
  ∧ holds_pm (sp_phase (mark_closing k q)) = holds_pm (sp_phase q)
  ∧ registering (sp_phase (mark_closing k q)) = registering (sp_phase q)
  ∧ (∀ ch, sp_phase (mark_closing k q) = PhOwned ch ↔ sp_phase q = PhOwned ch ∧ sp_owner q ≠ k).
Proof.
  unfold mark_closing.
  destruct (sp_phase q) eqn:E; repeat case_decide; simpl; rewrite ?E; split_and!; try done;
    naive_solver.
Qed.

Lemma pinv_exit k w : pinv w → busy w !! k = None → pinv (exit_take k w).
Proof.
  intros [[Hn Hc] Hpm Hown Hb He] Hbk.
  assert (Hl : ∀ r q, (mark_closing k <$> objs w) !! r = Some q ↔
    ∃ p, objs w !! r = Some p ∧ q = mark_closing k p).
  { intros r q. rewrite lookup_fmap, fmap_Some. naive_solver. }
  split; simpl.
  - split.
    + intros r q ch (p & Hp & ->)%Hl Hch. destruct (mark_closing_facts k p) as (Hnm & _ & Hcf & Hus & Hh & _).
      rewrite Hh in Hch. destruct (Hn _ _ _ Hp Hch) as (E & ? & Hu).
      split; [rewrite Hnm, E; unfold cfg_of, allow_users; by rewrite Hnm, Hcf, Hus|].
      split; [done|]. intros r' q' (p' & Hp' & ->)%Hl Hch'.
      destruct (mark_closing_facts k p') as (_ & _ & _ & _ & Hh' & _). rewrite Hh' in Hch'. by eapply Hu.
    + intros name cfg (r & p & Hp & Hnm & Hch)%Hc. exists r, (mark_closing k p).
      destruct (mark_closing_facts k p) as (-> & _ & _ & _ & -> & _). split_and!; [apply Hl; eauto|done..].
  - intros name r. rewrite (Hpm name r). split.
    + intros (p & Hp & Hnm & Hh). exists (mark_closing k p).
      destruct (mark_closing_facts k p) as (-> & _ & _ & _ & _ & -> & _). split_and!; [apply Hl; eauto|done..].
    + intros (q & (p & Hp & ->)%Hl & Hnm & Hh). exists p.
      destruct (mark_closing_facts k p) as (E1 & _ & _ & _ & _ & E2 & _). by rewrite <-E1, <-E2.
  - intros k1 name r. destruct (decide (k1 = k)) as [->|Hne].
    + rewrite lookup_insert_eq. simpl. rewrite lookup_empty. split; [done|].
      intros (q & ch & (p & Hp & ->)%Hl & _ & Ho & Hph).
      destruct (mark_closing_facts k p) as (_ & E & _ & _ & _ & _ & _ & H). apply H in Hph as [_ ?]. congruence.
    + rewrite lookup_insert_ne by done. rewrite (Hown k1 name r). split.
      * intros (p & ch & Hp & Hnm & Ho & Hph). exists (mark_closing k p), ch.
        destruct (mark_closing_facts k p) as (-> & -> & _ & _ & _ & _ & _ & H).
        split; [apply Hl; eauto|]. rewrite H. split_and!; congruence.
      * intros (q & ch & (p & Hp & ->)%Hl & Hnm & Ho & Hph). exists p, ch.
        destruct (mark_closing_facts k p) as (E1 & E2 & _ & _ & _ & _ & _ & H).
        apply H in Hph as [? _]. by rewrite <-E1, <-E2.
  - intros k1 r. rewrite (Hb k1 r). split.
    + intros (p & Hp & Ho & Hh). exists (mark_closing k p).
      destruct (mark_closing_facts k p) as (_ & -> & _ & _ & _ & _ & -> & _). split_and!; [apply Hl; eauto|done..].
    + intros (q & (p & Hp & ->)%Hl & Ho & Hh). exists p.
      destruct (mark_closing_facts k p) as (_ & E1 & _ & _ & _ & _ & E2 & _). by rewrite <-E1, <-E2.
  - intros k1. unfold owned_by. simpl. destruct (decide (k1 = k)) as [->|Hne].
    + by rewrite lookup_insert_eq.
    + rewrite elem_of_union, elem_of_singleton, lookup_insert_ne by done.
      intros [?|Hk1]; [done|by apply He].
Qed.

Lemma pinv_close r p ch w :
  pinv w → objs w !! r = Some p → sp_phase p = PhClosing ch → pinv (close_close r ch p w).
Proof.
  intros [Hn Hpm Hown Hb He] Hp Hph. unfold close_close. split; simpl.
  - by apply nat_lose; rewrite ?Hph.
  - by apply pm_keep; rewrite ?Hph.
  - by apply own_keep; rewrite ?Hph.
  - by apply busy_keep; rewrite ?Hph.
  - done.
Qed.

Lemma pinv_del r p w : pinv w → objs w !! r = Some p → sp_phase p = PhClosed → pinv (close_del r p w).
Proof.
  intros [Hn Hpm Hown Hb He] Hp Hph. unfold close_del. split; simpl.
  - by apply nat_keep; rewrite ?Hph.
  - by apply pm_lose; rewrite ?Hph.
  - by apply own_keep; rewrite ?Hph.
  - by apply busy_keep; rewrite ?Hph.
  - done.
Qed.

Lemma pstep_pinv `{Text} w w' : pinv w → pstep w w' → pinv w'.
Proof.
  intros Hi Hs. destruct Hs; eauto using pinv_check, pinv_run, pinv_add, pinv_own,
    pinv_close_take, pinv_exit, pinv_close, pinv_del.
  destruct Hi as [[Hn Hc] ? ? ? ?]. split; try done. split; simpl.
  - intros r p ch Hp Hch. rewrite H1, H2. by eapply Hn.
  - rewrite H1. exact Hc.
Qed.

Lemma p_reachable_inv `{Text} w : p_reachable w → pinv w.
Proof.
  intros [dur Hr]. pose proof (pinv_init dur). induction Hr; eauto using pstep_pinv.
Qed.

(** ** Theorems *)

(** Every controller state that the proxies reach is one the controller's own step
    relation reaches. *)
Lemma run_cstep p n : rtc cstep n (snd (Run p n)).
Proof. eapply rtc_once, (cs_listen (sp_name p)), surjective_pairing. Qed.

Lemma close_cstep w r p ch : pinv w → objs w !! r = Some p → holds_nat (sp_phase p) = Some ch →
  cstep (natc w) (Close p ch (natc w)).
Proof.
  intros Hi Hp Hch. destruct (proj1 (pi_nat _ Hi) _ _ _ Hp Hch) as (E & _ & _).
  exact (cs_close _ (cfg_of p ch) _ E).
Qed.

Lemma pstep_controller `{Text} w w' : pinv w → pstep w w' → rtc cstep (natc w) (natc w').
Proof.
  intros Hi Hs. destruct Hs; try done.
  - unfold register_check in *.
    apply result_bind_Ok in H3 as (c & _ & H3). by destruct (Manager_Exist _ _); simplify_eq.
  - pose proof (run_cstep p (natc w)). unfold register_run. by destruct (Run _ _) as [[] ?].
  - unfold register_add. destruct (Manager_Add _ _ _); [done|].
    eapply rtc_once, close_cstep; [done|done|]. by rewrite H2.
  - eapply rtc_once, close_cstep; [done|done|]. by rewrite H1.
  - by eapply rtc_once.
Qed.

Lemma p_reachable_controller `{Text} w : p_reachable w → c_reachable (natc w).
Proof.
  intros [dur Hr]. exists dur.
  assert (∀ w1, rtc pstep w1 w → pinv w1 → rtc cstep (natc w1) (natc w)) as Hall.
  { clear Hr. induction 1 as [|w1 w2 w3 Hs Hr IH]; [done|]. intros Hi.
    etrans; [by eapply pstep_controller|]. eauto using pstep_pinv. }
  exact (Hall _ Hr (pinv_init dur)).
Qed.

(** Closing by name never hits another proxy.  A proxy object that is about to
    be closed (by [CloseProxy], by the exit of its control, or because the manager
    refused its name) has its own entry in the NAT hole controller under its name,
    and after [Close] every other proxy still has its own; one that is about to be
    taken out of the manager is the manager's entry, and afterwards the names of all
    other entered proxies still lead to them. *)
Theorem close_by_name_safe `{Text} w r p : p_reachable w → objs w !! r = Some p →
  (∀ ch, holds_nat (sp_phase p) = Some ch →
     clientCfgs (natc w) !! sp_name p = Some (cfg_of p ch)
     ∧ clientCfgs (Close p ch (natc w)) !! sp_name p = None
     ∧ ∀ r' p' ch', objs w !! r' = Some p' → r' ≠ r → holds_nat (sp_phase p') = Some ch' →
         clientCfgs (Close p ch (natc w)) !! sp_name p' = Some (cfg_of p' ch'))
  ∧ (holds_pm (sp_phase p) = true →
     Manager_GetByName (sp_name p) w = Some r
     ∧ Manager_Exist (sp_name p) (close_del r p w) = false
     ∧ ∀ r' p', objs w !! r' = Some p' → r' ≠ r → holds_pm (sp_phase p') = true →
         Manager_GetByName (sp_name p') (close_del r p w) = Some r').
Proof.
  intros Hi%p_reachable_inv Hp. destruct (pi_nat _ Hi) as [Hn _]. pose proof (pi_pm _ Hi) as Hm. split.
  - intros ch Hch. destruct (Hn _ _ _ Hp Hch) as (E & _ & _). simpl.
    rewrite lookup_delete_eq. split_and!; [done..|]. intros r' p' ch' Hp' Hne Hch'.
    rewrite lookup_delete_ne; [by apply (Hn _ _ _ Hp' Hch')|].
    intros Heq. by apply Hne, (same_nat _ _ _ _ _ _ _ _ (pi_nat _ Hi) Hp' Hch' Hp Hch).
  - intros Hh. assert (E : pxys w !! sp_name p = Some r) by (apply Hm; eauto).
    unfold Manager_GetByName, Manager_Exist, close_del, Manager_Del. simpl.
    rewrite lookup_delete_eq. split_and!; [done| |].
    { apply bool_decide_eq_false. by intros [? [=]]. }
    intros r' p' Hp' Hne Hh'. assert (E' : pxys w !! sp_name p' = Some r') by (apply Hm; eauto).
    rewrite lookup_delete_ne; [done|]. intros Heq. rewrite Heq in E. congruence.
Qed.

(** One owner per name.  In every reachable state two proxy objects, of the same
    or of different clients, that listen under one name are the same object; every
    name the NAT hole controller serves has such an owner, whose secret key and
    allowed users (its own user when none are configured) are the ones the controller
    checks visitors against; and the controller's state is one its own steps reach. *)
Theorem listening_proxy_unique `{Text} w : p_reachable w →
  (∀ name cfg, clientCfgs (natc w) !! name = Some cfg →
     ∃ r p ch, objs w !! r = Some p ∧ sp_name p = name ∧ holds_nat (sp_phase p) = Some ch
       ∧ cfg = mkClientCfg name (xp_Secretkey (sp_cfg p)) (allow_users p) ch)
  ∧ (∀ r p ch r' p' ch', objs w !! r = Some p → objs w !! r' = Some p' →
       holds_nat (sp_phase p) = Some ch → holds_nat (sp_phase p') = Some ch' →
       sp_name p = sp_name p' ∨ ch = ch' → r = r')
  ∧ c_reachable (natc w).
Proof.
  intros Hw. pose proof (p_reachable_inv _ Hw) as Hi. destruct (pi_nat _ Hi) as [Hn Hc].
  split_and!; [| |by apply p_reachable_controller].
  - intros name cfg E. destruct (Hc _ _ E) as (r & p & Hp & Hnm & Hch).
    exists r, p, (cfg_sidCh cfg). split_and!; [done..|].
    destruct (Hn _ _ _ Hp Hch) as (E' & _ & _). rewrite Hnm, E in E'. unfold cfg_of in E'.
    rewrite Hnm in E'. by simplify_eq.
  - intros r p ch r' p' ch' Hp Hp' Hch Hch' [Heq|<-].
    + by apply (same_nat _ _ _ _ _ _ _ _ (pi_nat _ Hi) Hp Hch Hp' Hch').
    + destruct (Hn _ _ _ Hp Hch) as (_ & _ & Hu). symmetry. by eapply Hu.
Qed.

(** A gone client leaves nothing behind.  Once the worker of control [k] has
    taken over its proxies and each of them has been closed and taken out of the
    manager, no name of the manager and none of the NAT hole controller belongs to
    one of [k]'s proxies, in whatever order its registrations, [CloseProxy] messages
    and the exit interleaved with the other clients. *)
Theorem exit_releases_names `{Text} w k : p_reachable w → k ∈ exited w →
  (∀ r p, objs w !! r = Some p → sp_owner p = k →
     sp_phase p ≠ PhClosed ∧ ∀ ch, sp_phase p ≠ PhClosing ch) →
  (∀ name r, pxys w !! name = Some r → ∃ p, objs w !! r = Some p ∧ sp_owner p ≠ k)
  ∧ (∀ name cfg, clientCfgs (natc w) !! name = Some cfg →
      ∃ r p, objs w !! r = Some p ∧ sp_name p = name ∧ holds_nat (sp_phase p) = Some (cfg_sidCh cfg)
        ∧ sp_owner p ≠ k).
Proof.
  intros Hi%p_reachable_inv Hk Hdone. destruct (pi_exit _ Hi _ Hk) as [Hb Ho].
  assert (Hdead : ∀ r p, objs w !! r = Some p → sp_owner p = k → sp_phase p = PhDead).
  { intros r p Hp Hown. destruct (Hdone _ _ Hp Hown) as [Hc1 Hc2].
    assert (registering (sp_phase p) = false) as Hr.
    { destruct (registering (sp_phase p)) eqn:Hr; [|done].
      assert (busy w !! k = Some r) by (apply (pi_busy _ Hi); eauto). congruence. }
    destruct (sp_phase p) as [| | |ch|ch| |] eqn:Hph; try done; [|by destruct (Hc2 ch)].
    assert (owned_by w k !! sp_name p = Some r) as E by (apply (pi_own _ Hi); eauto 10).
    by rewrite Ho, lookup_empty in E. }
  split.
  - intros name r E. apply (pi_pm _ Hi) in E as (p & Hp & _ & Hh). exists p. split; [done|].
    intros Hown. by rewrite (Hdead _ _ Hp Hown) in Hh.
  - intros name cfg E. destruct (proj2 (pi_nat _ Hi) _ _ E) as (r & p & Hp & Hnm & Hch).
    exists r, p. split_and!; [done..|]. intros Hown. by rewrite (Hdead _ _ Hp Hown) in Hch.
Qed.

(** The dead connections of a call: the first calls of [getWorkConnFn] gave them, and each
    could not be written to. *)
Definition tried (get : nat → result nat) (start : nat → StartWorkConn → result unit)
    (m : StartWorkConn) (dead : list nat) : Prop :=
  ∀ j c, dead !! j = Some c → get j = Ok c ∧ ∃ e, start c m = Err e.
(** What is done to each of them. *)
Definition discarded (m : StartWorkConn) (c : nat) : list peffect := [PStart c m false; PClose c].

Lemma pool_loop_spec get start m fuel i err (r := (pool_loop get start m i fuel err).1) (t := (pool_loop get start m i fuel err).2) :
  ∃ dead, tried (λ j, get (i + j)%nat) start m dead ∧
    match r with
    | Ok c => t = (dead ≫= discarded m) ++ [PStart c m true] ∧ (length dead < fuel)%nat
        ∧ get (i + length dead)%nat = Ok c ∧ start c m = Ok tt
    | Err e => t = (dead ≫= discarded m)
        ∧ (get (i + length dead)%nat = Err e ∧ (length dead < fuel)%nat
           ∨ length dead = fuel ∧ (fuel = 0%nat → e = err)
             ∧ (0 < fuel → ∃ c, last dead = Some c ∧ start c m = Err e)%nat)
    end.
Proof.
  subst r t. revert i err. induction fuel as [|fuel IH]; intros i err; cbn [pool_loop].
  { exists []. split; [by intros j c|]. split; [done|]. right. split_and!; [done|done|lia]. }
  destruct (get i) as [c|e] eqn:Hg.
  2:{ exists []. split; [by intros j c|]. split; [done|]. left. rewrite Nat.add_0_r. split; [done|simpl; lia]. }
  destruct (start c m) as [[]|e] eqn:Hs.
  { exists []. split; [by intros j c'|]. rewrite Nat.add_0_r. split_and!; [done|simpl; lia|done|done]. }
  destruct (IH (S i) e) as (dead & Ht & H). destruct (pool_loop get start m (S i) fuel e) as [r t]. cbn [fst snd] in *.
  exists (c :: dead). split.
  { intros [|j] c' Hj; simpl in Hj.
    - injection Hj as <-. rewrite Nat.add_0_r. eauto.
    - rewrite Nat.add_succ_r. by apply Ht. }
  cbn [length]. rewrite Nat.add_succ_r. destruct r as [c'|e'].
  - destruct H as (-> & ? & ? & ?). split_and!; [done|lia|done|done].
  - destruct H as (-> & [[? ?]|(Hlen & He & Hlast)]); (split; [done|]); [left; split; [done|lia]|].
    right. split_and!; [lia|lia|]. intros _. destruct fuel as [|fuel].
    + destruct dead; [|done]. exists c. rewrite (He eq_refl). done.
    + destruct Hlast as (d & Hd & Hsd); [lia|]. exists d. split; [|done]. destruct dead; [done|exact Hd].
Qed.

(** [GetWorkConnFromPool] leaks no connection and gives up in time.  It asks for
    at most [poolCount + 1] connections, writes the same [StartWorkConn] to each, and
    returns the first that takes it; every connection it got before that one could
    not be written to and is closed after that.  It fails only when [getWorkConnFn] fails
    (with that error), or when all [poolCount + 1] connections were dead (with the
    last write's error), and then everything it got is closed. *)
Theorem work_conn_from_pool name poolCount src dst get start :
  let m := start_msg name src dst in
  let '(r, t) := GetWorkConnFromPool name poolCount src dst get start in
  ∃ dead, tried get start m dead ∧
    match r with
    | Ok c => t = (dead ≫= discarded m) ++ [PStart c m true] ∧ (length dead ≤ poolCount)%nat
        ∧ get (length dead) = Ok c ∧ start c m = Ok tt
    | Err e => t = (dead ≫= discarded m)
        ∧ (get (length dead) = Err e ∧ (length dead ≤ poolCount)%nat
           ∨ length dead = S poolCount ∧ ∃ c, last dead = Some c ∧ start c m = Err e)
    end.
Proof.
  intros m. pose proof (pool_loop_spec get start m (poolCount + 1) 0 "") as H. cbv zeta in H.
  unfold GetWorkConnFromPool. fold m. destruct (pool_loop _ _ _ _ _ _) as [r t]. cbn [fst snd] in H.
  destruct H as (dead & Ht & H). exists dead. split; [done|]. destruct r as [c|e].
  - destruct H as (? & ? & ? & ?). split_and!; [done|lia|done..].
  - destruct H as (? & [[? ?]|(? & _ & Hl)]); (split; [done|]); [left; split; [done|lia]|].
    right. split; [lia|]. apply Hl. lia.
Qed.

(** ** A run: two clients register, the first one's control exits *)
Definition demo_np (name : string) : NewProxy :=
  mkNewProxy name "xtcp" false false "" "" "" "" ∅ ∅ 0 [] "" [] "" "" "" ∅ ∅ "" "sk" [] "".
Definition demo_conf (name : string) : ProxyConfigurer :=
  PC_XTCP (mkXTCPProxyConfig
    (mkProxyBaseConfig name "xtcp" None ∅ (mkProxyTransport false false) ∅
       (mkProxyBackend "127.0.0.1" 0)) "sk" [] None).
Definition demo_obj (k : nat) (name : string) : SProxy := NewProxy_obj k "alice" (demo_conf name).
Definition demo_checked (k r : nat) (name : string) (w : pworld) : pworld :=
  mkPworld (pxys w) (<[r := demo_obj k name]> (objs w)) (natc w) (owned w)
    (<[k := r]> (busy w)) (exited w).
Definition demo_register (k r ch : nat) (name : string) (w : pworld) : pworld :=
  let p := demo_obj k name in
  register_own k r ch (set_pphase (PhAdded ch) p)
    (register_add k r ch (set_pphase (PhRunning ch) p)
      (register_run k r p (demo_checked k r name w))).
Definition demo_two : pworld := demo_register 1 1 1 "b" (demo_register 0 0 0 "a" (init_pworld 0)).
Definition demo_exit : pworld := exit_take 0 demo_two.
Definition demo_done : pworld :=
  close_del 0 (set_pphase PhClosed (demo_obj 0 "a"))
    (close_close 0 0 (set_pphase (PhClosing 0) (demo_obj 0 "a")) demo_exit).

Local Existing Instance demo_text.
Lemma demo_two_reachable : p_reachable demo_two.
Proof.
  exists 0. unfold demo_two, demo_register.
  eapply rtc_l; [eapply (ps_check 0 0 "alice" (demo_np "a")); vm_compute; try reflexivity; set_solver|].
  eapply rtc_l; [eapply (ps_run 0 0); vm_compute; reflexivity|].
  eapply rtc_l; [eapply (ps_add 0 0); vm_compute; reflexivity|].
  eapply rtc_l; [eapply (ps_own 0 0); vm_compute; reflexivity|].
  eapply rtc_l; [eapply (ps_check 1 1 "alice" (demo_np "b")); vm_compute; try reflexivity; set_solver|].
  eapply rtc_l; [eapply (ps_run 1 1); vm_compute; reflexivity|].
  eapply rtc_l; [eapply (ps_add 1 1); vm_compute; reflexivity|].
  eapply rtc_l; [eapply (ps_own 1 1); vm_compute; reflexivity|].
  vm_compute. apply rtc_refl.
Qed.
Lemma demo_exit_reachable : p_reachable demo_exit.
Proof.
  destruct demo_two_reachable as [dur Hr]. exists dur. eapply rtc_r; [exact Hr|].
  apply ps_exit. vm_compute. reflexivity.
Qed.
Lemma demo_done_reachable : p_reachable demo_done.
Proof.
  destruct demo_exit_reachable as [dur Hr]. exists dur. eapply rtc_r; [eapply rtc_r; [exact Hr|]|].
  - eapply (ps_close 0); vm_compute; reflexivity.
  - eapply ps_del; vm_compute; reflexivity.
Qed.

(** Client 0's worker is about to close "a": "b" keeps its entry. *)
Lemma close_by_name_safe_witness :
  clientCfgs (Close (demo_obj 0 "a") 0 (natc demo_exit)) !! "b" = Some (mkClientCfg "b" "sk" ["alice"] 1).
Proof.
  refine (proj2 (proj2 (proj1 (close_by_name_safe demo_exit 0 (set_pphase (PhClosing 0) (demo_obj 0 "a"))
    demo_exit_reachable eq_refl) 0%nat eq_refl)) 1%nat (set_pphase (PhOwned 1) (demo_obj 1 "b")) 1%nat
    eq_refl _ eq_refl). congruence.
Defined.

Lemma listening_proxy_unique_witness :
  ∃ r p ch, objs demo_two !! r = Some p ∧ sp_name p = "b" ∧ holds_nat (sp_phase p) = Some ch
    ∧ mkClientCfg "b" "sk" ["alice"] 1
      = mkClientCfg "b" (xp_Secretkey (sp_cfg p)) (allow_users p) ch.
Proof. exact (proj1 (listening_proxy_unique demo_two demo_two_reachable) "b" _ eq_refl). Defined.

Lemma exit_releases_names_witness :
  clientCfgs (natc demo_done) !! "a" = None ∧
  ∃ r p, objs demo_done !! r = Some p ∧ sp_name p = "b" ∧ holds_nat (sp_phase p) = Some 1%nat
    ∧ sp_owner p ≠ 0%nat.
Proof.
  split; [reflexivity|].
  refine (proj2 (exit_releases_names demo_done 0 demo_done_reachable _ _) "b"
    (mkClientCfg "b" "sk" ["alice"] 1) eq_refl).
  - apply elem_of_union_l, elem_of_singleton. reflexivity.
  - intros r p Hp Ho. destruct r as [|[|r]].
    + vm_compute in Hp. simplify_eq. split; [|intros ch]; vm_compute; congruence.
    + vm_compute in Hp. injection Hp as <-. vm_compute in Ho. congruence.
    + exfalso. assert (objs demo_done = <[1%nat := set_pphase (PhOwned 1) (demo_obj 1 "b")]>
        (<[0%nat := set_pphase PhDead (demo_obj 0 "a")]> ∅)) as E by (vm_compute; reflexivity).
      rewrite E in Hp. rewrite !lookup_insert_ne in Hp by lia. by rewrite lookup_empty in Hp.
Defined.
