(* ===== verification/Session.v ===== *)
(** * One control session on the server: the [Control] of [server/control.go] and the
    checks of [RegisterControl] in [server/service.go]

    A session is created only from a login that passed every check; it then goes
    through [created], [pending], [running], [closing] and [closed] under its own
    lock.  The operations here are the critical sections of one control; [Control.v]
    composes them with the control manager. *)
From S2P Require Import Prelude GoStd Msg ConfigV1 Auth Validation ConfigLoad NatClassify.
From S2P Require Import Analyzer NatController.
From stdpp Require Import list.
Local Open Scope Z_scope.

Definition ProtocolV1 : string := "v1".
Definition ProtocolV2 : string := "v2".
Definition UDPPacketCodecBinary : string := "binary-v1".

(** [util.GenerateResponseErrorString]. *)
Definition GenerateResponseErrorString (summary err : string) (detailed : bool) : string :=
  if detailed then err else summary.

(** ** State *)
Inductive controlState : Type :=
| controlStateCreated | controlStatePending | controlStateRunning | controlStateClosing
| controlStateClosed.
#[export] Instance controlState_eq_dec : EqDecision controlState.
Proof. solve_decision. Defined.

Record SessionContext := mkSessionContext {
  sx_LoginMsg : Login;
  sx_RemoteAddr : string;          (* Conn.RemoteAddr().String() *)
  sx_ServerCfg : ServerConfig;
  sx_WireProtocol : string;
  sx_UDPPacketCodec : string;
}.

(** [doneCh] and [workConnCh] are channels that are closed once; the other parts of a
    control (dispatcher, proxies) are modelled with the components they belong to.
    The barrier is the control whose [doneCh] is waited for. *)
Record Control := mkControl {
  c_ctx : SessionContext;
  c_poolCount : Z;
  c_cap : Z;                       (* capacity of workConnCh *)
  c_workConnCh : list nat;
  c_workOpen : bool;
  c_runID : string;
  c_controlID : Z;
  c_managed : bool;                (* manager <> nil *)
  c_state : controlState;
  c_activated : bool;
  c_handoffBarrier : option nat;
  c_done : bool;                   (* doneCh closed *)
  c_interrupted : bool;            (* interruptOnce has run: the connection is closed *)
  c_lastPing : Z;
}.
Definition workConnPoolCapacityOffset : Z := 10.

Definition set_state (s : controlState) (c : Control) : Control :=
  mkControl (c_ctx c) (c_poolCount c) (c_cap c) (c_workConnCh c) (c_workOpen c) (c_runID c)
    (c_controlID c) (c_managed c) s (c_activated c) (c_handoffBarrier c) (c_done c)
    (c_interrupted c) (c_lastPing c).
Definition set_work (q : list nat) (open : bool) (c : Control) : Control :=
  mkControl (c_ctx c) (c_poolCount c) (c_cap c) q open (c_runID c) (c_controlID c) (c_managed c)
    (c_state c) (c_activated c) (c_handoffBarrier c) (c_done c) (c_interrupted c) (c_lastPing c).

(** ** Creation *)
Definition NewControl (now : Z) (ctx : SessionContext) : result Control :=
  let m := sx_LoginMsg ctx in
  let maxPool := st_MaxPoolCount (sc_Transport (sx_ServerCfg ctx)) in
  if lg_PoolCount m <? 0
  then Err ("invalid pool count " +:+ Itoa (lg_PoolCount m) +:+ ", must be non-negative")
  else if maxPool <? 0
  then Err ("invalid max pool count " +:+ Itoa maxPool +:+ ", must be non-negative")
  else
    let effectivePoolCount := Z.min (lg_PoolCount m) maxPool in
    let maxPoolCountForChannel := MaxInt64 - workConnPoolCapacityOffset in
    if maxPoolCountForChannel <? effectivePoolCount
    then Err ("invalid effective pool count " +:+ Itoa effectivePoolCount +:+ ", cannot safely add "
              +:+ Itoa workConnPoolCapacityOffset +:+ " for work connection pool capacity")
    else
      Ok (mkControl ctx effectivePoolCount (effectivePoolCount +₆₄ workConnPoolCapacityOffset)%go
            [] true (lg_RunID m) 0 false controlStateCreated false None false false now).

Definition set_run_id (r : string) (m : Login) : Login :=
  mkLogin (lg_Version m) (lg_Hostname m) (lg_Os m) (lg_Arch m) (lg_User m) (lg_PrivilegeKey m)
    (lg_Timestamp m) r (lg_ClientID m) (lg_Metas m) (lg_ClientSpec m) (lg_PoolCount m).

Definition check_wire (wireProtocol udpPacketCodec : string) : result unit :=
  if decide (wireProtocol = ProtocolV1) then
    if decide (udpPacketCodec = "") then Ok tt
    else Err ("UDP packet codec " +:+ squoted udpPacketCodec +:+ " requires wire protocol v2")
  else if decide (wireProtocol = ProtocolV2) then
    if decide (udpPacketCodec = "" ∨ udpPacketCodec = UDPPacketCodecBinary) then Ok tt
    else Err ("unsupported UDP packet codec selection: " +:+ udpPacketCodec)
  else Err ("unsupported wire protocol: " +:+ wireProtocol).

Section create.
Context `{Text} `{Verifier V}.
(** [RegisterControl] up to [NewControl]; [rnd] is the source of random bytes. *)
Definition create_control (now : Z) (rnd : nat → list byte) (verifier : V) (cfg : ServerConfig)
    (remoteAddr : string) (loginMsg : Login) (wireProtocol udpPacketCodec : string)
    : result Control :=
  check_wire wireProtocol udpPacketCodec ≫= λ _,
  let loginMsg := if decide (lg_RunID loginMsg = "") then set_run_id (RandID rnd) loginMsg
                  else loginMsg in
  wrap_err "invalid run id: " (ValidateRunID (lg_RunID loginMsg)) ≫= λ _,
  VerifyLogin verifier loginMsg ≫= λ _,
  match NewControl now (mkSessionContext loginMsg remoteAddr cfg wireProtocol udpPacketCodec) with
  | Ok ctl => Ok ctl
  | Err _ => Err "unexpected error when creating new controller"
  end.
End create.

(** ** Critical sections of one control *)
Definition Control_admit (id : Z) (c : Control) : result Control :=
  if decide (c_state c = controlStateCreated) then
    Ok (mkControl (c_ctx c) (c_poolCount c) (c_cap c) (c_workConnCh c) (c_workOpen c) (c_runID c)
          id true controlStatePending (c_activated c) (c_handoffBarrier c) (c_done c)
          (c_interrupted c) (c_lastPing c))
  else Err ("control [" +:+ c_runID c +:+ "] is not in created state").
Definition setHandoffBarrier (b : option nat) (c : Control) : Control :=
  mkControl (c_ctx c) (c_poolCount c) (c_cap c) (c_workConnCh c) (c_workOpen c) (c_runID c)
    (c_controlID c) (c_managed c) (c_state c) (c_activated c) b (c_done c) (c_interrupted c)
    (c_lastPing c).
Definition set_activated (c : Control) : Control :=
  mkControl (c_ctx c) (c_poolCount c) (c_cap c) (c_workConnCh c) (c_workOpen c) (c_runID c)
    (c_controlID c) (c_managed c) (c_state c) true (c_handoffBarrier c) (c_done c)
    (c_interrupted c) (c_lastPing c).
Definition interruptReadAndClose (c : Control) : Control :=
  mkControl (c_ctx c) (c_poolCount c) (c_cap c) (c_workConnCh c) (c_workOpen c) (c_runID c)
    (c_controlID c) (c_managed c) (c_state c) (c_activated c) (c_handoffBarrier c) (c_done c)
    true (c_lastPing c).
Definition finishLocked (c : Control) : Control :=
  if decide (c_state c = controlStateClosed) then c
  else mkControl (c_ctx c) (c_poolCount c) (c_cap c) (c_workConnCh c) (c_workOpen c) (c_runID c)
         (c_controlID c) (c_managed c) controlStateClosed (c_activated c) (c_handoffBarrier c)
         true (c_interrupted c) (c_lastPing c).
(** [startLocked]: the state change; [Control.v] starts the worker when it is [true]. *)
Definition startLocked (c : Control) : bool * Control :=
  if decide (c_state c = controlStatePending ∧ c_activated c = true)
  then (true, set_state controlStateRunning c) else (false, c).
Definition close_state (c : Control) : Control :=
  match c_state c with
  | controlStateCreated | controlStatePending => finishLocked (set_state controlStateClosing c)
  | controlStateRunning => set_state controlStateClosing c
  | _ => c
  end.
Definition Control_Close (c : Control) : Control := interruptReadAndClose (close_state c).
(** [markReplaced] of control [k]: the new state and the barrier to wait for. *)
Definition markReplaced (k : nat) (c : Control) : option nat * Control :=
  match c_state c with
  | controlStateCreated => (None, finishLocked (set_state controlStateClosing c))
  | controlStatePending => (c_handoffBarrier c, finishLocked (set_state controlStateClosing c))
  | controlStateRunning => (Some k, set_state controlStateClosing c)
  | controlStateClosing | controlStateClosed => (Some k, c)
  end.
Definition Replaced (k : nat) (c : Control) : Control :=
  interruptReadAndClose (markReplaced k c).2.

(** The worker's critical sections around the end of the message loop. *)
Definition worker_stopping (c : Control) : Control :=
  interruptReadAndClose
    (if decide (c_state c = controlStateRunning) then set_state controlStateClosing c else c).
Definition worker_drain (c : Control) : Control := set_work [] false c.

(** A work connection enters the pool ([select] with a default). *)
Definition put_work_conn (conn : nat) (c : Control) : result Control :=
  if Z.of_nat (length (c_workConnCh c)) <? c_cap c
  then Ok (set_work (c_workConnCh c ++ [conn]) (c_workOpen c) c)
  else Err "work connection pool is full, discarding".
(** A receive of [GetWorkConn] that finds the channel ready: a connection, or the
    closed channel. *)
Definition take_work_conn (c : Control) : option (result nat * Control) :=
  match c_workConnCh c with
  | conn :: q => Some (Ok conn, set_work q (c_workOpen c) c)
  | [] => if c_workOpen c then None else Some (Err "control is closed", c)
  end.

(** ** Message handlers *)
Definition heartbeat_expired (now : Z) (c : Control) : bool :=
  let ht := st_HeartbeatTimeout (sc_Transport (sx_ServerCfg (c_ctx c))) in
  (0 <? ht) && (wrap64 (ht * 1000000000) <? time_sub now (c_lastPing c)).
Definition set_lastPing (now : Z) (c : Control) : Control :=
  mkControl (c_ctx c) (c_poolCount c) (c_cap c) (c_workConnCh c) (c_workOpen c) (c_runID c)
    (c_controlID c) (c_managed c) (c_state c) (c_activated c) (c_handoffBarrier c) (c_done c)
    (c_interrupted c) now.
Definition detailed (c : Control) : bool :=
  from_ptr (sc_DetailedErrorsToClient (sx_ServerCfg (c_ctx c))).

Section handlers.
Context `{Verifier V}.
Definition handlePing (now : Z) (verifier : V) (m : Ping) (c : Control) : Pong * Control :=
  match VerifyPing verifier m with
  | Err e => (mkPong (GenerateResponseErrorString "invalid ping" e (detailed c)), c)
  | Ok _ => (mkPong "", set_lastPing now c)
  end.
End handlers.
(** [handleNewProxy], given what [RegisterProxy] returned. *)
Definition new_proxy_resp (m : NewProxy) (r : result string) (c : Control) : NewProxyResp :=
  match r with
  | Err e => mkNewProxyResp (np_ProxyName m) ""
               (GenerateResponseErrorString ("new proxy [" +:+ np_ProxyName m +:+ "] error") e (detailed c))
  | Ok remoteAddr => mkNewProxyResp (np_ProxyName m) remoteAddr ""
  end.
(** The three NAT hole handlers pass the message on, with the login's user. *)
Definition handleNatHoleVisitor (r : nat) (sid : string) (m : NatHoleVisitor) (t : transporter)
    (ctl : Control) (c : Controller) : Controller :=
  HandleVisitor r sid m t (lg_User (sx_LoginMsg (c_ctx ctl))) c.
Definition handleNatHoleClient (m : NatHoleClient) (t : transporter) (c : Controller) : Controller :=
  HandleClient m t c.
Definition handleNatHoleReport (now : Z) (m : NatHoleReport) (c : Controller) : Controller :=
  HandleReport now m c.

(** ** Theorems *)
Lemma NewControl_Ok now ctx c : NewControl now ctx = Ok c →
  in_int64 (lg_PoolCount (sx_LoginMsg ctx)) →
  c_ctx c = ctx ∧ c_runID c = lg_RunID (sx_LoginMsg ctx) ∧ c_state c = controlStateCreated
  ∧ c_done c = false ∧ c_workOpen c = true ∧ c_workConnCh c = []
  ∧ c_handoffBarrier c = None ∧ c_activated c = false ∧ c_managed c = false
  ∧ 0 ≤ c_poolCount c
  ∧ c_poolCount c = Z.min (lg_PoolCount (sx_LoginMsg ctx)) (st_MaxPoolCount (sc_Transport (sx_ServerCfg ctx)))
  ∧ c_cap c = c_poolCount c + 10 ∧ in_int64 (c_cap c).
Proof.
  unfold NewControl, workConnPoolCapacityOffset. intros H Hin.
  destruct (lg_PoolCount _ <? 0) eqn:H1; [done|]. destruct (_ <? 0) eqn:H2 in H; [done|].
  destruct (_ <? Z.min _ _) eqn:H3 in H; [done|]. injection H as <-. zify_bool. simpl.
  unfold in_int64, MinInt64, MaxInt64 in *. rewrite wrap64_id by (unfold in_int64, MinInt64, MaxInt64; lia).
  split_and!; try done; lia.
Qed.

Lemma check_wire_Ok p codec : check_wire p codec = Ok tt ↔
  p = "v1" ∧ codec = "" ∨ p = "v2" ∧ (codec = "" ∨ codec = "binary-v1").
Proof.
  unfold check_wire, ProtocolV1, ProtocolV2, UDPPacketCodecBinary.
  repeat case_decide; naive_solver.
Qed.

(** Only a checked login becomes a control.  When [RegisterControl] creates one,
    the wire protocol and codec are a supported pair, the run id (the client's, or a
    random one when the login carried none) is a valid identifier, and the verifier
    accepted this very login; the control starts in [created] with an open, empty
    pool whose size is the smaller of the client's wish and the server's limit, never
    negative, with room for ten more and no overflow in the capacity. *)
Theorem create_control_checked `{Text} `{Verifier V} now rnd (v : V) cfg remote m proto codec c :
  in_int64 (lg_PoolCount m) →
  create_control now rnd v cfg remote m proto codec = Ok c →
  (proto = "v1" ∧ codec = "" ∨ proto = "v2" ∧ (codec = "" ∨ codec = "binary-v1"))
  ∧ c_runID c = (if decide (lg_RunID m = "") then RandID rnd else lg_RunID m)
  ∧ ValidateRunID (c_runID c) = Ok tt
  ∧ VerifyLogin v (set_run_id (c_runID c) m) = Ok tt
  ∧ sx_LoginMsg (c_ctx c) = set_run_id (c_runID c) m
  ∧ c_state c = controlStateCreated ∧ c_workOpen c = true ∧ c_workConnCh c = []
  ∧ 0 ≤ c_poolCount c
  ∧ c_poolCount c = Z.min (lg_PoolCount m) (st_MaxPoolCount (sc_Transport cfg))
  ∧ c_cap c = c_poolCount c + 10 ∧ in_int64 (c_cap c).
Proof.
  intros Hin Hc. unfold create_control in Hc. apply result_bind_Ok in Hc as ([] & Hw & Hc).
  apply result_bind_Ok in Hc as ([] & Hr & Hc). apply wrap_err_Ok in Hr.
  apply result_bind_Ok in Hc as ([] & Hv & Hc).
  set (m' := if decide (lg_RunID m = "") then _ else m) in *.
  assert (Hm : m' = set_run_id (lg_RunID m') m ∧
    lg_RunID m' = (if decide (lg_RunID m = "") then RandID rnd else lg_RunID m)
    ∧ lg_PoolCount m' = lg_PoolCount m).
  { subst m'. destruct (decide _); [done|]. by destruct m. }
  destruct Hm as (Hm & Hrid & Hpool).
  destruct (NewControl _ _) as [c'|] eqn:Hn; [|done]. injection Hc as ->.
  apply NewControl_Ok in Hn as (Hctx & Hid & Hn); [|simpl; by rewrite Hpool].
  simpl in Hid, Hn. rewrite Hctx, Hid. simpl. rewrite <-Hm, <-Hrid, <-Hpool.
  destruct Hn as (? & ? & ? & ? & ? & ? & ? & ? & ? & ? & ?).
  by split_and!; [apply check_wire_Ok|..].
Qed.

Definition demo_server_cfg : ServerConfig :=
  mkServerConfig "" (mkAuthServerConfig "token" [] "t" None) "0.0.0.0" 7000
    (mkLogConfig "" "info" 3 false)
    (mkServerTransportConfig (Some true) 30 7200 5 90 (mkQUICOptions 0 0 0)
      (mkTLSServerConfig false (mkTLSConfig "" "" "" "")))
    (Some true) 10 168.
Definition demo_login (run : string) : Login :=
  SetLogin (mkTokenAuth [] "t") (mkLogin "0.1" "host" "linux" "amd64" "alice" "" 1700000000 run ""
    ∅ (mkClientSpec "" false) 3).
Definition demo_control (run : string) : Control :=
  mkControl (mkSessionContext (demo_login run) "10.0.0.1:4444" demo_server_cfg "v1" "") 3 13 [] true
    run 0 false controlStateCreated false None false false 7.


Lemma demo_login_pool run : in_int64 (lg_PoolCount (demo_login run)).
Proof. split; discriminate. Qed.

Lemma create_control_checked_witness :
  VerifyLogin (mkTokenAuth [] "t") (set_run_id (c_runID (demo_control "r1")) (demo_login "r1")) = Ok tt.
Proof.
  refine (proj1 (proj2 (proj2 (proj2 (@create_control_checked demo_text TokenAuth _ 7 (λ _, [])
    (mkTokenAuth [] "t") demo_server_cfg "10.0.0.1:4444" (demo_login "r1") "v1" "" (demo_control "r1")
    (demo_login_pool "r1") _))))).
  vm_compute. reflexivity.
Defined.
