(* ===== verification/Control.v ===== *)
(** * The control manager and the life of sessions: [server/control.go] and the login
    part of [server/service.go]

    Every run id has at most one entry in [ctlsByRunID].  A client that logs in again
    replaces the entry; the old session keeps its worker until its proxies are gone,
    and the new one waits for that ("handoff").  The goroutines involved are the
    login goroutine of each connection ([handleConnection]), the worker of each
    running control, and the closer of a shutdown; the locks are the run gate of each
    entry, the manager's lock and the lifecycle lock of each control.  Each locked
    region is one step of [kstep]; [completeLogin], which writes to the network
    while it holds the run gate and the lifecycle lock, is two. *)
From S2P Require Import Prelude GoStd Msg ConfigV1 Auth Validation Registry Session.
From stdpp Require Import list.
Local Open Scope Z_scope.

(** ** State *)

(** Where the goroutine of a login is: about to [Add]; about to tell the old control
    that it was replaced; in [WaitForHandoff]; about to [Activate]; about to call
    [completeLogin]; writing the response with the locks held; on the error path
    before [Remove] and before [Close]; finished. *)
Inductive lphase : Type :=
| LNew | LReplacing (old : nat) | LWaiting | LReady | LLoggedIn | LWriting
| LFailRemove | LFailClose | LDone.
(** Where the worker is: not started; in the message loop; loop ended; pool drained
    and proxies taken; removed from the manager; finished. *)
Inductive wphase : Type := WNone | WRun | WStopped | WDrained | WRemoved | WFinished.

Record Ctl := mkCtl { k_c : Control; k_l : lphase; k_w : wphase }.

Record controlEntry := mkEntry {
  e_ctl : nat;
  e_id : Z;
  e_runMu : nat;
  registryOnline : bool;
  registryControlID : Z;
}.

(** The control manager, with the control objects, the run gates held across a step,
    and the controls a [Close] of the manager still has to remove and to close. *)
Record manager := mkManager {
  ctls : gmap nat Ctl;
  ctlsByRunID : gmap string controlEntry;
  m_registry : ClientRegistry;
  m_closed : bool;
  nextControlID : Z;
  next_mu : nat;
  held : gset nat;
  to_remove : gset nat;
  to_close : gset nat;
}.
Definition NewControlManager (cr : ClientRegistry) : manager :=
  mkManager ∅ ∅ cr false 0 0 ∅ ∅ ∅.

Definition set_ctls (f : gmap nat Ctl → gmap nat Ctl) (m : manager) : manager :=
  mkManager (f (ctls m)) (ctlsByRunID m) (m_registry m) (m_closed m) (nextControlID m) (next_mu m)
    (held m) (to_remove m) (to_close m).
Definition put (k : nat) (x : Ctl) (m : manager) : manager := set_ctls (<[k := x]>) m.

(** ** The run gate *)

(** The entry a caller reads under [cm.mu]. *)
Definition read_entry (runID : string) (allowClosed : bool) (m : manager) : option controlEntry :=
  if m_closed m && negb allowClosed then None else ctlsByRunID m !! runID.
(** [lockCurrentRun]: [first] is what was read before waiting for the gate; after the
    wait the entry is read again and must still have that gate. *)
Definition lockCurrentRun (first : option controlEntry) (runID : string) (allowClosed : bool)
    (m : manager) : option controlEntry :=
  match first, read_entry runID allowClosed m with
  | Some e0, Some e => if decide (e_runMu e = e_runMu e0) then Some e else None
  | _, _ => None
  end.
Definition is_current (k : nat) (c : Control) (e : controlEntry) : bool :=
  bool_decide (e_ctl e = k) && bool_decide (e_id e = c_controlID c).

(** ** Operations of the manager *)
Definition MaxControlID : Z := 18446744073709551616.

(** [Add] of the fresh control [k], at the point where the gate of the old entry and
    [cm.mu] are held and the entry has been read again. *)
Definition Add (k : nat) (c : Control) (m : manager) : result unit * manager :=
  if m_closed m then (Err "control manager is closed", m)
  else
    let old := ctlsByRunID m !! c_runID c in
    let id := (nextControlID m + 1) mod MaxControlID in
    match Control_admit id c with
    | Err e => (Err e, mkManager (ctls m) (ctlsByRunID m) (m_registry m) (m_closed m) id (next_mu m)
                         (held m) (to_remove m) (to_close m))
    | Ok c =>
        match old with
        | None =>
            (Ok tt,
             mkManager (<[k := mkCtl c LWaiting WNone]> (ctls m))
               (<[c_runID c := mkEntry k id (next_mu m) false 0]> (ctlsByRunID m))
               (m_registry m) (m_closed m) id (S (next_mu m)) (held m) (to_remove m) (to_close m))
        | Some e =>
            match ctls m !! e_ctl e with
            | None => (Ok tt, m)   (* does not happen: an entry has its control *)
            | Some x =>
                let '(barrier, oc) := markReplaced (e_ctl e) (k_c x) in
                (Ok tt,
                 mkManager
                   (<[k := mkCtl (setHandoffBarrier barrier c) (LReplacing (e_ctl e)) WNone]>
                      (<[e_ctl e := mkCtl oc (k_l x) (k_w x)]> (ctls m)))
                   (<[c_runID c := mkEntry k id (e_runMu e) (registryOnline e) (registryControlID e)]>
                      (ctlsByRunID m))
                   (m_registry m) (m_closed m) id (next_mu m) (held m) (to_remove m) (to_close m))
            end
        end
    end.

Definition register_args (id : Z) (c : Control) : RegisterArgs :=
  let m := sx_LoginMsg (c_ctx c) in
  let remoteAddr := sx_RemoteAddr (c_ctx c) in
  mkRegisterArgs (lg_User m) (lg_ClientID m) (c_runID c) (lg_Hostname m) (lg_Version m)
    (match SplitHostPort remoteAddr with Ok (host, _) => host | Err _ => remoteAddr end)
    (sx_WireProtocol (c_ctx c)) id.

(** [Activate]: the pair of results, [(active, err)], and the new state. *)
Definition Activate (now : Z) (first : option controlEntry) (k : nat) (x : Ctl) (m : manager)
    : bool * result unit * manager :=
  let c := k_c x in
  match lockCurrentRun first (c_runID c) false m with
  | None => (false, Ok tt, m)
  | Some e =>
      if negb (is_current k c e) then (false, Ok tt, m)
      else if decide (c_state c ≠ controlStatePending) then (false, Ok tt, m)
      else if c_activated c then (true, Ok tt, m)
      else
        match RegisterWithControlID now (register_args (e_id e) c) (m_registry m) with
        | (_, true, cr) =>
            (true, Err ("client_id [" +:+ lg_ClientID (sx_LoginMsg (c_ctx c)) +:+ "] for user ["
                        +:+ lg_User (sx_LoginMsg (c_ctx c)) +:+ "] is already online"),
             mkManager (ctls m) (ctlsByRunID m) cr (m_closed m) (nextControlID m) (next_mu m)
               (held m) (to_remove m) (to_close m))
        | (_, false, cr) =>
            (true, Ok tt,
             mkManager (<[k := mkCtl (set_activated c) (k_l x) (k_w x)]> (ctls m))
               (<[c_runID c := mkEntry (e_ctl e) (e_id e) (e_runMu e) true (e_id e)]> (ctlsByRunID m))
               cr (m_closed m) (nextControlID m) (next_mu m) (held m) (to_remove m) (to_close m))
        end
  end.

(** [completeLogin] up to the write: the gate it then holds. *)
Definition completeLogin_begin (first : option controlEntry) (k : nat) (x : Ctl) (m : manager)
    : option nat :=
  let c := k_c x in
  match lockCurrentRun first (c_runID c) false m with
  | None => None
  | Some e =>
      if is_current k c e && bool_decide (c_state c = controlStatePending) && c_activated c
      then Some (e_runMu e) else None
  end.
(** The rest of it, once the write has returned. *)
Definition completeLogin_end (write : result unit) (c : Control) : bool * result unit * Control :=
  match write with
  | Err e => (false, Err e, c)
  | Ok _ => let '(started, c) := startLocked c in (started, Ok tt, c)
  end.

Definition Remove (now : Z) (first : option controlEntry) (k : nat) (c : Control) (m : manager)
    : bool * manager :=
  match lockCurrentRun first (c_runID c) true m with
  | None => (false, m)
  | Some e =>
      if negb (is_current k c e) then (false, m)
      else
        (true,
         mkManager (ctls m) (delete (c_runID c) (ctlsByRunID m))
           (if registryOnline e
            then MarkOfflineByRunIDAndControlID now (c_runID c) (registryControlID e) (m_registry m)
            else m_registry m)
           (m_closed m) (nextControlID m) (next_mu m) (held m) (to_remove m) (to_close m))
  end.

Definition GetByID (first : option controlEntry) (runID : string) (m : manager) : option nat :=
  match lockCurrentRun first runID false m with
  | None => None
  | Some e =>
      match ctls m !! e_ctl e with
      | Some x => if decide (c_state (k_c x) = controlStateRunning) then Some (e_ctl e) else None
      | None => None
      end
  end.
Definition admitVisitorByRunID (first : option controlEntry) (runID : string)
    (commit : string → string → string → result unit) (m : manager) : bool * result unit :=
  match lockCurrentRun first runID false m with
  | None => (false, Ok tt)
  | Some e =>
      match ctls m !! e_ctl e with
      | Some x =>
          if decide (c_state (k_c x) = controlStateRunning) then
            let ctx := c_ctx (k_c x) in
            (true, commit (lg_User (sx_LoginMsg ctx)) (sx_WireProtocol ctx) (sx_UDPPacketCodec ctx))
          else (false, Ok tt)
      | None => (false, Ok tt)
      end
  end.

(** [RegisterWorkConn] of the manager; [cm_closed] is what a last look at [cm.closed]
    finds when the run is gone. *)
Definition RegisterWorkConn (first : option controlEntry) (cm_closed : bool) (k : nat) (x : Ctl)
    (conn : nat) (m : manager) : result unit * manager :=
  let c := k_c x in
  let stale := "client control for run id [" +:+ c_runID c +:+ "] is no longer current" in
  match lockCurrentRun first (c_runID c) false m with
  | None => (Err (if cm_closed then "control manager is closed" else stale), m)
  | Some e =>
      if negb (is_current k c e) then (Err stale, m)
      else if decide (c_state c ≠ controlStateRunning)
      then (Err ("client control for run id [" +:+ c_runID c +:+ "] is not running"), m)
      else
        match put_work_conn conn c with
        | Ok c => (Ok tt, put k (mkCtl c (k_l x) (k_w x)) m)
        | Err e => (Err e, m)
        end
  end.

(** [Close] of the manager: its locked part. *)
Definition cm_Close (m : manager) : manager :=
  mkManager (ctls m) (ctlsByRunID m) (m_registry m) true (nextControlID m) (next_mu m) (held m)
    (to_remove m ∪ list_to_set (e_ctl <$> (map_to_list (ctlsByRunID m)).*2))
    (to_close m).

(** ** Steps *)

(** The entry read first by a caller that holds its own control [k]: if [k] is still
    current when the gate is held, it was current before, with the same gate. *)
Definition saw (first : option controlEntry) (k : nat) (c : Control) (m : manager) : Prop :=
  ∀ e, ctlsByRunID m !! c_runID c = Some e → e_ctl e = k →
    ∃ e0, first = Some e0 ∧ e_runMu e0 = e_runMu e.
(** No step in progress holds the gate of the run. *)
Definition gate_free (runID : string) (m : manager) : Prop :=
  ∀ e, ctlsByRunID m !! runID = Some e → e_runMu e ∉ held m.
Definition phase (l : lphase) (x : Ctl) : Ctl := mkCtl (k_c x) l (k_w x).
Definition barrier_done (b : option nat) (m : manager) : Prop :=
  match b with
  | None => True
  | Some o => ∃ x, ctls m !! o = Some x ∧ c_done (k_c x) = true
  end.
Definition hold (gs : gset nat) (m : manager) : manager :=
  mkManager (ctls m) (ctlsByRunID m) (m_registry m) (m_closed m) (nextControlID m) (next_mu m)
    gs (to_remove m) (to_close m).
Definition set_todo (tr tc : gset nat) (m : manager) : manager :=
  mkManager (ctls m) (ctlsByRunID m) (m_registry m) (m_closed m) (nextControlID m) (next_mu m)
    (held m) tr tc.
Definition after_add (r : result unit) (k : nat) (c : Control) (m : manager) : manager :=
  match r with Ok _ => m | Err _ => put k (mkCtl c LFailRemove WNone) m end.
(** The outcome of [Activate] and of [completeLogin] for the login goroutine. *)
Definition after_activate (k : nat) (active : bool) (r : result unit) (m : manager) : manager :=
  set_ctls (alter (phase (match r with
    | Ok _ => if active then LLoggedIn else LFailRemove | Err _ => LFailRemove end)) k) m.
Definition after_login (k : nat) (x : Ctl) (write : result unit) : Ctl :=
  let '(started, _, c) := completeLogin_end write (k_c x) in
  if started then mkCtl c LDone WRun else mkCtl c LFailRemove (k_w x).

Inductive kstep : manager → manager → Prop :=
| ks_new k c m :                                       (* RegisterControl: NewControl *)
    ctls m !! k = None → c_state c = controlStateCreated → c_done c = false →
    c_workOpen c = true → c_workConnCh c = [] → 0 < c_cap c →
    kstep m (put k (mkCtl c LNew WNone) m)
| ks_add k c r m m' :                                  (* ControlManager.Add *)
    ctls m !! k = Some (mkCtl c LNew WNone) → gate_free (c_runID c) m →
    Add k c m = (r, m') → kstep m (after_add r k c m')
| ks_replaced k x o y m :                              (* oldCtl.Replaced(ctl) *)
    ctls m !! k = Some x → k_l x = LReplacing o → ctls m !! o = Some y → k_l y ≠ LWriting →
    kstep m (put k (phase LWaiting x) (put o (mkCtl (Replaced o (k_c y)) (k_l y) (k_w y)) m))
| ks_handoff k x m :                                   (* WaitForHandoff returns *)
    ctls m !! k = Some x → k_l x = LWaiting → barrier_done (c_handoffBarrier (k_c x)) m →
    kstep m (put k (phase LReady x) m)
| ks_activate now first k x a r m m' :
    ctls m !! k = Some x → k_l x = LReady → saw first k (k_c x) m → gate_free (c_runID (k_c x)) m →
    Activate now first k x m = (a, r, m') → kstep m (after_activate k a r m')
| ks_login_begin first k x g m :                       (* completeLogin takes the locks *)
    ctls m !! k = Some x → k_l x = LLoggedIn → saw first k (k_c x) m →
    gate_free (c_runID (k_c x)) m → completeLogin_begin first k x m = Some g →
    kstep m (hold ({[g]} ∪ held m) (put k (phase LWriting x) m))
| ks_login_stale first k x m :
    ctls m !! k = Some x → k_l x = LLoggedIn → saw first k (k_c x) m →
    gate_free (c_runID (k_c x)) m → completeLogin_begin first k x m = None →
    kstep m (put k (phase LFailRemove x) m)
| ks_login_end k x e write m :                         (* the write returned *)
    ctls m !! k = Some x → k_l x = LWriting → ctlsByRunID m !! c_runID (k_c x) = Some e →
    kstep m (hold (held m ∖ {[e_runMu e]}) (put k (after_login k x write) m))
| ks_fail_remove now first k x b m m' :                (* error path: Remove, then Close *)
    ctls m !! k = Some x → k_l x = LFailRemove → saw first k (k_c x) m →
    gate_free (c_runID (k_c x)) m → Remove now first k (k_c x) m = (b, m') →
    kstep m (put k (phase LFailClose x) m')
| ks_fail_close k x m :
    ctls m !! k = Some x → k_l x = LFailClose →
    kstep m (put k (mkCtl (Control_Close (k_c x)) LDone (k_w x)) m)
| ks_heartbeat k x m :                                 (* heartbeatWorker: Close *)
    ctls m !! k = Some x → k_w x ≠ WNone → k_w x ≠ WFinished →
    kstep m (put k (mkCtl (Control_Close (k_c x)) (k_l x) (k_w x)) m)
| ks_stopped k x m :                                   (* the message loop ended *)
    ctls m !! k = Some x → k_w x = WRun →
    kstep m (put k (mkCtl (worker_stopping (k_c x)) (k_l x) WStopped) m)
| ks_drain k x m :
    ctls m !! k = Some x → k_w x = WStopped →
    kstep m (put k (mkCtl (worker_drain (k_c x)) (k_l x) WDrained) m)
| ks_remove now first k x b m m' :                     (* the worker's Remove *)
    ctls m !! k = Some x → k_w x = WDrained → saw first k (k_c x) m →
    gate_free (c_runID (k_c x)) m → Remove now first k (k_c x) m = (b, m') →
    kstep m (put k (mkCtl (k_c x) (k_l x) WRemoved) m')
| ks_finish k x m :
    ctls m !! k = Some x → k_w x = WRemoved →
    kstep m (put k (mkCtl (finishLocked (k_c x)) (k_l x) WFinished) m)
| ks_put first cm_closed k x conn r m m' :             (* a work connection arrives *)
    ctls m !! k = Some x → gate_free (c_runID (k_c x)) m →
    RegisterWorkConn first cm_closed k x conn m = (r, m') → kstep m m'
| ks_take k x r c m :                                  (* GetWorkConn receives *)
    ctls m !! k = Some x → take_work_conn (k_c x) = Some (r, c) →
    kstep m (put k (mkCtl c (k_l x) (k_w x)) m)
| ks_ping now k x m :                                  (* a valid heartbeat *)
    ctls m !! k = Some x → kstep m (put k (mkCtl (set_lastPing now (k_c x)) (k_l x) (k_w x)) m)
| ks_shutdown m : kstep m (cm_Close m)                 (* ControlManager.Close *)
| ks_shut_remove now first k x b m m' :
    k ∈ to_remove m → ctls m !! k = Some x → saw first k (k_c x) m → gate_free (c_runID (k_c x)) m →
    Remove now first k (k_c x) m = (b, m') →
    kstep m (set_todo (to_remove m' ∖ {[k]}) ({[k]} ∪ to_close m') m')
| ks_shut_close k x m :
    k ∈ to_close m → ctls m !! k = Some x → k_l x ≠ LWriting →
    kstep m (set_todo (to_remove m) (to_close m ∖ {[k]})
               (put k (mkCtl (Control_Close (k_c x)) (k_l x) (k_w x)) m)).

Definition k_reachable (m : manager) : Prop := rtc kstep (NewControlManager NewClientRegistry) m.

(** ** Invariant *)
Definition state_of (x : Ctl) : controlState := c_state (k_c x).
Definition serving (x : Ctl) : bool :=
  match k_w x with WRun | WStopped | WDrained => true | _ => false end.
Definition waiting (x : Ctl) : bool :=
  match k_l x with LReplacing _ | LWaiting => true | _ => false end.
Definition rank (s : controlState) : nat :=
  match s with
  | controlStateCreated => 0 | controlStatePending => 1 | controlStateRunning => 2
  | controlStateClosing => 3 | controlStateClosed => 4
  end.

(** One control on its own: its channels, state and goroutines agree. *)
Record ctl_ok (x : Ctl) : Prop := mkCtlOk {
  co_done : c_done (k_c x) = true ↔ state_of x = controlStateClosed;
  co_none : k_w x = WNone → state_of x ≠ controlStateRunning ∧ state_of x ≠ controlStateClosing;
  co_run : k_w x = WRun → state_of x = controlStateRunning ∨ state_of x = controlStateClosing;
  co_closing : k_w x = WStopped ∨ k_w x = WDrained ∨ k_w x = WRemoved →
    state_of x = controlStateClosing;
  co_finished : k_w x = WFinished → state_of x = controlStateClosed;
  co_open : c_workOpen (k_c x) = match k_w x with WNone | WRun | WStopped => true | _ => false end;
  co_queue : Z.of_nat (length (c_workConnCh (k_c x))) ≤ c_cap (k_c x)
    ∧ (c_workOpen (k_c x) = false → c_workConnCh (k_c x) = []);
  co_new : k_l x = LNew → state_of x = controlStateCreated;
  co_created : state_of x = controlStateCreated →
    k_l x = LNew ∨ k_l x = LFailRemove ∨ k_l x = LFailClose;
  co_login : k_l x ≠ LDone → k_w x = WNone;
  co_over : k_l x = LDone → k_w x = WNone → state_of x = controlStateClosed;
  co_writing : k_l x = LWriting → state_of x = controlStatePending ∧ c_activated (k_c x) = true;
}.

(** A control that an entry points to. *)
Record entry_ok (x : Ctl) : Prop := mkEntryOk {
  eo_login : k_l x ≠ LNew ∧ k_l x ≠ LFailClose;
  eo_pending : k_w x = WNone → state_of x = controlStatePending;
}.

Record kinv (m : manager) : Prop := mkKinv {
  ki_ctl : ∀ k x, ctls m !! k = Some x → ctl_ok x;
  ki_entry : ∀ r e, ctlsByRunID m !! r = Some e → ∃ x, ctls m !! e_ctl e = Some x
    ∧ c_runID (k_c x) = r ∧ c_controlID (k_c x) = e_id e ∧ entry_ok x
    ∧ e_ctl e ∉ to_close m ∧ (e_runMu e < next_mu m)%nat;
  ki_gate : ∀ r1 e1 r2 e2, ctlsByRunID m !! r1 = Some e1 → ctlsByRunID m !! r2 = Some e2 →
    e_runMu e1 = e_runMu e2 → r1 = r2;
  ki_held : ∀ k x, ctls m !! k = Some x → k_l x = LWriting →
    ∃ e, ctlsByRunID m !! c_runID (k_c x) = Some e ∧ e_ctl e = k ∧ e_runMu e ∈ held m;
  ki_old : ∀ k x o, ctls m !! k = Some x → k_l x = LReplacing o →
    ∃ y, ctls m !! o = Some y ∧ (3 ≤ rank (state_of y))%nat ∧ o ≠ k;
  (* the predecessor that still serves is the one the current control waits for *)
  ki_serving : ∀ k x, ctls m !! k = Some x → serving x = true →
    match ctlsByRunID m !! c_runID (k_c x) with
    | None => m_closed m = true
    | Some e => e_ctl e = k ∨ ∃ y, ctls m !! e_ctl e = Some y ∧ waiting y = true
        ∧ c_handoffBarrier (k_c y) = Some k
    end;
  ki_unique : ∀ k1 x1 k2 x2, ctls m !! k1 = Some x1 → ctls m !! k2 = Some x2 →
    serving x1 = true → serving x2 = true → c_runID (k_c x1) = c_runID (k_c x2) → k1 = k2;
  ki_shut : ∀ r e, m_closed m = true → ctlsByRunID m !! r = Some e → e_ctl e ∈ to_remove m;
  ki_running : ∀ k x, ctls m !! k = Some x → state_of x = controlStateRunning →
    k ∈ to_remove m ∪ to_close m ∨ ∃ e, ctlsByRunID m !! c_runID (k_c x) = Some e ∧ e_ctl e = k;
  ki_todo : ∀ k, k ∈ to_remove m ∪ to_close m →
    m_closed m = true ∧ ∃ x, ctls m !! k = Some x ∧ k_l x ≠ LNew;
}.

(** ** Lemmas: one control changes, nothing else does *)

(** What such a change must respect. *)
Record ctl_step (m : manager) (k : nat) (x x' : Ctl) : Prop := mkCtlStep {
  cs_ok : ctl_ok x';
  cs_run : c_runID (k_c x') = c_runID (k_c x);
  cs_id : c_controlID (k_c x') = c_controlID (k_c x);
  cs_barrier : c_handoffBarrier (k_c x') = c_handoffBarrier (k_c x);
  cs_entry : ∀ e, ctlsByRunID m !! c_runID (k_c x) = Some e → e_ctl e = k → entry_ok x → entry_ok x';
  cs_serving : serving x' = true → serving x = true;
  cs_rank : (rank (state_of x) ≤ rank (state_of x'))%nat;
  cs_running : state_of x' = controlStateRunning → state_of x = controlStateRunning;
  cs_waiting : waiting x = true → waiting x' = true ∨ barrier_done (c_handoffBarrier (k_c x)) m;
  cs_writing : k_l x' = LWriting → k_l x = LWriting ∨
    ∃ e, ctlsByRunID m !! c_runID (k_c x) = Some e ∧ e_ctl e = k ∧ e_runMu e ∈ held m;
  cs_new : k_l x' = LNew → k_l x = LNew;
  cs_replacing : ∀ o, k_l x' = LReplacing o → k_l x = LReplacing o;
}.

Lemma serving_not_done m k x : kinv m → ctls m !! k = Some x → serving x = true →
  c_done (k_c x) = false.
Proof.
  intros Hi Hk Hs. destruct (ki_ctl _ Hi _ _ Hk) as [Hd _ Hr Hc _ _ _ _ _ _ _ _].
  apply not_true_iff_false. rewrite Hd. unfold serving in Hs.
  destruct (k_w x); try done; [destruct Hr as [->| ->]|rewrite Hc..]; auto; done.
Qed.

Lemma kinv_put m k x x' : kinv m → ctls m !! k = Some x → ctl_step m k x x' → kinv (put k x' m).
Proof.
  intros Hi Hk [Hok Hrun Hid Hb Hent Hserv Hrank Hrunning Hwait Hwr Hnew Hrep].
  assert (Hl : ∀ k' y, <[k := x']> (ctls m) !! k' = Some y →
    (k' = k ∧ y = x') ∨ (k' ≠ k ∧ ctls m !! k' = Some y)).
  { intros k' y. rewrite lookup_insert_Some. naive_solver. }
  split; simpl.
  - intros k' y [[-> ->]|[_ H]]%Hl; [done|by eapply (ki_ctl _ Hi)].
  - intros r e He. destruct (ki_entry _ Hi _ _ He) as (y & Hy & Hr & Hyid & Hyok & Hc & Hmu).
    destruct (decide (e_ctl e = k)) as [Heq|Hne].
    + exists x'. rewrite Heq in *. simplify_eq. rewrite lookup_insert_eq.
      split_and!; [done|done|congruence|by eapply Hent|done|done].
    + exists y. rewrite lookup_insert_ne by done. by split_and!.
  - exact (ki_gate _ Hi).
  - intros k' y [[-> ->]|[_ H]]%Hl Hw; [|by eapply (ki_held _ Hi)].
    rewrite Hrun. destruct (Hwr Hw); [by apply (ki_held _ Hi _ x)|done].
  - intros k' y o Hy Ho.
    assert (∃ z, ctls m !! o = Some z ∧ (3 ≤ rank (state_of z))%nat ∧ o ≠ k') as (z & Hz & Hr & Hok').
    { apply Hl in Hy as [[-> ->]|[_ H]]; [apply (ki_old _ Hi _ x); auto|by eapply (ki_old _ Hi)]. }
    destruct (decide (o = k)) as [->|Hne].
    + exists x'. rewrite lookup_insert_eq. simplify_eq. split_and!; [done|lia|done].
    + exists z. by rewrite lookup_insert_ne.
  - intros k' y Hy Hs.
    assert (∃ z, ctls m !! k' = Some z ∧ serving z = true ∧ c_runID (k_c z) = c_runID (k_c y))
      as (z & Hz & Hzs & Hzr).
    { apply Hl in Hy as [[-> ->]|[_ H]]; [exists x; auto|by exists y]. }
    pose proof (ki_serving _ Hi _ _ Hz Hzs) as H. rewrite Hzr in H.
    destruct (ctlsByRunID m !! c_runID (k_c y)) as [e|]; [|done].
    destruct H as [?|(u & Hu & Huw & Hub)]; [by left|]. right.
    destruct (decide (e_ctl e = k)) as [Heq|Hne].
    + exists x'. rewrite Heq, lookup_insert_eq in *. simplify_eq. split_and!; [done| |congruence].
      destruct (Hwait Huw) as [?|Hd]; [done|]. exfalso. rewrite Hub in Hd. destruct Hd as (v & Hv & Hvd).
      pose proof (serving_not_done _ _ _ Hi Hz Hzs). congruence.
    + exists u. by rewrite lookup_insert_ne.
  - intros k1 y1 k2 y2 H1 H2 Hs1 Hs2 Heq.
    assert (∀ k' y, <[k := x']> (ctls m) !! k' = Some y → serving y = true →
      ∃ z, ctls m !! k' = Some z ∧ serving z = true ∧ c_runID (k_c z) = c_runID (k_c y)) as Hback.
    { intros k' y [[-> ->]|[_ H]]%Hl Hs; [exists x; auto|by exists y]. }
    destruct (Hback _ _ H1 Hs1) as (z1 & ? & ? & ?), (Hback _ _ H2 Hs2) as (z2 & ? & ? & ?).
    eapply (ki_unique _ Hi); [done..|congruence].
  - exact (ki_shut _ Hi).
  - intros k' y [[-> ->]|[_ H]]%Hl Hr; [|by eapply (ki_running _ Hi)].
    rewrite Hrun. apply (ki_running _ Hi _ x); auto.
  - intros k' Hk'. destruct (ki_todo _ Hi _ Hk') as (? & y & Hy & Hyn). split; [done|].
    destruct (decide (k' = k)) as [->|].
    + exists x'. rewrite lookup_insert_eq. simplify_eq. naive_solver.
    + exists y. by rewrite lookup_insert_ne.
Qed.

(** The fields of [ctl_ok] after a change, from those before it. *)
Ltac ctl_ok_solve := try first [assumption | done | intuition congruence].

Lemma close_ok x l : ctl_ok x → k_l x ≠ LWriting → k_l x ≠ LNew → l = k_l x ∨ l = LDone ∧ k_w x = WNone →
  ctl_ok (mkCtl (Control_Close (k_c x)) l (k_w x)).
Proof.
  intros Hx Hw Hn Hl. destruct x as [c l0 w]. destruct Hx. unfold state_of in *. simpl in *.
  unfold Control_Close, close_state, finishLocked.
  destruct (c_state c) eqn:Hs; split; unfold state_of; simpl in *; rewrite ?Hs; try naive_solver.
Qed.

Lemma close_rank c : (rank (c_state c) ≤ rank (c_state (Control_Close c)))%nat
  ∧ (3 ≤ rank (c_state (Control_Close c)))%nat.
Proof. unfold Control_Close, close_state, finishLocked. destruct (c_state c) eqn:E; simpl; rewrite ?E; simpl; lia. Qed.

Lemma close_same c : c_runID (Control_Close c) = c_runID c
  ∧ c_controlID (Control_Close c) = c_controlID c
  ∧ c_handoffBarrier (Control_Close c) = c_handoffBarrier c.
Proof. unfold Control_Close, close_state, finishLocked. by destruct (c_state c) eqn:E; simpl; rewrite ?E. Qed.

Lemma kinv_close m k x l : kinv m → ctls m !! k = Some x → k_l x ≠ LWriting → k_l x ≠ LNew →
  l = k_l x ∨ l = LDone ∧ k_l x = LFailClose →
  (∀ e, ctlsByRunID m !! c_runID (k_c x) = Some e → e_ctl e = k → entry_ok x → k_w x ≠ WNone) →
  kinv (put k (mkCtl (Control_Close (k_c x)) l (k_w x)) m).
Proof.
  intros Hi Hk Hw Hn Hl Hcur. pose proof (ki_ctl _ Hi _ _ Hk) as Hok.
  destruct (close_same (k_c x)) as (? & ? & ?), (close_rank (k_c x)) as [? Hge].
  eapply kinv_put; [done|done|]. split; simpl; try done.
  - apply close_ok; try done. destruct Hl as [->|[-> Hf]]; [by left|right]. split; [done|].
    apply (co_login _ Hok). by rewrite Hf.
  - intros e He Hek Heo. pose proof (Hcur _ He Hek Heo). destruct Heo as [[? ?] ?]. split; simpl.
    + destruct Hl as [->|[_ Hf]]; done.
    + done.
  - intros Hr. change (c_state (Control_Close (k_c x)) = controlStateRunning) in Hr.
    rewrite Hr in Hge. simpl in Hge. lia.
  - destruct Hl as [->|[-> Hf]]; unfold waiting; simpl; [by left|by rewrite Hf].
  - by destruct Hl as [->|[-> Hf]].
  - by destruct Hl as [->|[-> Hf]].
  - by destruct Hl as [->|[-> Hf]].
Qed.

(** A change of the login phase only. *)
Lemma kinv_phase m k x l : kinv m → ctls m !! k = Some x → k_l x ≠ LDone → k_l x ≠ LNew →
  l ≠ LNew → l ≠ LDone → l ≠ LWriting → (∀ o, l ≠ LReplacing o) →
  (state_of x = controlStateCreated → l = LFailRemove ∨ l = LFailClose) →
  (l = LFailClose → ∀ e, ctlsByRunID m !! c_runID (k_c x) = Some e → e_ctl e ≠ k) →
  (waiting x = true → waiting (phase l x) = true ∨ barrier_done (c_handoffBarrier (k_c x)) m) →
  kinv (put k (phase l x) m).
Proof.
  intros Hi Hk Hd Hn H1 H2 H3 H4 H5 H6 H7. pose proof (ki_ctl _ Hi _ _ Hk) as Hok.
  eapply kinv_put; [done|done|]. split; try done.
  - destruct Hok. unfold phase. split; unfold state_of in *; simpl in *; naive_solver.
  - intros e He Hek [[? ?] ?]. split; simpl; [|done]. split; [done|]. intros ->. by eapply H6.
  - by intros ? ?%H4.
Qed.

(** A change of the worker's phase, of the channels or of the time of the last ping. *)
Lemma kinv_worker m k x x' : kinv m → ctls m !! k = Some x → ctl_ok x' →
  k_l x' = k_l x → c_runID (k_c x') = c_runID (k_c x) → c_controlID (k_c x') = c_controlID (k_c x) →
  c_handoffBarrier (k_c x') = c_handoffBarrier (k_c x) → (rank (state_of x) ≤ rank (state_of x'))%nat →
  (serving x' = true → serving x = true) →
  (state_of x' = controlStateRunning → state_of x = controlStateRunning) →
  (entry_ok x → entry_ok x') → kinv (put k x' m).
Proof.
  intros Hi Hk Hok Hl Hr Hid Hb Hrank Hs Hrun He. eapply kinv_put; [done|done|].
  split; try done; rewrite ?Hl; eauto. unfold waiting. rewrite Hl. by left.
Qed.

Lemma stopping_same c : let c' := worker_stopping c in
  c_workOpen c' = c_workOpen c ∧ c_workConnCh c' = c_workConnCh c ∧ c_cap c' = c_cap c
  ∧ c_done c' = c_done c ∧ c_activated c' = c_activated c ∧ c_runID c' = c_runID c
  ∧ c_controlID c' = c_controlID c ∧ c_handoffBarrier c' = c_handoffBarrier c
  ∧ (c_state c = controlStateRunning ∨ c_state c = controlStateClosing →
     c_state c' = controlStateClosing ∧ (rank (c_state c) ≤ 3)%nat).
Proof.
  unfold worker_stopping. case_decide as E; simpl; split_and!; try done; intros [H|H]; rewrite ?H;
    simpl; try done; auto with lia.
Qed.

Lemma kinv_stopped m k x : kinv m → ctls m !! k = Some x → k_w x = WRun →
  kinv (put k (mkCtl (worker_stopping (k_c x)) (k_l x) WStopped) m).
Proof.
  intros Hi Hk Hw. pose proof (ki_ctl _ Hi _ _ Hk) as Hok. pose proof (co_run _ Hok Hw) as Hst.
  destruct (stopping_same (k_c x)) as (E1 & E2 & E3 & E4 & E5 & E6 & E7 & E8 & Hc).
  destruct (Hc Hst) as [Hcl Hrk]. clear Hc. set (c' := worker_stopping (k_c x)) in *. clearbody c'.
  apply (kinv_worker _ _ x); simpl; try done.
  - destruct Hok. split; unfold state_of in *; simpl in *; rewrite ?Hcl, ?E1, ?E2, ?E3, ?E4, ?E5;
      rewrite ?Hw in *; try done.
    + rewrite co_done0. split; [|done]. destruct Hst; congruence.
    + intros Hl. rewrite co_new0 in Hst by done. by destruct Hst.
    + intros Hl. by apply co_login0 in Hl.
    + intros Hl. destruct (co_writing0 Hl) as [Hs _]. rewrite Hs in Hst. by destruct Hst.
  - unfold state_of. simpl. by rewrite Hcl.
  - unfold serving. by rewrite Hw.
  - unfold state_of at 1. simpl. by rewrite Hcl.
  - intros [? ?]. by split.
Qed.

Lemma kinv_drain m k x : kinv m → ctls m !! k = Some x → k_w x = WStopped →
  kinv (put k (mkCtl (worker_drain (k_c x)) (k_l x) WDrained) m).
Proof.
  intros Hi Hk Hw. pose proof (ki_ctl _ Hi _ _ Hk) as Hok.
  apply (kinv_worker _ _ x); simpl; try done.
  - destruct Hok. split; unfold state_of in *; simpl in *; rewrite ?Hw in *; ctl_ok_solve.
    split; [|done]. destruct co_queue0. lia.
  - unfold serving. by rewrite Hw.
  - intros [? ?]. by split.
Qed.

Lemma kinv_finish m k x : kinv m → ctls m !! k = Some x → k_w x = WRemoved →
  kinv (put k (mkCtl (finishLocked (k_c x)) (k_l x) WFinished) m).
Proof.
  intros Hi Hk Hw. pose proof (ki_ctl _ Hi _ _ Hk) as Hok.
  assert (Hst : state_of x = controlStateClosing) by (apply (co_closing _ Hok); auto).
  unfold state_of in Hst. unfold finishLocked. rewrite decide_False by congruence.
  apply (kinv_worker _ _ x); simpl; try done.
  - destruct Hok. split; unfold state_of in *; simpl in *; rewrite ?Hw in *; ctl_ok_solve.
  - unfold state_of. rewrite Hst. simpl. lia.
  - intros [? ?]. by split.
Qed.

(** The pool: only the queue changes. *)
Lemma kinv_queue m k x q : kinv m → ctls m !! k = Some x →
  (Z.of_nat (length q) ≤ c_cap (k_c x)) → (c_workOpen (k_c x) = false → q = []) →
  kinv (put k (mkCtl (set_work q (c_workOpen (k_c x)) (k_c x)) (k_l x) (k_w x)) m).
Proof.
  intros Hi Hk Hq Ho. pose proof (ki_ctl _ Hi _ _ Hk) as Hok.
  apply (kinv_worker _ _ x); simpl; try done.
  - destruct Hok. split; unfold state_of in *; simpl in *; ctl_ok_solve.
  - intros [? ?]. by split.
Qed.

Lemma kinv_ping m k x now : kinv m → ctls m !! k = Some x →
  kinv (put k (mkCtl (set_lastPing now (k_c x)) (k_l x) (k_w x)) m).
Proof.
  intros Hi Hk. pose proof (ki_ctl _ Hi _ _ Hk) as Hok.
  apply (kinv_worker _ _ x); simpl; try done.
  - destruct Hok. split; unfold state_of in *; simpl in *; ctl_ok_solve.
  - intros [? ?]. by split.
Qed.

(** ** Lemmas: the steps that change the entries or the gates *)
Lemma kinv_hold m gs : kinv m → held m ⊆ gs → kinv (hold gs m).
Proof.
  intros [] Hgs. split; simpl; try done. intros k x Hk Hw.
  destruct (ki_held0 _ _ Hk Hw) as (e & ? & ? & ?). exists e. split_and!; [done..|set_solver].
Qed.

Lemma kinv_release m r e x : kinv m → ctlsByRunID m !! r = Some e → ctls m !! e_ctl e = Some x →
  k_l x ≠ LWriting → kinv (hold (held m ∖ {[e_runMu e]}) m).
Proof.
  intros Hi He Hx Hn. pose proof Hi as []. split; simpl; try done. intros k y Hk Hw.
  destruct (ki_held0 _ _ Hk Hw) as (e' & He' & <- & ?). exists e'. split_and!; [done..|].
  apply elem_of_difference. split; [done|]. intros Heq%elem_of_singleton.
  pose proof (ki_gate0 _ _ _ _ He' He Heq) as Hr. rewrite Hr in He'. simplify_eq.
Qed.

(** The flags an entry keeps for the registry do not matter here. *)
Lemma kinv_flags m r e on cid cr : kinv m → ctlsByRunID m !! r = Some e →
  kinv (mkManager (ctls m) (<[r := mkEntry (e_ctl e) (e_id e) (e_runMu e) on cid]> (ctlsByRunID m)) cr
    (m_closed m) (nextControlID m) (next_mu m) (held m) (to_remove m) (to_close m)).
Proof.
  intros [] He. set (e1 := mkEntry _ _ _ _ _).
  assert (Hl : ∀ r' e', <[r := e1]> (ctlsByRunID m) !! r' = Some e' → ∃ e0,
    ctlsByRunID m !! r' = Some e0 ∧ e_ctl e' = e_ctl e0 ∧ e_id e' = e_id e0 ∧ e_runMu e' = e_runMu e0).
  { intros r' e' [[<- <-]|[_ H]]%lookup_insert_Some; [by exists e|by exists e']. }
  assert (Hl' : ∀ r' e0, ctlsByRunID m !! r' = Some e0 → ∃ e', <[r := e1]> (ctlsByRunID m) !! r' = Some e'
    ∧ e_ctl e' = e_ctl e0 ∧ e_runMu e' = e_runMu e0).
  { intros r' e0 H. destruct (decide (r' = r)) as [->|].
    - exists e1. rewrite lookup_insert_eq. by simplify_eq.
    - exists e0. by rewrite lookup_insert_ne. }
  split; simpl; try done.
  - intros r' e' (e0 & H0 & -> & -> & ->)%Hl. by apply ki_entry0.
  - intros r1 e1' r2 e2' (d1 & H1 & _ & _ & ->)%Hl (d2 & H2 & _ & _ & ->)%Hl Heq.
    eapply ki_gate0; eauto.
  - intros k x Hk Hw. destruct (ki_held0 _ _ Hk Hw) as (e0 & H0 & <- & ?).
    destruct (Hl' _ _ H0) as (e' & ? & ? & Hmu). exists e'. by rewrite Hmu.
  - intros k x Hk Hs. pose proof (ki_serving0 _ _ Hk Hs) as H.
    destruct (ctlsByRunID m !! c_runID (k_c x)) as [e0|] eqn:H0.
    + destruct (Hl' _ _ H0) as (e' & -> & -> & _). done.
    + assert (r ≠ c_runID (k_c x)) by (intros ->; congruence).
      by rewrite lookup_insert_ne, H0 by done.
  - intros r' e' Hc (e0 & H0 & -> & _)%Hl. by eapply ki_shut0.
  - intros k x Hk Hr. destruct (ki_running0 _ _ Hk Hr) as [?|(e0 & H0 & <-)]; [by left|right].
    destruct (Hl' _ _ H0) as (e' & ? & ? & _). by exists e'.
Qed.

Lemma kinv_registry m cr : kinv m →
  kinv (mkManager (ctls m) (ctlsByRunID m) cr (m_closed m) (nextControlID m) (next_mu m) (held m)
    (to_remove m) (to_close m)).
Proof. intros []. by split. Qed.

(** Deleting the entry of a control that does not serve. *)
Lemma kinv_delete m r e cr : kinv m → ctlsByRunID m !! r = Some e → gate_free r m →
  m_closed m = true ∨ (∀ x, ctls m !! e_ctl e = Some x → serving x = false ∧ waiting x = false) →
  e_ctl e ∈ to_remove m ∪ to_close m
    ∨ (∀ x, ctls m !! e_ctl e = Some x → state_of x ≠ controlStateRunning) →
  kinv (mkManager (ctls m) (delete r (ctlsByRunID m)) cr (m_closed m) (nextControlID m) (next_mu m)
    (held m) (to_remove m) (to_close m)).
Proof.
  intros Hi He Hg Hc Hrun. pose proof Hi as []. split; simpl; try done.
  - intros r' e' [_ H]%lookup_delete_Some. by apply ki_entry0.
  - intros r1 e1 r2 e2 [_ H1]%lookup_delete_Some [_ H2]%lookup_delete_Some. eauto.
  - intros k x Hk Hw. destruct (ki_held0 _ _ Hk Hw) as (e' & He' & ? & Hh). exists e'.
    rewrite lookup_delete_ne; [done|]. intros ->. by destruct (Hg _ He').
  - intros k x Hk Hs. destruct (decide (c_runID (k_c x) = r)) as [Heq|].
    + rewrite Heq, lookup_delete_eq. destruct Hc as [?|Hno]; [done|].
      pose proof (ki_serving0 _ _ Hk Hs) as H. rewrite Heq, He in H.
      destruct H as [<-|(y & Hy & Hyw & _)].
      * destruct (Hno _ Hk). congruence.
      * destruct (Hno _ Hy). congruence.
    + rewrite lookup_delete_ne by done. by apply ki_serving0.
  - intros r' e' Hcl [_ H]%lookup_delete_Some. by eapply ki_shut0.
  - intros k x Hk Hr. destruct (ki_running0 _ _ Hk Hr) as [?|(e' & He' & Hek)]; [by left|].
    destruct (decide (c_runID (k_c x) = r)) as [Heq|].
    + rewrite Heq in He'. simplify_eq. destruct Hrun as [?|Hno]; [by left|]. by destruct (Hno _ Hk).
    + right. exists e'. by rewrite lookup_delete_ne.
Qed.

(** What [Remove] does for a caller that saw its own entry. *)
Lemma Remove_cases now first k x m b m' : kinv m → ctls m !! k = Some x → saw first k (k_c x) m →
  Remove now first k (k_c x) m = (b, m') →
  (b = false ∧ m' = m ∧ (∀ r e, ctlsByRunID m !! r = Some e → e_ctl e ≠ k))
  ∨ (b = true ∧ ∃ e, ctlsByRunID m !! c_runID (k_c x) = Some e ∧ e_ctl e = k ∧
     m' = mkManager (ctls m) (delete (c_runID (k_c x)) (ctlsByRunID m))
       (if registryOnline e
        then MarkOfflineByRunIDAndControlID now (c_runID (k_c x)) (registryControlID e) (m_registry m)
        else m_registry m)
       (m_closed m) (nextControlID m) (next_mu m) (held m) (to_remove m) (to_close m)).
Proof.
  intros Hi Hk Hsaw HR.
  assert (Hown : ∀ r e, ctlsByRunID m !! r = Some e → e_ctl e = k →
    ctlsByRunID m !! c_runID (k_c x) = Some e ∧ c_controlID (k_c x) = e_id e).
  { intros r e He <-. destruct (ki_entry _ Hi _ _ He) as (y & Hy & Hr & Hid & _). by simplify_eq. }
  unfold Remove, lockCurrentRun, read_entry in HR. rewrite andb_false_r in HR.
  destruct (ctlsByRunID m !! c_runID (k_c x)) as [e|] eqn:He.
  - destruct (decide (e_ctl e = k)) as [Heq|Hne].
    + destruct (Hsaw _ He Heq) as (e0 & -> & Hmu). rewrite decide_True in HR by done.
      destruct (Hown _ _ He Heq) as [_ Hid].
      unfold is_current in HR. rewrite !bool_decide_eq_true_2 in HR by done. simpl in HR.
      simplify_eq. right. eauto.
    + left. assert (b = false ∧ m' = m) as [-> ->].
      { destruct first as [e0|]; [|by simplify_eq]. case_decide; [|by simplify_eq].
        unfold is_current in HR. rewrite (bool_decide_eq_false_2 (e_ctl e = k)) in HR by done.
        simpl in HR. by simplify_eq. }
      split_and!; [done..|]. intros r e' He' Heq. destruct (Hown _ _ He' Heq) as [? _]. by simplify_eq.
  - left. assert (b = false ∧ m' = m) as [-> ->] by (by destruct first; simplify_eq).
    split_and!; [done..|]. intros r e' He' Heq. by destruct (Hown _ _ He' Heq).
Qed.

Lemma kinv_remove now first k x b m m' : kinv m → ctls m !! k = Some x → saw first k (k_c x) m →
  gate_free (c_runID (k_c x)) m → Remove now first k (k_c x) m = (b, m') →
  m_closed m = true ∨ serving x = false ∧ waiting x = false →
  k ∈ to_remove m ∪ to_close m ∨ state_of x ≠ controlStateRunning →
  kinv m' ∧ ctls m' = ctls m ∧ to_remove m' = to_remove m ∧ to_close m' = to_close m
  ∧ m_closed m' = m_closed m ∧ (∀ r e, ctlsByRunID m' !! r = Some e → e_ctl e ≠ k).
Proof.
  intros Hi Hk Hsaw Hg HR Hc Hrun.
  destruct (Remove_cases _ _ _ _ _ _ _ Hi Hk Hsaw HR) as [(-> & -> & Hno)|(-> & e & He & Hek & ->)];
    [by split_and!|].
  split_and!; try done.
  - apply (kinv_delete _ _ e); try done; rewrite Hek.
    + destruct Hc as [?|?]; [by left|right]. intros y Hy. by simplify_eq.
    + destruct Hrun as [?|?]; [by left|right]. intros y Hy. by simplify_eq.
  - simpl. intros r e' [Hne He']%lookup_delete_Some Heq.
    destruct (ki_entry _ Hi _ _ He') as (y & Hy & Hr & _). rewrite Heq in Hy. simplify_eq.
Qed.

Lemma kinv_todo m tr tc : kinv m → (∀ k, k ∈ tr ∪ tc → k ∈ to_remove m ∪ to_close m) →
  (∀ r e, ctlsByRunID m !! r = Some e → e_ctl e ∉ tc ∧ (m_closed m = true → e_ctl e ∈ tr)) →
  (∀ k x, ctls m !! k = Some x → state_of x = controlStateRunning → k ∈ to_remove m ∪ to_close m →
    k ∈ tr ∪ tc) →
  kinv (set_todo tr tc m).
Proof.
  intros [] Hsub Hent Hrun. split; simpl; try done.
  - intros r e He. destruct (ki_entry0 _ _ He) as (x & ? & ? & ? & ? & ? & ?). exists x.
    destruct (Hent _ _ He). by split_and!.
  - intros r e Hc He. by apply (Hent r).
  - intros k x Hk Hr. destruct (ki_running0 _ _ Hk Hr); eauto.
  - intros k Hk. by apply ki_todo0, Hsub.
Qed.

Lemma kinv_shutdown m : kinv m → kinv (cm_Close m).
Proof.
  intros Hi. pose proof Hi as [].
  assert (Hin : ∀ k, k ∈ (list_to_set (e_ctl <$> (map_to_list (ctlsByRunID m)).*2) : gset nat) ↔
    ∃ r e, ctlsByRunID m !! r = Some e ∧ e_ctl e = k).
  { intros k. rewrite elem_of_list_to_set, list_elem_of_fmap. split.
    - intros (e & -> & ((r & e') & -> & Hr)%list_elem_of_fmap).
      apply elem_of_map_to_list in Hr. eauto.
    - intros (r & e & He & <-). exists e. split; [done|]. apply list_elem_of_fmap. exists (r, e).
      split; [done|]. by apply elem_of_map_to_list. }
  split; simpl; try done.
  - intros k x Hk Hs. pose proof (ki_serving0 _ _ Hk Hs) as H. by case_match.
  - intros r e _ He. apply elem_of_union_r, Hin. eauto.
  - intros k x Hk Hr. destruct (ki_running0 _ _ Hk Hr); [left; set_solver|by right].
  - intros k Hk. split; [done|].
    assert (k ∈ to_remove m ∪ to_close m ∨ ∃ r e, ctlsByRunID m !! r = Some e ∧ e_ctl e = k)
      as [H|(r & e & He & <-)].
    { rewrite <-Hin. revert Hk. clear. rewrite !elem_of_union. tauto. }
    + by apply ki_todo0.
    + destruct (ki_entry0 _ _ He) as (x & ? & _ & _ & [[? _] _] & _). eauto.
Qed.

(** ** Lemmas: creation, [Add], the start of the worker *)
Lemma kinv_new m k c : kinv m → ctls m !! k = None → c_state c = controlStateCreated →
  c_done c = false → c_workOpen c = true → c_workConnCh c = [] → 0 < c_cap c →
  kinv (put k (mkCtl c LNew WNone) m).
Proof.
  intros Hi Hk Hs Hd Ho Hq Hcap. pose proof Hi as [].
  assert (Hne : ∀ k' y, ctls m !! k' = Some y → k' ≠ k) by (intros k' y ? ->; congruence).
  assert (Hl : ∀ k' y, <[k := mkCtl c LNew WNone]> (ctls m) !! k' = Some y →
    (k' = k ∧ y = mkCtl c LNew WNone) ∨ (k' ≠ k ∧ ctls m !! k' = Some y)).
  { intros k' y. rewrite lookup_insert_Some. naive_solver. }
  split; simpl; try done.
  - intros k' y [[-> ->]|[_ H]]%Hl; [|by eapply ki_ctl0].
    split; unfold state_of; simpl; rewrite ?Hs, ?Hd, ?Hq; try done;
      [intuition congruence|split; [simpl; lia|done]|by left].
  - intros r e He. destruct (ki_entry0 _ _ He) as (y & Hy & ?). exists y.
    rewrite lookup_insert_ne; [done|]. intros E. by destruct (Hne _ _ Hy).
  - intros k' y [[-> ->]|[_ H]]%Hl Hw; [done|by eapply ki_held0].
  - intros k' y o [[-> ->]|[_ H]]%Hl Hw; [done|].
    destruct (ki_old0 _ _ _ H Hw) as (z & Hz & ?). exists z.
    rewrite lookup_insert_ne; [done|]. intros E. by destruct (Hne _ _ Hz).
  - intros k' y [[-> ->]|[_ H]]%Hl Hw; [done|]. specialize (ki_serving0 _ _ H Hw).
    case_match; [|done]. destruct ki_serving0 as [?|(z & Hz & ?)]; [by left|right]. exists z.
    rewrite lookup_insert_ne; [done|]. intros E. by destruct (Hne _ _ Hz).
  - intros k1 y1 k2 y2 [[-> ->]|[_ H1]]%Hl [[-> ->]|[_ H2]]%Hl; try done. eauto.
  - intros k' y [[-> ->]|[_ H]]%Hl Hr; [unfold state_of in Hr; simpl in Hr; congruence|].
    by eapply ki_running0.
  - intros k' Hk'. destruct (ki_todo0 _ Hk') as (? & y & Hy & ?). split; [done|]. exists y.
    rewrite lookup_insert_ne; [done|]. intros E. by destruct (Hne _ _ Hy).
Qed.

(** The fields a replacement leaves alone, and the state and barrier it leaves. *)
Lemma markReplaced_facts k c : let c' := (markReplaced k c).2 in
  c_workOpen c' = c_workOpen c ∧ c_workConnCh c' = c_workConnCh c ∧ c_cap c' = c_cap c
  ∧ c_activated c' = c_activated c ∧ c_runID c' = c_runID c
  ∧ c_controlID c' = c_controlID c ∧ c_handoffBarrier c' = c_handoffBarrier c
  ∧ (3 ≤ rank (c_state c'))%nat ∧ (rank (c_state c) ≤ rank (c_state c'))%nat.
Proof. unfold markReplaced, finishLocked. destruct (c_state c) eqn:E; simpl; rewrite ?E; simpl; split_and!; (done || lia). Qed.

Lemma markReplaced_ok k x : ctl_ok x → k_l x ≠ LWriting → k_l x ≠ LNew →
  ctl_ok (mkCtl (markReplaced k (k_c x)).2 (k_l x) (k_w x)).
Proof.
  intros Hx Hw Hn. destruct x as [c l0 w]. destruct Hx. unfold state_of in *. simpl in *.
  unfold markReplaced, finishLocked.
  destruct (c_state c) eqn:Hs; split; unfold state_of; simpl in *; rewrite ?Hs; try naive_solver.
Qed.

(** [Add] over an old entry: the old control changes, the new one is entered. *)
Lemma kinv_replace m k c e x id : kinv m → ctls m !! k = Some (mkCtl c LNew WNone) →
  m_closed m = false → ctlsByRunID m !! c_runID c = Some e → ctls m !! e_ctl e = Some x →
  gate_free (c_runID c) m → ∀ c1, c_runID c1 = c_runID c → c_state c1 = controlStatePending →
  c_controlID c1 = id → c_done c1 = c_done c → c_workOpen c1 = c_workOpen c →
  c_workConnCh c1 = c_workConnCh c → c_cap c1 = c_cap c →
  c_handoffBarrier c1 = (markReplaced (e_ctl e) (k_c x)).1 → ∀ on cid,
  kinv (mkManager
    (<[k := mkCtl c1 (LReplacing (e_ctl e)) WNone]>
       (<[e_ctl e := mkCtl (markReplaced (e_ctl e) (k_c x)).2 (k_l x) (k_w x)]> (ctls m)))
    (<[c_runID c := mkEntry k id (e_runMu e) on cid]> (ctlsByRunID m))
    (m_registry m) (m_closed m) id (next_mu m) (held m) (to_remove m) (to_close m)).
Proof.
  intros Hi Hk Hcl He Hx Hg c1 Hr1 Hst Hid Hd Ho Hq Hcap Hb on cid. pose proof Hi as [].
  set (oc := (markReplaced (e_ctl e) (k_c x)).2). set (o := e_ctl e) in *.
  destruct (markReplaced_facts o (k_c x)) as (F1 & F2 & F3 & F4 & F5 & F6 & F7 & F8 & F9).
  destruct (ki_entry0 _ _ He) as (x' & Hx' & Hxr & Hxid & [[Hxn Hxf] Hxp] & Hxc & Hmu).
  fold o in Hx'. rewrite Hx in Hx'. injection Hx' as <-.
  assert (Hxw : k_l x ≠ LWriting).
  { intros Hw. destruct (ki_held0 _ _ Hx Hw) as (e' & He' & _ & Hh). rewrite Hxr, He in He'. simplify_eq.
    by destruct (Hg _ He). }
  assert (Hok : o ≠ k) by (intros ->; simplify_eq; done).
  pose proof (ki_ctl0 _ _ Hk) as Hkok. pose proof (ki_ctl0 _ _ Hx) as Hxok.
  set (new := mkCtl c1 (LReplacing o) WNone). set (old := mkCtl oc (k_l x) (k_w x)).
  assert (Hl : ∀ k' y, <[k := new]> (<[o := old]> (ctls m)) !! k' = Some y →
    (k' = k ∧ y = new) ∨ (k' = o ∧ y = old) ∨ (k' ≠ k ∧ k' ≠ o ∧ ctls m !! k' = Some y)).
  { intros k' y [[<- <-]|[Hn1 [[<- <-]|[Hn2 Hy]]%lookup_insert_Some]]%lookup_insert_Some; auto 10. }
  assert (Hold : ∀ k' y, <[k := new]> (<[o := old]> (ctls m)) !! k' = Some y → y ≠ new ∨ k' ≠ k →
    ∃ z, ctls m !! k' = Some z ∧ k_l y = k_l z ∧ k_w y = k_w z ∧ c_runID (k_c y) = c_runID (k_c z)
      ∧ (rank (state_of z) ≤ rank (state_of y))%nat).
  { intros k' y [[-> ->]|[[-> ->]|(? & ? & ?)]]%Hl Hne; [naive_solver| |by exists y].
    exists x. by split_and!. }
  assert (Hlo : ∀ k' z, ctls m !! k' = Some z → k_l z ≠ LNew → ∃ y,
    <[k := new]> (<[o := old]> (ctls m)) !! k' = Some y ∧ k_l y = k_l z ∧ k_w y = k_w z
    ∧ (rank (state_of z) ≤ rank (state_of y))%nat ∧ (k' ≠ o → y = z)).
  { intros k' z Hz Hn. rewrite lookup_insert_ne by (intros <-; simplify_eq; done).
    destruct (decide (k' = o)) as [->|Hne].
    - exists old. rewrite lookup_insert_eq. simplify_eq. by split_and!.
    - exists z. rewrite lookup_insert_ne by done. by split_and!. }
  assert (Hserv : ∀ y, serving y = true → y ≠ new) by (by intros ? ? ->).
  split; simpl.
  - intros k' y [[-> ->]|[[-> ->]|(? & ? & H)]]%Hl; [| |by eapply ki_ctl0].
    + destruct Hkok as [? ? ? ? ? ? ? Hnew]. specialize (Hnew eq_refl).
      split; unfold state_of in *; simpl in *; rewrite ?Hst, ?Hd, ?Ho, ?Hq, ?Hcap; try done;
        [by rewrite co_done0, Hnew|intuition congruence].
    + by apply markReplaced_ok.
  - intros r e' [[<- <-]|[Hne He']]%lookup_insert_Some.
    + exists new. simpl. rewrite lookup_insert_eq. split_and!; try done.
      intros Hin. destruct (ki_todo0 k ltac:(set_solver)) as (? & _). congruence.
    + destruct (ki_entry0 _ _ He') as (y & Hy & Hyr & Hyid & Hyok & Hyc & Hymu). exists y.
      destruct (Hlo _ _ Hy (proj1 (eo_login _ Hyok))) as (y' & Hy' & _ & _ & _ & Heq).
      rewrite Heq in Hy'; [by split_and!|]. intros Heo. apply Hne. rewrite Heo in Hy. simplify_eq; congruence.
  - intros r1 e1 r2 e2 [[<- <-]|[Hn1 H1]]%lookup_insert_Some [[<- <-]|[Hn2 H2]]%lookup_insert_Some; simpl; eauto.
  - intros k' y Hy Hw. destruct (Hold _ _ Hy) as (z & Hz & Hzl & _ & Hzr & _); [left; by intros ->|].
    rewrite Hzr. destruct (ki_held0 _ _ Hz ltac:(congruence)) as (e' & He' & Hek & Hh). exists e'.
    rewrite lookup_insert_ne; [done|]. intros Heq. rewrite <-Heq in He'.
    by destruct (Hg _ He').
  - intros k' y o' Hy Hyl.
    assert (∃ z, ctls m !! o' = Some z ∧ (3 ≤ rank (state_of z))%nat ∧ o' ≠ k' ∨ k' = k ∧ o' = o)
      as (z & [(Hz & Hzr & Hne)|[-> ->]]).
    { apply Hl in Hy as [[-> ->]|[[-> ->]|(? & ? & H)]].
      - exists x. right. simpl in Hyl. by simplify_eq.
      - destruct (ki_old0 _ _ _ Hx Hyl) as (z & ?). exists z. by left.
      - destruct (ki_old0 _ _ _ H Hyl) as (z & ?). exists z. by left. }
    + assert (Hn : k_l z ≠ LNew).
      { intros Hn. apply (co_new _ (ki_ctl0 _ _ Hz)) in Hn. unfold state_of in *. rewrite Hn in Hzr. simpl in Hzr. lia. }
      destruct (Hlo _ _ Hz Hn) as (z' & Hz' & _ & _ & Hr' & _). exists z'. split_and!; [done|lia|done].
    + exists old. rewrite lookup_insert_ne by done. rewrite lookup_insert_eq. split_and!; [done|done|done].
  - intros k' y Hy Hs. destruct (Hold _ _ Hy (or_introl (Hserv _ Hs))) as (z & Hz & Hzl & Hzw & Hzr & _).
    assert (Hzs : serving z = true) by (unfold serving in *; by rewrite <-Hzw).
    pose proof (ki_serving0 _ _ Hz Hzs) as H. rewrite Hzr.
    destruct (decide (c_runID (k_c z) = c_runID c)) as [Heq|Hne].
    + rewrite Heq, lookup_insert_eq. right. exists new. simpl. rewrite lookup_insert_eq.
      split_and!; [done..|]. rewrite Hb. rewrite Heq, He in H. fold o in H.
      destruct H as [<-|(u & Hu & Huw & Hub)].
      * rewrite Hx in Hz. injection Hz as <-. unfold markReplaced.
        destruct (ki_ctl0 _ _ Hx) as [_ _ Hrun Hcls _ _ _ _ _ _ _ _]. unfold serving, state_of in *.
        destruct (k_w x); try done; [destruct Hrun as [-> | ->]|rewrite Hcls..]; auto.
      * rewrite Hx in Hu. injection Hu as <-.
        assert (Hwn : k_w x = WNone) by (apply (co_login _ Hxok); intros Hdl; unfold waiting in Huw; by rewrite Hdl in Huw).
        apply Hxp in Hwn. unfold state_of in Hwn. unfold markReplaced. by rewrite Hwn.
    + rewrite lookup_insert_ne by done. destruct (ctlsByRunID m !! c_runID (k_c z)) as [e'|] eqn:He'; [|done].
      destruct H as [?|(u & Hu & Huw & Hub)]; [by left|right].
      assert (Hun : k_l u ≠ LNew) by (intros E; unfold waiting in Huw; by rewrite E in Huw).
      destruct (Hlo _ _ Hu Hun) as (u' & Hu' & Hul & Huw' & _ & Heq).
      destruct (decide (e_ctl e' = o)) as [Ho'|Hno].
      * exfalso. destruct (ki_entry0 _ _ He') as (v & Hv & Hvr & _). rewrite Ho', Hx in Hv. simplify_eq; congruence.
      * rewrite (Heq Hno) in Hu'. by exists u.
  - intros k1 y1 k2 y2 H1 H2 Hs1 Hs2 Heq.
    destruct (Hold _ _ H1 (or_introl (Hserv _ Hs1))) as (z1 & Hz1 & _ & Hw1 & Hr1' & _).
    destruct (Hold _ _ H2 (or_introl (Hserv _ Hs2))) as (z2 & Hz2 & _ & Hw2 & Hr2' & _).
    eapply ki_unique0; [done|done|..]; unfold serving in *; rewrite <-?Hw1, <-?Hw2; try done. congruence.
  - intros r e' Hc. congruence.
  - intros k' y Hy Hr. apply Hl in Hy as [[-> ->]|[[-> ->]|(? & Hno & H)]].
    + unfold state_of in Hr. simpl in Hr. congruence.
    + unfold state_of in Hr. simpl in Hr. fold oc in F8. rewrite Hr in F8. simpl in F8. lia.
    + destruct (ki_running0 _ _ H Hr) as [?|(e' & He' & Hek)]; [by left|right]. exists e'.
      rewrite lookup_insert_ne; [done|]. intros Heq. rewrite <-Heq, He in He'. simplify_eq.
  - intros k' Hk'. destruct (ki_todo0 _ Hk') as (? & _). congruence.
Qed.

Lemma kinv_fresh m k c id : kinv m → ctls m !! k = Some (mkCtl c LNew WNone) →
  m_closed m = false → ctlsByRunID m !! c_runID c = None → ∀ c1, c_runID c1 = c_runID c →
  c_state c1 = controlStatePending → c_controlID c1 = id → c_done c1 = c_done c →
  c_workOpen c1 = c_workOpen c → c_workConnCh c1 = c_workConnCh c → c_cap c1 = c_cap c →
  kinv (mkManager (<[k := mkCtl c1 LWaiting WNone]> (ctls m))
    (<[c_runID c := mkEntry k id (next_mu m) false 0]> (ctlsByRunID m))
    (m_registry m) (m_closed m) id (S (next_mu m)) (held m) (to_remove m) (to_close m)).
Proof.
  intros Hi Hk Hcl He c1 Hr1 Hst Hid Hd Ho Hq Hcap.
  pose proof Hi as []. pose proof (ki_ctl0 _ _ Hk) as Hkok.
  set (new := mkCtl c1 LWaiting WNone).
  assert (Hl : ∀ k' y, <[k := new]> (ctls m) !! k' = Some y →
    (k' = k ∧ y = new) ∨ (k' ≠ k ∧ ctls m !! k' = Some y)).
  { intros k' y [[<- <-]|[? ?]]%lookup_insert_Some; auto. }
  assert (Hlo : ∀ k' z, ctls m !! k' = Some z → k_l z ≠ LNew → <[k := new]> (ctls m) !! k' = Some z).
  { intros k' z Hz Hn. rewrite lookup_insert_ne; [done|]. intros <-. by simplify_eq. }
  assert (Hne : ∀ k' z, ctls m !! k' = Some z → serving z = true → c_runID (k_c z) ≠ c_runID c).
  { intros k' z Hz Hs Heq. pose proof (ki_serving0 _ _ Hz Hs) as H. rewrite Heq, He in H. congruence. }
  split; simpl.
  - intros k' y [[-> ->]|[_ H]]%Hl; [|by eapply ki_ctl0].
    destruct Hkok as [? ? ? ? ? ? ? Hnew]. specialize (Hnew eq_refl).
    split; unfold state_of in *; simpl in *; rewrite ?Hst, ?Hd, ?Ho, ?Hq, ?Hcap; try done;
      [by rewrite co_done0, Hnew|intuition congruence].
  - intros r e' [[<- <-]|[Hn He']]%lookup_insert_Some.
    + exists new. simpl. rewrite lookup_insert_eq. split_and!; try done; [|lia].
      intros Hin. destruct (ki_todo0 k ltac:(set_solver)) as (? & _). congruence.
    + destruct (ki_entry0 _ _ He') as (y & Hy & Hyr & Hyid & Hyok & Hyc & Hymu). exists y.
      rewrite (Hlo _ _ Hy (proj1 (eo_login _ Hyok))). split_and!; try done. lia.
  - intros r1 e1 r2 e2 [[<- <-]|[Hn1 H1]]%lookup_insert_Some [[<- <-]|[Hn2 H2]]%lookup_insert_Some;
      simpl; [done| | |eauto].
    + destruct (ki_entry0 _ _ H2) as (_ & _ & _ & _ & _ & _ & ?). lia.
    + destruct (ki_entry0 _ _ H1) as (_ & _ & _ & _ & _ & _ & ?). lia.
  - intros k' y [[-> ->]|[_ H]]%Hl Hw; [done|]. destruct (ki_held0 _ _ H Hw) as (e' & He' & ? & ?).
    exists e'. rewrite lookup_insert_ne; [done|]. intros Heq. rewrite Heq in He. congruence.
  - intros k' y o [[-> ->]|[_ H]]%Hl Hw; [done|]. destruct (ki_old0 _ _ _ H Hw) as (z & Hz & Hzr & ?).
    exists z. rewrite (Hlo _ _ Hz); [done|]. intros E. apply (co_new _ (ki_ctl0 _ _ Hz)) in E.
    unfold state_of in *. rewrite E in Hzr. simpl in Hzr. lia.
  - intros k' y [[-> ->]|[_ H]]%Hl Hs; [done|]. pose proof (Hne _ _ H Hs).
    rewrite lookup_insert_ne by done. specialize (ki_serving0 _ _ H Hs).
    case_match; [|done]. destruct ki_serving0 as [?|(z & Hz & Hzw & ?)]; [by left|right]. exists z.
    rewrite (Hlo _ _ Hz); [done|]. intros E. unfold waiting in Hzw. by rewrite E in Hzw.
  - intros k1 y1 k2 y2 [[-> ->]|[_ H1]]%Hl [[-> ->]|[_ H2]]%Hl; try done. eauto.
  - intros r e' Hc. congruence.
  - intros k' y [[-> ->]|[_ H]]%Hl Hr; [unfold state_of in Hr; simpl in Hr; congruence|].
    destruct (ki_running0 _ _ H Hr) as [?|(e' & He' & Hek)]; [by left|right]. exists e'.
    rewrite lookup_insert_ne; [done|]. intros Heq. rewrite Heq in He. congruence.
  - intros k' Hk'. destruct (ki_todo0 _ Hk') as (? & _). congruence.
Qed.

Lemma kinv_add m k c r m' : kinv m → ctls m !! k = Some (mkCtl c LNew WNone) →
  gate_free (c_runID c) m → Add k c m = (r, m') → kinv (after_add r k c m').
Proof.
  intros Hi Hk Hg HA. pose proof (ki_ctl _ Hi _ _ Hk) as Hok.
  assert (Hst : c_state c = controlStateCreated) by exact (co_new _ Hok eq_refl).
  unfold Add in HA. destruct (m_closed m) eqn:Hcl.
  { simplify_eq. simpl. eapply (kinv_put _ _ (mkCtl c LNew WNone)); [done|done|].
    destruct Hok. split; unfold state_of in *; simpl in *; try done.
    - split; unfold state_of; simpl; try done. by right; left.
    - intros e He Hek [[? _] _]. done. }
  unfold Control_admit in HA. rewrite decide_True in HA by done.
  destruct (ctlsByRunID m !! c_runID c) as [e|] eqn:He.
  - destruct (ki_entry _ Hi _ _ He) as (x & Hx & _). rewrite Hx in HA.
    set (c1 := mkControl _ _ _ _ _ _ _ _ _ _ _ _ _ _) in HA.
    pose proof (kinv_replace _ _ _ _ _ ((nextControlID m + 1) mod MaxControlID) Hi Hk Hcl He Hx Hg
      (setHandoffBarrier (markReplaced (e_ctl e) (k_c x)).1 c1) eq_refl eq_refl eq_refl eq_refl eq_refl
      eq_refl eq_refl eq_refl (registryOnline e) (registryControlID e)) as H.
    rewrite Hcl in H. destruct (markReplaced (e_ctl e) (k_c x)) as [b oc]. simplify_eq. exact H.
  - set (c1 := mkControl _ _ _ _ _ _ _ _ _ _ _ _ _ _) in HA.
    pose proof (kinv_fresh _ _ _ ((nextControlID m + 1) mod MaxControlID) Hi Hk Hcl He c1 eq_refl
      eq_refl eq_refl eq_refl eq_refl eq_refl eq_refl) as H.
    rewrite Hcl in H. simplify_eq. exact H.
Qed.

Lemma kinv_replaced m k x o y : kinv m → ctls m !! k = Some x → k_l x = LReplacing o →
  ctls m !! o = Some y → k_l y ≠ LWriting →
  kinv (put k (phase LWaiting x) (put o (mkCtl (Replaced o (k_c y)) (k_l y) (k_w y)) m)).
Proof.
  intros Hi Hk Hl Hy Hw. destruct (ki_old _ Hi _ _ _ Hk Hl) as (y' & Hy' & Hrank & Hne).
  rewrite Hy in Hy'. injection Hy' as <-.
  assert (Hr : Replaced o (k_c y) = interruptReadAndClose (k_c y)).
  { unfold Replaced, markReplaced. unfold state_of in Hrank. destruct (c_state (k_c y)); simpl in *; done || lia. }
  rewrite Hr.
  assert (Hi' : kinv (put o (mkCtl (interruptReadAndClose (k_c y)) (k_l y) (k_w y)) m)).
  { apply (kinv_worker _ _ y); simpl; try done.
    - destruct (ki_ctl _ Hi _ _ Hy). split; unfold state_of in *; simpl in *; try done.
    - intros [? ?]. by split. }
  assert (Hk' : ctls (put o (mkCtl (interruptReadAndClose (k_c y)) (k_l y) (k_w y)) m) !! k = Some x)
    by (simpl; by rewrite lookup_insert_ne).
  apply kinv_phase; try done; try (by rewrite Hl).
  - intros Hs. destruct (co_created _ (ki_ctl _ Hi _ _ Hk) Hs) as [?|[?|?]]; congruence.
  - by left.
Qed.

Lemma alter_put l k m x : ctls m !! k = Some x → set_ctls (alter (phase l) k) m = put k (phase l x) m.
Proof. intros Hk. unfold put, set_ctls. f_equal. apply map_eq. intros i.
  destruct (decide (i = k)) as [->|].
  - by rewrite lookup_alter_eq, lookup_insert_eq, Hk.
  - by rewrite lookup_alter_ne, lookup_insert_ne by done.
Qed.

Lemma kinv_activate now first k x a r m m' : kinv m → ctls m !! k = Some x → k_l x = LReady →
  Activate now first k x m = (a, r, m') → kinv (after_activate k a r m').
Proof.
  intros Hi Hk Hl HA. pose proof (ki_ctl _ Hi _ _ Hk) as Hok.
  assert (Hphase : ∀ m1 l x1, kinv m1 → ctls m1 !! k = Some x1 → k_l x1 = LReady →
    l = LLoggedIn ∨ l = LFailRemove → kinv (set_ctls (alter (phase l) k) m1)).
  { intros m1 l x1 Hi1 Hk1 Hl1 Hor. rewrite (alter_put _ _ _ x1) by done.
    apply kinv_phase; try done; rewrite ?Hl1; try done; try (by destruct Hor as [-> | ->]).
    - intros Hs. destruct (co_created _ (ki_ctl _ Hi1 _ _ Hk1) Hs) as [?|[?|?]]; congruence.
    - unfold waiting. by rewrite Hl1. }
  assert (Hsame : m' = m → kinv (after_activate k a r m')).
  { intros ->. eapply Hphase; [done|done|done|]. destruct r; [destruct a|]; auto. }
  unfold Activate in HA. destruct (lockCurrentRun _ _ _ _) as [e|] eqn:Hlock; [|simplify_eq; by apply Hsame].
  destruct (is_current k (k_c x) e) eqn:Hcur; simpl in HA; [|simplify_eq; by apply Hsame].
  destruct (decide (c_state (k_c x) ≠ controlStatePending)); [simplify_eq; by apply Hsame|].
  destruct (c_activated (k_c x)); [simplify_eq; by apply Hsame|].
  destruct (RegisterWithControlID _ _ _) as [[key [|]] cr]; simplify_eq.
  - eapply Hphase; [by apply kinv_registry|done|done|auto].
  - assert (He : ctlsByRunID m !! c_runID (k_c x) = Some e).
    { unfold lockCurrentRun, read_entry in Hlock. destruct (m_closed m && _); [by destruct first|].
      destruct first; [|done]. destruct (ctlsByRunID m !! _); [|done]. by case_decide; simplify_eq. }
    eapply (Hphase _ _ (mkCtl (set_activated (k_c x)) (k_l x) (k_w x)));
      [|simpl; apply lookup_insert_eq|done|auto].
    pose proof (kinv_flags _ _ _ true (e_id e) cr Hi He) as Hf.
    eapply (kinv_worker _ k x) in Hf; [exact Hf|done|..]; try done.
    + destruct Hok. split; unfold state_of in *; simpl in *; try done. naive_solver.
    + intros [? ?]. by split.
Qed.

Lemma begin_current first k x m g : completeLogin_begin first k x m = Some g →
  ∃ e, ctlsByRunID m !! c_runID (k_c x) = Some e ∧ e_ctl e = k ∧ e_runMu e = g
  ∧ c_state (k_c x) = controlStatePending ∧ c_activated (k_c x) = true.
Proof.
  unfold completeLogin_begin, lockCurrentRun, read_entry, is_current.
  destruct first as [e0|]; [|done]. destruct (m_closed m && _); [done|].
  destruct (ctlsByRunID m !! _) as [e|]; [|done]. case_decide; [|done].
  destruct (c_activated _); rewrite ?andb_false_r; [|done]. rewrite andb_true_r.
  repeat case_bool_decide; simpl; intros; simplify_eq. eauto 10.
Qed.

Lemma kinv_login_begin first k x g m : kinv m → ctls m !! k = Some x → k_l x = LLoggedIn →
  completeLogin_begin first k x m = Some g →
  kinv (hold ({[g]} ∪ held m) (put k (phase LWriting x) m)).
Proof.
  intros Hi Hk Hl Hb. destruct (begin_current _ _ _ _ _ Hb) as (e & He & Hek & Hg & Hs & Ha).
  pose proof (kinv_hold m ({[g]} ∪ held m) Hi ltac:(set_solver)) as Hi'.
  change (kinv (put k (phase LWriting x) (hold ({[g]} ∪ held m) m))).
  eapply kinv_put; [done|done|]. pose proof (ki_ctl _ Hi _ _ Hk) as Hok. split; try done.
  - destruct Hok. split; unfold state_of in *; simpl in *; try done;
      [intros; congruence|intros _; apply co_login0; congruence|..]; auto.
  - unfold waiting. by rewrite Hl.
  - intros _. right. exists e. simpl. set_solver.
Qed.

Lemma kinv_login_end k x e write m : kinv m → ctls m !! k = Some x → k_l x = LWriting →
  ctlsByRunID m !! c_runID (k_c x) = Some e →
  kinv (hold (held m ∖ {[e_runMu e]}) (put k (after_login k x write) m)).
Proof.
  intros Hi Hk Hl He. pose proof (ki_ctl _ Hi _ _ Hk) as Hok.
  destruct (ki_held _ Hi _ _ Hk Hl) as (e' & He' & Hek & _). rewrite He in He'. injection He' as <-.
  destruct (co_writing _ Hok Hl) as [Hs Ha]. unfold state_of in Hs.
  assert (Hwn : k_w x = WNone) by (apply (co_login _ Hok); congruence).
  assert (Hrel : ∀ x', k_l x' ≠ LWriting → kinv (put k x' m) →
    kinv (hold (held m ∖ {[e_runMu e]}) (put k x' m))).
  { intros x' Hx' Hp. apply (kinv_release (put k x' m) (c_runID (k_c x)) e x'); try done.
    simpl. rewrite Hek. apply lookup_insert_eq. }
  unfold after_login, completeLogin_end, startLocked. rewrite decide_True by done.
  destruct write as [[]|err]; apply Hrel; try done.
  2: { rewrite Hwn. rewrite <-Hwn. apply kinv_phase; try done; rewrite ?Hl; try done; auto.
       unfold waiting. by rewrite Hl. }
  clear Hrel. set (x' := mkCtl _ LDone WRun).
  assert (Hl' : ∀ k' y, <[k := x']> (ctls m) !! k' = Some y →
    (k' = k ∧ y = x') ∨ (k' ≠ k ∧ ctls m !! k' = Some y)).
  { intros k' y [[<- <-]|[? ?]]%lookup_insert_Some; auto. }
  assert (Hno : ∀ k' y, ctls m !! k' = Some y → serving y = true → c_runID (k_c y) = c_runID (k_c x) → False).
  { intros k' y Hy Hsv Heq. pose proof (ki_serving _ Hi _ _ Hy Hsv) as H. rewrite Heq, He in H.
    destruct H as [Heq'|(z & Hz & Hzw & _)].
    - rewrite Hek in Heq'. simplify_eq. unfold serving in Hsv. by rewrite Hwn in Hsv.
    - rewrite Hek in Hz. simplify_eq. unfold waiting in Hzw. by rewrite Hl in Hzw. }
  pose proof Hi as []. split; simpl; try done.
  - intros k' y [[-> ->]|[_ H]]%Hl'; [|by eapply ki_ctl0].
    destruct Hok. rewrite Hwn in *.
    split; unfold state_of in *; simpl in *; try done; [|by left|intuition congruence].
    rewrite co_done0. split; congruence.
  - intros r e' H. destruct (ki_entry0 _ _ H) as (y & Hy & Hyr & Hyid & Hyok & ? & ?).
    destruct (decide (e_ctl e' = k)) as [Heq|Hne].
    + exists x'. rewrite Heq in *. simplify_eq. rewrite lookup_insert_eq. by split_and!.
    + exists y. rewrite lookup_insert_ne by done. by split_and!.
  - intros k' y [[-> ->]|[_ H]]%Hl' Hw; [done|by eapply ki_held0].
  - intros k' y o [[-> ->]|[_ H]]%Hl' Hw; [done|]. destruct (ki_old0 _ _ _ H Hw) as (z & Hz & Hzr & ?).
    exists z. rewrite lookup_insert_ne; [done|]. intros <-. simplify_eq. unfold state_of in Hzr.
    rewrite Hs in Hzr. simpl in Hzr. lia.
  - intros k' y [[-> ->]|[Hk' H]]%Hl' Hsv; [simpl; rewrite He; by left|].
    pose proof (ki_serving0 _ _ H Hsv) as Hsrv. case_match eqn:E; [|done].
    destruct Hsrv as [?|(z & Hz & Hzw & Hzb)]; [by left|right]. exists z.
    rewrite lookup_insert_ne; [done|]. intros Heq. rewrite <-Heq in Hz. simplify_eq.
    unfold waiting in Hzw. by rewrite Hl in Hzw.
  - intros k1 y1 k2 y2 [[-> ->]|[? H1]]%Hl' [[-> ->]|[? H2]]%Hl' Hs1 Hs2 Heq; try done; [..|by eauto].
    + by destruct (Hno _ _ H2 Hs2).
    + by destruct (Hno _ _ H1 Hs1).
  - intros k' y [[-> ->]|[_ H]]%Hl' Hr; [|by eapply ki_running0]. right. exists e. done.
  - intros k' Hk'. destruct (ki_todo0 _ Hk') as (? & y & Hy & ?). split; [done|].
    destruct (decide (k' = k)) as [->|]; [exists x'; by rewrite lookup_insert_eq|exists y; by rewrite lookup_insert_ne].
Qed.

Lemma kstep_kinv m m' : kinv m → kstep m m' → kinv m'.
Proof.
  intros Hi Hs. destruct Hs.
  - by apply kinv_new.
  - by eapply kinv_add.
  - by apply kinv_replaced.
  - apply kinv_phase; try done; rewrite ?H0; try done; [|by right].
    intros Hs. destruct (co_created _ (ki_ctl _ Hi _ _ H) Hs) as [?|[?|?]]; congruence.
  - by eapply kinv_activate.
  - by eapply kinv_login_begin.
  - apply kinv_phase; try done; rewrite ?H0; try done; [by left|]. unfold waiting. by rewrite H0.
  - by apply kinv_login_end.
  - pose proof (ki_ctl _ Hi _ _ H) as Hok.
    assert (Hw : k_w x = WNone) by (apply (co_login _ Hok); congruence).
    eapply kinv_remove in H3 as (Hi' & Hc & _ & _ & _ & Hno); try done.
    + apply kinv_phase; try done; rewrite ?Hc, ?H0; try done; [by right|by eauto|].
      unfold waiting. by rewrite H0.
    + right. unfold serving, waiting. by rewrite Hw, H0.
    + right. by apply (co_none _ Hok).
  - apply kinv_close; try done; try (by rewrite H0); [by right|].
    intros e He Hek [[_ Hn] _]. congruence.
  - pose proof (ki_ctl _ Hi _ _ H) as Hok.
    assert (k_l x = LDone) as Hd.
    { destruct (k_l x) eqn:E; try done; exfalso; apply H0, (co_login _ Hok); by rewrite E. }
    apply kinv_close; try done; rewrite ?Hd; auto.
  - by apply kinv_stopped.
  - by apply kinv_drain.
  - assert (Hi1 : kinv (put k (mkCtl (k_c x) (k_l x) WRemoved) m)).
    { apply (kinv_worker _ _ x); simpl; try done; [|by intros [? ?]].
      destruct (ki_ctl _ Hi _ _ H). rewrite H0 in *. split; unfold state_of in *; simpl in *; try done.
      - intros _. apply co_closing0. auto.
      - intros Hl. by apply co_login0 in Hl. }
    set (x1 := mkCtl (k_c x) (k_l x) WRemoved) in *.
    assert (Hx1 : ctls (put k x1 m) !! k = Some x1) by apply lookup_insert_eq.
    assert (HR : ∃ m1, Remove now first k (k_c x1) (put k x1 m) = (b, m1) ∧ m1 = put k x1 m').
    { unfold Remove, lockCurrentRun, read_entry in *. simpl in *. destruct first; [|by simplify_eq; eauto].
      destruct (if m_closed m && _ then _ else _); [|by simplify_eq; eauto].
      case_decide; [|by simplify_eq; eauto]. destruct (negb _); by simplify_eq; eauto. }
    destruct HR as (m1 & HR & ->).
    assert (k_l x = LDone) as Hd.
    { pose proof (ki_ctl _ Hi _ _ H) as Hok. destruct (k_l x) eqn:E; try done; exfalso;
        pose proof (co_login _ Hok ltac:(congruence)); congruence. }
    eapply (kinv_remove now first k x1) in HR as (Hi' & _); try done.
    + right. split; [done|]. unfold waiting. simpl. by rewrite Hd.
    + right. unfold state_of. simpl. intros Hs.
      assert (state_of x = controlStateClosing) as Hcl by (apply (co_closing _ (ki_ctl _ Hi _ _ H)); auto).
      unfold state_of in Hcl. congruence.
  - by apply kinv_finish.
  - pose proof (ki_ctl _ Hi _ _ H) as Hok. unfold RegisterWorkConn in H1.
    destruct (lockCurrentRun _ _ _ _); [|by simplify_eq]. destruct (negb _); [by simplify_eq|].
    destruct (decide _) as [|Hr]; [by simplify_eq|]. apply dec_stable in Hr.
    unfold put_work_conn in H1. destruct (_ <? _) eqn:Hlen; [|by simplify_eq]. simplify_eq. zify_bool.
    apply kinv_queue; [done|done|rewrite length_app; simpl; lia|].
    rewrite (co_open _ Hok). intros Ho.
    assert (k_w x = WRun) as Hw.
    { destruct Hok as [_ _ _ Hc Hf _ _ _ _ _ _ _]. unfold state_of in *. destruct (k_w x); try done.
      - rewrite Hc in Hr by auto. done.
      - rewrite Hc in Hr by auto. done.
      - by rewrite Hf in Hr. }
    by rewrite Hw in Ho.
  - pose proof (ki_ctl _ Hi _ _ H) as Hok. unfold take_work_conn in H0.
    destruct (c_workConnCh (k_c x)) as [|conn q] eqn:Hq.
    + destruct (c_workOpen _); [done|]. simplify_eq. apply (kinv_worker _ _ x); try done.
      * by destruct Hok; split.
      * intros [? ?]. by split.
    + simplify_eq. destruct (co_queue _ Hok) as [Hlen Ho]. rewrite Hq in *.
      apply kinv_queue; [done|done|simpl in Hlen; lia|]. by intros ?%Ho.
  - by apply kinv_ping.
  - by apply kinv_shutdown.
  - assert (m_closed m = true) by (apply (ki_todo _ Hi k); set_solver).
    assert (m_closed m' = true ∧ kinv m' ∧ to_remove m' = to_remove m ∧ to_close m' = to_close m
      ∧ (∀ r e, ctlsByRunID m' !! r = Some e → e_ctl e ≠ k)) as (Hc & Hi' & Htr & Htc & Hno).
    { eapply kinv_remove in H3 as (? & ? & ? & ? & ? & ?); try done; [split_and!; first [done|congruence]|by left|].
      left. set_solver. }
    apply kinv_todo; [done|..].
    + rewrite Htr, Htc. intros k'. rewrite !elem_of_union, elem_of_difference, !elem_of_singleton.
      intros [[? _]|[->|?]]; auto.
    + intros r e He. pose proof (Hno _ _ He). destruct (ki_entry _ Hi' _ _ He) as (y & _ & _ & _ & _ & Hy & _).
      split; [set_solver|]. intros _. apply elem_of_difference. split; [|set_solver].
      by apply (ki_shut _ Hi' r).
    + rewrite Htr, Htc. intros k' y _ _. rewrite !elem_of_union, elem_of_difference, !elem_of_singleton.
      destruct (decide (k' = k)); tauto.
  - assert (Hi' : kinv (put k (mkCtl (Control_Close (k_c x)) (k_l x) (k_w x)) m)).
    { destruct (ki_todo _ Hi k ltac:(set_solver)) as (_ & x' & Hx' & Hn). simplify_eq.
      apply kinv_close; try done; [by left|]. intros e He Hek _ _.
      destruct (ki_entry _ Hi _ _ He) as (_ & _ & _ & _ & _ & Hc & _). congruence. }
    apply (kinv_todo (put k _ m)); [done|..]; simpl.
    + set_solver.
    + intros r e He. split; [|by intros; apply (ki_shut _ Hi r)].
      destruct (ki_entry _ Hi _ _ He) as (_ & _ & _ & _ & _ & Hc & _). set_solver.
    + intros k' y Hy Hr. rewrite !elem_of_union, elem_of_difference, !elem_of_singleton.
      destruct (decide (k' = k)) as [->|]; [|tauto]. rewrite lookup_insert_eq in Hy. simplify_eq.
      unfold state_of in Hr. simpl in Hr. destruct (close_rank (k_c x)) as [_ Hrk].
      change (c_state (Control_Close (k_c x)) = controlStateRunning) in Hr. rewrite Hr in Hrk. simpl in Hrk. lia.
Qed.

Lemma k_reachable_inv m : k_reachable m → kinv m.
Proof.
  intros Hr. assert (Hinit : kinv (NewControlManager NewClientRegistry)).
  { split; simpl; intros; try set_solver. }
  induction Hr; eauto using kstep_kinv.
Qed.

(** ** The registry: every client it shows online has its session's entry *)
Record reg_ok (m : manager) : Prop := mkRegOk {
  ro_inv : reg_inv (m_registry m);
  ro_entry : ∀ key i, clients (m_registry m) !! key = Some i → ci_RunID i ≠ "" →
    ∃ e, ctlsByRunID m !! ci_RunID i = Some e ∧ registryOnline e = true
      ∧ registryControlID e = ci_ControlID i;
}.

(** A step that leaves the registry alone and keeps the flags of every entry. *)
Lemma reg_ok_keep m m' : reg_ok m → m_registry m' = m_registry m →
  (∀ r e, ctlsByRunID m !! r = Some e → ∃ e', ctlsByRunID m' !! r = Some e' ∧
     registryOnline e' = registryOnline e ∧ registryControlID e' = registryControlID e) →
  reg_ok m'.
Proof.
  intros [Hinv He] Hr Hk. split; [by rewrite Hr|]. intros key i Hi Hn. rewrite Hr in Hi.
  destruct (He _ _ Hi Hn) as (e & H1 & H2 & H3). destruct (Hk _ _ H1) as (e' & ? & ? & ?).
  exists e'. split_and!; congruence.
Qed.

Lemma reg_ok_remove now first k c b m m' : reg_ok m → Remove now first k c m = (b, m') → reg_ok m'.
Proof.
  intros [Hinv He] HR. unfold Remove in HR. destruct (lockCurrentRun _ _ _ _) as [e|] eqn:Hlock; [|by simplify_eq].
  destruct (negb _); [by simplify_eq|]. simplify_eq.
  assert (Hcur : ctlsByRunID m !! c_runID c = Some e).
  { unfold lockCurrentRun, read_entry in Hlock. rewrite andb_false_r in Hlock.
    destruct first; [|done]. destruct (ctlsByRunID m !! _); [|done]. by case_decide; simplify_eq. }
  assert (Hstep : ∀ cr, (∀ key i, clients cr !! key = Some i → ci_RunID i ≠ "" →
      clients (m_registry m) !! key = Some i ∧ ci_RunID i ≠ c_runID c) → reg_inv cr →
    reg_ok (mkManager (ctls m) (delete (c_runID c) (ctlsByRunID m)) cr (m_closed m) (nextControlID m)
      (next_mu m) (held m) (to_remove m) (to_close m))).
  { intros cr Hcr Hi. split; [done|]. simpl. intros key i Hk Hn. destruct (Hcr _ _ Hk Hn) as [Hold Hne].
    destruct (He _ _ Hold Hn) as (e' & ? & ? & ?). exists e'. by rewrite lookup_delete_ne. }
  destruct (registryOnline e) eqn:Hon.
  - apply Hstep; [|by apply reg_inv_offline]. intros key i Hk Hn.
    apply offline_online in Hk as [Hk Hno]; [|done|done]. split; [done|]. intros Heq.
    destruct (He _ _ Hk Hn) as (e' & He' & _ & Hid). rewrite Heq, Hcur in He'. simplify_eq.
    by apply Hno.
  - apply Hstep; [|done]. intros key i Hk Hn. split; [done|]. intros Heq.
    destruct (He _ _ Hk Hn) as (e' & He' & Ho & _). rewrite Heq, Hcur in He'. simplify_eq. congruence.
Qed.

Lemma admit_run id c c1 : Control_admit id c = Ok c1 → c_runID c1 = c_runID c.
Proof. unfold Control_admit. case_decide; intros; by simplify_eq. Qed.

Lemma reg_ok_add k c r m m' : reg_ok m → Add k c m = (r, m') → reg_ok m'.
Proof.
  intros Ho HA. unfold Add in HA. destruct (m_closed m); [by simplify_eq|].
  destruct (Control_admit _ c) as [c1|] eqn:Hadm; [|simplify_eq; apply (reg_ok_keep m); try done; by eauto].
  apply admit_run in Hadm. rewrite Hadm in HA.
  destruct (ctlsByRunID m !! c_runID c) as [e|] eqn:He.
  - destruct (ctls m !! e_ctl e) as [x|]; [|by simplify_eq]. destruct (markReplaced _ _). simplify_eq.
    apply (reg_ok_keep m); try done. simpl. intros r' e' He'.
    destruct (decide (r' = c_runID c)) as [->|].
    + rewrite lookup_insert_eq. simplify_eq. eauto.
    + rewrite lookup_insert_ne by done. eauto.
  - simplify_eq. apply (reg_ok_keep m); try done. simpl. intros r' e' He'.
    rewrite lookup_insert_ne; [eauto|]. intros <-. congruence.
Qed.

Lemma reg_ok_activate now first k x a r m m' : reg_ok m → c_runID (k_c x) ≠ "" →
  Activate now first k x m = (a, r, m') → reg_ok m'.
Proof.
  intros Ho Hrun HA. unfold Activate in HA.
  destruct (lockCurrentRun _ _ _ _) as [e|] eqn:Hlock; [|by simplify_eq].
  destruct (negb _); [by simplify_eq|]. destruct (decide _); [by simplify_eq|].
  destruct (c_activated _); [by simplify_eq|].
  destruct (RegisterWithControlID _ _ _) as [[key [|]] cr] eqn:HR; simplify_eq.
  - apply (reg_ok_keep m); try done; [|by eauto]. simpl. unfold RegisterWithControlID in HR.
    case_bool_decide; [done|]. by destruct (match clients _ !! _ with Some i => _ | None => false end); simplify_eq.
  - destruct Ho as [Hinv He]. split; [by eapply reg_inv_register|]. simpl. intros key' i Hk Hn.
    destruct (register_online _ _ _ _ _ _ _ Hinv HR Hrun Hk Hn) as [[-> ->]|[Hne Hold]]; simpl.
    + rewrite lookup_insert_eq. eauto.
    + simpl in Hne. rewrite lookup_insert_ne by done. by eapply He.
Qed.

(** A control with no run id is never activated: the registry ignores it. *)
Lemma reg_ok_activate_any now first k x a r m m' : reg_ok m →
  Activate now first k x m = (a, r, m') → reg_ok m'.
Proof.
  intros Ho HA. destruct (decide (c_runID (k_c x) = "")) as [Hr|Hr]; [|by eapply reg_ok_activate].
  unfold Activate in HA. destruct (lockCurrentRun _ _ _ _) as [e|] eqn:Hlock; [|by simplify_eq].
  destruct (negb _); [by simplify_eq|]. destruct (decide _); [by simplify_eq|].
  destruct (c_activated _); [by simplify_eq|].
  unfold RegisterWithControlID in HA. simpl in HA. rewrite Hr in HA. simpl in HA. simplify_eq.
  destruct Ho as [Hinv He]. split; [done|]. simpl. intros key i Hk Hn.
  destruct (He _ _ Hk Hn) as (e' & ? & ? & ?). exists e'. by rewrite lookup_insert_ne.
Qed.

Lemma kstep_reg_ok m m' : reg_ok m → kstep m m' → reg_ok m'.
Proof.
  intros Ho Hs. destruct Hs;
    try (eapply (reg_ok_keep m); [done|done|]; by eauto).
  - apply reg_ok_add in H1; [|done]. destruct r; [done|]. eapply (reg_ok_keep m'); eauto.
  - apply reg_ok_activate_any in H3; [|done]. eapply (reg_ok_keep m'); eauto.
  - apply reg_ok_remove in H3; [|done]. eapply (reg_ok_keep m'); eauto.
  - apply reg_ok_remove in H3; [|done]. eapply (reg_ok_keep m'); eauto.
  - apply (reg_ok_keep m); [done|..]; unfold RegisterWorkConn in *;
      (destruct (lockCurrentRun _ _ _ _); [|simplify_eq; eauto]; destruct (negb _); [simplify_eq; eauto|];
       destruct (decide _); [simplify_eq; eauto|]; destruct (put_work_conn _ _); simplify_eq; simpl; eauto).
  - apply reg_ok_remove in H3; [|done]. eapply (reg_ok_keep m'); eauto.
Qed.

Lemma k_reachable_reg m : k_reachable m → reg_ok m.
Proof.
  intros Hr. assert (Hinit : reg_ok (NewControlManager NewClientRegistry)).
  { split; simpl; [split; simpl; intros; set_solver|intros; set_solver]. }
  induction Hr; eauto using kstep_reg_ok.
Qed.

(** ** States only go forward *)
Definition forward (m m' : manager) : Prop := ∀ k x, ctls m !! k = Some x → ∃ x',
  ctls m' !! k = Some x' ∧ (rank (state_of x) ≤ rank (state_of x'))%nat
  ∧ c_runID (k_c x') = c_runID (k_c x).

Lemma forward_ctls m m' : ctls m' = ctls m → forward m m'.
Proof. intros Heq k x Hk. rewrite Heq. eauto. Qed.

Lemma forward_put m m' k x x' : ctls m' = <[k := x']> (ctls m) → ctls m !! k = Some x →
  (rank (state_of x) ≤ rank (state_of x'))%nat → c_runID (k_c x') = c_runID (k_c x) → forward m m'.
Proof.
  intros Heq Hk Hr Hid k' y Hy. rewrite Heq. destruct (decide (k' = k)) as [->|].
  - rewrite lookup_insert_eq. simplify_eq. eauto.
  - rewrite lookup_insert_ne by done. eauto.
Qed.

Lemma forward_trans m1 m2 m3 : forward m1 m2 → forward m2 m3 → forward m1 m3.
Proof.
  intros H1 H2 k x Hk. destruct (H1 _ _ Hk) as (y & Hy & ? & ?). destruct (H2 _ _ Hy) as (z & ? & ? & ?).
  exists z. split_and!; [done|lia|congruence].
Qed.

Lemma Remove_ctls now first k c b m m' : Remove now first k c m = (b, m') → ctls m' = ctls m.
Proof. unfold Remove. destruct (lockCurrentRun _ _ _ _); [destruct (negb _)|]; intros; by simplify_eq. Qed.

Lemma finish_rank c : (rank (c_state c) ≤ rank (c_state (finishLocked c)))%nat
  ∧ c_runID (finishLocked c) = c_runID c.
Proof. unfold finishLocked. case_decide; simpl; [done|]. split; [|done]. destruct (c_state c); simpl; lia. Qed.

Lemma add_forward k c r m m' : kinv m → ctls m !! k = Some (mkCtl c LNew WNone) →
  Add k c m = (r, m') → forward m (after_add r k c m').
Proof.
  intros Hi Hk HA. pose proof (co_new _ (ki_ctl _ Hi _ _ Hk) eq_refl) as Hs. unfold state_of in Hs. simpl in Hs.
  unfold Add in HA. destruct (m_closed m).
  { simplify_eq. by eapply forward_put. }
  unfold Control_admit in HA. rewrite decide_True in HA by done.
  set (c1 := mkControl _ _ _ _ _ _ _ _ _ _ _ _ _ _) in HA.
  assert (Hnew : ∀ c2 l m0, ctls m0 !! k = Some (mkCtl c LNew WNone) → c_state c2 = controlStatePending →
    c_runID c2 = c_runID c → ∀ m2, ctls m2 = <[k := mkCtl c2 l WNone]> (ctls m0) → forward m0 m2).
  { intros c2 l m0 H0 H1 H2 m2 H3. eapply forward_put; [done|done| |done].
    unfold state_of. simpl. rewrite H1, Hs. simpl. lia. }
  destruct (ctlsByRunID m !! _) as [e|] eqn:He; [|simplify_eq; by eapply (Hnew c1)].
  destruct (ki_entry _ Hi _ _ He) as (x & Hx & _ & _ & [[Hxn _] _] & _).
  assert (Hne : e_ctl e ≠ k) by (intros Heq; rewrite Heq in Hx; by simplify_eq). rewrite Hx in HA.
  destruct (markReplaced_facts (e_ctl e) (k_c x)) as (_ & _ & _ & _ & Hid & _ & _ & _ & Hr).
  destruct (markReplaced _ _) as [b oc]. simplify_eq. simpl in *.
  eapply (forward_trans _ (put (e_ctl e) (mkCtl oc (k_l x) (k_w x)) m)); [by eapply forward_put|].
  eapply (Hnew (setHandoffBarrier b c1)); try done. simpl. by rewrite lookup_insert_ne.
Qed.

Lemma activate_forward now first k x a r m m' : ctls m !! k = Some x →
  Activate now first k x m = (a, r, m') → forward m (after_activate k a r m').
Proof.
  intros Hk HA.
  assert (Hphase : ∀ l m1, forward m1 (set_ctls (alter (phase l) k) m1)).
  { intros l m1 k' y Hy. simpl. destruct (decide (k' = k)) as [->|].
    - rewrite lookup_alter_eq, Hy. simpl. eauto.
    - rewrite lookup_alter_ne by done. eauto. }
  eapply forward_trans; [|apply Hphase]. unfold Activate in HA.
  destruct (lockCurrentRun _ _ _ _); [|simplify_eq; by apply forward_ctls].
  destruct (negb _); [simplify_eq; by apply forward_ctls|].
  destruct (decide _); [simplify_eq; by apply forward_ctls|].
  destruct (c_activated _); [simplify_eq; by apply forward_ctls|].
  destruct (RegisterWithControlID _ _ _) as [[? [|]] ?]; simplify_eq; [by apply forward_ctls|].
  by eapply forward_put.
Qed.

Lemma kstep_forward m m' : kinv m → kstep m m' → forward m m'.
Proof.
  intros Hi Hs. destruct Hs; try (eapply forward_put; done).
  - intros k' y Hy. simpl. exists y. rewrite lookup_insert_ne; [done|]. intros <-. congruence.
  - by eapply add_forward.
  - destruct (ki_old _ Hi _ _ _ H H0) as (_ & _ & _ & Hne).
    destruct (markReplaced_facts o (k_c y)) as (_ & _ & _ & _ & Hid & _ & _ & _ & Hr).
    eapply (forward_trans _ (put o (mkCtl (Replaced o (k_c y)) (k_l y) (k_w y)) m));
      [eapply forward_put; [done|done|exact Hr|exact Hid]|].
    apply (forward_put _ _ k x (phase LWaiting x)); [done| |done|done]. simpl.
    by rewrite lookup_insert_ne by done.
  - by eapply activate_forward.
  - pose proof (co_writing _ (ki_ctl _ Hi _ _ H) H0) as [Hs Ha]. unfold state_of in Hs.
    eapply forward_put; [done|done|..]; unfold after_login, completeLogin_end, startLocked;
      rewrite decide_True by done; destruct write; try done.
    unfold state_of. simpl. rewrite Hs. simpl. lia.
  - eapply (forward_trans _ m'); [by eapply forward_ctls, Remove_ctls|].
    eapply forward_put; [done|by erewrite Remove_ctls|done|done].
  - destruct (close_rank (k_c x)) as [Hr _], (close_same (k_c x)) as (Hid & _).
    eapply forward_put; [done|done|exact Hr|exact Hid].
  - destruct (close_rank (k_c x)) as [Hr _], (close_same (k_c x)) as (Hid & _).
    eapply forward_put; [done|done|exact Hr|exact Hid].
  - destruct (stopping_same (k_c x)) as (_ & _ & _ & _ & _ & Hid & _ & _ & Hst).
    destruct Hst as [Hst Hrk]; [by apply (co_run _ (ki_ctl _ Hi _ _ H))|].
    eapply forward_put; [done|done| |done]. unfold state_of. cbn [k_c]. by rewrite Hst.
  - eapply (forward_trans _ m'); [by eapply forward_ctls, Remove_ctls|].
    eapply forward_put; [done|by erewrite Remove_ctls|done|done].
  - destruct (finish_rank (k_c x)) as [Hr Hid]. eapply forward_put; [done|done|exact Hr|exact Hid].
  - unfold RegisterWorkConn in H1.
    destruct (lockCurrentRun _ _ _ _); [|simplify_eq; by apply forward_ctls].
    destruct (negb _); [simplify_eq; by apply forward_ctls|].
    destruct (decide _); [simplify_eq; by apply forward_ctls|]. unfold put_work_conn in H1.
    destruct (_ <? _); simplify_eq; [by eapply forward_put|by apply forward_ctls].
  - unfold take_work_conn in H0. destruct (c_workConnCh _); [destruct (c_workOpen _); [done|]|];
      simplify_eq; by eapply forward_put.
  - by apply forward_ctls.
  - apply forward_ctls. simpl. by eapply Remove_ctls.
  - destruct (close_rank (k_c x)) as [Hr _], (close_same (k_c x)) as (Hid & _).
    eapply forward_put; [done|done|exact Hr|exact Hid].
Qed.

(** ** Theorems *)

(** C6. At most one session serves a run id.  In every reachable state, two controls of
    one run id whose workers still have a message loop, a pool or proxies are the same
    control.  While a replaced session is still serving, the current control of its
    run id is pending, in [WaitForHandoff] (or about to call it), and the channel it
    waits for is that session's [doneCh], which is still open; so the new session
    starts only after the old one has closed its proxies and left the manager. *)
Theorem one_serving_session m : k_reachable m →
  (∀ k1 x1 k2 x2, ctls m !! k1 = Some x1 → ctls m !! k2 = Some x2 →
     serving x1 = true → serving x2 = true → c_runID (k_c x1) = c_runID (k_c x2) → k1 = k2)
  ∧ (∀ k x e, ctls m !! k = Some x → serving x = true →
     ctlsByRunID m !! c_runID (k_c x) = Some e → e_ctl e ≠ k →
     ∃ y, ctls m !! e_ctl e = Some y ∧ waiting y = true ∧ state_of y = controlStatePending
       ∧ c_handoffBarrier (k_c y) = Some k ∧ ¬ barrier_done (c_handoffBarrier (k_c y)) m).
Proof.
  intros Hi%k_reachable_inv. split; [exact (ki_unique _ Hi)|]. intros k x e Hk Hs He Hne.
  pose proof (ki_serving _ Hi _ _ Hk Hs) as H. rewrite He in H.
  destruct H as [?|(y & Hy & Hw & Hb)]; [done|]. exists y. split_and!; try done.
  - destruct (ki_entry _ Hi _ _ He) as (y' & Hy' & _ & _ & Hok & _). simplify_eq.
    apply (eo_pending _ Hok), (co_login _ (ki_ctl _ Hi _ _ Hy)). intros Hd. unfold waiting in Hw.
    by rewrite Hd in Hw.
  - rewrite Hb. intros (z & Hz & Hd). simplify_eq.
    pose proof (serving_not_done _ _ _ Hi Hk Hs). congruence.
Qed.

(** The states of a control go one way: from any reachable state on, a control
    keeps its run id and never goes back from running, closing or closed; [doneCh] is
    closed exactly in the state closed, so it is closed once and stays closed. *)
Theorem lifecycle_one_way m m' k x : k_reachable m → rtc kstep m m' → ctls m !! k = Some x →
  ∃ x', ctls m' !! k = Some x' ∧ (rank (state_of x) ≤ rank (state_of x'))%nat
    ∧ c_runID (k_c x') = c_runID (k_c x)
    ∧ (c_done (k_c x') = true ↔ state_of x' = controlStateClosed)
    ∧ (c_done (k_c x) = true → c_done (k_c x') = true).
Proof.
  intros Hi%k_reachable_inv Hr Hk.
  assert (kinv m' ∧ forward m m') as [Hi' Hf].
  { clear Hk. revert Hi. induction Hr as [m|m1 m2 m3 Hs Hr IH]; intros Hi; [by split; [|apply forward_ctls]|].
    destruct IH as [? ?]; [by eapply kstep_kinv|]. split; [done|].
    eapply forward_trans; [by apply kstep_forward|done]. }
  destruct (Hf _ _ Hk) as (x' & Hk' & Hrk & Hid). exists x'.
  pose proof (co_done _ (ki_ctl _ Hi' _ _ Hk')) as Hd'. split_and!; try done.
  intros Hd%(co_done _ (ki_ctl _ Hi _ _ Hk)). apply Hd'. rewrite Hd in Hrk.
  destruct (state_of x'); simpl in Hrk; try lia. done.
Qed.

(** The work connection pool.  In every reachable state the pool of a control
    never holds more than its capacity; the channel of a running control is open, so
    [RegisterWorkConn] never sends on a closed channel; and once the worker has
    drained it the pool is closed and empty for good: no connection is put into a
    pool that nobody will drain. *)
Theorem work_conn_pool m k x : k_reachable m → ctls m !! k = Some x →
  Z.of_nat (length (c_workConnCh (k_c x))) ≤ c_cap (k_c x)
  ∧ (state_of x = controlStateRunning → c_workOpen (k_c x) = true)
  ∧ (c_workOpen (k_c x) = false →
       c_workConnCh (k_c x) = [] ∧ ∀ first cc conn r m', RegisterWorkConn first cc k x conn m = (r, m') →
         m' = m ∧ ∃ e, r = Err e)
  ∧ (c_workOpen (k_c x) = true ↔ k_w x = WNone ∨ k_w x = WRun ∨ k_w x = WStopped).
Proof.
  intros Hi%k_reachable_inv Hk. pose proof (ki_ctl _ Hi _ _ Hk) as Hok.
  assert (Hopen : state_of x = controlStateRunning → c_workOpen (k_c x) = true).
  { rewrite (co_open _ Hok). destruct Hok as [_ _ _ Hc Hf _ _ _ _ _ _ _].
    destruct (k_w x); try done; intros Hr; exfalso;
      [rewrite Hc in Hr by auto|rewrite Hc in Hr by auto|rewrite Hf in Hr by auto]; done. }
  split_and!; [apply (co_queue _ Hok)|done| |].
  - intros Hcl. split; [by apply (co_queue _ Hok)|]. intros first cc conn r m'. unfold RegisterWorkConn.
    destruct (lockCurrentRun _ _ _ _); [|intros; simplify_eq; eauto].
    destruct (negb _); [intros; simplify_eq; eauto|].
    destruct (decide _) as [|Hr]; [intros; simplify_eq; eauto|]. apply dec_stable in Hr.
    apply Hopen in Hr. congruence.
  - rewrite (co_open _ Hok). destruct (k_w x); naive_solver.
Qed.

(** C26. An old generation cannot touch the new one.  When the entry of a run id is not
    control [k]'s, everything [k] still asks of the manager is refused and changes
    nothing: activation, completion of the login, removal, and handing in a work
    connection.  And what the manager hands out by run id is the current control, and
    only while it is running and the manager is open. *)
Theorem stale_generation_refused now first cc k x conn m :
  (∀ e, ctlsByRunID m !! c_runID (k_c x) = Some e → e_ctl e ≠ k) →
  Activate now first k x m = (false, Ok tt, m)
  ∧ completeLogin_begin first k x m = None
  ∧ Remove now first k (k_c x) m = (false, m)
  ∧ (∃ err, RegisterWorkConn first cc k x conn m = (Err err, m))
  ∧ ∀ k', GetByID first (c_runID (k_c x)) m = Some k' → m_closed m = false ∧ k' ≠ k
      ∧ ∃ e y, ctlsByRunID m !! c_runID (k_c x) = Some e ∧ e_ctl e = k' ∧ ctls m !! k' = Some y
          ∧ state_of y = controlStateRunning.
Proof.
  intros Hne.
  assert (Hlock : ∀ b e, lockCurrentRun first (c_runID (k_c x)) b m = Some e →
    ctlsByRunID m !! c_runID (k_c x) = Some e ∧ (b = false → m_closed m = false)
    ∧ is_current k (k_c x) e = false).
  { intros b e. unfold lockCurrentRun, read_entry. destruct first; [|done].
    destruct (m_closed m) eqn:Hc; destruct b; simpl; try done;
      (destruct (ctlsByRunID m !! _) as [e'|]; [|done]); case_decide; intros; simplify_eq;
      (split_and!; [done..|]); unfold is_current;
      by rewrite (bool_decide_eq_false_2 (e_ctl e = k)) by (by apply Hne). }
  unfold Activate, completeLogin_begin, Remove, RegisterWorkConn, GetByID.
  split_and!.
  - destruct (lockCurrentRun _ _ _ _) eqn:E; [|done]. by destruct (Hlock _ _ E) as (_ & _ & ->).
  - destruct (lockCurrentRun _ _ _ _) eqn:E; [|done]. by destruct (Hlock _ _ E) as (_ & _ & ->).
  - destruct (lockCurrentRun _ _ true _) eqn:E; [|done]. by destruct (Hlock _ _ E) as (_ & _ & ->).
  - destruct (lockCurrentRun _ _ _ _) eqn:E; [|eauto]. destruct (Hlock _ _ E) as (_ & _ & ->). eauto.
  - intros k'. destruct (lockCurrentRun _ _ _ _) as [e|] eqn:E; [|done].
    destruct (Hlock _ _ E) as (He & Hc & _). destruct (ctls m !! e_ctl e) as [y|] eqn:Hy; [|done].
    case_decide as Hs; intros; simplify_eq. split_and!; [by apply Hc|by apply Hne|]. by exists e, y.
Qed.

(** C24. The client registry follows the sessions: in every reachable state, a record
    the registry shows online is that of a run id with an entry, which remembers that
    it is online and under which control id; in particular nobody is shown online
    after their session's entry is gone. *)
Theorem registry_follows_sessions m key i : k_reachable m →
  clients (m_registry m) !! key = Some i → ci_Online i = true →
  ∃ e x, ctlsByRunID m !! ci_RunID i = Some e ∧ registryOnline e = true
    ∧ registryControlID e = ci_ControlID i
    ∧ ctls m !! e_ctl e = Some x ∧ c_runID (k_c x) = ci_RunID i ∧ c_controlID (k_c x) = e_id e.
Proof.
  intros Hr Hi Ho. pose proof (k_reachable_inv _ Hr) as Hk. destruct (k_reachable_reg _ Hr) as [Hinv He].
  destruct (He _ _ Hi) as (e & H1 & H2 & H3); [by apply (ri_flag _ Hinv _ _ Hi)|].
  destruct (ki_entry _ Hk _ _ H1) as (x & ? & ? & ? & _). by exists e, x.
Qed.

(** Shutdown leaves nothing running.  After [Close] of the manager, once its
    loop has gone through every control it found, there is no entry left, no control
    is running, no client is shown online, and no [Add] can enter a new control. *)
Theorem shutdown_complete m : k_reachable m → m_closed m = true → to_remove m = ∅ → to_close m = ∅ →
  ctlsByRunID m = ∅
  ∧ (∀ k x, ctls m !! k = Some x → state_of x ≠ controlStateRunning)
  ∧ (∀ key i, clients (m_registry m) !! key = Some i → ci_Online i = false)
  ∧ (∀ k c, ∃ e, Add k c m = (Err e, m)).
Proof.
  intros Hr Hc Htr Htc. pose proof (k_reachable_inv _ Hr) as Hi. destruct (k_reachable_reg _ Hr) as [Hinv He].
  assert (Hnone : ∀ r e, ctlsByRunID m !! r = Some e → False).
  { intros r e H. pose proof (ki_shut _ Hi _ _ Hc H) as Hin. rewrite Htr in Hin. set_solver. }
  split_and!.
  - apply map_empty. intros r. destruct (ctlsByRunID m !! r) eqn:E; [|done]. by destruct (Hnone _ _ E).
  - intros k x Hk Hrun. destruct (ki_running _ Hi _ _ Hk Hrun) as [Hin|(e & H & _)]; [|by eauto].
    rewrite Htr, Htc in Hin. set_solver.
  - intros key i Hki. apply not_true_iff_false. intros Ho.
    destruct (He _ _ Hki) as (e & H & _); [by apply (ri_flag _ Hinv _ _ Hki)|]. by eauto.
  - intros k c. unfold Add. rewrite Hc. eauto.
Qed.

(** ** A run: a client logs in, and logs in again while its session is up *)
Definition demo_ctl : Control :=
  mkControl (mkSessionContext
      (mkLogin "0.1" "host" "linux" "amd64" "alice" "key" 1700000000 "r1" "" ∅ (mkClientSpec "" false) 3)
      "10.0.0.1:4444" demo_server_cfg "v1" "") 3 13 [] true
    "r1" 0 false controlStateCreated false None false false 7.
Definition ctl_at (k : nat) (m : manager) : Ctl := default (mkCtl demo_ctl LNew WNone) (ctls m !! k).
Definition login_new (k : nat) (m : manager) : manager := put k (mkCtl demo_ctl LNew WNone) m.
Definition login_add (k : nat) (m : manager) : manager :=
  let '(r, m') := Add k demo_ctl m in after_add r k demo_ctl m'.
Definition login_ready (k : nat) (m : manager) : manager := put k (phase LReady (ctl_at k m)) m.
Definition login_activate (k : nat) (m : manager) : manager :=
  let '(a, r, m') := Activate 5 (ctlsByRunID m !! "r1") k (ctl_at k m) m in after_activate k a r m'.
Definition login_begin (k : nat) (m : manager) : manager :=
  hold ({[0%nat]} ∪ held m) (put k (phase LWriting (ctl_at k m)) m).
Definition login_end (k : nat) (m : manager) : manager :=
  hold (held m ∖ {[0%nat]}) (put k (after_login k (ctl_at k m) (Ok tt)) m).
Definition demo_pending : manager :=
  login_ready 0 (login_add 0 (login_new 0 (NewControlManager NewClientRegistry))).
Definition demo_running : manager := login_end 0 (login_begin 0 (login_activate 0 demo_pending)).
Definition demo_replaced : manager := login_add 1 (login_new 1 demo_running).

Lemma gate_free_none runID m : held m = ∅ → gate_free runID m.
Proof. intros Hh e _. rewrite Hh. set_solver. Qed.

Lemma login_add_step k m : ctls m !! k = Some (mkCtl demo_ctl LNew WNone) → held m = ∅ →
  kstep m (login_add k m).
Proof.
  intros Hk Hh. unfold login_add. destruct (Add k demo_ctl m) as [r m'] eqn:HA.
  eapply ks_add; [done|by apply gate_free_none|done].
Qed.

Lemma login_activate_step k m x : ctls m !! k = Some x → k_l x = LReady → c_runID (k_c x) = "r1" →
  held m = ∅ → kstep m (login_activate k m).
Proof.
  intros Hk Hl Hr Hh. unfold login_activate, ctl_at. rewrite Hk. simpl.
  destruct (Activate _ _ _ _ _) as [[a r] m'] eqn:HA.
  eapply ks_activate; [done|done| |by apply gate_free_none|done].
  intros e He _. rewrite Hr in He. exists e. by rewrite He.
Qed.

Lemma rtc_snoc m1 m2 m3 : kstep m2 m3 → rtc kstep m1 m2 → rtc kstep m1 m3.
Proof. intros ? ?. by eapply rtc_r. Qed.

Lemma login_new_step k m : ctls m !! k = None → kstep m (login_new k m).
Proof. intros Hk. apply (ks_new k demo_ctl); done. Qed.

Lemma demo_pending_reachable : k_reachable demo_pending.
Proof.
  apply (rtc_snoc _ (login_add 0 (login_new 0 (NewControlManager NewClientRegistry)))).
  { apply (ks_handoff 0); vm_compute; try reflexivity; exact I. }
  eapply rtc_snoc; [apply login_add_step; vm_compute; reflexivity|].
  apply rtc_once, login_new_step. reflexivity.
Qed.

Lemma demo_running_reachable : k_reachable demo_running.
Proof.
  apply (rtc_snoc _ (login_begin 0 (login_activate 0 demo_pending))).
  { apply (ks_login_end 0 _ (mkEntry 0 1 0 true 1)); vm_compute; reflexivity. }
  apply (rtc_snoc _ (login_activate 0 demo_pending)).
  { apply (ks_login_begin (ctlsByRunID demo_running !! "r1") 0); try (vm_compute; reflexivity).
    - intros e He _. exists e. split; [|done]. vm_compute in He |- *. exact He.
    - apply gate_free_none. vm_compute. reflexivity. }
  eapply rtc_snoc; [|exact demo_pending_reachable].
  eapply (login_activate_step _ _ (ctl_at 0 demo_pending)); vm_compute; reflexivity.
Qed.

Lemma demo_replaced_steps : rtc kstep demo_running demo_replaced.
Proof.
  eapply rtc_snoc; [apply login_add_step; vm_compute; reflexivity|].
  apply rtc_once, login_new_step. vm_compute. reflexivity.
Qed.
Lemma demo_replaced_reachable : k_reachable demo_replaced.
Proof. unfold k_reachable. etrans; [exact demo_running_reachable|exact demo_replaced_steps]. Qed.

(** The second login waits for the first session, which is still up. *)
Lemma one_serving_session_witness :
  ∃ y, ctls demo_replaced !! 1%nat = Some y ∧ waiting y = true ∧ state_of y = controlStatePending
    ∧ c_handoffBarrier (k_c y) = Some 0%nat ∧ ¬ barrier_done (c_handoffBarrier (k_c y)) demo_replaced.
Proof.
  exact (proj2 (one_serving_session demo_replaced demo_replaced_reachable) 0%nat (ctl_at 0 demo_replaced)
    (mkEntry 1 2 0 true 1) eq_refl eq_refl eq_refl ltac:(discriminate)).
Defined.

Lemma lifecycle_one_way_witness :
  ∃ x', ctls demo_replaced !! 0%nat = Some x' ∧ (rank controlStateRunning ≤ rank (state_of x'))%nat.
Proof.
  destruct (lifecycle_one_way demo_running demo_replaced 0 (ctl_at 0 demo_running) demo_running_reachable
    demo_replaced_steps     eq_refl) as (x' & Hx' & Hrank & _).
  exists x'. split; [exact Hx'|exact Hrank].
Defined.

Lemma work_conn_pool_witness : c_workOpen (k_c (ctl_at 0 demo_running)) = true.
Proof.
  exact (proj1 (proj2 (work_conn_pool demo_running 0 (ctl_at 0 demo_running) demo_running_reachable eq_refl))
    eq_refl).
Defined.

Lemma stale_generation_refused_witness :
  Remove 9 (ctlsByRunID demo_replaced !! "r1") 0 (k_c (ctl_at 0 demo_replaced)) demo_replaced
  = (false, demo_replaced).
Proof.
  refine (proj1 (proj2 (proj2 (stale_generation_refused 9 (ctlsByRunID demo_replaced !! "r1") false 0
    (ctl_at 0 demo_replaced) 7 demo_replaced _)))).
  intros e He. vm_compute in He. injection He as <-. discriminate.
Defined.

Lemma registry_follows_sessions_witness :
  ∃ e x, ctlsByRunID demo_replaced !! "r1" = Some e ∧ registryOnline e = true ∧ registryControlID e = 1
    ∧ ctls demo_replaced !! e_ctl e = Some x ∧ c_runID (k_c x) = "r1" ∧ c_controlID (k_c x) = e_id e.
Proof.
  exact (registry_follows_sessions demo_replaced "alice.r1"
    (mkClientInfo "alice.r1" "alice" "" "r1" 1 "host" "10.0.0.1" "0.1" "v1" 5 5 0 true)
    demo_replaced_reachable eq_refl eq_refl).
Defined.

(** A shutdown of the running server: [Close] finds the session, removes and closes it. *)
Definition shut_removed : manager :=
  let m := (Remove 9 (ctlsByRunID demo_running !! "r1") 0 (k_c (ctl_at 0 demo_running))
              (cm_Close demo_running)).2 in
  set_todo (to_remove m ∖ {[0%nat]}) ({[0%nat]} ∪ to_close m) m.
Definition demo_shut : manager :=
  let x := ctl_at 0 shut_removed in
  set_todo (to_remove shut_removed) (to_close shut_removed ∖ {[0%nat]})
    (put 0 (mkCtl (Control_Close (k_c x)) (k_l x) (k_w x)) shut_removed).

Lemma demo_shut_reachable : k_reachable demo_shut.
Proof.
  apply (rtc_snoc _ shut_removed).
  { apply (ks_shut_close 0); [|vm_compute; reflexivity|vm_compute; discriminate].
    apply (bool_decide_unpack _). vm_compute. exact I. }
  apply (rtc_snoc _ (cm_Close demo_running)).
  { eapply (ks_shut_remove 9 (ctlsByRunID demo_running !! "r1") 0 (ctl_at 0 demo_running));
      [|vm_compute; reflexivity| | |apply surjective_pairing].
    - apply (bool_decide_unpack _). vm_compute. exact I.
    - intros e He _. exists e. split; [|done]. vm_compute in He |- *. exact He.
    - apply gate_free_none. vm_compute. reflexivity. }
  eapply rtc_snoc; [apply ks_shutdown|exact demo_running_reachable].
Qed.

Lemma shutdown_complete_witness :
  ctlsByRunID demo_shut = ∅ ∧ state_of (ctl_at 0 demo_shut) ≠ controlStateRunning.
Proof.
  destruct (shutdown_complete demo_shut demo_shut_reachable ltac:(vm_compute; reflexivity)
    ltac:(vm_compute; reflexivity) ltac:(vm_compute; reflexivity)) as (He & Hr & _).
  split; [exact He|]. apply (Hr 0%nat). vm_compute. reflexivity.
Defined.
