(* ===== verification/Wire.v ===== *)
(** * Wire protocol v2: [pkg/proto/wire/wire.go] and [pkg/proto/wire/crypto.go]

    A connection is the list of bytes its peer sends before closing; a read takes
    bytes from the front.  JSON texts are the class [JSON], whose instance is
    [HelloJson.hello_json]; framing, the magic,
    the negotiation of codecs and algorithms and the transcript that both ends hash
    are the source's. *)
From S2P Require Import Prelude GoStd Hash Msg.
From stdpp Require Import list.
Local Open Scope Z_scope.

Definition FrameTypeClientHello : Z := 1.
Definition FrameTypeServerHello : Z := 2.
Definition FrameTypeMessage : Z := 16.
Definition MessageCodecJSON : string := "json".
Definition UDPPacketCodecBinary : string := "binary-v1".
Definition DefaultMaxFramePayloadSize : Z := 64 * 1024.
(** "FRP", NUL, 2, CR, LF. *)
Definition MagicV2 : list byte := byte_of_Z <$> [70; 82; 80; 0; 2; 13; 10].

Record Frame := mkFrame { f_Type : Z; f_Flags : Z; f_Payload : list byte }.

(** [io.ReadFull] for [n] bytes. *)
Definition ReadFull (n : nat) (s : list byte) : result (list byte * list byte) :=
  if decide (n ≤ length s)%nat then Ok (take n s, drop n s)
  else Err (if decide (s = []) then "EOF" else "unexpected EOF").

Section frames.
Context (maxFramePayloadSize : Z).
Definition limit_error (length : Z) : string :=
  "frame payload length " +:+ Itoa length +:+ " exceeds limit " +:+ Itoa maxFramePayloadSize.
Definition ReadFrame (s : list byte) : result (Frame * list byte) :=
  ReadFull 8 s ≫= λ '(header, s),
  let frameType := be_combine (sub_slice 0 2 header) in
  let flags := be_combine (sub_slice 2 4 header) in
  let length := be_combine (sub_slice 4 8 header) in
  if decide (flags ≠ 0) then Err ("unsupported frame flags: " +:+ Itoa flags)
  else if maxFramePayloadSize <? length then Err (limit_error length)
  else ReadFull (Z.to_nat length) s ≫= λ '(payload, s), Ok (mkFrame frameType flags payload, s).
(** The bytes written. *)
Definition WriteFrame (f : Frame) : result (list byte) :=
  if decide (f_Flags f ≠ 0) then Err ("unsupported frame flags: " +:+ Itoa (f_Flags f))
  else if maxFramePayloadSize <? Z.of_nat (length (f_Payload f))
  then Err (limit_error (Z.of_nat (length (f_Payload f))))
  else Ok (be_split 2 (f_Type f) ++ be_split 2 (f_Flags f)
           ++ be_split 4 (Z.of_nat (length (f_Payload f))) ++ f_Payload f).
End frames.

(** ** The magic: the connection to read from, and whether it speaks v2 *)
Inductive checked : Type :=
| UseShared (peeked : list byte) (rest : list byte)   (* a connection that replays [peeked] *)
| UseConn (rest : list byte).
Definition CheckMagic (s : list byte) : result (checked * bool) :=
  ReadFull (length MagicV2) s ≫= λ '(buf, rest),
  if decide (buf = MagicV2) then Ok (UseConn rest, true) else Ok (UseShared buf rest, false).
Definition WriteMagicIfV2 (wireProtocol : string) : list byte :=
  if decide (wireProtocol = "v2") then MagicV2 else [].

(** ** Hello messages *)
Record BootstrapInfo := mkBootstrap { bi_Transport : string; bi_TLS : bool; bi_TCPMux : bool }.
Record MessageCapabilities := mkMessageCap { mc_Codecs : list string; mc_UDPPacketCodecs : list string }.
Record CryptoCapabilities := mkCryptoCap { cc_Algorithms : list string; cc_ClientRandom : list byte }.
Record ClientHello := mkClientHello {
  ch_Bootstrap : BootstrapInfo;
  ch_Message : MessageCapabilities;
  ch_Crypto : CryptoCapabilities;
}.
Record MessageSelection := mkMessageSel { ms_Codec : string; ms_UDPPacketCodec : string }.
Record CryptoSelection := mkCryptoSel { cs_Algorithm : string; cs_ServerRandom : list byte }.
Record ServerHello := mkServerHello {
  sh_Message : MessageSelection;
  sh_Crypto : CryptoSelection;
  sh_Error : string;
}.

Definition AEADAlgorithmAES256GCM : string := "aes-256-gcm".
Definition AEADAlgorithmXChaCha20Poly1305 : string := "xchacha20-poly1305".
Definition CryptoRandomSize : nat := 32.
Definition supportedAEADAlgorithms : list string :=
  [AEADAlgorithmAES256GCM; AEADAlgorithmXChaCha20Poly1305].

Definition Supports (l : list string) (v : string) : bool := bool_decide (v ∈ l).
Definition IsSupportedAEADAlgorithm (a : string) : bool := Supports supportedAEADAlgorithms a.
Fixpoint SelectAEADAlgorithm (clientAlgorithms : list string) : option string :=
  match clientAlgorithms with
  | [] => None
  | a :: l => if IsSupportedAEADAlgorithm a then Some a else SelectAEADAlgorithm l
  end.
Definition PreferredAEADAlgorithms (hasFastAESGCM : bool) : list string :=
  if hasFastAESGCM then [AEADAlgorithmAES256GCM; AEADAlgorithmXChaCha20Poly1305]
  else [AEADAlgorithmXChaCha20Poly1305; AEADAlgorithmAES256GCM].
Definition random_error (who : string) (l : list byte) : string :=
  "invalid crypto " +:+ who +:+ " random length " +:+ Itoa (Z.of_nat (length l)) +:+ ", want 32".

Definition ValidateCryptoCapabilities (c : CryptoCapabilities) : result unit :=
  if decide (length (cc_ClientRandom c) ≠ CryptoRandomSize)
  then Err (random_error "client" (cc_ClientRandom c))
  else match SelectAEADAlgorithm (cc_Algorithms c) with
       | None => Err "no supported crypto algorithm"
       | Some _ => Ok tt
       end.
Definition ValidateClientHello (h : ClientHello) : result unit :=
  if negb (Supports (mc_Codecs (ch_Message h)) MessageCodecJSON) then Err "unsupported message codec"
  else ValidateCryptoCapabilities (ch_Crypto h).

(** [NewClientHello] with the random bytes it drew. *)
Definition clientHelloWithCryptoRandom (hasFastAESGCM : bool) (b : BootstrapInfo)
    (clientRandom : list byte) : ClientHello :=
  mkClientHello b (mkMessageCap [MessageCodecJSON] [UDPPacketCodecBinary])
    (mkCryptoCap (PreferredAEADAlgorithms hasFastAESGCM) clientRandom).
Definition newCryptoRandom (rnd : result (list byte)) : result (list byte) :=
  wrap_err "generate crypto random: " rnd.
Definition NewClientHello (hasFastAESGCM : bool) (b : BootstrapInfo) (rnd : result (list byte))
    : result ClientHello :=
  newCryptoRandom rnd ≫= λ r, Ok (clientHelloWithCryptoRandom hasFastAESGCM b r).
Definition DefaultServerHello : ServerHello :=
  mkServerHello (mkMessageSel MessageCodecJSON "") (mkCryptoSel "" []) "".
Definition selectUDPPacketCodec (codecs : list string) : string :=
  if Supports codecs UDPPacketCodecBinary then UDPPacketCodecBinary else "".
Definition NewServerHello (h : ClientHello) (rnd : result (list byte)) : result ServerHello :=
  ValidateClientHello h ≫= λ _,
  match SelectAEADAlgorithm (cc_Algorithms (ch_Crypto h)) with
  | None => Err "no supported crypto algorithm"
  | Some algorithm =>
      newCryptoRandom rnd ≫= λ r,
      Ok (mkServerHello
            (mkMessageSel MessageCodecJSON (selectUDPPacketCodec (mc_UDPPacketCodecs (ch_Message h))))
            (mkCryptoSel algorithm r) "")
  end.
Definition ValidateServerHelloForClient (ch : ClientHello) (sh : ServerHello) : result unit :=
  let codec := ms_Codec (sh_Message sh) in
  let udp := ms_UDPPacketCodec (sh_Message sh) in
  let alg := cs_Algorithm (sh_Crypto sh) in
  let random := cs_ServerRandom (sh_Crypto sh) in
  if decide (codec ≠ MessageCodecJSON) then Err ("unsupported selected message codec: " +:+ codec)
  else if decide (udp ≠ "" ∧ udp ≠ UDPPacketCodecBinary)
  then Err ("unsupported selected UDP packet codec: " +:+ udp)
  else if bool_decide (udp ≠ "") && negb (Supports (mc_UDPPacketCodecs (ch_Message ch)) udp)
  then Err ("selected UDP packet codec was not advertised by client: " +:+ udp)
  else if negb (IsSupportedAEADAlgorithm alg) then Err ("unknown selected crypto algorithm: " +:+ alg)
  else if negb (Supports (cc_Algorithms (ch_Crypto ch)) alg)
  then Err ("selected crypto algorithm was not advertised by client: " +:+ alg)
  else if decide (length random ≠ CryptoRandomSize) then Err (random_error "server" random)
  else Ok tt.

(** ** The transcript *)
Definition cryptoTranscriptLabel : string := "frp wire v2 crypto transcript".
Definition transcript_part (label : string) (payload : list byte) : list byte :=
  Byte.x00 :: bytes_of label ++ Byte.x00 :: be_split 8 (Z.of_nat (length payload)) ++ payload.
Definition transcript (clientHelloPayload serverHelloPayload : list byte) : list byte :=
  bytes_of cryptoTranscriptLabel ++ transcript_part "client hello" clientHelloPayload
  ++ transcript_part "server hello" serverHelloPayload.
Definition HashCryptoTranscript (clientHelloPayload serverHelloPayload : list byte) : list byte :=
  sha256 (transcript clientHelloPayload serverHelloPayload).
Record CryptoContext := mkCryptoContext { cx_Algorithm : string; cx_TranscriptHash : list byte }.
Definition NewCryptoContext (algorithm : string) (chp shp : list byte) : CryptoContext :=
  mkCryptoContext algorithm (HashCryptoTranscript chp shp).

(** [encoding/json] on the two hello structs. *)
Class JSON := {
  MarshalClientHello : ClientHello → result (list byte);
  MarshalServerHello : ServerHello → result (list byte);
  UnmarshalClientHello : list byte → result ClientHello;
  UnmarshalServerHello : list byte → result ServerHello;
}.

Section handshake.
Context `{JSON}.
Definition NewClientCryptoContext (chp shp : list byte) : result CryptoContext :=
  wrap_err "decode ClientHello transcript: " (UnmarshalClientHello chp) ≫= λ ch,
  wrap_err "decode ServerHello transcript: " (UnmarshalServerHello shp) ≫= λ sh,
  ValidateServerHelloForClient ch sh ≫= λ _,
  Ok (NewCryptoContext (cs_Algorithm (sh_Crypto sh)) chp shp).

(** The frame, when [WriteFrame] accepts it. *)
Definition sent (f : Frame) : result Frame := WriteFrame DefaultMaxFramePayloadSize f ≫= λ _, Ok f.

(** [handleClientHello] of [server/service.go]: the [ServerHello] frame written, and
    the negotiated crypto context and UDP codec, or the error that ends the connection. *)
Definition handleClientHello (frame : Frame) (rnd : result (list byte))
    : option Frame * result (CryptoContext * string) :=
  match wrap_err "decode ClientHello: " (UnmarshalClientHello (f_Payload frame)) with
  | Err e => (None, Err e)
  | Ok hello =>
      match NewServerHello hello rnd with
      | Err e =>
          let sh := mkServerHello (sh_Message DefaultServerHello) (sh_Crypto DefaultServerHello) e in
          match MarshalServerHello sh ≫= λ p, sent (mkFrame FrameTypeServerHello 0 p) with
          | Ok f => (Some f, Err e)
          | Err e2 => (None, Err (e +:+ "; write ServerHello error: " +:+ e2))
          end
      | Ok sh =>
          match MarshalServerHello sh with
          | Err e => (None, Err ("encode ServerHello: " +:+ e))
          | Ok p =>
              match sent (mkFrame FrameTypeServerHello 0 p) with
              | Err e => (None, Err ("write ServerHello: " +:+ e))
              | Ok f =>
                  (Some f,
                   Ok (NewCryptoContext (cs_Algorithm (sh_Crypto sh)) (f_Payload frame) p,
                       ms_UDPPacketCodec (sh_Message sh)))
              end
          end
      end
  end.
(** The client's half, in [exchangeLogin] of [client/control_session.go], once the
    frame that answers its hello has been read. *)
Definition acceptServerHello (clientHelloPayload : list byte) (frame : Frame)
    : result (CryptoContext * string) :=
  if decide (f_Type frame ≠ FrameTypeServerHello)
  then Err ("unexpected frame type " +:+ Itoa (f_Type frame) +:+ ", want 2")
  else
    UnmarshalServerHello (f_Payload frame) ≫= λ sh,
    if decide (sh_Error sh ≠ "") then Err (sh_Error sh)
    else NewClientCryptoContext clientHelloPayload (f_Payload frame) ≫= λ cx,
         Ok (cx, ms_UDPPacketCodec (sh_Message sh)).
End handshake.

(** ** Lemmas: frames *)
Lemma be_combine_16 z : 0 ≤ z < 65536 → be_combine (be_split 2 z) = z.
Proof. intros. rewrite be_combine_split. change (256 ^ Z.of_nat 2) with 65536. by apply Z.mod_small. Qed.
Lemma be_combine_32 z : 0 ≤ z < 4294967296 → be_combine (be_split 4 z) = z.
Proof. intros. rewrite be_combine_split. change (256 ^ Z.of_nat 4) with 4294967296. by apply Z.mod_small. Qed.

Lemma be_split_of n l : length l = n → be_split n (be_combine l) = l.
Proof. intros <-. apply be_split_combine. Qed.

Lemma ReadFull_app n l s : length l = n → ReadFull n (l ++ s) = Ok (l, s).
Proof.
  intros <-. unfold ReadFull. rewrite decide_True by (rewrite length_app; lia).
  by rewrite take_app_length, drop_app_length.
Qed.

Lemma ReadFull_Ok n s l r : ReadFull n s = Ok (l, r) ↔ s = l ++ r ∧ length l = n.
Proof.
  split; [|intros [-> <-]; by apply ReadFull_app]. unfold ReadFull. case_decide; [|done].
  intros [= <- <-]. split; [by rewrite take_drop|]. rewrite length_take. lia.
Qed.

Lemma sub_slice_split (h : list byte) : length h = 8%nat →
  h = sub_slice 0 2 h ++ sub_slice 2 4 h ++ sub_slice 4 8 h
  ∧ length (sub_slice 0 2 h) = 2%nat ∧ length (sub_slice 2 4 h) = 2%nat ∧ length (sub_slice 4 8 h) = 4%nat.
Proof. intros H. do 9 (destruct h as [|? h]; try done). Qed.

Lemma frame_header (t : Z) (p : list byte) : 0 ≤ t < 65536 → Z.of_nat (length p) < 4294967296 →
  let h := be_split 2 t ++ be_split 2 0 ++ be_split 4 (Z.of_nat (length p)) in
  length h = 8%nat ∧ be_combine (sub_slice 0 2 h) = t ∧ be_combine (sub_slice 2 4 h) = 0
  ∧ be_combine (sub_slice 4 8 h) = Z.of_nat (length p).
Proof.
  intros Ht Hp h. set (a := be_split 2 t) in *. set (b := be_split 2 0) in *. set (c := be_split 4 _) in *.
  assert (length a = 2%nat ∧ length b = 2%nat ∧ length c = 4%nat) as (La & Lb & Lc)
    by (subst a b c; by rewrite !length_be_split).
  assert (Hs : sub_slice 0 2 h = a ∧ sub_slice 2 4 h = b ∧ sub_slice 4 8 h = c).
  { subst h. clearbody a b c. do 3 (destruct a as [|? a]; try done). do 3 (destruct b as [|? b]; try done).
    by do 5 (destruct c as [|? c]; try done). }
  destruct Hs as (-> & -> & ->). split; [subst h; rewrite !length_app; lia|].
  subst a b c. by rewrite be_combine_16, be_combine_16, be_combine_32 by lia.
Qed.

(** What is written is read back. *)
Lemma read_written_frame (max : Z) (f : Frame) (bs rest : list byte) : max < 4294967296 →
  0 ≤ f_Type f < 65536 → WriteFrame max f = Ok bs → ReadFrame max (bs ++ rest) = Ok (f, rest).
Proof.
  intros Hmax Ht Hw. unfold ReadFrame, WriteFrame in *. destruct (decide _) as [|Hfl]; [done|]. apply dec_stable in Hfl.
  destruct (max <? _) eqn:Hm; [done|]. injection Hw as <-. zify_bool. rewrite Hfl.
  destruct (frame_header (f_Type f) (f_Payload f) Ht ltac:(lia)) as (Hl & H1 & H2 & H3).
  set (h := be_split 2 (f_Type f) ++ be_split 2 0 ++ be_split 4 _) in *.
  replace (_ ++ rest) with (h ++ (f_Payload f ++ rest)) by (subst h; by rewrite <-!(assoc_L (++))).
  rewrite ReadFull_app by done. cbn [mbind result_bind]. rewrite H1, H2, H3.
  rewrite decide_False by (by intros []).
  replace (max <? Z.of_nat (length (f_Payload f))) with false by (symmetry; apply Z.ltb_ge; lia).
  rewrite Nat2Z.id, ReadFull_app by done. cbn [mbind result_bind]. do 2 f_equal. destruct f; simpl in *. by subst.
Qed.

(** A frame that is read was written as the bytes it consists of. *)
Lemma read_frame_inv (max : Z) (s rest : list byte) (f : Frame) : ReadFrame max s = Ok (f, rest) →
  0 ≤ f_Type f < 65536 ∧ ∃ bs, WriteFrame max f = Ok bs ∧ s = bs ++ rest.
Proof.
  unfold ReadFrame, WriteFrame. intros H. apply result_bind_Ok in H as ([h r] & Hh & H). apply ReadFull_Ok in Hh as [-> Hlen].
  destruct (sub_slice_split _ Hlen) as (Hsp & L1 & L2 & L3).
  destruct (decide _) as [|Hfl]; [done|]. apply dec_stable in Hfl.
  destruct (max <? _) eqn:Hm; [done|]. apply result_bind_Ok in H as ([p r'] & Hp & [= <- <-]).
  apply ReadFull_Ok in Hp as [-> Hpl]. cbn [f_Type f_Flags f_Payload].
  pose proof (be_combine_range (sub_slice 0 2 h)) as Hr. rewrite L1 in Hr.
  pose proof (be_combine_range (sub_slice 4 8 h)) as Hr3. split; [exact Hr|].
  rewrite decide_False by (by intros []). rewrite Hpl, Z2Nat.id, Hm by lia.
  eexists. split; [done|]. rewrite Hsp at 1. rewrite <-!(assoc_L (++)).
  rewrite (be_split_of _ _ L1), (be_split_of _ _ L2).
  f_equal. f_equal. f_equal. symmetry. by apply be_split_of.
Qed.
(** A connection that breaks off inside a frame gives an error. *)
Lemma read_cut_frame (max : Z) (f : Frame) (bs p q : list byte) : max < 4294967296 →
  0 ≤ f_Type f < 65536 → WriteFrame max f = Ok bs → bs = p ++ q → q ≠ [] → ∃ e, ReadFrame max p = Err e.
Proof.
  intros Hmax Ht Hw -> Hq. destruct (ReadFrame max p) as [[f' rest]|e] eqn:Hr; [|by exists e]. exfalso.
  apply read_frame_inv in Hr as (Ht' & bs' & Hw' & ->).
  pose proof (read_written_frame max f _ [] Hmax Ht Hw) as H1. rewrite app_nil_r, <-(assoc_L (++)) in H1.
  rewrite (read_written_frame max f' bs' (rest ++ q) Hmax Ht' Hw') in H1. injection H1 as _ H1.
  by apply app_nil in H1 as [_ ?].
Qed.

(** C18. Frames are read back exactly, and nothing else is.  Whatever follows on the
    connection, the bytes [WriteFrame] writes for a frame (with a 16-bit type, under a
    limit that fits the length field) are read as that frame and the rest is left;
    and conversely every frame [ReadFrame] returns consists of exactly the bytes
    [WriteFrame] writes for it, so no two byte strings mean the same frame and no
    accepted frame has flags or exceeds the limit. *)
Theorem frame_codec_exact (max : Z) (s rest : list byte) (f : Frame) : max < 4294967296 →
  ReadFrame max s = Ok (f, rest) ↔
  0 ≤ f_Type f < 65536 ∧ ∃ bs, WriteFrame max f = Ok bs ∧ s = bs ++ rest.
Proof.
  intros Hmax. split; [apply read_frame_inv|]. intros (Ht & bs & Hw & ->). by apply read_written_frame.
Qed.

Lemma frame_codec_exact_witness :
  ReadFrame DefaultMaxFramePayloadSize ([Byte.x00; Byte.x10; Byte.x00; Byte.x00; Byte.x00; Byte.x00;
    Byte.x00; Byte.x01; Byte.x41] ++ [Byte.x42]) = Ok (mkFrame FrameTypeMessage 0 [Byte.x41], [Byte.x42]).
Proof.
  refine (proj2 (frame_codec_exact DefaultMaxFramePayloadSize _ _ (mkFrame FrameTypeMessage 0 [Byte.x41]) _) _).
  - reflexivity.
  - split; [split; [discriminate|reflexivity]|]. eexists. split; reflexivity.
Defined.

(** The magic tells the protocols apart and costs nothing.  After the magic the
    connection is read as v2 and the magic is gone; any other first seven bytes are
    put back, so a v1 reader sees the stream from its first byte; and no v1 message
    can be taken for v2, since none of the registered type bytes starts the magic. *)
Theorem magic_separates (s : list byte) :
  CheckMagic (MagicV2 ++ s) = Ok (UseConn s, true)
  ∧ (∀ c b, CheckMagic s = Ok (c, b) →
       match c with
       | UseConn rest => b = true ∧ s = MagicV2 ++ rest
       | UseShared peeked rest => b = false ∧ s = peeked ++ rest
       end)
  ∧ (∀ t c b, CheckMagic (byte_of_Z (msgTypeByte t) :: s) = Ok (c, b) → b = false)
  ∧ ((length s < 7)%nat ↔ ∃ e, CheckMagic s = Err e).
Proof.
  unfold CheckMagic. split_and!.
  - rewrite ReadFull_app by done. cbn [mbind result_bind]. by rewrite decide_True.
  - intros c b H. apply result_bind_Ok in H as ([buf rest] & Hr & H). apply ReadFull_Ok in Hr as [-> _].
    case_decide; by simplify_eq.
  - intros t c b H. apply result_bind_Ok in H as ([buf rest] & Hr & H). apply ReadFull_Ok in Hr as [Hs _].
    case_decide as Hb; [|by simplify_eq]. subst buf. exfalso. by destruct t.
  - unfold ReadFull. change (length MagicV2) with 7%nat. case_decide; simpl.
    + split; [lia|]. intros [e He]. by case_decide.
    + split; [eauto|lia].
Qed.

(** ** The transcript *)
Lemma app_inj_len {A} (a b c d : list A) : length a = length c → a ++ b = c ++ d → a = c ∧ b = d.
Proof. intros Hl H. by apply app_inj_1 in H. Qed.

Lemma length_prefix_inj (p q r s : list byte) :
  Z.of_nat (length p) < 2 ^ 64 → Z.of_nat (length q) < 2 ^ 64 →
  be_split 8 (Z.of_nat (length p)) ++ p ++ r = be_split 8 (Z.of_nat (length q)) ++ q ++ s →
  p = q ∧ r = s.
Proof.
  intros Hp Hq H. apply app_inj_len in H as [Hl H]; [|by rewrite !length_be_split].
  apply (f_equal be_combine) in Hl. rewrite !be_combine_split in Hl.
  change (256 ^ Z.of_nat 8) with (2 ^ 64) in Hl. rewrite !Z.mod_small in Hl by lia.
  apply app_inj_len in H; [done|lia].
Qed.

Lemma cons_tail (x : byte) l k : x :: l = x :: k → l = k.
Proof. by intros [=]. Qed.

Lemma part_inj label p q r s :
  Z.of_nat (length p) < 2 ^ 64 → Z.of_nat (length q) < 2 ^ 64 →
  transcript_part label p ++ r = transcript_part label q ++ s → p = q ∧ r = s.
Proof.
  intros Hp Hq H. unfold transcript_part in H. cbn [app] in H. apply cons_tail in H.
  rewrite <-!(assoc_L (++) (bytes_of label)) in H. apply app_inj_len in H as [_ H]; [|done].
  cbn [app] in H. apply cons_tail in H. rewrite <-!(assoc_L (++)) in H.
  by apply length_prefix_inj in H.
Qed.

Lemma transcript_inj a b c d :
  Z.of_nat (length a) < 2 ^ 64 → Z.of_nat (length b) < 2 ^ 64 →
  Z.of_nat (length c) < 2 ^ 64 → Z.of_nat (length d) < 2 ^ 64 →
  transcript a b = transcript c d → a = c ∧ b = d.
Proof.
  intros Ha Hb Hc Hd H. unfold transcript in H.
  apply app_inj_len in H as [_ H]; [|done]. apply part_inj in H as [-> H]; [|done..].
  split; [done|]. rewrite <-(app_nil_r (transcript_part _ b)), <-(app_nil_r (transcript_part _ d)) in H.
  by apply part_inj in H as [-> _].
Qed.

(** The transcript binds both hellos.  The bytes hashed for a pair of payloads
    determine the pair (payloads of different boundaries or swapped parts never
    produce the same text), so two ends that derive the same transcript hash saw the
    same hellos, or hold a SHA-256 collision: two different texts with one digest. *)
Theorem transcript_binds_hellos (a b c d : list byte) :
  Z.of_nat (length a) < 2 ^ 64 → Z.of_nat (length b) < 2 ^ 64 →
  Z.of_nat (length c) < 2 ^ 64 → Z.of_nat (length d) < 2 ^ 64 →
  (transcript a b = transcript c d ↔ a = c ∧ b = d)
  ∧ (HashCryptoTranscript a b = HashCryptoTranscript c d →
     a = c ∧ b = d
     ∨ transcript a b ≠ transcript c d ∧ sha256 (transcript a b) = sha256 (transcript c d)).
Proof.
  intros Ha Hb Hc Hd. split.
  - split; [by apply transcript_inj|]. by intros [-> ->].
  - intros Hh. destruct (decide (transcript a b = transcript c d)) as [Heq|Hne]; [left|by right].
    by apply transcript_inj.
Qed.

Lemma transcript_binds_hellos_witness :
  HashCryptoTranscript [] [Byte.x41] ≠ HashCryptoTranscript [Byte.x41] []
  ∧ transcript [] [Byte.x41] ≠ transcript [Byte.x41] [].
Proof.
  split; [vm_compute; discriminate|]. intros H.
  destruct (proj1 (proj1 (transcript_binds_hellos [] [Byte.x41] [Byte.x41] [] eq_refl eq_refl eq_refl
    eq_refl)) H) as [H1 _]. discriminate H1.
Defined.

(** ** Negotiation *)
Lemma Supports_true l v : Supports l v = true ↔ v ∈ l.
Proof. apply bool_decide_eq_true. Qed.

(** The chosen algorithm is the first supported one of the list. *)
Lemma SelectAEADAlgorithm_Some l a : SelectAEADAlgorithm l = Some a ↔
  ∃ l1 l2, l = l1 ++ a :: l2 ∧ a ∈ supportedAEADAlgorithms
    ∧ Forall (λ x, x ∉ supportedAEADAlgorithms) l1.
Proof.
  induction l as [|x l IH]; simpl.
  - split; [done|]. by intros ([|? ?] & ? & ? & _).
  - unfold IsSupportedAEADAlgorithm at 1. destruct (Supports _ x) eqn:Hx.
    + apply Supports_true in Hx. split; [intros [= ->]; exists [], l; by split_and!|].
      intros ([|y l1] & l2 & [= -> ->] & _ & Hf); [done|]. by inversion Hf.
    + assert (x ∉ supportedAEADAlgorithms) by (rewrite <-Supports_true; congruence). rewrite IH. split.
      * intros (l1 & l2 & -> & ? & ?). exists (x :: l1), l2. split_and!; [done..|by constructor].
      * intros ([|y l1] & l2 & [= -> ->] & ? & Hf); [done|]. inversion Hf. eauto.
Qed.

(** The strings of a hello are valid UTF-8, so JSON gives them back unchanged. *)
Definition hello_utf8 (sh : ServerHello) : bool :=
  ValidString (ms_Codec (sh_Message sh)) && ValidString (ms_UDPPacketCodec (sh_Message sh))
  && ValidString (cs_Algorithm (sh_Crypto sh)) && ValidString (sh_Error sh).

(** Both ends agree after a handshake.  If the server answers a [ClientHello]
    payload with a [ServerHello] and goes on, the client accepts exactly that answer
    and both hold the same algorithm, the same transcript hash and the same UDP codec;
    the algorithm is the first one of the client's list that is supported, and the
    codec is the binary one exactly when the client advertised it.  (JSON is assumed
    to give back the hello it wrote, for UTF-8 strings; the server's random number
    has 32 bytes.) *)
Theorem handshake_agreement `{JSON} (chp : list byte) (rnd : result (list byte)) (shf : Frame)
    (cx : CryptoContext) (codec : string) :
  (∀ sh p, hello_utf8 sh = true → MarshalServerHello sh = Ok p → UnmarshalServerHello p = Ok sh) →
  (∀ r, rnd = Ok r → length r = CryptoRandomSize) →
  handleClientHello (mkFrame FrameTypeClientHello 0 chp) rnd = (Some shf, Ok (cx, codec)) →
  acceptServerHello chp shf = Ok (cx, codec)
  ∧ cx_TranscriptHash cx = HashCryptoTranscript chp (f_Payload shf)
  ∧ ∃ ch, UnmarshalClientHello chp = Ok ch
      ∧ SelectAEADAlgorithm (cc_Algorithms (ch_Crypto ch)) = Some (cx_Algorithm cx)
      ∧ cx_Algorithm cx ∈ cc_Algorithms (ch_Crypto ch)
      ∧ (codec = UDPPacketCodecBinary ↔ UDPPacketCodecBinary ∈ mc_UDPPacketCodecs (ch_Message ch))
      ∧ (codec = UDPPacketCodecBinary ∨ codec = "").
Proof.
  intros Hjson Hrnd Hh. unfold handleClientHello in Hh. simpl in Hh.
  destruct (UnmarshalClientHello chp) as [ch|] eqn:Hch; [|done]. simpl in Hh.
  destruct (NewServerHello ch rnd) as [sh|] eqn:Hsh; [|by destruct (_ ≫= _)].
  destruct (MarshalServerHello sh) as [p|] eqn:Hp; [|done].
  destruct (sent _) as [f|] eqn:Hf; [|done]. apply result_bind_Ok in Hf as (? & _ & [= <-]).
  injection Hh as <- <- <-.
  unfold NewServerHello in Hsh. apply result_bind_Ok in Hsh as ([] & Hv & Hsh).
  destruct (SelectAEADAlgorithm _) as [alg|] eqn:Ha; [|done].
  apply result_bind_Ok in Hsh as (r & Hr & [= <-]). apply wrap_err_Ok, Hrnd in Hr.
  pose proof Ha as (l1 & l2 & Hl & Hsup & _)%SelectAEADAlgorithm_Some.
  assert (Hudp : selectUDPPacketCodec (mc_UDPPacketCodecs (ch_Message ch)) = UDPPacketCodecBinary
    ↔ UDPPacketCodecBinary ∈ mc_UDPPacketCodecs (ch_Message ch)).
  { unfold selectUDPPacketCodec. rewrite <-Supports_true. by destruct (Supports _ _). }
  assert (Hudp' : selectUDPPacketCodec (mc_UDPPacketCodecs (ch_Message ch)) = UDPPacketCodecBinary
    ∨ selectUDPPacketCodec (mc_UDPPacketCodecs (ch_Message ch)) = "").
  { unfold selectUDPPacketCodec. destruct (Supports _ _); auto. }
  set (codec := selectUDPPacketCodec _) in *.
  assert (Halg : alg ∈ cc_Algorithms (ch_Crypto ch)) by (rewrite Hl; set_solver).
  assert (Hu : hello_utf8 (mkServerHello (mkMessageSel MessageCodecJSON codec) (mkCryptoSel alg r) "") = true).
  { unfold hello_utf8. simpl. assert (ValidString alg = true) as ->.
    { apply list_elem_of_In in Hsup as [<-|[<-|[]]]; reflexivity. }
    destruct Hudp' as [-> | ->]; reflexivity. }
  pose proof (Hjson _ _ Hu Hp) as Hback.
  split_and!; [|done|exists ch; simpl; by split_and!].
  unfold acceptServerHello, NewClientCryptoContext. simpl. rewrite Hback, Hch. simpl.
  unfold ValidateServerHelloForClient. cbn [sh_Message sh_Crypto ms_Codec ms_UDPPacketCodec cs_Algorithm cs_ServerRandom].
  rewrite (decide_False (P := MessageCodecJSON ≠ MessageCodecJSON)) by (by intros []).
  rewrite (decide_False (P := codec ≠ "" ∧ _)) by (destruct Hudp' as [-> | ->]; naive_solver).
  assert (bool_decide (codec ≠ "") && negb (Supports (mc_UDPPacketCodecs (ch_Message ch)) codec) = false) as ->.
  { destruct Hudp' as [Hc|Hc]; rewrite Hc; [|done]. rewrite (proj2 (Supports_true _ _)) by (by apply Hudp). done. }
  unfold IsSupportedAEADAlgorithm. rewrite !(proj2 (Supports_true _ _)) by done. simpl.
  rewrite decide_False by (rewrite Hr; by intros []). done.
Qed.

(** A concrete encoding in place of JSON, for the witness: length-prefixed fields. *)
Definition enc_field (l : list byte) : list byte := be_split 8 (Z.of_nat (length l)) ++ l.
Definition dec_field (s : list byte) : result (list byte * list byte) :=
  ReadFull 8 s ≫= λ '(n, s), ReadFull (Z.to_nat (be_combine n)) s.
Definition fits (l : list byte) : bool := Z.of_nat (length l) <? 2 ^ 64.

Lemma dec_enc l s : fits l = true → dec_field (enc_field l ++ s) = Ok (l, s).
Proof.
  unfold fits, dec_field, enc_field. intros Hl. zify_bool. rewrite <-(assoc_L (++)).
  rewrite ReadFull_app by apply length_be_split. cbn [mbind result_bind].
  rewrite be_combine_split. change (256 ^ Z.of_nat 8) with (2 ^ 64). rewrite Z.mod_small by lia.
  rewrite Nat2Z.id. by apply ReadFull_app.
Qed.

Definition enc_hello (sh : ServerHello) : list byte :=
  enc_field (bytes_of (ms_Codec (sh_Message sh))) ++ enc_field (bytes_of (ms_UDPPacketCodec (sh_Message sh)))
  ++ enc_field (bytes_of (cs_Algorithm (sh_Crypto sh))) ++ enc_field (cs_ServerRandom (sh_Crypto sh))
  ++ enc_field (bytes_of (sh_Error sh)) ++ [].
Definition dec_hello (s : list byte) : result ServerHello :=
  dec_field s ≫= λ '(codec, s), dec_field s ≫= λ '(udp, s), dec_field s ≫= λ '(alg, s),
  dec_field s ≫= λ '(random, s), dec_field s ≫= λ '(err, _),
  Ok (mkServerHello (mkMessageSel (string_of codec) (string_of udp)) (mkCryptoSel (string_of alg) random)
        (string_of err)).
Definition hello_fits (sh : ServerHello) : bool :=
  fits (bytes_of (ms_Codec (sh_Message sh))) && fits (bytes_of (ms_UDPPacketCodec (sh_Message sh)))
  && fits (bytes_of (cs_Algorithm (sh_Crypto sh))) && fits (cs_ServerRandom (sh_Crypto sh))
  && fits (bytes_of (sh_Error sh)).
Definition demo_hello : ClientHello :=
  clientHelloWithCryptoRandom false (mkBootstrap "tcp" true true) (replicate 32 Byte.x07).
Definition demo_json : JSON :=
  {| MarshalClientHello _ := Ok [Byte.x7b]; UnmarshalClientHello _ := Ok demo_hello;
     MarshalServerHello sh := if hello_fits sh then Ok (enc_hello sh) else Err "too long";
     UnmarshalServerHello := dec_hello |}.

Lemma dec_enc_hello sh : hello_fits sh = true → dec_hello (enc_hello sh) = Ok sh.
Proof.
  unfold hello_fits. rewrite !andb_true_iff. intros [[[[H1 H2] H3] H4] H5]. unfold dec_hello, enc_hello.
  rewrite dec_enc by done. cbn [mbind result_bind]. rewrite dec_enc by done. cbn [mbind result_bind].
  rewrite dec_enc by done. cbn [mbind result_bind]. rewrite dec_enc by done. cbn [mbind result_bind].
  rewrite dec_enc by done. cbn [mbind result_bind]. rewrite !string_of_bytes_of. by destruct sh as [[] [] ?].
Qed.

Lemma handshake_agreement_witness :
  ∃ shf cx, @handleClientHello demo_json (mkFrame FrameTypeClientHello 0 [Byte.x7b])
      (Ok (replicate 32 Byte.x09)) = (Some shf, Ok (cx, "binary-v1"))
    ∧ @acceptServerHello demo_json [Byte.x7b] shf = Ok (cx, "binary-v1")
    ∧ cx_Algorithm cx = "xchacha20-poly1305".
Proof.
  eexists _, _. split; [cbv delta [handleClientHello] beta; reflexivity|]. split; [|reflexivity].
  refine (proj1 (@handshake_agreement demo_json [Byte.x7b] (Ok (replicate 32 Byte.x09)) _ _ _ _ _ _)).
  - intros sh p _ Hp. cbn [MarshalServerHello UnmarshalServerHello demo_json] in *.
    destruct (hello_fits sh) eqn:Hf; [|discriminate Hp]. injection Hp as <-. by apply dec_enc_hello.
  - intros r [= <-]. reflexivity.
  - reflexivity.
Defined.
