(* ===== verification/MsgV2.v ===== *)
(** * Messages over wire protocol v2: [pkg/msg/wire_v2.go], [pkg/msg/handler.go]

    The JSON text of a message is the class [MsgJSON], whose instance is
    [MsgJson.msg_json]; the two-byte type id,
    the checks around it, the frames, and the dispatcher's loops are the source's. *)
From S2P Require Import Prelude GoStd Msg Wire.
From stdpp Require Import list.
Local Open Scope Z_scope.

(** [encoding/json] on the message structs, by struct type. *)
Class MsgJSON := {
  MarshalMsg : Message → result (list byte);
  UnmarshalMsg : MsgType → list byte → result Message;
}.

Definition v2MsgTypeID (t : MsgType) : Z :=
  match t with
  | TLogin => 1 | TLoginResp => 2 | TNewProxy => 3 | TNewProxyResp => 4 | TCloseProxy => 5
  | TNewWorkConn => 6 | TReqWorkConn => 7 | TStartWorkConn => 8 | TNewVisitorConn => 9
  | TNewVisitorConnResp => 10 | TPing => 11 | TPong => 12 | TUDPPacket => 13
  | TNatHoleVisitor => 14 | TNatHoleClient => 15 | TNatHoleResp => 16 | TNatHoleSid => 17
  | TNatHoleReport => 18
  end.
Definition V2TypeUDPPacketBinary : Z := 19.
(** [v2MsgReflectTypeMap]. *)
Definition v2MsgReflectType (id : Z) : option MsgType :=
  list_find (λ t, v2MsgTypeID t = id) all_types ≫= λ p, Some p.2.

Lemma v2MsgReflectType_spec id t : v2MsgReflectType id = Some t ↔ id = v2MsgTypeID t.
Proof.
  unfold v2MsgReflectType. split; [|intros ->; by destruct t]. intros H.
  destruct (list_find _ _) as [[i t']|] eqn:E; [|done]. simpl in H. simplify_eq.
  by apply list_find_Some in E as (_ & ? & _).
Qed.

(** [reflect.Type.String()]. *)
Definition type_name (t : MsgType) : string :=
  match t with
  | TLogin => "msg.Login" | TLoginResp => "msg.LoginResp" | TNewProxy => "msg.NewProxy"
  | TNewProxyResp => "msg.NewProxyResp" | TCloseProxy => "msg.CloseProxy"
  | TNewWorkConn => "msg.NewWorkConn" | TReqWorkConn => "msg.ReqWorkConn"
  | TStartWorkConn => "msg.StartWorkConn" | TNewVisitorConn => "msg.NewVisitorConn"
  | TNewVisitorConnResp => "msg.NewVisitorConnResp" | TPing => "msg.Ping" | TPong => "msg.Pong"
  | TUDPPacket => "msg.UDPPacket" | TNatHoleVisitor => "msg.NatHoleVisitor"
  | TNatHoleClient => "msg.NatHoleClient" | TNatHoleResp => "msg.NatHoleResp"
  | TNatHoleSid => "msg.NatHoleSid" | TNatHoleReport => "msg.NatHoleReport"
  end.

Definition unexpected_frame (f : Frame) : string :=
  "unexpected frame type " +:+ Itoa (f_Type f) +:+ ", want 16".
Definition unknown_type (id : Z) : string := "unknown v2 message type " +:+ Itoa id.

Section codec.
Context `{MsgJSON}.
Definition DecodeV2MessageFrame (f : Frame) : result Message :=
  if decide (f_Type f ≠ FrameTypeMessage) then Err (unexpected_frame f)
  else if decide (length (f_Payload f) < 2)%nat then Err "message frame payload too short"
  else
    let typeID := be_combine (take 2 (f_Payload f)) in
    match v2MsgReflectType typeID with
    | None => Err (unknown_type typeID)
    | Some t => UnmarshalMsg t (drop 2 (f_Payload f))
    end.
(** [out] points to a registered struct of type [out]. *)
Definition DecodeV2MessageFrameInto (f : Frame) (out : MsgType) : result Message :=
  if decide (f_Type f ≠ FrameTypeMessage) then Err (unexpected_frame f)
  else if decide (length (f_Payload f) < 2)%nat then Err "message frame payload too short"
  else
    let typeID := be_combine (take 2 (f_Payload f)) in
    if decide (typeID ≠ v2MsgTypeID out) then
      match v2MsgReflectType typeID with
      | None => Err (unknown_type typeID)
      | Some t => Err ("unexpected message type " +:+ type_name t +:+ ", want " +:+ type_name out)
      end
    else UnmarshalMsg out (drop 2 (f_Payload f)).
(** [None] is the nil message. *)
Definition EncodeV2MessageFrame (m : option Message) : result Frame :=
  match m with
  | None => Err "nil message"
  | Some m =>
      MarshalMsg m ≫= λ content,
      Ok (mkFrame FrameTypeMessage 0 (be_split 2 (v2MsgTypeID (type_of m)) ++ content))
  end.

(** [V2ReadWriter]: the bytes written, and the message read with the bytes left. *)
Definition V2_WriteMsg (m : option Message) : result (list byte) :=
  EncodeV2MessageFrame m ≫= WriteFrame DefaultMaxFramePayloadSize.
Definition V2_ReadMsg (s : list byte) : result (Message * list byte) :=
  ReadFrame DefaultMaxFramePayloadSize s ≫= λ '(f, s),
  DecodeV2MessageFrame f ≫= λ m, Ok (m, s).
Definition V2_ReadMsgInto (out : MsgType) (s : list byte) : result (Message * list byte) :=
  ReadFrame DefaultMaxFramePayloadSize s ≫= λ '(f, s),
  DecodeV2MessageFrameInto f out ≫= λ m, Ok (m, s).
End codec.

(** Wire protocol v1's codec is a third-party library: what it writes for a message, and
    what it reads from the bytes of a connection. *)
Class V1Codec := {
  V1_WriteMsg : Message → result (list byte);
  V1_ReadMsg : list byte → result (Message * list byte);
  V1_ReadMsgInto : MsgType → list byte → result (Message * list byte);
}.

(** [NewReadWriter] of [handler.go]: the codec of a wire protocol. *)
Section read_writer.
Context `{MsgJSON} `{V1Codec}.
Definition rw_WriteMsg (wireProtocol : string) (m : Message) : result (list byte) :=
  if decide (wireProtocol = "v2") then V2_WriteMsg (Some m) else V1_WriteMsg m.
Definition rw_ReadMsg (wireProtocol : string) (s : list byte) : result (Message * list byte) :=
  if decide (wireProtocol = "v2") then V2_ReadMsg s else V1_ReadMsg s.
Definition rw_ReadMsgInto (wireProtocol : string) (out : MsgType) (s : list byte)
    : result (Message * list byte) :=
  if decide (wireProtocol = "v2") then V2_ReadMsgInto out s else V1_ReadMsgInto out s.
End read_writer.

(** ** The dispatcher *)
Definition sendCh_capacity : nat := 100.

(** [readLoop] over what successive reads return: each message goes to the handler
    of its type (a change of the state the handlers share), a message without one is
    dropped, the first error ends the loop.  The result is the state and whether
    [doneCh] was closed. *)
Fixpoint readLoop {S : Type} (handlers : MsgType → option (Message → S → S))
    (reads : list (result Message)) (s : S) : S * bool :=
  match reads with
  | [] => (s, false)
  | Err _ :: _ => (s, true)
  | Ok m :: reads =>
      readLoop handlers reads
        (match handlers (type_of m) with Some h => h m s | None => s end)
  end.

(** Sending: the buffered channel, whether [doneCh] is closed, whether [sendLoop] has
    returned, what was written, and all messages [Send] accepted. *)
Record dispatcher := mkDispatcher {
  sendCh : list Message;
  d_done : bool;
  d_exited : bool;
  d_written : list Message;
  d_sent : list Message;
}.
Definition NewDispatcher : dispatcher := mkDispatcher [] false false [] [].
(** What [Send] can return: when both cases of its [select] are ready Go picks one. *)
Inductive dstep : dispatcher → dispatcher → Prop :=
| ds_send m d : (length (sendCh d) < sendCh_capacity)%nat →
    dstep d (mkDispatcher (sendCh d ++ [m]) (d_done d) (d_exited d) (d_written d) (d_sent d ++ [m]))
| ds_send_eof d : d_done d = true → dstep d d
| ds_write m q d : d_exited d = false → sendCh d = m :: q →
    dstep d (mkDispatcher q (d_done d) (d_exited d) (d_written d ++ [m]) (d_sent d))
| ds_read_error d : dstep d (mkDispatcher (sendCh d) true (d_exited d) (d_written d) (d_sent d))
| ds_exit d : d_done d = true →
    dstep d (mkDispatcher (sendCh d) (d_done d) true (d_written d) (d_sent d)).

(** ** Theorems *)
Lemma v2_type_range t : 0 ≤ v2MsgTypeID t < 65536.
Proof. by destruct t. Qed.

Lemma take_drop_app2 (a b : list byte) : length a = 2%nat → take 2 (a ++ b) = a ∧ drop 2 (a ++ b) = b.
Proof. intros H. do 3 (destruct a as [|? a]; try done). Qed.

Lemma decode_encode `{MsgJSON} m f p : EncodeV2MessageFrame (Some m) = Ok f → MarshalMsg m = Ok p →
  f_Type f = 16 ∧ DecodeV2MessageFrame f = UnmarshalMsg (type_of m) p
  ∧ ∀ out, DecodeV2MessageFrameInto f out =
      if decide (out = type_of m) then UnmarshalMsg out p
      else Err ("unexpected message type " +:+ type_name (type_of m) +:+ ", want " +:+ type_name out).
Proof.
  intros He Hp. unfold EncodeV2MessageFrame in He. rewrite Hp in He. cbn [mbind result_bind] in He.
  assert (f = mkFrame FrameTypeMessage 0 (be_split 2 (v2MsgTypeID (type_of m)) ++ p)) as -> by congruence.
  clear He. unfold DecodeV2MessageFrame, DecodeV2MessageFrameInto. cbn [f_Type f_Payload].
  set (h := be_split 2 (v2MsgTypeID (type_of m))). assert (Hl : length h = 2%nat) by apply length_be_split.
  destruct (take_drop_app2 h p Hl) as [-> ->].
  assert (be_combine h = v2MsgTypeID (type_of m)) as -> by (apply be_combine_16, v2_type_range).
  assert (v2MsgReflectType (v2MsgTypeID (type_of m)) = Some (type_of m)) as -> by (by apply v2MsgReflectType_spec).
  assert (Hlen : ¬ (length (h ++ p) < 2)%nat) by (rewrite length_app; lia).
  rewrite (decide_False (P := FrameTypeMessage ≠ FrameTypeMessage)), (decide_False (P := _ < _)%nat)
    by (done || by intros []).
  split_and!; [done..|]. intros out.
  rewrite (decide_False (P := FrameTypeMessage ≠ FrameTypeMessage)), (decide_False (P := _ < _)%nat)
    by (done || by intros []).
  destruct (decide (out = type_of m)) as [->|Hne].
  - rewrite decide_False; [done|]. intros Hn. by apply Hn.
  - rewrite (decide_True (P := v2MsgTypeID (type_of m) ≠ _)); [done|]. intros Heq. apply Hne.
    apply (inj Some). transitivity (v2MsgReflectType (v2MsgTypeID (type_of m)));
      [symmetry|]; by apply v2MsgReflectType_spec.
Qed.

(** A v2 message is read back as what was written, with the rest of the stream
    untouched: if a message's JSON text reads back as that message, then whatever
    [V2ReadWriter.WriteMsg] writes for it is read as it, by [ReadMsg] and by
    [ReadMsgInto] of its own type, while [ReadMsgInto] of any other type refuses it;
    so a reader never takes a message of one type for another. *)
Theorem v2_message_roundtrip `{MsgJSON} (m : Message) (bs rest : list byte) :
  (∀ p, MarshalMsg m = Ok p → UnmarshalMsg (type_of m) p = Ok m) →
  V2_WriteMsg (Some m) = Ok bs →
  V2_ReadMsg (bs ++ rest) = Ok (m, rest)
  ∧ ∀ out, V2_ReadMsgInto out (bs ++ rest) =
      if decide (out = type_of m) then Ok (m, rest)
      else Err ("unexpected message type " +:+ type_name (type_of m) +:+ ", want " +:+ type_name out).
Proof.
  intros Hjson Hw. unfold V2_WriteMsg in Hw. apply result_bind_Ok in Hw as (f & Hf & Hw).
  assert (∃ p, MarshalMsg m = Ok p) as [p Hp].
  { unfold EncodeV2MessageFrame in Hf. by apply result_bind_Ok in Hf as (p & Hp & _); exists p. }
  destruct (decode_encode _ _ _ Hf Hp) as (Ht & Hd & Hinto).
  assert (Hread : ReadFrame DefaultMaxFramePayloadSize (bs ++ rest) = Ok (f, rest)).
  { apply read_written_frame; [done|by rewrite Ht|done]. }
  unfold V2_ReadMsg, V2_ReadMsgInto. rewrite Hread. cbn [mbind result_bind]. rewrite Hd, (Hjson _ Hp).
  split; [done|]. intros out. rewrite Hinto. destruct (decide (out = type_of m)) as [->|]; [|done].
  by rewrite (Hjson _ Hp).
Qed.

(** The dispatcher writes what was sent, in order.  In every reachable state the
    accepted messages are exactly those written followed by those waiting, at most
    100 of them; a message that waits when [sendLoop] has returned is never written,
    although its [Send] reported success. *)
Theorem dispatcher_fifo (d : dispatcher) : rtc dstep NewDispatcher d →
  d_sent d = d_written d ++ sendCh d ∧ (length (sendCh d) ≤ sendCh_capacity)%nat
  ∧ (d_exited d = true → d_done d = true
     ∧ ∀ d', rtc dstep d d' → d_written d' = d_written d ∧ d_exited d' = true).
Proof.
  intros Hr. assert (Hinv : d_sent d = d_written d ++ sendCh d ∧ (length (sendCh d) ≤ sendCh_capacity)%nat
    ∧ (d_exited d = true → d_done d = true)).
  { assert (H0 : d_sent NewDispatcher = d_written NewDispatcher ++ sendCh NewDispatcher
      ∧ (length (sendCh NewDispatcher) ≤ sendCh_capacity)%nat
      ∧ (d_exited NewDispatcher = true → d_done NewDispatcher = true))
      by (split_and!; [done|unfold sendCh_capacity; simpl; lia|done]).
    revert H0. induction Hr as [|d1 d2 d3 Hs Hr IH]; [done|]. intros (H1 & H2 & H3). apply IH.
    destruct Hs as [m d Hl|d Hd|m q d He Hq|d|d Hd]; simpl; [|done| |done|done].
    - rewrite length_app. simpl. split_and!; [by rewrite H1, (assoc_L (++))|lia|done].
    - rewrite Hq in *. simpl in *. split_and!; [by rewrite H1, <-(assoc_L (++))|lia|done]. }
  destruct Hinv as (? & ? & Hd). split_and!; [done..|]. intros He. split; [by apply Hd|].
  intros d' Hr'. revert He. clear -Hr'. induction Hr' as [|d1 d2 d3 Hs Hr' IH]; [done|]. intros He.
  destruct Hs; simpl in *; try congruence; destruct (IH ltac:(done)) as [-> ->]; done.
Qed.

(** ** Witnesses *)
Definition demo_msg_json : MsgJSON :=
  {| MarshalMsg m := match m with MCloseProxy m => Ok (bytes_of (cp_ProxyName m)) | _ => Err "other" end;
     UnmarshalMsg t p := match t with TCloseProxy => Ok (MCloseProxy (mkCloseProxy (string_of p)))
                         | _ => Err "other" end |}.

Lemma v2_message_roundtrip_witness :
  ∃ bs, @V2_WriteMsg demo_msg_json (Some (MCloseProxy (mkCloseProxy "web"))) = Ok bs
    ∧ @V2_ReadMsg demo_msg_json (bs ++ [Byte.x00]) = Ok (MCloseProxy (mkCloseProxy "web"), [Byte.x00]).
Proof.
  eexists. split; [reflexivity|].
  refine (proj1 (@v2_message_roundtrip demo_msg_json (MCloseProxy (mkCloseProxy "web")) _ [Byte.x00] _ eq_refl)).
  intros p [= <-]. reflexivity.
Defined.

Definition demo_dispatcher : dispatcher :=
  mkDispatcher [MReqWorkConn] true true [MPong (mkPong "")] [MPong (mkPong ""); MReqWorkConn].
Lemma demo_dispatcher_reachable : rtc dstep NewDispatcher demo_dispatcher.
Proof.
  eapply rtc_l; [apply (ds_send (MPong (mkPong ""))); simpl; unfold sendCh_capacity; lia|].
  eapply rtc_l; [eapply ds_write; reflexivity|].
  eapply rtc_l; [apply (ds_send MReqWorkConn); simpl; unfold sendCh_capacity; lia|].
  eapply rtc_l; [apply ds_read_error|]. eapply rtc_l; [by apply ds_exit|]. apply rtc_refl.
Qed.

(** A message accepted, and lost when the connection ended. *)
Lemma dispatcher_fifo_witness :
  sendCh demo_dispatcher = [MReqWorkConn]
  ∧ ∀ d', rtc dstep demo_dispatcher d' → d_written d' = [MPong (mkPong "")].
Proof.
  split; [reflexivity|]. intros d' Hr.
  exact (proj1 (proj2 (proj2 (proj2 (dispatcher_fifo demo_dispatcher demo_dispatcher_reachable)) eq_refl) d' Hr)).
Defined.
