(* ===== verification/MsgJson.v ===== *)
(** * Messages as JSON: the tags of [pkg/msg/msg.go]

    The struct types of the messages with their keys, and with them the instance of
    [MsgV2.MsgJSON]: a message travels over wire protocol v2 and arrives as it was, without an
    assumption on JSON.  Of [UDPPacket], which nothing here sends, the codec is a parameter
    (base64 and IP addresses); so is the text of a syntax error. *)
From S2P Require Import Prelude GoStd Json JsonCodec Msg ConfigV1 Wire MsgV2.
From stdpp Require Import list.
Local Open Scope Z_scope.

(** [uint16]: 16-bit ports. *)
Definition in_uint16 (z : Z) : Prop := 0 ≤ z < 65536.
Definition c_uint16 : codec Z := {|
  c_type := "uint16"; c_zero := 0;
  c_dec _ j old := match j with
                   | JNum lit =>
                       match parse_uint (string_of lit) with
                       | inl z => if z <? 65536 then (z, [])
                                  else (old, [JTypeError ("number " +:+ string_of lit) "" [] "uint16"])
                       | inr _ => (old, [JTypeError ("number " +:+ string_of lit) "" [] "uint16"])
                       end
                   | JNull => (old, []) | _ => (old, [type_error j "uint16"])
                   end;
  c_enc z := JNum (bytes_of (Itoa z)); c_empty z := bool_decide (z = 0); c_ok z := in_uint16 z;
  c_depth := 0 |}.
Lemma parse_uint_nonneg s z : parse_uint s = inl z → 0 ≤ z.
Proof.
  assert (Hloop : ∀ s acc v, 0 ≤ acc → parse_uint_loop acc s = inl v → 0 ≤ v).
  { clear. induction s as [|c s IH]; intros acc v Hacc; simpl; [naive_solver|].
    destruct (digit_val c) as [d|] eqn:Hd; [|done]. case_bool_decide; [done|].
    apply IH. unfold digit_val in Hd. case_bool_decide; simplify_eq. lia. }
  unfold parse_uint. destruct s; [done|]. by apply Hloop.
Qed.
#[export] Instance c_uint16_lawful : Lawful c_uint16.
Proof.
  split; [done| |done| | |].
  - intros strict [] old Hj Ho; simpl; try done.
    destruct (parse_uint _) as [z|] eqn:E; [|done]. apply parse_uint_nonneg in E.
    destruct (Z.ltb_spec z 65536); [|done]. unfold in_uint16. simpl. lia.
  - intros strict x old Hx _. unfold c_ok, c_uint16, in_uint16 in Hx. cbn [c_dec c_enc c_uint16].
    rewrite string_of_bytes_of. destruct x as [|p|p]; [done| |lia].
    change (Itoa (Z.pos p)) with (pretty (N.pos p)). rewrite parse_uint_pretty by (unfold MaxUint64; lia).
    by rewrite (proj2 (Z.ltb_lt _ _)) by lia.
  - intros x _. apply Itoa_literal.
  - by intros x ?%bool_decide_eq_true.
Qed.
#[export] Instance c_uint16_notnull : NotNull c_uint16.
Proof. done. Qed.

(** ** The structs *)
Definition fields_ClientSpec : list (field ClientSpec) :=
  [mkField "type" [] (c_string "string") true cs_Type (λ x r,
     mkClientSpec x (cs_AlwaysAuthPass r));
   mkField "always_auth_pass" [] c_bool true cs_AlwaysAuthPass (λ x r,
     mkClientSpec (cs_Type r) x)].
Definition zero_ClientSpec : ClientSpec := mkClientSpec "" false.
Definition c_ClientSpec : codec ClientSpec :=
  c_struct "msg" "ClientSpec" zero_ClientSpec fields_ClientSpec.
#[export] Instance ClientSpec_laws : StructLaws zero_ClientSpec fields_ClientSpec.
Proof.
  struct_laws.
  - intros [] []. repeat split.
  - repeat constructor; by intros [].
Qed.

Definition fields_Login : list (field Login) :=
  [mkField "version" [] (c_string "string") true lg_Version (λ x r,
     mkLogin x (lg_Hostname r) (lg_Os r) (lg_Arch r) (lg_User r) (lg_PrivilegeKey r) (lg_Timestamp r)
       (lg_RunID r) (lg_ClientID r) (lg_Metas r) (lg_ClientSpec r) (lg_PoolCount r));
   mkField "hostname" [] (c_string "string") true lg_Hostname (λ x r,
     mkLogin (lg_Version r) x (lg_Os r) (lg_Arch r) (lg_User r) (lg_PrivilegeKey r) (lg_Timestamp r)
       (lg_RunID r) (lg_ClientID r) (lg_Metas r) (lg_ClientSpec r) (lg_PoolCount r));
   mkField "os" [] (c_string "string") true lg_Os (λ x r,
     mkLogin (lg_Version r) (lg_Hostname r) x (lg_Arch r) (lg_User r) (lg_PrivilegeKey r) (lg_Timestamp r)
       (lg_RunID r) (lg_ClientID r) (lg_Metas r) (lg_ClientSpec r) (lg_PoolCount r));
   mkField "arch" [] (c_string "string") true lg_Arch (λ x r,
     mkLogin (lg_Version r) (lg_Hostname r) (lg_Os r) x (lg_User r) (lg_PrivilegeKey r) (lg_Timestamp r)
       (lg_RunID r) (lg_ClientID r) (lg_Metas r) (lg_ClientSpec r) (lg_PoolCount r));
   mkField "user" [] (c_string "string") true lg_User (λ x r,
     mkLogin (lg_Version r) (lg_Hostname r) (lg_Os r) (lg_Arch r) x (lg_PrivilegeKey r) (lg_Timestamp r)
       (lg_RunID r) (lg_ClientID r) (lg_Metas r) (lg_ClientSpec r) (lg_PoolCount r));
   mkField "privilege_key" [] (c_string "string") true lg_PrivilegeKey (λ x r,
     mkLogin (lg_Version r) (lg_Hostname r) (lg_Os r) (lg_Arch r) (lg_User r) x (lg_Timestamp r) (lg_RunID
       r) (lg_ClientID r) (lg_Metas r) (lg_ClientSpec r) (lg_PoolCount r));
   mkField "timestamp" [] (c_int "int64") true lg_Timestamp (λ x r,
     mkLogin (lg_Version r) (lg_Hostname r) (lg_Os r) (lg_Arch r) (lg_User r) (lg_PrivilegeKey r) x
       (lg_RunID r) (lg_ClientID r) (lg_Metas r) (lg_ClientSpec r) (lg_PoolCount r));
   mkField "run_id" [] (c_string "string") true lg_RunID (λ x r,
     mkLogin (lg_Version r) (lg_Hostname r) (lg_Os r) (lg_Arch r) (lg_User r) (lg_PrivilegeKey r)
       (lg_Timestamp r) x (lg_ClientID r) (lg_Metas r) (lg_ClientSpec r) (lg_PoolCount r));
   mkField "client_id" [] (c_string "string") true lg_ClientID (λ x r,
     mkLogin (lg_Version r) (lg_Hostname r) (lg_Os r) (lg_Arch r) (lg_User r) (lg_PrivilegeKey r)
       (lg_Timestamp r) (lg_RunID r) x (lg_Metas r) (lg_ClientSpec r) (lg_PoolCount r));
   mkField "metas" [] c_strmap true lg_Metas (λ x r,
     mkLogin (lg_Version r) (lg_Hostname r) (lg_Os r) (lg_Arch r) (lg_User r) (lg_PrivilegeKey r)
       (lg_Timestamp r) (lg_RunID r) (lg_ClientID r) x (lg_ClientSpec r) (lg_PoolCount r));
   mkField "client_spec" [] c_ClientSpec true lg_ClientSpec (λ x r,
     mkLogin (lg_Version r) (lg_Hostname r) (lg_Os r) (lg_Arch r) (lg_User r) (lg_PrivilegeKey r)
       (lg_Timestamp r) (lg_RunID r) (lg_ClientID r) (lg_Metas r) x (lg_PoolCount r));
   mkField "pool_count" [] (c_int "int") true lg_PoolCount (λ x r,
     mkLogin (lg_Version r) (lg_Hostname r) (lg_Os r) (lg_Arch r) (lg_User r) (lg_PrivilegeKey r)
       (lg_Timestamp r) (lg_RunID r) (lg_ClientID r) (lg_Metas r) (lg_ClientSpec r) x)].
Definition zero_Login : Login := mkLogin "" "" "" "" "" "" 0 "" "" ∅ zero_ClientSpec 0.
Definition c_Login : codec Login :=
  c_struct "msg" "Login" zero_Login fields_Login.
#[export] Instance Login_laws : StructLaws zero_Login fields_Login.
Proof.
  struct_laws.
  - intros [] []. repeat split.
  - repeat constructor; by intros [].
Qed.

Definition fields_LoginResp : list (field LoginResp) :=
  [mkField "version" [] (c_string "string") true lr_Version (λ x r,
     mkLoginResp x (lr_RunID r) (lr_Error r));
   mkField "run_id" [] (c_string "string") true lr_RunID (λ x r,
     mkLoginResp (lr_Version r) x (lr_Error r));
   mkField "error" [] (c_string "string") true lr_Error (λ x r,
     mkLoginResp (lr_Version r) (lr_RunID r) x)].
Definition zero_LoginResp : LoginResp := mkLoginResp "" "" "".
Definition c_LoginResp : codec LoginResp :=
  c_struct "msg" "LoginResp" zero_LoginResp fields_LoginResp.
#[export] Instance LoginResp_laws : StructLaws zero_LoginResp fields_LoginResp.
Proof.
  struct_laws.
  - intros [] []. repeat split.
  - repeat constructor; by intros [].
Qed.

Definition fields_NewProxy : list (field NewProxy) :=
  [mkField "proxy_name" [] (c_string "string") true np_ProxyName (λ x r,
     mkNewProxy x (np_ProxyType r) (np_UseEncryption r) (np_UseCompression r) (np_BandwidthLimit r)
       (np_BandwidthLimitMode r) (np_Group r) (np_GroupKey r) (np_Metas r) (np_Annotations r) (np_RemotePort
       r) (np_CustomDomains r) (np_SubDomain r) (np_Locations r) (np_HTTPUser r) (np_HTTPPwd r)
       (np_HostHeaderRewrite r) (np_Headers r) (np_ResponseHeaders r) (np_RouteByHTTPUser r) (np_Sk r)
       (np_AllowUsers r) (np_Multiplexer r));
   mkField "proxy_type" [] (c_string "string") true np_ProxyType (λ x r,
     mkNewProxy (np_ProxyName r) x (np_UseEncryption r) (np_UseCompression r) (np_BandwidthLimit r)
       (np_BandwidthLimitMode r) (np_Group r) (np_GroupKey r) (np_Metas r) (np_Annotations r) (np_RemotePort
       r) (np_CustomDomains r) (np_SubDomain r) (np_Locations r) (np_HTTPUser r) (np_HTTPPwd r)
       (np_HostHeaderRewrite r) (np_Headers r) (np_ResponseHeaders r) (np_RouteByHTTPUser r) (np_Sk r)
       (np_AllowUsers r) (np_Multiplexer r));
   mkField "use_encryption" [] c_bool true np_UseEncryption (λ x r,
     mkNewProxy (np_ProxyName r) (np_ProxyType r) x (np_UseCompression r) (np_BandwidthLimit r)
       (np_BandwidthLimitMode r) (np_Group r) (np_GroupKey r) (np_Metas r) (np_Annotations r) (np_RemotePort
       r) (np_CustomDomains r) (np_SubDomain r) (np_Locations r) (np_HTTPUser r) (np_HTTPPwd r)
       (np_HostHeaderRewrite r) (np_Headers r) (np_ResponseHeaders r) (np_RouteByHTTPUser r) (np_Sk r)
       (np_AllowUsers r) (np_Multiplexer r));
   mkField "use_compression" [] c_bool true np_UseCompression (λ x r,
     mkNewProxy (np_ProxyName r) (np_ProxyType r) (np_UseEncryption r) x (np_BandwidthLimit r)
       (np_BandwidthLimitMode r) (np_Group r) (np_GroupKey r) (np_Metas r) (np_Annotations r) (np_RemotePort
       r) (np_CustomDomains r) (np_SubDomain r) (np_Locations r) (np_HTTPUser r) (np_HTTPPwd r)
       (np_HostHeaderRewrite r) (np_Headers r) (np_ResponseHeaders r) (np_RouteByHTTPUser r) (np_Sk r)
       (np_AllowUsers r) (np_Multiplexer r));
   mkField "bandwidth_limit" [] (c_string "string") true np_BandwidthLimit (λ x r,
     mkNewProxy (np_ProxyName r) (np_ProxyType r) (np_UseEncryption r) (np_UseCompression r) x
       (np_BandwidthLimitMode r) (np_Group r) (np_GroupKey r) (np_Metas r) (np_Annotations r) (np_RemotePort
       r) (np_CustomDomains r) (np_SubDomain r) (np_Locations r) (np_HTTPUser r) (np_HTTPPwd r)
       (np_HostHeaderRewrite r) (np_Headers r) (np_ResponseHeaders r) (np_RouteByHTTPUser r) (np_Sk r)
       (np_AllowUsers r) (np_Multiplexer r));
   mkField "bandwidth_limit_mode" [] (c_string "string") true np_BandwidthLimitMode (λ x r,
     mkNewProxy (np_ProxyName r) (np_ProxyType r) (np_UseEncryption r) (np_UseCompression r)
       (np_BandwidthLimit r) x (np_Group r) (np_GroupKey r) (np_Metas r) (np_Annotations r) (np_RemotePort
       r) (np_CustomDomains r) (np_SubDomain r) (np_Locations r) (np_HTTPUser r) (np_HTTPPwd r)
       (np_HostHeaderRewrite r) (np_Headers r) (np_ResponseHeaders r) (np_RouteByHTTPUser r) (np_Sk r)
       (np_AllowUsers r) (np_Multiplexer r));
   mkField "group" [] (c_string "string") true np_Group (λ x r,
     mkNewProxy (np_ProxyName r) (np_ProxyType r) (np_UseEncryption r) (np_UseCompression r)
       (np_BandwidthLimit r) (np_BandwidthLimitMode r) x (np_GroupKey r) (np_Metas r) (np_Annotations r)
       (np_RemotePort r) (np_CustomDomains r) (np_SubDomain r) (np_Locations r) (np_HTTPUser r) (np_HTTPPwd
       r) (np_HostHeaderRewrite r) (np_Headers r) (np_ResponseHeaders r) (np_RouteByHTTPUser r) (np_Sk r)
       (np_AllowUsers r) (np_Multiplexer r));
   mkField "group_key" [] (c_string "string") true np_GroupKey (λ x r,
     mkNewProxy (np_ProxyName r) (np_ProxyType r) (np_UseEncryption r) (np_UseCompression r)
       (np_BandwidthLimit r) (np_BandwidthLimitMode r) (np_Group r) x (np_Metas r) (np_Annotations r)
       (np_RemotePort r) (np_CustomDomains r) (np_SubDomain r) (np_Locations r) (np_HTTPUser r) (np_HTTPPwd
       r) (np_HostHeaderRewrite r) (np_Headers r) (np_ResponseHeaders r) (np_RouteByHTTPUser r) (np_Sk r)
       (np_AllowUsers r) (np_Multiplexer r));
   mkField "metas" [] c_strmap true np_Metas (λ x r,
     mkNewProxy (np_ProxyName r) (np_ProxyType r) (np_UseEncryption r) (np_UseCompression r)
       (np_BandwidthLimit r) (np_BandwidthLimitMode r) (np_Group r) (np_GroupKey r) x (np_Annotations r)
       (np_RemotePort r) (np_CustomDomains r) (np_SubDomain r) (np_Locations r) (np_HTTPUser r) (np_HTTPPwd
       r) (np_HostHeaderRewrite r) (np_Headers r) (np_ResponseHeaders r) (np_RouteByHTTPUser r) (np_Sk r)
       (np_AllowUsers r) (np_Multiplexer r));
   mkField "annotations" [] c_strmap true np_Annotations (λ x r,
     mkNewProxy (np_ProxyName r) (np_ProxyType r) (np_UseEncryption r) (np_UseCompression r)
       (np_BandwidthLimit r) (np_BandwidthLimitMode r) (np_Group r) (np_GroupKey r) (np_Metas r) x
       (np_RemotePort r) (np_CustomDomains r) (np_SubDomain r) (np_Locations r) (np_HTTPUser r) (np_HTTPPwd
       r) (np_HostHeaderRewrite r) (np_Headers r) (np_ResponseHeaders r) (np_RouteByHTTPUser r) (np_Sk r)
       (np_AllowUsers r) (np_Multiplexer r));
   mkField "remote_port" [] (c_int "int") true np_RemotePort (λ x r,
     mkNewProxy (np_ProxyName r) (np_ProxyType r) (np_UseEncryption r) (np_UseCompression r)
       (np_BandwidthLimit r) (np_BandwidthLimitMode r) (np_Group r) (np_GroupKey r) (np_Metas r)
       (np_Annotations r) x (np_CustomDomains r) (np_SubDomain r) (np_Locations r) (np_HTTPUser r)
       (np_HTTPPwd r) (np_HostHeaderRewrite r) (np_Headers r) (np_ResponseHeaders r) (np_RouteByHTTPUser r)
       (np_Sk r) (np_AllowUsers r) (np_Multiplexer r));
   mkField "custom_domains" [] (c_slice "[]string" (c_string "string")) true np_CustomDomains (λ x r,
     mkNewProxy (np_ProxyName r) (np_ProxyType r) (np_UseEncryption r) (np_UseCompression r)
       (np_BandwidthLimit r) (np_BandwidthLimitMode r) (np_Group r) (np_GroupKey r) (np_Metas r)
       (np_Annotations r) (np_RemotePort r) x (np_SubDomain r) (np_Locations r) (np_HTTPUser r) (np_HTTPPwd
       r) (np_HostHeaderRewrite r) (np_Headers r) (np_ResponseHeaders r) (np_RouteByHTTPUser r) (np_Sk r)
       (np_AllowUsers r) (np_Multiplexer r));
   mkField "subdomain" [] (c_string "string") true np_SubDomain (λ x r,
     mkNewProxy (np_ProxyName r) (np_ProxyType r) (np_UseEncryption r) (np_UseCompression r)
       (np_BandwidthLimit r) (np_BandwidthLimitMode r) (np_Group r) (np_GroupKey r) (np_Metas r)
       (np_Annotations r) (np_RemotePort r) (np_CustomDomains r) x (np_Locations r) (np_HTTPUser r)
       (np_HTTPPwd r) (np_HostHeaderRewrite r) (np_Headers r) (np_ResponseHeaders r) (np_RouteByHTTPUser r)
       (np_Sk r) (np_AllowUsers r) (np_Multiplexer r));
   mkField "locations" [] (c_slice "[]string" (c_string "string")) true np_Locations (λ x r,
     mkNewProxy (np_ProxyName r) (np_ProxyType r) (np_UseEncryption r) (np_UseCompression r)
       (np_BandwidthLimit r) (np_BandwidthLimitMode r) (np_Group r) (np_GroupKey r) (np_Metas r)
       (np_Annotations r) (np_RemotePort r) (np_CustomDomains r) (np_SubDomain r) x (np_HTTPUser r)
       (np_HTTPPwd r) (np_HostHeaderRewrite r) (np_Headers r) (np_ResponseHeaders r) (np_RouteByHTTPUser r)
       (np_Sk r) (np_AllowUsers r) (np_Multiplexer r));
   mkField "http_user" [] (c_string "string") true np_HTTPUser (λ x r,
     mkNewProxy (np_ProxyName r) (np_ProxyType r) (np_UseEncryption r) (np_UseCompression r)
       (np_BandwidthLimit r) (np_BandwidthLimitMode r) (np_Group r) (np_GroupKey r) (np_Metas r)
       (np_Annotations r) (np_RemotePort r) (np_CustomDomains r) (np_SubDomain r) (np_Locations r) x
       (np_HTTPPwd r) (np_HostHeaderRewrite r) (np_Headers r) (np_ResponseHeaders r) (np_RouteByHTTPUser r)
       (np_Sk r) (np_AllowUsers r) (np_Multiplexer r));
   mkField "http_pwd" [] (c_string "string") true np_HTTPPwd (λ x r,
     mkNewProxy (np_ProxyName r) (np_ProxyType r) (np_UseEncryption r) (np_UseCompression r)
       (np_BandwidthLimit r) (np_BandwidthLimitMode r) (np_Group r) (np_GroupKey r) (np_Metas r)
       (np_Annotations r) (np_RemotePort r) (np_CustomDomains r) (np_SubDomain r) (np_Locations r)
       (np_HTTPUser r) x (np_HostHeaderRewrite r) (np_Headers r) (np_ResponseHeaders r) (np_RouteByHTTPUser
       r) (np_Sk r) (np_AllowUsers r) (np_Multiplexer r));
   mkField "host_header_rewrite" [] (c_string "string") true np_HostHeaderRewrite (λ x r,
     mkNewProxy (np_ProxyName r) (np_ProxyType r) (np_UseEncryption r) (np_UseCompression r)
       (np_BandwidthLimit r) (np_BandwidthLimitMode r) (np_Group r) (np_GroupKey r) (np_Metas r)
       (np_Annotations r) (np_RemotePort r) (np_CustomDomains r) (np_SubDomain r) (np_Locations r)
       (np_HTTPUser r) (np_HTTPPwd r) x (np_Headers r) (np_ResponseHeaders r) (np_RouteByHTTPUser r) (np_Sk
       r) (np_AllowUsers r) (np_Multiplexer r));
   mkField "headers" [] c_strmap true np_Headers (λ x r,
     mkNewProxy (np_ProxyName r) (np_ProxyType r) (np_UseEncryption r) (np_UseCompression r)
       (np_BandwidthLimit r) (np_BandwidthLimitMode r) (np_Group r) (np_GroupKey r) (np_Metas r)
       (np_Annotations r) (np_RemotePort r) (np_CustomDomains r) (np_SubDomain r) (np_Locations r)
       (np_HTTPUser r) (np_HTTPPwd r) (np_HostHeaderRewrite r) x (np_ResponseHeaders r) (np_RouteByHTTPUser
       r) (np_Sk r) (np_AllowUsers r) (np_Multiplexer r));
   mkField "response_headers" [] c_strmap true np_ResponseHeaders (λ x r,
     mkNewProxy (np_ProxyName r) (np_ProxyType r) (np_UseEncryption r) (np_UseCompression r)
       (np_BandwidthLimit r) (np_BandwidthLimitMode r) (np_Group r) (np_GroupKey r) (np_Metas r)
       (np_Annotations r) (np_RemotePort r) (np_CustomDomains r) (np_SubDomain r) (np_Locations r)
       (np_HTTPUser r) (np_HTTPPwd r) (np_HostHeaderRewrite r) (np_Headers r) x (np_RouteByHTTPUser r)
       (np_Sk r) (np_AllowUsers r) (np_Multiplexer r));
   mkField "route_by_http_user" [] (c_string "string") true np_RouteByHTTPUser (λ x r,
     mkNewProxy (np_ProxyName r) (np_ProxyType r) (np_UseEncryption r) (np_UseCompression r)
       (np_BandwidthLimit r) (np_BandwidthLimitMode r) (np_Group r) (np_GroupKey r) (np_Metas r)
       (np_Annotations r) (np_RemotePort r) (np_CustomDomains r) (np_SubDomain r) (np_Locations r)
       (np_HTTPUser r) (np_HTTPPwd r) (np_HostHeaderRewrite r) (np_Headers r) (np_ResponseHeaders r) x
       (np_Sk r) (np_AllowUsers r) (np_Multiplexer r));
   mkField "sk" [] (c_string "string") true np_Sk (λ x r,
     mkNewProxy (np_ProxyName r) (np_ProxyType r) (np_UseEncryption r) (np_UseCompression r)
       (np_BandwidthLimit r) (np_BandwidthLimitMode r) (np_Group r) (np_GroupKey r) (np_Metas r)
       (np_Annotations r) (np_RemotePort r) (np_CustomDomains r) (np_SubDomain r) (np_Locations r)
       (np_HTTPUser r) (np_HTTPPwd r) (np_HostHeaderRewrite r) (np_Headers r) (np_ResponseHeaders r)
       (np_RouteByHTTPUser r) x (np_AllowUsers r) (np_Multiplexer r));
   mkField "allow_users" [] (c_slice "[]string" (c_string "string")) true np_AllowUsers (λ x r,
     mkNewProxy (np_ProxyName r) (np_ProxyType r) (np_UseEncryption r) (np_UseCompression r)
       (np_BandwidthLimit r) (np_BandwidthLimitMode r) (np_Group r) (np_GroupKey r) (np_Metas r)
       (np_Annotations r) (np_RemotePort r) (np_CustomDomains r) (np_SubDomain r) (np_Locations r)
       (np_HTTPUser r) (np_HTTPPwd r) (np_HostHeaderRewrite r) (np_Headers r) (np_ResponseHeaders r)
       (np_RouteByHTTPUser r) (np_Sk r) x (np_Multiplexer r));
   mkField "multiplexer" [] (c_string "string") true np_Multiplexer (λ x r,
     mkNewProxy (np_ProxyName r) (np_ProxyType r) (np_UseEncryption r) (np_UseCompression r)
       (np_BandwidthLimit r) (np_BandwidthLimitMode r) (np_Group r) (np_GroupKey r) (np_Metas r)
       (np_Annotations r) (np_RemotePort r) (np_CustomDomains r) (np_SubDomain r) (np_Locations r)
       (np_HTTPUser r) (np_HTTPPwd r) (np_HostHeaderRewrite r) (np_Headers r) (np_ResponseHeaders r)
       (np_RouteByHTTPUser r) (np_Sk r) (np_AllowUsers r) x)].
Definition c_NewProxy : codec NewProxy :=
  c_struct "msg" "NewProxy" zero_NewProxy fields_NewProxy.
#[export] Instance NewProxy_laws : StructLaws zero_NewProxy fields_NewProxy.
Proof.
  struct_laws.
  - intros [] []. repeat split.
  - repeat constructor; by intros [].
Qed.

Definition fields_NewProxyResp : list (field NewProxyResp) :=
  [mkField "proxy_name" [] (c_string "string") true npr_ProxyName (λ x r,
     mkNewProxyResp x (npr_RemoteAddr r) (npr_Error r));
   mkField "remote_addr" [] (c_string "string") true npr_RemoteAddr (λ x r,
     mkNewProxyResp (npr_ProxyName r) x (npr_Error r));
   mkField "error" [] (c_string "string") true npr_Error (λ x r,
     mkNewProxyResp (npr_ProxyName r) (npr_RemoteAddr r) x)].
Definition zero_NewProxyResp : NewProxyResp := mkNewProxyResp "" "" "".
Definition c_NewProxyResp : codec NewProxyResp :=
  c_struct "msg" "NewProxyResp" zero_NewProxyResp fields_NewProxyResp.
#[export] Instance NewProxyResp_laws : StructLaws zero_NewProxyResp fields_NewProxyResp.
Proof.
  struct_laws.
  - intros [] []. repeat split.
  - repeat constructor; by intros [].
Qed.

Definition fields_CloseProxy : list (field CloseProxy) :=
  [mkField "proxy_name" [] (c_string "string") true cp_ProxyName (λ x _, mkCloseProxy x)].
Definition zero_CloseProxy : CloseProxy := mkCloseProxy "".
Definition c_CloseProxy : codec CloseProxy :=
  c_struct "msg" "CloseProxy" zero_CloseProxy fields_CloseProxy.
#[export] Instance CloseProxy_laws : StructLaws zero_CloseProxy fields_CloseProxy.
Proof.
  struct_laws.
  - intros [] []. repeat split.
  - repeat constructor; by intros [].
Qed.

Definition fields_NewWorkConn : list (field NewWorkConn) :=
  [mkField "run_id" [] (c_string "string") true nw_RunID (λ x r,
     mkNewWorkConn x (nw_PrivilegeKey r) (nw_Timestamp r));
   mkField "privilege_key" [] (c_string "string") true nw_PrivilegeKey (λ x r,
     mkNewWorkConn (nw_RunID r) x (nw_Timestamp r));
   mkField "timestamp" [] (c_int "int64") true nw_Timestamp (λ x r,
     mkNewWorkConn (nw_RunID r) (nw_PrivilegeKey r) x)].
Definition zero_NewWorkConn : NewWorkConn := mkNewWorkConn "" "" 0.
Definition c_NewWorkConn : codec NewWorkConn :=
  c_struct "msg" "NewWorkConn" zero_NewWorkConn fields_NewWorkConn.
#[export] Instance NewWorkConn_laws : StructLaws zero_NewWorkConn fields_NewWorkConn.
Proof.
  struct_laws.
  - intros [] []. repeat split.
  - repeat constructor; by intros [].
Qed.

Definition fields_StartWorkConn : list (field StartWorkConn) :=
  [mkField "proxy_name" [] (c_string "string") true sw_ProxyName (λ x r,
     mkStartWorkConn x (sw_SrcAddr r) (sw_DstAddr r) (sw_SrcPort r) (sw_DstPort r) (sw_Error r));
   mkField "src_addr" [] (c_string "string") true sw_SrcAddr (λ x r,
     mkStartWorkConn (sw_ProxyName r) x (sw_DstAddr r) (sw_SrcPort r) (sw_DstPort r) (sw_Error r));
   mkField "dst_addr" [] (c_string "string") true sw_DstAddr (λ x r,
     mkStartWorkConn (sw_ProxyName r) (sw_SrcAddr r) x (sw_SrcPort r) (sw_DstPort r) (sw_Error r));
   mkField "src_port" [] c_uint16 true sw_SrcPort (λ x r,
     mkStartWorkConn (sw_ProxyName r) (sw_SrcAddr r) (sw_DstAddr r) x (sw_DstPort r) (sw_Error r));
   mkField "dst_port" [] c_uint16 true sw_DstPort (λ x r,
     mkStartWorkConn (sw_ProxyName r) (sw_SrcAddr r) (sw_DstAddr r) (sw_SrcPort r) x (sw_Error r));
   mkField "error" [] (c_string "string") true sw_Error (λ x r,
     mkStartWorkConn (sw_ProxyName r) (sw_SrcAddr r) (sw_DstAddr r) (sw_SrcPort r) (sw_DstPort r) x)].
Definition zero_StartWorkConn : StartWorkConn := mkStartWorkConn "" "" "" 0 0 "".
Definition c_StartWorkConn : codec StartWorkConn :=
  c_struct "msg" "StartWorkConn" zero_StartWorkConn fields_StartWorkConn.
#[export] Instance StartWorkConn_laws : StructLaws zero_StartWorkConn fields_StartWorkConn.
Proof.
  struct_laws.
  - intros [] []. repeat split.
  - repeat constructor; by intros [].
Qed.

Definition fields_NewVisitorConn : list (field NewVisitorConn) :=
  [mkField "run_id" [] (c_string "string") true nvc_RunID (λ x r,
     mkNewVisitorConn x (nvc_ProxyName r) (nvc_SignKey r) (nvc_Timestamp r) (nvc_UseEncryption r)
       (nvc_UseCompression r));
   mkField "proxy_name" [] (c_string "string") true nvc_ProxyName (λ x r,
     mkNewVisitorConn (nvc_RunID r) x (nvc_SignKey r) (nvc_Timestamp r) (nvc_UseEncryption r)
       (nvc_UseCompression r));
   mkField "sign_key" [] (c_string "string") true nvc_SignKey (λ x r,
     mkNewVisitorConn (nvc_RunID r) (nvc_ProxyName r) x (nvc_Timestamp r) (nvc_UseEncryption r)
       (nvc_UseCompression r));
   mkField "timestamp" [] (c_int "int64") true nvc_Timestamp (λ x r,
     mkNewVisitorConn (nvc_RunID r) (nvc_ProxyName r) (nvc_SignKey r) x (nvc_UseEncryption r)
       (nvc_UseCompression r));
   mkField "use_encryption" [] c_bool true nvc_UseEncryption (λ x r,
     mkNewVisitorConn (nvc_RunID r) (nvc_ProxyName r) (nvc_SignKey r) (nvc_Timestamp r) x
       (nvc_UseCompression r));
   mkField "use_compression" [] c_bool true nvc_UseCompression (λ x r,
     mkNewVisitorConn (nvc_RunID r) (nvc_ProxyName r) (nvc_SignKey r) (nvc_Timestamp r) (nvc_UseEncryption
       r) x)].
Definition zero_NewVisitorConn : NewVisitorConn := mkNewVisitorConn "" "" "" 0 false false.
Definition c_NewVisitorConn : codec NewVisitorConn :=
  c_struct "msg" "NewVisitorConn" zero_NewVisitorConn fields_NewVisitorConn.
#[export] Instance NewVisitorConn_laws : StructLaws zero_NewVisitorConn fields_NewVisitorConn.
Proof.
  struct_laws.
  - intros [] []. repeat split.
  - repeat constructor; by intros [].
Qed.

Definition fields_NewVisitorConnResp : list (field NewVisitorConnResp) :=
  [mkField "proxy_name" [] (c_string "string") true nvr_ProxyName (λ x r,
     mkNewVisitorConnResp x (nvr_Error r));
   mkField "error" [] (c_string "string") true nvr_Error (λ x r,
     mkNewVisitorConnResp (nvr_ProxyName r) x)].
Definition zero_NewVisitorConnResp : NewVisitorConnResp := mkNewVisitorConnResp "" "".
Definition c_NewVisitorConnResp : codec NewVisitorConnResp :=
  c_struct "msg" "NewVisitorConnResp" zero_NewVisitorConnResp fields_NewVisitorConnResp.
#[export] Instance NewVisitorConnResp_laws : StructLaws zero_NewVisitorConnResp fields_NewVisitorConnResp.
Proof.
  struct_laws.
  - intros [] []. repeat split.
  - repeat constructor; by intros [].
Qed.

Definition fields_Ping : list (field Ping) :=
  [mkField "privilege_key" [] (c_string "string") true pi_PrivilegeKey (λ x r,
     mkPing x (pi_Timestamp r));
   mkField "timestamp" [] (c_int "int64") true pi_Timestamp (λ x r,
     mkPing (pi_PrivilegeKey r) x)].
Definition zero_Ping : Ping := mkPing "" 0.
Definition c_Ping : codec Ping :=
  c_struct "msg" "Ping" zero_Ping fields_Ping.
#[export] Instance Ping_laws : StructLaws zero_Ping fields_Ping.
Proof.
  struct_laws.
  - intros [] []. repeat split.
  - repeat constructor; by intros [].
Qed.

Definition fields_Pong : list (field Pong) :=
  [mkField "error" [] (c_string "string") true po_Error (λ x _, mkPong x)].
Definition zero_Pong : Pong := mkPong "".
Definition c_Pong : codec Pong :=
  c_struct "msg" "Pong" zero_Pong fields_Pong.
#[export] Instance Pong_laws : StructLaws zero_Pong fields_Pong.
Proof.
  struct_laws.
  - intros [] []. repeat split.
  - repeat constructor; by intros [].
Qed.

Definition fields_NatHoleVisitor : list (field NatHoleVisitor) :=
  [mkField "transaction_id" [] (c_string "string") true nv_TransactionID (λ x r,
     mkNatHoleVisitor x (nv_ProxyName r) (nv_PreCheck r) (nv_Protocol r) (nv_SignKey r) (nv_Timestamp r)
       (nv_MappedAddrs r) (nv_AssistedAddrs r));
   mkField "proxy_name" [] (c_string "string") true nv_ProxyName (λ x r,
     mkNatHoleVisitor (nv_TransactionID r) x (nv_PreCheck r) (nv_Protocol r) (nv_SignKey r) (nv_Timestamp r)
       (nv_MappedAddrs r) (nv_AssistedAddrs r));
   mkField "pre_check" [] c_bool true nv_PreCheck (λ x r,
     mkNatHoleVisitor (nv_TransactionID r) (nv_ProxyName r) x (nv_Protocol r) (nv_SignKey r) (nv_Timestamp
       r) (nv_MappedAddrs r) (nv_AssistedAddrs r));
   mkField "protocol" [] (c_string "string") true nv_Protocol (λ x r,
     mkNatHoleVisitor (nv_TransactionID r) (nv_ProxyName r) (nv_PreCheck r) x (nv_SignKey r) (nv_Timestamp
       r) (nv_MappedAddrs r) (nv_AssistedAddrs r));
   mkField "sign_key" [] (c_string "string") true nv_SignKey (λ x r,
     mkNatHoleVisitor (nv_TransactionID r) (nv_ProxyName r) (nv_PreCheck r) (nv_Protocol r) x (nv_Timestamp
       r) (nv_MappedAddrs r) (nv_AssistedAddrs r));
   mkField "timestamp" [] (c_int "int64") true nv_Timestamp (λ x r,
     mkNatHoleVisitor (nv_TransactionID r) (nv_ProxyName r) (nv_PreCheck r) (nv_Protocol r) (nv_SignKey r) x
       (nv_MappedAddrs r) (nv_AssistedAddrs r));
   mkField "mapped_addrs" [] (c_slice "[]string" (c_string "string")) true nv_MappedAddrs (λ x r,
     mkNatHoleVisitor (nv_TransactionID r) (nv_ProxyName r) (nv_PreCheck r) (nv_Protocol r) (nv_SignKey r)
       (nv_Timestamp r) x (nv_AssistedAddrs r));
   mkField "assisted_addrs" [] (c_slice "[]string" (c_string "string")) true nv_AssistedAddrs (λ x r,
     mkNatHoleVisitor (nv_TransactionID r) (nv_ProxyName r) (nv_PreCheck r) (nv_Protocol r) (nv_SignKey r)
       (nv_Timestamp r) (nv_MappedAddrs r) x)].
Definition zero_NatHoleVisitor : NatHoleVisitor := mkNatHoleVisitor "" "" false "" "" 0 [] [].
Definition c_NatHoleVisitor : codec NatHoleVisitor :=
  c_struct "msg" "NatHoleVisitor" zero_NatHoleVisitor fields_NatHoleVisitor.
#[export] Instance NatHoleVisitor_laws : StructLaws zero_NatHoleVisitor fields_NatHoleVisitor.
Proof.
  struct_laws.
  - intros [] []. repeat split.
  - repeat constructor; by intros [].
Qed.

Definition fields_NatHoleClient : list (field NatHoleClient) :=
  [mkField "transaction_id" [] (c_string "string") true nc_TransactionID (λ x r,
     mkNatHoleClient x (nc_ProxyName r) (nc_Sid r) (nc_MappedAddrs r) (nc_AssistedAddrs r));
   mkField "proxy_name" [] (c_string "string") true nc_ProxyName (λ x r,
     mkNatHoleClient (nc_TransactionID r) x (nc_Sid r) (nc_MappedAddrs r) (nc_AssistedAddrs r));
   mkField "sid" [] (c_string "string") true nc_Sid (λ x r,
     mkNatHoleClient (nc_TransactionID r) (nc_ProxyName r) x (nc_MappedAddrs r) (nc_AssistedAddrs r));
   mkField "mapped_addrs" [] (c_slice "[]string" (c_string "string")) true nc_MappedAddrs (λ x r,
     mkNatHoleClient (nc_TransactionID r) (nc_ProxyName r) (nc_Sid r) x (nc_AssistedAddrs r));
   mkField "assisted_addrs" [] (c_slice "[]string" (c_string "string")) true nc_AssistedAddrs (λ x r,
     mkNatHoleClient (nc_TransactionID r) (nc_ProxyName r) (nc_Sid r) (nc_MappedAddrs r) x)].
Definition zero_NatHoleClient : NatHoleClient := mkNatHoleClient "" "" "" [] [].
Definition c_NatHoleClient : codec NatHoleClient :=
  c_struct "msg" "NatHoleClient" zero_NatHoleClient fields_NatHoleClient.
#[export] Instance NatHoleClient_laws : StructLaws zero_NatHoleClient fields_NatHoleClient.
Proof.
  struct_laws.
  - intros [] []. repeat split.
  - repeat constructor; by intros [].
Qed.

Definition fields_PortsRange : list (field PortsRange) :=
  [mkField "from" [] (c_int "int") true pr_From (λ x r,
     mkPortsRange x (pr_To r));
   mkField "to" [] (c_int "int") true pr_To (λ x r,
     mkPortsRange (pr_From r) x)].
Definition zero_PortsRange : PortsRange := mkPortsRange 0 0.
Definition c_PortsRange : codec PortsRange :=
  c_struct "msg" "PortsRange" zero_PortsRange fields_PortsRange.
#[export] Instance PortsRange_laws : StructLaws zero_PortsRange fields_PortsRange.
Proof.
  struct_laws.
  - intros [] []. repeat split.
  - repeat constructor; by intros [].
Qed.

Definition fields_NatHoleDetectBehavior : list (field NatHoleDetectBehavior) :=
  [mkField "role" [] (c_string "string") true db_Role (λ x r,
     mkNatHoleDetectBehavior x (db_Mode r) (db_TTL r) (db_SendDelayMs r) (db_ReadTimeoutMs r)
       (db_CandidatePorts r) (db_SendRandomPorts r) (db_ListenRandomPorts r));
   mkField "mode" [] (c_int "int") true db_Mode (λ x r,
     mkNatHoleDetectBehavior (db_Role r) x (db_TTL r) (db_SendDelayMs r) (db_ReadTimeoutMs r)
       (db_CandidatePorts r) (db_SendRandomPorts r) (db_ListenRandomPorts r));
   mkField "ttl" [] (c_int "int") true db_TTL (λ x r,
     mkNatHoleDetectBehavior (db_Role r) (db_Mode r) x (db_SendDelayMs r) (db_ReadTimeoutMs r)
       (db_CandidatePorts r) (db_SendRandomPorts r) (db_ListenRandomPorts r));
   mkField "send_delay_ms" [] (c_int "int") true db_SendDelayMs (λ x r,
     mkNatHoleDetectBehavior (db_Role r) (db_Mode r) (db_TTL r) x (db_ReadTimeoutMs r) (db_CandidatePorts r)
       (db_SendRandomPorts r) (db_ListenRandomPorts r));
   mkField "read_timeout" [] (c_int "int") true db_ReadTimeoutMs (λ x r,
     mkNatHoleDetectBehavior (db_Role r) (db_Mode r) (db_TTL r) (db_SendDelayMs r) x (db_CandidatePorts r)
       (db_SendRandomPorts r) (db_ListenRandomPorts r));
   mkField "candidate_ports" [] (c_slice "[]msg.PortsRange" c_PortsRange) true db_CandidatePorts (λ x r,
     mkNatHoleDetectBehavior (db_Role r) (db_Mode r) (db_TTL r) (db_SendDelayMs r) (db_ReadTimeoutMs r) x
       (db_SendRandomPorts r) (db_ListenRandomPorts r));
   mkField "send_random_ports" [] (c_int "int") true db_SendRandomPorts (λ x r,
     mkNatHoleDetectBehavior (db_Role r) (db_Mode r) (db_TTL r) (db_SendDelayMs r) (db_ReadTimeoutMs r)
       (db_CandidatePorts r) x (db_ListenRandomPorts r));
   mkField "listen_random_ports" [] (c_int "int") true db_ListenRandomPorts (λ x r,
     mkNatHoleDetectBehavior (db_Role r) (db_Mode r) (db_TTL r) (db_SendDelayMs r) (db_ReadTimeoutMs r)
       (db_CandidatePorts r) (db_SendRandomPorts r) x)].
Definition c_NatHoleDetectBehavior : codec NatHoleDetectBehavior :=
  c_struct "msg" "NatHoleDetectBehavior" zero_DetectBehavior fields_NatHoleDetectBehavior.
#[export] Instance NatHoleDetectBehavior_laws : StructLaws zero_DetectBehavior fields_NatHoleDetectBehavior.
Proof.
  struct_laws.
  - intros [] []. repeat split.
  - repeat constructor; by intros [].
Qed.

Definition fields_NatHoleResp : list (field NatHoleResp) :=
  [mkField "transaction_id" [] (c_string "string") true nr_TransactionID (λ x r,
     mkNatHoleResp x (nr_Sid r) (nr_Protocol r) (nr_CandidateAddrs r) (nr_AssistedAddrs r)
       (nr_DetectBehavior r) (nr_Error r));
   mkField "sid" [] (c_string "string") true nr_Sid (λ x r,
     mkNatHoleResp (nr_TransactionID r) x (nr_Protocol r) (nr_CandidateAddrs r) (nr_AssistedAddrs r)
       (nr_DetectBehavior r) (nr_Error r));
   mkField "protocol" [] (c_string "string") true nr_Protocol (λ x r,
     mkNatHoleResp (nr_TransactionID r) (nr_Sid r) x (nr_CandidateAddrs r) (nr_AssistedAddrs r)
       (nr_DetectBehavior r) (nr_Error r));
   mkField "candidate_addrs" [] (c_slice "[]string" (c_string "string")) true nr_CandidateAddrs (λ x r,
     mkNatHoleResp (nr_TransactionID r) (nr_Sid r) (nr_Protocol r) x (nr_AssistedAddrs r) (nr_DetectBehavior
       r) (nr_Error r));
   mkField "assisted_addrs" [] (c_slice "[]string" (c_string "string")) true nr_AssistedAddrs (λ x r,
     mkNatHoleResp (nr_TransactionID r) (nr_Sid r) (nr_Protocol r) (nr_CandidateAddrs r) x
       (nr_DetectBehavior r) (nr_Error r));
   mkField "detect_behavior" [] c_NatHoleDetectBehavior true nr_DetectBehavior (λ x r,
     mkNatHoleResp (nr_TransactionID r) (nr_Sid r) (nr_Protocol r) (nr_CandidateAddrs r) (nr_AssistedAddrs
       r) x (nr_Error r));
   mkField "error" [] (c_string "string") true nr_Error (λ x r,
     mkNatHoleResp (nr_TransactionID r) (nr_Sid r) (nr_Protocol r) (nr_CandidateAddrs r) (nr_AssistedAddrs
       r) (nr_DetectBehavior r) x)].
Definition zero_NatHoleResp : NatHoleResp := mkNatHoleResp "" "" "" [] [] zero_DetectBehavior "".
Definition c_NatHoleResp : codec NatHoleResp :=
  c_struct "msg" "NatHoleResp" zero_NatHoleResp fields_NatHoleResp.
#[export] Instance NatHoleResp_laws : StructLaws zero_NatHoleResp fields_NatHoleResp.
Proof.
  struct_laws.
  - intros [] []. repeat split.
  - repeat constructor; by intros [].
Qed.

Definition fields_NatHoleSid : list (field NatHoleSid) :=
  [mkField "transaction_id" [] (c_string "string") true ns_TransactionID (λ x r,
     mkNatHoleSid x (ns_Sid r) (ns_Response r) (ns_Nonce r));
   mkField "sid" [] (c_string "string") true ns_Sid (λ x r,
     mkNatHoleSid (ns_TransactionID r) x (ns_Response r) (ns_Nonce r));
   mkField "response" [] c_bool true ns_Response (λ x r,
     mkNatHoleSid (ns_TransactionID r) (ns_Sid r) x (ns_Nonce r));
   mkField "nonce" [] (c_string "string") true ns_Nonce (λ x r,
     mkNatHoleSid (ns_TransactionID r) (ns_Sid r) (ns_Response r) x)].
Definition zero_NatHoleSid : NatHoleSid := mkNatHoleSid "" "" false "".
Definition c_NatHoleSid : codec NatHoleSid :=
  c_struct "msg" "NatHoleSid" zero_NatHoleSid fields_NatHoleSid.
#[export] Instance NatHoleSid_laws : StructLaws zero_NatHoleSid fields_NatHoleSid.
Proof.
  struct_laws.
  - intros [] []. repeat split.
  - repeat constructor; by intros [].
Qed.

Definition fields_NatHoleReport : list (field NatHoleReport) :=
  [mkField "sid" [] (c_string "string") true nh_Sid (λ x r,
     mkNatHoleReport x (nh_Success r));
   mkField "success" [] c_bool true nh_Success (λ x r,
     mkNatHoleReport (nh_Sid r) x)].
Definition zero_NatHoleReport : NatHoleReport := mkNatHoleReport "" false.
Definition c_NatHoleReport : codec NatHoleReport :=
  c_struct "msg" "NatHoleReport" zero_NatHoleReport fields_NatHoleReport.
#[export] Instance NatHoleReport_laws : StructLaws zero_NatHoleReport fields_NatHoleReport.
Proof.
  struct_laws.
  - intros [] []. repeat split.
  - repeat constructor; by intros [].
Qed.

(** ** The codec of messages *)
Class MsgTexts := {
  c_UDPPacket : codec UDPPacket;
  syntax_text : list byte → string;
}.
(** What is relied on of the parameter: it is a codec like the others. *)
Class MsgTextsLaws `{MsgTexts} := {
  UDPPacket_lawful :: Lawful c_UDPPacket;
  UDPPacket_shallow : c_depth c_UDPPacket ≤ 3;
}.

(** [err.Error()] of the package's errors. *)
Definition json_error_text (b : list byte → string) (text : list byte) (e : json_error) : string :=
  match e with
  | JTypeError value struct field type =>
      if bool_decide (struct = "" ∧ field = []) then
        "json: cannot unmarshal " +:+ value +:+ " into Go value of type " +:+ type
      else "json: cannot unmarshal " +:+ value +:+ " into Go struct field " +:+ struct +:+ "."
           +:+ join_str "." field +:+ " of type " +:+ type
  | JUnknownField name => "json: unknown field " +:+ squoted name
  | JOther text => text
  | JSyntaxError => b text
  end.

Section msg_json.
Context `{MsgTexts}.
(** A message struct of a given type: its codec and its constructor in the sum. *)
Inductive msg_codec : Type :=
| MsgCodec {T : Type} (c : codec T) (inject : T → Message).
Definition codec_of (t : MsgType) : msg_codec :=
  match t with
  | TLogin => MsgCodec c_Login MLogin | TLoginResp => MsgCodec c_LoginResp MLoginResp
  | TNewProxy => MsgCodec c_NewProxy MNewProxy | TNewProxyResp => MsgCodec c_NewProxyResp MNewProxyResp
  | TCloseProxy => MsgCodec c_CloseProxy MCloseProxy | TNewWorkConn => MsgCodec c_NewWorkConn MNewWorkConn
  | TReqWorkConn => MsgCodec (c_struct "msg" "ReqWorkConn" tt []) (λ _, MReqWorkConn)
  | TStartWorkConn => MsgCodec c_StartWorkConn MStartWorkConn
  | TNewVisitorConn => MsgCodec c_NewVisitorConn MNewVisitorConn
  | TNewVisitorConnResp => MsgCodec c_NewVisitorConnResp MNewVisitorConnResp
  | TPing => MsgCodec c_Ping MPing | TPong => MsgCodec c_Pong MPong
  | TUDPPacket => MsgCodec c_UDPPacket MUDPPacket
  | TNatHoleVisitor => MsgCodec c_NatHoleVisitor MNatHoleVisitor
  | TNatHoleClient => MsgCodec c_NatHoleClient MNatHoleClient
  | TNatHoleResp => MsgCodec c_NatHoleResp MNatHoleResp
  | TNatHoleSid => MsgCodec c_NatHoleSid MNatHoleSid
  | TNatHoleReport => MsgCodec c_NatHoleReport MNatHoleReport
  end.
Definition msg_value (m : Message) : json :=
  match m with
  | MLogin m => c_enc c_Login m | MLoginResp m => c_enc c_LoginResp m
  | MNewProxy m => c_enc c_NewProxy m | MNewProxyResp m => c_enc c_NewProxyResp m
  | MCloseProxy m => c_enc c_CloseProxy m | MNewWorkConn m => c_enc c_NewWorkConn m
  | MReqWorkConn => JObj []
  | MStartWorkConn m => c_enc c_StartWorkConn m | MNewVisitorConn m => c_enc c_NewVisitorConn m
  | MNewVisitorConnResp m => c_enc c_NewVisitorConnResp m | MPing m => c_enc c_Ping m
  | MPong m => c_enc c_Pong m | MUDPPacket m => c_enc c_UDPPacket m
  | MNatHoleVisitor m => c_enc c_NatHoleVisitor m | MNatHoleClient m => c_enc c_NatHoleClient m
  | MNatHoleResp m => c_enc c_NatHoleResp m | MNatHoleSid m => c_enc c_NatHoleSid m
  | MNatHoleReport m => c_enc c_NatHoleReport m
  end.
(** The texts of a message are valid UTF-8 and its integers within their Go types. *)
Definition msg_ok (m : Message) : Prop :=
  match m with
  | MLogin m => c_ok c_Login m | MLoginResp m => c_ok c_LoginResp m
  | MNewProxy m => c_ok c_NewProxy m | MNewProxyResp m => c_ok c_NewProxyResp m
  | MCloseProxy m => c_ok c_CloseProxy m | MNewWorkConn m => c_ok c_NewWorkConn m
  | MReqWorkConn => True
  | MStartWorkConn m => c_ok c_StartWorkConn m | MNewVisitorConn m => c_ok c_NewVisitorConn m
  | MNewVisitorConnResp m => c_ok c_NewVisitorConnResp m | MPing m => c_ok c_Ping m
  | MPong m => c_ok c_Pong m | MUDPPacket m => c_ok c_UDPPacket m
  | MNatHoleVisitor m => c_ok c_NatHoleVisitor m | MNatHoleClient m => c_ok c_NatHoleClient m
  | MNatHoleResp m => c_ok c_NatHoleResp m | MNatHoleSid m => c_ok c_NatHoleSid m
  | MNatHoleReport m => c_ok c_NatHoleReport m
  end.
Definition decode_msg (mc : msg_codec) (p : list byte) : Message + json_error :=
  match mc with
  | MsgCodec c inject =>
      match json_Unmarshal c p (c_zero c) with inl x => inl (inject x) | inr e => inr e end
  end.
#[export] Instance msg_json : MsgJSON := {|
  MarshalMsg m := Ok (print (msg_value m));
  UnmarshalMsg t p := match decode_msg (codec_of t) p with
                      | inl m => Ok m
                      | inr e => Err (json_error_text syntax_text p e)
                      end |}.
End msg_json.

(** ** Lemmas *)
#[export] Instance ReqWorkConn_laws : StructLaws tt [].
Proof. split; constructor || (by intros [] []). Qed.

Lemma decode_msg_print {T} (c : codec T) `{!Lawful c} inject x : c_ok c x → c_depth c ≤ maxNestingDepth →
  decode_msg (MsgCodec c inject) (print (c_enc c x)) = inl (inject x).
Proof.
  intros Hx Hd. destruct (json_roundtrip c x Hx Hd) as [H _]. unfold json_Marshal in H.
  unfold decode_msg. by rewrite H.
Qed.

Lemma msg_json_roundtrip `{MsgTextsLaws} m : msg_ok m →
  UnmarshalMsg (type_of m) (print (msg_value m)) = Ok m.
Proof.
  intros Hm. cbn [UnmarshalMsg msg_json].
  assert (c_depth c_UDPPacket ≤ maxNestingDepth) by (pose proof UDPPacket_shallow; unfold maxNestingDepth; lia).
  destruct m; cbn [type_of codec_of msg_value msg_ok] in *; try reflexivity;
    match goal with |- context [decode_msg (MsgCodec ?c ?i) (print (c_enc _ ?m))] =>
      by rewrite (decode_msg_print c i m Hm ltac:(first [done | by vm_compute])) end.
Qed.

(** ** Theorems *)

(** C16. A message written over wire protocol v2 arrives as it was: for every message whose
    texts are valid UTF-8 and whose integers fit, if its JSON text fits in a frame then
    [V2ReadWriter] writes it, and whatever follows on the stream, [ReadMsg] and [ReadMsgInto] of
    its type return the same message and leave the rest, while [ReadMsgInto] of another type
    refuses it. *)
Theorem v2_wire_roundtrip `{MsgTextsLaws} (m : Message) (rest : list byte) :
  msg_ok m → Z.of_nat (length (print (msg_value m))) + 2 ≤ DefaultMaxFramePayloadSize →
  ∃ bs, V2_WriteMsg (Some m) = Ok bs ∧ V2_ReadMsg (bs ++ rest) = Ok (m, rest) ∧
    ∀ out, V2_ReadMsgInto out (bs ++ rest) =
      if decide (out = type_of m) then Ok (m, rest)
      else Err ("unexpected message type " +:+ type_name (type_of m) +:+ ", want " +:+ type_name out).
Proof.
  intros Hm Hlen.
  assert (V2_WriteMsg (Some m) = Ok (be_split 2 FrameTypeMessage ++ be_split 2 0 ++
    be_split 4 (Z.of_nat (length (be_split 2 (v2MsgTypeID (type_of m)) ++ print (msg_value m)))) ++
    be_split 2 (v2MsgTypeID (type_of m)) ++ print (msg_value m))) as Hw.
  { unfold V2_WriteMsg, EncodeV2MessageFrame. cbn [MarshalMsg msg_json mbind result_bind].
    unfold WriteFrame. cbn [f_Type f_Flags f_Payload]. rewrite decide_False by (intros Hn; by apply Hn).
    rewrite (proj2 (Z.ltb_ge _ _)); [done|]. rewrite length_app, length_be_split. lia. }
  eexists. split; [exact Hw|]. apply v2_message_roundtrip; [|done].
  intros p [= <-]. by apply msg_json_roundtrip.
Qed.

(** A message with a map, a list, and texts that need escapes. *)
Definition zero_UDPPacket : UDPPacket := mkUDPPacket [] None None.
Definition demo_UDPPacket : codec UDPPacket := {|
  c_type := "msg.UDPPacket"; c_zero := zero_UDPPacket; c_dec _ _ _ := (zero_UDPPacket, []);
  c_enc _ := JObj []; c_empty _ := false; c_ok x := x = zero_UDPPacket; c_depth := 1 |}.
Definition demo_texts : MsgTexts := {| c_UDPPacket := demo_UDPPacket; syntax_text _ := "syntax" |}.
#[export] Instance demo_texts_laws : @MsgTextsLaws demo_texts.
Proof.
  split; [|by vm_compute]. split.
  - done.
  - done.
  - done.
  - intros strict x old Hx _. cbn in Hx. by subst.
  - done.
  - done.
Qed.
Definition demo_new_proxy : Message :=
  MNewProxy {| np_ProxyName := squoted "web" +:+ "<1>"; np_ProxyType := "xtcp"; np_UseEncryption := true;
     np_UseCompression := false; np_BandwidthLimit := ""; np_BandwidthLimitMode := "";
     np_Group := ""; np_GroupKey := ""; np_Metas := {["b" := "2"; "a" := "\"]};
     np_Annotations := ∅; np_RemotePort := -5; np_CustomDomains := []; np_SubDomain := "";
     np_Locations := []; np_HTTPUser := ""; np_HTTPPwd := ""; np_HostHeaderRewrite := "";
     np_Headers := ∅; np_ResponseHeaders := ∅; np_RouteByHTTPUser := ""; np_Sk := "";
     np_AllowUsers := ["u"; "*"]; np_Multiplexer := "" |}.
Example demo_new_proxy_text :
  print (@msg_value demo_texts demo_new_proxy) = bytes_of
   ("{" +:+ squoted "proxy_name" +:+ ":" +:+ squoted ("\" +:+ dquote +:+ "web\" +:+ dquote +:+ "\u003c1\u003e")
    +:+ "," +:+ squoted "proxy_type" +:+ ":" +:+ squoted "xtcp" +:+ "," +:+ squoted "use_encryption" +:+ ":true,"
    +:+ squoted "metas" +:+ ":{" +:+ squoted "a" +:+ ":" +:+ squoted "\\" +:+ "," +:+ squoted "b" +:+ ":"
    +:+ squoted "2" +:+ "}," +:+ squoted "remote_port" +:+ ":-5," +:+ squoted "allow_users" +:+ ":["
    +:+ squoted "u" +:+ "," +:+ squoted "*" +:+ "]}").
Proof. vm_compute. reflexivity. Qed.

Lemma v2_wire_roundtrip_witness :
  ∃ bs, @V2_WriteMsg (@msg_json demo_texts) (Some demo_new_proxy) = Ok bs
    ∧ @V2_ReadMsg (@msg_json demo_texts) (bs ++ [Byte.x7b]) = Ok (demo_new_proxy, [Byte.x7b]).
Proof.
  destruct (@v2_wire_roundtrip demo_texts demo_texts_laws demo_new_proxy [Byte.x7b]) as (bs & Hw & Hr & _).
  - cbn [msg_ok demo_new_proxy].
    repeat (constructor; [cbn; apply (bool_decide_unpack _); vm_compute; exact I|]). constructor.
  - apply Z.leb_le. vm_compute. reflexivity.
  - exists bs. split; [exact Hw|exact Hr].
Defined.
