(* ===== verification/UdpBinary.v ===== *)
(** * Binary UDP packets: [pkg/msg/udp_binary.go]

    The binary body of a UDP packet message: flags, an optional local and a required
    remote address, a length and the payload.  The decoder's offset into the body is
    the list of bytes from there on.  [net.IP]'s [To4] and [To16] and
    [utf8.ValidString] are modelled as the standard library has them. *)
From S2P Require Import Prelude GoStd Hash Msg Wire MsgV2.
From stdpp Require Import list.
Local Open Scope Z_scope.

Definition MaxUDPPayloadSize : Z := 65507.
Definition udpPacketFlagLocalAddr : Z := 1.
Definition udpPacketFlagRemoteAddr : Z := 2.
Definition udpPacketValidFlags : Z := Z.lor udpPacketFlagLocalAddr udpPacketFlagRemoteAddr.

Record binaryUDPAddr := mkBinAddr {
  ba_family : Z;
  ba_ip : list byte;
  ba_port : Z;
  ba_zone : string;
}.

(** [net.IP.To4] and [To16]; [None] is nil. *)
Definition v4InV6Prefix : list byte := replicate 10 Byte.x00 ++ [Byte.xff; Byte.xff].
Definition To4 (ip : list byte) : option (list byte) :=
  if decide (length ip = 4%nat) then Some ip
  else if decide (length ip = 16%nat ∧ take 12 ip = v4InV6Prefix) then Some (drop 12 ip) else None.
Definition To16 (ip : list byte) : option (list byte) :=
  if decide (length ip = 4%nat) then Some (v4InV6Prefix ++ ip)
  else if decide (length ip = 16%nat) then Some ip else None.

Definition validateBinaryUDPAddr (a : UDPAddr) : result binaryUDPAddr :=
  if decide (ua_Port a < 0 ∨ 65535 < ua_Port a) then Err ("port out of range: " +:+ Itoa (ua_Port a))
  else
    match To4 (ua_IP a) with
    | Some ip =>
        if decide (ua_Zone a ≠ "") then Err "IPv4 zone is forbidden"
        else Ok (mkBinAddr 4 ip (ua_Port a) "")
    | None =>
        match To16 (ua_IP a) with
        | None => Err "invalid IP"
        | Some ip =>
            if decide (255 < String.length (ua_Zone a))%nat then Err "zone exceeds 255 bytes"
            else if negb (ValidString (ua_Zone a)) then Err "zone is not valid UTF-8"
            else Ok (mkBinAddr 6 ip (ua_Port a) (ua_Zone a))
        end
    end.
Definition binaryUDPAddrLen (a : binaryUDPAddr) : Z :=
  1 + Z.of_nat (length (ba_ip a)) + 2 + 1 + Z.of_nat (String.length (ba_zone a)).
Definition putBinaryUDPAddr (a : binaryUDPAddr) : list byte :=
  byte_of_Z (ba_family a) :: ba_ip a ++ be_split 2 (ba_port a)
  ++ byte_of_Z (Z.of_nat (String.length (ba_zone a))) :: bytes_of (ba_zone a).

Definition payload_limit (n : Z) : string :=
  "UDP payload length " +:+ Itoa n +:+ " exceeds limit " +:+ Itoa MaxUDPPayloadSize.
Definition frame_limit (n : Z) : string :=
  "v2 frame payload length " +:+ Itoa n +:+ " exceeds limit " +:+ Itoa DefaultMaxFramePayloadSize.

Definition EncodeUDPPacketBinary (packet : option UDPPacket) : result (list byte) :=
  match packet with
  | None => Err "nil UDP packet"
  | Some p =>
      match up_RemoteAddr p with
      | None => Err "UDP packet missing remote address"
      | Some remote =>
          let n := Z.of_nat (length (up_Content p)) in
          if MaxUDPPayloadSize <? n then Err (payload_limit n)
          else
            match up_LocalAddr p with
            | None => Ok None
            | Some l => wrap_err "local address: " (validateBinaryUDPAddr l) ≫= λ a, Ok (Some a)
            end ≫= λ localAddr,
            wrap_err "remote address: " (validateBinaryUDPAddr remote) ≫= λ remoteAddr,
            let bodyLen := 1 + 2 + n + from_option binaryUDPAddrLen 0 localAddr
                           + binaryUDPAddrLen remoteAddr in
            if DefaultMaxFramePayloadSize <? 2 + bodyLen then Err (frame_limit (2 + bodyLen))
            else
              let flags := Z.lor (match localAddr with Some _ => udpPacketFlagLocalAddr | None => 0 end)
                             udpPacketFlagRemoteAddr in
              Ok (byte_of_Z flags :: from_option putBinaryUDPAddr [] localAddr
                  ++ putBinaryUDPAddr remoteAddr ++ be_split 2 n ++ up_Content p)
      end
  end.

(** The length of the address of a family: the [switch] of [readBinaryUDPAddr]. *)
Definition ip_len (family : Z) : option nat :=
  if decide (family = 4) then Some 4%nat else if decide (family = 6) then Some 16%nat else None.

(** [readBinaryUDPAddr]: the address and the bytes after it. *)
Definition readBinaryUDPAddr (s : list byte) : result (UDPAddr * list byte) :=
  match s with
  | [] => Err "truncated address family"
  | family :: s =>
      match ip_len (Z_of_byte family) with
      | None => Err ("unknown address family " +:+ Itoa (Z_of_byte family))
      | Some ipLen =>
          if decide (length s < ipLen + 3)%nat then Err "truncated address"
          else
            let ip := take ipLen s in
            let s := drop ipLen s in
            let port := be_combine (take 2 s) in
            match drop 2 s with
            | [] => Err "truncated address"
            | z :: s =>
                let zoneLen := Z.to_nat (Z_of_byte z) in
                if decide (length s < zoneLen)%nat then Err "truncated zone"
                else
                  let zone := string_of (take zoneLen s) in
                  if decide (Z_of_byte family = 4 ∧ zoneLen ≠ 0%nat) then Err "IPv4 zone is forbidden"
                  else if negb (ValidString zone) then Err "zone is not valid UTF-8"
                  else Ok (mkUDPAddr ip port zone, drop zoneLen s)
            end
      end
  end.

Definition DecodeUDPPacketBinary (body : list byte) : result UDPPacket :=
  if decide (length body < 3)%nat
  then Err ("UDP packet body too short: " +:+ Itoa (Z.of_nat (length body)))
  else if DefaultMaxFramePayloadSize <? 2 + Z.of_nat (length body)
  then Err (frame_limit (2 + Z.of_nat (length body)))
  else
    match body with
    | [] => Err "UDP packet body too short: 0"
    | b :: s =>
        let flags := Z_of_byte b in
        if decide (Z.land flags (Z.lnot udpPacketValidFlags) ≠ 0)
        then Err ("reserved UDP packet flags set: 0x" +:+ hex_encode [b])
        else if decide (Z.land flags udpPacketFlagRemoteAddr = 0)
        then Err "UDP packet missing remote address"
        else
          (if decide (Z.land flags udpPacketFlagLocalAddr ≠ 0)
           then wrap_err "local address: " (readBinaryUDPAddr s) ≫= λ '(a, s), Ok (Some a, s)
           else Ok (None, s)) ≫= λ '(localAddr, s),
          wrap_err "remote address: " (readBinaryUDPAddr s) ≫= λ '(remoteAddr, s),
          if decide (length s < 2)%nat then Err "truncated UDP payload length"
          else
            let payloadLen := be_combine (take 2 s) in
            let s := drop 2 s in
            let remaining := Z.of_nat (length s) in
            if MaxUDPPayloadSize <? payloadLen then Err (payload_limit payloadLen)
            else if remaining <? payloadLen
            then Err ("truncated UDP payload: have " +:+ Itoa remaining +:+ " want " +:+ Itoa payloadLen)
            else if payloadLen <? remaining
            then Err ("trailing UDP packet bytes: " +:+ Itoa (remaining - payloadLen))
            else Ok (mkUDPPacket s localAddr (Some remoteAddr))
    end.

(** ** Codecs of a work connection *)
Section rw.
Context `{MsgJSON}.
Definition isV2MessageType (f : Frame) (typeID : Z) : bool :=
  bool_decide (f_Type f = FrameTypeMessage) && bool_decide (2 ≤ length (f_Payload f))%nat
  && bool_decide (be_combine (take 2 (f_Payload f)) = typeID).
Definition unexpectedV2UDPPacketType (f : Frame) : string :=
  if decide (f_Type f ≠ FrameTypeMessage) then unexpected_frame f
  else if decide (length (f_Payload f) < 2)%nat then "message frame payload too short"
  else
    let typeID := be_combine (take 2 (f_Payload f)) in
    if decide (typeID = v2MsgTypeID TUDPPacket)
    then "received JSON UDP packet after binary codec negotiation"
    else "unexpected message type " +:+ Itoa typeID +:+ ", want " +:+ Itoa V2TypeUDPPacketBinary.
Definition decodeV2BinaryUDPPacketFrame (f : Frame) : result UDPPacket :=
  if isV2MessageType f V2TypeUDPPacketBinary then DecodeUDPPacketBinary (drop 2 (f_Payload f))
  else Err (unexpectedV2UDPPacketType f).

(** [V2BinaryUDPPacketReadWriter]. *)
Definition Bin_ReadMsg (s : list byte) : result (Message * list byte) :=
  ReadFrame DefaultMaxFramePayloadSize s ≫= λ '(f, s),
  (if isV2MessageType f V2TypeUDPPacketBinary
   then decodeV2BinaryUDPPacketFrame f ≫= λ p, Ok (MUDPPacket p)
   else if isV2MessageType f (v2MsgTypeID TUDPPacket)
   then Err "received JSON UDP packet after binary codec negotiation"
   else DecodeV2MessageFrame f) ≫= λ m, Ok (m, s).
Definition Bin_ReadMsgInto (out : MsgType) (s : list byte) : result (Message * list byte) :=
  ReadFrame DefaultMaxFramePayloadSize s ≫= λ '(f, s),
  (if decide (out = TUDPPacket) then decodeV2BinaryUDPPacketFrame f ≫= λ p, Ok (MUDPPacket p)
   else DecodeV2MessageFrameInto f out) ≫= λ m, Ok (m, s).
Definition Bin_WriteMsg (m : option Message) : result (list byte) :=
  match m with
  | Some (MUDPPacket p) =>
      EncodeUDPPacketBinary (Some p) ≫= λ body,
      WriteFrame DefaultMaxFramePayloadSize
        (mkFrame FrameTypeMessage 0 (be_split 2 V2TypeUDPPacketBinary ++ body))
  | m => EncodeV2MessageFrame m ≫= WriteFrame DefaultMaxFramePayloadSize
  end.
End rw.

Inductive packet_rw : Type := RwV1 | RwV2 | RwV2Binary.
Definition NewUDPPacketReadWriter (wireProtocol udpPacketCodec : string) : result packet_rw :=
  if decide (wireProtocol = "" ∨ wireProtocol = "v1") then
    if decide (udpPacketCodec ≠ "")
    then Err ("UDP packet codec " +:+ squoted udpPacketCodec +:+ " requires wire protocol v2")
    else Ok RwV1
  else if decide (wireProtocol = "v2") then
    if decide (udpPacketCodec = "") then Ok RwV2
    else if decide (udpPacketCodec = UDPPacketCodecBinary) then Ok RwV2Binary
    else Err ("unsupported UDP packet codec " +:+ squoted udpPacketCodec)
  else Err ("unsupported wire protocol " +:+ squoted wireProtocol).

(** ** Lemmas: addresses *)
Definition addr_of (a : binaryUDPAddr) : UDPAddr := mkUDPAddr (ba_ip a) (ba_port a) (ba_zone a).

(** What the wire can carry. *)
Record wire_addr (a : binaryUDPAddr) : Prop := mkWireAddr {
  wa_ip : ip_len (ba_family a) = Some (length (ba_ip a));
  wa_port : 0 ≤ ba_port a < 65536;
  wa_zone : (String.length (ba_zone a) ≤ 255)%nat;
  wa_utf8 : ValidString (ba_zone a) = true;
  wa_v4 : ba_family a = 4 → ba_zone a = "";
}.

(** The address as the receiver gets it: IPv4 addresses in four bytes. *)
Definition norm_addr (a : UDPAddr) : UDPAddr :=
  match To4 (ua_IP a) with Some ip => mkUDPAddr ip (ua_Port a) "" | None => a end.

Lemma ip_len_cases f n : ip_len f = Some n → f = 4 ∧ n = 4%nat ∨ f = 6 ∧ n = 16%nat.
Proof. unfold ip_len. repeat case_decide; naive_solver. Qed.

Lemma To4_length ip ip4 : To4 ip = Some ip4 → length ip4 = 4%nat.
Proof.
  unfold To4. case_decide; [by intros [= <-]|]. case_decide as H1; [|done]. intros [= <-].
  rewrite length_drop. lia.
Qed.

Lemma validate_Ok a ba : validateBinaryUDPAddr a = Ok ba →
  wire_addr ba ∧ addr_of ba = norm_addr a.
Proof.
  unfold validateBinaryUDPAddr, norm_addr. destruct (decide _) as [|Hp]; [done|].
  destruct (To4 (ua_IP a)) as [ip|] eqn:H4.
  - destruct (decide _) as [|Hz]; [done|]. intros [= <-]. split; [|done].
    split; simpl; try done; [by rewrite (To4_length _ _ H4)|lia|lia].
  - unfold To16, To4 in *. destruct (decide (length (ua_IP a) = 4%nat)); [done|].
    destruct (decide (length (ua_IP a) = 16%nat)) as [H16|]; [|done].
    destruct (decide (255 < String.length (ua_Zone a))%nat) as [|Hz]; [done|].
    destruct (ValidString _) eqn:Hu; [|done]. simpl.
    intros [= <-]. split; [|by destruct a]. split; simpl; try done; [by rewrite H16|lia|lia].
Qed.

(** [canonical]: the address has the form the receiver gets. *)
Definition canonical (a : UDPAddr) : Prop := norm_addr a = a.

Lemma validate_wire ba : wire_addr ba → canonical (addr_of ba) → validateBinaryUDPAddr (addr_of ba) = Ok ba.
Proof.
  intros [Hip Hp Hz Hu H4] Hc. unfold validateBinaryUDPAddr, canonical, norm_addr, addr_of in *. simpl in *.
  rewrite decide_False by lia. destruct ba as [f ip p z]. simpl in *.
  apply ip_len_cases in Hip as [[-> Hl]|[-> Hl]].
  - specialize (H4 eq_refl) as ->. unfold To4. rewrite decide_True by done. by rewrite decide_False by (by intros []).
  - destruct (To4 ip) as [ip4|] eqn:E.
    { injection Hc as -> _. apply To4_length in E. lia. }
    unfold To16. rewrite decide_False by lia. rewrite decide_True by done.
    rewrite decide_False by lia. by rewrite Hu.
Qed.

Lemma Z_of_byte_small z : 0 ≤ z < 256 → Z_of_byte (byte_of_Z z) = z.
Proof. intros. rewrite Z_of_byte_of_Z. by apply Z.mod_small. Qed.

Lemma take_drop_len {A} (a b : list A) n : length a = n → take n (a ++ b) = a ∧ drop n (a ++ b) = b.
Proof. intros <-. by rewrite take_app_length, drop_app_length. Qed.

Lemma put_app ba s : putBinaryUDPAddr ba ++ s =
  byte_of_Z (ba_family ba) :: ba_ip ba ++ be_split 2 (ba_port ba)
  ++ byte_of_Z (Z.of_nat (String.length (ba_zone ba))) :: bytes_of (ba_zone ba) ++ s.
Proof. unfold putBinaryUDPAddr. by rewrite <-app_comm_cons, <-!(assoc_L (++)). Qed.

Lemma read_put ba s : wire_addr ba →
  readBinaryUDPAddr (putBinaryUDPAddr ba ++ s) = Ok (addr_of ba, s).
Proof.
  intros [Hip Hp Hz Hu H4]. rewrite put_app. destruct ba as [f ip p z].
  cbn [ba_family ba_ip ba_port ba_zone] in *. unfold readBinaryUDPAddr.
  assert (Hf : Z_of_byte (byte_of_Z f) = f).
  { apply Z_of_byte_small. apply ip_len_cases in Hip. lia. }
  rewrite Hf, Hip.
  set (tl := be_split 2 p ++ byte_of_Z (Z.of_nat (String.length z)) :: bytes_of z ++ s).
  destruct (take_drop_len ip tl _ eq_refl) as [-> ->]. subst tl.
  destruct (take_drop_len (be_split 2 p) (byte_of_Z (Z.of_nat (String.length z)) :: bytes_of z ++ s) 2
    (length_be_split _ _)) as [-> ->].
  rewrite decide_False.
  2:{ rewrite !length_app, length_be_split. simpl. lia. }
  rewrite Z_of_byte_small, Nat2Z.id by lia.
  destruct (take_drop_len (bytes_of z) s (String.length z) (length_bytes_of z)) as [-> ->].
  rewrite decide_False by (rewrite length_app, length_bytes_of; lia).
  rewrite decide_False by (intros [Hf4 Hne]; apply Hne; by rewrite (H4 Hf4)).
  rewrite string_of_bytes_of, Hu. cbn [negb]. by rewrite be_combine_16.
Qed.

Lemma read_Ok s a r : readBinaryUDPAddr s = Ok (a, r) →
  ∃ ba, wire_addr ba ∧ a = addr_of ba ∧ s = putBinaryUDPAddr ba ++ r.
Proof.
  unfold readBinaryUDPAddr. destruct s as [|fb s]; [done|].
  destruct (ip_len (Z_of_byte fb)) as [n|] eqn:Hip; [|done].
  destruct (decide _) as [|Hlen]; [done|].
  destruct (drop 2 (drop n s)) as [|zb s0] eqn:Hd; [done|]. set (zl := Z.to_nat (Z_of_byte zb)) in *.
  destruct (decide (length s0 < zl)%nat) as [|Hz]; [done|]. destruct (decide _) as [|H4]; [done|].
  destruct (ValidString _) eqn:Hu; [|done]. intros [= <- <-].
  pose proof (Z_of_byte_range zb). pose proof (Z_of_byte_range fb).
  exists (mkBinAddr (Z_of_byte fb) (take n s) (be_combine (take 2 (drop n s))) (string_of (take zl s0))).
  assert (Hl2 : length (take 2 (drop n s)) = 2%nat) by (rewrite length_take, length_drop; lia).
  assert (Hzl : String.length (string_of (take zl s0)) = zl).
  { rewrite <-length_bytes_of, bytes_of_string_of, length_take. lia. }
  split_and!; [|done|].
  - split; cbn [ba_family ba_ip ba_port ba_zone]; [|..|done|].
    + rewrite Hip, length_take. f_equal. lia.
    + pose proof (be_combine_range (take 2 (drop n s))) as Hr. by rewrite Hl2 in Hr.
    + lia.
    + intros Hf. destruct (decide (zl = 0%nat)) as [->|]; [by rewrite take_0|tauto].
  - rewrite put_app. cbn [ba_family ba_ip ba_port ba_zone].
    rewrite Hzl, bytes_of_string_of, (be_split_of _ _ Hl2), byte_of_Z_of_byte.
    subst zl. rewrite Z2Nat.id, byte_of_Z_of_byte by lia. f_equal.
    rewrite take_drop, <-Hd, take_drop, take_drop. done.
Qed.

(** ** Lemmas: the body *)
Definition body_of (la : option binaryUDPAddr) (ra : binaryUDPAddr) (c : list byte) : list byte :=
  byte_of_Z (Z.lor (match la with Some _ => udpPacketFlagLocalAddr | None => 0 end) udpPacketFlagRemoteAddr)
  :: from_option putBinaryUDPAddr [] la ++ putBinaryUDPAddr ra ++ be_split 2 (Z.of_nat (length c)) ++ c.
Definition body_fits (body : list byte) (c : list byte) : Prop :=
  Z.of_nat (length c) ≤ MaxUDPPayloadSize ∧ 2 + Z.of_nat (length body) ≤ DefaultMaxFramePayloadSize.

Lemma length_put a : Z.of_nat (length (putBinaryUDPAddr a)) = binaryUDPAddrLen a.
Proof.
  unfold putBinaryUDPAddr, binaryUDPAddrLen. cbn [length].
  rewrite !length_app, length_be_split. cbn [length]. rewrite length_bytes_of. lia.
Qed.

Lemma length_body_of la ra c : Z.of_nat (length (body_of la ra c)) =
  1 + 2 + Z.of_nat (length c) + from_option binaryUDPAddrLen 0 la + binaryUDPAddrLen ra.
Proof.
  unfold body_of. cbn [length]. rewrite !length_app, length_be_split.
  pose proof (length_put ra). destruct la as [la|]; cbn [from_option length]; [pose proof (length_put la)|]; lia.
Qed.

Lemma encode_Ok p body : EncodeUDPPacketBinary (Some p) = Ok body ↔
  ∃ remote la ra, up_RemoteAddr p = Some remote ∧ validateBinaryUDPAddr remote = Ok ra
    ∧ match up_LocalAddr p with Some l => ∃ a, validateBinaryUDPAddr l = Ok a ∧ la = Some a | None => la = None end
    ∧ body_fits body (up_Content p) ∧ body = body_of la ra (up_Content p).
Proof.
  unfold EncodeUDPPacketBinary, body_fits. destruct (up_RemoteAddr p) as [remote|]; [|naive_solver].
  destruct (Z.ltb_spec MaxUDPPayloadSize (Z.of_nat (length (up_Content p)))) as [|Hc].
  { split; [done|]. intros (?&?&?&?&?&?&[]&?). lia. }
  assert (Hend : ∀ la ra b, (if DefaultMaxFramePayloadSize <? 2 + (1 + 2 + Z.of_nat (length (up_Content p))
       + from_option binaryUDPAddrLen 0 la + binaryUDPAddrLen ra)
     then Err (frame_limit (2 + (1 + 2 + Z.of_nat (length (up_Content p))
       + from_option binaryUDPAddrLen 0 la + binaryUDPAddrLen ra)))
     else Ok (body_of la ra (up_Content p))) = Ok b ↔
     2 + Z.of_nat (length (body_of la ra (up_Content p))) ≤ DefaultMaxFramePayloadSize
     ∧ b = body_of la ra (up_Content p)).
  { intros la ra b. rewrite length_body_of. destruct (Z.ltb_spec DefaultMaxFramePayloadSize (2 + (1 + 2 +
      Z.of_nat (length (up_Content p)) + from_option binaryUDPAddrLen 0 la + binaryUDPAddrLen ra))).
    - split; [done|]. intros [? _]. lia.
    - split; [intros [= <-]; split; [lia|done]|by intros [_ ->]]. }
  destruct (up_LocalAddr p) as [l|].
  - destruct (validateBinaryUDPAddr l) as [la|e]; simpl;
      [|split; [done|]; by intros (?&?&?&?&?&(?&?&?)&?)].
    destruct (validateBinaryUDPAddr remote) as [ra|e] eqn:Hr; simpl;
      [|split; [done|]; intros (?&?&?&[= <-]&?&?); congruence].
    rewrite (Hend (Some la) ra). split.
    + intros [Hl ->]. by exists remote, (Some la), ra; eauto 10.
    + intros (?&?&?&[= <-]&Hr'&(?&[= <-]&->)&[_ Hl]&->). rewrite Hr in Hr'. by simplify_eq.
  - simpl. destruct (validateBinaryUDPAddr remote) as [ra|e] eqn:Hr; simpl;
      [|split; [done|]; intros (?&?&?&[= <-]&?&?); congruence].
    rewrite (Hend None ra). split.
    + intros [Hl ->]. by exists remote, None, ra.
    + intros (?&?&?&[= <-]&Hr'&->&[_ Hl]&->). rewrite Hr in Hr'. by simplify_eq.
Qed.

Definition packet_of (la : option binaryUDPAddr) (ra : binaryUDPAddr) (c : list byte) : UDPPacket :=
  mkUDPPacket c (addr_of <$> la) (Some (addr_of ra)).

Lemma bind_Ok_l {A B} (a : A) (k : A → result B) : (Ok a ≫= k) = k a.
Proof. done. Qed.
Lemma wrap_bind {A B} prefix (a : A) (k : A → result B) : (wrap_err prefix (Ok a) ≫= k) = k a.
Proof. done. Qed.

Lemma decode_body_of la ra c : (∀ a, la = Some a → wire_addr a) → wire_addr ra →
  body_fits (body_of la ra c) c → DecodeUDPPacketBinary (body_of la ra c) = Ok (packet_of la ra c).
Proof.
  intros Hla Hra [Hc Hl]. unfold DecodeUDPPacketBinary. rewrite decide_False.
  2:{ pose proof (length_body_of la ra c). pose proof (length_put ra).
      destruct la as [la|]; [pose proof (length_put la)|]; cbn [from_option] in *; lia. }
  destruct (Z.ltb_spec DefaultMaxFramePayloadSize (2 + Z.of_nat (length (body_of la ra c)))); [lia|].
  unfold body_of. set (tl := be_split 2 (Z.of_nat (length c)) ++ c).
  assert (Htail : ∀ local, (if decide (length tl < 2)%nat then Err "truncated UDP payload length"
     else if MaxUDPPayloadSize <? be_combine (take 2 tl) then Err (payload_limit (be_combine (take 2 tl)))
     else if Z.of_nat (length (drop 2 tl)) <? be_combine (take 2 tl)
     then Err ("truncated UDP payload: have " +:+ Itoa (Z.of_nat (length (drop 2 tl))) +:+ " want "
               +:+ Itoa (be_combine (take 2 tl)))
     else if be_combine (take 2 tl) <? Z.of_nat (length (drop 2 tl))
     then Err ("trailing UDP packet bytes: " +:+ Itoa (Z.of_nat (length (drop 2 tl)) - be_combine (take 2 tl)))
     else Ok (mkUDPPacket (drop 2 tl) local (Some (addr_of ra)))) = Ok (mkUDPPacket c local (Some (addr_of ra)))).
  { intros local. subst tl. rewrite decide_False by (rewrite length_app, length_be_split; lia).
    destruct (take_drop_len (be_split 2 (Z.of_nat (length c))) c 2 (length_be_split _ _)) as [-> ->].
    unfold MaxUDPPayloadSize in *. rewrite be_combine_16 by lia.
    by rewrite !Z.ltb_irrefl, (proj2 (Z.ltb_ge _ _) Hc). }
  destruct la as [la|]; cbn [from_option app].
  - change (Z_of_byte _) with 3. rewrite decide_False by (by intros []). rewrite decide_False by done.
    rewrite decide_True by done. rewrite (read_put la), wrap_bind, bind_Ok_l, (read_put ra), wrap_bind by auto. apply Htail.
  - change (Z_of_byte _) with 2. rewrite decide_False by (by intros []). rewrite decide_False by done.
    rewrite decide_False by (by intros []). rewrite bind_Ok_l, (read_put ra), wrap_bind by done. apply Htail.
Qed.

Lemma flags_cases f : 0 ≤ f < 256 → Z.land f (Z.lnot udpPacketValidFlags) = 0 →
  Z.land f udpPacketFlagRemoteAddr ≠ 0 → f = 2 ∨ f = 3.
Proof.
  intros Hr. rewrite <-(Z2Nat.id f) by lia. assert (H : (Z.to_nat f < 256)%nat) by lia.
  generalize (Z.to_nat f) H. clear. intros n Hn.
  do 4 (destruct n as [|n]; [try (by left); try (by right); try done|]).
  intros H0. exfalso. revert n Hn H0.
  assert (Hall : Forall (λ n, Z.land (Z.of_nat (4 + n)) (Z.lnot udpPacketValidFlags) ≠ 0) (seq 0 252)).
  { apply (bool_decide_unpack _). vm_compute. done. }
  rewrite Forall_forall in Hall. intros n Hn H0. apply (Hall n); [|done]. apply elem_of_seq. lia.
Qed.

(** Everything the decoder accepts is the body of some wire addresses. *)
Lemma decode_Ok body p : DecodeUDPPacketBinary body = Ok p →
  ∃ la ra c, (∀ a, la = Some a → wire_addr a) ∧ wire_addr ra ∧ body_fits body c
    ∧ body = body_of la ra c ∧ p = packet_of la ra c.
Proof.
  unfold DecodeUDPPacketBinary. destruct (decide _) as [|_]; [done|].
  destruct (Z.ltb_spec DefaultMaxFramePayloadSize (2 + Z.of_nat (length body))) as [|Hl]; [done|].
  destruct body as [|b s]; [done|]. destruct (decide _) as [|Hres%dec_stable]; [done|].
  destruct (decide _) as [|Hrem]; [done|].
  pose proof (flags_cases _ (Z_of_byte_range b) Hres Hrem) as Hf.
  intros [[local s1] [H1 H2]]%result_bind_Ok.
  assert (∃ la, (∀ a, la = Some a → wire_addr a) ∧ local = addr_of <$> la
    ∧ s = from_option putBinaryUDPAddr [] la ++ s1
    ∧ Z_of_byte b = Z.lor (match la with Some _ => udpPacketFlagLocalAddr | None => 0 end) udpPacketFlagRemoteAddr)
    as (la & Hla & -> & -> & Hb).
  { destruct (decide _) as [Hloc|Hloc%dec_stable].
    - apply result_bind_Ok in H1 as ([a s'] & H1%wrap_err_Ok & [= <- <-]).
      apply read_Ok in H1 as (ba & Hw & -> & ->). exists (Some ba). split_and!; [by intros ? [= <-]|done..|].
      destruct Hf as [Hf|Hf]; rewrite Hf in *; done.
    - injection H1 as <- <-. exists None. split_and!; [done..|].
      destruct Hf as [Hf|Hf]; rewrite Hf in *; done. }
  clear H1. apply result_bind_Ok in H2 as ([remote s2] & H2%wrap_err_Ok & H3).
  apply read_Ok in H2 as (ra & Hra & -> & ->).
  destruct (decide _) as [|H2]; [done|].
  destruct (Z.ltb_spec MaxUDPPayloadSize (be_combine (take 2 s2))); [done|].
  destruct (Z.ltb_spec (Z.of_nat (length (drop 2 s2))) (be_combine (take 2 s2))); [done|].
  destruct (Z.ltb_spec (be_combine (take 2 s2)) (Z.of_nat (length (drop 2 s2)))); [done|].
  injection H3 as <-. exists la, ra, (drop 2 s2). split_and!; [done|done|by unfold body_fits; lia| |done].
  unfold body_of. rewrite <-Hb, byte_of_Z_of_byte. do 3 f_equal.
  replace (Z.of_nat (length (drop 2 s2))) with (be_combine (take 2 s2)) by lia.
  rewrite be_split_of by (rewrite length_take; lia). by rewrite take_drop.
Qed.

(** The packet as the receiver gets it. *)
Definition norm_packet (p : UDPPacket) : UDPPacket :=
  mkUDPPacket (up_Content p) (norm_addr <$> up_LocalAddr p) (norm_addr <$> up_RemoteAddr p).
Definition canonical_packet (p : UDPPacket) : Prop := norm_packet p = p.

Lemma encode_decode p body : EncodeUDPPacketBinary (Some p) = Ok body →
  DecodeUDPPacketBinary body = Ok (norm_packet p).
Proof.
  rewrite encode_Ok. destruct p as [c l r]. simpl. intros (remote & la & ra & -> & Hr & Hl & Hfit & ->).
  apply validate_Ok in Hr as [Hra Hnr].
  assert (Hla : (∀ a, la = Some a → wire_addr a) ∧ addr_of <$> la = norm_addr <$> l).
  { destruct l as [l|]; [|by subst la]. destruct Hl as (a & Ha%validate_Ok & ->).
    destruct Ha as [Hw Ha]. split; [by intros ? [= <-]|]. simpl. by rewrite Ha. }
  destruct Hla as [Hw Hla]. rewrite decode_body_of by done.
  unfold packet_of, norm_packet. simpl. by rewrite Hla, Hnr.
Qed.

(** C35. The binary UDP codec: what [EncodeUDPPacketBinary] produces,
    [DecodeUDPPacketBinary] reads back as the same packet with IPv4 addresses in
    their four-byte form, within the frame limit; and for packets already in that
    form the two functions are inverse to each other: the decoder accepts exactly
    the one body the encoder gives (no reserved flag, no truncated or trailing
    byte, no zone on an IPv4 address). *)
Theorem udp_codec_exact (p : UDPPacket) (body : list byte) :
  (EncodeUDPPacketBinary (Some p) = Ok body →
     DecodeUDPPacketBinary body = Ok (norm_packet p)
     ∧ 2 + Z.of_nat (length body) ≤ DefaultMaxFramePayloadSize)
  ∧ (canonical_packet p →
     EncodeUDPPacketBinary (Some p) = Ok body ↔ DecodeUDPPacketBinary body = Ok p).
Proof.
  split; [|intros Hcan; split].
  - intros H. split; [by apply encode_decode|]. apply encode_Ok in H as (?&?&?&?&?&?&[_ ?]&->). lia.
  - intros H%encode_decode. by rewrite Hcan in H.
  - intros (la & ra & c & Hla & Hra & Hfit & -> & ->)%decode_Ok.
    unfold canonical_packet, norm_packet in Hcan. simpl in Hcan. injection Hcan as Hcl Hcr.
    apply encode_Ok. exists (addr_of ra), la, ra. simpl.
    split_and!; [done|by apply validate_wire, Hcr| |done|done].
    destruct la as [la|]; [|done]. simpl in *. injection Hcl as Hcl. exists la.
    split; [apply validate_wire; [by apply Hla|by apply Hcl]|done].
Qed.

Definition udp_example : UDPPacket :=
  mkUDPPacket [Byte.x01; Byte.x02] None
    (Some (mkUDPAddr (v4InV6Prefix ++ [Byte.x0a; Byte.x00; Byte.x00; Byte.x01]) 80 "")).
Definition udp_example_body : list byte :=
  [Byte.x02; Byte.x04; Byte.x0a; Byte.x00; Byte.x00; Byte.x01; Byte.x00; Byte.x50; Byte.x00;
   Byte.x00; Byte.x02; Byte.x01; Byte.x02].

Lemma udp_codec_exact_witness :
  DecodeUDPPacketBinary udp_example_body = Ok (norm_packet udp_example)
  ∧ norm_packet udp_example ≠ udp_example
  ∧ EncodeUDPPacketBinary (Some (norm_packet udp_example)) = Ok udp_example_body.
Proof.
  split; [|split].
  - apply (udp_codec_exact udp_example udp_example_body). vm_compute. reflexivity.
  - discriminate.
  - apply (udp_codec_exact (norm_packet udp_example) udp_example_body); vm_compute; reflexivity.
Defined.
