(* ===== verification/ClientProxy.v ===== *)
(** * The client's proxies: [client/proxy/proxy_manager.go] and [proxy_wrapper.go]

    A [Manager] maps names to [Wrapper]s; every wrapper has a worker goroutine that
    asks the server for the proxy.  A wrapper stays in memory, with its worker, after it
    left the map, so wrappers live in a store and the map holds indices into it.  The
    transporter's [Send] appends to the list of messages sent, each with the wrapper
    that sent it (an error of [Send] is ignored by the source).  [reflect.DeepEqual] on
    configurations is equality, where a nil map or slice and an empty one are the same
    value of the model.  A critical section is one step; the worker's reading of the clock, its
    critical section and its [select] are three. *)
From S2P Require Import Prelude GoStd Naming Msg ConfigV1.
From stdpp Require Import gmap list.
Local Open Scope Z_scope.

Inductive ProxyPhase : Type :=
| ProxyPhaseNew | ProxyPhaseWaitStart | ProxyPhaseStartErr | ProxyPhaseRunning
| ProxyPhaseCheckFailed | ProxyPhaseClosed.
#[export] Instance ProxyPhase_eq_dec : EqDecision ProxyPhase.
Proof. solve_decision. Defined.

(** Nanoseconds. *)
Definition waitResponseTimeout : Z := 20 * 1000000000.
Definition startErrTimeout : Z := 30 * 1000000000.

(** Where a worker is: before reading the clock, before its critical section with the
    time it read and the health, in the [select], or returned. *)
Inductive worker : Type := WTop | WChecked (now : Z) (health : Z) | WSelect | WReturned.

Record Wrapper := mkWrapper {
  pw_Name : string;
  pw_Type : string;
  pw_Phase : ProxyPhase;
  pw_Err : string;
  pw_Cfg : ProxyConfigurer;
  pw_RemoteAddr : string;
  pw_health : Z;
  pw_lastSendStartMsg : Z;
  pw_lastStartErr : Z;
  pw_closeCh : bool;               (* closed *)
  pw_wireName : string;
  pw_worker : worker;
}.

Definition pw_with (phase : ProxyPhase) (err : string) (w : Wrapper) : Wrapper :=
  mkWrapper (pw_Name w) (pw_Type w) phase err (pw_Cfg w) (pw_RemoteAddr w) (pw_health w)
    (pw_lastSendStartMsg w) (pw_lastStartErr w) (pw_closeCh w) (pw_wireName w) (pw_worker w).
Definition pw_set_addr (addr : string) (w : Wrapper) : Wrapper :=
  mkWrapper (pw_Name w) (pw_Type w) (pw_Phase w) (pw_Err w) (pw_Cfg w) addr (pw_health w)
    (pw_lastSendStartMsg w) (pw_lastStartErr w) (pw_closeCh w) (pw_wireName w) (pw_worker w).
Definition pw_set_sent (t : Z) (w : Wrapper) : Wrapper :=
  mkWrapper (pw_Name w) (pw_Type w) (pw_Phase w) (pw_Err w) (pw_Cfg w) (pw_RemoteAddr w) (pw_health w)
    t (pw_lastStartErr w) (pw_closeCh w) (pw_wireName w) (pw_worker w).
Definition pw_set_errTime (t : Z) (w : Wrapper) : Wrapper :=
  mkWrapper (pw_Name w) (pw_Type w) (pw_Phase w) (pw_Err w) (pw_Cfg w) (pw_RemoteAddr w) (pw_health w)
    (pw_lastSendStartMsg w) t (pw_closeCh w) (pw_wireName w) (pw_worker w).
Definition pw_set_closed (w : Wrapper) : Wrapper :=
  mkWrapper (pw_Name w) (pw_Type w) (pw_Phase w) (pw_Err w) (pw_Cfg w) (pw_RemoteAddr w) (pw_health w)
    (pw_lastSendStartMsg w) (pw_lastStartErr w) true (pw_wireName w) (pw_worker w).
Definition pw_set_worker (k : worker) (w : Wrapper) : Wrapper :=
  mkWrapper (pw_Name w) (pw_Type w) (pw_Phase w) (pw_Err w) (pw_Cfg w) (pw_RemoteAddr w) (pw_health w)
    (pw_lastSendStartMsg w) (pw_lastStartErr w) (pw_closeCh w) (pw_wireName w) k.

(** [NewWrapper]; the zero time is before every clock reading.  [Start] runs the worker. *)
Definition zero_time : Z := 0.
Definition NewWrapper (user : string) (cfg : ProxyConfigurer) : Wrapper :=
  let base := GetBaseConfig cfg in
  mkWrapper (pc_Name base) (pc_Type base) ProxyPhaseNew "" cfg "" 0 zero_time zero_time false
    (AddUserPrefix user (pc_Name base)) WTop.

(** [close]: the message it sends. *)
Definition close_msg (w : Wrapper) : Message := MCloseProxy (mkCloseProxy (pw_wireName w)).
(** The message of [checkWorker]. *)
Definition start_msg (w : Wrapper) : Message :=
  let m := MarshalToMsg (pw_Cfg w) zero_NewProxy in
  MNewProxy
  {| np_ProxyName := pw_wireName w; np_ProxyType := np_ProxyType m;
     np_UseEncryption := np_UseEncryption m; np_UseCompression := np_UseCompression m;
     np_BandwidthLimit := np_BandwidthLimit m; np_BandwidthLimitMode := np_BandwidthLimitMode m;
     np_Group := np_Group m; np_GroupKey := np_GroupKey m;
     np_Metas := np_Metas m; np_Annotations := np_Annotations m;
     np_RemotePort := np_RemotePort m; np_CustomDomains := np_CustomDomains m;
     np_SubDomain := np_SubDomain m; np_Locations := np_Locations m;
     np_HTTPUser := np_HTTPUser m; np_HTTPPwd := np_HTTPPwd m;
     np_HostHeaderRewrite := np_HostHeaderRewrite m; np_Headers := np_Headers m;
     np_ResponseHeaders := np_ResponseHeaders m; np_RouteByHTTPUser := np_RouteByHTTPUser m;
     np_Sk := np_Sk m; np_AllowUsers := np_AllowUsers m; np_Multiplexer := np_Multiplexer m |}.

(** [Run] of the proxy a configurer stands for: XTCP's is [BaseProxy.Run]. *)
Definition Proxy_Run (c : ProxyConfigurer) : result unit :=
  match c with PC_XTCP _ => Ok tt end.

(** [SetRunningStatus] at time [now]: the wrapper, the messages sent, and the error. *)
Definition SetRunningStatus (now : Z) (remoteAddr respErr : string) (w : Wrapper)
    : Wrapper * list Message * result unit :=
  if decide (pw_Phase w ≠ ProxyPhaseWaitStart)
  then (w, [], Err "status not wait start, ignore start message")
  else
    let w := pw_set_addr remoteAddr w in
    if decide (respErr ≠ "")
    then (pw_set_errTime now (pw_with ProxyPhaseStartErr respErr w), [], Err respErr)
    else match Proxy_Run (pw_Cfg w) with
         | Err e => (pw_set_errTime now (pw_with ProxyPhaseStartErr e w), [close_msg w], Err e)
         | Ok _ => (pw_with ProxyPhaseRunning "" w, [], Ok tt)
         end.

(** [Stop]; [None] is the panic of closing a closed channel. *)
Definition Stop (w : Wrapper) : option (Wrapper * list Message) :=
  if pw_closeCh w then None
  else Some (pw_with ProxyPhaseClosed (pw_Err w) (pw_set_closed w), [close_msg w]).

(** The critical section of [checkWorker] with the time and health it read. *)
Definition must_start (now : Z) (w : Wrapper) : bool :=
  match pw_Phase w with
  | ProxyPhaseNew | ProxyPhaseCheckFailed => true
  | ProxyPhaseWaitStart => pw_lastSendStartMsg w + waitResponseTimeout <? now
  | ProxyPhaseStartErr => pw_lastStartErr w + startErrTimeout <? now
  | _ => false
  end.
Definition check_section (now health : Z) (w : Wrapper) : Wrapper * list Message :=
  if decide (health = 0) then
    if must_start now w
    then (pw_set_sent now (pw_with ProxyPhaseWaitStart (pw_Err w) w), [start_msg w])
    else (w, [])
  else
    if decide (pw_Phase w = ProxyPhaseRunning ∨ pw_Phase w = ProxyPhaseWaitStart)
    then (pw_with ProxyPhaseCheckFailed (pw_Err w) w, [close_msg w])
    else (w, []).

(** [InWorkConn]: whether the proxy takes the connection; otherwise it is closed. *)
Definition InWorkConn (w : Wrapper) : bool := bool_decide (pw_Phase w = ProxyPhaseRunning).

(** ** The manager *)
Record Manager := mkManager {
  proxies : gmap string nat;
  wrappers : list Wrapper;
  pm_sent : list (nat * Message);
  starting : list (nat * string * string);   (* [StartProxy] calls that found their wrapper *)
  clock : Z;
}.
Definition NewManager : Manager := mkManager ∅ [] [] [] 1.

Definition set_wrapper (i : nat) (w : Wrapper) (ms : list Message) (pm : Manager) : Manager :=
  mkManager (proxies pm) (<[i := w]> (wrappers pm)) (pm_sent pm ++ ((i,.) <$> ms)) (starting pm) (clock pm).
Definition set_proxies (p : gmap string nat) (pm : Manager) : Manager :=
  mkManager p (wrappers pm) (pm_sent pm) (starting pm) (clock pm).

Definition stop_wrapper (i : nat) (pm : Manager) : option Manager :=
  w ← wrappers pm !! i; '(w, ms) ← Stop w; Some (set_wrapper i w ms pm).

(** [Close]; [order] is the order in which the runtime visits the map. *)
Definition close_one (pm : Manager) (name : string) : option Manager :=
  i ← proxies pm !! name; stop_wrapper i pm.
Definition Close (order : list string) (pm : Manager) : option Manager :=
  pm ← foldl (λ acc name, acc ≫= λ pm, close_one pm name) (Some pm) order;
  Some (set_proxies ∅ pm).

Definition cfg_name (c : ProxyConfigurer) : string := pc_Name (GetBaseConfig c).
(** [lo.KeyBy]: the last configuration of a name wins. *)
Definition KeyBy (cfgs : list ProxyConfigurer) : gmap string ProxyConfigurer :=
  foldl (λ m c, <[cfg_name c := c]> m) ∅ cfgs.

(** [UpdateAll]: one iteration of each loop, and the whole. *)
Definition update_del (cfgs : gmap string ProxyConfigurer) (pm : Manager) (name : string) : option Manager :=
  i ← proxies pm !! name; w ← wrappers pm !! i;
  if decide (cfgs !! name = Some (pw_Cfg w)) then Some pm
  else stop_wrapper i (set_proxies (delete name (proxies pm)) pm).
Definition update_add (user : string) (pm : Manager) (cfg : ProxyConfigurer) : Manager :=
  match proxies pm !! cfg_name cfg with
  | Some _ => pm
  | None =>
      mkManager (<[cfg_name cfg := length (wrappers pm)]> (proxies pm))
        (wrappers pm ++ [NewWrapper user cfg]) (pm_sent pm) (starting pm) (clock pm)
  end.
Definition UpdateAll (user : string) (order : list string) (cfgs : list ProxyConfigurer) (pm : Manager)
    : option Manager :=
  pm ← foldl (λ acc name, acc ≫= λ pm, update_del (KeyBy cfgs) pm name) (Some pm) order;
  Some (foldl (update_add user) pm cfgs).

(** [StartProxy]: the look-up, and the call on the wrapper it found. *)
Definition StartProxy_lookup (name remoteAddr respErr : string) (pm : Manager) : result Manager :=
  match proxies pm !! name with
  | None => Err ("proxy [" +:+ name +:+ "] not found")
  | Some i => Ok (mkManager (proxies pm) (wrappers pm) (pm_sent pm) (starting pm ++ [(i, remoteAddr, respErr)]) (clock pm))
  end.

(** [HandleWorkConn]: whether the connection is handed to a proxy. *)
Definition HandleWorkConn (name : string) (pm : Manager) : bool :=
  match proxies pm !! name with
  | Some i => from_option InWorkConn false (wrappers pm !! i)
  | None => false
  end.

Inductive pmstep (user : string) : Manager → Manager → Prop :=
| pm_update order cfgs pm pm' : order ≡ₚ (map_to_list (proxies pm)).*1 →
    UpdateAll user order cfgs pm = Some pm' → pmstep user pm pm'
| pm_close order pm pm' : order ≡ₚ (map_to_list (proxies pm)).*1 →
    Close order pm = Some pm' → pmstep user pm pm'
| pm_lookup name addr e pm pm' : StartProxy_lookup name addr e pm = Ok pm' → pmstep user pm pm'
| pm_start l1 i addr e l2 w w' ms r pm : starting pm = l1 ++ (i, addr, e) :: l2 → wrappers pm !! i = Some w →
    SetRunningStatus (clock pm) addr e w = (w', ms, r) →
    pmstep user pm (let pm := set_wrapper i w' ms pm in
      mkManager (proxies pm) (wrappers pm) (pm_sent pm) (l1 ++ l2) (clock pm))
| pm_read i w pm : wrappers pm !! i = Some w → pw_worker w = WTop →
    pmstep user pm (set_wrapper i (pw_set_worker (WChecked (clock pm) (pw_health w)) w) [] pm)
| pm_check i w w' now health ms pm : wrappers pm !! i = Some w → pw_worker w = WChecked now health →
    check_section now health w = (w', ms) →
    pmstep user pm (set_wrapper i (pw_set_worker WSelect w') ms pm)
| pm_tick i w pm : wrappers pm !! i = Some w → pw_worker w = WSelect →
    pmstep user pm (set_wrapper i (pw_set_worker WTop w) [] pm)
| pm_return i w pm : wrappers pm !! i = Some w → pw_worker w = WSelect → pw_closeCh w = true →
    pmstep user pm (set_wrapper i (pw_set_worker WReturned w) [] pm)
| pm_time t pm : clock pm ≤ t →
    pmstep user pm (mkManager (proxies pm) (wrappers pm) (pm_sent pm) (starting pm) t).

(** ** Lemmas: names and messages *)
Definition msg_name (m : Message) : option string :=
  match m with
  | MNewProxy m => Some (np_ProxyName m)
  | MCloseProxy m => Some (cp_ProxyName m)
  | _ => None
  end.
Definition is_close (m : Message) : Prop := match m with MCloseProxy _ => True | _ => False end.

Lemma AddUserPrefix_same_user_inj user a b : AddUserPrefix user a = AddUserPrefix user b → a = b.
Proof. intros H. by rewrite <-(StripUserPrefix_AddUserPrefix user a), H, StripUserPrefix_AddUserPrefix. Qed.

(** The messages of one proxy, and those of one wrapper. *)
Definition of_name (user name : string) (ms : list (nat * Message)) : list Message :=
  filter (λ m, msg_name m = Some (AddUserPrefix user name)) ms.*2.
Definition of_wrapper (i : nat) (ms : list (nat * Message)) : list Message :=
  (filter (λ m, m.1 = i) ms).*2.

Lemma of_name_app user n l1 l2 : of_name user n (l1 ++ l2) = of_name user n l1 ++ of_name user n l2.
Proof. unfold of_name. by rewrite fmap_app, filter_app. Qed.
Lemma of_wrapper_app i l1 l2 : of_wrapper i (l1 ++ l2) = of_wrapper i l1 ++ of_wrapper i l2.
Proof. unfold of_wrapper. by rewrite filter_app, fmap_app. Qed.
Lemma of_wrapper_self i (ms : list Message) : of_wrapper i ((i,.) <$> ms) = ms.
Proof. unfold of_wrapper. induction ms as [|m ms IH]; [done|]. cbn. rewrite decide_True by done. cbn. by f_equal. Qed.
Lemma of_wrapper_other i j (ms : list Message) : i ≠ j → of_wrapper i ((j,.) <$> ms) = [].
Proof. intros Hne. unfold of_wrapper. induction ms as [|m ms IH]; [done|]. cbn. by rewrite decide_False by naive_solver. Qed.
Lemma of_name_sent user n i m : of_name user n ((i,.) <$> [m]) =
  if decide (msg_name m = Some (AddUserPrefix user n)) then [m] else [].
Proof. unfold of_name. cbn. by case_decide. Qed.

(** ** The invariant *)
Definition worker_ok (w : Wrapper) : Prop :=
  match pw_worker w with
  | WChecked _ h => h = 0
  | WReturned => pw_closeCh w = true
  | _ => True
  end.
Record wrapper_ok (user : string) (ms : list Message) (w : Wrapper) : Prop := mkWrapperOk {
  wo_health : pw_health w = 0;
  wo_worker : worker_ok w;
  wo_name : cfg_name (pw_Cfg w) = pw_Name w;
  wo_wire : pw_wireName w = AddUserPrefix user (pw_Name w);
  wo_phase : pw_Phase w ≠ ProxyPhaseCheckFailed;
  wo_closed : pw_Phase w = ProxyPhaseClosed ↔ pw_closeCh w = true;
  wo_sent : ∃ k, ms = replicate k (start_msg w) ++ (if pw_closeCh w then [close_msg w] else [])
    ∧ (pw_closeCh w = false → pw_Phase w = ProxyPhaseNew ↔ k = 0%nat);
}.

(** What the last message about a proxy tells. *)
Definition last_tells (user name : string) (pm : Manager) : Prop :=
  match proxies pm !! name ≫= (λ i, wrappers pm !! i) with
  | Some w =>
      if decide (pw_Phase w = ProxyPhaseNew)
      then ∀ m, last (of_name user name (pm_sent pm)) = Some m → is_close m
      else last (of_name user name (pm_sent pm)) = Some (start_msg w)
  | None => ∀ m, last (of_name user name (pm_sent pm)) = Some m → is_close m
  end.

Record pminv (user : string) (pm : Manager) : Prop := mkPminv {
  pi_map : ∀ name i, proxies pm !! name = Some i →
    ∃ w, wrappers pm !! i = Some w ∧ pw_closeCh w = false ∧ pw_Name w = name;
  pi_open : ∀ i w, wrappers pm !! i = Some w → pw_closeCh w = false → proxies pm !! pw_Name w = Some i;
  pi_ok : ∀ i w, wrappers pm !! i = Some w → wrapper_ok user (of_wrapper i (pm_sent pm)) w;
  pi_sent : ∀ i m, (i, m) ∈ pm_sent pm → (i < length (wrappers pm))%nat;
  pi_last : ∀ name, last_tells user name pm;
}.

(** What a wrapper does apart from [Stop]. *)
Definition same_static (w w' : Wrapper) : Prop :=
  pw_Name w' = pw_Name w ∧ pw_Cfg w' = pw_Cfg w ∧ pw_wireName w' = pw_wireName w
  ∧ pw_health w' = pw_health w ∧ pw_closeCh w' = pw_closeCh w.
Inductive wmove (w w' : Wrapper) : list Message → Prop :=
| wm_keep : same_static w w' → pw_Phase w' = pw_Phase w
    ∨ pw_Phase w = ProxyPhaseWaitStart ∧ (pw_Phase w' = ProxyPhaseStartErr ∨ pw_Phase w' = ProxyPhaseRunning) →
    wmove w w' []
| wm_ask : same_static w w' → pw_Phase w ≠ ProxyPhaseClosed → pw_Phase w' = ProxyPhaseWaitStart →
    wmove w w' [start_msg w].

Lemma start_msg_static w w' : same_static w w' → start_msg w' = start_msg w ∧ close_msg w' = close_msg w.
Proof. intros (_ & Hc & Hw & _). unfold start_msg, close_msg. by rewrite Hc, Hw. Qed.
Lemma start_msg_name w : msg_name (start_msg w) = Some (pw_wireName w).
Proof. done. Qed.

Lemma wmove_ok user ms w w' ms' : wrapper_ok user ms w →
  worker_ok w' → wmove w w' ms' →
  wrapper_ok user (ms ++ ms') w'.
Proof.
  intros [Hh Hr Hn Hw Hp Hc (k & -> & Hk)] Hr' Hm.
  assert (Hst : same_static w w') by (by destruct Hm).
  destruct (start_msg_static _ _ Hst) as [Es Ec]. destruct Hst as (E1 & E2 & E3 & E4 & E5).
  destruct Hm as [_ Hph|_ Hph Hph'].
  - split; rewrite ?E1, ?E2, ?E3, ?E4; [done..|intuition congruence| |].
    + rewrite E5, <-Hc. intuition congruence.
    + exists k. rewrite app_nil_r, E5, Es, Ec. split; [done|]. intros Hcl. rewrite <-Hk by done. intuition congruence.
  - assert (Hcl : pw_closeCh w = false) by (destruct (pw_closeCh w); tauto).
    split; rewrite ?E1, ?E2, ?E3, ?E4; [done..|congruence| |].
    + rewrite E5, Hph', Hcl. done.
    + exists (S k). rewrite E5, Hcl, Es, !app_nil_r. split; [by rewrite replicate_S_end|]. by rewrite Hph'.
Qed.

Lemma last_tells_other user pm i w w' ms name : pminv user pm → wrappers pm !! i = Some w →
  pw_Name w' = pw_Name w → pw_Name w ≠ name → (∀ m, m ∈ ms → msg_name m = Some (pw_wireName w)) →
  last_tells user name (set_wrapper i w' ms pm).
Proof.
  intros [H1 H2 H3 _ H4] Hw Hn Hne Hms. specialize (H4 name). unfold last_tells in *. simpl.
  rewrite of_name_app.
  assert (of_name user name ((i,.) <$> ms) = []) as ->.
  { unfold of_name. rewrite <-list_fmap_compose. change (snd ∘ (i,.)) with (λ x : Message, x). rewrite list_fmap_id.
    induction ms as [|m ms IH]; [done|]. rewrite filter_cons_False; [apply IH; by intros; apply Hms; right|].
    rewrite (Hms m) by (by left). rewrite (wo_wire _ _ _ (H3 _ _ Hw)). by intros [= ?%AddUserPrefix_same_user_inj]. }
  rewrite app_nil_r. destruct (proxies pm !! name) as [j|] eqn:Hj; simpl in *; [|done].
  rewrite list_lookup_insert_ne; [done|]. intros ->. destruct (H1 _ _ Hj) as (w0 & ? & _ & ?). congruence.
Qed.

Lemma pminv_move user pm i w w' ms : pminv user pm → wrappers pm !! i = Some w → wmove w w' ms →
  worker_ok w' → pminv user (set_wrapper i w' ms pm).
Proof.
  intros Hinv Hw Hm Hr. pose proof Hinv as [H1 H2 H3 H4 H5].
  assert (Hst : same_static w w') by (by destruct Hm). pose proof Hst as (E1 & E2 & E3 & E4 & E5).
  assert (Hlen : (i < length (wrappers pm))%nat) by (by apply lookup_lt_Some in Hw).
  split; simpl.
  - intros name j Hj. destruct (H1 name j Hj) as (w0 & Hw0 & Hc & Hn). destruct (decide (i = j)) as [->|Hne].
    + rewrite list_lookup_insert_eq by done. exists w'. split; [done|]. split; congruence.
    + rewrite list_lookup_insert_ne by done. eauto.
  - intros j w0. rewrite list_lookup_insert_Some. intros [(<- & <- & _)|(Hne & Hw0)]; [|by apply H2].
    rewrite E5, E1. by apply H2.
  - intros j w0. rewrite list_lookup_insert_Some, of_wrapper_app. intros [(<- & <- & _)|(Hne & Hw0)].
    + rewrite of_wrapper_self. eapply wmove_ok; eauto.
    + rewrite of_wrapper_other by done. rewrite app_nil_r. by apply H3.
  - intros j m. rewrite length_insert. intros [Hm'|Hm']%elem_of_app; [by eapply H4|].
    apply list_elem_of_fmap in Hm' as (? & [= -> ->] & _). done.
  - intros name. destruct (decide (pw_Name w = name)) as [<-|Hne].
    2:{ apply (last_tells_other _ _ _ w); [done..|]. destruct Hm; [by intros ? ?%not_elem_of_nil|].
        by intros m ->%list_elem_of_singleton. }
    specialize (H5 (pw_Name w)). destruct (pw_closeCh w) eqn:Hcl.
    + (* a wrapper that left the map *)
      assert (Hp : pw_Phase w = ProxyPhaseClosed) by (by apply (wo_closed _ _ _ (H3 _ _ Hw))).
      destruct Hm as [_ _|]; [|done]. unfold last_tells in *. simpl. rewrite app_nil_r.
      destruct (proxies pm !! pw_Name w) as [j|] eqn:Hj; simpl in *; [|done].
      rewrite list_lookup_insert_ne; [done|]. intros ->. destruct (H1 _ _ Hj) as (? & ? & ? & _). congruence.
    + pose proof (H2 _ _ Hw Hcl) as Hj. unfold last_tells in *. simpl. rewrite Hj in *. simpl in *. rewrite Hw in H5.
      rewrite list_lookup_insert_eq by done. destruct (start_msg_static _ _ Hst) as [-> _]. destruct Hm as [_ Hph|_ _ Hph].
      * rewrite app_nil_r. destruct (decide (pw_Phase w = _)); destruct (decide (pw_Phase w' = _)); try done; intuition congruence.
      * rewrite Hph. rewrite decide_False by done. rewrite of_name_app, of_name_sent, start_msg_name.
        rewrite decide_True by (f_equal; apply (wo_wire _ _ _ (H3 _ _ Hw))). by rewrite last_snoc.
Qed.

(** ** Stopping, deleting and adding *)
Definition stop_named (pm : Manager) (name : string) : option Manager :=
  i ← proxies pm !! name; stop_wrapper i (set_proxies (delete name (proxies pm)) pm).
Definition stopped (w : Wrapper) : Wrapper := pw_with ProxyPhaseClosed (pw_Err w) (pw_set_closed w).

Lemma stop_named_Some pm name i w : proxies pm !! name = Some i → wrappers pm !! i = Some w → pw_closeCh w = false →
  stop_named pm name = Some (set_wrapper i (stopped w) [close_msg w] (set_proxies (delete name (proxies pm)) pm)).
Proof. intros Hi Hw Hc. unfold stop_named, stop_wrapper, Stop. by rewrite Hi; simpl; rewrite Hw; simpl; rewrite Hc. Qed.

Lemma pminv_stop user pm name i w : pminv user pm → proxies pm !! name = Some i → wrappers pm !! i = Some w →
  pminv user (set_wrapper i (stopped w) [close_msg w] (set_proxies (delete name (proxies pm)) pm)).
Proof.
  intros Hinv Hi Hw. pose proof Hinv as [H1 H2 H3 H4 H5].
  destruct (H1 _ _ Hi) as (w0 & Hw0 & Hc & <-). assert (w0 = w) as -> by congruence. clear Hw0.
  assert (Hlen : (i < length (wrappers pm))%nat) by (by apply lookup_lt_Some in Hw).
  split; simpl.
  - intros name j. rewrite lookup_delete_Some. intros [Hne Hj]. destruct (H1 _ _ Hj) as (w0 & Hw0 & Hc0 & <-).
    exists w0. rewrite list_lookup_insert_ne; [done|]. intros ->. congruence.
  - intros j w0. rewrite list_lookup_insert_Some. intros [(<- & <- & _)|(Hne & Hw0)]; [done|]. intros Hc0.
    pose proof (H2 _ _ Hw0 Hc0) as Hj. rewrite lookup_delete_ne; [done|]. intros Heq. rewrite Heq in Hi. congruence.
  - intros j w0. rewrite list_lookup_insert_Some, of_wrapper_app. intros [(<- & <- & _)|(Hne & Hw0)].
    + change [(i, close_msg w)] with ((i,.) <$> [close_msg w]). rewrite of_wrapper_self.
      destruct (H3 _ _ Hw) as [W1 W2 W3 W4 W5 W6 (k & -> & Hk)]. split; simpl; try done.
      { revert W2. unfold worker_ok. simpl. by case_match. }
      exists k. split; [|done]. by rewrite Hc, app_nil_r.
    + change [(i, close_msg w)] with ((i,.) <$> [close_msg w]). rewrite of_wrapper_other by done.
      rewrite app_nil_r. by apply H3.
  - intros j m. rewrite length_insert. intros [Hm'|Hm']%elem_of_app; [by eapply H4|].
    apply list_elem_of_singleton in Hm' as [= -> ->]. done.
  - intros name. unfold last_tells. simpl. destruct (decide (name = pw_Name w)) as [->|Hne].
    + rewrite lookup_delete_eq. simpl. rewrite of_name_app.
      change [(i, close_msg w)] with ((i,.) <$> [close_msg w]). rewrite of_name_sent.
      rewrite decide_True by (simpl; f_equal; apply (wo_wire _ _ _ (H3 _ _ Hw))).
      rewrite last_snoc. by intros m [= <-].
    + assert (Hl : last_tells user name (set_wrapper i (stopped w) [close_msg w] pm)).
      { apply (last_tells_other _ _ _ w); [done..|congruence|by intros m ->%list_elem_of_singleton]. }
      unfold last_tells in Hl. simpl in Hl. by rewrite lookup_delete_ne by done.
Qed.

Lemma pminv_add user pm cfg : pminv user pm → pminv user (update_add user pm cfg).
Proof.
  intros Hinv. pose proof Hinv as [H1 H2 H3 H4 H5]. unfold update_add.
  destruct (proxies pm !! cfg_name cfg) as [i|] eqn:Hn; [done|]. split; simpl.
  - intros name j. rewrite lookup_insert_Some. intros [[<- <-]|[Hne Hj]].
    + exists (NewWrapper user cfg). by rewrite lookup_app_r, Nat.sub_diag by done.
    + destruct (H1 _ _ Hj) as (w & Hw & ? & ?). exists w. split; [|done]. by apply lookup_app_l_Some.
  - intros j w. rewrite lookup_app_Some. intros [Hw|[Hge Hw]] Hc.
    + rewrite lookup_insert_ne; [by apply H2|]. intros Heq. rewrite Heq, (H2 _ _ Hw Hc) in Hn. done.
    + apply list_lookup_singleton_Some in Hw as [Hz <-]. change (pw_Name (NewWrapper user cfg)) with (cfg_name cfg).
      rewrite lookup_insert_eq. f_equal. lia.
  - intros j w. rewrite lookup_app_Some. intros [Hw|[Hge Hw]]; [by apply H3|].
    apply list_lookup_singleton_Some in Hw as [Hz <-].
    assert (of_wrapper j (pm_sent pm) = []) as ->.
    { unfold of_wrapper. destruct (filter _ (pm_sent pm)) as [|[j' m] l] eqn:Ef; [done|].
      assert ((j', m) ∈ filter (λ m, m.1 = j) (pm_sent pm)) as [Hj Hm]%list_elem_of_filter by (rewrite Ef; left).
      apply H4 in Hm. simpl in Hj. lia. }
    split; try done. exists 0%nat. done.
  - intros j m Hm%H4. rewrite length_app. lia.
  - intros name. specialize (H5 name). unfold last_tells in *. simpl.
    destruct (decide (name = cfg_name cfg)) as [->|Hne].
    + rewrite lookup_insert_eq. simpl. rewrite lookup_app_r, Nat.sub_diag by done. simpl. by rewrite Hn in H5.
    + rewrite lookup_insert_ne by done. destruct (proxies pm !! name) as [j|] eqn:Hj; simpl in *; [|done].
      destruct (H1 _ _ Hj) as (w & Hw & _). rewrite Hw in H5. by rewrite (lookup_app_l_Some _ _ _ _ Hw).
Qed.

(** ** The loops *)
Definition kept (cfgs : gmap string ProxyConfigurer) (w : Wrapper) : Prop :=
  cfgs !! pw_Name w = Some (pw_Cfg w).
#[export] Instance kept_dec cfgs w : Decision (kept cfgs w).
Proof. unfold kept. apply _. Defined.

(** A manager after the first loop of [UpdateAll] over [order]. *)
Record deleted (cfgs : gmap string ProxyConfigurer) (order : list string) (pm pm' : Manager) : Prop := mkDeleted {
  de_out : ∀ n, n ∉ order → proxies pm' !! n = proxies pm !! n;
  de_in : ∀ n i w, n ∈ order → proxies pm !! n = Some i → wrappers pm !! i = Some w →
    proxies pm' !! n = if decide (kept cfgs w) then Some i else None;
  de_same : ∀ i w, wrappers pm !! i = Some w → kept cfgs w ∨ pw_Name w ∉ order → wrappers pm' !! i = Some w;
}.

Lemma update_del_spec user cfgs pm name : pminv user pm → is_Some (proxies pm !! name) →
  ∃ pm', update_del cfgs pm name = Some pm' ∧ pminv user pm' ∧ deleted cfgs [name] pm pm'.
Proof.
  intros Hinv [i Hi]. destruct (pi_map _ _ Hinv _ _ Hi) as (w & Hw & Hc & Hn). unfold update_del.
  rewrite Hi. simpl. rewrite Hw. simpl. destruct (decide _) as [Hk|Hk].
  - exists pm. split; [done|]. split; [done|]. split; [done| |done].
    intros n j w0 ->%list_elem_of_singleton Hj Hw0. assert (j = i) as -> by congruence.
    assert (w0 = w) as -> by congruence. rewrite decide_True; [done|]. unfold kept. by rewrite Hn.
  - pose proof (stop_named_Some _ _ _ _ Hi Hw Hc) as Hs. unfold stop_named in Hs. rewrite Hi in Hs. simpl in Hs.
    eexists. split; [exact Hs|]. split; [by eapply pminv_stop|]. split; simpl.
    + intros n Hn'. rewrite lookup_delete_ne; [done|]. intros ->. apply Hn'. by left.
    + intros n j w0 ->%list_elem_of_singleton Hj Hw0. rewrite lookup_delete_eq, decide_False; [done|].
      unfold kept. assert (w0 = w) as -> by congruence. by rewrite Hn.
    + intros j w0 Hw0 Hor. rewrite list_lookup_insert_ne; [done|]. intros <-.
      assert (w0 = w) as -> by congruence. rewrite Hn in Hor. unfold kept in Hor. rewrite Hn in Hor.
      destruct Hor as [?|Hor]; [done|]. apply Hor. by left.
Qed.

Lemma bind_None_foldl {A B} (f : B → A → option B) l : foldl (λ acc x, acc ≫= λ b, f b x) None l = None.
Proof. by induction l. Qed.

Lemma del_loop user cfgs order pm : pminv user pm → NoDup order → (∀ n, n ∈ order → is_Some (proxies pm !! n)) →
  ∃ pm', foldl (λ acc name, acc ≫= λ pm, update_del cfgs pm name) (Some pm) order = Some pm'
    ∧ pminv user pm' ∧ deleted cfgs order pm pm'.
Proof.
  revert pm. induction order as [|n order IH]; intros pm Hinv Hnd Hin.
  { exists pm. split; [done|]. split; [done|]. split; [done|by intros ? ? ? ?%not_elem_of_nil|done]. }
  apply NoDup_cons in Hnd as [Hn Hnd].
  destruct (update_del_spec user cfgs pm n Hinv) as (pm1 & H1 & Hinv1 & [O1 I1 S1]); [apply Hin; by left|].
  assert (Hne : ∀ n', n' ∈ order → n' ∉ [n]) by (intros n' ? ->%list_elem_of_singleton; done).
  destruct (IH pm1 Hinv1 Hnd) as (pm2 & H2 & Hinv2 & [O2 I2 S2]).
  { intros n' Hn'. rewrite O1 by auto. apply Hin. by right. }
  exists pm2. split; [by simpl; rewrite H1|]. split; [done|]. split.
  - intros n' [? ?]%not_elem_of_cons. rewrite O2, O1; [done| |done]. by intros ?%list_elem_of_singleton.
  - intros n' i w Hn' Hi Hw. destruct (pi_map _ _ Hinv _ _ Hi) as (w0 & Hw0 & _ & Hnw).
    assert (w0 = w) as -> by congruence. apply elem_of_cons in Hn' as [->|Hn'].
    + rewrite O2 by done. apply I1; [by left|done..].
    + rewrite <-O1 in Hi by auto. eapply I2; [done..|]. apply S1; [done|]. right. rewrite Hnw. auto.
  - intros i w Hw [Hk|[? ?]%not_elem_of_cons].
    + apply S2; [apply S1; [done|]|]; by left.
    + apply S2; [apply S1; [done|]|by right]. right. by intros ?%list_elem_of_singleton.
Qed.

(** The second loop. *)
Lemma add_loop user cfgs pm : pminv user pm → NoDup (cfg_name <$> cfgs) →
  let pm' := foldl (update_add user) pm cfgs in
  pminv user pm'
  ∧ (∀ i w, wrappers pm !! i = Some w → wrappers pm' !! i = Some w)
  ∧ (∀ n, n ∉ cfg_name <$> cfgs → proxies pm' !! n = proxies pm !! n)
  ∧ ∀ c, c ∈ cfgs → match proxies pm !! cfg_name c with
      | Some i => proxies pm' !! cfg_name c = Some i
      | None => ∃ i, proxies pm' !! cfg_name c = Some i ∧ wrappers pm' !! i = Some (NewWrapper user c)
      end.
Proof.
  revert pm. induction cfgs as [|c cfgs IH]; intros pm Hinv Hnd; simpl.
  { split_and!; [done..|]. by intros c ?%not_elem_of_nil. }
  apply NoDup_cons in Hnd as [Hn Hnd].
  destruct (IH (update_add user pm c) (pminv_add _ _ _ Hinv) Hnd) as (Hinv' & Hw & Hout & Hin).
  assert (Hne : ∀ n, n ≠ cfg_name c → proxies (update_add user pm c) !! n = proxies pm !! n).
  { intros n ?. unfold update_add. destruct (proxies pm !! cfg_name c); [done|]. simpl. by rewrite lookup_insert_ne. }
  split_and!; [done| | |].
  - intros i w Hi. apply Hw. unfold update_add. destruct (proxies pm !! cfg_name c); [done|]. by apply lookup_app_l_Some.
  - intros n [? ?]%not_elem_of_cons. by rewrite Hout, Hne.
  - intros c' [->|Hc']%elem_of_cons.
    + rewrite (Hout _ Hn). unfold update_add in *. destruct (proxies pm !! cfg_name c) as [i|] eqn:Hi; [done|]. simpl in *.
      exists (length (wrappers pm)). rewrite lookup_insert_eq. split; [done|]. apply Hw.
      by rewrite lookup_app_r, Nat.sub_diag by done.
    + specialize (Hin c' Hc'). rewrite Hne in Hin; [done|]. intros Heq. apply Hn. rewrite <-Heq.
      by apply list_elem_of_fmap_2.
Qed.

(** [Close] through named stops. *)
Lemma Close_spec user order pm : pminv user pm → order ≡ₚ (map_to_list (proxies pm)).*1 →
  ∃ pm', Close order pm = Some pm' ∧ pminv user pm' ∧ proxies pm' = ∅.
Proof.
  intros Hinv Hord.
  assert (Hnd : NoDup order) by (rewrite Hord; apply NoDup_fst_map_to_list).
  assert (Hin : ∀ n, n ∈ order ↔ is_Some (proxies pm !! n)).
  { intros n. rewrite Hord. rewrite list_elem_of_fmap. split.
    - intros ([n' i] & -> & Hm%elem_of_map_to_list). by exists i.
    - intros [i Hi]. exists (n, i). by rewrite elem_of_map_to_list. }
  clear Hord. unfold Close.
  assert (Hgen : ∀ order pm p0, pminv user pm → NoDup order → (∀ n, n ∈ order ↔ is_Some (proxies pm !! n)) →
    (∀ n, n ∈ order → p0 !! n = proxies pm !! n) →
    ∃ pm', foldl (λ acc name, acc ≫= λ pm, close_one pm name) (Some (set_proxies p0 pm)) order = Some (set_proxies p0 pm')
      ∧ pminv user pm' ∧ proxies pm' = ∅).
  { clear. intros order. induction order as [|n order IH]; intros pm p0 Hinv Hnd Hin Hp.
    { exists pm. split; [done|]. split; [done|]. apply map_eq. intros n. rewrite lookup_empty.
      destruct (proxies pm !! n) eqn:E; [|done]. apply mk_is_Some, Hin, not_elem_of_nil in E. done. }
    apply NoDup_cons in Hnd as [Hn Hnd]. destruct (proj1 (Hin n)) as [i Hi]; [by left|].
    destruct (pi_map _ _ Hinv _ _ Hi) as (w & Hw & Hc & _). simpl.
    assert (Hone : close_one (set_proxies p0 pm) n = Some (set_proxies p0
      (set_wrapper i (stopped w) [close_msg w] (set_proxies (delete n (proxies pm)) pm)))).
    { unfold close_one, stop_wrapper, Stop. simpl. rewrite Hp by (by left). rewrite Hi. simpl. rewrite Hw. simpl. by rewrite Hc. }
    rewrite Hone. apply IH; [by eapply pminv_stop|done| |].
    - intros n'. simpl. rewrite lookup_delete_is_Some, <-Hin, elem_of_cons. split; [intros ?; split; [by intros ->|by right]|].
      intros [? [?|?]]; congruence.
    - intros n' Hn'. simpl. rewrite lookup_delete_ne by (intros ->; done). apply Hp. by right. }
  destruct (Hgen order pm (proxies pm)) as (pm' & Hf & Hinv' & Hemp); [done..|].
  replace (set_proxies (proxies pm) pm) with pm in Hf by (by destruct pm). rewrite Hf. simpl.
  exists pm'. split; [|done]. rewrite <-Hemp. by destruct pm'.
Qed.

(** ** Preservation *)
Lemma pminv_ext user pm pm' : proxies pm' = proxies pm → wrappers pm' = wrappers pm → pm_sent pm' = pm_sent pm →
  pminv user pm → pminv user pm'.
Proof.
  intros E1 E2 E3 [H1 H2 H3 H4 H5]. split; rewrite ?E1, ?E2, ?E3; try done.
  intros name. specialize (H5 name). unfold last_tells in *. by rewrite E1, E2, E3.
Qed.

Lemma pminv_init user : pminv user NewManager.
Proof.
  split; simpl; try done; [by intros ? ? ?%not_elem_of_nil|].
  intros name. unfold last_tells. simpl. by rewrite lookup_empty.
Qed.

Lemma Phase_running_move user ms w w' ms' r now addr e : wrapper_ok user ms w →
  SetRunningStatus now addr e w = (w', ms', r) → wmove w w' ms' ∧ worker_ok w'.
Proof.
  intros [Hh Hr _ _ _ _ _]. unfold SetRunningStatus. destruct (decide _) as [|Hp%dec_stable].
  { intros [= <- <- <-]. split; [|done]. constructor; [done|by left]. }
  assert (Hrun : Proxy_Run (pw_Cfg (pw_set_addr addr w)) = Ok tt) by (by destruct (pw_Cfg _)).
  rewrite Hrun. destruct (decide _); intros [= <- <- <-]; (split; [|done]); constructor; auto; done.
Qed.

Lemma check_move user ms w w' ms' now h : wrapper_ok user ms w → h = 0 →
  check_section now h w = (w', ms') → wmove w (pw_set_worker WSelect w') ms' ∧ worker_ok (pw_set_worker WSelect w').
Proof.
  intros [Hh Hr _ _ Hp Hc _] ->. unfold check_section. rewrite decide_True by done.
  destruct (must_start now w) eqn:Hm; intros [= <- <-]; (split; [|done]).
  - apply wm_ask; [done| |done]. intros Heq. unfold must_start in Hm. by rewrite Heq in Hm.
  - constructor; [done|by left].
Qed.

Lemma same_static_worker w k : same_static w (pw_set_worker k w).
Proof. done. Qed.

Lemma update_all_inv user order cfgs pm pm' : pminv user pm → order ≡ₚ (map_to_list (proxies pm)).*1 →
  UpdateAll user order cfgs pm = Some pm' → pminv user pm'.
Proof.
  intros Hinv Hord. unfold UpdateAll.
  destruct (del_loop user (KeyBy cfgs) order pm Hinv) as (pm1 & -> & Hinv1 & _).
  { rewrite Hord. apply NoDup_fst_map_to_list. }
  { intros n. rewrite Hord, list_elem_of_fmap. intros ([n' i] & -> & Hm%elem_of_map_to_list). by exists i. }
  simpl. intros [= <-]. clear Hord. revert pm1 Hinv1. induction cfgs as [|c cfgs IH]; [done|].
  intros pm1 Hinv1. simpl. by apply IH, pminv_add.
Qed.

Lemma pmstep_inv user pm pm' : pmstep user pm pm' → pminv user pm → pminv user pm'.
Proof.
  intros Hs Hinv.
  destruct Hs as [order cfgs pm pm' Ho Hu|order pm pm' Ho Hc|name addr e pm pm' Hl|l1 i addr e l2 w w' ms r pm Hst Hw Hr
    |i w pm Hw Hk|i w w' now health ms pm Hw Hk Hc|i w pm Hw Hk|i w pm Hw Hk Hc|t pm Ht].
  - by eapply update_all_inv.
  - destruct (Close_spec _ _ _ Hinv Ho) as (pm2 & H2 & ? & _). congruence.
  - unfold StartProxy_lookup in Hl. destruct (proxies pm !! name); inv_res. by apply (pminv_ext _ pm).
  - pose proof (pi_ok _ _ Hinv _ _ Hw) as Hok. destruct (Phase_running_move _ _ _ _ _ _ _ _ _ Hok Hr).
    apply (pminv_ext _ (set_wrapper i w' ms pm)); [done..|]. by eapply pminv_move.
  - pose proof (pi_ok _ _ Hinv _ _ Hw) as Hok. eapply pminv_move; [done..| |].
    + constructor; [done|by left].
    + apply (wo_health _ _ _ Hok).
  - pose proof (pi_ok _ _ Hinv _ _ Hw) as Hok. pose proof (wo_worker _ _ _ Hok) as Hwk.
    unfold worker_ok in Hwk. rewrite Hk in Hwk. destruct (check_move _ _ _ _ _ _ _ Hok Hwk Hc).
    by eapply pminv_move.
  - eapply pminv_move; [done..| |done]. constructor; [done|by left].
  - eapply pminv_move; [done..| |done]. constructor; [done|by left].
  - by apply (pminv_ext _ pm).
Qed.

Lemma pm_reachable user pm : rtc (pmstep user) NewManager pm → pminv user pm.
Proof.
  generalize (pminv_init user). generalize NewManager. intros pm0 H0 H.
  induction H; eauto using pmstep_inv.
Qed.

(** What a manager has done stays done: messages are only added, and a closed wrapper stays
    in its place and closed. *)
Definition grows (pm pm' : Manager) : Prop :=
  pm_sent pm `prefix_of` pm_sent pm'
  ∧ ∀ i w, wrappers pm !! i = Some w → ∃ w', wrappers pm' !! i = Some w' ∧ (pw_closeCh w = true → pw_closeCh w' = true).
#[export] Instance grows_preorder : PreOrder grows.
Proof.
  split; [intros pm; split; [done|by eauto]|].
  intros a b c [S1 W1] [S2 W2]. split; [by etrans|].
  intros i w (w1 & Hw1 & H1)%W1. destruct (W2 _ _ Hw1) as (w2 & Hw2 & H2). eauto.
Qed.
Lemma grows_set pm i w w' ms : wrappers pm !! i = Some w → (pw_closeCh w = true → pw_closeCh w' = true) →
  grows pm (set_wrapper i w' ms pm).
Proof.
  intros Hi Hc. split; [by eexists|]. intros j v Hj. simpl. destruct (decide (i = j)) as [<-|Hne].
  - rewrite list_lookup_insert_eq by (by eapply lookup_lt_Some). exists w'. split; [done|]. assert (v = w) as -> by congruence. done.
  - rewrite list_lookup_insert_ne by done. eauto.
Qed.
Lemma grows_same pm pm' : pm_sent pm' = pm_sent pm → wrappers pm' = wrappers pm → grows pm pm'.
Proof. intros E1 E2. split; [by rewrite E1|]. rewrite E2. eauto. Qed.
Lemma grows_stop i pm pm' : stop_wrapper i pm = Some pm' → grows pm pm'.
Proof.
  unfold stop_wrapper. intros (w & Hw & H)%bind_Some. unfold Stop in H. destruct (pw_closeCh w) eqn:E; [done|].
  injection H as <-. by eapply grows_set.
Qed.
Lemma grows_loop {A} (f : Manager → A → option Manager) l pm pm' : (∀ a pm pm', f pm a = Some pm' → grows pm pm') →
  foldl (λ acc a, acc ≫= λ pm, f pm a) (Some pm) l = Some pm' → grows pm pm'.
Proof.
  intros Hf. revert pm. induction l as [|a l IH]; intros pm; [by intros [= <-]|]. simpl.
  destruct (f pm a) as [pm1|] eqn:E; [|by rewrite bind_None_foldl]. intros H. etrans; [by eapply Hf|by apply IH].
Qed.
Lemma Close_grows order pm pm' : Close order pm = Some pm' → grows pm pm'.
Proof.
  unfold Close. intros (pm1 & H & [= <-])%bind_Some. transitivity pm1; [|by apply grows_same].
  eapply grows_loop; [|exact H]. intros name a b (i & _ & Hs)%bind_Some. by eapply grows_stop.
Qed.
Lemma UpdateAll_grows user order cfgs pm pm' : UpdateAll user order cfgs pm = Some pm' → grows pm pm'.
Proof.
  unfold UpdateAll. intros (pm1 & H & [= <-])%bind_Some. transitivity pm1.
  - eapply grows_loop; [|exact H]. intros name a b (i & _ & Hs)%bind_Some. apply bind_Some in Hs as (w & _ & Hs).
    case_decide; [by injection Hs as <-|]. transitivity (set_proxies (delete name (proxies a)) a); [by apply grows_same|by eapply grows_stop].
  - clear. revert pm1. induction cfgs as [|c cfgs IH]; intros pm; [done|]. simpl. etrans; [|apply IH].
    unfold update_add. destruct (proxies pm !! _); [done|]. split; [done|]. simpl. intros i w Hi. exists w.
    split; [|done]. by apply lookup_app_l_Some.
Qed.
Lemma pmstep_grows user pm pm' : pmstep user pm pm' → grows pm pm'.
Proof.
  intros Hs. destruct Hs as [order cfgs pm pm' _ H|order pm pm' _ H|name addr e pm pm' H|l1 i addr e l2 w w' ms r pm _ Hw H
    |i w pm Hw _|i w w' now h ms pm Hw _ H|i w pm Hw _|i w pm Hw _ _|t pm _]; try (by eapply grows_set).
  - by eapply UpdateAll_grows.
  - by eapply Close_grows.
  - unfold StartProxy_lookup in H. destruct (proxies pm !! name); [|done]. injection H as <-. by apply grows_same.
  - etrans; [|by apply grows_same]. eapply (grows_set _ _ _ w'); [done|]. unfold SetRunningStatus in H.
    case_decide; [by injection H as <- <- <-|]. case_decide; [by injection H as <- <- <-|].
    by destruct (Proxy_Run _); injection H as <- <- <-.
  - eapply grows_set; [done|]. unfold check_section in H. repeat case_match; by simplify_eq.
  - by apply grows_same.
Qed.

Lemma KeyBy_NoDup cfgs c : NoDup (cfg_name <$> cfgs) → c ∈ cfgs → KeyBy cfgs !! cfg_name c = Some c.
Proof.
  unfold KeyBy. generalize (∅ : gmap string ProxyConfigurer). induction cfgs as [|d cfgs IH]; simpl.
  { by intros ? ? ?%not_elem_of_nil. }
  intros m [Hd Hnd]%NoDup_cons [->|Hc]%elem_of_cons; [|by apply IH].
  clear IH. assert (Hl : ∀ m : gmap string ProxyConfigurer, m !! cfg_name d = Some d →
    foldl (λ m c, <[cfg_name c:=c]> m) m cfgs !! cfg_name d = Some d).
  { clear m. induction cfgs as [|e cfgs IH]; [done|]. simpl. intros m Hm.
    apply not_elem_of_cons in Hd as [? Hd]. apply NoDup_cons in Hnd as [_ Hnd].
    apply IH; [done..|]. by rewrite lookup_insert_ne. }
  apply Hl. apply lookup_insert_eq.
Qed.

Lemma KeyBy_None cfgs n : n ∉ cfg_name <$> cfgs → KeyBy cfgs !! n = None.
Proof.
  unfold KeyBy. intros Hn. assert (Hl : ∀ m : gmap string ProxyConfigurer, m !! n = None →
    foldl (λ m c, <[cfg_name c:=c]> m) m cfgs !! n = None).
  { induction cfgs as [|e cfgs IH]; [done|]. simpl. intros m Hm.
    apply not_elem_of_cons in Hn as [? Hn]. apply IH; [done|]. by rewrite lookup_insert_ne. }
  apply Hl. apply lookup_empty.
Qed.

Lemma map_keys {A} (m : gmap string A) order : order ≡ₚ (map_to_list m).*1 →
  NoDup order ∧ ∀ n, n ∈ order ↔ is_Some (m !! n).
Proof.
  intros Ho. split; [rewrite Ho; apply NoDup_fst_map_to_list|]. intros n. rewrite Ho, list_elem_of_fmap. split.
  - intros ([n' i] & -> & Hm%elem_of_map_to_list). by exists i.
  - intros [i Hi]. exists (n, i). by rewrite elem_of_map_to_list.
Qed.

(** ** Properties *)

(** C17. The server is told the truth.  In every reachable state of a client's proxy
    manager - through any reloads, answers, time-outs, races of the workers, and closes -
    the last message sent about a proxy name is [NewProxy] with the running wrapper's
    configuration, once that wrapper has asked; it is [CloseProxy], or there was none,
    when no wrapper has the name or the new one has not asked yet.  So a server that
    handles the messages in order never keeps a proxy the client has dropped, and the
    request it acts on last has the configuration the client runs. *)
Theorem client_messages_match (user name : string) (pm : Manager) :
  rtc (pmstep user) NewManager pm →
  match proxies pm !! name ≫= (λ i, wrappers pm !! i) with
  | Some w =>
      pw_Name w = name ∧ pw_Phase w ≠ ProxyPhaseClosed ∧
      if decide (pw_Phase w = ProxyPhaseNew)
      then ∀ m, last (of_name user name (pm_sent pm)) = Some m → is_close m
      else last (of_name user name (pm_sent pm)) = Some (start_msg w)
  | None => ∀ m, last (of_name user name (pm_sent pm)) = Some m → is_close m
  end.
Proof.
  intros Hinv%pm_reachable. pose proof (pi_last _ _ Hinv name) as Hl. unfold last_tells in Hl.
  destruct (proxies pm !! name) as [i|] eqn:Hi; simpl in *; [|done].
  destruct (pi_map _ _ Hinv _ _ Hi) as (w & Hw & Hc & Hn). rewrite Hw in *. split_and!; [done| |done].
  intros Hp%(wo_closed _ _ _ (pi_ok _ _ Hinv _ _ Hw)). congruence.
Qed.

(** The life of a wrapper.  It asks for its proxy any number of times, always
    with the message of its own configuration, and at most once, as its last message,
    closes it; once stopped it is silent and stays out of the map, and until then it is
    the map's wrapper of its name; it is never in the phase [check failed], since
    nothing changes its health. *)
Theorem wrapper_life (user : string) (pm : Manager) (i : nat) (w : Wrapper) :
  rtc (pmstep user) NewManager pm → wrappers pm !! i = Some w →
  (∃ k, of_wrapper i (pm_sent pm) = replicate k (start_msg w) ++ (if pw_closeCh w then [close_msg w] else [])
      ∧ (pw_closeCh w = false → pw_Phase w = ProxyPhaseNew ↔ k = 0%nat))
  ∧ (pw_closeCh w = false ↔ proxies pm !! pw_Name w = Some i)
  ∧ (pw_Phase w = ProxyPhaseClosed ↔ pw_closeCh w = true)
  ∧ pw_Phase w ≠ ProxyPhaseCheckFailed.
Proof.
  intros Hinv%pm_reachable Hw. pose proof (pi_ok _ _ Hinv _ _ Hw) as [_ _ _ _ Hp Hc Hs].
  split_and!; [done| |done..]. split; [by apply (pi_open _ _ Hinv)|].
  intros Hi. destruct (pi_map _ _ Hinv _ _ Hi) as (w0 & Hw0 & ? & _). congruence.
Qed.

(** [UpdateAll] does not panic, and afterwards runs exactly the given proxies:
    for configurations with distinct names, whatever order the runtime visits the map in,
    the names of the map are those of the list; a proxy whose configuration did not
    change keeps its wrapper untouched, and every other one gets a new wrapper. *)
Theorem update_all_exact (user : string) (pm : Manager) (order : list string) (cfgs : list ProxyConfigurer) :
  rtc (pmstep user) NewManager pm → order ≡ₚ (map_to_list (proxies pm)).*1 → NoDup (cfg_name <$> cfgs) →
  ∃ pm', UpdateAll user order cfgs pm = Some pm'
    ∧ (∀ n, is_Some (proxies pm' !! n) ↔ n ∈ cfg_name <$> cfgs)
    ∧ ∀ c, c ∈ cfgs → ∃ i w, proxies pm' !! cfg_name c = Some i ∧ wrappers pm' !! i = Some w ∧
        match proxies pm !! cfg_name c ≫= (λ i, wrappers pm !! i) with
        | Some w0 => if decide (pw_Cfg w0 = c) then proxies pm !! cfg_name c = Some i ∧ w = w0
                     else w = NewWrapper user c
        | None => w = NewWrapper user c
        end.
Proof.
  intros Hinv%pm_reachable [Hnd Hin]%map_keys Hcfgs.
  destruct (del_loop user (KeyBy cfgs) order pm Hinv Hnd) as (pm1 & H1 & Hinv1 & [Dout Din Dsame]); [by intros n ?%Hin|].
  destruct (add_loop user cfgs pm1 Hinv1 Hcfgs) as (Hinv2 & Awr & Aout & Ain).
  exists (foldl (update_add user) pm1 cfgs). split; [unfold UpdateAll; by rewrite H1|]. split.
  - intros n. destruct (decide (n ∈ cfg_name <$> cfgs)) as [Hn|Hn].
    + split; [done|]. intros _. apply list_elem_of_fmap in Hn as (c & -> & Hc). specialize (Ain c Hc).
      destruct (proxies pm1 !! cfg_name c); [by rewrite Ain|]. destruct Ain as (i & -> & _). done.
    + split; [|done]. rewrite Aout by done. intros [i Hi]. exfalso.
      destruct (decide (n ∈ order)) as [Ho|Ho].
      * destruct (proj1 (Hin n) Ho) as [j Hj]. destruct (pi_map _ _ Hinv _ _ Hj) as (w & Hw & _ & Hnw).
        rewrite (Din _ _ _ Ho Hj Hw), decide_False in Hi; [done|]. unfold kept. by rewrite Hnw, KeyBy_None.
      * rewrite Dout in Hi by done. apply Ho, Hin. by eexists.
  - intros c Hc. specialize (Ain c Hc). pose proof (KeyBy_NoDup _ _ Hcfgs Hc) as Hkey.
    destruct (proxies pm !! cfg_name c) as [j|] eqn:Hj; simpl.
    + destruct (pi_map _ _ Hinv _ _ Hj) as (w & Hw & _ & Hnw). rewrite Hw.
      assert (Ho : cfg_name c ∈ order) by (apply Hin; by eexists).
      rewrite (Din _ _ _ Ho Hj Hw) in Ain.
      destruct (decide (pw_Cfg w = c)) as [<-|Hne].
      * rewrite decide_True in Ain by (unfold kept; by rewrite Hnw, Hkey). exists j, w. split_and!; [done| |done..].
        apply Awr, Dsame; [done|]. left. unfold kept. by rewrite Hnw, Hkey.
      * rewrite decide_False in Ain by (unfold kept; rewrite Hnw, Hkey; congruence). destruct Ain as (i & ? & ?). by exists i, (NewWrapper user c).
    + rewrite Dout, Hj in Ain by (intros [? ?]%Hin; congruence). destruct Ain as (i & ? & ?). by exists i, (NewWrapper user c).
Qed.

(** ** Progress of a worker *)
Definition unanswered (p : ProxyPhase) : Prop :=
  p = ProxyPhaseNew ∨ p = ProxyPhaseWaitStart ∨ p = ProxyPhaseStartErr.

Lemma lookup_set pm i w w' ms : wrappers pm !! i = Some w → wrappers (set_wrapper i w' ms pm) !! i = Some w'.
Proof. intros Hw. simpl. apply list_lookup_insert_eq. by apply lookup_lt_Some in Hw. Qed.

Lemma worker_to_top user pm i w : pminv user pm → wrappers pm !! i = Some w → pw_closeCh w = false →
  unanswered (pw_Phase w) →
  ∃ pm1 w1, rtc (pmstep user) pm pm1 ∧ wrappers pm1 !! i = Some w1 ∧ pw_worker w1 = WTop
    ∧ same_static w w1 ∧ unanswered (pw_Phase w1).
Proof.
  intros Hinv Hw Hc Hp. pose proof (wo_worker _ _ _ (pi_ok _ _ Hinv _ _ Hw)) as Hk. unfold worker_ok in Hk.
  destruct (pw_worker w) as [|now h| |] eqn:Ek; [by exists pm, w| | |congruence].
  - subst h. set (r := check_section now 0 w). set (pm1 := set_wrapper i (pw_set_worker WSelect r.1) r.2 pm).
    assert (Hw1 : wrappers pm1 !! i = Some (pw_set_worker WSelect r.1)) by (by eapply lookup_set).
    assert (Hs : same_static w r.1 ∧ unanswered (pw_Phase r.1)).
    { subst r. unfold check_section. rewrite decide_True by done. case_match; simpl; [|done].
      split; [done|]. unfold unanswered. tauto. }
    exists (set_wrapper i (pw_set_worker WTop (pw_set_worker WSelect r.1)) [] pm1),
      (pw_set_worker WTop (pw_set_worker WSelect r.1)).
    split_and!; [|by eapply lookup_set|done|apply Hs|apply Hs].
    eapply rtc_l; [apply (pm_check _ i w r.1 now 0 r.2 pm Hw Ek); apply surjective_pairing|]. eapply rtc_l; [by eapply pm_tick|]. done.
  - exists (set_wrapper i (pw_set_worker WTop w) [] pm), (pw_set_worker WTop w).
    split_and!; [|by eapply lookup_set|done..]. by eapply rtc_l; [eapply pm_tick|].
Qed.

(** No proxy is forgotten.  From every reachable state, a proxy of the map that was
    not accepted yet - new, waiting for an answer that may be lost, or refused - is asked
    for again once its worker runs on and time passes: its worker has not ended, and the
    message it sends is the one of its configuration. *)
Theorem waiting_proxy_asks_again (user : string) (pm : Manager) (name : string) (i : nat) (w : Wrapper) :
  rtc (pmstep user) NewManager pm → proxies pm !! name = Some i → wrappers pm !! i = Some w →
  unanswered (pw_Phase w) →
  ∃ pm', rtc (pmstep user) pm pm' ∧ last (pm_sent pm') = Some (i, start_msg w)
    ∧ ∃ w', wrappers pm' !! i = Some w' ∧ pw_Phase w' = ProxyPhaseWaitStart ∧ pw_Cfg w' = pw_Cfg w.
Proof.
  intros Hinv%pm_reachable Hi Hw Hp. destruct (pi_map _ _ Hinv _ _ Hi) as (w0 & Hw0 & Hc & _).
  assert (w0 = w) as -> by congruence.
  destruct (worker_to_top _ _ _ _ Hinv Hw Hc Hp) as (pm1 & w1 & H1 & Hw1 & Hk & Hst & Hp1).
  pose proof Hst as (_ & Hcfg & _ & Hh & _). rewrite (wo_health _ _ _ (pi_ok _ _ Hinv _ _ Hw)) in Hh.
  set (t := clock pm1 `max` (pw_lastSendStartMsg w1 `max` pw_lastStartErr w1 + startErrTimeout + 1)).
  set (pm2 := mkManager (proxies pm1) (wrappers pm1) (pm_sent pm1) (starting pm1) t).
  set (w2 := pw_set_worker (WChecked t (pw_health w1)) w1).
  set (pm3 := set_wrapper i w2 [] pm2).
  assert (Hm : must_start t w2 = true).
  { unfold must_start, waitResponseTimeout, startErrTimeout in *. simpl.
    destruct Hp1 as [-> |[-> | ->]]; [done|apply Z.ltb_lt..]; lia. }
  assert (Hcs : check_section t 0 w2 =
    (pw_set_sent t (pw_with ProxyPhaseWaitStart (pw_Err w2) w2), [start_msg w2])).
  { unfold check_section. by rewrite decide_True, Hm. }
  eexists. split; [|split].
  - etrans; [exact H1|]. eapply rtc_l; [apply (pm_time _ t); subst t; lia|].
    eapply rtc_l; [by apply (pm_read user i w1 pm2)|].
    eapply rtc_l; [|apply rtc_refl]. eapply (pm_check user i w2 _ t 0 _ pm3); [by eapply lookup_set| |exact Hcs].
    simpl. by rewrite Hh.
  - simpl. rewrite last_snoc. by rewrite <-(proj1 (start_msg_static w w2 Hst)).
  - eexists. split; [by eapply lookup_set, lookup_set|]. split; [done|exact Hcfg].
Qed.

(** ** A run *)
Definition demo_proxy (name sk : string) : ProxyConfigurer :=
  PC_XTCP (mkXTCPProxyConfig (mkProxyBaseConfig name "xtcp" None ∅ (mkProxyTransport false false) ∅
    (mkProxyBackend "127.0.0.1" 22)) sk [] None).
Definition demo_pm1 : Manager := default NewManager (UpdateAll "u" [] [demo_proxy "a" "k"] NewManager).
Definition demo_w0 : Wrapper := NewWrapper "u" (demo_proxy "a" "k").
Definition demo_w1 : Wrapper := pw_set_worker (WChecked 1 0) demo_w0.
Definition demo_pm2 : Manager := set_wrapper 0 demo_w1 [] demo_pm1.
Definition demo_check : Wrapper * list Message := check_section 1 0 demo_w1.
Definition demo_pm3 : Manager := set_wrapper 0 (pw_set_worker WSelect demo_check.1) demo_check.2 demo_pm2.

Lemma demo_reach : rtc (pmstep "u") NewManager demo_pm3.
Proof.
  eapply rtc_l; [apply (pm_update "u" [] [demo_proxy "a" "k"] NewManager demo_pm1); reflexivity|].
  eapply rtc_l; [apply (pm_read "u" 0 demo_w0 demo_pm1); reflexivity|].
  eapply rtc_l; [apply (pm_check "u" 0 demo_w1 demo_check.1 1 0 demo_check.2 demo_pm2); reflexivity|].
  apply rtc_refl.
Qed.

Lemma client_messages_match_witness :
  last (of_name "u" "a" (pm_sent demo_pm3)) = Some (start_msg demo_w0)
  ∧ msg_name (start_msg demo_w0) = Some "u.a".
Proof. split; [exact (proj2 (proj2 (client_messages_match "u" "a" demo_pm3 demo_reach)))|reflexivity]. Defined.

Lemma wrapper_life_witness :
  proxies demo_pm3 !! "a" = Some 0%nat ∧ of_wrapper 0 (pm_sent demo_pm3) = [start_msg demo_w0].
Proof.
  destruct (wrapper_life "u" demo_pm3 0 (pw_set_worker WSelect demo_check.1) demo_reach eq_refl) as (_ & Hmap & _).
  split; [apply (proj1 Hmap); reflexivity|reflexivity].
Defined.

Lemma update_all_exact_witness : ∃ pm', UpdateAll "u" ["a"] [demo_proxy "a" "k2"; demo_proxy "b" "k"] demo_pm3 = Some pm'
  ∧ proxies pm' !! "a" = Some 1%nat ∧ proxies pm' !! "b" = Some 2%nat
  ∧ (pm_sent pm').*2 = [start_msg demo_w0; close_msg demo_w0].
Proof.
  destruct (update_all_exact "u" demo_pm3 ["a"] [demo_proxy "a" "k2"; demo_proxy "b" "k"] demo_reach) as (pm' & Hu & _ & _).
  - reflexivity.
  - apply (bool_decide_unpack _). vm_compute. done.
  - exists pm'. split; [exact Hu|]. vm_compute in Hu. injection Hu as <-. vm_compute. done.
Defined.

Lemma waiting_proxy_asks_again_witness :
  ∃ pm', rtc (pmstep "u") demo_pm3 pm' ∧ last (pm_sent pm') = Some (0%nat, start_msg demo_w0).
Proof.
  destruct (waiting_proxy_asks_again "u" demo_pm3 "a" 0 (pw_set_worker WSelect demo_check.1) demo_reach)
    as (pm' & Hr & Hl & _); [reflexivity|reflexivity|right; left; reflexivity|].
  exists pm'. split; [exact Hr|exact Hl].
Defined.
