(* ===== verification/Transporter.v ===== *)
(** * Request and response over the control connection: [pkg/transport/message.go]

    [Do] registers a channel of capacity one under a message type and a lane key, sends
    the request and waits; [DispatchWithType] looks the channel up and sends on it.  The
    channels live in a store, one per call of [Do], so a call is named by its channel.
    The two-level map is one map over pairs.  A critical section, a channel operation
    and the return of [Send] are one step each. *)
From S2P Require Import Prelude GoStd Msg.
From stdpp Require Import gmap list.
Local Open Scope Z_scope.

(** Where a call of [Do] is. *)
Inductive do_phase : Type :=
| DSend (req : Message)                    (* registered, about to send *)
| DWait                                    (* in the [select] *)
| DUnregister (res : result Message)       (* about to run the deferred [unregisterFn] *)
| DClose (res : result Message)            (* about to close the channel *)
| DReturned (res : result Message).

Record call := mkCall {
  c_lane : string;
  c_type : string;
  c_buf : option Message;      (* the channel's buffer *)
  c_closed : bool;
  c_phase : do_phase;
}.
Definition lane := (string * string)%type.
Definition key (c : call) : lane := (c_type c, c_lane c).

Record transporter := mkTransporter {
  calls : list call;
  registry : gmap lane nat;
  dispatching : list (nat * Message);          (* dispatchers that found their channel *)
  requests : list Message;                     (* passed to the sender *)
  dispatched : list (lane * Message);          (* every message given to a dispatch *)
  answered : list (Message * bool);            (* what the dispatches returned *)
}.
Definition NewMessageTransporter : transporter := mkTransporter [] ∅ [] [] [] [].

Definition c_set (phase : do_phase) (c : call) : call := mkCall (c_lane c) (c_type c) (c_buf c) (c_closed c) phase.
Definition c_put (b : option Message) (c : call) : call := mkCall (c_lane c) (c_type c) b (c_closed c) (c_phase c).
Definition c_close (c : call) : call := mkCall (c_lane c) (c_type c) (c_buf c) true (c_phase c).

Definition set_call (i : nat) (c : call) (t : transporter) : transporter :=
  mkTransporter (<[i := c]> (calls t)) (registry t) (dispatching t) (requests t) (dispatched t) (answered t).

(** [registerMsgChan] with a fresh channel, and the function it returns. *)
Definition registerMsgChan (laneKey msgType : string) (req : Message) (t : transporter) : transporter :=
  mkTransporter (calls t ++ [mkCall laneKey msgType None false (DSend req)])
    (<[(msgType, laneKey) := length (calls t)]> (registry t))
    (dispatching t) (requests t) (dispatched t) (answered t).
Definition unregister (k : lane) (t : transporter) : transporter :=
  mkTransporter (calls t) (delete k (registry t)) (dispatching t) (requests t) (dispatched t) (answered t).

(** [impl.Send(req)] returned [r]. *)
Definition Do_send (i : nat) (c : call) (req : Message) (r : result unit) (t : transporter) : transporter :=
  let t := mkTransporter (calls t) (registry t) (dispatching t)
             (match r with Ok _ => requests t ++ [req] | Err _ => requests t end) (dispatched t) (answered t) in
  set_call i (c_set (match r with Ok _ => DWait | Err e => DUnregister (Err e) end) c) t.

(** [DispatchWithType]: the look-up under the read lock. *)
Definition Dispatch_lookup (m : Message) (msgType laneKey : string) (t : transporter) : transporter :=
  match registry t !! (msgType, laneKey) with
  | None => mkTransporter (calls t) (registry t) (dispatching t) (requests t)
              (dispatched t ++ [((msgType, laneKey), m)]) (answered t ++ [(m, false)])
  | Some i => mkTransporter (calls t) (registry t) (dispatching t ++ [(i, m)]) (requests t)
                (dispatched t ++ [((msgType, laneKey), m)]) (answered t)
  end.
(** [ch <- m]: a panic on a closed channel is the answer false, a full one blocks. *)
Definition Dispatch_send (i : nat) (m : Message) (c : call) : option (call * bool) :=
  if c_closed c then Some (c, false)
  else match c_buf c with None => Some (c_put (Some m) c, true) | Some _ => None end.

Inductive tstep : transporter → transporter → Prop :=
| t_do laneKey msgType req t : tstep t (registerMsgChan laneKey msgType req t)
| t_send i c req r t : calls t !! i = Some c → c_phase c = DSend req → tstep t (Do_send i c req r t)
| t_cancel i c e t : calls t !! i = Some c → c_phase c = DWait → tstep t (set_call i (c_set (DUnregister (Err e)) c) t)
| t_recv i c m t : calls t !! i = Some c → c_phase c = DWait → c_buf c = Some m →
    tstep t (set_call i (c_set (DUnregister (Ok m)) (c_put None c)) t)
| t_unregister i c res t : calls t !! i = Some c → c_phase c = DUnregister res →
    tstep t (unregister (key c) (set_call i (c_set (DClose res) c) t))
| t_close i c res t : calls t !! i = Some c → c_phase c = DClose res →
    tstep t (set_call i (c_set (DReturned res) (c_close c)) t)
| t_lookup m msgType laneKey t : tstep t (Dispatch_lookup m msgType laneKey t)
| t_dispatch l1 i m l2 c c' ok t : dispatching t = l1 ++ (i, m) :: l2 → calls t !! i = Some c →
    Dispatch_send i m c = Some (c', ok) →
    tstep t (mkTransporter (<[i := c']> (calls t)) (registry t) (l1 ++ l2) (requests t) (dispatched t)
               (answered t ++ [(m, ok)])).

(** ** Invariant *)
Definition phase_result (p : do_phase) : option (result Message) :=
  match p with DUnregister r | DClose r | DReturned r => Some r | _ => None end.
Definition is_returned (p : do_phase) : bool := match p with DReturned _ => true | _ => false end.

Record tinv (t : transporter) : Prop := mkTinv {
  ti_buf : ∀ i c m, calls t !! i = Some c → c_buf c = Some m → (key c, m) ∈ dispatched t;
  ti_res : ∀ i c m, calls t !! i = Some c → phase_result (c_phase c) = Some (Ok m) → (key c, m) ∈ dispatched t;
  ti_disp : ∀ i m, (i, m) ∈ dispatching t → ∃ c, calls t !! i = Some c ∧ (key c, m) ∈ dispatched t;
  ti_closed : ∀ i c, calls t !! i = Some c → c_closed c = is_returned (c_phase c);
  ti_reg : ∀ k i, registry t !! k = Some i → ∃ c, calls t !! i = Some c ∧ key c = k;
}.

(** A step of one call: its lane stays, and so does what it knows. *)
Lemma tinv_set t i c c' : tinv t → calls t !! i = Some c → key c' = key c →
  (∀ m, c_buf c' = Some m → (key c, m) ∈ dispatched t) →
  (∀ m, phase_result (c_phase c') = Some (Ok m) → (key c, m) ∈ dispatched t) →
  c_closed c' = is_returned (c_phase c') → tinv (set_call i c' t).
Proof.
  intros [H1 H2 H3 H4 H5] Hc Hk Hb Hr Hcl. assert (Hi : (i < length (calls t))%nat) by (by apply lookup_lt_Some in Hc).
  split; simpl.
  - intros j d m. rewrite list_lookup_insert_Some. intros [(<- & <- & _)|(? & Hd)]; [rewrite Hk; auto|eauto].
  - intros j d m. rewrite list_lookup_insert_Some. intros [(<- & <- & _)|(? & Hd)]; [rewrite Hk; auto|eauto].
  - intros j m (d & Hd & Hin)%H3. destruct (decide (i = j)) as [<-|].
    + exists c'. rewrite list_lookup_insert_eq, Hk by done. by replace c with d by congruence.
    + exists d. by rewrite list_lookup_insert_ne.
  - intros j d. rewrite list_lookup_insert_Some. intros [(<- & <- & _)|(? & Hd)]; eauto.
  - intros k j (d & Hd & <-)%H5. destruct (decide (i = j)) as [<-|].
    + exists c'. rewrite list_lookup_insert_eq, Hk by done. by replace c with d by congruence.
    + exists d. by rewrite list_lookup_insert_ne.
Qed.

(** Steps that leave the calls alone. *)
Lemma tinv_ext t t' : calls t' = calls t → (∀ x, x ∈ dispatched t → x ∈ dispatched t') →
  (∀ i m, (i, m) ∈ dispatching t' → (i, m) ∈ dispatching t) →
  (∀ k i, registry t' !! k = Some i → registry t !! k = Some i) → tinv t → tinv t'.
Proof.
  intros E1 E2 E3 E4 [H1 H2 H3 H4 H5]. split; rewrite ?E1; eauto.
  intros i m (c & ? & ?)%E3%H3. eauto.
Qed.

Lemma tinv_register t l ty req : tinv t → tinv (registerMsgChan l ty req t).
Proof.
  intros [H1 H2 H3 H4 H5]. split; simpl.
  - intros i c m. rewrite lookup_snoc_Some. intros [[_ ?]|[_ <-]]; [eauto|done].
  - intros i c m. rewrite lookup_snoc_Some. intros [[_ ?]|[_ <-]]; [eauto|done].
  - intros i m (c & Hc & ?)%H3. exists c. split; [by apply lookup_app_l_Some|done].
  - intros i c. rewrite lookup_snoc_Some. intros [[_ ?]|[_ <-]]; [eauto|done].
  - intros k i. rewrite lookup_insert_Some. intros [[<- <-]|[_ Hi]].
    + exists (mkCall l ty None false (DSend req)). by rewrite lookup_app_r, Nat.sub_diag by done.
    + apply H5 in Hi as (c & Hc & <-). exists c. split; [by apply lookup_app_l_Some|done].
Qed.

Lemma tstep_inv t t' : tstep t t' → tinv t → tinv t'.
Proof.
  intros Hs Hinv. pose proof Hinv as [H1 H2 H3 H4 H5]. destruct Hs as
    [l ty req t|i c req r t Hc Hp|i c e t Hc Hp|i c m t Hc Hp Hb|i c res t Hc Hp|i c res t Hc Hp|m ty l t|l1 i m l2 c c' ok t Hd Hc Hs].
  - by apply tinv_register.
  - assert (Hcl := H4 _ _ Hc). rewrite Hp in Hcl.
    apply (tinv_set _ i c); [|done|done|eauto| |by destruct r].
    + by eapply (tinv_ext t).
    + destruct r; simpl; congruence.
  - assert (Hcl := H4 _ _ Hc). rewrite Hp in Hcl. by apply (tinv_set _ i c); eauto.
  - assert (Hcl := H4 _ _ Hc). rewrite Hp in Hcl. apply (tinv_set _ i c); [done..| |done]. simpl. intros m' [= <-]. eauto.
  - assert (Hcl := H4 _ _ Hc). rewrite Hp in Hcl.
    apply (tinv_ext (set_call i (c_set (DClose res) c) t)); [done..| |].
    { intros k j. simpl. by intros [_ ?]%lookup_delete_Some. }
    apply (tinv_set _ i c); [done..|eauto| |done]. simpl. intros m [= ->]. eapply H2; [done|]. by rewrite Hp.
  - apply (tinv_set _ i c); [done..|eauto| |done]. simpl. intros m [= ->]. eapply H2; [done|]. by rewrite Hp.
  - unfold Dispatch_lookup. destruct (registry t !! (ty, l)) as [i|] eqn:Hr.
    + destruct (H5 _ _ Hr) as (c & Hc & Hk). split; simpl; [| | |done|done].
      * intros j d m' ? ?. apply elem_of_app. left. eauto.
      * intros j d m' ? ?. apply elem_of_app. left. eauto.
      * intros j m' [Hin|[= -> ->]%list_elem_of_singleton]%elem_of_app.
        -- apply H3 in Hin as (d & ? & ?). exists d. split; [done|]. apply elem_of_app. by left.
        -- exists c. rewrite Hk. split; [done|]. apply elem_of_app. right. by left.
    + apply (tinv_ext t); [done| |done..]. intros x ?. simpl. apply elem_of_app. by left.
  - assert (Hm : (key c, m) ∈ dispatched t).
    { destruct (H3 i m) as (d & Hd' & Hin); [rewrite Hd; apply elem_of_app; right; by left|]. by replace c with d by congruence. }
    apply (tinv_ext (set_call i c' t)); [done|done| |done|].
    { simpl. intros j m'. rewrite Hd, !elem_of_app, elem_of_cons. tauto. }
    unfold Dispatch_send in Hs. destruct (c_closed c) eqn:Hcl; [|destruct (c_buf c) eqn:Hb; [done|]]; injection Hs as <- <-.
    + apply (tinv_set _ i c); eauto.
    + apply (tinv_set _ i c); simpl; [done|done|done|by intros ? [= <-]|eauto|by rewrite <-(H4 _ _ Hc)].
Qed.

Lemma t_reachable t : rtc tstep NewMessageTransporter t → tinv t.
Proof.
  assert (H0 : tinv NewMessageTransporter) by (by split; simpl; try done; intros ? ? ?%not_elem_of_nil).
  revert H0. generalize NewMessageTransporter. intros t0 H0 H. induction H; eauto using tstep_inv.
Qed.

(** ** With distinct lanes the registry lists exactly the calls that have not ended *)
Definition registered (p : do_phase) : bool :=
  match p with DSend _ | DWait | DUnregister _ => true | _ => false end.
Definition lanes_distinct (t : transporter) : Prop := NoDup (key <$> calls t).
Definition reg_exact (t : transporter) : Prop :=
  ∀ i c, calls t !! i = Some c → registered (c_phase c) = true → registry t !! key c = Some i.

Lemma key_inj t i j c d : lanes_distinct t → calls t !! i = Some c → calls t !! j = Some d → key c = key d → i = j.
Proof.
  intros Hnd Hc Hd Hk. eapply (NoDup_lookup _ _ _ (key c) Hnd).
  - by rewrite list_lookup_fmap, Hc.
  - by rewrite list_lookup_fmap, Hd, Hk.
Qed.

Lemma keys_set (l : list call) i c c' : l !! i = Some c → key c' = key c → key <$> <[i := c']> l = key <$> l.
Proof.
  intros Hc Hk. rewrite list_fmap_insert. apply list_insert_id. by rewrite list_lookup_fmap, Hc, Hk.
Qed.

Lemma Dispatch_send_key i m c c' ok : Dispatch_send i m c = Some (c', ok) → key c' = key c ∧ c_phase c' = c_phase c.
Proof. unfold Dispatch_send. destruct (c_closed c); [|destruct (c_buf c)]; by intros [= <- <-]. Qed.

Lemma keys_grow t t' : tstep t t' → ∃ l, key <$> calls t' = (key <$> calls t) ++ l.
Proof.
  intros Hs. destruct Hs; simpl; try (exists []; rewrite app_nil_r; by eapply keys_set).
  - eexists. by rewrite fmap_app.
  - exists []. rewrite app_nil_r. unfold Dispatch_lookup. by case_match.
  - exists []. rewrite app_nil_r. eapply keys_set; [done|]. by edestruct Dispatch_send_key.
Qed.

(** A step that changes one call's phase to one no less registered. *)
Lemma reg_exact_set t i c c' : reg_exact t → calls t !! i = Some c → key c' = key c →
  (registered (c_phase c') = true → registered (c_phase c) = true) → reg_exact (set_call i c' t).
Proof.
  intros Hr Hc Hk Hreg j d. simpl. rewrite list_lookup_insert_Some.
  intros [(<- & <- & _)|(? & Hd)] Hp; [|by apply Hr]. rewrite Hk. apply Hr; auto.
Qed.

Lemma reg_exact_step t t' : tstep t t' → lanes_distinct t' → reg_exact t → reg_exact t'.
Proof.
  intros Hs Hnd Hr. destruct Hs as
    [l ty req t|i c req r t Hc Hp|i c e t Hc Hp|i c m t Hc Hp Hb|i c res t Hc Hp|i c res t Hc Hp|m ty l t|l1 i m l2 c c' ok t Hd Hc Hs].
  - intros i c. simpl. rewrite lookup_snoc_Some. intros [[Hlt Hc]|[-> <-]] Hp; [|by rewrite lookup_insert_eq].
    rewrite lookup_insert_ne; [by apply Hr|]. intros Hk.
    assert (i = length (calls t)); [|apply lookup_lt_Some in Hc; lia].
    apply (key_inj _ _ _ c (mkCall l ty None false (DSend req)) Hnd); simpl; [by apply lookup_app_l_Some| |done].
    by rewrite lookup_app_r, Nat.sub_diag by done.
  - apply (reg_exact_set _ i c); [by destruct r|done|done|]. by rewrite Hp.
  - apply (reg_exact_set _ i c); [done..|]. by rewrite Hp.
  - apply (reg_exact_set _ i c); [done..|]. by rewrite Hp.
  - assert (Hnd0 : lanes_distinct t).
    { unfold lanes_distinct in *. simpl in Hnd. by erewrite keys_set in Hnd. }
    intros j d. simpl. rewrite list_lookup_insert_Some. intros [(<- & <- & _)|(Hne & Hd)]; [done|].
    intros Hreg. rewrite lookup_delete_ne; [by apply Hr|]. intros Hk. apply Hne. by apply (key_inj t i j c d).
  - by apply (reg_exact_set _ i c).
  - unfold Dispatch_lookup. by destruct (registry t !! (ty, l)).
  - assert (reg_exact (set_call i c' t)) as H0; [|exact H0].
    apply Dispatch_send_key in Hs as [Hk Hp]. apply (reg_exact_set _ i c); [done..|]. by rewrite Hp.
Qed.

Lemma lanes_distinct_back t t' : rtc tstep t t' → lanes_distinct t' → lanes_distinct t.
Proof.
  intros H. induction H as [|x y z [l Hl]%keys_grow _ IH]; [done|]. intros Hz%IH.
  unfold lanes_distinct in *. rewrite Hl in Hz. by apply NoDup_app in Hz as [? _].
Qed.

Lemma reg_exact_reachable t : rtc tstep NewMessageTransporter t → lanes_distinct t → reg_exact t.
Proof.
  assert (H0 : reg_exact NewMessageTransporter) by done.
  revert H0. generalize NewMessageTransporter. intros t0 H0 H. induction H as [|x y z Hxy Hyz IH]; [done|].
  intros Hz. apply IH; [|done]. eapply reg_exact_step; [done| |done]. by eapply lanes_distinct_back.
Qed.

(** ** Properties *)

(** C25. A caller gets its own answer.  What a call of [Do] returns was dispatched under
    the call's message type and lane key; and while transaction ids are distinct, a message
    dispatched to the lane of a waiting call whose channel is empty is delivered - the
    dispatch reports success and the call can return exactly that message. *)
Theorem do_gets_its_answer (t : transporter) (i : nat) (c : call) (m : Message) :
  rtc tstep NewMessageTransporter t → calls t !! i = Some c →
  (c_phase c = DReturned (Ok m) → ((c_type c, c_lane c), m) ∈ dispatched t)
  ∧ (lanes_distinct t → c_phase c = DWait → c_buf c = None →
     ∃ t1 t2, tstep t t1 ∧ t1 = Dispatch_lookup m (c_type c) (c_lane c) t ∧ rtc tstep t1 t2
       ∧ answered t2 = answered t ++ [(m, true)]
       ∧ ∃ c', calls t2 !! i = Some c' ∧ key c' = key c ∧ c_phase c' = DReturned (Ok m)).
Proof.
  intros Hr Hc. pose proof (t_reachable _ Hr) as [H1 H2 H3 H4 H5]. split.
  { intros Hp. apply (H2 i c); [done|]. by rewrite Hp. }
  intros Hnd Hp Hb. assert (Hreg : registry t !! (c_type c, c_lane c) = Some i).
  { apply (reg_exact_reachable t Hr Hnd i c Hc). by rewrite Hp. }
  assert (Hcl : c_closed c = false) by (by rewrite (H4 _ _ Hc), Hp).
  assert (Hi : (i < length (calls t))%nat) by (by apply lookup_lt_Some in Hc).
  set (t1 := mkTransporter (calls t) (registry t) (dispatching t ++ [(i, m)]) (requests t)
    (dispatched t ++ [((c_type c, c_lane c), m)]) (answered t)).
  assert (Hl : Dispatch_lookup m (c_type c) (c_lane c) t = t1) by (unfold Dispatch_lookup; by rewrite Hreg).
  exists t1. eexists. split; [rewrite <-Hl; constructor|]. split; [done|]. split_and!.
  - eapply rtc_l.
    { apply (t_dispatch (dispatching t) i m [] c (c_put (Some m) c) true t1); [done..|].
      unfold Dispatch_send. by rewrite Hcl, Hb. }
    eapply rtc_l; [apply (t_recv i (c_put (Some m) c) m); [by simpl; apply list_lookup_insert_eq|done|done]|].
    eapply rtc_l; [eapply t_unregister; [simpl; apply list_lookup_insert_eq; by rewrite length_insert|done]|].
    eapply rtc_l; [eapply t_close; [simpl; apply list_lookup_insert_eq; by rewrite !length_insert|done]|].
    apply rtc_refl.
  - done.
  - eexists. split; [simpl; apply list_lookup_insert_eq; by rewrite !length_insert|done].
Qed.

(** The read loop cannot be held up for ever.  Dispatching is synchronous in the loop
    that reads the control connection, and a dispatch blocks while its channel is full;
    from every reachable state the call that owns the channel can go on so that the
    dispatch returns, delivered or refused by the closed channel. *)
Theorem dispatch_never_stuck (t : transporter) (l1 l2 : list (nat * Message)) (i : nat) (m : Message) :
  rtc tstep NewMessageTransporter t → dispatching t = l1 ++ (i, m) :: l2 →
  ∃ t' ok, rtc tstep t t' ∧ dispatching t' = l1 ++ l2 ∧ answered t' = answered t ++ [(m, ok)].
Proof.
  intros Hr Hd. pose proof (t_reachable _ Hr) as [H1 H2 H3 H4 H5].
  destruct (H3 i m) as (c & Hc & _); [rewrite Hd; apply elem_of_app; right; by left|].
  assert (Hlook : ∀ t c', calls t !! i = Some c → calls (set_call i c' t) !! i = Some c').
  { intros t0 c' Hc0. simpl. apply list_lookup_insert_eq. by apply lookup_lt_Some in Hc0. }
  assert (Hnow : ∀ t0 c0 c1 ok, rtc tstep t t0 → calls t0 !! i = Some c0 → Dispatch_send i m c0 = Some (c1, ok) →
    dispatching t0 = dispatching t → answered t0 = answered t →
    ∃ t' ok, rtc tstep t t' ∧ dispatching t' = l1 ++ l2 ∧ answered t' = answered t ++ [(m, ok)]).
  { intros t0 c0 c1 ok H0 Hc0 Hs Hd0 Ha0. eexists _, ok. split.
    - eapply rtc_r; [exact H0|]. eapply t_dispatch; [by rewrite Hd0|done..].
    - simpl. by rewrite Ha0. }
  assert (Hcl := H4 _ _ Hc).
  assert (Hun : ∀ t0 c0 res, rtc tstep t t0 → calls t0 !! i = Some c0 → c_phase c0 = DClose res →
    dispatching t0 = dispatching t → answered t0 = answered t →
    ∃ t' ok, rtc tstep t t' ∧ dispatching t' = l1 ++ l2 ∧ answered t' = answered t ++ [(m, ok)]).
  { intros t0 c0 res H0 Hc0 Hp0 Hd0 Ha0.
    apply (Hnow (set_call i (c_set (DReturned res) (c_close c0)) t0) (c_set (DReturned res) (c_close c0))
      (c_set (DReturned res) (c_close c0)) false); [|by simpl; apply list_lookup_insert_eq; apply lookup_lt_Some in Hc0|done..].
    eapply rtc_r; [exact H0|]. by eapply t_close. }
  assert (Hbuf : c_buf c = None ∨ ∃ b, c_buf c = Some b) by (destruct (c_buf c); eauto).
  destruct (c_phase c) as [req| |res|res|res] eqn:Hp.
  - destruct Hbuf as [Hb|[b Hb]].
    { apply (Hnow t c (c_put (Some m) c) true); try done. unfold Dispatch_send. by rewrite Hcl, Hb. }
    pose (t1 := Do_send i c req (Ok tt) t).
    assert (Hc1 : calls t1 !! i = Some (c_set DWait c)) by (simpl; apply list_lookup_insert_eq; by apply lookup_lt_Some in Hc).
    eapply (Hnow (set_call i (c_set (DUnregister (Ok b)) (c_put None (c_set DWait c))) t1)); try done.
    + eapply rtc_l; [by eapply t_send|]. eapply rtc_once. by eapply t_recv.
    + simpl. apply list_lookup_insert_eq. rewrite length_insert. by apply lookup_lt_Some in Hc.
    + unfold Dispatch_send. simpl. by rewrite Hcl.
  - destruct Hbuf as [Hb|[b Hb]].
    { apply (Hnow t c (c_put (Some m) c) true); try done. unfold Dispatch_send. by rewrite Hcl, Hb. }
    eapply (Hnow (set_call i (c_set (DUnregister (Ok b)) (c_put None c)) t)); try done.
    + eapply rtc_once. by eapply t_recv.
    + by apply Hlook.
    + unfold Dispatch_send. simpl. by rewrite Hcl.
  - eapply (Hun (unregister (key c) (set_call i (c_set (DClose res) c) t)) _ res); try done.
    + eapply rtc_once. by eapply t_unregister.
    + by apply Hlook.
    + done.
  - by apply (Hun t c res).
  - apply (Hnow t c c false); try done. unfold Dispatch_send. by rewrite Hcl.
Qed.

(** ** Runs *)
Definition demo_t1 : transporter := registerMsgChan "tx1" "NatHoleResp" MReqWorkConn NewMessageTransporter.
Definition demo_call : call := mkCall "tx1" "NatHoleResp" None false (DSend MReqWorkConn).
Definition demo_t2 : transporter := Do_send 0 demo_call MReqWorkConn (Ok tt) demo_t1.
Definition demo_t3 : transporter := Dispatch_lookup MReqWorkConn "NatHoleResp" "tx1" demo_t2.

Lemma demo_t2_reach : rtc tstep NewMessageTransporter demo_t2.
Proof.
  eapply rtc_l; [apply (t_do "tx1" "NatHoleResp" MReqWorkConn)|].
  eapply rtc_l; [apply (t_send 0 demo_call MReqWorkConn (Ok tt) demo_t1); reflexivity|]. apply rtc_refl.
Qed.

Lemma do_gets_its_answer_witness : ∃ t1 t2, tstep demo_t2 t1 ∧ rtc tstep t1 t2
  ∧ answered t2 = [(MReqWorkConn, true)] ∧ ∃ c, calls t2 !! 0%nat = Some c ∧ c_phase c = DReturned (Ok MReqWorkConn).
Proof.
  destruct (do_gets_its_answer demo_t2 0 (c_set DWait demo_call) MReqWorkConn demo_t2_reach eq_refl) as [_ Hd].
  destruct Hd as (t1 & t2 & Hs & _ & Hr & Ha & c & Hc & _ & Hp); [|reflexivity|reflexivity|].
  - apply (bool_decide_unpack _). vm_compute. done.
  - exists t1, t2. split; [exact Hs|]. split; [exact Hr|]. split; [exact Ha|]. exists c. split; [exact Hc|exact Hp].
Defined.

Lemma demo_t3_reach : rtc tstep NewMessageTransporter demo_t3.
Proof. eapply rtc_r; [apply demo_t2_reach|]. apply (t_lookup MReqWorkConn "NatHoleResp" "tx1"). Qed.

Lemma dispatch_never_stuck_witness : ∃ t' ok, rtc tstep demo_t3 t' ∧ answered t' = [(MReqWorkConn, ok)].
Proof.
  destruct (dispatch_never_stuck demo_t3 [] [] 0 MReqWorkConn demo_t3_reach eq_refl) as (t' & ok & Hr & _ & Ha).
  exists t', ok. split; [exact Hr|exact Ha].
Defined.

(** The function [registerMsgChan] returns deletes the lane whatever channel is
    registered there: when two calls share a lane, the end of the first one takes the
    registration of the second, which then waits for an answer nobody can deliver. *)
Lemma shared_lane_loses_answer : ∃ t c, rtc tstep NewMessageTransporter t ∧ calls t !! 1%nat = Some c
  ∧ c_phase c = DWait ∧ registry t !! key c = None.
Proof.
  set (ta := registerMsgChan "tx1" "NatHoleResp" MReqWorkConn demo_t2).
  set (tb := Do_send 1 demo_call MReqWorkConn (Ok tt) ta).
  set (tc := set_call 0 (c_set (DUnregister (Err "deadline")) (c_set DWait demo_call)) tb).
  eexists (unregister (key demo_call) (set_call 0 (c_set (DClose (Err "deadline")) demo_call) tc)), (c_set DWait demo_call).
  split; [|split_and!; [reflexivity|reflexivity|vm_compute; reflexivity]].
  etrans; [apply demo_t2_reach|]. eapply rtc_l; [apply (t_do "tx1" "NatHoleResp" MReqWorkConn)|].
  eapply rtc_l; [apply (t_send 1 demo_call MReqWorkConn (Ok tt) ta); reflexivity|].
  eapply rtc_l; [apply (t_cancel 0 (c_set DWait demo_call) "deadline" tb); reflexivity|].
  eapply rtc_l; [apply (t_unregister 0 (c_set (DUnregister (Err "deadline")) demo_call) (Err "deadline") tc); reflexivity|].
  apply rtc_refl.
Qed.
