(* ===== verification/MakeHole.v ===== *)
(** * Making the hole: [pkg/nathole/nathole.go]

    [MakeHole] of one side is modelled by the sequence of datagrams it sends
    ([probes], the random ports with the random numbers as an argument), by
    [waitDetectMessage] on the datagrams a socket reads, and by a step relation for the
    two sides together: a sender with one socket and a receiver with any number of them,
    over a network that loses, repeats and reorders datagrams, carries those of strangers too,
    and shows each with an address that leads back to where it came from.  The TTLs are in
    [SidSend], sleeps are not modelled; a deadline is a step that can happen at any time, and
    [wait_time] says when a wait ends.
    Encryption and the v1 message codec are third-party code: a class. *)
From S2P Require Import Prelude GoStd Msg NatClassify Analyzer NatController.
From stdpp Require Import gmap list.
Local Open Scope Z_scope.

(** [EncodeMessage] and [DecodeMessageInto] of [utils.go]. *)
Class SidCodec := {
  EncodeMessage : NatHoleSid → list byte → result (list byte);
  DecodeMessageInto : list byte → list byte → result NatHoleSid;
}.

(** ** Requests to the server *)
(** The message of [PreCheck]; the other fields are zero. *)
Definition precheck_msg (transactionID proxyName : string) : NatHoleVisitor :=
  mkNatHoleVisitor transactionID proxyName true "" "" 0 [] [].
(** What [PreCheck] and [ExchangeInfo] make of the result of [Do]. *)
Definition nat_hole_resp (m : result Message) : result NatHoleResp :=
  wrap_err "get natHoleRespMsg error: " m ≫= λ m,
  match m with
  | MNatHoleResp r => Ok r
  | _ => Err "get natHoleRespMsg error: invalid message type"
  end.
Definition PreCheck (m : result Message) : result unit :=
  nat_hole_resp m ≫= λ r, if decide (nr_Error r ≠ "") then Err (nr_Error r) else Ok tt.
Definition ExchangeInfo (m : result Message) : result NatHoleResp :=
  nat_hole_resp m ≫= λ r,
  if decide (nr_Error r ≠ "") then Err ("natHoleRespMsg get error info: " +:+ nr_Error r)
  else if decide (nr_CandidateAddrs r = []) then Err "natHoleRespMsg get empty candidate addresses"
  else Ok r.

(** ** What is sent *)
Definition is_sender (m : NatHoleResp) : bool :=
  bool_decide (db_Role (nr_DetectBehavior m) = DetectRoleSender).
Definition ports (m : NatHoleResp) : list PortsRange := db_CandidatePorts (nr_DetectBehavior m).

(** [detectAddrs] before and after [slices.Compact]. *)
Definition detectAddrs (m : NatHoleResp) : list string :=
  if is_sender m then nr_AssistedAddrs m ++ nr_CandidateAddrs m
  else match ports m with [] => nr_CandidateAddrs m | _ => [] end.
(** [m.CandidateAddrs] afterwards: for a receiver without candidate ports
    [detectAddrs] is that very slice, and [Compact] works in place. *)
Definition candidates_after (m : NatHoleResp) : list string :=
  if is_sender m then nr_CandidateAddrs m
  else match ports m with [] => compact_backing (nr_CandidateAddrs m) | _ => nr_CandidateAddrs m end.

(** [for i := From; i <= To; i++], for bounds below the largest integer. *)
Definition port_seq (r : PortsRange) : list Z := seqZ (pr_From r) (pr_To r - pr_From r + 1).
Definition range_addrs (addrs : list string) (rs : list PortsRange) : list string :=
  ip ← Compact (parseIPs addrs); r ← rs; i ← port_seq r; [JoinHostPort ip (Itoa i)].

(** The datagrams sent before waiting, as (socket, address): [n] sockets. *)
Definition probes (n : nat) (m : NatHoleResp) : list (nat * string) :=
  (a ← Compact (detectAddrs m); c ← seq 0 n; [(c, a)])
  ++ (c ← seq 0 n; a ← range_addrs (candidates_after m) (ports m); [(c, a)]).

(** [getUnusedPort] with the numbers [rand.IntN(65535-1024)] gives: the port, the used
    ports and the numbers left. *)
Fixpoint getUnusedPort (tries : nat) (used : list Z) (rnd : list Z) : Z * list Z * list Z :=
  match tries, rnd with
  | S k, r :: rnd =>
      let port := r + 1024 in
      if decide (port ∈ used) then getUnusedPort k used rnd else (port, port :: used, rnd)
  | _, _ => (0, used, rnd)
  end.
(** [sendSidMessageToRandomPorts] until it is cancelled: the port of every round, zero
    when none was found, and the addresses. *)
Fixpoint random_ports (count : nat) (used rnd : list Z) : list Z :=
  match count with
  | O => []
  | S k => let '(port, used, rnd) := getUnusedPort 10 used rnd in port :: random_ports k used rnd
  end.
Definition random_rounds (m : NatHoleResp) (rnd : list Z) : list (list string) :=
  (λ port, if decide (port = 0) then []
           else (λ ip, JoinHostPort ip (Itoa port)) <$> Compact (parseIPs (candidates_after m)))
  <$> random_ports (Z.to_nat (db_SendRandomPorts (nr_DetectBehavior m))) [] rnd.
Definition random_probes (m : NatHoleResp) (rnd : list Z) : list string := concat (random_rounds m rnd).

(** ** Waiting *)
Section wait.
Context `{SidCodec}.

(** The message of [sendSidMessage]; [zeros] is the random number below 20. *)
Definition sid_msg (transactionID sid : string) (zeros : nat) : NatHoleSid :=
  mkNatHoleSid transactionID sid false (string_of (replicate zeros (byte_of_Z 48))).

(** One datagram in [waitDetectMessage]: go on reading, or return with a reply sent. *)
Inductive verdict : Type := Skip | Accept (reply : option (list byte)).
Definition detect (sid : string) (key : list byte) (sender : bool) (data : list byte) : verdict :=
  match DecodeMessageInto (take 1024 data) key with
  | Err _ => Skip
  | Ok m =>
      if decide (ns_Sid m ≠ sid) then Skip
      else if ns_Response m then Accept None
      else if sender then Skip
      else match EncodeMessage (mkNatHoleSid (ns_TransactionID m) (ns_Sid m) true (ns_Nonce m)) key with
           | Err _ => Skip
           | Ok b => Accept (Some b)
           end
  end.
(** [waitDetectMessage] on the datagrams the socket reads before the read fails with
    [e]: the result and the reply. *)
Fixpoint waitDetectMessage (sid : string) (key : list byte) (sender : bool) (e : string)
    (input : list (list byte * string)) : result string * list (list byte * string) :=
  match input with
  | [] => (Err e, [])
  | (data, raddr) :: input =>
      match detect sid key sender data with
      | Skip => waitDetectMessage sid key sender e input
      | Accept reply => (Ok raddr, from_option (λ b, [(b, raddr)]) [] reply)
      end
  end.

(** When it returns: every round reads with a deadline of its own, [timeout] after the round
    began; the datagrams come with the times they arrive at. *)
Fixpoint wait_time (sid : string) (key : list byte) (sender : bool) (timeout now : Z)
    (input : list (Z * list byte)) : Z :=
  match input with
  | [] => now + timeout
  | (arrival, data) :: input =>
      if now + timeout <? arrival then now + timeout
      else match detect sid key sender data with
           | Skip => wait_time sid key sender timeout arrival input
           | Accept _ => arrival
           end
  end.

(** ** Both sides *)
(** A socket's goroutine: reading, holding an address, done. *)
Inductive socket : Type := SRead | SGot (raddr : string) | SClosed | SReturned.
Record hole_side := mkSide {
  sockets : gmap nat socket;
  selecting : bool;                          (* [MakeHole] has reached its [select] *)
  returned : option (result (nat * string)); (* what [MakeHole] returned *)
}.
(** Where a datagram comes from: the sender's socket, a socket of the receiver, or anyone else
    on the network, other sessions of the same proxy and key included. *)
Inductive endpoint : Type := SenderEnd | ReceiverEnd (i : nat) | Stranger.
#[export] Instance endpoint_eq_dec : EqDecision endpoint.
Proof. solve_decision. Defined.
Record packet := mkPacket { pk_from : endpoint; pk_to : string; pk_data : list byte }.
Record hworld := mkHole {
  h_sid : string;
  h_key : list byte;
  sender : hole_side;
  receiver : hole_side;
  net : list packet;                         (* every datagram sent so far *)
  answered_by : list (nat * string);         (* the probes the receiver's sockets accepted *)
}.
(** The addresses of a network as they are while a hole is made: [owner] is the socket that a
    datagram to an address reaches through the NATs, if there is one; [targets] are the
    addresses an endpoint probes. *)
Record network := mkNetwork {
  owner : string → option endpoint;
  targets : endpoint → string → Prop;
}.
Definition side_start (n : nat) : hole_side := mkSide (list_to_map ((λ i, (i, SRead)) <$> seq 0 n)) false None.
Definition hole_start (sid : string) (key : list byte) (n : nat) : hworld :=
  mkHole sid key (side_start 1) (side_start n) [] [].

Definition set_socket (i : nat) (k : socket) (s : hole_side) : hole_side :=
  mkSide (<[i := k]> (sockets s)) (selecting s) (returned s).
Definition set_sender (s : hole_side) (w : hworld) : hworld :=
  mkHole (h_sid w) (h_key w) s (receiver w) (net w) (answered_by w).
Definition set_receiver (s : hole_side) (w : hworld) : hworld :=
  mkHole (h_sid w) (h_key w) (sender w) s (net w) (answered_by w).
Definition to_net (ds : list packet) (w : hworld) : hworld :=
  mkHole (h_sid w) (h_key w) (sender w) (receiver w) (net w ++ ds) (answered_by w).
Definition accepted (l : list (nat * string)) (w : hworld) : hworld :=
  mkHole (h_sid w) (h_key w) (sender w) (receiver w) (net w) (answered_by w ++ l).

(** [waitDetectMessage] ended on socket [i] of the receiver, with an address or without:
    with one socket [MakeHole] returns at once, with more a goroutine goes on. *)
Definition single (s : hole_side) : bool := bool_decide (size (sockets s) = 1%nat).
Definition got (i : nat) (raddr : string) (s : hole_side) : hole_side :=
  if single s then mkSide (<[i := SReturned]> (sockets s)) (selecting s) (Some (Ok (i, raddr)))
  else set_socket i (SGot raddr) s.
Definition failed (i : nat) (s : hole_side) : hole_side :=
  if single s then mkSide (<[i := SClosed]> (sockets s)) (selecting s) (Some (Err "wait detect message error: timeout"))
  else set_socket i SClosed s.

(** A goroutine that holds an address: [select] on the unbuffered [resultCh] succeeds
    only while [MakeHole] is in its own [select]; otherwise the socket is closed. *)
Definition hand_over (i : nat) (raddr : string) (s : hole_side) : hole_side :=
  if selecting s && bool_decide (returned s = None)
  then mkSide (<[i := SReturned]> (sockets s)) (selecting s) (Some (Ok (i, raddr)))
  else set_socket i SClosed s.

(** The texts of a message are what JSON carries unchanged. *)
Definition sid_texts_ok (m : NatHoleSid) : Prop :=
  ValidString (ns_TransactionID m) = true ∧ ValidString (ns_Sid m) = true ∧ ValidString (ns_Nonce m) = true.
(** No message of this session to a reader of 1024 bytes. *)
Definition foreign (sid : string) (key data : list byte) : Prop :=
  ∀ m, DecodeMessageInto (take 1024 data) key = Ok m → ns_Sid m ≠ sid.
(** A datagram can be read at endpoint [e] with source address [raddr]: its address leads there,
    and the source address leads back; a stranger may give any. *)
Definition arrives (nw : network) (p : packet) (e : endpoint) (raddr : string) : Prop :=
  owner nw (pk_to p) = Some e ∧ (pk_from p ≠ Stranger → owner nw raddr = Some (pk_from p)).
Definition replies (e : endpoint) (raddr : string) (reply : option (list byte)) : list packet :=
  mkPacket e raddr <$> option_list reply.

(** The transaction ids are those of [NewTransactionID], ASCII.  Nobody else makes or repeats
    datagrams of this session ([h_stranger]). *)
Inductive hstep (nw : network) : hworld → hworld → Prop :=
| h_probe e a tx zeros d w : e ≠ Stranger → targets nw e a → ValidString tx = true →
    EncodeMessage (sid_msg tx (h_sid w) zeros) (h_key w) = Ok d → hstep nw w (to_net [mkPacket e a d] w)
| h_stranger a d w : foreign (h_sid w) (h_key w) d → hstep nw w (to_net [mkPacket Stranger a d] w)
| h_sender_reads p raddr reply w : p ∈ net w → arrives nw p SenderEnd raddr → sockets (sender w) !! 0%nat = Some SRead →
    detect (h_sid w) (h_key w) true (pk_data p) = Accept reply → returned (sender w) = None →
    hstep nw w (to_net (replies SenderEnd raddr reply)
      (set_sender (mkSide (<[0%nat := SReturned]> (sockets (sender w))) (selecting (sender w)) (Some (Ok (0%nat, raddr)))) w))
| h_receiver_reads i p raddr reply w : p ∈ net w → arrives nw p (ReceiverEnd i) raddr → sockets (receiver w) !! i = Some SRead →
    detect (h_sid w) (h_key w) false (pk_data p) = Accept reply →
    hstep nw w (accepted [(i, raddr)] (to_net (replies (ReceiverEnd i) raddr reply)
      (set_receiver (got i raddr (receiver w)) w)))
| h_select w : single (receiver w) = false → hstep nw w (set_receiver (mkSide (sockets (receiver w)) true (returned (receiver w))) w)
| h_hand_over i raddr w : sockets (receiver w) !! i = Some (SGot raddr) →
    hstep nw w (set_receiver (hand_over i raddr (receiver w)) w)
| h_read_timeout i w : sockets (receiver w) !! i = Some SRead →
    hstep nw w (set_receiver (failed i (receiver w)) w)
| h_sender_timeout e w : returned (sender w) = None →
    hstep nw w (set_sender (mkSide (sockets (sender w)) (selecting (sender w)) (Some (Err e))) w)
| h_receiver_timeout w : single (receiver w) = false → selecting (receiver w) = true → returned (receiver w) = None →
    hstep nw w (set_receiver (mkSide (sockets (receiver w)) true (Some (Err "wait detect message timeout"))) w).
End wait.

(** ** Lemmas: probes *)
Lemma elem_of_range_addrs a addrs rs : a ∈ range_addrs addrs rs ↔
  ∃ ip r i, ip ∈ parseIPs addrs ∧ r ∈ rs ∧ pr_From r ≤ i ≤ pr_To r ∧ a = JoinHostPort ip (Itoa i).
Proof.
  unfold range_addrs, port_seq. rewrite list_elem_of_bind. setoid_rewrite list_elem_of_bind.
  setoid_rewrite list_elem_of_bind. setoid_rewrite list_elem_of_singleton. setoid_rewrite elem_of_seqZ.
  setoid_rewrite elem_of_Compact. split.
  - intros (ip & (r & (i & -> & Hi) & Hr) & Hip). exists ip, r, i. split_and!; [done..|lia|lia|done].
  - intros (ip & r & i & Hip & Hr & Hi & ->). exists ip. split; [|done]. exists r. split; [|done].
    exists i. split; [done|lia].
Qed.

Lemma getUnusedPort_spec tries used rnd port used' rnd' : Forall (λ r, 0 ≤ r < 64511) rnd →
  getUnusedPort tries used rnd = (port, used', rnd') →
  Forall (λ r, 0 ≤ r < 64511) rnd'
  ∧ (port = 0 ∧ used' = used ∨ 1024 ≤ port ≤ 65534 ∧ port ∉ used ∧ used' = port :: used).
Proof.
  revert used rnd. induction tries as [|k IH]; intros used rnd Hr; simpl; [intros [= <- <- <-]; auto|].
  destruct rnd as [|r rnd]; [intros [= <- <- <-]; auto|]. inversion_clear Hr as [|? ? Hr0 Hr1].
  case_decide as Hu; [by apply IH|]. intros [= <- <- <-]. split; [done|]. right. split; [lia|done].
Qed.

Lemma random_ports_spec count used rnd : Forall (λ r, 0 ≤ r < 64511) rnd →
  length (random_ports count used rnd) = count
  ∧ NoDup (filter (λ p, p ≠ 0) (random_ports count used rnd))
  ∧ ∀ p, p ∈ random_ports count used rnd → p ≠ 0 → 1024 ≤ p ≤ 65534 ∧ p ∉ used.
Proof.
  revert used rnd. induction count as [|k IH]; intros used rnd Hr; cbn [random_ports].
  { split; [done|]. split; [constructor|]. by intros ? ?%not_elem_of_nil. }
  destruct (getUnusedPort 10 used rnd) as [[port used'] rnd'] eqn:E.
  apply getUnusedPort_spec in E as [Hr' Hp]; [|done]. destruct (IH used' rnd' Hr') as (Hl & Hnd & Hin).
  split; [simpl; by rewrite Hl|]. destruct Hp as [[-> ->]|(Hb & Hu & ->)].
  - rewrite filter_cons_False by auto. split; [done|]. intros p [->|?]%elem_of_cons; [done|auto].
  - rewrite filter_cons_True by lia. split.
    + apply NoDup_cons. split; [|done]. intros [Hz Hp]%list_elem_of_filter. apply Hin in Hp as [_ Hp]; [|done].
      apply Hp. by left.
    + intros p [->|Hp]%elem_of_cons Hz; [done|]. destruct (Hin p Hp Hz) as [? Hni]. split; [done|].
      intros ?. apply Hni. by right.
Qed.

Lemma range_addrs_nil addrs : range_addrs addrs [] = [].
Proof. unfold range_addrs. by induction (Compact (parseIPs addrs)). Qed.

Lemma elem_of_probes n m c a : (c, a) ∈ probes n m ↔
  (c < n)%nat ∧ (a ∈ detectAddrs m ∨ a ∈ range_addrs (nr_CandidateAddrs m) (ports m)).
Proof.
  assert (Hcand : range_addrs (candidates_after m) (ports m) = range_addrs (nr_CandidateAddrs m) (ports m)).
  { unfold candidates_after. destruct (is_sender m); [done|]. destruct (ports m); [|done]. by rewrite !range_addrs_nil. }
  unfold probes. rewrite Hcand, elem_of_app, !list_elem_of_bind. split.
  - intros [(a' & (c' & Hc & Hs)%list_elem_of_bind & Ha)|(c' & (a' & Ha & Hr)%list_elem_of_bind & Hc)].
    + apply list_elem_of_singleton in Hc as [= -> ->]. apply elem_of_seq in Hs. rewrite elem_of_Compact in Ha.
      split; [lia|by left].
    + apply list_elem_of_singleton in Ha as [= -> ->]. apply elem_of_seq in Hc. split; [lia|by right].
  - intros [Hc [Ha|Ha]]; [left; exists a|right; exists c].
    + split; [|by rewrite elem_of_Compact]. apply list_elem_of_bind. exists c. split; [by left|]. apply elem_of_seq. lia.
    + split; [|apply elem_of_seq; lia]. apply list_elem_of_bind. exists a. split; [by left|done].
Qed.

(** ** The invariant of the two sides *)
Section agree.
Context `{SidCodec}.

(** What a datagram that was sent means to its reader, who sees 1024 bytes of it. *)
Definition faithful (key : list byte) : Prop := ∀ m d m', sid_texts_ok m →
  EncodeMessage m key = Ok d → DecodeMessageInto (take 1024 d) key = Ok m' → m' = m.
(** The receiver probes no address that leads to a socket of its own. *)
Definition no_hairpin (nw : network) : Prop := ∀ i j a, targets nw (ReceiverEnd i) a → owner nw a ≠ Some (ReceiverEnd j).

(** A datagram on the network: a stranger's, a probe, or the answer of a socket that accepted a
    probe from where it is sent to. *)
Definition packet_ok (nw : network) (w : hworld) (p : packet) : Prop :=
  if decide (pk_from p = Stranger) then foreign (h_sid w) (h_key w) (pk_data p)
  else ∃ m, sid_texts_ok m ∧ EncodeMessage m (h_key w) = Ok (pk_data p) ∧ ns_Sid m = h_sid w
    ∧ if ns_Response m then ∃ i, pk_from p = ReceiverEnd i ∧ (i, pk_to p) ∈ answered_by w
      else targets nw (pk_from p) (pk_to p).

Record hinv (nw : network) (w : hworld) : Prop := mkHinv {
  hi_net : ∀ p, p ∈ net w → packet_ok nw w p;
  hi_answered : ∀ i r, (i, r) ∈ answered_by w → owner nw r = Some SenderEnd;
  hi_sender : ∀ c a, returned (sender w) = Some (Ok (c, a)) →
    ∃ i r, owner nw a = Some (ReceiverEnd i) ∧ (i, r) ∈ answered_by w;
  hi_got : ∀ i a, sockets (receiver w) !! i = Some (SGot a) → (i, a) ∈ answered_by w;
  hi_receiver : ∀ i a, returned (receiver w) = Some (Ok (i, a)) → (i, a) ∈ answered_by w;
  hi_reading : ∀ i, single (receiver w) = true → sockets (receiver w) !! i = Some SRead → answered_by w = [];
  hi_single : single (receiver w) = true → answered_by w ≠ [] →
    ∃ i a, returned (receiver w) = Some (Ok (i, a)) ∧ ∀ j r, (j, r) ∈ answered_by w → j = i ∧ r = a;
}.

Lemma detect_Accept sid key snd d reply : detect sid key snd d = Accept reply →
  ∃ m, DecodeMessageInto (take 1024 d) key = Ok m ∧ ns_Sid m = sid ∧
    (ns_Response m = true ∧ reply = None
     ∨ ns_Response m = false ∧ snd = false ∧ ∃ b, reply = Some b
        ∧ EncodeMessage (mkNatHoleSid (ns_TransactionID m) (ns_Sid m) true (ns_Nonce m)) key = Ok b).
Proof.
  unfold detect. destruct (DecodeMessageInto _ _) as [m|]; [|done]. case_decide as Hs; [done|].
  intros Hd. exists m. split; [done|]. split; [done|].
  destruct (ns_Response m); [left; by injection Hd as <-|]. destruct snd; [done|]. right. split; [done|]. split; [done|].
  destruct (EncodeMessage _ _) as [b|]; [|done]. exists b. by injection Hd as <-.
Qed.

Lemma single_set i k s : is_Some (sockets s !! i) → ∀ sel ret, single (mkSide (<[i := k]> (sockets s)) sel ret) = single s.
Proof. intros [x Hx] sel ret. unfold single. simpl. rewrite map_size_insert, Hx. done. Qed.

Lemma single_inj s i j x y : single s = true → sockets s !! i = Some x → sockets s !! j = Some y → i = j.
Proof.
  unfold single. rewrite bool_decide_eq_true. intros Hs Hi Hj. destruct (decide (i = j)) as [|Hne]; [done|].
  assert (Hm : size (delete i (sockets s)) = 0%nat) by (rewrite map_size_delete, Hi; simpl; lia).
  apply map_size_empty_inv in Hm. assert (Hd : delete i (sockets s) !! j = Some y) by (by rewrite lookup_delete_ne).
  by rewrite Hm, lookup_empty in Hd.
Qed.

Lemma app_cons_ne_nil {A} (l : list A) x : l ++ [x] ≠ [].
Proof. by destruct l. Qed.

Lemma sid_msg_texts tx sid zeros : ValidString tx = true → ValidString sid = true → sid_texts_ok (sid_msg tx sid zeros).
Proof.
  intros ? ?. split_and!; [done..|]. apply ValidString_ascii, Forall_forall.
  by intros b [-> _]%elem_of_replicate.
Qed.
Lemma hinv_init nw sid key n : hinv nw (hole_start sid key n).
Proof.
  split; simpl; [by intros ? ?%not_elem_of_nil|by intros ? ? ?%not_elem_of_nil|done| |done|done|done].
  intros i a Hi. apply elem_of_list_to_map_2, list_elem_of_fmap in Hi as (? & [=] & _).
Qed.

(** Nothing but what a socket accepted makes the world more answered. *)
Lemma packet_mono nw w w' p : h_key w' = h_key w → h_sid w' = h_sid w →
  (∀ x, x ∈ answered_by w → x ∈ answered_by w') → packet_ok nw w p → packet_ok nw w' p.
Proof.
  intros E1 E2 Ha. unfold packet_ok. rewrite E1, E2. case_decide; [done|].
  intros (m & ? & ? & ? & H'). exists m. split_and!; [done..|]. destruct (ns_Response m); [|done].
  destruct H' as (i & ? & ?). eauto.
Qed.

Section invariant.
Context (nw : network) (key : list byte).
Hypothesis Hf : faithful key.
Hypothesis Hh : no_hairpin nw.

(** What is accepted, and from whom: the answer of a socket of the receiver, or a probe. *)
Lemma accepts w p snd reply : hinv nw w → h_key w = key → p ∈ net w → detect (h_sid w) key snd (pk_data p) = Accept reply →
  pk_from p ≠ Stranger ∧
    (reply = None ∧ (∃ i, pk_from p = ReceiverEnd i ∧ (i, pk_to p) ∈ answered_by w)
     ∨ snd = false ∧ targets nw (pk_from p) (pk_to p) ∧ ∃ m b, reply = Some b ∧ sid_texts_ok m ∧ ns_Sid m = h_sid w
         ∧ ns_Response m = true ∧ EncodeMessage m key = Ok b).
Proof.
  intros Hinv Hk Hp (m & Hdec & Hs & Hd)%detect_Accept. pose proof (hi_net _ _ Hinv _ Hp) as Hok. unfold packet_ok in Hok.
  rewrite Hk in Hok. destruct (decide (pk_from p = Stranger)) as [_|Hn]; [by destruct (Hok _ Hdec)|].
  destruct Hok as (m' & Ht & He & _ & Hm). pose proof (Hf _ _ _ Ht He Hdec) as ->. split; [done|].
  destruct Hd as [[Hr ->]|(Hr & -> & b & -> & Hb)]; rewrite Hr in Hm; [by left|]. right. split_and!; [done..|].
  exists (mkNatHoleSid (ns_TransactionID m') (ns_Sid m') true (ns_Nonce m')), b. by split_and!.
Qed.
(** The receiver accepts probes of the sender, and answers each. *)
Lemma receiver_accepts w p i raddr reply : hinv nw w → h_key w = key → p ∈ net w → arrives nw p (ReceiverEnd i) raddr →
  detect (h_sid w) key false (pk_data p) = Accept reply →
  owner nw raddr = Some SenderEnd ∧ ∃ m b, reply = Some b ∧ sid_texts_ok m ∧ ns_Sid m = h_sid w ∧ ns_Response m = true
    ∧ EncodeMessage m key = Ok b.
Proof.
  intros Hinv Hk Hp [Hto Hfrom] (Hn & [(_ & j & _ & Ha)|(_ & Ht & Hb)])%(accepts w); try done.
  - apply (hi_answered _ _ Hinv) in Ha. congruence.
  - split; [|done]. rewrite (Hfrom Hn). destruct (pk_from p) as [|j|] eqn:E; [done| |done]. by destruct (Hh _ i _ Ht).
Qed.

Lemma single_got i raddr s : is_Some (sockets s !! i) → single (got i raddr s) = single s.
Proof. intros Hi. unfold got, set_socket. by destruct (single s) eqn:E; rewrite single_set. Qed.
Lemma got_returned i raddr s c a : returned (got i raddr s) = Some (Ok (c, a)) →
  c = i ∧ a = raddr ∨ returned s = Some (Ok (c, a)).
Proof. unfold got, set_socket. destruct (single s); [intros [= <- <-]; by left|by right]. Qed.
Lemma got_got i raddr s j a : sockets (got i raddr s) !! j = Some (SGot a) → j = i ∧ a = raddr ∨ sockets s !! j = Some (SGot a).
Proof.
  unfold got, set_socket. destruct (single s); simpl; rewrite lookup_insert_Some.
  - intros [[_ [=]]|[_ ?]]. by right.
  - intros [[-> [= ->]]|[_ ?]]; [by left|by right].
Qed.

Lemma inv_receiver_reads i p raddr reply w : hinv nw w → h_key w = key → p ∈ net w → arrives nw p (ReceiverEnd i) raddr →
  sockets (receiver w) !! i = Some SRead → detect (h_sid w) key false (pk_data p) = Accept reply →
  hinv nw (accepted [(i, raddr)] (to_net (replies (ReceiverEnd i) raddr reply) (set_receiver (got i raddr (receiver w)) w))).
Proof.
  intros Hinv Hk Hp Harr Hread Hd.
  destruct (receiver_accepts w p i raddr reply Hinv Hk Hp Harr Hd) as (Hown & m & b & -> & Ht & Hs & Hr & Hb).
  pose proof Hinv as [H1 H2 H3 H4 H5 H6 H7].
  assert (Hsg : single (got i raddr (receiver w)) = single (receiver w)) by (by apply single_got).
  assert (Hin : ∀ x, x ∈ answered_by w → x ∈ answered_by w ++ [(i, raddr)]) by (intros; apply elem_of_app; by left).
  assert (Hnew : (i, raddr) ∈ answered_by w ++ [(i, raddr)]) by (apply elem_of_app; right; by left).
  split; simpl; rewrite ?Hsg.
  - intros q [Hq|Hq]%elem_of_app; [by apply (packet_mono nw w), H1|]. apply list_elem_of_singleton in Hq as ->.
    unfold packet_ok. rewrite decide_False by done. simpl. exists m. rewrite Hk, Hr. split_and!; [done..|]. by exists i.
  - intros j r [Ha|Ha]%elem_of_app; [by eapply H2|]. by apply list_elem_of_singleton in Ha as [= -> ->].
  - intros c a (j & r & ? & ?)%H3. eauto.
  - intros j a [[-> ->]|?]%got_got; auto.
  - intros j a [[-> ->]|?]%got_returned; auto.
  - intros j Hsi. unfold got. rewrite Hsi. simpl. rewrite lookup_insert_Some.
    intros [[_ [=]]|[Hne Hj]]. by destruct (Hne (single_inj _ _ _ _ _ Hsi Hread Hj)).
  - intros Hsi _. unfold got. rewrite Hsi. exists i, raddr. split; [done|]. rewrite (H6 _ Hsi Hread).
    by intros j r [= -> ->]%list_elem_of_singleton.
Qed.

Lemma inv_sockets s' w : hinv nw w → single s' = single (receiver w) →
  (∀ j a, sockets s' !! j = Some (SGot a) → sockets (receiver w) !! j = Some (SGot a)) →
  (∀ j, sockets s' !! j = Some SRead → sockets (receiver w) !! j = Some SRead) →
  (∀ j a, returned s' = Some (Ok (j, a)) → (j, a) ∈ answered_by w) →
  (single s' = true → answered_by w ≠ [] → returned s' = returned (receiver w)) →
  hinv nw (set_receiver s' w).
Proof.
  intros [H1 H2 H3 H4 H5 H6 H7] Hs Hg Hr Hret Hsi. split; simpl; try done.
  - intros j a ?%Hg. by apply H4.
  - rewrite Hs. intros j ? ?%Hr. by apply (H6 j).
  - intros Hs' Ha. rewrite (Hsi Hs' Ha). apply H7; [congruence|done].
Qed.

Lemma hstep_inv w w' : hstep nw w w' → h_key w = key → ValidString (h_sid w) = true → hinv nw w → hinv nw w'.
Proof.
  intros Hs Hk Hv Hinv. pose proof Hinv as [H1 H2 H3 H4 H5 H6 H7].
  destruct Hs as [e a tx zeros d w He Ht Htx Henc|a d w Hd|p raddr reply w Hp Ha Hr Hd Hret|i p raddr reply w Hp Ha Hr Hd
    |w Hsg|i raddr w Hg|i w Hr|e w Hret|w Hsg Hse Hret].
  - split; simpl; try done. intros q [Hq|Hq]%elem_of_app; [by apply H1|]. apply list_elem_of_singleton in Hq as ->.
    unfold packet_ok. rewrite decide_False by done. exists (sid_msg tx (h_sid w) zeros).
    split_and!; try done. apply sid_msg_texts; done.
  - split; simpl; try done. intros q [Hq|Hq]%elem_of_app; [by apply H1|]. apply list_elem_of_singleton in Hq as ->.
    unfold packet_ok. by rewrite decide_True.
  - rewrite Hk in Hd. destruct (accepts w p true reply Hinv Hk Hp Hd) as (Hn & [(-> & i & Hfrom & Hans)|(? & _)]); [|done].
    split; simpl; try done; [by rewrite app_nil_r|]. intros c a [= <- <-]. exists i, (pk_to p). split; [|done].
    destruct Ha as [_ ->]; congruence.
  - apply (inv_receiver_reads i p); congruence.
  - by apply inv_sockets.
  - assert (Hst : ∀ k sel ret, single (mkSide (<[i := k]> (sockets (receiver w))) sel ret) = single (receiver w)).
    { intros. by apply single_set. }
    apply inv_sockets; [done|..]; unfold hand_over, set_socket; destruct (selecting (receiver w) && _) eqn:Hb; simpl; rewrite ?Hst; try done.
    1-4: intros j; setoid_rewrite lookup_insert_Some; naive_solver.
    + by intros j a [= <- <-]; apply H4.
    + intros Hsi Hne. apply andb_true_iff in Hb as [_ Hb%bool_decide_eq_true]. destruct (H7 Hsi Hne) as (j & a & Hj & _). congruence.
  - assert (Hst : ∀ k sel ret, single (mkSide (<[i := k]> (sockets (receiver w))) sel ret) = single (receiver w)).
    { intros. by apply single_set. }
    apply inv_sockets; [done|..]; unfold failed, set_socket; destruct (single (receiver w)) eqn:Hsi; simpl; rewrite ?Hst; try done.
    1-4: intros j; setoid_rewrite lookup_insert_Some; naive_solver.
    intros _ Hne. by destruct (Hne (H6 i eq_refl Hr)).
  - split; done.
  - apply inv_sockets; try done. intros Hsi. change (single (receiver w) = true) in Hsi. congruence.
Qed.
End invariant.
End agree.

(** ** Properties *)
Section properties.
Context `{SidCodec}.

Lemma hstep_static nw w w' : hstep nw w w' → h_key w' = h_key w ∧ h_sid w' = h_sid w ∧ single (receiver w') = single (receiver w).
Proof.
  intros Hs. destruct Hs as [| | |i p raddr reply w Hp Ha Hr Hd|w Hsg|i raddr w Hg|i w Hr| |w Hsg Hse Hret]; simpl; try done.
  - split_and!; [done..|]. by apply single_got.
  - split_and!; [done..|]. unfold hand_over, set_socket. destruct (_ && _); by rewrite single_set.
  - split_and!; [done..|]. unfold failed, set_socket. destruct (single (receiver w)) eqn:E; rewrite single_set; done.
Qed.

Lemma hole_reachable nw sid key n w : faithful key → no_hairpin nw → ValidString sid = true → rtc (hstep nw) (hole_start sid key n) w →
  hinv nw w ∧ single (receiver w) = single (side_start n).
Proof.
  intros Hf Hh Hv Hr.
  assert (Hgen : ∀ w0, rtc (hstep nw) w0 w → h_key w0 = key → h_sid w0 = sid → hinv nw w0 →
    hinv nw w ∧ single (receiver w) = single (receiver w0)).
  { clear Hr. intros w0 Hr. induction Hr as [|x y z Hxy Hyz IH]; [done|]. intros Hk Hs Hi.
    destruct (hstep_static _ _ _ Hxy) as (Ek & Es & <-). apply IH; [congruence..|].
    by eapply hstep_inv; [| |exact Hxy|rewrite ?Hs..]. }
  by apply (Hgen (hole_start sid key n)); [|done..|apply hinv_init].
Qed.

(** C2. The two sides agree about the hole.  On a network that may lose, repeat and
    reorder datagrams and brings those of strangers and of other sessions too, with any
    interleaving of sockets, probes, hand-overs and time-outs: a sender that reports
    success has an address that leads to a socket of the receiver which accepted the
    sender's probe; a receiver that reports success returns a socket and an address from which
    that socket accepted a probe, and it leads to the sender; and if the receiver has only one
    socket, a successful sender means a successful receiver, and their two addresses lead to
    each other.  Taken for granted: the codec is faithful to valid texts, an address keeps
    leading to the same socket, only the two sides make datagrams of the session, and
    the receiver probes no address of its own ([hairpin_hole] shows why). *)
Theorem hole_agreement (nw : network) (sid : string) (key : list byte) (n : nat) (w : hworld) :
  faithful key → no_hairpin nw → ValidString sid = true → rtc (hstep nw) (hole_start sid key n) w →
  (∀ c a, returned (sender w) = Some (Ok (c, a)) →
     ∃ i r, owner nw a = Some (ReceiverEnd i) ∧ (i, r) ∈ answered_by w ∧ owner nw r = Some SenderEnd)
  ∧ (∀ i r, returned (receiver w) = Some (Ok (i, r)) → (i, r) ∈ answered_by w ∧ owner nw r = Some SenderEnd)
  ∧ (n = 1%nat → ∀ c a, returned (sender w) = Some (Ok (c, a)) →
     ∃ i r, returned (receiver w) = Some (Ok (i, r)) ∧ owner nw a = Some (ReceiverEnd i) ∧ owner nw r = Some SenderEnd).
Proof.
  intros Hf Hh Hv Hr. destruct (hole_reachable _ _ _ _ _ Hf Hh Hv Hr) as [[H1 H2 H3 H4 H5 H6 H7] Hs]. split_and!.
  - intros c a (i & r & Ho & Ha)%H3. exists i, r. split_and!; [done..|by eapply H2].
  - intros i r Hi%H5. split; [done|by eapply H2].
  - intros -> c a (i & r & Ho & Ha)%H3. destruct (H7 Hs) as (j & b & Hret & Huniq); [by intros E; rewrite E in Ha; apply not_elem_of_nil in Ha|].
    destruct (Huniq _ _ Ha) as [-> ->]. exists j, b. split_and!; [done..|by eapply H2].
Qed.
End properties.

(** The sender probes the other side.  For every successful analysis of the server's
    controller, exactly one of the two responses makes its host a sender, and that host
    sends a datagram to every mapped and every assisted address the other host
    reported, whatever the strategy. *)
Theorem sender_probes_peer (now : Z) (an an' : Analyzer) (s s' : Session) (cm : NatHoleClient)
    (v c : NatHoleResp) (a : string) :
  a_reachable an → analysis now an s cm = Ok (v, c, s', an') →
  is_sender v = negb (is_sender c)
  ∧ (is_sender v = true → a ∈ nc_MappedAddrs cm ++ nc_AssistedAddrs cm → (0%nat, a) ∈ probes 1 v)
  ∧ (is_sender c = true → a ∈ nv_MappedAddrs (s_visitorMsg s) ++ nv_AssistedAddrs (s_visitorMsg s) →
     (0%nat, a) ∈ probes 1 c).
Proof.
  intros Han Ha.
  apply analysis_Ok in Ha as (cNat & vNat & mode & index & cB & vB & _ & _ & Hg & _ & _ & _ & _ &
    tv & pc & c1 & c2 & Hv & pv & v1 & v2 & Hc & Htv).
  destruct (GetRecommand_spec _ _ _ _ _ _ _ _ _ _ (a_reachable_ok _ Han) Hg)
    as (_ & _ & _ & _ & _ & _ & Hor & _ & Hm & Hi).
  pose proof (orient_roles mode cNat _ (behavior_table_roles _ _ Hm Hi)) as Hroles.
  rewrite <-Hor in Hroles. unfold opposite_roles in Hroles. simpl in Hroles.
  assert (Hp : ∀ (m : NatHoleResp) l1 l2, nr_CandidateAddrs m = Compact l1 → nr_AssistedAddrs m = Compact l2 →
    is_sender m = true → a ∈ l1 ++ l2 → (0%nat, a) ∈ probes 1 m).
  { intros m l1 l2 E1 E2 Hsend Hin. apply elem_of_probes. split; [lia|]. left. unfold detectAddrs.
    rewrite Hsend, E1, E2. rewrite elem_of_app, !elem_of_Compact. apply elem_of_app in Hin. tauto. }
  unfold newNatHoleResponse in Hv, Hc. simplify_eq. split_and!.
  - unfold is_sender. simpl. destruct Hroles as [[-> ->]|[-> ->]]; reflexivity.
  - intros Hs. by apply Hp.
  - intros Hs. by apply Hp.
Qed.

(** The random ports are sane: when the numbers are below 65535-1024 as
    [rand.IntN] gives them, every round probes one port between 1024 and 65534 that no
    earlier round used, or none, and there are exactly [SendRandomPorts] rounds. *)
Theorem random_ports_distinct (count : nat) (rnd : list Z) :
  Forall (λ r, 0 ≤ r < 64511) rnd →
  length (random_ports count [] rnd) = count
  ∧ NoDup (filter (λ p, p ≠ 0) (random_ports count [] rnd))
  ∧ ∀ p, p ∈ random_ports count [] rnd → p ≠ 0 → 1024 ≤ p ≤ 65534.
Proof. intros Hr. destruct (random_ports_spec count [] rnd Hr) as (? & ? & Hb). split_and!; [done..|]. intros p Hp Hz. by apply Hb. Qed.

(** The timeout bounds the wait for one datagram, not the wait: datagrams that are ignored, one
    before each deadline, keep a side waiting as long as they come. *)
Lemma deadline_renewed `{SidCodec} sid key sender junk timeout now n :
  0 ≤ timeout → detect sid key sender junk = Skip →
  wait_time sid key sender timeout now ((λ i, (now + Z.of_nat (S i) * timeout, junk)) <$> seq 0 n)
    = now + Z.of_nat (S n) * timeout.
Proof.
  intros Ht Hj. assert (Hk : ∀ k m, wait_time sid key sender timeout (now + Z.of_nat m * timeout)
      ((λ i, (now + Z.of_nat (S i) * timeout, junk)) <$> seq m k) = now + Z.of_nat (S (m + k)) * timeout).
  { induction k as [|k IH]; intros m; cbn -[Z.of_nat]; [lia|].
    rewrite (proj2 (Z.ltb_ge _ _)) by lia. rewrite Hj, IH. lia. }
  specialize (Hk n 0%nat). change (Z.of_nat 0) with 0 in Hk. by rewrite Z.mul_0_l, Z.add_0_r in Hk.
Qed.

(** ** Runs *)
#[export] Instance NatHoleSid_eq_dec : EqDecision NatHoleSid.
Proof. solve_decision. Defined.
Definition demo_probe : NatHoleSid := sid_msg "t" "s1" 0.
Definition demo_reply : NatHoleSid := mkNatHoleSid "t" "s1" true "".
(** A codec that knows two messages. *)
Definition demo_codec : SidCodec :=
  {| EncodeMessage m _ := if decide (m = demo_probe) then Ok [Byte.x01]
                          else if decide (m = demo_reply) then Ok [Byte.x02] else Err "unknown message";
     DecodeMessageInto d _ := if decide (d = [Byte.x01]) then Ok demo_probe
                              else if decide (d = [Byte.x02]) then Ok demo_reply else Err "bad data" |}.
Lemma demo_faithful : @faithful demo_codec [].
Proof.
  intros m d m' _. unfold EncodeMessage, DecodeMessageInto. simpl.
  destruct (decide (m = demo_probe)) as [->|]; [intros [= <-]; simpl; by intros [= <-]|].
  destruct (decide (m = demo_reply)) as [->|]; [intros [= <-]; simpl; by intros [= <-]|done].
Qed.
(** The sender's socket is seen at ["A"], the receiver's first socket at ["B"]. *)
Definition demo_owner (a : string) : option endpoint :=
  if decide (a = "A") then Some SenderEnd else if decide (a = "B") then Some (ReceiverEnd 0) else None.
Definition demo_network : network :=
  mkNetwork demo_owner (λ e a, match e with SenderEnd => a = "B" | ReceiverEnd _ => a = "A" | Stranger => False end).
Lemma demo_no_hairpin : no_hairpin demo_network.
Proof. by intros i j a ->. Qed.

Section runs.
Local Existing Instance demo_codec.
Definition demo_sent : packet := mkPacket SenderEnd "B" [Byte.x01].
Definition demo_answer : packet := mkPacket (ReceiverEnd 0) "A" [Byte.x02].
Definition hole1 (n : nat) : hworld := to_net [demo_sent] (hole_start "s1" [] n).
Definition hole2 (n : nat) : hworld :=
  accepted [(0%nat, "A")] (to_net [demo_answer] (set_receiver (got 0 "A" (receiver (hole1 n))) (hole1 n))).
Definition hole3 (n : nat) : hworld :=
  to_net [] (set_sender (mkSide (<[0%nat := SReturned]> (sockets (sender (hole2 n)))) false (Some (Ok (0%nat, "B")))) (hole2 n)).

Lemma hole_run n : sockets (receiver (hole_start "s1" [] n)) !! 0%nat = Some SRead →
  rtc (hstep demo_network) (hole_start "s1" [] n) (hole3 n).
Proof.
  intros Hk. eapply rtc_l; [by apply (h_probe _ SenderEnd "B" "t" 0 [Byte.x01])|].
  eapply rtc_l; [apply (h_receiver_reads _ 0 demo_sent "A" (Some [Byte.x02]) (hole1 n)); [by left|done|exact Hk|reflexivity]|].
  eapply rtc_l; [apply (h_sender_reads _ demo_answer "B" None (hole2 n)); [right; by left|done|reflexivity|reflexivity|reflexivity]|].
  apply rtc_refl.
Qed.

Lemma hole_agreement_witness :
  returned (sender (hole3 1)) = Some (Ok (0%nat, "B"))
  ∧ ∃ i r, returned (receiver (hole3 1)) = Some (Ok (i, r)) ∧ demo_owner "B" = Some (ReceiverEnd i) ∧ demo_owner r = Some SenderEnd.
Proof.
  split; [reflexivity|].
  exact (proj2 (proj2 (hole_agreement demo_network "s1" [] 1 (hole3 1) demo_faithful demo_no_hairpin eq_refl (hole_run 1 eq_refl)))
    eq_refl 0%nat "B" eq_refl).
Defined.

(** With several sockets the result can be lost: the goroutine that accepted a probe and
    answered it finds nobody at the unbuffered channel, closes its socket, and the
    receiver times out while the sender reports success. *)
Lemma hole_result_lost : ∃ w, rtc (hstep demo_network) (hole_start "s1" [] 2) w
  ∧ returned (sender w) = Some (Ok (0%nat, "B")) ∧ returned (receiver w) = Some (Err "wait detect message timeout").
Proof.
  eexists. split; [|split].
  - etrans; [by apply hole_run|].
    eapply rtc_l; [by apply (h_hand_over _ 0 "A")|].
    eapply rtc_l; [by apply h_select|]. eapply rtc_l; [by apply h_receiver_timeout|]. apply rtc_refl.
  - reflexivity.
  - reflexivity.
Qed.

(** A receiver does not know its own probes: when one of the addresses it probes leads back to
    its socket, as a port of a range can behind a NAT that both sides share, it accepts
    its own probe and reports a hole to itself, with no sender at all. *)
Lemma hairpin_hole : ∃ nw w, rtc (hstep nw) (hole_start "s1" [] 1) w
  ∧ returned (receiver w) = Some (Ok (0%nat, "B")) ∧ owner nw "B" = Some (ReceiverEnd 0)
  ∧ ∀ p, p ∈ net w → pk_from p = ReceiverEnd 0.
Proof.
  exists (mkNetwork demo_owner (λ e a, e = ReceiverEnd 0 ∧ a = "B")). eexists. split_and!.
  - eapply rtc_l; [by apply (h_probe _ (ReceiverEnd 0) "B" "t" 0 [Byte.x01])|].
    eapply rtc_l; [by eapply (h_receiver_reads _ 0 (mkPacket (ReceiverEnd 0) "B" [Byte.x01]) "B" (Some [Byte.x02])); [left|..]|].
    apply rtc_refl.
  - reflexivity.
  - reflexivity.
  - simpl. intros p [->|[->|[]%not_elem_of_nil]%elem_of_cons]%elem_of_cons; reflexivity.
Qed.
End runs.


Lemma sender_probes_peer_witness :
  match analysis 1 (NewAnalyzer Hour) (new_session "s1" demo_vm 7%nat) demo_cm with
  | Ok (v, c, _, _) => (is_sender v, is_sender c) = (true, false) ∧ (0%nat, "5.6.7.8:5000") ∈ probes 1 v
                       ∨ (is_sender v, is_sender c) = (false, true) ∧ (0%nat, "10.0.0.2:4000") ∈ probes 1 c
  | Err _ => False
  end.
Proof.
  destruct (analysis 1 (NewAnalyzer Hour) (new_session "s1" demo_vm 7%nat) demo_cm)
    as [[[[v c] s'] an']|e] eqn:E; [|vm_compute in E; discriminate].
  assert (Han : a_reachable (NewAnalyzer Hour)) by (exists Hour; apply rtc_refl).
  destruct (sender_probes_peer 1 _ _ _ _ _ v c "5.6.7.8:5000" Han E) as (Hs & Hv & _).
  destruct (sender_probes_peer 1 _ _ _ _ _ v c "10.0.0.2:4000" Han E) as (_ & _ & Hc).
  destruct (is_sender c) eqn:Ec; simpl in Hs.
  - right. split; [by rewrite Hs|]. apply Hc; [reflexivity|]. right. right. left.
  - left. split; [by rewrite Hs|]. apply Hv; [done|]. left.
Defined.

Lemma random_ports_distinct_witness :
  random_ports 3 [] [0; 0; 64510] = [1024; 65534; 0] ∧ NoDup (filter (λ p, p ≠ 0) (random_ports 3 [] [0; 0; 64510])).
Proof.
  split; [reflexivity|]. apply (random_ports_distinct 3 [0; 0; 64510]).
  repeat constructor; lia.
Defined.
