(* ===== verification/EndToEnd.v ===== *)
(** * From two configurations to a session: [client/visitor/xtcp.go], [client/proxy/xtcp.go]

    The messages the two clients send for a tunnel, and the composition of the parts:
    the owner's configuration goes through [NewWrapper] and [checkWorker]
    ([ClientProxy]), [NewProxyConfigurerFromMsg] ([ConfigLoad]), the server's [Run]
    ([ServerProxy]) and [ListenClient] ([NatController]); the visitor's through
    [BuildTargetServerProxyName] ([Naming]), [PreCheck] ([MakeHole]) and the
    signature ([Auth]). *)
From S2P Require Import Prelude GoStd Hash Naming Msg ConfigV1 Auth Validation ConfigLoad NatController ServerProxy ClientProxy MakeHole.
From stdpp Require Import gmap list.
Local Open Scope Z_scope.

(** ** The messages of [makeNatHole] and [InWorkConn] *)
Definition target_name (user : string) (v : XTCPVisitorConfig) : string :=
  BuildTargetServerProxyName user (vb_ServerUser (xv_Base v)) (vb_ServerName (xv_Base v)).
Definition precheck_request (user tx : string) (v : XTCPVisitorConfig) : NatHoleVisitor :=
  precheck_msg tx (target_name user v).
(** [now] is [time.Now().Unix()]; the addresses come from [Prepare]. *)
Definition visitor_request (user tx : string) (now : Z) (mapped assisted : list string)
    (v : XTCPVisitorConfig) : NatHoleVisitor :=
  mkNatHoleVisitor tx (target_name user v) false (xv_Protocol v)
    (GetAuthKey (vb_SecretKey (xv_Base v)) now) now mapped assisted.
Definition client_reply (user tx sid : string) (mapped assisted : list string) (p : XTCPProxyConfig) : NatHoleClient :=
  mkNatHoleClient tx (AddUserPrefix user (pc_Name (xp_Base p))) sid mapped assisted.
(** [AssistedAddrs] of [Prepare], and whether the options drop them. *)
Definition disables_assisted (n : option NatTraversalConfig) : bool := from_option nt_DisableAssistedAddrs false n.
Definition assisted_addrs (disable : bool) (localIPs : list string) (port : Z) : list string :=
  if disable then [] else (λ ip, JoinHostPort ip (Itoa port)) <$> localIPs.

(** ** Lemmas *)
Lemma from_msg_fields `{Text} user (c : ProxyConfigurer) m y :
  start_msg (NewWrapper user c) = MNewProxy m → NewProxyConfigurerFromMsg m = Ok (PC_XTCP y) →
  match c with PC_XTCP x =>
    pc_Name (xp_Base y) = AddUserPrefix user (pc_Name (xp_Base x))
    ∧ xp_Secretkey y = xp_Secretkey x ∧ xp_AllowUsers y = xp_AllowUsers x
  end.
Proof.
  intros [= <-] Hc. destruct c as [x]. unfold NewProxyConfigurerFromMsg in Hc.
  destruct (NewProxyConfigurerByType _) as [d|] eqn:Hd; [|done].
  unfold NewProxyConfigurerByType in Hd. case_bool_decide; [|done]. injection Hd as <-.
  apply result_bind_Ok in Hc as ([] & _ & [= <-]). done.
Qed.

Lemma registered_cfg (p : SProxy) n ch n' : Run p n = (Ok ch, n') →
  clientCfgs n' !! sp_name p = Some (mkClientCfg (sp_name p) (xp_Secretkey (sp_cfg p)) (allow_users p) ch).
Proof.
  unfold Run, ListenClient. destruct (clientCfgs n !! sp_name p); [done|]. intros [= <- <-]. apply lookup_insert_eq.
Qed.

Lemma GetAuthKey_collision a b now : GetAuthKey a now = GetAuthKey b now ↔
  a = b ∨ a ≠ b ∧ md5 (bytes_of a ++ bytes_of (Itoa now)) = md5 (bytes_of b ++ bytes_of (Itoa now)).
Proof.
  unfold GetAuthKey. split.
  - intros Heq%hex_encode_inj. destruct (decide (a = b)); [by left|by right].
  - intros [->|[_ ->]]; done.
Qed.

(** C3. A tunnel between two configurations.  Take an owner who configured an xtcp
    proxy and a visitor whose target name is the owner's wire name.  Once the server has
    accepted the owner's [NewProxy] message and run the proxy, the controller admits the
    visitor's request exactly when the two secrets are the same, or their keys for that
    second collide under MD5; the pre-check passes exactly for the users the owner
    allows, or the owner's own user when none are listed. *)
Theorem configurations_meet `{Text} (k : nat) (owner visitor tx : string) (x y : XTCPProxyConfig)
    (v : XTCPVisitorConfig) (m : NewProxy) (n n' : Controller) (ch : nat) (now : Z) (ma aa : list string) :
  start_msg (NewWrapper owner (PC_XTCP x)) = MNewProxy m →
  NewProxyConfigurerFromMsg m = Ok (PC_XTCP y) →
  Run (NewProxy_obj k owner (PC_XTCP y)) n = (Ok ch, n') →
  target_name visitor v = AddUserPrefix owner (pc_Name (xp_Base x)) →
  let sk := xp_Secretkey x in
  let sv := vb_SecretKey (xv_Base v) in
  (is_ok (admit_visitor (visitor_request visitor tx now ma aa v) n') = true ↔
     sv = sk ∨ sv ≠ sk ∧ md5 (bytes_of sv ++ bytes_of (Itoa now)) = md5 (bytes_of sk ++ bytes_of (Itoa now)))
  ∧ (pre_check_error (precheck_request visitor tx v) visitor n' = "" ↔
     match xp_AllowUsers x with
     | [] => visitor = owner ∨ owner = "*"
     | l => visitor ∈ l ∨ "*" ∈ l
     end)
  ∧ (∀ cfg, admit_visitor (visitor_request visitor tx now ma aa v) n' = Ok cfg → cfg_sidCh cfg = ch).
Proof.
  intros Hm Hy Hrun Ht sk sv. destruct (from_msg_fields _ _ _ _ Hm Hy) as (Hn & Hsk & Hal).
  apply registered_cfg in Hrun. unfold sp_name in Hrun. cbn [NewProxy_obj sp_cfg] in Hrun. rewrite Hn in Hrun.
  unfold admit_visitor, pre_check_error. cbn [nv_ProxyName visitor_request precheck_request precheck_msg nv_SignKey nv_Timestamp].
  rewrite Ht, Hrun, ConstantTimeEqString_spec. cbn [cfg_sk cfg_allowUsers]. split_and!.
  - case_bool_decide as Hk; rewrite Hsk, GetAuthKey_collision in Hk; unfold sk, sv; split; (done || tauto).
  - unfold allow_users. cbn [sp_cfg sp_user]. rewrite Hal. unfold contains.
    assert (Hc : ∀ l : list string, (if negb (bool_decide (visitor ∈ l)) && negb (bool_decide ("*" ∈ l))
      then "xtcp visitor user [" +:+ visitor +:+ "] not allowed for [" +:+ AddUserPrefix owner (pc_Name (xp_Base x)) +:+ "]"
      else "") = "" ↔ visitor ∈ l ∨ "*" ∈ l).
    { intros l. repeat case_bool_decide; simpl; intuition done. }
    rewrite Hc. destruct (xp_AllowUsers x); [|done]. rewrite !list_elem_of_singleton. intuition congruence.
  - intros cfg. case_bool_decide; [|done]. by intros [= <-].
Qed.

(** ** A pair of configurations *)
Definition demo_xtcp : XTCPProxyConfig :=
  mkXTCPProxyConfig (mkProxyBaseConfig "ssh" "xtcp" None ∅ (mkProxyTransport false false) ∅
    (mkProxyBackend "127.0.0.1" 22)) "secret" [] None.
Definition demo_visitor : XTCPVisitorConfig :=
  mkXTCPVisitorConfig (mkVisitorBaseConfig "ssh_visitor" "xtcp" None (mkVisitorTransport false false) "secret"
    "alice" "ssh" "127.0.0.1" 9000) "quic" false 8 90 "" 1000 None.
Definition demo_accepted : result ProxyConfigurer :=
  match start_msg (NewWrapper "alice" (PC_XTCP demo_xtcp)) with
  | MNewProxy m => @NewProxyConfigurerFromMsg demo_text m
  | _ => Err ""
  end.

Lemma configurations_meet_witness :
  match demo_accepted with
  | Ok (PC_XTCP y) =>
      match Run (NewProxy_obj 0 "alice" (PC_XTCP y)) (NewController Hour) with
      | (Ok ch, n') =>
          is_ok (admit_visitor (visitor_request "bob" "t" 1700000000 [] [] demo_visitor) n') = true
          ∧ pre_check_error (precheck_request "bob" "t" demo_visitor) "bob" n' ≠ ""
      | _ => False
      end
  | Err _ => False
  end.
Proof.
  unfold demo_accepted. destruct (start_msg (NewWrapper "alice" (PC_XTCP demo_xtcp))) as [| |m| | | | | | | | | | | | | | |] eqn:Em;
    try discriminate Em.
  destruct (@NewProxyConfigurerFromMsg demo_text m) as [[y]|e] eqn:Ey.
  2:{ injection Em as <-. vm_compute in Ey. discriminate Ey. }
  destruct (Run (NewProxy_obj 0 "alice" (PC_XTCP y)) (NewController Hour)) as [[ch|e] n'] eqn:Er; [|discriminate Er].
  destruct (@configurations_meet demo_text 0 "alice" "bob" "t" demo_xtcp y demo_visitor m (NewController Hour) n' ch
    1700000000 [] [] Em Ey Er eq_refl) as (Ha & Hp & _).
  split; [apply Ha; left; reflexivity|]. intros [Heq|Heq]%Hp; discriminate Heq.
Defined.
