(* ===== verification/ClientVisitor.v ===== *)
(** * The client's visitors: [client/visitor/visitor_manager.go]

    The manager keeps the configurations and, apart from them, the visitors that could
    be started; a goroutine retries the others.  A visitor that ran lives in a store with
    a flag for [Close]; whether [Run] succeeds (it binds a port) is a function given to
    every operation.  A critical section is one step. *)
From S2P Require Import Prelude GoStd ConfigV1.
From stdpp Require Import gmap list.
Local Open Scope Z_scope.

Record visitor := mkVisitor { v_cfg : VisitorConfigurer; v_closed : bool }.
Definition vname (c : VisitorConfigurer) : string := vb_Name (Visitor_GetBaseConfig c).

(** [keepVisitorsRunning]: not started, in its [select], about to take the lock after a
    tick, returned. *)
Inductive keeper : Type := KNone | KSelect | KTick | KReturned.

Record vmanager := mkVManager {
  cfgs : gmap string VisitorConfigurer;
  visitors : gmap string nat;
  objs : list visitor;
  stopCh : bool;                (* closed *)
  keeping : keeper;
}.
Definition NewManager : vmanager := mkVManager ∅ ∅ [] false KNone.

Definition set_keeping (k : keeper) (m : vmanager) : vmanager :=
  mkVManager (cfgs m) (visitors m) (objs m) (stopCh m) k.

(** [startVisitor]; [run] tells whether [Run] succeeds. *)
Definition startVisitor (run : VisitorConfigurer → bool) (cfg : VisitorConfigurer) (m : vmanager) : vmanager :=
  if run cfg then
    mkVManager (cfgs m) (<[vname cfg := length (objs m)]> (visitors m)) (objs m ++ [mkVisitor cfg false])
      (stopCh m) (keeping m)
  else m.

Definition close_visitor (o : visitor) : visitor := mkVisitor (v_cfg o) true.
Definition close_at (i : nat) (m : vmanager) : vmanager :=
  mkVManager (cfgs m) (visitors m) (alter close_visitor i (objs m)) (stopCh m) (keeping m).

(** [Close]: every visitor of the map, and the channel, once. *)
Definition Close (m : vmanager) : vmanager :=
  mkVManager (cfgs m) (visitors m)
    (imap (λ i o, if decide (visitors m !! vname (v_cfg o) = Some i) then close_visitor o else o) (objs m))
    true (keeping m).

Definition KeyBy (l : list VisitorConfigurer) : gmap string VisitorConfigurer :=
  foldl (λ m c, <[vname c := c]> m) ∅ l.

(** [UpdateAll]: one iteration of each loop, and the whole with the start of the keeper. *)
Definition update_del (new : gmap string VisitorConfigurer) (m : vmanager) (name : string) : vmanager :=
  match cfgs m !! name with
  | None => m
  | Some old =>
      if decide (new !! name = Some old) then m
      else
        let m := mkVManager (delete name (cfgs m)) (visitors m) (objs m) (stopCh m) (keeping m) in
        let m := match visitors m !! name with Some i => close_at i m | None => m end in
        mkVManager (cfgs m) (delete name (visitors m)) (objs m) (stopCh m) (keeping m)
  end.
Definition update_add (run : VisitorConfigurer → bool) (m : vmanager) (cfg : VisitorConfigurer) : vmanager :=
  match cfgs m !! vname cfg with
  | Some _ => m
  | None =>
      startVisitor run cfg
        (mkVManager (<[vname cfg := cfg]> (cfgs m)) (visitors m) (objs m) (stopCh m) (keeping m))
  end.
Definition start_keeper (l : list VisitorConfigurer) (m : vmanager) : vmanager :=
  match l, keeping m with _ :: _, KNone => set_keeping KSelect m | _, _ => m end.
Definition UpdateAll (run : VisitorConfigurer → bool) (order : list string) (l : list VisitorConfigurer)
    (m : vmanager) : vmanager :=
  foldl (update_add run) (foldl (update_del (KeyBy l)) (start_keeper l m) order) l.

(** One tick of [keepVisitorsRunning], over the configurations in some order. *)
Definition keep_one (run : VisitorConfigurer → bool) (m : vmanager) (cfg : VisitorConfigurer) : vmanager :=
  match visitors m !! vname cfg with
  | Some _ => m
  | None => startVisitor run cfg m
  end.
Definition keep_tick (run : VisitorConfigurer → bool) (order : list VisitorConfigurer) (m : vmanager) : vmanager :=
  foldl (keep_one run) m order.

(** [TransferConn]: the visitor that gets the connection. *)
Definition TransferConn (name : string) (m : vmanager) : result nat :=
  match visitors m !! name with
  | None => Err ("visitor [" +:+ name +:+ "] not found")
  | Some i => Ok i
  end.
Definition GetVisitorCfg (name : string) (m : vmanager) : option VisitorConfigurer := cfgs m !! name.

Inductive vstep : vmanager → vmanager → Prop :=
| v_update run order l m : order ≡ₚ (map_to_list (cfgs m)).*1 → vstep m (UpdateAll run order l m)
| v_close m : vstep m (Close m)
| v_tick m : keeping m = KSelect → vstep m (set_keeping KTick m)
| v_keep run order m : keeping m = KTick → order ≡ₚ (map_to_list (cfgs m)).*2 →
    vstep m (set_keeping KSelect (keep_tick run order m))
| v_return m : keeping m = KSelect → stopCh m = true → vstep m (set_keeping KReturned m).

(** ** Invariant *)
Record vinv (m : vmanager) : Prop := mkVinv {
  vi_key : ∀ n c, cfgs m !! n = Some c → vname c = n;
  vi_map : ∀ n i, visitors m !! n = Some i →
    ∃ o, objs m !! i = Some o ∧ cfgs m !! n = Some (v_cfg o) ∧ (stopCh m = false → v_closed o = false);
  vi_open : ∀ i o, objs m !! i = Some o → v_closed o = false → visitors m !! vname (v_cfg o) = Some i;
}.

Lemma vinv_start run cfg m : vinv m → cfgs m !! vname cfg = Some cfg → visitors m !! vname cfg = None →
  vinv (startVisitor run cfg m).
Proof.
  intros [H1 H2 H3] Hc Hv. unfold startVisitor. destruct (run cfg); [|done]. split; simpl; [done| |].
  - intros n i. rewrite lookup_insert_Some. intros [[<- <-]|[Hne Hi]].
    + exists (mkVisitor cfg false). by rewrite lookup_app_r, Nat.sub_diag by done.
    + destruct (H2 _ _ Hi) as (o & Ho & ?). exists o. split; [by apply lookup_app_l_Some|done].
  - intros i o. rewrite lookup_snoc_Some. intros [[_ Ho]|[-> <-]] Hcl; [|by rewrite lookup_insert_eq].
    rewrite lookup_insert_ne; [by apply H3|]. intros Heq. rewrite Heq, (H3 _ _ Ho Hcl) in Hv. done.
Qed.

Lemma vinv_add run m cfg : vinv m → vinv (update_add run m cfg).
Proof.
  intros Hinv. pose proof Hinv as [H1 H2 H3]. unfold update_add.
  destruct (cfgs m !! vname cfg) as [c|] eqn:Hc; [done|].
  apply vinv_start; simpl; [|by rewrite lookup_insert_eq|].
  - split; simpl; [|intros n i Hi|done].
    + intros n c. rewrite lookup_insert_Some. intros [[<- <-]|[_ ?]]; [done|by apply H1].
    + destruct (H2 _ _ Hi) as (o & Ho & Hn & ?). exists o. split; [done|]. split; [|done].
      rewrite lookup_insert_ne; [done|]. intros <-. congruence.
  - destruct (visitors m !! vname cfg) eqn:Hv; [|done]. destruct (H2 _ _ Hv) as (o & _ & ? & _). congruence.
Qed.

Lemma vinv_del new m name : vinv m → vinv (update_del new m name).
Proof.
  intros Hinv. pose proof Hinv as [H1 H2 H3]. unfold update_del.
  destruct (cfgs m !! name) as [old|] eqn:Hc; [|done]. destruct (decide _) as [|Hd]; [done|]. cbn [visitors].
  assert (Hmap : ∀ i n, visitors m !! name = Some i → n ≠ name → visitors m !! n ≠ Some i).
  { intros i n Hi Hne Hn. destruct (H2 _ _ Hi) as (o & Ho & Hco & _). destruct (H2 _ _ Hn) as (o' & Ho' & Hco' & _).
    apply H1 in Hco, Hco'. congruence. }
  destruct (visitors m !! name) as [i|] eqn:Hv; simpl.
  - split; simpl.
    + intros n c [_ ?]%lookup_delete_Some. by apply H1.
    + intros n j [Hne Hj]%lookup_delete_Some. destruct (H2 _ _ Hj) as (o & Ho & Hn & Hcl). exists o.
      rewrite list_lookup_alter_ne by (intros ->; by apply (Hmap j n)).
      by rewrite lookup_delete_ne.
    + intros j o Ho Hcl. destruct (decide (i = j)) as [<-|Hne].
      * rewrite list_lookup_alter_eq in Ho. apply fmap_Some in Ho as (o' & _ & ->). done.
      * rewrite list_lookup_alter_ne in Ho by done. pose proof (H3 _ _ Ho Hcl) as Hj.
        rewrite lookup_delete_ne; [done|]. intros Heq. rewrite <-Heq in Hj. congruence.
  - split; simpl.
    + intros n c [_ ?]%lookup_delete_Some. by apply H1.
    + intros n j [Hne Hj]%lookup_delete_Some. destruct (H2 _ _ Hj) as (o & Ho & Hn & Hcl). exists o.
      by rewrite lookup_delete_ne.
    + intros j o Ho Hcl. pose proof (H3 _ _ Ho Hcl) as Hj. rewrite lookup_delete_ne; [done|]. congruence.
Qed.

Lemma vinv_close m : vinv m → vinv (Close m).
Proof.
  intros [H1 H2 H3]. split; simpl; [done| |].
  - intros n i Hi. destruct (H2 _ _ Hi) as (o & Ho & Hn & _). rewrite list_lookup_imap, Ho. simpl.
    eexists. split; [done|]. by destruct (decide _).
  - intros i o. rewrite list_lookup_imap, fmap_Some. intros (o' & Ho & ->). destruct (decide _) as [|Hne]; [done|].
    intros Hcl. by destruct (Hne (H3 _ _ Ho Hcl)).
Qed.

Lemma vinv_keep run order m : vinv m → (∀ c, c ∈ order → cfgs m !! vname c = Some c) →
  vinv (keep_tick run order m) ∧ cfgs (keep_tick run order m) = cfgs m.
Proof.
  unfold keep_tick. revert m. induction order as [|c order IH]; intros m Hinv Hin; simpl; [done|].
  assert (Hc : cfgs (keep_one run m c) = cfgs m).
  { unfold keep_one, startVisitor. destruct (visitors m !! vname c); [done|]. by destruct (run c). }
  destruct (IH (keep_one run m c)) as [Hi He]; [| |split; [done|by rewrite He]].
  - unfold keep_one. destruct (visitors m !! vname c) eqn:Hv; [done|]. apply vinv_start; [done| |done].
    apply Hin. by left.
  - intros c' Hc'. rewrite Hc. apply Hin. by right.
Qed.

Lemma vinv_ext m m' : cfgs m' = cfgs m → visitors m' = visitors m → objs m' = objs m → stopCh m' = stopCh m →
  vinv m → vinv m'.
Proof. intros E1 E2 E3 E4 [H1 H2 H3]. split; rewrite ?E1, ?E2, ?E3, ?E4; done. Qed.

Lemma foldl_inv {A B} (P : B → Prop) (f : B → A → B) l b : (∀ b a, P b → P (f b a)) → P b → P (foldl f b l).
Proof. intros Hf. revert b. induction l; simpl; auto. Qed.

Lemma start_keeper_ext l m : cfgs (start_keeper l m) = cfgs m ∧ visitors (start_keeper l m) = visitors m
  ∧ objs (start_keeper l m) = objs m ∧ stopCh (start_keeper l m) = stopCh m.
Proof. unfold start_keeper. destruct l; [done|]. by destruct (keeping m). Qed.

Lemma vinv_update run order l m : vinv m → vinv (UpdateAll run order l m).
Proof.
  intros Hinv. unfold UpdateAll. apply foldl_inv; [intros; by apply vinv_add|].
  apply foldl_inv; [intros; by apply vinv_del|].
  destruct (start_keeper_ext l m) as (? & ? & ? & ?). by apply (vinv_ext m).
Qed.

Lemma vstep_inv m m' : vstep m m' → vinv m → vinv m'.
Proof.
  intros Hs Hinv. destruct Hs as [run order l m Ho|m|m Hk|run order m Hk Ho|m Hk Hst].
  - by apply vinv_update.
  - by apply vinv_close.
  - by apply (vinv_ext m).
  - apply (vinv_ext (keep_tick run order m)); [done..|]. apply vinv_keep; [done|]. intros c Hc.
    rewrite Ho in Hc. apply list_elem_of_fmap in Hc as ([n c'] & -> & Hm%elem_of_map_to_list). simpl.
    by rewrite (vi_key _ Hinv _ _ Hm).
  - by apply (vinv_ext m).
Qed.

Lemma v_reachable m : rtc vstep NewManager m → vinv m.
Proof.
  assert (H0 : vinv NewManager) by (by split).
  revert H0. generalize NewManager. intros m0 H0 H. induction H; eauto using vstep_inv.
Qed.

(** ** The loops of [UpdateAll] *)
Lemma update_del_lookup new m name n : vinv m →
  cfgs (update_del new m name) !! n =
    (if decide (n = name) then if decide (new !! n = cfgs m !! n) then cfgs m !! n else None else cfgs m !! n)
  ∧ visitors (update_del new m name) !! n =
    (if decide (n = name) then if decide (new !! n = cfgs m !! n) then visitors m !! n else None else visitors m !! n).
Proof.
  intros Hinv. unfold update_del. destruct (decide (n = name)) as [->|Hne].
  - destruct (cfgs m !! name) as [old|] eqn:Hc.
    + destruct (decide (new !! name = Some old)) as [Hd|Hd]; [by rewrite Hc|].
      simpl. destruct (visitors m !! name); simpl; by rewrite !lookup_delete_eq.
    + assert (Hv : visitors m !! name = None).
      { destruct (visitors m !! name) eqn:Hv; [|done]. destruct (vi_map _ Hinv _ _ Hv) as (? & _ & ? & _). congruence. }
      rewrite Hc, Hv. by destruct (decide _).
  - destruct (cfgs m !! name) as [old|]; [|done]. destruct (decide _); [done|].
    simpl. destruct (visitors m !! name); simpl; by rewrite !lookup_delete_ne by done.
Qed.

Lemma update_del_closed new m name i o : objs m !! i = Some o →
  ∃ o', objs (update_del new m name) !! i = Some o' ∧ v_cfg o' = v_cfg o ∧ (v_closed o = true → v_closed o' = true).
Proof.
  intros Ho. unfold update_del. destruct (cfgs m !! name); [|by exists o]. destruct (decide _); [by exists o|]. simpl.
  destruct (visitors m !! name) as [j|]; simpl; [|by exists o]. destruct (decide (j = i)) as [->|].
  - exists (close_visitor o). by rewrite list_lookup_alter_eq, Ho.
  - exists o. by rewrite list_lookup_alter_ne.
Qed.

Lemma del_loop_spec new order m : vinv m →
  let m1 := foldl (update_del new) m order in
  vinv m1 ∧ stopCh m1 = stopCh m
  ∧ (∀ n, cfgs m1 !! n =
      (if decide (n ∈ order) then if decide (new !! n = cfgs m !! n) then cfgs m !! n else None else cfgs m !! n)
    ∧ visitors m1 !! n =
      (if decide (n ∈ order) then if decide (new !! n = cfgs m !! n) then visitors m !! n else None else visitors m !! n))
  ∧ ∀ i o, objs m !! i = Some o → ∃ o', objs m1 !! i = Some o' ∧ v_cfg o' = v_cfg o.
Proof.
  revert m. induction order as [|name order IH]; intros m Hinv; simpl.
  { split_and!; [done|done| |eauto]. intros n. by destruct (decide (n ∈ [])) as [?%not_elem_of_nil|]. }
  destruct (IH _ (vinv_del new m name Hinv)) as (Hi & Hst & Hl & Ho). split_and!; [done| | |].
  - rewrite Hst. unfold update_del. destruct (cfgs m !! name); [|done]. destruct (decide _); [done|].
    simpl. by destruct (visitors m !! name).
  - intros n. destruct (Hl n) as [-> ->]. destruct (update_del_lookup new m name n Hinv) as [-> ->].
    destruct (decide (n ∈ name :: order)) as [Hn|Hn]; [apply elem_of_cons in Hn|apply not_elem_of_cons in Hn];
      repeat case_decide; try done; try tauto; congruence.
  - intros i o Hi0. destruct (update_del_closed new m name i o Hi0) as (o1 & Ho1 & <- & _).
    destruct (Ho _ _ Ho1) as (o2 & ? & ?). exists o2. split; [done|congruence].
Qed.

Lemma add_loop_spec run l m : vinv m → NoDup (vname <$> l) →
  let m2 := foldl (update_add run) m l in
  vinv m2 ∧ (∀ n, n ∉ vname <$> l → cfgs m2 !! n = cfgs m !! n ∧ visitors m2 !! n = visitors m !! n)
  ∧ (∀ c, c ∈ l → match cfgs m !! vname c with
      | Some c0 => cfgs m2 !! vname c = Some c0 ∧ visitors m2 !! vname c = visitors m !! vname c
      | None => cfgs m2 !! vname c = Some c ∧ (is_Some (visitors m2 !! vname c) ↔ run c = true)
      end)
  ∧ ∀ i o, objs m !! i = Some o → objs m2 !! i = Some o.
Proof.
  revert m. induction l as [|c l IH]; intros m Hinv Hnd; simpl.
  { split_and!; [done..| |done]. by intros c ?%not_elem_of_nil. }
  apply NoDup_cons in Hnd as [Hc Hnd]. destruct (IH _ (vinv_add run m c Hinv) Hnd) as (Hi & Hout & Hin & Ho).
  assert (Hne : ∀ n, n ≠ vname c → cfgs (update_add run m c) !! n = cfgs m !! n
    ∧ visitors (update_add run m c) !! n = visitors m !! n).
  { intros n Hn. unfold update_add, startVisitor. destruct (cfgs m !! vname c); [done|].
    destruct (run c); simpl; by rewrite !lookup_insert_ne by done. }
  split_and!; [done| | |].
  - intros n [? Hn]%not_elem_of_cons. destruct (Hout n Hn) as [-> ->]. by apply Hne.
  - intros c' [->|Hc']%elem_of_cons.
    + destruct (Hout _ Hc) as [-> ->]. unfold update_add, startVisitor.
      destruct (cfgs m !! vname c) as [c0|] eqn:Hc0; [done|].
      assert (Hv : visitors m !! vname c = None).
      { destruct (visitors m !! vname c) eqn:Hv; [|done]. destruct (vi_map _ Hinv _ _ Hv) as (? & _ & ? & _). congruence. }
      destruct (run c); simpl; rewrite lookup_insert_eq; split; [done| |done|].
      * by rewrite lookup_insert_eq.
      * rewrite Hv. split; [by intros []|done].
    + specialize (Hin c' Hc'). assert (Hn : vname c' ≠ vname c).
      { intros Heq. apply Hc. rewrite <-Heq. by apply list_elem_of_fmap_2. }
      destruct (Hne _ Hn) as [E1 E2]. by rewrite E1, E2 in Hin.
  - intros i o Hi0. apply Ho. unfold update_add, startVisitor. destruct (cfgs m !! vname c); [done|].
    destruct (run c); simpl; [|done]. by apply lookup_app_l_Some.
Qed.

Lemma KeyBy_spec l : NoDup (vname <$> l) → ∀ n c, KeyBy l !! n = Some c ↔ c ∈ l ∧ vname c = n.
Proof.
  intros Hnd. unfold KeyBy.
  assert (Hgen : ∀ m : gmap string VisitorConfigurer, ∀ n c,
    foldl (λ m c, <[vname c := c]> m) m l !! n = Some c ↔ c ∈ l ∧ vname c = n ∨ n ∉ vname <$> l ∧ m !! n = Some c).
  { induction l as [|d l IH]; intros m n c; simpl.
    { rewrite elem_of_nil. split; [right; split; [apply not_elem_of_nil|done]|intros [[[] _]|[_ ?]]; done]. }
    apply NoDup_cons in Hnd as [Hd Hnd]. rewrite (IH Hnd), not_elem_of_cons, elem_of_cons, lookup_insert_Some. split.
    - intros [[? ?]|[Hn [[<- <-]|[? ?]]]]; [tauto|left; by split; [left|]|right; by auto].
    - intros [[[->|?] <-]|[[? ?] ?]]; [right; split; [done|by left]|tauto|right; split; [done|]; right; by auto]. }
  intros n c. rewrite Hgen, lookup_empty. naive_solver.
Qed.

(** ** Properties *)

(** The visitors are those configured.  For configurations with distinct names and
    whichever ports can be bound, [UpdateAll] leaves exactly the given configurations;
    one that did not change keeps its running visitor, every other one has a visitor
    exactly when it could be started; every visitor of the map has its configuration in
    force, and no visitor is open unless the map has it: a replaced or dropped one has
    been closed. *)
Theorem visitors_match_configurations (run : VisitorConfigurer → bool) (order : list string)
    (l : list VisitorConfigurer) (m : vmanager) :
  rtc vstep NewManager m → order ≡ₚ (map_to_list (cfgs m)).*1 → NoDup (vname <$> l) →
  let m' := UpdateAll run order l m in
  (∀ n c, cfgs m' !! n = Some c ↔ c ∈ l ∧ vname c = n)
  ∧ (∀ c, c ∈ l → if decide (cfgs m !! vname c = Some c) then visitors m' !! vname c = visitors m !! vname c
                  else is_Some (visitors m' !! vname c) ↔ run c = true)
  ∧ (∀ n i, visitors m' !! n = Some i → ∃ o, objs m' !! i = Some o ∧ cfgs m' !! n = Some (v_cfg o))
  ∧ (∀ i o, objs m' !! i = Some o → v_closed o = false → visitors m' !! vname (v_cfg o) = Some i).
Proof.
  intros Hinv%v_reachable Hord Hnd. unfold UpdateAll.
  destruct (start_keeper_ext l m) as (E1 & E2 & E3 & E4).
  assert (Hinv0 : vinv (start_keeper l m)) by (by apply (vinv_ext m)).
  destruct (del_loop_spec (KeyBy l) order _ Hinv0) as (Hinv1 & _ & Hdel & _). rewrite E1, E2 in Hdel.
  set (m1 := foldl (update_del (KeyBy l)) (start_keeper l m) order) in *.
  destruct (add_loop_spec run l m1 Hinv1 Hnd) as (Hinv2 & Hout & Hin & _).
  assert (Hkeys : ∀ n, n ∈ order ↔ is_Some (cfgs m !! n)).
  { intros n. rewrite Hord, list_elem_of_fmap. split.
    - intros ([n' i] & -> & Hm%elem_of_map_to_list). by exists i.
    - intros [i Hi]. exists (n, i). by rewrite elem_of_map_to_list. }
  assert (Hc1 : ∀ n, cfgs m1 !! n = if decide (KeyBy l !! n = cfgs m !! n) then cfgs m !! n else None).
  { intros n. destruct (Hdel n) as [-> _]. destruct (decide (n ∈ order)) as [|Hn]; [done|].
    destruct (cfgs m !! n) eqn:E; [destruct Hn; apply Hkeys; by eexists|]. by destruct (decide _). }
  split_and!.
  - intros n c. split.
    + intros Hn. destruct (decide (n ∈ vname <$> l)) as [(d & -> & Hd)%list_elem_of_fmap|Hni].
      * specialize (Hin d Hd). rewrite Hc1 in Hin. pose proof (proj2 (KeyBy_spec l Hnd _ _) (conj Hd eq_refl)) as Hk.
        rewrite Hk in Hin. destruct (decide (Some d = cfgs m !! vname d)) as [He|He]; [rewrite <-He in Hin|];
          destruct Hin as [Hin _]; rewrite Hin in Hn; by simplify_eq.
      * destruct (Hout n Hni) as [E _]. rewrite E, Hc1 in Hn. destruct (decide _) as [He|]; [|done].
        rewrite Hn in He. apply (KeyBy_spec l Hnd) in He as [? <-]. destruct Hni. by apply list_elem_of_fmap_2.
    + intros [Hc <-]. specialize (Hin c Hc). rewrite Hc1 in Hin.
      rewrite (proj2 (KeyBy_spec l Hnd _ _) (conj Hc eq_refl)) in Hin.
      destruct (decide (Some c = cfgs m !! vname c)) as [He|He]; [rewrite <-He in Hin|]; apply Hin.
  - intros c Hc. specialize (Hin c Hc). rewrite Hc1 in Hin.
    pose proof (proj2 (KeyBy_spec l Hnd _ _) (conj Hc eq_refl)) as Hk. rewrite Hk in Hin.
    destruct (decide (cfgs m !! vname c = Some c)) as [He|He].
    + rewrite decide_True in Hin by done. rewrite He in Hin. destruct Hin as [_ ->].
      destruct (Hdel (vname c)) as [_ ->]. rewrite Hk, He, decide_True by (apply Hkeys; by eexists). by rewrite decide_True.
    + rewrite decide_False in Hin by congruence. apply Hin.
  - intros n i Hi. destruct (vi_map _ Hinv2 _ _ Hi) as (o & ? & ? & _). by exists o.
  - apply (vi_open _ Hinv2).
Qed.

Lemma keep_one_lookup run m c n : is_Some (visitors (keep_one run m c) !! n) ↔
  is_Some (visitors m !! n) ∨ n = vname c ∧ run c = true.
Proof.
  unfold keep_one, startVisitor. destruct (visitors m !! vname c) as [i|] eqn:Hv.
  - split; [by left|]. intros [?|[-> _]]; [done|]. by rewrite Hv.
  - destruct (run c); simpl; [|naive_solver]. destruct (decide (n = vname c)) as [->|Hne].
    + rewrite lookup_insert_eq. naive_solver.
    + rewrite lookup_insert_ne by done. naive_solver.
Qed.

(** A visitor whose port was busy is started later.  A tick of the keeper leaves the
    configurations and the running visitors as they are and starts every other visitor
    that can be started, in whatever order the map is visited. *)
Theorem keeper_starts_missing (run : VisitorConfigurer → bool) (order : list VisitorConfigurer) (m : vmanager) :
  rtc vstep NewManager m → order ≡ₚ (map_to_list (cfgs m)).*2 →
  let m' := keep_tick run order m in
  cfgs m' = cfgs m
  ∧ (∀ n i, visitors m !! n = Some i → visitors m' !! n = Some i)
  ∧ ∀ n c, cfgs m !! n = Some c → is_Some (visitors m' !! n) ↔ is_Some (visitors m !! n) ∨ run c = true.
Proof.
  intros Hinv%v_reachable Hord.
  assert (Hin : ∀ c, c ∈ order ↔ cfgs m !! vname c = Some c).
  { intros c. rewrite Hord, list_elem_of_fmap. split.
    - intros ([n c'] & -> & Hm%elem_of_map_to_list). simpl. by rewrite (vi_key _ Hinv _ _ Hm).
    - intros Hc. exists (vname c, c). by rewrite elem_of_map_to_list. }
  destruct (vinv_keep run order m Hinv) as [_ Hc]; [intros c ?; by apply Hin|]. split; [done|].
  unfold keep_tick. split.
  - intros n i Hi. apply (foldl_inv (λ m', visitors m' !! n = Some i)); [|done].
    intros m' c Hm'. unfold keep_one, startVisitor. destruct (visitors m' !! vname c) eqn:Hv; [done|].
    destruct (run c); [|done]. simpl. rewrite lookup_insert_ne; [done|]. congruence.
  - intros n c Hn. pose proof (vi_key _ Hinv _ _ Hn) as Hk.
    assert (Hgen : ∀ l m0, is_Some (visitors (foldl (keep_one run) m0 l) !! n) ↔
      is_Some (visitors m0 !! n) ∨ ∃ c', c' ∈ l ∧ n = vname c' ∧ run c' = true).
    { induction l as [|c' l IH]; intros m0; simpl.
      - split; [by left|]. intros [?|(? & []%not_elem_of_nil & _)]; done.
      - rewrite IH, keep_one_lookup. setoid_rewrite elem_of_cons. naive_solver. }
    rewrite Hgen. split; intros [?|Hr]; [by left| |by left|].
    + destruct Hr as (c' & Hc' & Hnc & Hr). right. apply Hin in Hc'. rewrite <-Hnc in Hc'. congruence.
    + right. exists c. split_and!; [|done|done]. apply Hin. by rewrite Hk.
Qed.

(** ** Runs *)
Definition demo_v (name : string) : VisitorConfigurer :=
  VC_XTCP (mkXTCPVisitorConfig (mkVisitorBaseConfig name "xtcp" None (mkVisitorTransport false false) "k"
    "" "ssh" "127.0.0.1" 9000) "quic" false 8 90 "" 1000 None).
Definition busy (_ : VisitorConfigurer) : bool := false.
Definition free (_ : VisitorConfigurer) : bool := true.
Definition demo_vm1 : vmanager := UpdateAll busy [] [demo_v "a"] NewManager.

Lemma demo_vm1_reach : rtc vstep NewManager demo_vm1.
Proof. eapply rtc_l; [apply (v_update busy [] [demo_v "a"] NewManager); reflexivity|]. apply rtc_refl. Qed.

Lemma visitors_match_configurations_witness :
  let m' := UpdateAll free ["a"] [demo_v "a"; demo_v "b"] demo_vm1 in
  is_Some (visitors m' !! "b") ∧ visitors m' !! "a" = None.
Proof.
  destruct (visitors_match_configurations free ["a"] [demo_v "a"; demo_v "b"] demo_vm1 demo_vm1_reach)
    as (_ & Hv & _); [reflexivity| |].
  - apply (bool_decide_unpack _). vm_compute. done.
  - split.
    + apply (Hv (demo_v "b")); [right; left|reflexivity].
    + exact (Hv (demo_v "a") (list_elem_of_here _ _)).
Defined.

Lemma keeper_starts_missing_witness : is_Some (visitors (keep_tick free [demo_v "a"] demo_vm1) !! "a").
Proof.
  apply (keeper_starts_missing free [demo_v "a"] demo_vm1 demo_vm1_reach) with (c := demo_v "a");
    [reflexivity|reflexivity|right; reflexivity].
Defined.

(** The keeper can win a tick against the closed channel: after [Close] it starts the
    visitors that are missing, which nobody closes any more. *)
Lemma visitor_started_after_close : ∃ m o, rtc vstep NewManager m ∧ stopCh m = true ∧ keeping m = KReturned
  ∧ objs m !! 0%nat = Some o ∧ v_closed o = false.
Proof.
  set (m2 := set_keeping KTick (Close demo_vm1)).
  set (m3 := set_keeping KSelect (keep_tick free [demo_v "a"] m2)).
  exists (set_keeping KReturned m3), (mkVisitor (demo_v "a") false). split.
  - etrans; [apply demo_vm1_reach|]. eapply rtc_l; [apply v_close|].
    eapply rtc_l; [apply (v_tick (Close demo_vm1)); reflexivity|].
    eapply rtc_l; [apply (v_keep free [demo_v "a"] m2); reflexivity|].
    eapply rtc_l; [apply (v_return m3); reflexivity|]. apply rtc_refl.
  - split_and!; reflexivity.
Qed.
