(* ===== verification/ConfigSource.v ===== *)
(** * Configuration sources: [pkg/config/source]

    Sources of proxies and visitors, the aggregator that merges them, and the store that
    keeps its entries in a file.  The source's generic helpers over [T] are definitions
    over a class [Entry T] with an instance for proxies and one for visitors.  The file
    system is a map from paths to contents; a save is the sequence of file systems its
    system calls leave, under a script of failures, so that a crash between two calls is
    a state of that sequence.  JSON is a class, with its instance in
    [StoreJson]; the order in which the runtime visits a
    map is an argument, or a function of the class. *)
From S2P Require Import Prelude GoStd Msg ConfigV1.
From stdpp Require Import gmap list strings sorting.
Local Open Scope Z_scope.

(** ** Entries: what proxies and visitors have in common *)
Class Entry (T : Type) := {
  entry_name : T → string;
  entry_enabled : T → option bool;
  entry_clone : T → T;
  entry_kind : string;
}.
#[export] Instance proxy_entry : Entry ProxyConfigurer :=
  {| entry_name c := pc_Name (GetBaseConfig c); entry_enabled c := pc_Enabled (GetBaseConfig c);
     entry_clone := Proxy_Clone; entry_kind := "proxy" |}.
#[export] Instance visitor_entry : Entry VisitorConfigurer :=
  {| entry_name c := vb_Name (Visitor_GetBaseConfig c); entry_enabled c := vb_Enabled (Visitor_GetBaseConfig c);
     entry_clone := Visitor_Clone; entry_kind := "visitor" |}.
(** Cloning keeps the name. *)
Class EntryLaws (T : Type) `{Entry T} := { clone_name : ∀ x, entry_name (entry_clone x) = entry_name x }.
#[export] Instance proxy_laws : EntryLaws ProxyConfigurer.
Proof. split. by intros [c]. Qed.
#[export] Instance visitor_laws : EntryLaws VisitorConfigurer.
Proof. split. by intros [c]. Qed.

Section entries.
Context {T : Type} `{Entry T}.

(** [validateProxyName] and [validateVisitorName]; [None] is a nil interface. *)
Definition validate_name (x : option T) : result string :=
  match x with
  | None => Err (entry_kind +:+ " cannot be nil")
  | Some x => if decide (entry_name x = "") then Err (entry_kind +:+ " name cannot be empty") else Ok (entry_name x)
  end.
(** One loop of [ReplaceAll]. *)
Fixpoint replace_all (l : list (option T)) (m : gmap string T) : result (gmap string T) :=
  match l with
  | [] => Ok m
  | x :: l =>
      validate_name x ≫= λ name,
      match x with Some x => replace_all l (<[name := x]> m) | None => Ok m end
  end.
Definition is_enabled (x : T) : bool := match entry_enabled x with Some false => false | _ => true end.
(** One loop of [baseSource.Load] and of [cloneConfigurers], over the values in some order. *)
Definition load_entries (values : list T) : list T := entry_clone <$> filter (λ x, is_enabled x = true) values.
(** The loop of [Aggregator.Load] over what one source gave. *)
Definition merge_entries (m : gmap string T) (l : list T) : gmap string T :=
  foldl (λ m x, <[entry_name x := x]> m) m l.
Definition by_name (x y : T) : Prop := String.le (entry_name x) (entry_name y).
#[export] Instance by_name_dec x y : Decision (by_name x y) := _.
(** [slices.SortedFunc(maps.Values(m), ...)]. *)
Definition sorted_values (m : gmap string T) : list T := merge_sort by_name (map_to_list m).*2.
End entries.

(** ** Sources and the aggregator *)
Record baseSource := mkBase {
  b_proxies : gmap string ProxyConfigurer;
  b_visitors : gmap string VisitorConfigurer;
}.
Definition newBaseSource : baseSource := mkBase ∅ ∅.
Definition ReplaceAll (ps : list (option ProxyConfigurer)) (vs : list (option VisitorConfigurer)) (s : baseSource)
    : baseSource * result unit :=
  match replace_all ps ∅ ≫= (λ mp, replace_all vs ∅ ≫= λ mv, Ok (mkBase mp mv)) with
  | Ok s => (s, Ok tt)
  | Err e => (s, Err e)
  end.

(** [Aggregator.Load]; the lists are the values of each source in some order. *)
Definition Load (config : list ProxyConfigurer * list VisitorConfigurer)
    (store : option (list ProxyConfigurer * list VisitorConfigurer)) : list ProxyConfigurer * list VisitorConfigurer :=
  let srcs := config :: option_list store in
  (sorted_values (foldl merge_entries ∅ ((λ s, load_entries s.1) <$> srcs)),
   sorted_values (foldl merge_entries ∅ ((λ s, load_entries s.2) <$> srcs))).

(** ** The store *)
Record StoreSource := mkStore { st_path : string; st_base : baseSource }.
Definition fsys := gmap string (list byte).
Definition tmp_path (s : StoreSource) : string := st_path s +:+ ".tmp".

(** JSON of a store file, whose entries are decoded one by one; and the runtime's order
    of visiting maps. *)
Class StoreCodec := {
  MarshalStore : list ProxyConfigurer → list VisitorConfigurer → result (list byte);
  UnmarshalStore : list byte → result (list (list byte) * list (list byte));
  DecodeProxy : list byte → result ProxyConfigurer;
  DecodeVisitor : list byte → result VisitorConfigurer;
  visit : ∀ {T}, gmap string T → list T;
}.

(** Which system calls of a save fail, with their errors; a failing write leaves a
    prefix of the data. *)
Record io := mkIO {
  io_mkdir : option string;
  io_open : option string;
  io_write : option (nat * string);
  io_sync : option string;
  io_close : option string;
  io_rename : option string;
  io_remove : bool;  (* removing the temporary file fails *)
}.

Section store.
Context `{StoreCodec}.

(** The loops of [loadFromFileUnlocked]. *)
Fixpoint load_list {T} `{Entry T} (decode : list byte → result T) (i : Z) (l : list (list byte))
    (m : gmap string T) : result (gmap string T) :=
  match l with
  | [] => Ok m
  | raw :: l =>
      wrap_err ("failed to decode " +:+ entry_kind +:+ " at index " +:+ Itoa i +:+ ": ") (decode raw) ≫= λ x,
      if decide (entry_name x = "") then Err (entry_kind +:+ " name cannot be empty")
      else load_list decode (i + 1) l (<[entry_name x := x]> m)
  end.
Definition load_data (data : list byte) : result baseSource :=
  wrap_err "failed to parse JSON: " (UnmarshalStore data) ≫= λ '(ps, vs),
  load_list DecodeProxy 0 ps ∅ ≫= λ mp, load_list DecodeVisitor 0 vs ∅ ≫= λ mv, Ok (mkBase mp mv).

(** [NewStoreSource]: a missing file is an empty store. *)
Definition NewStoreSource (path : string) (fs : fsys) : result StoreSource :=
  if decide (path = "") then Err "path is required"
  else match fs !! path with
       | None => Ok (mkStore path newBaseSource)
       | Some data => wrap_err "failed to load existing data: " (load_data data) ≫= λ b, Ok (mkStore path b)
       end.

(** [saveToFileUnlocked]: the file systems after each call that changes one. *)
Definition saveToFile (i : io) (s : StoreSource) (fs : fsys) : list fsys * result unit :=
  match MarshalStore (visit (b_proxies (st_base s))) (visit (b_visitors (st_base s))) with
  | Err e => ([], Err ("failed to marshal JSON: " +:+ e))
  | Ok data =>
      match io_mkdir i with
      | Some e => ([], Err ("failed to create directory: " +:+ e))
      | None =>
      match io_open i with
      | Some e => ([], Err ("failed to create temp file: " +:+ e))
      | None =>
          let tmp := tmp_path s in
          let remove f := if io_remove i then [] else [delete tmp f] in
          let fs1 := <[tmp := []]> fs in
          match io_write i with
          | Some (n, e) =>
              (let f := <[tmp := take n data]> fs in fs1 :: f :: remove f, Err ("failed to write temp file: " +:+ e))
          | None =>
              let fs2 := <[tmp := data]> fs in
              match io_sync i with
              | Some e => (fs1 :: fs2 :: remove fs2, Err ("failed to sync temp file: " +:+ e))
              | None =>
              match io_close i with
              | Some e => (fs1 :: fs2 :: remove fs2, Err ("failed to close temp file: " +:+ e))
              | None =>
              match io_rename i with
              | Some e => (fs1 :: fs2 :: remove fs2, Err ("failed to rename temp file: " +:+ e))
              | None => ([fs1; fs2; <[st_path s := data]> (delete tmp fs)], Ok tt)
              end end end
          end
      end end
  end.
Definition after (fs : fsys) (states : list fsys) : fsys := default fs (last states).

(** [persistOrRollbackUnlocked]: the store, the file systems, the result. *)
Definition persistOrRollback (i : io) (rollback : StoreSource → StoreSource) (s : StoreSource) (fs : fsys)
    : StoreSource * list fsys * result unit :=
  match saveToFile i s fs with
  | (t, Ok _) => (s, t, Ok tt)
  | (t, Err e) => (rollback s, t, Err ("failed to persist: " +:+ e))
  end.

(** The map of one kind of entries: [proxyStoreEntries], [visitorStoreEntries]. *)
Class StoreMap (T : Type) := {
  entriesFn : baseSource → gmap string T;
  set_entries : gmap string T → baseSource → baseSource;
}.
#[export] Instance proxy_map : StoreMap ProxyConfigurer :=
  {| entriesFn := b_proxies; set_entries m b := mkBase m (b_visitors b) |}.
#[export] Instance visitor_map : StoreMap VisitorConfigurer :=
  {| entriesFn := b_visitors; set_entries m b := mkBase (b_proxies b) m |}.

Section ops.
Context {T : Type} `{Entry T} `{StoreMap T}.
Definition put_entries (m : gmap string T) (s : StoreSource) : StoreSource :=
  mkStore (st_path s) (set_entries m (st_base s)).
Definition entries_of (s : StoreSource) : gmap string T := entriesFn (st_base s).
Definition exists_error (name : string) : string := "already exists: " +:+ entry_kind +:+ " " +:+ squoted name.
Definition missing_error (name : string) : string := "not found: " +:+ entry_kind +:+ " " +:+ squoted name.

Definition addStoreEntry (i : io) (name : string) (x : T) (s : StoreSource) (fs : fsys) : StoreSource * list fsys * result unit :=
  match entries_of s !! name with
  | Some _ => (s, [], Err (exists_error name))
  | None =>
      persistOrRollback i (λ s, put_entries (delete name (entries_of s)) s)
        (put_entries (<[name := x]> (entries_of s)) s) fs
  end.
Definition updateStoreEntry (i : io) (name : string) (x : T) (s : StoreSource) (fs : fsys) : StoreSource * list fsys * result unit :=
  match entries_of s !! name with
  | None => (s, [], Err (missing_error name))
  | Some old =>
      persistOrRollback i (λ s, put_entries (<[name := old]> (entries_of s)) s)
        (put_entries (<[name := x]> (entries_of s)) s) fs
  end.
Definition removeStoreEntry (i : io) (name : string) (s : StoreSource) (fs : fsys) : StoreSource * list fsys * result unit :=
  if decide (name = "") then (s, [], Err (entry_kind +:+ " name cannot be empty"))
  else
    match entries_of s !! name with
    | None => (s, [], Err (missing_error name))
    | Some old =>
        persistOrRollback i (λ s, put_entries (<[name := old]> (entries_of s)) s)
          (put_entries (delete name (entries_of s)) s) fs
    end.

(** [AddProxy], [AddVisitor] and so on. *)
Inductive op : Type := OAdd (x : option T) | OUpdate (x : option T) | ORemove (name : string).
Definition run_op (o : op) (i : io) (s : StoreSource) (fs : fsys) : StoreSource * list fsys * result unit :=
  let named x (k : string → T → StoreSource * list fsys * result unit) :=
    match validate_name x, x with
    | Ok name, Some x => k name x
    | Err e, _ => (s, [], Err e)
    | _, None => (s, [], Ok tt)
    end in
  match o with
  | OAdd x => named x (λ name x, addStoreEntry i name x s fs)
  | OUpdate x => named x (λ name x, updateStoreEntry i name x s fs)
  | ORemove name => removeStoreEntry i name s fs
  end.
End ops.
End store.
Arguments op : clear implicits.

(** ** Maps keyed by name *)
Section keyed.
Context {T : Type} `{EntryLaws T}.

Definition keyed (m : gmap string T) : Prop := map_Forall (λ k x, entry_name x = k ∧ k ≠ "") m.
Definition values (m : gmap string T) : list T := (map_to_list m).*2.
(** What a source contributes, and what the store over the configuration gives. *)
Definition live (x : T) : option T := if is_enabled x then Some (entry_clone x) else None.
Definition effective (config store : gmap string T) : gmap string T := omap live store ∪ omap live config.

Lemma keyed_insert m x : keyed m → entry_name x ≠ "" → keyed (<[entry_name x := x]> m).
Proof. intros Hm Hx. by apply map_Forall_insert_2. Qed.

Lemma keyed_delete m k : keyed m → keyed (delete k m).
Proof. apply map_Forall_delete. Qed.

Lemma elem_of_values m x : keyed m → x ∈ values m ↔ m !! entry_name x = Some x.
Proof.
  intros Hm. unfold values. rewrite list_elem_of_fmap. split.
  - intros ([k y] & -> & Hky%elem_of_map_to_list). simpl. by destruct (Hm k y Hky) as [-> _].
  - intros Hx. exists (entry_name x, x). by rewrite elem_of_map_to_list.
Qed.

Lemma values_nodup m : keyed m → NoDup (entry_name <$> values m).
Proof.
  intros Hm. unfold values. rewrite <-list_fmap_compose.
  rewrite (list_fmap_ext _ fst); [apply NoDup_fst_map_to_list|].
  intros i [k x] Hi. by apply (Hm k x), elem_of_map_to_list, list_elem_of_lookup_2 with i.
Qed.

(** Merging values keyed by their names. *)
Lemma merge_lookup_ne l m k : k ∉ entry_name <$> l → merge_entries m l !! k = m !! k.
Proof.
  revert m. induction l as [|x l IH]; intros m Hk; [done|]. cbn [fmap list_fmap] in Hk.
  apply not_elem_of_cons in Hk as [Hx Hk]. change (merge_entries (<[entry_name x := x]> m) l !! k = m !! k).
  rewrite IH by done. by rewrite lookup_insert_ne.
Qed.

Lemma merge_lookup l m x : NoDup (entry_name <$> l) → x ∈ l → merge_entries m l !! entry_name x = Some x.
Proof.
  revert m. induction l as [|y l IH]; intros m Hnd Hx; [by apply not_elem_of_nil in Hx|].
  cbn [fmap list_fmap] in Hnd. apply NoDup_cons in Hnd as [Hy Hnd].
  change (merge_entries (<[entry_name y := y]> m) l !! entry_name x = Some x).
  apply elem_of_cons in Hx as [->|Hx]; [|by apply IH].
  rewrite merge_lookup_ne by done. apply lookup_insert_eq.
Qed.

Lemma merge_values m l : keyed m → l ≡ₚ values m → merge_entries ∅ l = m.
Proof.
  intros Hm Hl. pose proof (values_nodup m Hm) as Hnd. rewrite <-Hl in Hnd.
  apply map_eq. intros k. destruct (decide (k ∈ entry_name <$> l)) as [Hk|Hk].
  - apply list_elem_of_fmap in Hk as (x & -> & Hx). rewrite (merge_lookup l _ x) by done.
    rewrite Hl in Hx. by apply elem_of_values in Hx.
  - rewrite merge_lookup_ne by done. rewrite lookup_empty. symmetry. apply eq_None_not_Some.
    intros [x Hx]. destruct (Hm k x Hx) as [<- _]. apply Hk. rewrite Hl.
    apply list_elem_of_fmap_2. by apply elem_of_values.
Qed.

Lemma load_entries_nodup m l : keyed m → l ≡ₚ values m → NoDup (entry_name <$> load_entries l).
Proof.
  intros Hm Hl. unfold load_entries. rewrite <-list_fmap_compose.
  rewrite (list_fmap_ext (entry_name ∘ entry_clone) entry_name) by (intros ???; apply clone_name).
  pose proof (values_nodup m Hm) as Hnd. rewrite <-Hl in Hnd.
  clear Hl Hm. induction l as [|x l IH]; [done|]. cbn [fmap list_fmap] in Hnd.
  apply NoDup_cons in Hnd as [Hx Hnd]. rewrite filter_cons. case_decide; [|by apply IH].
  cbn [fmap list_fmap]. apply NoDup_cons. split; [|by apply IH]. contradict Hx.
  apply list_elem_of_fmap in Hx as (y & -> & [_ Hy]%list_elem_of_filter). by apply list_elem_of_fmap_2.
Qed.

(** What one source adds to the maps of [Aggregator.Load]. *)
Lemma merge_loaded m0 m l : keyed m → l ≡ₚ values m → merge_entries m0 (load_entries l) = omap live m ∪ m0.
Proof.
  intros Hm Hl. pose proof (load_entries_nodup m l Hm Hl) as Hnd.
  assert (Hmem : ∀ y, y ∈ load_entries l ↔ ∃ x, m !! entry_name y = Some x ∧ live x = Some y).
  { intros y. unfold load_entries. rewrite list_elem_of_fmap. split.
    - intros (x & -> & [He Hx]%list_elem_of_filter). rewrite Hl in Hx. exists x.
      rewrite clone_name. split; [by apply elem_of_values|]. unfold live. by rewrite He.
    - intros (x & Hx & Hy). unfold live in Hy. destruct (is_enabled x) eqn:He; [|done]. injection Hy as <-.
      exists x. split; [done|]. apply list_elem_of_filter. split; [done|]. rewrite Hl.
      apply elem_of_values; [done|]. by rewrite clone_name in Hx. }
  apply map_eq. intros k. rewrite lookup_union, lookup_omap.
  destruct (decide (k ∈ entry_name <$> load_entries l)) as [Hk|Hk].
  - apply list_elem_of_fmap in Hk as (y & -> & Hy). rewrite (merge_lookup _ _ y) by done.
    apply Hmem in Hy as (x & -> & Hy). simpl. rewrite Hy. by destruct (m0 !! _).
  - rewrite merge_lookup_ne by done. replace (m !! k ≫= live) with (@None T); [by destruct (m0 !! k)|].
    destruct (m !! k) as [x|] eqn:Hx; [|done]. destruct (live x) as [y|] eqn:Hy; [|by cbn; rewrite Hy].
    destruct Hk. assert (entry_name y = k) as Hyk.
    { destruct (Hm k x Hx) as [<- _]. unfold live in Hy. destruct (is_enabled x); [|done].
      injection Hy as <-. apply clone_name. }
    rewrite <-Hyk. apply list_elem_of_fmap_2, Hmem. exists x. by rewrite Hyk.
Qed.

Lemma keyed_effective config store : keyed config → keyed store → keyed (effective config store).
Proof.
  assert (Hone : ∀ m, keyed m → keyed (omap live m)).
  { intros m Hm k y Hy. rewrite lookup_omap in Hy. destruct (m !! k) as [x|] eqn:Hx; [|done].
    cbn in Hy. unfold live in Hy. destruct (is_enabled x); [|done]. injection Hy as <-.
    rewrite clone_name. by apply Hm. }
  intros Hc Hs. apply map_Forall_union_2; by apply Hone.
Qed.

(** The sort: names are distinct, so the order of the values does not matter. *)
#[local] Instance by_name_trans : Transitive (@by_name T _).
Proof. intros x y z. unfold by_name. apply (transitivity (R:=String.le)). Qed.
#[local] Instance by_name_total : Total (@by_name T _).
Proof. intros x y. apply String.le_total. Qed.

Lemma sorted_values_unique m l : keyed m →
  l = sorted_values m ↔ StronglySorted by_name l ∧ l ≡ₚ values m.
Proof.
  intros Hm. assert (Hs : StronglySorted by_name (sorted_values m) ∧ sorted_values m ≡ₚ values m).
  { split; [apply StronglySorted_merge_sort; apply _|apply merge_sort_Permutation]. }
  split; [by intros ->|]. destruct Hs as [Hs1 Hs2]. intros [Hl1 Hl2].
  apply (StronglySorted_unique_strong by_name); [|done|done|by rewrite Hl2, Hs2].
  intros x y Hx Hy Hxy Hyx. rewrite Hl2 in Hx. rewrite Hs2 in Hy.
  apply elem_of_values in Hx, Hy; [|done..]. assert (entry_name x = entry_name y) as E.
  { apply (anti_symm (R:=eq) String.le); done. }
  rewrite E in Hx. congruence.
Qed.
End keyed.

Definition keyed_source (s : baseSource) : Prop := keyed (b_proxies s) ∧ keyed (b_visitors s).

Lemma replace_all_keyed {T} `{EntryLaws T} (l : list (option T)) m m' :
  keyed m → replace_all l m = Ok m' → keyed m'.
Proof.
  revert m. induction l as [|[x|] l IH]; intros m Hm Hr; [by injection Hr as <-| |done].
  cbn in Hr. unfold validate_name in Hr. case_decide; [done|]. by apply (IH _ (keyed_insert m x Hm H1)).
Qed.

Lemma ReplaceAll_keyed ps vs s : keyed_source s → keyed_source (ReplaceAll ps vs s).1.
Proof.
  intros Hs. unfold ReplaceAll.
  destruct (replace_all ps ∅) as [mp|] eqn:Hp; [|done]. cbn.
  destruct (replace_all vs ∅) as [mv|] eqn:Hv; [|done]. cbn.
  split; eapply replace_all_keyed; [|done| |done]; apply map_Forall_empty.
Qed.

Lemma Load_two cp cv sp sv :
  Load (cp, cv) (Some (sp, sv)) =
    (sorted_values (merge_entries (merge_entries ∅ (load_entries cp)) (load_entries sp)),
     sorted_values (merge_entries (merge_entries ∅ (load_entries cv)) (load_entries sv))).
Proof. done. Qed.

(** The aggregator gives the proxies (and the visitors) of its sources, sorted by name,
    each name once: the store's enabled entry of the name, or else the configuration's; a
    store entry that is disabled hides nothing.  The order in which the sources visit
    their maps does not matter, nor does the sort's treatment of equal keys. *)
Theorem aggregator_merges (config store : baseSource) cp cv sp sv
    (Hc : keyed_source config) (Hs : keyed_source store)
    (Hcp : cp ≡ₚ values (b_proxies config)) (Hcv : cv ≡ₚ values (b_visitors config))
    (Hsp : sp ≡ₚ values (b_proxies store)) (Hsv : sv ≡ₚ values (b_visitors store)) :
  (∀ l, l = (Load (cp, cv) (Some (sp, sv))).1 ↔
     StronglySorted by_name l ∧ l ≡ₚ values (effective (b_proxies config) (b_proxies store)))
  ∧ (∀ l, l = (Load (cp, cv) (Some (sp, sv))).2 ↔
     StronglySorted by_name l ∧ l ≡ₚ values (effective (b_visitors config) (b_visitors store))).
Proof.
  destruct Hc as [Hc1 Hc2], Hs as [Hs1 Hs2]. rewrite Load_two. cbn [fst snd].
  rewrite (merge_loaded _ (b_proxies config) cp), (merge_loaded _ (b_visitors config) cv) by done.
  rewrite (merge_loaded _ (b_proxies store) sp), (merge_loaded _ (b_visitors store) sv) by done.
  rewrite !(right_id_L ∅ (∪)). split; intros l; by apply sorted_values_unique, keyed_effective.
Qed.

(** ** The store's file

    [plain_proxy] and [plain_visitor] are the entries that JSON gives back as they were;
    whatever a decoder returns is one of them. *)
Class StoreLaws `{StoreCodec} := {
  plain_proxy : ProxyConfigurer → Prop;
  plain_visitor : VisitorConfigurer → Prop;
  json_round_trip : ∀ ps vs data, Forall plain_proxy ps → Forall plain_visitor vs →
    MarshalStore ps vs = Ok data →
    ∃ rps rvs, UnmarshalStore data = Ok (rps, rvs)
      ∧ Forall2 (λ r p, DecodeProxy r = Ok p) rps ps ∧ Forall2 (λ r v, DecodeVisitor r = Ok v) rvs vs;
  decoded_proxy : ∀ r p, DecodeProxy r = Ok p → plain_proxy p;
  decoded_visitor : ∀ r v, DecodeVisitor r = Ok v → plain_visitor v;
  visit_values : ∀ {T} (m : gmap string T), visit m ≡ₚ values m;
}.

Section file.
Context `{StoreLaws}.

Definition good (b : baseSource) : Prop :=
  keyed_source b ∧ map_Forall (λ _ x, plain_proxy x) (b_proxies b) ∧ map_Forall (λ _ x, plain_visitor x) (b_visitors b).
(** Memory and file agree: what a restart would read. *)
Definition durable (s : StoreSource) (fs : fsys) : Prop :=
  match fs !! st_path s with
  | None => st_base s = newBaseSource
  | Some data => load_data data = Ok (st_base s)
  end.

Lemma good_empty : good newBaseSource.
Proof. split; [split|split]; apply map_Forall_empty. Qed.

Lemma durable_path s fs fs' : fs' !! st_path s = fs !! st_path s → durable s fs → durable s fs'.
Proof. unfold durable. by intros ->. Qed.

Lemma durable_reopen s fs : st_path s ≠ "" → durable s fs → NewStoreSource (st_path s) fs = Ok s.
Proof.
  intros Hp Hd. unfold NewStoreSource, durable in *. case_decide; [done|].
  destruct (fs !! st_path s) as [d|]; [rewrite Hd|rewrite <-Hd]; by destruct s.
Qed.

Lemma NewStoreSource_inv path fs s : NewStoreSource path fs = Ok s → st_path s = path ∧ path ≠ "" ∧ durable s fs.
Proof.
  unfold NewStoreSource, durable. case_decide; [done|]. destruct (fs !! path) as [d|] eqn:Hd.
  - intros (b & Hb%wrap_err_Ok & [= <-])%result_bind_Ok. simpl. by rewrite Hd.
  - intros [= <-]. simpl. by rewrite Hd.
Qed.

Lemma load_list_spec {T} `{Entry T} (decode : list byte → result T) raws l i m :
  Forall2 (λ r x, decode r = Ok x) raws l → Forall (λ x, entry_name x ≠ "") l →
  load_list decode i raws m = Ok (merge_entries m l).
Proof.
  intros Hf. revert i m. induction Hf as [|r x raws l Hr _ IH]; intros i m Hl; [done|].
  apply Forall_cons in Hl as [Hx Hl]. cbn [load_list]. rewrite Hr. cbn [wrap_err mbind result_bind].
  rewrite decide_False by done. by rewrite IH.
Qed.

Lemma load_list_good {T} `{EntryLaws T} (decode : list byte → result T) (P : T → Prop) raws i m m' :
  (∀ r x, decode r = Ok x → P x) → keyed m → map_Forall (λ _ x, P x) m →
  load_list decode i raws m = Ok m' → keyed m' ∧ map_Forall (λ _ x, P x) m'.
Proof.
  intros Hdec. revert i m. induction raws as [|r raws IH]; intros i m Hm HP Hl; [by injection Hl as <-|].
  cbn [load_list] in Hl. apply result_bind_Ok in Hl as (x & Hx%wrap_err_Ok & Hl).
  case_decide; [done|]. apply IH in Hl; [done|by apply keyed_insert|].
  apply map_Forall_insert_2; [by eapply Hdec|done].
Qed.

Lemma load_data_good data b : load_data data = Ok b → good b.
Proof.
  unfold load_data. intros ([ps vs] & _ & Hl)%result_bind_Ok.
  apply result_bind_Ok in Hl as (mp & Hp & Hl). apply result_bind_Ok in Hl as (mv & Hv & [= <-]).
  apply (load_list_good _ plain_proxy) in Hp as [??]; [|apply decoded_proxy|apply map_Forall_empty..].
  apply (load_list_good _ plain_visitor) in Hv as [??]; [|apply decoded_visitor|apply map_Forall_empty..].
  by split; [split|split].
Qed.

Lemma NewStoreSource_good path fs s : NewStoreSource path fs = Ok s → good (st_base s).
Proof.
  unfold NewStoreSource. case_decide; [done|]. destruct (fs !! path) as [d|].
  - intros (b & Hb%wrap_err_Ok & [= <-])%result_bind_Ok. by eapply load_data_good.
  - intros [= <-]. apply good_empty.
Qed.

Lemma visit_forall {T} (P : T → Prop) (m : gmap string T) : map_Forall (λ _ x, P x) m → Forall P (visit m).
Proof.
  intros Hm. apply Forall_forall. intros x Hx. rewrite visit_values in Hx. unfold values in Hx.
  apply list_elem_of_fmap in Hx as ([k y] & -> & Hy%elem_of_map_to_list). by apply (Hm k y).
Qed.

Lemma visit_named {T} `{EntryLaws T} (m : gmap string T) : keyed m → Forall (λ x, entry_name x ≠ "") (visit m).
Proof. intros Hm. apply visit_forall. intros k x Hx. by destruct (Hm k x Hx) as [-> ?]. Qed.

(** What was marshalled is read back. *)
Lemma load_marshalled b data : good b →
  MarshalStore (visit (b_proxies b)) (visit (b_visitors b)) = Ok data → load_data data = Ok b.
Proof.
  intros ([Hp Hv] & Hpp & Hpv) Hm. apply json_round_trip in Hm as (rps & rvs & Hu & Hrp & Hrv); [|by apply visit_forall..].
  unfold load_data. rewrite Hu. cbn [wrap_err mbind result_bind].
  rewrite (load_list_spec _ _ _ _ _ Hrp) by (by apply visit_named). cbn [mbind result_bind].
  rewrite (load_list_spec _ _ _ _ _ Hrv) by (by apply visit_named). cbn [mbind result_bind].
  rewrite (merge_values (b_proxies b)), (merge_values (b_visitors b)) by (done || apply visit_values). by destruct b.
Qed.

Lemma tmp_path_ne s : tmp_path s ≠ st_path s.
Proof.
  unfold tmp_path. intros E. apply (f_equal String.length) in E. revert E.
  generalize (st_path s). induction s0 as [|a s0 IH]; [done|]. intros [= E]. by apply IH.
Qed.

(** A save leaves the store's file alone until the rename, which puts all of it there. *)
Lemma saveToFile_spec i s fs t r : good (st_base s) → saveToFile i s fs = (t, r) →
  (r = Ok tt ∧ durable s (after fs t) ∧ (∀ f, f ∈ t → f !! st_path s = fs !! st_path s ∨ durable s f))
  ∨ (∃ e, r = Err e) ∧ ∀ f, f ∈ fs :: t → f !! st_path s = fs !! st_path s.
Proof.
  intros Hg Hs. pose proof (tmp_path_ne s) as Hne. unfold saveToFile in Hs.
  assert (Hins : ∀ d (g : fsys), <[tmp_path s := d]> g !! st_path s = g !! st_path s) by (intros; by apply lookup_insert_ne).
  assert (Hdel : ∀ g : fsys, delete (tmp_path s) g !! st_path s = g !! st_path s) by (intros; by apply lookup_delete_ne).
  assert (Hput : ∀ d (g : fsys), <[st_path s := d]> g !! st_path s = Some d) by (intros; apply lookup_insert_eq).
  destruct (MarshalStore _ _) as [data|e] eqn:Hm.
  2: { injection Hs as <- <-. right. split; [eauto|]. by intros f ->%list_elem_of_singleton. }
  repeat case_match; injection Hs as <- <-;
    try (right; split; [by eauto|]; intros f Hf;
         repeat (apply elem_of_cons in Hf as [->|Hf]; [by rewrite ?Hdel, ?Hins|]); by apply not_elem_of_nil in Hf).
  left. split; [done|]. assert (Hd : durable s (<[st_path s := data]> (delete (tmp_path s) fs))).
  { unfold durable. rewrite Hput. by apply load_marshalled. }
  split; [done|]. intros f Hf.
  repeat (apply elem_of_cons in Hf as [->|Hf]; [by rewrite ?Hins; auto|]). by apply not_elem_of_nil in Hf.
Qed.
End file.

(** ** Operations on the store *)
Class StoreMapLaws (T : Type) `{EntryLaws T} `{!StoreMap T} `{StoreLaws} := {
  plain : T → Prop;
  get_set : ∀ (m : gmap string T) b, entriesFn (set_entries m b) = m;
  set_get : ∀ b, set_entries (entriesFn b : gmap string T) b = b;
  set_set : ∀ (m m' : gmap string T) b, set_entries m (set_entries m' b) = set_entries m b;
  good_set : ∀ (m : gmap string T) b, good b → keyed m → map_Forall (λ _ x, plain x) m → good (set_entries m b);
  good_get : ∀ b, good b → keyed (entriesFn b : gmap string T) ∧ map_Forall (λ _ x, plain x) (entriesFn b);
}.
#[export] Instance proxy_map_laws `{StoreLaws} : StoreMapLaws ProxyConfigurer.
Proof.
  by refine {| plain := plain_proxy |}; [|intros []| | |]; cbn; intros; unfold good, keyed_source in *; naive_solver.
Defined.
#[export] Instance visitor_map_laws `{StoreLaws} : StoreMapLaws VisitorConfigurer.
Proof.
  by refine {| plain := plain_visitor |}; [|intros []| | |]; cbn; intros; unfold good, keyed_source in *; naive_solver.
Defined.

Section refinement.
Context {T : Type} `{StoreMapLaws T}.

(** What an operation promises: the map after it, when it applies at all. *)
Definition spec_op (o : op T) (m : gmap string T) : option (gmap string T) :=
  match o with
  | OAdd (Some x) =>
      if decide (entry_name x = "") then None
      else match m !! entry_name x with Some _ => None | None => Some (<[entry_name x := x]> m) end
  | OUpdate (Some x) =>
      if decide (entry_name x = "") then None
      else match m !! entry_name x with Some _ => Some (<[entry_name x := x]> m) | None => None end
  | OAdd None | OUpdate None => None
  | ORemove name =>
      if decide (name = "") then None
      else match m !! name with Some _ => Some (delete name m) | None => None end
  end.
Definition plain_op (o : op T) : Prop :=
  match o with OAdd (Some x) | OUpdate (Some x) => plain x | _ => True end.

Lemma spec_op_good o m m' :
  keyed m ∧ map_Forall (λ _ x, plain x) m → plain_op o → spec_op o m = Some m' → keyed m' ∧ map_Forall (λ _ x, plain x) m'.
Proof.
  intros [Hk Hp] Ho Hs. destruct o as [[x|]|[x|]|n]; cbn in Hs; repeat case_match; simplify_eq;
    (split; [by apply keyed_insert || by apply keyed_delete|by apply map_Forall_insert_2 || by apply map_Forall_delete]).
Qed.

(** Every operation is its checks, then a save of the new map with a rollback that
    restores the old one. *)
Lemma run_op_spec o i s fs :
  match spec_op o (entries_of s) with
  | Some m => ∃ rb, rb (put_entries m s) = s ∧ run_op o i s fs = persistOrRollback i rb (put_entries m s) fs
  | None => ∃ e, run_op o i s fs = (s, [], Err e)
  end.
Proof.
  assert (Hback : ∀ m m', m' = entries_of s → put_entries m' (put_entries m s) = s).
  { intros m m' ->. unfold put_entries, entries_of. cbn. rewrite set_set, set_get. by destruct s. }
  assert (Hget : ∀ m, entries_of (put_entries m s) = m) by (intros; apply get_set).
  destruct o as [[x|]|[x|]|n]; cbn [spec_op run_op validate_name]; [| | | |unfold removeStoreEntry]; try by eexists.
  all: case_decide; [by eexists|]; unfold addStoreEntry, updateStoreEntry.
  all: match goal with |- context [entries_of ?s !! ?k] => destruct (entries_of s !! k) eqn:? end; try by eexists.
  all: eexists; split; [|reflexivity]; cbv beta; rewrite Hget; apply Hback.
  - by apply delete_insert_id.
  - by rewrite insert_insert_eq, insert_id.
  - by rewrite insert_delete_eq, insert_id.
Qed.
End refinement.

Section refinement_proofs.
Context {T : Type} `{StoreMapLaws T}.

(** One operation, with its effect on memory and on the file. *)
Lemma run_op_refines o i s fs s' t r :
  good (st_base s) → plain_op o → durable s fs → run_op o i s fs = (s', t, r) →
  st_path s' = st_path s ∧ good (st_base s') ∧ durable s' (after fs t)
  ∧ (∀ f, f ∈ t → durable s f ∨ durable s' f)
  ∧ match r with
    | Ok _ => ∃ m, spec_op o (entries_of s) = Some m ∧ s' = put_entries m s
    | Err _ => s' = s ∧ after fs t !! st_path s = fs !! st_path s
    end.
Proof.
  intros Hg Ho Hd Hr. pose proof (run_op_spec o i s fs) as Hspec.
  destruct (spec_op o (entries_of s)) as [m|] eqn:Hm.
  2: { destruct Hspec as [e He]. rewrite He in Hr. injection Hr as <- <- <-.
       split_and!; [done..|by intros f Hf%not_elem_of_nil|done|done]. }
  destruct Hspec as (rb & Hrb & He). rewrite He in Hr. clear He.
  destruct (spec_op_good _ _ _ (good_get _ Hg) Ho Hm) as [Hk Hp].
  assert (Hgm : good (st_base (put_entries m s))) by by apply good_set.
  unfold persistOrRollback in Hr. destruct (saveToFile i (put_entries m s) fs) as [t' r'] eqn:Hs.
  apply saveToFile_spec in Hs as [(-> & Hnew & Ht)|[[e ->] Ht]]; [| |done]; injection Hr as <- <- <-.
  - split_and!; [done..| |by eexists]. intros f [Hf|]%Ht; [left; by apply (durable_path s fs)|by right].
  - rewrite Hrb. assert (Hafter : after fs t' ∈ fs :: t').
    { unfold after. destruct (last t') as [f|] eqn:Hf; simpl; [|left].
      right. by apply last_Some_elem_of. }
    assert (Hall : ∀ f, f ∈ fs :: t' → durable s f) by (intros f Hf; apply (durable_path s fs); [by apply Ht|done]).
    split_and!; [done|done|by apply Hall| |done|by apply Ht]. intros f Hf. left. apply Hall. by right.
Qed.

(** C19. An operation on the store either succeeds, and then memory is the specified map and
    the file holds it, or fails, and then memory and file are as they were: the rollback
    undoes exactly the update, whatever system call failed.  An operation that does not
    apply (no name, a name in use, an unknown name) makes no system call, and one that
    applies fails only through the encoder or a system call. *)
Theorem store_refines (o : op T) i s fs s' t r (Hg : good (st_base s)) (Ho : plain_op o)
    (Hd : durable s fs) (Hr : run_op o i s fs = (s', t, r)) :
  durable s' (after fs t) ∧ keyed (entries_of s' : gmap string T)
  ∧ match r with
    | Ok _ => ∃ m, spec_op o (entries_of s) = Some m ∧ s' = put_entries m s ∧ entries_of s' = m
    | Err _ => s' = s ∧ after fs t !! st_path s = fs !! st_path s
    end
  ∧ match spec_op o (entries_of s) with
    | None => t = [] ∧ is_ok r = false
    | Some m =>
        i = mkIO None None None None None None false →
        is_ok (MarshalStore (visit (b_proxies (st_base (put_entries m s)))) (visit (b_visitors (st_base (put_entries m s))))) = true →
        r = Ok tt
    end.
Proof.
  destruct (run_op_refines _ _ _ _ _ _ _ Hg Ho Hd Hr) as (_ & Hg' & Hd' & _ & Hres).
  split_and!; [done|by apply good_get| |].
  - destruct r; [|done]. destruct Hres as (m & Hm & ->). exists m. split_and!; [done..|apply get_set].
  - pose proof (run_op_spec o i s fs) as Hspec. destruct (spec_op o (entries_of s)) as [m|].
    + intros -> Hok. destruct Hspec as (rb & _ & He). rewrite He in Hr. revert Hr.
      unfold persistOrRollback, saveToFile. cbn [io_mkdir io_open io_write io_sync io_close io_rename].
      destruct (MarshalStore _ _); [|done]. by intros [= _ _ <-].
    + destruct Hspec as [e He]. rewrite He in Hr. by injection Hr as _ <- <-.
Qed.
End refinement_proofs.

(** Histories: operations on proxies and on visitors, and crashes that leave the file
    system in some state of the save, after which the store is opened again. *)
Inductive sop : Type := SProxy (o : op ProxyConfigurer) | SVisitor (o : op VisitorConfigurer).
Definition run_sop `{StoreCodec} (o : sop) (i : io) (s : StoreSource) (fs : fsys) : StoreSource * list fsys * result unit :=
  match o with SProxy o => run_op o i s fs | SVisitor o => run_op o i s fs end.

Section crash.
Context `{StoreLaws}.
Definition plain_sop (o : sop) : Prop := match o with SProxy o => plain_op o | SVisitor o => plain_op o end.
Inductive sstep : StoreSource * fsys → StoreSource * fsys → Prop :=
| ss_op o i s fs s' t r : plain_sop o → run_sop o i s fs = (s', t, r) → sstep (s, fs) (s', after fs t)
| ss_crash o i s fs s' t r f s'' : plain_sop o → run_sop o i s fs = (s', t, r) → f ∈ fs :: t →
    NewStoreSource (st_path s) f = Ok s'' → sstep (s, fs) (s'', f).

Lemma run_sop_spec o i s fs s' t r :
  good (st_base s) → plain_sop o → durable s fs → run_sop o i s fs = (s', t, r) →
  st_path s' = st_path s ∧ good (st_base s') ∧ durable s' (after fs t) ∧ (∀ f, f ∈ t → durable s f ∨ durable s' f).
Proof. intros Hg Ho Hd Hr. destruct o as [o|o]; destruct (run_op_refines _ _ _ _ _ _ _ Hg Ho Hd Hr) as (?&?&?&?&?); eauto. Qed.

Lemma sstep_inv path x y : sstep x y →
  st_path x.1 = path ∧ good (st_base x.1) ∧ durable x.1 x.2 →
  st_path y.1 = path ∧ good (st_base y.1) ∧ durable y.1 y.2.
Proof.
  intros [o i s fs s' t r Ho Hr|o i s fs s' t r f s'' _ _ _ Hn] (<- & Hg & Hd); cbn [fst snd] in *.
  - destruct (run_sop_spec _ _ _ _ _ _ _ Hg Ho Hd Hr) as (?&?&?&?). done.
  - pose proof (NewStoreSource_inv _ _ _ Hn) as (?&?&?). split_and!; [done|by eapply NewStoreSource_good|done].
Qed.

Lemma sreach_inv path x y : rtc sstep x y →
  st_path x.1 = path ∧ good (st_base x.1) ∧ durable x.1 x.2 →
  st_path y.1 = path ∧ good (st_base y.1) ∧ durable y.1 y.2.
Proof. induction 1; [done|]. intros Hx. eauto using sstep_inv. Qed.

(** C7. The store survives crashes: after any history of operations, failures, crashes and
    restarts, opening the file gives what is in memory; and if the process dies during
    the next operation, at any point of its save, opening the file gives the store
    before the operation or the store after it, never an error or a mixture. *)
Theorem store_crash_safe path fs0 s0 s fs (Hopen : NewStoreSource path fs0 = Ok s0)
    (Hreach : rtc sstep (s0, fs0) (s, fs)) :
  NewStoreSource path fs = Ok s
  ∧ ∀ o i s' t r f, plain_sop o → run_sop o i s fs = (s', t, r) → f ∈ fs :: t →
      NewStoreSource path f = Ok s ∨ NewStoreSource path f = Ok s'.
Proof.
  pose proof (NewStoreSource_inv _ _ _ Hopen) as (Hp & Hne & Hd0). pose proof (NewStoreSource_good _ _ _ Hopen) as Hg0.
  assert (Hinv : st_path s = path ∧ good (st_base s) ∧ durable s fs).
  { apply (sreach_inv path _ _ Hreach). done. }
  destruct Hinv as (<- & Hg & Hd). split; [by apply durable_reopen|].
  intros o i s' t r f Ho Hr Hf. destruct (run_sop_spec _ _ _ _ _ _ _ Hg Ho Hd Hr) as (Hp' & _ & _ & Ht).
  apply elem_of_cons in Hf as [->|[Hf|Hf]%Ht]; [left; by apply durable_reopen..|].
  right. rewrite <-Hp'. apply durable_reopen; [by rewrite Hp'|done].
Qed.
End crash.

(** ** Witnesses *)
Definition demo_xtcp (name : string) (enabled : option bool) : ProxyConfigurer :=
  PC_XTCP (mkXTCPProxyConfig (mkProxyBaseConfig name "xtcp" enabled ∅ (mkProxyTransport false false) ∅ (mkProxyBackend "" 0)) "" [] None).
Definition demo_entries (l : list ProxyConfigurer) : baseSource := mkBase (merge_entries ∅ l) ∅.

Lemma aggregator_merges_witness :
  let config := demo_entries [demo_xtcp "b" None; demo_xtcp "a" None] in
  let store := demo_entries [demo_xtcp "b" (Some false); demo_xtcp "a" (Some true)] in
  let l := [demo_xtcp "a" (Some true); demo_xtcp "b" None] in
  l ≡ₚ values (effective (b_proxies config) (b_proxies store)).
Proof.
  intros config store l.
  refine (proj2 (proj1 (proj1 (aggregator_merges config store (values (b_proxies config)) (values (b_visitors config))
     (values (b_proxies store)) (values (b_visitors store)) _ _ _ _ _ _) l) _)); try reflexivity.
  all: split; [|apply map_Forall_empty]; apply keyed_insert; [|done]; apply keyed_insert; [apply map_Forall_empty|done].
Defined.

(** A codec that knows one proxy. *)
#[local] Instance demo_codec : StoreCodec := {|
  MarshalStore ps vs := if decide (ps = [] ∧ vs = []) then Ok [Byte.x00]
                        else if decide (ps = [demo_xtcp "a" None] ∧ vs = []) then Ok [Byte.x01] else Err "unknown";
  UnmarshalStore d := if decide (d = [Byte.x00]) then Ok ([], [])
                      else if decide (d = [Byte.x01]) then Ok ([[Byte.x02]], []) else Err "syntax";
  DecodeProxy r := if decide (r = [Byte.x02]) then Ok (demo_xtcp "a" None) else Err "syntax";
  DecodeVisitor _ := Err "syntax";
  visit _ m := (map_to_list m).*2;
|}.
#[local] Instance demo_laws : StoreLaws.
Proof.
  refine {| plain_proxy x := True; plain_visitor x := True |}; try done.
  intros ps vs data _ _. cbn. intros Hm. repeat case_decide; destruct_and?; simplify_eq; [exists [], []|exists [[Byte.x02]], []];
    (split; [done|]); split; repeat constructor.
Defined.
Definition no_fault : io := mkIO None None None None None None false.
Definition full_disk : io := mkIO None None (Some (0%nat, "no space")) None None None false.
Definition demo_add : sop := SProxy (OAdd (Some (demo_xtcp "a" None))).
Definition demo_store0 : StoreSource := mkStore "s" newBaseSource.
Definition demo_run : StoreSource * list fsys * result unit := run_sop demo_add no_fault demo_store0 ∅.

Lemma store_refines_witness :
  (run_sop demo_add full_disk demo_store0 ∅).1.1 = demo_store0
  ∧ durable demo_run.1.1 (after ∅ demo_run.1.2) ∧ demo_run.2 = Ok tt.
Proof.
  split; [vm_compute; reflexivity|]. split; [|vm_compute; reflexivity].
  exact (proj1 (store_refines (OAdd (Some (demo_xtcp "a" None))) no_fault demo_store0 ∅ demo_run.1.1 demo_run.1.2 demo_run.2
    good_empty I eq_refl eq_refl)).
Defined.

Lemma store_crash_safe_witness :
  NewStoreSource "s" (after ∅ demo_run.1.2) = Ok demo_run.1.1 ∧ demo_run.2 = Ok tt.
Proof.
  split; [|vm_compute; reflexivity].
  apply (store_crash_safe "s" ∅ demo_store0); [reflexivity|].
  eapply rtc_l; [apply (ss_op demo_add no_fault demo_store0 ∅ demo_run.1.1 demo_run.1.2 demo_run.2); [exact I|reflexivity]|apply rtc_refl].
Defined.
