(* ===== verification/ClientDial.v ===== *)
(** * Logging in: [client/control_session.go]

    [controlSessionDialer.Dial] opens the transport, exchanges hellos and login messages
    and gives a session, or releases what it opened.  The errors of the calls, and the bytes the
    server sends, are the fields of [exchange_env] and [dial_env]; frames and hellos
    are those of [Wire] and [MsgV2], the login's key that of [Auth], the encryption
    that of [ControlCrypto]. *)
From S2P Require Import Prelude GoStd Hash ControlCrypto Msg ConfigV1 Auth Wire MsgV2.
From stdpp Require Import gmap list.
Local Open Scope Z_scope.

(** A call that returns only an error. *)
Definition called (e : option string) : result unit := match e with Some e => Err e | None => Ok tt end.

(** What the host tells: name, system, architecture, version, time. *)
Record host := mkHost { h_name : string; h_os : string; h_arch : string; h_version : string; h_now : Z }.
Definition zero_spec : ClientSpec := mkClientSpec "" false.

(** [buildLoginMsg]; the setter of the token method does not fail. *)
Definition buildLoginMsg (h : host) (common : ClientCommonConfig) (auth : ClientAuth) (spec : option ClientSpec)
    (previousRunID : string) : Login :=
  SetLogin (ca_Setter auth)
    (mkLogin (h_version h) (h_name h) (h_os h) (h_arch h) (cc_User common) "" (h_now h) previousRunID
       (cc_ClientID common) (cc_Metadatas common) (default zero_spec spec) (ct_PoolCount (cc_Transport common))).

(** The calls of [exchangeLogin]: the error of each write, what the processor and the random
    source give, and the bytes the server sends before it closes. *)
Record exchange_env := mkExchange {
  xe_fast : bool;                      (* hardware AES-GCM *)
  xe_random : result (list byte);
  xe_magic : option string;
  xe_write_hello : option string;
  xe_write_login : option string;
  xe_in : list byte;
}.
Record loginExchangeResult := mkLoginResult {
  le_resp : LoginResp;
  le_crypto : option CryptoContext;
  le_udpPacketCodec : string;
}.
Definition ProtocolV2 : string := "v2".

Definition bootstrap (common : ClientCommonConfig) : BootstrapInfo :=
  let t := cc_Transport common in
  mkBootstrap (ct_Protocol t)
    (from_ptr (tc_Enable (ct_TLS t)) || bool_decide (ct_Protocol t = "wss") || bool_decide (ct_Protocol t = "quic"))
    (from_ptr (ct_TCPMux t)).

Section dial.
Context `{JSON} `{MsgJSON} `{V1Codec} `{ControlCipher}.

Definition client_hello (common : ClientCommonConfig) (x : exchange_env) : result Frame :=
  NewClientHello (xe_fast x) (bootstrap common) (xe_random x) ≫= λ hello,
  MarshalClientHello hello ≫= λ p, Ok (mkFrame FrameTypeClientHello 0 p).
(** What [exchangeLogin] writes when no write fails. *)
Definition login_bytes (common : ClientCommonConfig) (m : Login) (x : exchange_env) : result (list byte) :=
  if decide (ct_WireProtocol (cc_Transport common) = ProtocolV2) then
    client_hello common x ≫= λ hello,
    WriteFrame DefaultMaxFramePayloadSize hello ≫= λ b1,
    V2_WriteMsg (Some (MLogin m)) ≫= λ b2, Ok (MagicV2 ++ b1 ++ b2)
  else V1_WriteMsg (MLogin m).

(** [ReadMsgInto] a [LoginResp]; a codec gives a message of the type it was asked for. *)
Definition read_resp (wireProtocol : string) (s : list byte) : result (LoginResp * list byte) :=
  rw_ReadMsgInto wireProtocol TLoginResp s ≫= λ '(m, s),
  match m with MLoginResp r => Ok (r, s) | _ => Err "unexpected message type" end.

(** [exchangeLogin]: its result and the bytes left on the connection. *)
Definition exchangeLogin (common : ClientCommonConfig) (m : Login) (x : exchange_env)
    : result (loginExchangeResult * list byte) :=
  if decide (ct_WireProtocol (cc_Transport common) = ProtocolV2) then
    called (xe_magic x) ≫= λ _, client_hello common x ≫= λ hello,
    WriteFrame DefaultMaxFramePayloadSize hello ≫= λ _, called (xe_write_hello x) ≫= λ _,
    V2_WriteMsg (Some (MLogin m)) ≫= λ _, called (xe_write_login x) ≫= λ _,
    ReadFrame DefaultMaxFramePayloadSize (xe_in x) ≫= λ '(f, s),
    acceptServerHello (f_Payload hello) f ≫= λ '(cx, codec),
    read_resp ProtocolV2 s ≫= λ '(resp, s), Ok (mkLoginResult resp (Some cx) codec, s)
  else
    V1_WriteMsg (MLogin m) ≫= λ _, called (xe_write_login x) ≫= λ _,
    read_resp "v1" (xe_in x) ≫= λ '(resp, s), Ok (mkLoginResult resp None "", s).

Definition newControlReadWriter (common : ClientCommonConfig) (key : list byte) (crypto : option CryptoContext)
    : result control_rw :=
  if decide (ct_WireProtocol (cc_Transport common) = ProtocolV2) then
    match crypto with
    | None => Err "missing v2 crypto negotiation"
    | Some cx => NewAEADCryptoReadWriter key AEADCryptoRoleClient (cx_Algorithm cx) (cx_TranscriptHash cx)
    end
  else NewCryptoReadWriter key.

Record dial_env := mkDial {
  de_open : option string;
  de_connect : option string;
  de_host : host;
  de_exchange : exchange_env;
}.
(** What [Dial] does to the connector and to the connection it opens. *)
Inductive deffect : Type := DOpened | DConnected | DConnClosed | DConnectorClosed.
#[export] Instance deffect_eq_dec : EqDecision deffect.
Proof. solve_decision. Defined.
(** The session: its run id, its control connection (plain without a cipher), the bytes
    already there, and the UDP codec. *)
Record SessionContext := mkSessionContext {
  sx_RunID : string;
  sx_rw : option control_rw;
  sx_in : list byte;
  sx_UDPPacketCodec : string;
}.

(** [Dial] once there is a connection. *)
Definition log_in (common : ClientCommonConfig) (auth : ClientAuth) (spec : option ClientSpec)
    (previousRunID : string) (d : dial_env) : result SessionContext :=
  exchangeLogin common (buildLoginMsg (de_host d) common auth spec previousRunID) (de_exchange d) ≫= λ '(l, s),
  if decide (lr_Error (le_resp l) ≠ "") then Err (lr_Error (le_resp l))
  else
    (if decide (from_option cs_Type "" spec = "ssh-tunnel") then Ok None
     else wrap_err "create control crypto read writer: "
            (newControlReadWriter common (ca_key auth) (le_crypto l)) ≫= λ rw, Ok (Some rw)) ≫= λ rw,
    Ok (mkSessionContext (lr_RunID (le_resp l)) rw s (le_udpPacketCodec l)).
Definition Dial (common : ClientCommonConfig) (auth : ClientAuth) (spec : option ClientSpec)
    (previousRunID : string) (d : dial_env) : result SessionContext * list deffect :=
  match de_open d with
  | Some e => (Err e, [])
  | None =>
      match de_connect d with
      | Some e => (Err e, [DOpened; DConnectorClosed])
      | None =>
          match log_in common auth spec previousRunID d with
          | Err e => (Err e, [DOpened; DConnected; DConnClosed; DConnectorClosed])
          | Ok s => (Ok s, [DOpened; DConnected])
          end
      end
  end.

Lemma exchangeLogin_Ok common m x l rest : exchangeLogin common m x = Ok (l, rest) →
  (ct_WireProtocol (cc_Transport common) = ProtocolV2 → ∃ hello f s cx,
     client_hello common x = Ok hello ∧ ReadFrame DefaultMaxFramePayloadSize (xe_in x) = Ok (f, s)
     ∧ acceptServerHello (f_Payload hello) f = Ok (cx, le_udpPacketCodec l) ∧ le_crypto l = Some cx
     ∧ read_resp ProtocolV2 s = Ok (le_resp l, rest))
  ∧ (ct_WireProtocol (cc_Transport common) ≠ ProtocolV2 →
     le_udpPacketCodec l = "" ∧ read_resp "v1" (xe_in x) = Ok (le_resp l, rest)).
Proof.
  unfold exchangeLogin. intros Hx. case_decide as Hv; split; try done; intros _.
  - apply result_bind_Ok in Hx as (? & _ & (hello & Hh & (? & _ & (? & _ & (? & _ & (? & _ & Hx)%result_bind_Ok)%result_bind_Ok)%result_bind_Ok)%result_bind_Ok)%result_bind_Ok).
    apply result_bind_Ok in Hx as ([f s] & Hf & ([cx codec] & Ha & ([resp r] & Hr & [= <- <-])%result_bind_Ok)%result_bind_Ok).
    exists hello, f, s, cx. by split_and!.
  - apply result_bind_Ok in Hx as (? & _ & (? & _ & ([resp r] & Hr & [= <- <-])%result_bind_Ok)%result_bind_Ok).
    by split.
Qed.

(** Membership in a list of effects that is written out. *)
Ltac effects := rewrite ?elem_of_cons, ?elem_of_nil; naive_solver.

(** A failed login leaves nothing open.  Whatever call fails, [Dial] returns an error
    and has closed, once, whatever it opened, the error being that of the exchange, of the
    login response, or of the cipher; when it succeeds, connector and connection are
    open, the run id is the one of a login response without an error, and under wire v2 the
    server's hello was accepted and settled the session's UDP codec.  The error of a
    missing negotiation never occurs. *)
Theorem dial_releases (common : ClientCommonConfig) (auth : ClientAuth) (spec : option ClientSpec)
    (prev : string) (d : dial_env) :
  let v2 := ct_WireProtocol (cc_Transport common) = ProtocolV2 in
  let x := exchangeLogin common (buildLoginMsg (de_host d) common auth spec prev) (de_exchange d) in
  match Dial common auth spec prev d with
  | (Err e, t) =>
      NoDup t ∧ (DOpened ∈ t ↔ DConnectorClosed ∈ t) ∧ (DConnected ∈ t ↔ DConnClosed ∈ t)
      ∧ (DOpened ∈ t ↔ de_open d = None) ∧ (DConnected ∈ t ↔ de_open d = None ∧ de_connect d = None)
      ∧ (DConnected ∈ t → x = Err e
          ∨ ∃ l s, x = Ok (l, s) ∧
              (lr_Error (le_resp l) ≠ "" ∧ e = lr_Error (le_resp l)
               ∨ lr_Error (le_resp l) = "" ∧ (v2 → ∃ cx, le_crypto l = Some cx)
                 ∧ ∃ y, newControlReadWriter common (ca_key auth) (le_crypto l) = Err y
                     ∧ e = "create control crypto read writer: " +:+ y))
  | (Ok s, t) =>
      t = [DOpened; DConnected]
      ∧ ∃ l, x = Ok (l, sx_in s) ∧ lr_Error (le_resp l) = "" ∧ sx_RunID s = lr_RunID (le_resp l)
        ∧ sx_UDPPacketCodec s = le_udpPacketCodec l
        ∧ (v2 → ∃ hello f r cx, client_hello common (de_exchange d) = Ok hello
             ∧ ReadFrame DefaultMaxFramePayloadSize (xe_in (de_exchange d)) = Ok (f, r)
             ∧ acceptServerHello (f_Payload hello) f = Ok (cx, sx_UDPPacketCodec s))
        ∧ (¬ v2 → sx_UDPPacketCodec s = "")
  end.
Proof.
  intros v2 x. unfold Dial. destruct (de_open d); [split; [constructor|effects]|].
  destruct (de_connect d).
  { split; [by apply (bool_decide_unpack _)|effects]. }
  destruct (log_in common auth spec prev d) as [s|e] eqn:Hl; unfold log_in in Hl; fold x in Hl.
  - apply result_bind_Ok in Hl as ([l r] & Hx & Hl). case_decide as He; [done|].
    apply result_bind_Ok in Hl as (? & _ & [= <-]). pose proof (exchangeLogin_Ok _ _ _ _ _ Hx) as [H2' H1'].
    split; [done|]. exists l. cbn. split_and!; [done|done|done|done| |].
    + intros (hello & f & r' & cx & ? & ? & ? & _)%H2'. eauto 10.
    + intros [? _]%H1'. done.
  - split; [by apply (bool_decide_unpack _)|]. do 4 (split; [effects|]). intros _.
    destruct x as [[l r]|] eqn:Hx; [right|left; simpl in Hl; congruence].
    exists l, r. split; [done|]. cbn [mbind result_bind] in Hl.
    case_decide as He; [left; by injection Hl as <-|]. right. split; [done|].
    apply exchangeLogin_Ok in Hx as [Hv _]. split; [intros (? & ? & ? & cx & _ & _ & _ & ? & _)%Hv; eauto|].
    revert Hl. case_decide; [done|]. destruct (newControlReadWriter _ _ _) as [|y]; [done|]. intros [= <-]. eauto.
Qed.

(** The server gives every session a cipher; a client of the kind [ssh-tunnel], which the
    options of the client's service can still ask for, then talks to it without one. *)
Lemma ssh_tunnel_plain common auth spec prev d s : from_option cs_Type "" spec = "ssh-tunnel" →
  log_in common auth spec prev d = Ok s → sx_rw s = None.
Proof.
  unfold log_in. intros Hs ([l r] & _ & Hl)%result_bind_Ok. case_decide; [done|].
  rewrite decide_True in Hl by done. cbn in Hl. by injection Hl as <-.
Qed.
End dial.
