(* ===== verification/Connector.v ===== *)
(** * Connections to the server: [client/connector.go]

    The connector of a session: one multiplexed connection or a connection for each call, and how
    each is dialed; over it [messageConnector], which starts every connection with the magic of its
    wire protocol.  Dialing, TLS and the multiplexer are libraries, known by the errors of
    their calls. *)
From S2P Require Import Prelude GoStd Msg ConfigV1 Wire MsgV2.
From stdpp Require Import list.
Local Open Scope Z_scope.

(** ** Dialing *)

(** What [realConnect] asks of the dialer. *)
Record dial_options := mkDialOptions {
  do_addr : string;
  do_protocol : string;
  do_tls : option string;           (* the server name *)
  do_headByte : bool;               (* send the custom first byte of TLS *)
  do_localIP : option string;
  do_timeout : Z;                   (* nanoseconds *)
  do_keepAlive : Z;
  do_proxy : string * string * string;  (* kind, address, credentials *)
}.
Definition seconds (n : Z) : Z := wrap64 (n * 1000000000).
(** [DialHookCustomTLSHeadByte]: the byte is sent with TLS unless it is disabled. *)
Definition head_byte (enableTLS disable : bool) : bool := enableTLS && negb disable.
Definition tls_server_name (cfg : ClientCommonConfig) : string :=
  let sn := tls_ServerName (tc_TLSConfig (ct_TLS (cc_Transport cfg))) in
  if decide (sn = "") then cc_ServerAddr cfg else sn.
Definition real_options (cfg : ClientCommonConfig) (proxy : string * string * string) : dial_options :=
  let t := cc_Transport cfg in
  let tls := from_ptr (tc_Enable (ct_TLS t)) in
  mkDialOptions (JoinHostPort (cc_ServerAddr cfg) (Itoa (cc_ServerPort cfg)))
    (if decide (ct_Protocol t = "") then "tcp" else ct_Protocol t)
    (if tls then Some (tls_server_name cfg) else None)
    (head_byte tls (from_ptr (tc_DisableCustomTLSFirstByte (ct_TLS t))))
    (if decide (ct_ConnectServerLocalIP t = "") then None else Some (ct_ConnectServerLocalIP t))
    (seconds (ct_DialServerTimeout t)) (seconds (ct_DialServerKeepAlive t)) proxy.
(** The calls of [realConnect]. *)
Record real_env := mkRealEnv {
  re_tls : option string;                       (* the TLS configuration *)
  re_proxy : result (string * string * string);          (* [ParseProxyURL] *)
  re_dial : dial_options → option string;
}.
Definition realConnect (cfg : ClientCommonConfig) (e : real_env) : result dial_options :=
  (if from_ptr (tc_Enable (ct_TLS (cc_Transport cfg)))
   then match re_tls e with Some err => Err err | None => Ok tt end else Ok tt) ≫= λ _,
  re_proxy e ≫= λ proxy,
  let o := real_options cfg proxy in
  match re_dial e o with Some err => Err err | None => Ok o end.

(** ** The connector *)

(** The connector's multiplexed session and whether it is closed, with the connections it
    dialed: which are open, and the streams opened. *)
Record connector := mkConnector {
  cn_mux : option nat;              (* the connection the session runs on *)
  cn_once : bool;                   (* [closeOnce] has run *)
  cn_conns : list bool;
  cn_streams : nat;
}.
Definition NewConnector : connector := mkConnector None false [] 0.
(** A connection or a stream of the connection the session runs on. *)
Inductive connection : Type := Dialed (n : nat) | Stream (n i : nat).

Definition Open (cfg : ClientCommonConfig) (e : real_env) (mux : option string) (c : connector)
    : result unit * connector :=
  if negb (from_ptr (ct_TCPMux (cc_Transport cfg))) then (Ok tt, c)
  else
    match realConnect cfg e with
    | Err err => (Err err, c)
    | Ok _ =>
        let n := length (cn_conns c) in
        match mux with
        | Some err => (Err err, mkConnector (cn_mux c) (cn_once c) (cn_conns c ++ [false]) (cn_streams c))
        | None => (Ok tt, mkConnector (Some n) (cn_once c) (cn_conns c ++ [true]) (cn_streams c))
        end
    end.
(** [Connect]; [stream] is the error of opening a stream. *)
Definition Connect (cfg : ClientCommonConfig) (e : real_env) (stream : option string) (c : connector)
    : result connection * connector :=
  match cn_mux c with
  | Some n =>
      match stream with
      | Some err => (Err err, c)
      | None => (Ok (Stream n (cn_streams c)), mkConnector (cn_mux c) (cn_once c) (cn_conns c) (S (cn_streams c)))
      end
  | None =>
      match realConnect cfg e with
      | Err err => (Err err, c)
      | Ok _ => (Ok (Dialed (length (cn_conns c))), mkConnector None (cn_once c) (cn_conns c ++ [true]) (cn_streams c))
      end
  end.
(** [Close]: closing the session closes its connection. *)
Definition Close (c : connector) : connector :=
  if cn_once c then c
  else mkConnector (cn_mux c) true
         (match cn_mux c with Some n => <[n := false]> (cn_conns c) | None => cn_conns c end) (cn_streams c).

(** ** [messageConnector] *)

(** [Connect]: what it writes first; [write] is the error of that write.  The flag tells whether
    the connection was closed again. *)
Definition message_Connect (wireProtocol : string) (conn : result connection) (write : option string)
    : result (connection * list byte) * bool :=
  match conn with
  | Err e => (Err e, false)
  | Ok c =>
      match WriteMagicIfV2 wireProtocol, write with
      | [], _ => (Ok (c, []), false)
      | m, None => (Ok (c, m), false)
      | _, Some e => (Err e, true)
      end
  end.

(** ** Theorems *)

(** What follows [Open] in a session. *)
Inductive cnstep (cfg : ClientCommonConfig) : connector → connector → Prop :=
| cn_connect e stream c : cnstep cfg c (Connect cfg e stream c).2
| cn_close c : cnstep cfg c (Close c).

(** One connection carries a session.  With TCP multiplexing a successful [Open] dials once, as the
    configuration says, and nothing dials again: every later connection is another stream of
    that one, until [Close] closes it.  Without it [Open] dials nothing, every [Connect] dials a
    connection of its own, and [Close] closes none of them. *)
Theorem connector_exact (cfg : ClientCommonConfig) (e : real_env) (mux : option string) (c0 c : connector) :
  Open cfg e mux NewConnector = (Ok tt, c0) → rtc (cnstep cfg) c0 c →
  if from_ptr (ct_TCPMux (cc_Transport cfg)) then
    (∃ o, realConnect cfg e = Ok o ∧ ∃ proxy, o = real_options cfg proxy)
    ∧ cn_conns c = [negb (cn_once c)]
    ∧ ∀ e' s r c', Connect cfg e' s c = (Ok r, c') → r = Stream 0 (cn_streams c) ∧ cn_streams c' = S (cn_streams c)
  else
    c0 = NewConnector ∧ Forall (λ b, b = true) (cn_conns c)
    ∧ ∀ e' s r c', Connect cfg e' s c = (Ok r, c') → r = Dialed (length (cn_conns c))
        ∧ ∃ o, realConnect cfg e' = Ok o.
Proof.
  unfold Open. destruct (from_ptr _) eqn:Hm; cbn [negb]; intros Ho Hr.
  - destruct (realConnect cfg e) as [o|] eqn:Hc; [|done]. destruct mux; [done|]. injection Ho as <-.
    assert (Hi : cn_mux c = Some 0%nat ∧ cn_conns c = [negb (cn_once c)]).
    { remember (mkConnector _ _ _ _) as c1 eqn:E1 in Hr.
      assert (H0 : cn_mux c1 = Some 0%nat ∧ cn_conns c1 = [negb (cn_once c1)]) by (by subst c1).
      clear E1. induction Hr as [|x y z Hs Hr IH]; [done|]. apply IH. destruct H0 as [H1 H2]. destruct Hs as [e' s x|x].
      - unfold Connect. rewrite H1. by destruct s.
      - unfold Close. destruct (cn_once x) eqn:Ho; [by rewrite Ho|]. cbn. by rewrite H1, H2. }
    destruct Hi as [H1 H2]. split_and!; [|done|].
    + exists o. split; [done|]. unfold realConnect in Hc.
      apply result_bind_Ok in Hc as (? & _ & (proxy & _ & Hd)%result_bind_Ok). destruct (re_dial _ _); [done|].
      exists proxy. congruence.
    + intros e' s r c'. unfold Connect. rewrite H1. destruct s; [done|]. by intros [= <- <-].
  - injection Ho as <-.
    assert (Hi : cn_mux c = None ∧ Forall (λ b, b = true) (cn_conns c)).
    { assert (H0 : cn_mux NewConnector = None ∧ Forall (λ b, b = true) (cn_conns NewConnector)) by (by split).
      induction Hr as [|x y z Hs Hr IH]; [done|]. apply IH. destruct H0 as [H1 H2]. destruct Hs as [e' s x|x].
      - unfold Connect. rewrite H1. destruct (realConnect _ _); [|done]. cbn. split; [done|].
        apply Forall_app. split; [done|by constructor].
      - unfold Close. rewrite H1. by destruct (cn_once x). }
    destruct Hi as [H1 H2]. split_and!; [done..|]. intros e' s r c'. unfold Connect. rewrite H1.
    destruct (realConnect cfg e') as [o|] eqn:Hc; [|done]. intros [= <- _]. eauto.
Qed.

(** The bytes before a work connection's first message. *)
Lemma message_Connect_Ok proto conn write c m b : message_Connect proto conn write = (Ok (c, m), b) →
  conn = Ok c ∧ m = WriteMagicIfV2 proto ∧ b = false.
Proof. unfold message_Connect. destruct conn; [|done]. destruct (WriteMagicIfV2 proto), write; by intros [= <- <- <-]. Qed.
