(* ===== verification/ServerConn.v ===== *)
(** * Accepting connections: [server/service.go]

    What [frps] does with a new connection: it looks for the magic of wire v2, reads an
    optional hello and the first message, and makes it a control or a work connection, or
    closes it.  A connection is the bytes its peer sends before it closes; the outputs are a
    list of effects.  The decoding is that of [Wire] and [MsgV2], the creation of a control
    that of [Session], and the operations of the control manager are those of [Control],
    each at the state of the manager it finds.  At the end the client's login of
    [ClientDial] and this side are put together. *)
From S2P Require Import Prelude GoStd Hash ControlCrypto Msg ConfigV1 Auth Validation Registry.
From S2P Require Import Session Control Wire MsgV2 ClientDial Connector.
From stdpp Require Import gmap list.
Local Open Scope Z_scope.

Record acceptedConnection := mkAccepted {
  ac_wireProtocol : string;
  ac_clientHelloPresent : bool;
  ac_udpPacketCodec : string;
  ac_cryptoContext : option CryptoContext;
  ac_firstMsg : Message;
}.
Definition errControlReplaced : string := "control was replaced during login".

Section accept.
Context `{JSON} `{MsgJSON} `{V1Codec}.

(** [readFirstV2Msg]: the [ServerHello] it wrote, and the connection with the bytes left,
    or the error; [rnd] is the server's random number. *)
Definition readFirstV2Msg (rnd : result (list byte)) (s : list byte)
    : option Frame * result (acceptedConnection * list byte) :=
  let decode hello codec cx f s :=
    wrap_err "decode v2 message: " (DecodeV2MessageFrame f) ≫= λ m,
    Ok (mkAccepted "v2" hello codec cx m, s) in
  match wrap_err "read v2 frame: " (ReadFrame DefaultMaxFramePayloadSize s) with
  | Err e => (None, Err e)
  | Ok (f, s) =>
      if decide (f_Type f = FrameTypeClientHello) then
        let '(sh, r) := handleClientHello f rnd in
        (sh, r ≫= λ '(cx, codec),
             wrap_err "read first v2 message frame: " (ReadFrame DefaultMaxFramePayloadSize s) ≫= λ '(f, s),
             decode true codec (Some cx) f s)
      else (None, decode false "" None f s)
  end.
(** [acceptConnection].  A connection of wire v1 is read from its first byte. *)
Definition acceptConnection (rnd : result (list byte)) (s : list byte)
    : option Frame * result (acceptedConnection * list byte) :=
  match wrap_err "read wire protocol magic: " (CheckMagic s) with
  | Err e => (None, Err e)
  | Ok (UseConn s, _) => readFirstV2Msg rnd s
  | Ok (UseShared peeked s, _) =>
      (None, V1_ReadMsg (peeked ++ s) ≫= λ '(m, s), Ok (mkAccepted "v1" false "" None m, s))
  end.
End accept.

Section control.
Context `{ControlCipher}.
Definition newControlReadWriter (ac : acceptedConnection) (key : list byte) : result control_rw :=
  if decide (ac_wireProtocol ac = "v2") then
    match ac_cryptoContext ac with
    | None => Err "missing v2 crypto negotiation"
    | Some cx => NewAEADCryptoReadWriter key AEADCryptoRoleServer (cx_Algorithm cx) (cx_TranscriptHash cx)
    end
  else NewCryptoReadWriter key.
End control.

(** The service: its configuration and authentication, and the version it tells. *)
Record service := mkService { sv_cfg : ServerConfig; sv_auth : ServerAuth; sv_version : string }.
(** What a login meets: time, random bytes, the remote address, and the outcomes of the
    manager's operations, with the success response's write.  [le_complete] is [None] when
    the control is no longer current, else the write's outcome and whether it started. *)
Record login_env := mkLoginEnv {
  ln_now : Z;
  ln_random : nat → list byte;
  ln_remote : string;
  ln_add : result unit;
  ln_activate : bool * result unit;
  ln_complete : option (result unit * bool);
}.
(** The effects of one connection: hello and responses written; the control of a run removed from the
    manager, closed, or running with its cipher; connection in a pool or closed. *)
Inductive seffect : Type :=
| SServerHello (f : Frame)
| SLoginResp (m : LoginResp)
| SRemoved
| SControlClosed
| SStarted (runID : string) (rw : control_rw) (rest : list byte)
| SStartWorkConn (m : StartWorkConn)
| SPooled (k : nat)
| SClosed.
(** What a work connection meets: the manager when its run is looked up and when it enters
    the pool, with what was read before the run gate each time, whether the manager is seen
    closed, and the connection's name. *)
Record work_env := mkWorkEnv {
  wn_first1 : option controlEntry;
  wn_m1 : manager;
  wn_first2 : option controlEntry;
  wn_closed : bool;
  wn_m2 : manager;
  wn_conn : nat;
}.

Section handle.
Context `{Text} `{JSON} `{MsgJSON} `{V1Codec} `{ControlCipher} (svr : service).

(** [RegisterControl]: the control when there is one, and the error. *)
Definition RegisterControl (ac : acceptedConnection) (m : Login) (e : login_env)
    : option Control * result unit :=
  match create_control (ln_now e) (ln_random e) (sa_Verifier (sv_auth svr)) (sv_cfg svr) (ln_remote e) m
          (ac_wireProtocol ac) (ac_udpPacketCodec ac) with
  | Err err => (None, Err err)
  | Ok ctl =>
      (Some ctl,
       ln_add e ≫= λ _,
       match ln_activate e with
       | (_, Err err) => Err err
       | (active, Ok _) => if active then Ok tt else Err errControlReplaced
       end)
  end.
Definition login_error (err : string) : LoginResp :=
  mkLoginResp (sv_version svr) ""
    (GenerateResponseErrorString "register control error" err (from_ptr (sc_DetailedErrorsToClient (sv_cfg svr)))).
Definition login_ok (ctl : Control) : LoginResp := mkLoginResp (sv_version svr) (c_runID ctl) "".

(** The case of a [Login]; [rest] are the bytes after it. *)
Definition handle_login (ac : acceptedConnection) (m : Login) (rest : list byte) (e : login_env) : list seffect :=
  let fail ctl err :=
    match ctl with
    | Some _ => [SRemoved; SLoginResp (login_error err); SControlClosed]
    | None => [SLoginResp (login_error err); SClosed]
    end in
  match newControlReadWriter ac (sa_key (sv_auth svr)) with
  | Err err => fail (None : option Control) err
  | Ok rw =>
      match RegisterControl ac m e with
      | (ctl, Err err) => fail ctl err
      | (None, Ok _) => []   (* does not happen: without a control there is an error *)
      | (Some ctl, Ok _) =>
          match ln_complete e with
          | Some (Ok _, true) => [SLoginResp (login_ok ctl); SStarted (c_runID ctl) rw rest]
          | Some (_, _) => [SLoginResp (login_ok ctl); SRemoved; SControlClosed]
          | None => [SRemoved; SControlClosed]
          end
      end
  end.

(** [RegisterWorkConn] of the service: the control it entered the pool of.  The control found
    is looked up again in the later state of the store, which it never leaves. *)
Definition RegisterWorkConn (newMsg : NewWorkConn) (wireProtocol : string) (helloPresent : bool) (e : work_env)
    : result nat * manager :=
  if helloPresent then (Err "ClientHello is not allowed on work connections", wn_m2 e)
  else
    match GetByID (wn_first1 e) (nw_RunID newMsg) (wn_m1 e) ≫= λ k, pair k <$> ctls (wn_m2 e) !! k with
    | None => (Err ("no client control found for run id [" +:+ nw_RunID newMsg +:+ "]"), wn_m2 e)
    | Some (k, x) =>
        let want := sx_WireProtocol (c_ctx (k_c x)) in
        if decide (wireProtocol ≠ want)
        then (Err ("work connection wire protocol mismatch: got " +:+ wireProtocol +:+ " want " +:+ want), wn_m2 e)
        else
          match VerifyNewWorkConn (sa_Verifier (sv_auth svr)) newMsg with
          | Err err => (Err err, wn_m2 e)
          | Ok _ =>
              let '(r, m) := Control.RegisterWorkConn (wn_first2 e) (wn_closed e) k x (wn_conn e) (wn_m2 e) in
              (r ≫= λ _, Ok k, m)
          end
    end.
Definition handle_work (ac : acceptedConnection) (m : NewWorkConn) (e : work_env) : list seffect :=
  match RegisterWorkConn m (ac_wireProtocol ac) (ac_clientHelloPresent ac) e with
  | (Ok k, _) => [SPooled k]
  | (Err err, _) =>
      [SStartWorkConn (mkStartWorkConn "" "" "" 0 0
         (GenerateResponseErrorString "invalid NewWorkConn" err (from_ptr (sc_DetailedErrorsToClient (sv_cfg svr)))));
       SClosed]
  end.

Definition written (f : option Frame) : list seffect := from_option (λ f, [SServerHello f]) [] f.
Definition handleConnection (rnd : result (list byte)) (s : list byte) (le : login_env) (we : work_env) : list seffect :=
  let '(sh, r) := acceptConnection rnd s in
  written sh ++
  match r with
  | Err _ => [SClosed]
  | Ok (ac, rest) =>
      match ac_firstMsg ac with
      | MLogin m => handle_login ac m rest le
      | MNewWorkConn m => handle_work ac m we
      | _ => [SClosed]
      end
  end.
End handle.

(** ** Theorems *)

(** Every effect that ends the handling of a connection. *)
Definition is_fate (x : seffect) : bool :=
  match x with SStarted _ _ _ | SPooled _ | SClosed | SControlClosed => true | _ => false end.

Lemma RegisterControl_None `{Text} svr ac m e r : RegisterControl svr ac m e = (None, r) → ∃ err, r = Err err.
Proof. unfold RegisterControl. destruct (create_control _ _ _ _ _ _ _ _); [done|]. intros [= <-]. eauto. Qed.

(** The shape of a handled login: what precedes its one fate, and what a start needs. *)
Lemma handle_login_shape `{Text} `{ControlCipher} svr ac m rest e :
  let t := handle_login svr ac m rest e in
  (∃ t' y, t = t' ++ [y] ∧ is_fate y = true ∧ Forall (λ z, is_fate z = false) t')
  ∧ (∀ k, SPooled k ∉ t)
  ∧ ∀ run rw r, SStarted run rw r ∈ t → r = rest ∧ newControlReadWriter ac (sa_key (sv_auth svr)) = Ok rw
      ∧ ∃ ctl, RegisterControl svr ac m e = (Some ctl, Ok tt) ∧ run = c_runID ctl
          ∧ t = [SLoginResp (login_ok svr ctl); SStarted run rw rest].
Proof.
  unfold handle_login. destruct (newControlReadWriter _ _) as [rw|err] eqn:Hrw.
  2:{ split_and!; [eexists [_], _; by repeat constructor| |]; intros; set_solver. }
  destruct (RegisterControl svr ac m e) as [[ctl|] [[]|err]] eqn:Hr.
  - destruct (ln_complete e) as [[[[]|err] [|]]|];
      (split_and!; [first [eexists [_], _; by repeat constructor|eexists [_; _], _; by repeat constructor]| |]);
      intros; set_unfold; naive_solver.
  - split_and!; [eexists [_; _], _; by repeat constructor| |]; intros; set_solver.
  - by apply RegisterControl_None in Hr as [? ?].
  - split_and!; [eexists [_], _; by repeat constructor| |]; intros; set_solver.
Qed.

(** The run id of a control is a valid text. *)
Lemma create_control_run_valid `{Text} `{Verifier V} now rnd (v : V) cfg remote m proto codec c :
  create_control now rnd v cfg remote m proto codec = Ok c → ValidString (c_runID c) = true.
Proof.
  unfold create_control. intros ([] & _ & ([] & Hr%wrap_err_Ok & ([] & _ & Hc)%result_bind_Ok)%result_bind_Ok)%result_bind_Ok.
  set (m' := if decide _ then _ else m) in *.
  assert (Hv : ValidString (lg_RunID m') = true).
  { apply bool_decide_eq_true. unfold ValidateRunID, validateIdentifier in Hr. destruct (runes (lg_RunID m')); [by eexists|]. repeat case_match; done. }
  unfold NewControl in Hc. by repeat (case_match; simplify_eq/=).
Qed.
Lemma RegisterControl_run_valid `{Text} svr ac m e c r : RegisterControl svr ac m e = (Some c, r) → ValidString (c_runID c) = true.
Proof. unfold RegisterControl. destruct (create_control _ _ _ _ _ _ _ _) as [c'|err] eqn:E; intros [= <- <-]. exact (create_control_run_valid _ _ _ _ _ _ _ _ _ E). Qed.
Lemma create_control_verified `{Text} `{Verifier V} now rnd (v : V) cfg remote m proto codec c :
  create_control now rnd v cfg remote m proto codec = Ok c → VerifyLogin v (sx_LoginMsg (c_ctx c)) = Ok tt.
Proof.
  unfold create_control. intros ([] & _ & ([] & _ & ([] & Hv & Hc)%result_bind_Ok)%result_bind_Ok)%result_bind_Ok.
  set (m' := if decide _ then _ else m) in *. unfold NewControl in Hc.
  repeat (case_match; simplify_eq/=). exact Hv.
Qed.

(** What an accepted connection tells of its hello. *)
Lemma accept_shape `{JSON} `{MsgJSON} `{V1Codec} rnd s sh ac rest :
  acceptConnection rnd s = (sh, Ok (ac, rest)) →
  (ac_clientHelloPresent ac = false ∧ sh = None ∧ ac_cryptoContext ac = None ∧ ac_udpPacketCodec ac = "")
  ∨ ac_clientHelloPresent ac = true ∧ ac_wireProtocol ac = "v2"
    ∧ ∃ f cx, sh = Some f ∧ ac_cryptoContext ac = Some cx.
Proof.
  unfold acceptConnection. destruct (wrap_err _ (CheckMagic s)) as [[[peeked s'|s'] b]|]; [| |done].
  - intros [= <- ([m r] & _ & [= <- <-])%result_bind_Ok]. by left.
  - unfold readFirstV2Msg. destruct (wrap_err _ _) as [[f s1]|]; [|done]. case_decide.
    + destruct (handleClientHello f rnd) as [sh' r] eqn:Hh. intros [= <- Hr]. right.
      apply result_bind_Ok in Hr as ([cx codec] & -> & ([f2 s2] & _ & (m & _ & [= <- <-])%result_bind_Ok)%result_bind_Ok).
      split_and!; [done..|]. unfold handleClientHello in Hh. repeat (case_match; simplify_eq/=). eauto.
    + intros [= <- (m & _ & [= <- <-])%result_bind_Ok]. by left.
Qed.

(** C28. Every connection ends one way.  Whatever bytes arrive and whatever the manager
    answers, the handling of a connection has exactly one fate, as its last effect: a running
    control, a place in a pool, or a closed connection.  A control runs only for a login
    that was read off the connection, passed the checks of [RegisterControl] (so its key
    is the token's) and got a cipher, under wire v2 after a hello; its success response has
    been written, and every byte after the login is left to the control.  A connection in a
    pool carried no hello and its message passed the verifier. *)
Theorem connection_one_fate `{Text} `{JSON} `{MsgJSON} `{V1Codec} `{ControlCipher} (svr : service)
    (rnd : result (list byte)) (s : list byte) (le : login_env) (we : work_env) :
  let t := handleConnection svr rnd s le we in
  (∃ t' y, t = t' ++ [y] ∧ is_fate y = true ∧ Forall (λ z, is_fate z = false) t')
  ∧ (∀ run rw rest, SStarted run rw rest ∈ t → ∃ sh ac m ctl,
       acceptConnection rnd s = (sh, Ok (ac, rest)) ∧ ac_firstMsg ac = MLogin m
       ∧ RegisterControl svr ac m le = (Some ctl, Ok tt) ∧ run = c_runID ctl
       ∧ VerifyLogin (sa_Verifier (sv_auth svr)) (sx_LoginMsg (c_ctx ctl)) = Ok tt
       ∧ newControlReadWriter ac (sa_key (sv_auth svr)) = Ok rw
       ∧ (ac_wireProtocol ac = "v2" → ∃ f cx, sh = Some f ∧ ac_cryptoContext ac = Some cx)
       ∧ t = written sh ++ [SLoginResp (login_ok svr ctl); SStarted run rw rest])
  ∧ (∀ k, SPooled k ∈ t → ∃ ac m rest, acceptConnection rnd s = (None, Ok (ac, rest))
       ∧ ac_firstMsg ac = MNewWorkConn m ∧ ac_clientHelloPresent ac = false
       ∧ VerifyNewWorkConn (sa_Verifier (sv_auth svr)) m = Ok tt ∧ t = [SPooled k]).
Proof.
  intros t. unfold t, handleConnection. destruct (acceptConnection rnd s) as [sh [[ac rest]|err]] eqn:Ha.
  2:{ split_and!; [exists (written sh), SClosed; split_and!; [done..|by destruct sh; repeat constructor]| |];
      intros; exfalso; destruct sh; set_solver. }
  assert (Hw : Forall (λ z, is_fate z = false) (written sh)) by (by destruct sh; repeat constructor).
  assert (Hn : ∀ y, is_fate y = true → y ∉ written sh) by (destruct sh; set_solver).
  pose proof (accept_shape _ _ _ _ _ Ha) as Hs.
  destruct (ac_firstMsg ac) as [m| | | | |m| | | | | | | | | | | |] eqn:Hm.
  2-5,7-18: split_and!; [by exists (written sh), SClosed|intros; exfalso; destruct sh; set_solver..].
  - destruct (handle_login_shape svr ac m rest le) as ((t' & y & Heq & Hy & Hf) & Hp & Hst). split_and!.
    + exists (written sh ++ t'), y. rewrite Heq, (assoc_L (++)). by rewrite Forall_app.
    + intros run rw r [Hin|Hin]%elem_of_app; [by apply Hn in Hin|].
      destruct (Hst _ _ _ Hin) as (-> & Hrw & ctl & Hr & -> & ->). exists sh, ac, m, ctl.
      split_and!; try done.
      * unfold RegisterControl in Hr. destruct (create_control _ _ _ _ _ _ _ _) as [c|] eqn:Hc; [|done].
        injection Hr as -> _. by eapply create_control_verified.
      * intros Hv. destruct Hs as [(_ & _ & Hcx & _)|(_ & _ & f & cx & -> & Hcx)]; [|eauto].
        unfold newControlReadWriter in Hrw. by rewrite decide_True, Hcx in Hrw.
    + intros k [Hin|Hin]%elem_of_app; [by apply Hn in Hin|by apply Hp in Hin].
  - unfold handle_work. destruct (RegisterWorkConn _ _ _ _ _) as [[k|e] m'] eqn:Hr.
    + split_and!; [by exists (written sh), (SPooled k)|intros; exfalso; destruct sh; set_solver|].
      intros k' [Hin|Hin]%elem_of_app; [by apply Hn in Hin|]. apply list_elem_of_singleton in Hin as [= ->].
      unfold RegisterWorkConn in Hr. destruct (ac_clientHelloPresent ac) eqn:Hh; [done|].
      destruct Hs as [(_ & -> & _)|[? _]]; [|done]. exists ac, m, rest. split_and!; try done.
      destruct (_ ≫= _) as [[k1 x]|]; [|done]. case_decide; [done|].
      by destruct (VerifyNewWorkConn _ _) as [[]|].
    + split_and!; [|intros; exfalso; destruct sh; set_solver..].
      exists (written sh ++ [SStartWorkConn (mkStartWorkConn "" "" "" 0 0
        (GenerateResponseErrorString "invalid NewWorkConn" e (from_ptr (sc_DetailedErrorsToClient (sv_cfg svr)))))]), SClosed.
      rewrite <-(assoc_L (++)). split_and!; [done..|]. apply Forall_app; split; [done|by repeat constructor].
Qed.

(** ** A client's login meets the server *)

(** The hello this server answers to a client of this program. *)
Definition server_hello (fast : bool) (rs : list byte) : ServerHello :=
  mkServerHello (mkMessageSel MessageCodecJSON Wire.UDPPacketCodecBinary)
    (mkCryptoSel (if fast then AEADAlgorithmAES256GCM else AEADAlgorithmXChaCha20Poly1305) rs) "".

(** What the two ends rely on of [encoding/json] in one login: hellos, login and a response
    with a valid run id read back as what was written, and the server's hello fits a frame. *)
Record json_ok `{JSON} `{MsgJSON} (h : ClientHello) (sh : ServerHello) (m : Login) (resp : string → LoginResp)
    (q : list byte) : Prop := mkJsonOk {
  jo_hello p : MarshalClientHello h = Ok p → UnmarshalClientHello p = Ok h;
  jo_server : MarshalServerHello sh = Ok q ∧ Z.of_nat (length q) ≤ DefaultMaxFramePayloadSize
    ∧ UnmarshalServerHello q = Ok sh;
  jo_login p : MarshalMsg (MLogin m) = Ok p → UnmarshalMsg TLogin p = Ok (MLogin m);
  jo_resp run p : ValidString run = true → MarshalMsg (MLoginResp (resp run)) = Ok p →
    UnmarshalMsg TLoginResp p = Ok (MLoginResp (resp run));
}.

Section meeting.
Context `{JSON} `{MsgJSON} `{V1Codec} (fast : bool) (b : BootstrapInfo) (rc rs : list byte).
Context (m : Login) (resp : string → LoginResp) (q : list byte).
Let h := clientHelloWithCryptoRandom fast b rc.
Let sh := server_hello fast rs.
Context (Hrc : length rc = CryptoRandomSize) (Hrs : length rs = CryptoRandomSize).
Context (Hjson : json_ok h sh m resp q).

(** The server takes the hello and answers with its own. *)
Lemma NewServerHello_client : NewServerHello h (Ok rs) = Ok sh.
Proof.
  unfold NewServerHello, ValidateClientHello, ValidateCryptoCapabilities, h, clientHelloWithCryptoRandom.
  cbn [ch_Message ch_Crypto mc_Codecs mc_UDPPacketCodecs cc_ClientRandom cc_Algorithms].
  rewrite Hrc. by destruct fast.
Qed.
Lemma ValidateServerHello_client : ValidateServerHelloForClient h sh = Ok tt.
Proof.
  unfold ValidateServerHelloForClient, sh, server_hello, h, clientHelloWithCryptoRandom.
  cbn [sh_Message sh_Crypto ms_Codec ms_UDPPacketCodec cs_Algorithm cs_ServerRandom
       ch_Message ch_Crypto mc_Codecs mc_UDPPacketCodecs cc_ClientRandom cc_Algorithms].
  rewrite Hrs. by destruct fast.
Qed.

Lemma handleClientHello_client p : UnmarshalClientHello p = Ok h →
  handleClientHello (mkFrame FrameTypeClientHello 0 p) (Ok rs) =
    (Some (mkFrame FrameTypeServerHello 0 q),
     Ok (NewCryptoContext (cs_Algorithm (sh_Crypto sh)) p q, Wire.UDPPacketCodecBinary)).
Proof.
  intros Hp. destruct (jo_server _ _ _ _ _ Hjson) as (Hm & Hl & _). unfold handleClientHello.
  cbn [f_Payload]. rewrite Hp. cbn [wrap_err]. rewrite NewServerHello_client, Hm.
  unfold sent, WriteFrame. cbn [f_Flags f_Payload]. rewrite decide_False by (by intros []).
  by rewrite (proj2 (Z.ltb_ge _ _)) by done.
Qed.
Lemma acceptServerHello_client p : UnmarshalClientHello p = Ok h →
  acceptServerHello p (mkFrame FrameTypeServerHello 0 q) =
    Ok (NewCryptoContext (cs_Algorithm (sh_Crypto sh)) p q, Wire.UDPPacketCodecBinary).
Proof.
  intros Hp. destruct (jo_server _ _ _ _ _ Hjson) as (_ & _ & Hq). unfold acceptServerHello.
  cbn [f_Type f_Payload]. rewrite decide_False by (by intros []). rewrite Hq. cbn [mbind result_bind].
  rewrite decide_False by (by intros []). unfold NewClientCryptoContext. rewrite Hp, Hq.
  cbn [wrap_err mbind result_bind]. by rewrite ValidateServerHello_client.
Qed.

(** The client's bytes are accepted as its login, up to the last one. *)
Lemma accept_client p b1 b2 rest :
  UnmarshalClientHello p = Ok h →
  WriteFrame DefaultMaxFramePayloadSize (mkFrame FrameTypeClientHello 0 p) = Ok b1 →
  V2_WriteMsg (Some (MLogin m)) = Ok b2 →
  acceptConnection (Ok rs) (MagicV2 ++ b1 ++ b2 ++ rest) =
    (Some (mkFrame FrameTypeServerHello 0 q),
     Ok (mkAccepted "v2" true Wire.UDPPacketCodecBinary
           (Some (NewCryptoContext (cs_Algorithm (sh_Crypto sh)) p q)) (MLogin m), rest)).
Proof.
  intros Hp Hb1 Hb2. apply result_bind_Ok in Hb2 as (f & Hf & Hb2).
  assert (∃ c, MarshalMsg (MLogin m) = Ok c) as [c Hc].
  { unfold EncodeV2MessageFrame in Hf. by apply result_bind_Ok in Hf as (c & ? & _); exists c. }
  destruct (MsgV2.decode_encode _ _ _ Hf Hc) as (Ht & Hd & _).
  unfold acceptConnection. rewrite (proj1 (magic_separates _)). cbn [wrap_err]. unfold readFirstV2Msg.
  rewrite (read_written_frame _ (mkFrame FrameTypeClientHello 0 p) b1) by done. cbn [wrap_err f_Type].
  rewrite decide_True by done. rewrite handleClientHello_client by done. cbn [mbind result_bind].
  rewrite (read_written_frame _ f b2) by (done || by rewrite Ht). cbn [wrap_err mbind result_bind].
  rewrite Hd, (jo_login _ _ _ _ _ Hjson) by done. done.
Qed.

(** The client accepts the answer and leaves the bytes after it. *)
Lemma read_resp_written run b3 out : ValidString run = true → V2_WriteMsg (Some (MLoginResp (resp run))) = Ok b3 →
  read_resp ClientDial.ProtocolV2 (b3 ++ out) = Ok (resp run, out).
Proof.
  intros Hv Hb. apply result_bind_Ok in Hb as (f & Hf & Hb).
  assert (∃ c, MarshalMsg (MLoginResp (resp run)) = Ok c) as [c Hc].
  { unfold EncodeV2MessageFrame in Hf. by apply result_bind_Ok in Hf as (c & ? & _); exists c. }
  destruct (MsgV2.decode_encode _ _ _ Hf Hc) as (Ht & _ & Hd).
  unfold read_resp, rw_ReadMsgInto. rewrite decide_True by done. unfold V2_ReadMsgInto.
  rewrite (read_written_frame _ f b3) by (done || by rewrite Ht). cbn [mbind result_bind].
  rewrite Hd. cbn [type_of]. rewrite decide_True by done. by rewrite (jo_resp _ _ _ _ _ Hjson run c Hv).
Qed.
End meeting.

(** The plain bytes the server has written for these effects. *)
Fixpoint server_bytes `{MsgJSON} (t : list seffect) : result (list byte) :=
  match t with
  | [] => Ok []
  | SServerHello f :: t =>
      WriteFrame DefaultMaxFramePayloadSize f ≫= λ b, server_bytes t ≫= λ s, Ok (b ++ s)
  | SLoginResp m :: t => V2_WriteMsg (Some (MLoginResp m)) ≫= λ b, server_bytes t ≫= λ s, Ok (b ++ s)
  | SStartWorkConn m :: t => V2_WriteMsg (Some (MStartWorkConn m)) ≫= λ b, server_bytes t ≫= λ s, Ok (b ++ s)
  | _ :: t => server_bytes t
  end.

Lemma login_bytes_Ok `{JSON} `{MsgJSON} `{V1Codec} common m x rc bs :
  ct_WireProtocol (cc_Transport common) = "v2" → xe_random x = Ok rc → login_bytes common m x = Ok bs →
  ∃ p b1 b2, MarshalClientHello (clientHelloWithCryptoRandom (xe_fast x) (bootstrap common) rc) = Ok p
    ∧ client_hello common x = Ok (mkFrame FrameTypeClientHello 0 p)
    ∧ WriteFrame DefaultMaxFramePayloadSize (mkFrame FrameTypeClientHello 0 p) = Ok b1
    ∧ V2_WriteMsg (Some (MLogin m)) = Ok b2 ∧ bs = MagicV2 ++ b1 ++ b2.
Proof.
  intros Hv Hr. unfold login_bytes. rewrite decide_True by done.
  intros (f & Hf & (b1 & Hb1 & (b2 & Hb2 & [= <-])%result_bind_Ok)%result_bind_Ok)%result_bind_Ok.
  pose proof Hf as Hf'. unfold client_hello, NewClientHello, newCryptoRandom in Hf'. rewrite Hr in Hf'.
  apply result_bind_Ok in Hf' as (? & [= <-] & (p & Hp & [= <-])%result_bind_Ok).
  by exists p, b1, b2.
Qed.

(** The token of the client is the one the server checks. *)
Lemma VerifyLogin_same_token (c s : TokenAuth) m : ta_token c = ta_token s → VerifyLogin s (SetLogin c m) = Ok tt.
Proof.
  intros Ht. cbn. unfold token_VerifyLogin. rewrite ConstantTimeEqString_spec. cbn. rewrite Ht.
  by rewrite bool_decide_eq_true_2.
Qed.

(** The run id of a login: the client's, or a random one. *)
Definition run_of (rnd : nat → list byte) (m : Login) : string :=
  if decide (lg_RunID m = "") then RandID rnd else lg_RunID m.
Definition pool_fits (m : Login) (cfg : ServerConfig) : Prop :=
  0 ≤ lg_PoolCount m ≤ MaxInt64 - workConnPoolCapacityOffset ∧ 0 ≤ st_MaxPoolCount (sc_Transport cfg).

Lemma create_control_same_token `{Text} now rnd (c s : TokenAuth) cfg remote m0 codec :
  let m := SetLogin c m0 in
  ta_token c = ta_token s → codec = "" ∨ codec = Session.UDPPacketCodecBinary →
  ValidateRunID (run_of rnd m) = Ok tt → pool_fits m cfg →
  ∃ ctl, create_control now rnd s cfg remote m "v2" codec = Ok ctl ∧ c_runID ctl = run_of rnd m.
Proof.
  intros m Ht Hc Hrun [Hp Hmax]. unfold create_control.
  rewrite (proj2 (check_wire_Ok _ _)) by (right; by split). cbn [mbind result_bind].
  set (m' := if decide _ then _ else m).
  assert (Hm' : m' = SetLogin c (set_run_id (run_of rnd m) m0)).
  { unfold m', run_of. by destruct (decide _); [|destruct m0]. }
  rewrite Hm'. cbn [SetLogin set_login_key set_run_id lg_RunID]. rewrite Hrun. cbn [wrap_err mbind result_bind].
  fold (SetLogin c (set_run_id (run_of rnd m) m0)).
  change (mkLogin _ _ _ _ _ _ _ _ _ _ _ _) with (SetLogin c (set_run_id (run_of rnd m) m0)).
  rewrite (VerifyLogin_same_token c s) by done. cbn [mbind result_bind]. unfold NewControl. cbn.
  change (lg_PoolCount m0) with (lg_PoolCount m). unfold workConnPoolCapacityOffset in *.
  rewrite !(proj2 (Z.ltb_ge _ _)) by lia. by eexists.
Qed.

(** The client's side, from the bytes the server wrote. *)
Lemma client_reads `{JSON} `{MsgJSON} `{V1Codec} `{ControlCipher} common auth spec prev d p f cx codec resp b1 b2 c1 s out :
  let x := de_exchange d in
  ct_WireProtocol (cc_Transport common) = "v2" → from_option cs_Type "" spec ≠ "ssh-tunnel" →
  client_hello common x = Ok (mkFrame FrameTypeClientHello 0 p) →
  WriteFrame DefaultMaxFramePayloadSize (mkFrame FrameTypeClientHello 0 p) = Ok b1 →
  V2_WriteMsg (Some (MLogin (buildLoginMsg (de_host d) common auth spec prev))) = Ok b2 →
  f_Type f = FrameTypeServerHello → WriteFrame DefaultMaxFramePayloadSize f = Ok c1 →
  acceptServerHello p f = Ok (cx, codec) → read_resp ClientDial.ProtocolV2 s = Ok (resp, out) →
  lr_Error resp = "" → xe_in x = c1 ++ s →
  xe_magic x = None → xe_write_hello x = None → xe_write_login x = None →
  log_in common auth spec prev d =
    match ClientDial.newControlReadWriter common (ca_key auth) (Some cx) with
    | Ok crw => Ok (ClientDial.mkSessionContext (lr_RunID resp) (Some crw) out codec)
    | Err err => Err ("create control crypto read writer: " +:+ err)
    end.
Proof.
  intros x Hv Hspec Hch Hb1 Hb2 Hf Hc1 Hacc Hresp He Hin Hm1 Hm2 Hm3.
  unfold log_in, exchangeLogin. fold x. rewrite decide_True by done.
  rewrite Hm1, Hm2, Hm3, Hch, Hin. cbn [called mbind result_bind]. rewrite Hb1, Hb2. cbn [mbind result_bind].
  rewrite (read_written_frame _ f c1) by (done || by rewrite Hf). cbn [mbind result_bind f_Payload].
  rewrite Hacc. cbn [mbind result_bind]. rewrite Hresp. cbn [mbind result_bind le_resp le_crypto le_udpPacketCodec].
  rewrite He, (decide_False (P := "" ≠ "")), (decide_False (P := _ = "ssh-tunnel")) by (done || by intros []).
  by destruct (ClientDial.newControlReadWriter _ _ _).
Qed.

(** C5. A client's login meets the server.  Take a client and a server of this program with
    the same token and key, wire v2, and JSON that reads back what it wrote.  From the bytes the
    client writes the server accepts exactly the client's login, and leaves every byte
    after it to the control; when the run id is valid, the pool sizes fit and the manager
    goes along, it answers hello and response and starts the control.  And whenever it has
    started one, the client that reads what the server wrote gets a session with the same
    run id and UDP codec, the bytes after the response left to it, and a control channel
    whose ends meet: each end writes with the key the other reads with. *)
Theorem login_meets `{Text} `{JSON} `{MsgJSON} `{V1Codec} `{ControlCipher} (common : ClientCommonConfig)
    (auth : ClientAuth) (spec : option ClientSpec) (prev : string) (d : dial_env) (svr : service)
    (rc rs q bs : list byte) :
  let x := de_exchange d in
  let m := buildLoginMsg (de_host d) common auth spec prev in
  ct_WireProtocol (cc_Transport common) = "v2" → from_option cs_Type "" spec ≠ "ssh-tunnel" →
  xe_random x = Ok rc → length rc = CryptoRandomSize → length rs = CryptoRandomSize →
  json_ok (clientHelloWithCryptoRandom (xe_fast x) (bootstrap common) rc) (server_hello (xe_fast x) rs) m
    (λ run, mkLoginResp (sv_version svr) run "") q →
  ca_key auth = sa_key (sv_auth svr) → ta_token (ca_Setter auth) = ta_token (sa_Verifier (sv_auth svr)) →
  login_bytes common m x = Ok bs →
  ∃ shf cx, let ac := mkAccepted "v2" true Wire.UDPPacketCodecBinary (Some cx) (MLogin m) in
    (∀ rest, acceptConnection (Ok rs) (bs ++ rest) = (Some shf, Ok (ac, rest)))
    ∧ (∀ rest e we srw, ValidateRunID (run_of (ln_random e) m) = Ok tt → pool_fits m (sv_cfg svr) →
         ln_add e = Ok tt → ln_activate e = (true, Ok tt) → ln_complete e = Some (Ok tt, true) →
         newControlReadWriter ac (sa_key (sv_auth svr)) = Ok srw →
         handleConnection svr (Ok rs) (bs ++ rest) e we =
           [SServerHello shf; SLoginResp (mkLoginResp (sv_version svr) (run_of (ln_random e) m) "");
            SStarted (run_of (ln_random e) m) srw rest])
    ∧ (∀ rest e we run srw left out b,
         let t := handleConnection svr (Ok rs) (bs ++ rest) e we in
         SStarted run srw left ∈ t → server_bytes t = Ok b → xe_in x = b ++ out →
         xe_magic x = None → xe_write_hello x = None → xe_write_login x = None →
         left = rest ∧
         match ClientDial.newControlReadWriter common (ca_key auth) (Some cx) with
         | Ok crw => log_in common auth spec prev d
                       = Ok (ClientDial.mkSessionContext run (Some crw) out Wire.UDPPacketCodecBinary)
                     ∧ meets crw srw
         | Err err => log_in common auth spec prev d = Err ("create control crypto read writer: " +:+ err)
         end).
Proof.
  intros x m Hv Hspec Hxr Hrc Hrs Hjson Hkey Htok Hbs.
  destruct (login_bytes_Ok _ _ _ _ _ Hv Hxr Hbs) as (p & b1 & b2 & Hp & Hch & Hb1 & Hb2 & ->).
  pose proof (jo_hello _ _ _ _ _ Hjson p Hp) as Hup.
  set (shf := mkFrame FrameTypeServerHello 0 q).
  set (cx := NewCryptoContext (cs_Algorithm (sh_Crypto (server_hello (xe_fast x) rs))) p q).
  assert (Hacc : ∀ rest, acceptConnection (Ok rs) ((MagicV2 ++ b1 ++ b2) ++ rest) =
    (Some shf, Ok (mkAccepted "v2" true Wire.UDPPacketCodecBinary (Some cx) (MLogin m), rest))).
  { intros rest. rewrite <-!(assoc_L (++)). by apply (accept_client _ _ _ _ _ _ _ Hrc Hjson). }
  exists shf, cx. intros ac. split_and!; [done| |].
  - intros rest e we srw Hrun Hpool Ha Hact Hcomp Hrw. unfold handleConnection. rewrite Hacc.
    cbn [ac_firstMsg written from_option]. unfold handle_login. fold ac. rewrite Hrw. unfold RegisterControl, ac.
    cbn [ac_wireProtocol ac_udpPacketCodec].
    destruct (create_control_same_token (ln_now e) (ln_random e) (ca_Setter auth) (sa_Verifier (sv_auth svr))
      (sv_cfg svr) (ln_remote e) _ Wire.UDPPacketCodecBinary Htok (or_intror eq_refl) Hrun Hpool) as (ctl & Hctl & Hid).
    change (SetLogin _ _) with m in Hctl. rewrite Hctl, Ha, Hact, Hcomp. cbn. unfold login_ok. by rewrite Hid.
  - intros rest e we run srw left out b t Hst Hb Hin Hm1 Hm2 Hm3.
    unfold t, handleConnection in Hst, Hb. rewrite Hacc in Hst, Hb. cbn [ac_firstMsg written from_option] in Hst, Hb.
    fold ac in Hst, Hb. apply elem_of_app in Hst as [Hst|Hst]; [set_solver|].
    destruct (handle_login_shape svr ac m rest e) as (_ & _ & Hshape).
    destruct (Hshape _ _ _ Hst) as (-> & Hsrw & ctl & Hreg%RegisterControl_run_valid & -> & Ht). split; [done|]. rewrite Ht in Hb. clear Hshape Hst t.
    apply result_bind_Ok in Hb as (c1 & Hc1 & (s & (c2 & Hc2 & (c3 & [= <-] & [= <-])%result_bind_Ok)%result_bind_Ok & [= <-])%result_bind_Ok).
    rewrite app_nil_r, <-(assoc_L (++)) in Hin.
    rewrite (client_reads common auth spec prev d p shf cx Wire.UDPPacketCodecBinary _ b1 b2 c1 _ out Hv Hspec Hch
      Hb1 Hb2 eq_refl Hc1 (acceptServerHello_client _ _ _ _ _ _ _ Hrs Hjson _ Hup)
      (read_resp_written _ _ _ _ _ _ _ Hjson _ _ out Hreg Hc2) eq_refl Hin Hm1 Hm2 Hm3).
    destruct (ClientDial.newControlReadWriter _ _ _) as [crw|err] eqn:Hcrw; [|done]. split; [done|].
    unfold ClientDial.newControlReadWriter in Hcrw. rewrite decide_True in Hcrw by done.
    unfold newControlReadWriter, ac in Hsrw. rewrite decide_True in Hsrw by done. cbn [ac_cryptoContext] in Hsrw.
    rewrite <-Hkey in Hsrw.
    exact (proj1 (control_ends_meet (ca_key auth) (cx_Algorithm cx) (cx_TranscriptHash cx)) _ _ Hcrw Hsrw).
Qed.

(** ** A client's work connection arrives *)

(** What is relied on of the codecs for one message: it reads back, and a v1 message starts with
    its type byte and is longer than the magic. *)
Record reads_back `{MsgJSON} `{V1Codec} (m : Message) : Prop := mkReadsBack {
  rb_json p : MarshalMsg m = Ok p → UnmarshalMsg (type_of m) p = Ok m;
  rb_v1 b rest : V1_WriteMsg m = Ok b → V1_ReadMsg (b ++ rest) = Ok (m, rest);
  rb_head b : V1_WriteMsg m = Ok b → ∃ l, b = byte_of_Z (msgTypeByte (type_of m)) :: l ∧ (6 ≤ length l)%nat;
}.

(** A first message without a hello is accepted under the protocol it was written in. *)
Lemma accept_message `{JSON} `{MsgJSON} `{V1Codec} rnd proto m b rest :
  reads_back m → proto = "v1" ∨ proto = "v2" → rw_WriteMsg proto m = Ok b →
  acceptConnection rnd (WriteMagicIfV2 proto ++ b ++ rest) = (None, Ok (mkAccepted proto false "" None m, rest)).
Proof.
  intros Hm [->| ->] Hb; unfold rw_WriteMsg in Hb; cbn in Hb; unfold acceptConnection.
  - change (WriteMagicIfV2 "v1" ++ b ++ rest) with (b ++ rest).
    destruct (rb_head _ Hm _ Hb) as (l & -> & Hl).
    destruct (CheckMagic ((byte_of_Z (msgTypeByte (type_of m)) :: l) ++ rest)) as [[c v2]|] eqn:Hc.
    + destruct (magic_separates ((byte_of_Z (msgTypeByte (type_of m)) :: l) ++ rest)) as (_ & Hshape & _ & _).
      pose proof (Hshape _ _ Hc) as Hs. destruct (magic_separates (l ++ rest)) as (_ & _ & Hv1 & _).
      pose proof (Hv1 (type_of m) _ _ Hc) as ->. cbn [wrap_err]. destruct c as [peeked s|s]; [|by destruct Hs].
      destruct Hs as [_ <-]. by rewrite (rb_v1 _ Hm _ _ Hb).
    + exfalso. destruct (magic_separates ((byte_of_Z (msgTypeByte (type_of m)) :: l) ++ rest)) as (_ & _ & _ & Hlen).
      assert (∃ e, CheckMagic ((byte_of_Z (msgTypeByte (type_of m)) :: l) ++ rest) = Err e) as He by eauto.
      apply Hlen in He. cbn in He. rewrite length_app in He. lia.
  - change (WriteMagicIfV2 "v2") with MagicV2. rewrite (proj1 (magic_separates _)). cbn [wrap_err].
    apply result_bind_Ok in Hb as (f & Hf & Hb).
    assert (∃ c, MarshalMsg m = Ok c) as [c Hc].
    { unfold EncodeV2MessageFrame in Hf. by apply result_bind_Ok in Hf as (c & ? & _); exists c. }
    destruct (MsgV2.decode_encode _ _ _ Hf Hc) as (Ht & Hd & _).
    unfold readFirstV2Msg. rewrite (read_written_frame _ f b) by (done || by rewrite Ht).
    cbn [wrap_err]. rewrite Ht, decide_False by done. by rewrite Hd, (rb_json _ Hm _ Hc).
Qed.

(** The request of a client for a pool place: written by [handleReqWorkConn] on a connection of
    its connector, it is accepted as it was written, without a hello, and it passes the
    verifier of a server with the same token whose scopes the client has. *)
Theorem work_conn_arrives `{JSON} `{MsgJSON} `{V1Codec} rnd (c s : TokenAuth) (now : Z) (run proto : string)
    (conn : result connection) (write : option string) (k : connection) (magic b rest : list byte) :
  let m := SetNewWorkConn c now (mkNewWorkConn run "" 0) in
  reads_back (MNewWorkConn m) → proto = "v1" ∨ proto = "v2" →
  message_Connect proto conn write = (Ok (k, magic), false) → rw_WriteMsg proto (MNewWorkConn m) = Ok b →
  ta_token c = ta_token s → (∀ scope, scope ∈ ta_scopes s → scope ∈ ta_scopes c) →
  acceptConnection rnd (magic ++ b ++ rest) = (None, Ok (mkAccepted proto false "" None (MNewWorkConn m), rest))
  ∧ VerifyNewWorkConn s m = Ok tt ∧ nw_RunID m = run.
Proof.
  intros m Hrb Hp (_ & -> & _)%message_Connect_Ok Hb Ht Hs. split; [by apply accept_message|].
  split; [apply (scoped_auth_correct c s now (mkPing "" 0) (mkNewWorkConn run "" 0)); done|].
  unfold m, SetNewWorkConn. by destruct (contains _ _).
Qed.

(** ** Witnesses *)
Definition demo_cipher : ControlCipher :=
  {| AEADKeySize := 32; NewAEADStreamReader _ _ := Ok tt; NewAEADStreamWriter _ _ := Ok tt;
     NewWriter _ := Ok tt |}.
Definition demo_v1 : V1Codec :=
  {| V1_WriteMsg _ := Err "no v1"; V1_ReadMsg _ := Err "no v1"; V1_ReadMsgInto _ _ := Err "no v1" |}.
Definition meet_common : ClientCommonConfig :=
  mkClientCommonConfig "" (mkAuthClientConfig "token" [] "t" None) "alice" "" "" 7000 "" "" None []
    (mkLogConfig "" "" 3 false)
    (mkClientTransportConfig "tcp" "v2" 10 7200 "" "" 3 (Some true) 30 (mkQUICOptions 0 0 0) 30 90
       (mkTLSClientConfig (Some true) (Some true) (mkTLSConfig "" "" "" "")))
    ∅ [] "".
Definition meet_auth : ClientAuth := mkClientAuth (mkTokenAuth [] "t") (bytes_of "t").
Definition meet_host : host := mkHost "host" "linux" "amd64" "0.1" 1700000000.
Definition meet_login : Login := buildLoginMsg meet_host meet_common meet_auth None "r1".
Definition meet_service : service :=
  mkService demo_server_cfg (mkServerAuth (mkTokenAuth [] "t") (bytes_of "t")) "0.1".
Definition meet_json : MsgJSON :=
  {| MarshalMsg m := match m with
       | MLogin _ => Ok [Byte.x7b] | MLoginResp r => Ok (bytes_of (lr_RunID r)) | _ => Err "other" end;
     UnmarshalMsg t p := match t with
       | TLogin => Ok (MLogin meet_login) | TLoginResp => Ok (MLoginResp (mkLoginResp "0.1" (string_of p) ""))
       | _ => Err "other" end |}.
Definition meet_login_env : login_env :=
  mkLoginEnv 7 (λ _, []) "10.0.0.1:4444" (Ok tt) (true, Ok tt) (Some (Ok tt, true)).
Definition meet_work_env : work_env := mkWorkEnv None demo_running None false demo_running 7.
Definition meet_exchange (s : list byte) : exchange_env :=
  mkExchange false (Ok (replicate 32 Byte.x07)) None None None s.
Definition meet_bytes : list byte :=
  match @login_bytes demo_json meet_json demo_v1 meet_common meet_login (meet_exchange []) with
  | Ok bs => bs | Err _ => [] end.
Definition meet_trace : list seffect :=
  @handleConnection demo_text demo_json meet_json demo_v1 demo_cipher meet_service
    (Ok (replicate 32 Byte.x09)) (meet_bytes ++ [Byte.x2a]) meet_login_env meet_work_env.
Definition meet_answer : list byte :=
  match @server_bytes meet_json meet_trace with Ok b => b | Err _ => [] end.
Definition meet_dial : dial_env := mkDial None None meet_host (meet_exchange meet_answer).

Lemma meet_json_ok : @json_ok demo_json meet_json demo_hello (server_hello false (replicate 32 Byte.x09)) meet_login
  (λ run, mkLoginResp "0.1" run "") (enc_hello (server_hello false (replicate 32 Byte.x09))).
Proof.
  split.
  - done.
  - split_and!; [reflexivity|vm_compute; discriminate|by apply dec_enc_hello].
  - done.
  - intros run p _ [= <-]. cbn. by rewrite string_of_bytes_of.
Qed.
Lemma meet_cipher ac key : ac_wireProtocol ac = "v2" → is_Some (ac_cryptoContext ac) →
  ∃ rw, @newControlReadWriter demo_cipher ac key = Ok rw.
Proof. intros Hv [cx Hcx]. unfold newControlReadWriter. rewrite decide_True, Hcx by done. by eexists. Qed.

Lemma login_meets_witness : ∃ shf cx srw crw,
  meet_trace = [SServerHello shf; SLoginResp (mkLoginResp "0.1" "r1" ""); SStarted "r1" srw [Byte.x2a]]
  ∧ @ClientDial.newControlReadWriter demo_cipher meet_common (bytes_of "t") (Some cx) = Ok crw
  ∧ @log_in demo_json meet_json demo_v1 demo_cipher meet_common meet_auth None "r1" meet_dial
      = Ok (ClientDial.mkSessionContext "r1" (Some crw) [] "binary-v1")
  ∧ meets crw srw.
Proof.
  destruct (@login_meets demo_text demo_json meet_json demo_v1 demo_cipher meet_common meet_auth None "r1" meet_dial
    meet_service (replicate 32 Byte.x07) (replicate 32 Byte.x09) (enc_hello (server_hello false (replicate 32 Byte.x09)))
    meet_bytes eq_refl ltac:(discriminate) eq_refl eq_refl eq_refl meet_json_ok eq_refl eq_refl eq_refl)
    as (shf & cx & _ & Hstart & Hmeet).
  destruct (meet_cipher (mkAccepted "v2" true Wire.UDPPacketCodecBinary (Some cx) (MLogin meet_login)) (bytes_of "t")
    eq_refl ltac:(by eexists)) as [srw Hsrw].
  pose proof (Hstart [Byte.x2a] meet_login_env meet_work_env srw eq_refl ltac:(split; [split|]; discriminate)
    eq_refl eq_refl eq_refl Hsrw) as Ht.
  assert (Hcrw : ∃ rw, @ClientDial.newControlReadWriter demo_cipher meet_common (bytes_of "t") (Some cx) = Ok rw)
    by (by eexists).
  destruct Hcrw as [crw Hcrw]. exists shf, cx, srw, crw.
  split; [exact Ht|]. split; [exact Hcrw|].
  destruct (Hmeet [Byte.x2a] meet_login_env meet_work_env "r1" srw [Byte.x2a] [] meet_answer) as [_ Hl].
  - rewrite Ht. do 2 (apply elem_of_cons; right). apply elem_of_cons. by left.
  - vm_compute. reflexivity.
  - rewrite app_nil_r. reflexivity.
  - reflexivity.
  - reflexivity.
  - reflexivity.
  - cbn [meet_auth ca_key] in Hl. rewrite Hcrw in Hl. exact Hl.
Defined.

(** What the run gate and a look-up by run id tell. *)
Lemma lockCurrentRun_Some first r b m en : lockCurrentRun first r b m = Some en → ctlsByRunID m !! r = Some en.
Proof.
  unfold lockCurrentRun, read_entry. destruct first; [|done]. destruct (_ && _); [done|].
  destruct (ctlsByRunID m !! r); [|done]. case_decide; [|done]. by intros [= ->].
Qed.
Lemma GetByID_run first r m k : kinv m → GetByID first r m = Some k →
  ∃ x, ctls m !! k = Some x ∧ c_runID (k_c x) = r.
Proof.
  intros Hi. unfold GetByID. destruct (lockCurrentRun _ _ _ _) as [en|] eqn:He; [|done].
  apply lockCurrentRun_Some in He. destruct (ki_entry _ Hi _ _ He) as (x & Hx & Hr & _). rewrite Hx.
  case_decide; [|done]. intros [= <-]. eauto.
Qed.
(** A connection the manager takes is in the pool of the current, running control. *)
Lemma RegisterWorkConn_Ok first cc k x conn m m' : kinv m → ctls m !! k = Some x →
  Control.RegisterWorkConn first cc k x conn m = (Ok tt, m') →
  ∃ en, ctlsByRunID m !! c_runID (k_c x) = Some en ∧ e_ctl en = k ∧ state_of x = controlStateRunning
    ∧ c_workOpen (k_c x) = true ∧ Z.of_nat (length (c_workConnCh (k_c x))) < c_cap (k_c x)
    ∧ m' = put k (mkCtl (set_work (c_workConnCh (k_c x) ++ [conn]) true (k_c x)) (k_l x) (k_w x)) m.
Proof.
  intros Hi Hk. unfold Control.RegisterWorkConn.
  destruct (lockCurrentRun _ _ _ _) as [en|] eqn:He; [|done]. apply lockCurrentRun_Some in He.
  destruct (is_current k (k_c x) en) eqn:Hc; [|done]. cbn [negb].
  case_decide as Hs; [done|].
  unfold put_work_conn. destruct (_ <? _) eqn:Hl; [|done]. intros [= <-]. zify_bool.
  exists en. unfold is_current in Hc. apply andb_true_iff in Hc as [Hc _]. apply bool_decide_eq_true in Hc.
  assert (Ho : c_workOpen (k_c x) = true).
  { pose proof (ki_ctl _ Hi _ _ Hk) as Hok. rewrite (co_open _ Hok).
    destruct Hok as [_ _ _ Hcl Hf _ _ _ _ _ _ _]. unfold state_of in *.
    destruct (k_w x); try done; exfalso; [rewrite Hcl in Hs by auto|rewrite Hcl in Hs by auto|rewrite Hf in Hs by auto]; done. }
  by rewrite Ho.
Qed.

(** C27. A work connection goes where it belongs.  Whatever happens to the manager between the
    look-up of the run and the hand-over, a work connection that is accepted carried no
    hello and a message the verifier accepted, and is now the last one in the pool of the
    control that is current for its run id, runs, and speaks its wire protocol; there was
    room, and nothing else has changed.  A refused one has changed nothing, and its client
    is told. *)
Theorem work_conn_admitted (svr : service)
    (ac : acceptedConnection) (newMsg : NewWorkConn) (e : work_env) :
  k_reachable (wn_m1 e) → rtc kstep (wn_m1 e) (wn_m2 e) →
  let m := wn_m2 e in
  match RegisterWorkConn svr newMsg (ac_wireProtocol ac) (ac_clientHelloPresent ac) e with
  | (Ok k, m') => handle_work svr ac newMsg e = [SPooled k] ∧ ac_clientHelloPresent ac = false
      ∧ VerifyNewWorkConn (sa_Verifier (sv_auth svr)) newMsg = Ok tt
      ∧ ∃ x en, ctls m !! k = Some x ∧ c_runID (k_c x) = nw_RunID newMsg
        ∧ ctlsByRunID m !! nw_RunID newMsg = Some en ∧ e_ctl en = k
        ∧ state_of x = controlStateRunning ∧ sx_WireProtocol (c_ctx (k_c x)) = ac_wireProtocol ac
        ∧ c_workOpen (k_c x) = true ∧ Z.of_nat (length (c_workConnCh (k_c x))) < c_cap (k_c x)
        ∧ m' = put k (mkCtl (set_work (c_workConnCh (k_c x) ++ [wn_conn e]) true (k_c x)) (k_l x) (k_w x)) m
  | (Err err, m') => m' = m ∧ ∃ r, handle_work svr ac newMsg e = [SStartWorkConn r; SClosed]
  end.
Proof.
  intros Hr1 Hs m. assert (Hi : kinv m) by (apply k_reachable_inv; unfold k_reachable in *; by etrans).
  destruct (RegisterWorkConn _ _ _ _ _) as [[k|err] m'] eqn:Hreg; unfold handle_work; rewrite Hreg;
    unfold RegisterWorkConn in Hreg.
  - destruct (ac_clientHelloPresent ac); [done|].
    destruct (GetByID _ _ _) as [k1|] eqn:Hg; [|done]. cbn [mbind option_bind] in Hreg.
    destruct (GetByID_run _ _ _ _ (k_reachable_inv _ Hr1) Hg) as (x1 & Hx1 & Hid1).
    destruct (lifecycle_one_way _ _ _ _ Hr1 Hs Hx1) as (x & Hx & _ & Hid & _). rewrite Hx in Hreg.
    cbn [fmap option_fmap option_map] in Hreg. case_decide as Hw; [done|].
    destruct (VerifyNewWorkConn _ _) as [[]|] eqn:Hv; [|done].
    destruct (Control.RegisterWorkConn _ _ _ _ _ _) as [[[]|] m2] eqn:Hm; [|done]. injection Hreg as <- <-.
    destruct (RegisterWorkConn_Ok _ _ _ _ _ _ _ Hi Hx Hm) as (en & He & Hk & Hrun & Ho & Hl & ->).
    rewrite Hid, Hid1 in He. split_and!; try done. exists x, en. split_and!; try done. by rewrite Hid.
  - split; [|by eexists].
    destruct (ac_clientHelloPresent ac); [by injection Hreg as _ <-|].
    destruct (_ ≫= _) as [[k x]|]; [|by injection Hreg as _ <-]. case_decide; [by injection Hreg as _ <-|].
    destruct (VerifyNewWorkConn _ _); [|by injection Hreg as _ <-].
    unfold Control.RegisterWorkConn in Hreg. repeat (case_match; simplify_eq/=); done.
Qed.

Definition pool_env : work_env :=
  let first := ctlsByRunID demo_running !! c_runID demo_ctl in mkWorkEnv first demo_running first false demo_running 7.
Definition pool_msg : NewWorkConn := SetNewWorkConn (mkTokenAuth [] "t") 1700000000 (mkNewWorkConn (c_runID demo_ctl) "" 0).

Lemma work_conn_admitted_witness : ∃ k x, ctls demo_running !! k = Some x ∧ c_runID (k_c x) = c_runID demo_ctl
  ∧ handle_work meet_service (mkAccepted "v1" false "" None (MNewWorkConn pool_msg)) pool_msg pool_env = [SPooled k].
Proof.
  pose proof (work_conn_admitted meet_service
    (mkAccepted "v1" false "" None (MNewWorkConn pool_msg)) pool_msg pool_env demo_running_reachable
    (rtc_refl _ _)) as H.
  set (r := RegisterWorkConn _ _ _ _ _) in H. assert (Hr : r.1 = Ok 0%nat) by reflexivity.
  destruct r as [[k|] m']; [|discriminate Hr].
  destruct H as (H1 & _ & _ & x & en & H2 & H3 & _). exists k, x. split; [exact H2|]. split; [exact H3|exact H1].
Defined.
