(* ===== verification/ClientControl.v ===== *)
(** * The client's control: [client/control.go]

    The handlers of the control connection, the heartbeat check, the worker that tears a
    session down, and their composition with the proxy manager ([ClientProxy]), the
    visitor manager ([ClientVisitor]) and the dispatcher of [pkg/msg/handler.go], which queues and
    writes the proxies' messages, as one step relation.  The calls of
    [handleReqWorkConn] on its connection are the fields of [work_env]. *)
From S2P Require Import Prelude GoStd Hash Naming Msg ConfigV1 Auth ServerProxy ClientProxy ClientVisitor.
From stdpp Require Import gmap list.
Local Open Scope Z_scope.

(** ** Work connections *)
Record work_env := mkWork {
  we_connect : option string;
  we_now : Z;
  we_write : option string;
  we_read : result StartWorkConn;
}.
(** What happens to the connection: opened, the request written on it, closed, given to
    the proxy of a name. *)
Inductive weffect : Type := WConnected | WSent (m : NewWorkConn) | WClosed | WTaken (name : string) (m : StartWorkConn).

Definition set_sw_name (name : string) (m : StartWorkConn) : StartWorkConn :=
  mkStartWorkConn name (sw_SrcAddr m) (sw_DstAddr m) (sw_SrcPort m) (sw_DstPort m) (sw_Error m).

(** [handleReqWorkConn], with [HandleWorkConn] of the proxy manager at its end. *)
Definition handleReqWorkConn (user runID : string) (auth : TokenAuth) (pm : ClientProxy.Manager) (x : work_env)
    : list weffect :=
  match we_connect x with
  | Some _ => []
  | None =>
      let m := SetNewWorkConn auth (we_now x) (mkNewWorkConn runID "" 0) in
      match we_write x with
      | Some _ => [WConnected; WClosed]
      | None =>
          WConnected :: WSent m ::
          match we_read x with
          | Err _ => [WClosed]
          | Ok start =>
              if decide (sw_Error start ≠ "") then [WClosed]
              else
                let name := StripUserPrefix user (sw_ProxyName start) in
                if HandleWorkConn name pm then [WTaken name (set_sw_name name start)] else [WClosed]
          end
      end
  end.

(** ** The control *)
(** [worker]: waiting for the dispatcher, session closed, proxies closed, done. *)
Inductive wphase : Type := WDispatching | WSessionClosed | WProxiesClosed | WDone.
#[export] Instance wphase_eq_dec : EqDecision wphase.
Proof. solve_decision. Defined.

(** The dispatcher, as far as the proxies' messages go: whether [doneCh] is closed, whether
    [sendLoop] runs, what is in [sendCh], and what was written on the connection. *)
Record dispatcher := mkDispatcher {
  dp_done : bool;
  dp_sending : bool;
  dp_queue : list Message;
  dp_wire : list Message;
}.
Record Control := mkControl {
  ct_pm : ClientProxy.Manager;
  ct_vm : vmanager;
  ct_lastPong : Z;
  ct_closed : bool;             (* connection and connector closed *)
  ct_worker : wphase;
  ct_disp : dispatcher;
}.
(** [NewControl] at time [now], and [Run]'s goroutines started. *)
Definition NewControl (now : Z) : Control :=
  mkControl ClientProxy.NewManager ClientVisitor.NewManager now false WDispatching (mkDispatcher false true [] []).
Definition set_pm (pm : ClientProxy.Manager) (c : Control) : Control :=
  mkControl pm (ct_vm c) (ct_lastPong c) (ct_closed c) (ct_worker c) (ct_disp c).
Definition set_vm (vm : vmanager) (c : Control) : Control :=
  mkControl (ct_pm c) vm (ct_lastPong c) (ct_closed c) (ct_worker c) (ct_disp c).
Definition set_worker (k : wphase) (c : Control) : Control :=
  mkControl (ct_pm c) (ct_vm c) (ct_lastPong c) (ct_closed c) k (ct_disp c).
Definition set_disp (d : dispatcher) (c : Control) : Control :=
  mkControl (ct_pm c) (ct_vm c) (ct_lastPong c) (ct_closed c) (ct_worker c) d.
Definition closeSession (c : Control) : Control :=
  mkControl (ct_pm c) (ct_vm c) (ct_lastPong c) true (ct_worker c) (ct_disp c).

(** [Send] of some messages: queued, or, when the dispatcher is done, each queued or refused
    with [io.EOF] as its [select] happens to choose. *)
Definition Send (taken : list Message) (d : dispatcher) : dispatcher :=
  mkDispatcher (dp_done d) (dp_sending d) (dp_queue d ++ taken) (dp_wire d).
Definition sendable (ms taken : list Message) (d : dispatcher) : Prop :=
  taken `sublist_of` ms ∧ (dp_done d = false → taken = ms).
(** One turn of [sendLoop], where the write succeeds or not, and its end. *)
Definition sendLoop_write (ok : bool) (m : Message) (q : list Message) (d : dispatcher) : dispatcher :=
  mkDispatcher (dp_done d) (dp_sending d) q (if ok then dp_wire d ++ [m] else dp_wire d).
Definition sendLoop_end (d : dispatcher) : dispatcher := mkDispatcher (dp_done d) false (dp_queue d) (dp_wire d).
(** [readLoop] fails and closes [doneCh]. *)
Definition readLoop_end (d : dispatcher) : dispatcher := mkDispatcher true (dp_sending d) (dp_queue d) (dp_wire d).
(** What the proxies hand to the transporter when their manager goes from [pm] to [pm']. *)
Definition handed (pm pm' : ClientProxy.Manager) : list Message := (drop (length (pm_sent pm)) (pm_sent pm')).*2.

(** [handleNewProxyResp]: the look-up of [StartProxy]; the wrapper's part is [pm_start]. *)
Definition handleNewProxyResp (user : string) (m : NewProxyResp) (c : Control) : Control :=
  match StartProxy_lookup (StripUserPrefix user (npr_ProxyName m)) (npr_RemoteAddr m) (npr_Error m) (ct_pm c) with
  | Ok pm => set_pm pm c
  | Err _ => c
  end.
Definition handlePong (now : Z) (m : Pong) (c : Control) : Control :=
  if decide (po_Error m ≠ "") then closeSession c
  else mkControl (ct_pm c) (ct_vm c) now (ct_closed c) (ct_worker c) (ct_disp c).
(** The lane of [handleNatHoleResp]. *)
Definition nat_hole_lane (m : NatHoleResp) : string := nr_TransactionID m.

(** The check of [heartbeatWorker], every second, which it starts only when both settings are
    positive; they are in seconds, and the product has 64 bits. *)
Definition second : Z := 1000000000.
Definition heartbeat_late (t : ClientTransportConfig) (now lastPong : Z) : bool :=
  (0 <? ct_HeartbeatInterval t) && (0 <? ct_HeartbeatTimeout t)
  && (wrap64 (ct_HeartbeatTimeout t * second) <? time_sub now lastPong).
Definition heartbeat_check (t : ClientTransportConfig) (now : Z) (c : Control) : Control :=
  if heartbeat_late t now (ct_lastPong c) then closeSession c else c.

(** [late] tells whether [UpdateAll] of the proxies may add after the worker has closed
    the manager: [Run] and [UpdateAllConfigurer] do not wait for it. *)
Definition adds (pm pm' : ClientProxy.Manager) : Prop :=
  ∃ n, proxies pm !! n = None ∧ proxies pm' !! n ≠ None.
Inductive ctstep (user : string) (t : ClientTransportConfig) (late : bool) : Control → Control → Prop :=
| ct_proxies pm taken c : pmstep user (ct_pm c) pm →
    (late = false → ct_worker c ≠ WDispatching → ¬ adds (ct_pm c) pm) →
    sendable (handed (ct_pm c) pm) taken (ct_disp c) →
    ctstep user t late c (set_disp (Send taken (ct_disp c)) (set_pm pm c))
| ct_visitors vm c : vstep (ct_vm c) vm → ctstep user t late c (set_vm vm c)
| ct_new_proxy m c : dp_done (ct_disp c) = false → ctstep user t late c (handleNewProxyResp user m c)
| ct_pong now m c : dp_done (ct_disp c) = false → ctstep user t late c (handlePong now m c)
| ct_check now c : ct_worker c ≠ WDone → ctstep user t late c (heartbeat_check t now c)
| ct_close c : ctstep user t late c (closeSession c)
| ct_write ok m q c : dp_sending (ct_disp c) = true → dp_queue (ct_disp c) = m :: q → (ct_closed c = true → ok = false) →
    ctstep user t late c (set_disp (sendLoop_write ok m q (ct_disp c)) c)
| ct_sending_ends c : dp_sending (ct_disp c) = true → dp_done (ct_disp c) = true →
    ctstep user t late c (set_disp (sendLoop_end (ct_disp c)) c)
| ct_reading_ends c : ctstep user t late c (set_disp (readLoop_end (ct_disp c)) c)
| ct_exit c : ct_worker c = WDispatching → dp_done (ct_disp c) = true →
    ctstep user t late c (set_worker WSessionClosed (closeSession c))
| ct_exit_proxies order pm taken c : ct_worker c = WSessionClosed → order ≡ₚ (map_to_list (proxies (ct_pm c))).*1 →
    ClientProxy.Close order (ct_pm c) = Some pm → sendable (handed (ct_pm c) pm) taken (ct_disp c) →
    ctstep user t late c
      (set_worker WProxiesClosed (set_disp (Send taken (ct_disp c)) (set_pm pm c)))
| ct_exit_visitors c : ct_worker c = WProxiesClosed →
    ctstep user t late c (set_worker WDone (set_vm (ClientVisitor.Close (ct_vm c)) c)).

(** ** Lemmas *)
(** What a step leaves as it is: the parts of a reachable control are reachable states of the
    two managers, and what they and the dispatcher did stays done. *)
Lemma ctstep_pm user t late c c' : ctstep user t late c c' → rtc (pmstep user) (ct_pm c) (ct_pm c').
Proof.
  intros Hs. destruct Hs as [pm taken c Hs _ _|vm c Hs|m c _|now m c _|now c _|c|ok m q c _ _ _|c _ _|c|c _ _|order pm taken c _ Ho Hc _|c _];
    simpl; try apply rtc_refl.
  - by apply rtc_once.
  - unfold handleNewProxyResp. destruct (StartProxy_lookup _ _ _ _) eqn:E; [|apply rtc_refl]. by eapply rtc_once, pm_lookup.
  - unfold handlePong. case_decide; apply rtc_refl.
  - unfold heartbeat_check. destruct (heartbeat_late _ _ _); apply rtc_refl.
  - by eapply rtc_once, pm_close.
Qed.
Lemma ctstep_vm user t late c c' : ctstep user t late c c' → rtc vstep (ct_vm c) (ct_vm c').
Proof.
  intros Hs. destruct Hs as [pm taken c Hs _ _|vm c Hs|m c _|now m c _|now c _|c|ok m q c _ _ _|c _ _|c|c _ _|order pm taken c _ Ho Hc _|c _];
    simpl; try apply rtc_refl.
  - by apply rtc_once.
  - unfold handleNewProxyResp. destruct (StartProxy_lookup _ _ _ _); apply rtc_refl.
  - unfold handlePong. case_decide; apply rtc_refl.
  - unfold heartbeat_check. destruct (heartbeat_late _ _ _); apply rtc_refl.
  - apply rtc_once, v_close.
Qed.
Lemma ctstep_parts user t late now c : rtc (ctstep user t late) (NewControl now) c →
  rtc (pmstep user) ClientProxy.NewManager (ct_pm c) ∧ rtc vstep ClientVisitor.NewManager (ct_vm c).
Proof.
  assert (Hgen : ∀ c0 c, rtc (ctstep user t late) c0 c → rtc (pmstep user) (ct_pm c0) (ct_pm c) ∧ rtc vstep (ct_vm c0) (ct_vm c)).
  { induction 1 as [|x y z Hxy _ [IH1 IH2]]; [split; apply rtc_refl|].
    split; (etrans; [|eassumption]); [by eapply ctstep_pm|by eapply ctstep_vm]. }
  apply Hgen.
Qed.
Lemma run_grows user t late c c' : rtc (ctstep user t late) c c' → grows (ct_pm c) (ct_pm c').
Proof.
  induction 1 as [|x y z Hxy%ctstep_pm _ IH]; [done|]. etrans; [|exact IH].
  clear -Hxy. induction Hxy as [|? ? ? ?%pmstep_grows]; [done|]. by etrans.
Qed.

(** A closed connection stays closed, and nothing is written on it. *)
Lemma closed_step user t late c c' : ctstep user t late c c' → ct_closed c = true →
  ct_closed c' = true ∧ dp_wire (ct_disp c') = dp_wire (ct_disp c).
Proof.
  intros Hs Hc. destruct Hs as [pm taken c Hs _ _|vm c Hs|m c _|now m c _|now c _|c|ok m q c _ _ Hok|c _ _|c|c _ _|order pm taken c _ Ho _ _|c _];
    simpl; try done.
  - unfold handleNewProxyResp. by destruct (StartProxy_lookup _ _ _ _).
  - unfold handlePong. by case_decide.
  - unfold heartbeat_check. by destruct (heartbeat_late _ _ _).
  - by rewrite (Hok Hc).
Qed.
Lemma closed_run user t late c c' : rtc (ctstep user t late) c c' → ct_closed c = true →
  ct_closed c' = true ∧ dp_wire (ct_disp c') = dp_wire (ct_disp c).
Proof.
  induction 1 as [|x y z Hxy _ IH]; [done|]. intros [Hy <-]%(closed_step _ _ _ _ _ Hxy). by apply IH.
Qed.

(** The dispatcher writes what it was handed, in order. *)
Lemma handed_app pm pm' : grows pm pm' → (pm_sent pm').*2 = (pm_sent pm).*2 ++ handed pm pm'.
Proof. intros [[l Hl] _]. unfold handed. by rewrite Hl, drop_app_length, fmap_app. Qed.
Definition disp_ok (c : Control) : Prop :=
  dp_wire (ct_disp c) ++ dp_queue (ct_disp c) `sublist_of` (pm_sent (ct_pm c)).*2.
Lemma disp_ok_send c pm taken : grows (ct_pm c) pm → taken `sublist_of` handed (ct_pm c) pm → disp_ok c →
  dp_wire (ct_disp c) ++ dp_queue (ct_disp c) ++ taken `sublist_of` (pm_sent pm).*2.
Proof. intros Hg Ht Hok. rewrite (handed_app _ _ Hg), (assoc_L (++)). by apply sublist_app. Qed.
Lemma disp_ok_step user t late c c' : ctstep user t late c c' → disp_ok c → disp_ok c'.
Proof.
  intros Hs Hok. unfold disp_ok.
  destruct Hs as [pm taken c Hs _ [Ht _]|vm c Hs|m c _|now m c _|now c _|c|ok m q c _ Hq _|c _ _|c|c _ _|order pm taken c _ Ho Hc [Ht _]|c _];
    simpl; try done.
  - apply disp_ok_send; [by eapply pmstep_grows|done|done].
  - unfold handleNewProxyResp. destruct (StartProxy_lookup _ _ _ _) as [pm|] eqn:E; [|done].
    apply (pm_lookup user) in E. apply pmstep_grows in E as [[l Hl] _]. simpl. rewrite Hl, fmap_app.
    etrans; [exact Hok|]. by apply sublist_inserts_r.
  - unfold handlePong. by case_decide.
  - unfold heartbeat_check. by destruct (heartbeat_late _ _ _).
  - unfold disp_ok in Hok. rewrite Hq in Hok. destruct ok; [by rewrite <-(assoc_L (++))|].
    etrans; [|exact Hok]. apply sublist_app; [done|]. by apply sublist_cons.
  - apply disp_ok_send; [by eapply Close_grows|done|done].
Qed.

(** After the worker has left its loop. *)
Definition torn_down (late : bool) (c : Control) : Prop :=
  match ct_worker c with
  | WDispatching => True
  | WSessionClosed => ct_closed c = true
  | WProxiesClosed => ct_closed c = true ∧ (late = false → proxies (ct_pm c) = ∅)
  | WDone => ct_closed c = true ∧ (late = false → proxies (ct_pm c) = ∅) ∧ stopCh (ct_vm c) = true
  end.

Lemma no_adds_empty pm pm' : proxies pm = ∅ → ¬ adds pm pm' → proxies pm' = ∅.
Proof.
  intros He Hn. apply map_eq. intros n. rewrite lookup_empty. destruct (proxies pm' !! n) eqn:E; [|done].
  destruct Hn. exists n. by rewrite He, E.
Qed.

Lemma stopCh_mono m m' : vstep m m' → stopCh m = true → stopCh m' = true.
Proof.
  intros Hs Hc. destruct Hs as [run order l m _|m|m _|run order m _ _|m _ _]; simpl; try done.
  - unfold UpdateAll. rewrite <-Hc. destruct (start_keeper_ext l m) as (_ & _ & _ & <-).
    assert (Hadd : ∀ l m, stopCh (foldl (update_add run) m l) = stopCh m).
    { clear. induction l as [|x l IH]; intros m; [done|]. simpl. rewrite IH. unfold update_add, startVisitor.
      destruct (cfgs m !! vname x); [done|]. by destruct (run x). }
    rewrite Hadd. generalize (start_keeper l m). clear. intros m.
    revert m. induction order as [|x order IH]; intros m; [done|]. simpl. rewrite IH. unfold update_del.
    destruct (cfgs m !! x); [|done]. destruct (decide _); [done|]. simpl. by destruct (visitors m !! x).
  - rewrite <-Hc. clear Hc. unfold keep_tick. revert m.
    induction order as [|x order IH]; intros m; [done|]. simpl. rewrite IH. unfold keep_one, startVisitor.
    destruct (visitors m !! vname x); [done|]. by destruct (run x).
Qed.

(** The manager after the teardown of its proxies. *)
Lemma Close_empties user order pm pm' : pminv user pm → order ≡ₚ (map_to_list (proxies pm)).*1 →
  ClientProxy.Close order pm = Some pm' → pminv user pm' ∧ proxies pm' = ∅.
Proof. intros Hinv Ho Hc. by destruct (Close_spec user order _ Hinv Ho) as (pm1 & [= <-]%(eq_trans (eq_sym Hc)) & ? & ?). Qed.
Lemma empty_closed user pm i w : pminv user pm → proxies pm = ∅ → wrappers pm !! i = Some w →
  pw_closeCh w = true ∧ pw_Phase w = ProxyPhaseClosed.
Proof.
  intros Hinv Hp Hi. pose proof (wo_closed _ _ _ (pi_ok _ _ Hinv _ _ Hi)) as Hcl.
  destruct (pw_closeCh w) eqn:Ho; [by rewrite Hcl|]. pose proof (pi_open _ _ Hinv _ _ Hi Ho) as Ho'. by rewrite Hp in Ho'.
Qed.

Lemma torn_down_step user t late c c' : pminv user (ct_pm c) → ctstep user t late c c' → torn_down late c → torn_down late c'.
Proof.
  intros Hinv Hs. unfold torn_down.
  destruct Hs as [pm taken c Hs Hn _|vm c Hs|m c _|now m c _|now c Hw|c|ok m q c _ _ Hok|c _ _|c|c Hw _|order pm taken c Hw Ho Hc _|c Hw]; simpl; try done.
  - assert (Hk : late = false → ct_worker c ≠ WDispatching → proxies (ct_pm c) = ∅ → proxies pm = ∅) by eauto using no_adds_empty.
    destruct (ct_worker c); [done|done|naive_solver..].
  - destruct (ct_worker c); intuition eauto using stopCh_mono.
  - unfold handleNewProxyResp, StartProxy_lookup. by destruct (proxies (ct_pm c) !! _).
  - unfold handlePong. case_decide; simpl; destruct (ct_worker c); intuition.
  - unfold heartbeat_check. destruct (heartbeat_late _ _ _); [|done]. simpl. destruct (ct_worker c); intuition.
  - destruct (ct_worker c); intuition.
  - rewrite Hw. intros ->. split; [done|]. intros _. by eapply Close_empties.
  - rewrite Hw. intros [-> ?]. done.
Qed.
(** The only step between these two states of the worker. *)
Lemma exit_proxies_step user t late c c' : ctstep user t late c c' → ct_worker c = WSessionClosed → ct_worker c' = WProxiesClosed →
  ∃ order, order ≡ₚ (map_to_list (proxies (ct_pm c))).*1 ∧ ClientProxy.Close order (ct_pm c) = Some (ct_pm c').
Proof.
  intros Hs Hw Hw'. destruct Hs as [pm taken c Hs _ _|vm c Hs|m c _|now m c _|now c _|c|ok m q c _ _ _|c _ _|c|c _ _|order pm taken c _ Ho Hc _|c Hw1];
    simpl in Hw'; try congruence; [..|by eauto].
  - unfold handleNewProxyResp in Hw'. destruct (StartProxy_lookup _ _ _ _); simpl in Hw'; congruence.
  - unfold handlePong in Hw'. case_decide; simpl in Hw'; congruence.
  - unfold heartbeat_check in Hw'. destruct (heartbeat_late _ _ _); simpl in Hw'; congruence.
Qed.
Lemma reach_torn_down user t late now c : rtc (ctstep user t late) (NewControl now) c →
  pminv user (ct_pm c) ∧ torn_down late c ∧ disp_ok c.
Proof.
  intros Hr. assert (Hinv : ∀ c, rtc (ctstep user t late) (NewControl now) c → pminv user (ct_pm c)).
  { intros c0 [Hp _]%ctstep_parts. by apply pm_reachable. }
  split; [by apply Hinv|]. revert c Hr. apply (rtc_ind_r (λ c, torn_down late c ∧ disp_ok c)).
  { split; [done|apply sublist_nil_l]. }
  intros x y Hx Hxy [IH1 IH2]. split; [eapply torn_down_step; [by apply Hinv|done|done]|by eapply disp_ok_step].
Qed.

(** ** Properties *)

(** A work connection has one owner.  Whatever happens on it, a connection opened for
    [ReqWorkConn] ends closed or with one proxy, never both, and a proxy gets it only
    when it runs.  When the server (with the client's token and scopes) writes the
    [StartWorkConn] of a proxy that this client runs, it has accepted the request, and
    the connection reaches the proxy of that very name. *)
Theorem work_conn_delivered (user runID name : string) (auth : TokenAuth) (pm : ClientProxy.Manager)
    (x : work_env) (src dst : option string) :
  let t := handleReqWorkConn user runID auth pm x in
  (we_connect x = None ↔ WConnected ∈ t)
  ∧ (we_connect x = None → ∃ req own, t = WConnected :: req ++ [own]
       ∧ (∀ e, e ∈ req → ∃ m, e = WSent m ∧ nw_RunID m = runID ∧ token_VerifyNewWorkConn auth m = Ok tt)
       ∧ (own = WClosed ∨ ∃ n m, own = WTaken n m ∧ HandleWorkConn n pm = true ∧ sw_ProxyName m = n))
  ∧ (we_connect x = None → we_write x = None →
     we_read x = Ok (ServerProxy.start_msg (AddUserPrefix user name) src dst) →
     HandleWorkConn name pm = true →
     ∃ m, t = [WConnected; WSent m; WTaken name (ServerProxy.start_msg name src dst)]).
Proof.
  intros t. unfold t, handleReqWorkConn. clear t.
  assert (Hv : ∀ now, token_VerifyNewWorkConn auth (SetNewWorkConn auth now (mkNewWorkConn runID "" 0)) = Ok tt
    ∧ nw_RunID (SetNewWorkConn auth now (mkNewWorkConn runID "" 0)) = runID).
  { intros now. unfold token_VerifyNewWorkConn, SetNewWorkConn. destruct (contains _ _) eqn:E; [|by rewrite ?E].
    split; [|done]. cbn [nw_PrivilegeKey nw_Timestamp]. by rewrite ConstantTimeEqString_spec, bool_decide_eq_true_2. }
  split_and!.
  - destruct (we_connect x); [by rewrite elem_of_nil|]. split; [|done]. intros _. destruct (we_write x); by left.
  - intros ->. destruct (we_write x).
    { exists [], WClosed. split; [done|]. split; [by intros ? ?%not_elem_of_nil|by left]. }
    destruct (Hv (we_now x)) as [Hk Hr]. exists [WSent (SetNewWorkConn auth (we_now x) (mkNewWorkConn runID "" 0))].
    destruct (we_read x) as [start|];
      [case_decide; [|destruct (HandleWorkConn _ pm) eqn:Hh]|]; eexists; (split; [reflexivity|]);
      (split; [intros ev ->%list_elem_of_singleton; eauto|]); eauto 6.
  - intros -> -> -> Hh. unfold ServerProxy.start_msg. destruct (split_or_empty src), (split_or_empty dst). cbn [sw_Error sw_ProxyName].
    rewrite decide_False by naive_solver. rewrite StripUserPrefix_AddUserPrefix, Hh. eexists. reflexivity.
Qed.

(** C36. The worker's exit tears the session down.  Once the worker is done, the connection and the
    connector are closed and the visitors' keeper is told to stop.  Every wrapper the manager
    had when the worker closed it is closed, and stays so; when no proxies are added behind the
    worker's back ([late] is [false]) that is every wrapper there is.  The server hears nothing
    of it: from the moment the connection is closed no message is written on it, so the
    [CloseProxy] messages of this exit never leave; what was written before is among the
    messages handed over, in their order. *)
Theorem control_torn_down (user : string) (t : ClientTransportConfig) (late : bool) (now : Z) (c : Control) :
  rtc (ctstep user t late) (NewControl now) c → ct_worker c = WDone →
  (ct_closed c = true ∧ stopCh (ct_vm c) = true)
  ∧ (∀ c1 c2, rtc (ctstep user t late) (NewControl now) c1 → ctstep user t late c1 c2 → rtc (ctstep user t late) c2 c →
       ct_worker c1 = WSessionClosed → ct_worker c2 = WProxiesClosed →
       ∀ i w, wrappers (ct_pm c2) !! i = Some w →
       ∃ w', wrappers (ct_pm c) !! i = Some w' ∧ pw_closeCh w' = true ∧ pw_Phase w' = ProxyPhaseClosed)
  ∧ (late = false → ∀ w, w ∈ wrappers (ct_pm c) → pw_closeCh w = true ∧ pw_Phase w = ProxyPhaseClosed)
  ∧ (∀ c1, rtc (ctstep user t late) c1 c → ct_closed c1 = true → dp_wire (ct_disp c) = dp_wire (ct_disp c1))
  ∧ dp_wire (ct_disp c) `sublist_of` (pm_sent (ct_pm c)).*2.
Proof.
  intros Hr Hw. destruct (reach_torn_down _ _ _ _ _ Hr) as (Hinv & Ht & Hd).
  unfold torn_down in Ht. rewrite Hw in Ht. destruct Ht as (Hc & Hp & Hs). split_and!; [done|done| | | |].
  - intros c1 c2 H1 Hs12 H2 Hw1 Hw2 i w Hi. destruct (run_grows _ _ _ _ _ H2) as [_ Hg].
    destruct (Hg _ _ Hi) as (w' & Hw' & Hcl). exists w'. split; [done|].
    rewrite (wo_closed _ _ _ (pi_ok _ _ Hinv _ _ Hw')).
    assert (pw_closeCh w' = true); [|done]. apply Hcl. destruct (exit_proxies_step _ _ _ _ _ Hs12 Hw1 Hw2) as (order & Ho & Hclose).
    destruct (reach_torn_down _ _ _ _ _ H1) as [Hinv1 _].
    destruct (Close_empties _ _ _ _ Hinv1 Ho Hclose) as [Hinv2 He]. by eapply empty_closed.
  - intros Hl w [i Hi]%list_elem_of_lookup. by eapply empty_closed; [|apply Hp|].
  - intros c1 H1 Hc1. by apply (closed_run _ _ _ _ _ H1).
  - etrans; [|exact Hd]. by apply sublist_inserts_r.
Qed.

(** The clock of a session: pongs and checks in the order they happen. *)
Inductive beat : Type := BPong (now : Z) (m : Pong) | BCheck (now : Z).
Definition on_beat (t : ClientTransportConfig) (c : Control) (b : beat) : Control :=
  match b with BPong now m => handlePong now m c | BCheck now => heartbeat_check t now c end.
(** The last pong without an error. *)
Definition last_pong (t0 : Z) (bs : list beat) : Z :=
  foldl (λ t b, match b with BPong now m => if decide (po_Error m ≠ "") then t else now | BCheck _ => t end) t0 bs.

(** The heartbeat notices a silent server, and only that.  A session is closed by its
    pongs and checks exactly when a pong had an error or some check came more than the
    time-out after the last good pong before it (or after the session's start).  So with
    checks every second a server silent for the time-out plus a second loses the
    session, and one that always answers in time keeps it. *)
Theorem heartbeat_closes (t : ClientTransportConfig) (t0 : Z) (bs : list beat) :
  ct_closed (foldl (on_beat t) (NewControl t0) bs) = true ↔
  ∃ l b l', bs = l ++ b :: l' ∧
    match b with
    | BPong _ m => po_Error m ≠ ""
    | BCheck now => heartbeat_late t now (last_pong t0 l) = true
    end.
Proof.
  induction bs as [|b bs IH] using rev_ind; [split; [done|intros ([|??] & ? & ? & [=] & _)]|].
  assert (Hlp : ∀ bs, ct_lastPong (foldl (on_beat t) (NewControl t0) bs) = last_pong t0 bs).
  { clear. intros bs. induction bs as [|b bs IH] using rev_ind; [done|]. unfold last_pong. rewrite !foldl_snoc. fold (last_pong t0 bs).
    rewrite <-IH. destruct b as [now m|now]; simpl; [unfold handlePong; by case_decide|unfold heartbeat_check; by destruct (heartbeat_late _ _ _)]. }
  rewrite foldl_snoc. set (c := foldl (on_beat t) (NewControl t0) bs) in *.
  assert (Hone : ct_closed (on_beat t c b) = true ↔ ct_closed c = true ∨
    match b with BPong _ m => po_Error m ≠ "" | BCheck now => heartbeat_late t now (last_pong t0 bs) = true end).
  { rewrite <-Hlp. fold c. destruct b as [now m|now]; simpl.
    - unfold handlePong. case_decide; simpl; naive_solver.
    - unfold heartbeat_check. destruct (heartbeat_late _ _ _); simpl; naive_solver. }
  rewrite Hone, IH. split.
  - intros [(l & b' & l' & -> & Hb)|Hb]; [exists l, b', (l' ++ [b]); by rewrite <-(assoc_L (++))|by exists bs, b, []].
  - intros (l & b' & l' & Heq & Hb). destruct l' as [|b'' l' _] using rev_ind.
    + apply app_inj_tail in Heq as [-> ->]. by right.
    + left. rewrite app_comm_cons, (assoc_L (++)) in Heq. apply app_inj_tail in Heq as [-> ->]. by exists l, b', l'.
Qed.

(** A positive time-out that fits in 64 bits as nanoseconds is what is checked, for clocks within
    292 years of each other. *)
Lemma heartbeat_late_spec t now last : 0 < ct_HeartbeatInterval t → 0 < ct_HeartbeatTimeout t →
  in_int64 (ct_HeartbeatTimeout t * second) → in_int64 (now - last) →
  heartbeat_late t now last = true ↔ ct_HeartbeatTimeout t * second < now - last.
Proof.
  intros Hi Ht Hf Hn. unfold heartbeat_late, time_sub. rewrite wrap64_id by done. unfold in_int64, MinInt64, MaxInt64 in *.
  rewrite (proj2 (Z.ltb_lt _ _) Hi), (proj2 (Z.ltb_lt _ _) Ht). simpl. rewrite Z.ltb_lt. lia.
Qed.
(** Nothing is checked when one of the settings is not positive. *)
Lemma heartbeat_disabled t now last : ct_HeartbeatInterval t ≤ 0 ∨ ct_HeartbeatTimeout t ≤ 0 → heartbeat_late t now last = false.
Proof. unfold heartbeat_late. intros [H|H]; apply Z.ltb_ge in H; rewrite H; [done|by rewrite andb_false_r]. Qed.

(** ** Runs *)
Definition demo_transport (interval timeout : Z) : ClientTransportConfig :=
  mkClientTransportConfig "tcp" "v2" 10 7200 "" "" 1 (Some false) 30 (mkQUICOptions 10 30 100000) interval timeout
    (mkTLSClientConfig None None (mkTLSConfig "" "" "" "")).
(** A time-out of more than 292 years wraps around to the past: the first check, a second after
    the start, ends the session. *)
Lemma huge_timeout_closes : ct_closed (heartbeat_check (demo_transport 30 9223372037) second (NewControl 0)) = true.
Proof. vm_compute. reflexivity. Qed.

Definition demo_ctl1 : Control := set_pm (default ClientProxy.NewManager (ClientProxy.UpdateAll "u" [] [demo_proxy "a" "k"] ClientProxy.NewManager)) (NewControl 1).
Definition demo_exit (c : Control) (pm : ClientProxy.Manager) : Control :=
  let c := set_disp (readLoop_end (ct_disp c)) c in
  set_worker WDone (set_vm (ClientVisitor.Close (ct_vm c))
    (set_worker WProxiesClosed (set_disp (Send [] (ct_disp c)) (set_pm pm (set_worker WSessionClosed (closeSession c)))))).
Definition demo_ctl2 : Control := demo_exit demo_ctl1 (default ClientProxy.NewManager (ClientProxy.Close ["a"] (ct_pm demo_ctl1))).

Lemma exit_run user t late c order pm : ct_worker c = WDispatching → order ≡ₚ (map_to_list (proxies (ct_pm c))).*1 →
  ClientProxy.Close order (ct_pm c) = Some pm → rtc (ctstep user t late) c (demo_exit c pm).
Proof.
  intros Hw Ho Hc. eapply rtc_l; [apply ct_reading_ends|]. eapply rtc_l; [by apply ct_exit|].
  eapply rtc_l; [apply (ct_exit_proxies _ _ _ order pm []); [done|done|done|by split; [apply sublist_nil_l|]]|].
  eapply rtc_l; [by apply ct_exit_visitors|apply rtc_refl].
Qed.
Lemma demo_ctl1_step : ctstep "u" (demo_transport 30 90) false (NewControl 1) demo_ctl1.
Proof.
  apply (ct_proxies _ _ _ (ct_pm demo_ctl1) [] (NewControl 1)); [|done|done].
  by eapply (pm_update "u" [] [demo_proxy "a" "k"]).
Qed.
Lemma demo_ctl2_reach : rtc (ctstep "u" (demo_transport 30 90) false) (NewControl 1) demo_ctl2.
Proof. eapply rtc_l; [exact demo_ctl1_step|]. apply (exit_run _ _ _ demo_ctl1 ["a"]); reflexivity. Qed.

(** The wrapper is closed, its [CloseProxy] was handed over, and nothing was written. *)
Lemma control_torn_down_witness : ct_worker demo_ctl2 = WDone
  ∧ length (wrappers (ct_pm demo_ctl2)) = 1%nat ∧ length (pm_sent (ct_pm demo_ctl2)) = 1%nat
  ∧ (∀ w, w ∈ wrappers (ct_pm demo_ctl2) → pw_closeCh w = true) ∧ dp_wire (ct_disp demo_ctl2) = [].
Proof.
  destruct (control_torn_down "u" (demo_transport 30 90) false 1 demo_ctl2 demo_ctl2_reach eq_refl) as (_ & _ & Hw & _).
  split; [reflexivity|]. split; [vm_compute; reflexivity|]. split; [vm_compute; reflexivity|].
  split; [|reflexivity]. intros w H. by apply Hw.
Defined.

Definition demo_running : ClientProxy.Manager :=
  set_wrapper 0 (pw_with ProxyPhaseRunning "" (NewWrapper "u" (demo_proxy "a" "k"))) [] (ct_pm demo_ctl1).
Lemma work_conn_delivered_witness : ∃ m, handleReqWorkConn "u" "r" (mkTokenAuth [] "tok") demo_running
    (mkWork None 7 None (Ok (ServerProxy.start_msg "u.a" None None)))
  = [WConnected; WSent m; WTaken "a" (ServerProxy.start_msg "a" None None)].
Proof.
  refine (proj2 (proj2 (work_conn_delivered "u" "r" "a" (mkTokenAuth [] "tok") demo_running
    (mkWork None 7 None (Ok (ServerProxy.start_msg "u.a" None None))) None None)) _ _ _ _); reflexivity.
Defined.
Lemma heartbeat_closes_witness : ct_closed (foldl (on_beat (demo_transport 30 90)) (NewControl 0)
  [BPong (5 * second) (mkPong ""); BCheck (95 * second); BCheck (96 * second)]) = true.
Proof.
  apply (heartbeat_closes (demo_transport 30 90) 0). exists [BPong (5 * second) (mkPong ""); BCheck (95 * second)], (BCheck (96 * second)), [].
  split; [reflexivity|]. vm_compute. reflexivity.
Defined.

(** [Run] starts the worker before it gives the managers their configurations: when the
    connection dies at once the proxies are started after the teardown, with nobody
    left to stop them. *)
Lemma proxy_started_after_exit : ∃ c w, rtc (ctstep "u" (demo_transport 30 90) true) (NewControl 1) c ∧ ct_worker c = WDone
  ∧ w ∈ wrappers (ct_pm c) ∧ pw_closeCh w = false.
Proof.
  eexists _, (NewWrapper "u" (demo_proxy "a" "k")). split.
  { eapply rtc_r; [apply (exit_run _ _ _ (NewControl 1) [] ClientProxy.NewManager); reflexivity|].
    eapply (ct_proxies _ _ _ (ct_pm demo_ctl1) []); [by eapply (pm_update "u" [] [demo_proxy "a" "k"])|done|by split; [apply sublist_nil_l|]]. }
  split; [reflexivity|]. split; [left|reflexivity].
Qed.
