(* ===== verification/ClientService.v ===== *)
(** * The client's service: [client/service.go]

    The service logs in until it succeeds, runs a control, logs in again when the control
    is done, takes new configurations while it runs, and stops.  Three goroutines share
    its fields: [Run], the one that keeps a control working, and callers of
    [UpdateConfigSource]; the model is a step relation with one step for every critical
    section or access to a shared field.  A control is known here by its configurations
    and by whether it is closed; [ClientControl] has its inside. *)
From S2P Require Import Prelude GoStd ConfigV1 Auth ConfigLoad ConfigSource.
From stdpp Require Import gmap list.
Local Open Scope Z_scope.

(** ** Configurations *)
Definition configs : Type := list ProxyConfigurer * list VisitorConfigurer.
(** The aggregator: the configuration source and the store, when there is one. *)
Record Aggregator := mkAggregator { ag_config : baseSource; ag_store : option baseSource }.
(** [Aggregator.Load]; the order of the values does not matter ([ConfigSource]). *)
Definition source_values (s : baseSource) : configs := (values (b_proxies s), values (b_visitors s)).
Definition Aggregator_Load (a : Aggregator) : configs :=
  ConfigSource.Load (source_values (ag_config a)) (source_values <$> ag_store a).
(** Load, filter, complete: in [NewService] and in [reloadConfigFromSourcesLocked]. *)
Definition pipeline (common : ClientCommonConfig) (a : Aggregator) : configs :=
  let '(ps, vs) := Aggregator_Load a in
  let '(ps, vs) := FilterClientConfigurers (cc_Start common) ps vs in
  (CompleteProxyConfigurers ps, CompleteVisitorConfigurers vs).

(** ** State *)
Record control := mkCtl { k_cfgs : configs; k_closed : bool }.

(** The goroutine that logs in: at the head of [BackoffUntil]; dialing with a run id;
    logged in; holding the configurations it read; holding a control that runs; about to
    read [svr.ctl] to wait for it, or to test it first; waiting for a control; returned;
    crashed on a nil control. *)
Inductive lphase : Type :=
| LTop | LDial (runID : string) | LDialed | LRead (c : configs) | LRan (k : nat)
| LStart | LCheck | LWait (k : nat) | LReturned | LPanicked.
(** [UpdateConfigSource] after [ReplaceAll], with [reloadMu] held: before [Load], with the
    loaded configurations, after storing them, about to call the control; crashed. *)
Inductive rphase : Type := RIdle | RReload | RLoaded (c : configs) | RStored (c : configs) | RApply (c : configs) | RPanicked.
(** [Run]: in the first login, waiting for the context, in [stop] before its two critical
    sections, returned. *)
Inductive mphase : Type := MLogin | MServe | MStop | MStopCtl | MReturned.
#[export] Instance mphase_eq_dec : EqDecision mphase.
Proof. solve_decision. Defined.

Record Service := mkService {
  sv_reloadCommon : ClientCommonConfig;
  sv_aggregator : option Aggregator;
  sv_cfgs : configs;
  sv_runID : string;
  sv_ctl : option nat;
  sv_controls : list control;
  sv_cancelled : bool;
  sv_login : lphase;
  sv_reload : rphase;
  sv_main : mphase;
}.

Definition NewService `{OS} (common : ClientCommonConfig) (a : option Aggregator) : result Service :=
  ClientCommonConfig_Complete common ≫= λ common,
  BuildClientAuth (Some (cc_Auth common)) ≫= λ _,
  match a with
  | None => Err "config source aggregator is required"
  | Some a => Ok (mkService common (Some a) (pipeline common a) "" None [] false LTop RIdle MLogin)
  end.

Definition set_login (l : lphase) (s : Service) : Service :=
  mkService (sv_reloadCommon s) (sv_aggregator s) (sv_cfgs s) (sv_runID s) (sv_ctl s) (sv_controls s)
    (sv_cancelled s) l (sv_reload s) (sv_main s).
Definition set_reload (r : rphase) (s : Service) : Service :=
  mkService (sv_reloadCommon s) (sv_aggregator s) (sv_cfgs s) (sv_runID s) (sv_ctl s) (sv_controls s)
    (sv_cancelled s) (sv_login s) r (sv_main s).
Definition set_main (m : mphase) (s : Service) : Service :=
  mkService (sv_reloadCommon s) (sv_aggregator s) (sv_cfgs s) (sv_runID s) (sv_ctl s) (sv_controls s)
    (sv_cancelled s) (sv_login s) (sv_reload s) m.
Definition set_runID (r : string) (s : Service) : Service :=
  mkService (sv_reloadCommon s) (sv_aggregator s) (sv_cfgs s) r (sv_ctl s) (sv_controls s)
    (sv_cancelled s) (sv_login s) (sv_reload s) (sv_main s).
Definition set_cfgs (c : configs) (s : Service) : Service :=
  mkService (sv_reloadCommon s) (sv_aggregator s) c (sv_runID s) (sv_ctl s) (sv_controls s)
    (sv_cancelled s) (sv_login s) (sv_reload s) (sv_main s).
Definition set_ctl (k : option nat) (s : Service) : Service :=
  mkService (sv_reloadCommon s) (sv_aggregator s) (sv_cfgs s) (sv_runID s) k (sv_controls s)
    (sv_cancelled s) (sv_login s) (sv_reload s) (sv_main s).
Definition set_controls (l : list control) (s : Service) : Service :=
  mkService (sv_reloadCommon s) (sv_aggregator s) (sv_cfgs s) (sv_runID s) (sv_ctl s) l
    (sv_cancelled s) (sv_login s) (sv_reload s) (sv_main s).
Definition cancel (s : Service) : Service :=
  mkService (sv_reloadCommon s) (sv_aggregator s) (sv_cfgs s) (sv_runID s) (sv_ctl s) (sv_controls s)
    true (sv_login s) (sv_reload s) (sv_main s).
Definition set_source (common : ClientCommonConfig) (a : option Aggregator) (s : Service) : Service :=
  mkService common a (sv_cfgs s) (sv_runID s) (sv_ctl s) (sv_controls s)
    (sv_cancelled s) (sv_login s) (sv_reload s) (sv_main s).

(** [Control.Close] and [Control.UpdateAllConfigurer] on the [k]-th control. *)
Definition close_control (k : nat) (s : Service) : Service :=
  set_controls (alter (λ c, mkCtl (k_cfgs c) true) k (sv_controls s)) s.
Definition update_control (k : nat) (c : configs) (s : Service) : Service :=
  set_controls (alter (λ x, mkCtl c (k_closed x)) k (sv_controls s)) s.
Definition close_ctl (s : Service) : Service :=
  match sv_ctl s with Some k => close_control k s | None => s end.
(** The new control of [loginFunc], running with the configurations it was given. *)
Definition new_control (c : configs) (s : Service) : Service :=
  set_login (LRan (length (sv_controls s))) (set_controls (sv_controls s ++ [mkCtl c false]) s).
(** Its critical section: close and replace the previous control; [loopLoginUntilSuccess]
    returns to [Run], which starts the keeper, or to the keeper. *)
Definition install (k : nat) (s : Service) : Service :=
  let s := set_ctl (Some k) (close_ctl s) in
  match sv_main s with
  | MLogin => set_login LStart (set_main MServe s)
  | _ => set_login LCheck s
  end.
(** [UpdateConfigSource] up to the reload: [ReplaceAll] on the configuration source. *)
Definition UpdateConfigSource (common : ClientCommonConfig) (ps : list (option ProxyConfigurer))
    (vs : list (option VisitorConfigurer)) (s : Service) : Service * result unit :=
  match sv_aggregator s with
  | None => (s, Err "config source is not available")
  | Some a =>
      match ReplaceAll ps vs (ag_config a) with
      | (_, Err e) => (s, Err e)
      | (b, Ok _) => (set_reload RReload (set_source common (Some (mkAggregator b (ag_store a))) s), Ok tt)
      end
  end.

(** Whether a login holds configurations it read but has not installed; whether it may
    still install a control. *)
Definition reading (l : lphase) : bool := match l with LRead _ | LRan _ => true | _ => false end.
Definition settled (l : lphase) : bool := match l with LTop | LWait _ | LReturned => true | _ => false end.

(** [calm] runs are those in which no reload stores its configurations between a login's
    reading them and its installing the control, and no [stop] takes the control while a
    login is under way. *)
Inductive svstep (calm : bool) : Service → Service → Prop :=
| sv_loop s : sv_login s = LTop → sv_cancelled s = false → svstep calm s (set_login (LDial (sv_runID s)) s)
| sv_loop_end s : sv_login s = LTop → sv_cancelled s = true →
    svstep calm s (let s := set_login LReturned s in
                   match sv_main s with MLogin => set_main MStop s | _ => s end)
| sv_fail r s : sv_login s = LDial r → svstep calm s (set_login LTop s)
| sv_fail_exit r s : sv_login s = LDial r → sv_main s = MLogin → svstep calm s (set_login LTop (cancel s))
| sv_success r r' s : sv_login s = LDial r → svstep calm s (set_login LDialed (set_runID r' s))
| sv_read s : sv_login s = LDialed → svstep calm s (set_login (LRead (sv_cfgs s)) s)
| sv_run c s : sv_login s = LRead c → svstep calm s (new_control c s)
| sv_install k s : sv_login s = LRan k → svstep calm s (install k s)
| sv_check s : sv_login s = LCheck →
    svstep calm s (set_login (match sv_ctl s with Some _ => LStart | None => LTop end) s)
| sv_wait s : sv_login s = LStart →
    svstep calm s (set_login (match sv_ctl s with Some k => LWait k | None => LPanicked end) s)
| sv_done k x s : sv_login s = LWait k → sv_controls s !! k = Some x → k_closed x = true → svstep calm s (set_login LTop s)
| sv_dies k s : svstep calm s (close_control k s)
| sv_cancel s : svstep calm s (cancel s)
| sv_update common ps vs s s' : sv_reload s = RIdle → UpdateConfigSource common ps vs s = (s', Ok tt) → svstep calm s s'
| sv_load a s : sv_reload s = RReload → sv_aggregator s = Some a →
    svstep calm s (set_reload (RLoaded (pipeline (sv_reloadCommon s) a)) s)
| sv_store c s : sv_reload s = RLoaded c → (calm = true → reading (sv_login s) = false) →
    svstep calm s (set_reload (RStored c) (set_cfgs c s))
| sv_lookup c s : sv_reload s = RStored c →
    svstep calm s (set_reload (match sv_ctl s with Some _ => RApply c | None => RIdle end) s)
| sv_apply c s : sv_reload s = RApply c →
    svstep calm s (match sv_ctl s with Some k => set_reload RIdle (update_control k c s) | None => set_reload RPanicked s end)
| sv_stop s : sv_main s = MServe → sv_cancelled s = true → svstep calm s (set_main MStop s)
| sv_stop_sources s : sv_main s = MStop → sv_reload s = RIdle →
    svstep calm s (set_main MStopCtl (set_source (sv_reloadCommon s) None s))
| sv_stop_ctl s : sv_main s = MStopCtl → (calm = true → settled (sv_login s) = true) →
    svstep calm s (set_main MReturned (set_ctl None (close_ctl s))).

#[local] Arguments pipeline : simpl never.

(** ** Invariants *)
Definition is_some {A} (x : option A) : bool := match x with Some _ => true | None => false end.
Definition waits (l : lphase) : bool := match l with LStart | LCheck | LWait _ => true | _ => false end.
Definition stopping (m : mphase) : bool := match m with MStopCtl | MReturned => true | _ => false end.

(** Configurations come from the sources; a reload and a stop exclude each other. *)
Definition source_ok (s : Service) : Prop :=
  match sv_aggregator s with
  | Some a =>
      stopping (sv_main s) = false ∧
      match sv_reload s with
      | RReload => True
      | RLoaded c => c = pipeline (sv_reloadCommon s) a
      | RIdle => sv_cfgs s = pipeline (sv_reloadCommon s) a
      | RStored c => c = sv_cfgs s ∧ sv_cfgs s = pipeline (sv_reloadCommon s) a
      | RApply c => c = sv_cfgs s ∧ sv_cfgs s = pipeline (sv_reloadCommon s) a ∧ is_some (sv_ctl s) = true
      | RPanicked => False
      end
  | None => sv_reload s = RIdle
  end.
(** The goroutine that waits has a control to wait for, until [stop] takes it. *)
Definition waits_ok (s : Service) : Prop :=
  (sv_main s = MLogin → sv_ctl s = None ∧ waits (sv_login s) = false)
  ∧ (waits (sv_login s) = true → sv_main s ≠ MReturned → is_some (sv_ctl s) = true)
  ∧ (sv_main s = MReturned → sv_cancelled s = true) ∧ (sv_main s = MStopCtl → sv_cancelled s = true)
  ∧ (sv_main s = MStop → sv_cancelled s = true).

Ltac service_step Hs :=
  destruct Hs as [s E1 E2|s E1 E2|r s E1|r s E1 E2|r r' s E1|s E1|c s E1|k s E1|s E1|s E1|k x s E1 E2 E3|k s|s
    |common ps vs s s' E1 E2|a s E1 E2|c s E1 Hcalm|c s E1|c s E1|s E1 E2|s E1 E2|s E1 Hcalm].

Lemma UpdateConfigSource_Ok common ps vs s s' : UpdateConfigSource common ps vs s = (s', Ok tt) →
  ∃ a b, sv_aggregator s = Some a ∧ s' = set_reload RReload (set_source common (Some (mkAggregator b (ag_store a))) s).
Proof.
  unfold UpdateConfigSource. destruct (sv_aggregator s) as [a|]; [|done].
  destruct (ReplaceAll _ _ _) as [b [|]]; [|done]. intros [= <-]. by exists a, b.
Qed.

(** Case analysis on the fields the goal still asks about. *)
Ltac service_case s :=
  repeat (cbn; match goal with
    | E : ?f s = _ |- context [?f s] => rewrite E
    | |- context [match sv_aggregator s with _ => _ end] => destruct (sv_aggregator s) eqn:?
    | |- context [match sv_main s with _ => _ end] => destruct (sv_main s) eqn:?
    | |- context [match sv_ctl s with _ => _ end] => destruct (sv_ctl s) eqn:?
    | |- context [match sv_reload s with _ => _ end] => destruct (sv_reload s) eqn:?
    end).
Ltac service_auto := intuition (simpl in *; subst; simpl in *; congruence).

Lemma source_ok_step calm s s' : svstep calm s s' → waits_ok s → source_ok s → source_ok s'.
Proof.
  intros Hs (Hm & Hw & _). unfold source_ok. service_step Hs;
    try (apply UpdateConfigSource_Ok in E2 as (a & b & E3 & ->); simpl; rewrite E3; by intros [? _]);
    unfold install, close_ctl; service_case s; service_auto.
Qed.

Lemma waits_ok_step calm s s' : svstep calm s s' → waits_ok s → waits_ok s'.
Proof.
  intros Hs. unfold waits_ok. service_step Hs;
    try (apply UpdateConfigSource_Ok in E2 as (a & b & E3 & ->));
    unfold install, close_ctl; service_case s; service_auto.
Qed.

(** A control that is open is the service's, or is about to be. *)
Definition controls_ok (s : Service) : Prop :=
  (∀ k x, sv_controls s !! k = Some x → k_closed x = false → sv_ctl s = Some k ∨ sv_login s = LRan k)
  ∧ (∀ k, sv_login s = LRan k → sv_ctl s ≠ Some k ∧ (k < length (sv_controls s))%nat)
  ∧ (∀ k, sv_ctl s = Some k → (k < length (sv_controls s))%nat).

(** What a step does to the controls: nothing, close one, add one, reconfigure one. *)
Lemma controls_ok_ext s s' : sv_controls s' = sv_controls s → sv_ctl s' = sv_ctl s →
  (sv_login s' = sv_login s ∨ (∀ k, sv_login s' ≠ LRan k) ∧ ∀ k, sv_login s ≠ LRan k) → controls_ok s → controls_ok s'.
Proof. intros E1 E2 E3 (H1 & H2 & H3). unfold controls_ok. rewrite E1, E2. destruct E3 as [->|[Hn Hn']]; split_and!; naive_solver. Qed.

Lemma controls_ok_alter f k s : (∀ x, k_closed (f x) = false → k_closed x = false) →
  controls_ok s → controls_ok (set_controls (alter f k (sv_controls s)) s).
Proof.
  intros Hf (H1 & H2 & H3). split_and!; simpl.
  - intros j x. destruct (decide (k = j)) as [<-|Hne].
    + rewrite list_lookup_alter_eq, fmap_Some. intros (y & Hy & ->) Hc. eauto.
    + rewrite list_lookup_alter_ne by done. eauto.
  - intros j Hj. rewrite length_alter. eauto.
  - intros j Hj. rewrite length_alter. eauto.
Qed.

(** Closing the control of the service frees its place. *)
Lemma controls_ok_close s : controls_ok s → controls_ok (close_ctl s)
  ∧ ∀ k x, sv_controls (close_ctl s) !! k = Some x → k_closed x = false → sv_login s = LRan k.
Proof.
  intros Hok. unfold close_ctl. pose proof Hok as (H1 & H2 & H3). destruct (sv_ctl s) as [k|] eqn:Hc.
  - split; [by apply controls_ok_alter|]. intros j x. simpl. destruct (decide (k = j)) as [<-|Hne].
    + rewrite list_lookup_alter_eq, fmap_Some. by intros (y & _ & ->).
    + rewrite list_lookup_alter_ne by done. intros Hj Hx. destruct (H1 _ _ Hj Hx) as [?|?]; [congruence|done].
  - split; [done|]. intros j x Hj Hx. destruct (H1 _ _ Hj Hx); [congruence|done].
Qed.

Lemma close_ctl_fields s : sv_login (close_ctl s) = sv_login s ∧ sv_ctl (close_ctl s) = sv_ctl s
  ∧ length (sv_controls (close_ctl s)) = length (sv_controls s) ∧ sv_main (close_ctl s) = sv_main s
  ∧ sv_cfgs (close_ctl s) = sv_cfgs s ∧ sv_reload (close_ctl s) = sv_reload s
  ∧ sv_cancelled (close_ctl s) = sv_cancelled s.
Proof. unfold close_ctl. destruct (sv_ctl s) eqn:E; simpl; [|by rewrite E]. by rewrite length_alter, E. Qed.

(** [install] after its first step. *)
Lemma install_fields k s :
  sv_controls (install k s) = sv_controls (close_ctl s) ∧ sv_ctl (install k s) = Some k
  ∧ waits (sv_login (install k s)) = true ∧ (∀ j, sv_login (install k s) ≠ LRan j)
  ∧ sv_cfgs (install k s) = sv_cfgs s ∧ sv_reload (install k s) = sv_reload s
  ∧ sv_cancelled (install k s) = sv_cancelled s ∧ (sv_main (install k s) = MReturned → sv_main s = MReturned).
Proof.
  destruct (close_ctl_fields s) as (E1 & _ & _ & E4 & E5 & E6 & E7). unfold install. simpl. rewrite E4.
  destruct (sv_main s) eqn:Em; simpl; rewrite ?E4, ?Em, ?E5, ?E6, ?E7; split_and!; done.
Qed.

Lemma controls_ok_step calm s s' : svstep calm s s' → controls_ok s → controls_ok s'.
Proof.
  intros Hs Hok. service_step Hs;
    try (apply UpdateConfigSource_Ok in E2 as (a & b & E3 & ->));
    try (eapply controls_ok_ext; [..|exact Hok]; [done|done|]; simpl; rewrite ?E1; solve [by left|by right]).
  - eapply controls_ok_ext; [..|exact Hok]; simpl; destruct (sv_main s); try done; right; rewrite E1; done.
  - destruct Hok as (H1 & H2 & H3). unfold new_control. split_and!; simpl.
    + intros k x [[_ Hk]|[-> _]]%lookup_snoc_Some Hx; [|by right]. destruct (H1 _ _ Hk Hx); [by left|congruence].
    + intros k [= <-]. rewrite length_app. simpl. split; [|lia]. intros Hk%H3. lia.
    + intros k Hk%H3. rewrite length_app. lia.
  - destruct (install_fields k s) as (Ec & Ek & _ & El & _). destruct (controls_ok_close s Hok) as [_ Hopen].
    destruct (close_ctl_fields s) as (_ & _ & Elen & _). split_and!; rewrite ?Ec, ?Ek.
    + intros j x Hj Hx. left. rewrite (Hopen _ _ Hj Hx) in E1. congruence.
    + intros j Hj. by destruct (El j).
    + intros j [= <-]. rewrite Elen. destruct Hok as (_ & H2 & _). by apply (H2 k).
  - eapply controls_ok_ext; [..|exact Hok]; [done|done|]. right. rewrite E1. simpl. by destruct (sv_ctl s).
  - eapply controls_ok_ext; [..|exact Hok]; [done|done|]. right. rewrite E1. simpl. by destruct (sv_ctl s).
  - by apply controls_ok_alter.
  - destruct (sv_ctl s) as [k|]; [|by eapply controls_ok_ext; [..|exact Hok]; auto].
    apply (controls_ok_ext (update_control k c s)); [done|done|by left|]. by apply controls_ok_alter.
  - destruct (controls_ok_close s Hok) as [(_ & H2 & _) Hopen]. destruct (close_ctl_fields s) as (El & _ & Elen & _).
    split_and!; simpl; rewrite ?El.
    + intros k x Hk Hx. right. eauto.
    + intros k Hk. split; [done|]. rewrite El in H2. by apply H2.
    + done.
Qed.

(** In calm runs the control has the service's configurations. *)
Definition has_cfgs (k : nat) (s : Service) : Prop := ∀ x, sv_controls s !! k = Some x → k_cfgs x = sv_cfgs s.
Definition applying (r : rphase) : bool := match r with RStored _ | RApply _ => true | _ => false end.
Record calm_ok (s : Service) : Prop := mkCalm {
  cm_read : ∀ c, sv_login s = LRead c → c = sv_cfgs s;
  cm_ran : ∀ k, sv_login s = LRan k → has_cfgs k s;
  cm_ctl : ∀ k, sv_ctl s = Some k → applying (sv_reload s) = false → has_cfgs k s;
  cm_stopped : sv_main s = MReturned → settled (sv_login s) = true;
  cm_none : sv_main s = MReturned → sv_ctl s = None;
  cm_alive : sv_login s ≠ LPanicked;
}.

Lemma has_cfgs_alter k j g s : has_cfgs k s → has_cfgs k (set_controls (alter (λ c, mkCtl (k_cfgs c) (g c)) j (sv_controls s)) s).
Proof.
  intros H x. simpl. destruct (decide (j = k)) as [<-|Hne]; [|rewrite list_lookup_alter_ne by done; by apply H].
  rewrite list_lookup_alter_eq, fmap_Some. intros (y & Hy & ->). simpl. by apply H.
Qed.

Lemma has_cfgs_close k s : has_cfgs k s → has_cfgs k (close_ctl s).
Proof. unfold close_ctl. destruct (sv_ctl s); [|done]. by apply (has_cfgs_alter _ _ (λ _, true)). Qed.

Lemma has_cfgs_ext k s s' : sv_controls s' = sv_controls s → sv_cfgs s' = sv_cfgs s → has_cfgs k s → has_cfgs k s'.
Proof. unfold has_cfgs. by intros -> ->. Qed.

(** Steps that touch no control. *)
Lemma calm_ok_ext s s' : sv_controls s' = sv_controls s → sv_cfgs s' = sv_cfgs s → sv_ctl s' = sv_ctl s →
  (sv_main s' = MReturned → sv_main s = MReturned) → (applying (sv_reload s') = false → sv_ctl s = None ∨ applying (sv_reload s) = false) →
  (sv_login s' = sv_login s
   ∨ reading (sv_login s') = false ∧ sv_login s' ≠ LPanicked ∧ (settled (sv_login s) = true → sv_cancelled s = true → settled (sv_login s') = true)) →
  (sv_main s = MReturned → sv_cancelled s = true) → calm_ok s → calm_ok s'.
Proof.
  intros E1 E2 E3 Em Er El Hcan [H1 H2 H3 H4 H6 H5]. split.
  - intros c Hc. rewrite E2. destruct El as [El|[El _]]; [apply H1; congruence|by rewrite Hc in El].
  - intros k Hk. apply (has_cfgs_ext _ s); [done|done|]. destruct El as [El|[El _]]; [apply H2; congruence|by rewrite Hk in El].
  - intros k Hk Ha. rewrite E3 in Hk. apply (has_cfgs_ext _ s); [done|done|]. destruct (Er Ha) as [?|?]; [congruence|eauto].
  - intros Hm. apply Em in Hm. destruct El as [->|(_ & _ & El)]; auto.
  - intros Hm. rewrite E3. auto.
  - destruct El as [->|(_ & ? & _)]; done.
Qed.

Lemma calm_ok_step s s' : svstep true s s' → waits_ok s → controls_ok s → source_ok s → calm_ok s → calm_ok s'.
Proof.
  intros Hs Hw Hok Hsrc Hcm. pose proof Hcm as [H1 H2 H3 H4 H6 H5]. pose proof Hw as (Hw1 & Hw2 & Hw3 & Hw4 & Hw5).
  service_step Hs;
    try (apply UpdateConfigSource_Ok in E2 as (a & b & E3 & ->));
    try (eapply (calm_ok_ext s); simpl; rewrite ?E1; simpl; auto; fail).
  - apply (calm_ok_ext s); simpl; rewrite ?E1; auto. right. split; [done|]. split; [done|]. congruence.
  - cbn. destruct (sv_main s) eqn:Em; apply (calm_ok_ext s); cbn; rewrite ?E1, ?Em; auto; try done; intros _; by apply H4.
  - split; simpl; [by intros c [= <-]|done|done| |done|done]. intros Hm%H4. by rewrite E1 in Hm.
  - pose proof (H1 _ E1) as ->. destruct Hok as (_ & _ & Hlen). split; simpl; [done| | | |done|done].
    + intros k [= <-] x Hx. simpl in Hx. rewrite lookup_app_r, Nat.sub_diag in Hx by done. by injection Hx as <-.
    + intros k Hk Ha x Hx. simpl in Hx. rewrite lookup_app_l in Hx by auto. by apply (H3 k Hk Ha).
    + intros Hm%H4. by rewrite E1 in Hm.
  - destruct (install_fields k s) as (Ec & Ek & Ew & El & Ef & _ & _ & Em).
    assert (Hnew : has_cfgs k (install k s)).
    { intros x Hx. rewrite Ef. rewrite Ec in Hx. destruct (close_ctl_fields s) as (_ & _ & _ & _ & <- & _).
      by apply (has_cfgs_close k s (H2 k E1)). }
    split; [intros c Hc; by rewrite Hc in Ew|intros j Hj; by destruct (El j)|by rewrite Ek; intros j [= <-]| | |intros Hp; by rewrite Hp in Ew];
      intros Hm%Em%H4; by rewrite E1 in Hm.
  - apply (calm_ok_ext s); simpl; rewrite ?E1; auto. right. by destruct (sv_ctl s).
  - apply (calm_ok_ext s); simpl; rewrite ?E1; auto. right. destruct (sv_ctl s); [done|]. exfalso.
    destruct (decide (sv_main s = MReturned)) as [Hm|Hm]; [apply H4 in Hm; by rewrite E1 in Hm|]. rewrite E1 in Hw2. by specialize (Hw2 eq_refl Hm).
  - split; simpl; try done; intros; by apply (has_cfgs_alter _ _ (λ _, true)); auto.
  - specialize (Hcalm eq_refl). split; simpl; try done; intros ? Hl; by rewrite Hl in Hcalm.
  - apply (calm_ok_ext s); simpl; rewrite ?E1; auto; destruct (sv_ctl s); auto; done.
  - unfold source_ok in Hsrc. rewrite E1 in Hsrc. destruct (sv_aggregator s); [|done]. destruct Hsrc as (_ & -> & _ & Hsome).
    destruct (sv_ctl s) as [k|] eqn:Ek; [|done].
    assert (Hall : ∀ j, j = k ∨ has_cfgs j s → has_cfgs j (update_control k (sv_cfgs s) s)).
    { intros j Hj x Hx. simpl in *. destruct (decide (k = j)) as [<-|Hne].
      - rewrite list_lookup_alter_eq, fmap_Some in Hx. by destruct Hx as (y & _ & ->).
      - rewrite list_lookup_alter_ne in Hx by done. destruct Hj as [->|Hj]; [done|by apply Hj]. }
    split; simpl; try done; [intros j Hj; apply Hall; auto|rewrite Ek; intros j [= <-] _; apply Hall; by left|by rewrite Ek].
  - apply (calm_ok_ext s); simpl; auto; done.
  - apply (calm_ok_ext s); simpl; auto. done.
  - specialize (Hcalm eq_refl). destruct (close_ctl_fields s) as (El & _ & _ & _ & Ef & _).
    split; simpl; rewrite ?El; try done; intros ? Hl; by rewrite Hl in Hcalm.
Qed.

(** ** Properties *)
Section properties.
Context `{OS}.
Variables (common : ClientCommonConfig) (a0 : option Aggregator) (s0 : Service).
Hypothesis Hnew : NewService common a0 = Ok s0.

Lemma new_service_ok : source_ok s0 ∧ waits_ok s0 ∧ controls_ok s0 ∧ calm_ok s0.
Proof.
  unfold NewService in Hnew. inv_res. destruct a0 as [a|]; [|done]. inv_res.
  split; [by split|]. split; [by unfold waits_ok|]. split; [by unfold controls_ok|]. by split.
Qed.

Lemma service_reachable calm s : rtc (svstep calm) s0 s →
  source_ok s ∧ waits_ok s ∧ controls_ok s ∧ (calm = true → calm_ok s).
Proof.
  intros Hr. assert (H0 : source_ok s0 ∧ waits_ok s0 ∧ controls_ok s0 ∧ (calm = true → calm_ok s0)).
  { destruct new_service_ok as (?&?&?&?). auto. }
  clear Hnew. induction Hr as [|x y z Hxy _ IH]; [done|]. destruct H0 as (H1 & H2 & H3 & H4). apply IH.
  split; [by eapply source_ok_step|]. split; [by eapply waits_ok_step|]. split; [by eapply controls_ok_step|].
  intros ->. eapply calm_ok_step; eauto.
Qed.

(** C9. What the service runs is what its sources say.  Through any interleaving of logins,
    reloads, failures, deaths of controls and a stop: with no reload under way, the
    service's configurations are those its sources give now, filtered and completed
    for the last accepted common configuration; a reload never calls a nil control;
    and no control is open but the service's own and one about to take its place. *)
Theorem service_configuration (calm : bool) (s : Service) : rtc (svstep calm) s0 s →
  (∀ a, sv_aggregator s = Some a → sv_reload s = RIdle → sv_cfgs s = pipeline (sv_reloadCommon s) a)
  ∧ sv_reload s ≠ RPanicked
  ∧ (∀ k x, sv_controls s !! k = Some x → k_closed x = false → sv_ctl s = Some k ∨ sv_login s = LRan k).
Proof.
  intros (Hs & _ & (Hc & _) & _)%service_reachable. unfold source_ok in Hs. split; [|split; [|done]].
  - intros a Ha Hr. rewrite Ha, Hr in Hs. tauto.
  - intros Hr. rewrite Hr in Hs. destruct (sv_aggregator s); [by destruct Hs|done].
Qed.

(** The control follows the sources.  In runs where no reload stores its configurations
    while a login holds those it read, and no stop takes the control during a login: the
    service's control has, with no reload under way, exactly the configurations of the
    sources; after [Run] has returned every control ever started is closed; and the
    goroutine that waits for the control never finds it nil. *)
Theorem calm_service_follows (s : Service) : rtc (svstep true) s0 s →
  (∀ a k x, sv_aggregator s = Some a → sv_reload s = RIdle → sv_ctl s = Some k → sv_controls s !! k = Some x →
     k_cfgs x = pipeline (sv_reloadCommon s) a)
  ∧ (sv_main s = MReturned → ∀ x, x ∈ sv_controls s → k_closed x = true)
  ∧ sv_login s ≠ LPanicked.
Proof.
  intros (Hs & _ & (Hc & _) & Hcm)%service_reachable. destruct (Hcm eq_refl) as [_ _ H3 H4 H6 H5]. split; [|split; [|done]].
  - intros a k x Ha Hr Hk Hx. unfold source_ok in Hs. rewrite Ha, Hr in Hs. destruct Hs as [_ <-].
    apply (H3 k Hk); [by rewrite Hr|done].
  - intros Hm x [k Hk]%list_elem_of_lookup. destruct (k_closed x) eqn:Hx; [done|]. specialize (H4 Hm).
    destruct (Hc _ _ Hk Hx) as [Hctl|Hl]; [by rewrite (H6 Hm) in Hctl|by rewrite Hl in H4].
Qed.
End properties.

(** ** Runs *)
Definition demo_aggregator : Aggregator := mkAggregator newBaseSource None.
Definition demo_service : Service :=
  match @NewService demo_os demo_common (Some demo_aggregator) with
  | Ok s => s
  | Err _ => mkService demo_common None ([], []) "" None [] false LTop RIdle MLogin
  end.
Definition logged_in : Service :=
  install 0 (new_control ([], []) (set_login (LRead ([], [])) (set_login LDialed (set_runID "r" (set_login (LDial "") demo_service))))).

Lemma demo_new : @NewService demo_os demo_common (Some demo_aggregator) = Ok demo_service.
Proof. vm_compute. reflexivity. Qed.

Lemma logged_in_reach calm : rtc (svstep calm) demo_service logged_in.
Proof.
  eapply rtc_l; [by apply sv_loop|]. eapply rtc_l; [by apply (sv_success _ "" "r")|].
  eapply rtc_l; [by apply sv_read|]. eapply rtc_l; [by apply sv_run|].
  eapply rtc_l; [by apply sv_install|]. vm_compute. apply rtc_refl.
Qed.

Lemma service_configuration_witness : sv_cfgs logged_in = pipeline (sv_reloadCommon logged_in) demo_aggregator
  ∧ sv_ctl logged_in = Some 0%nat.
Proof.
  split; [|reflexivity].
  apply (@service_configuration demo_os demo_common (Some demo_aggregator) demo_service demo_new true logged_in (logged_in_reach true)); reflexivity.
Defined.
Lemma calm_service_follows_witness : ∃ x, sv_controls logged_in !! 0%nat = Some x
  ∧ k_cfgs x = pipeline (sv_reloadCommon logged_in) demo_aggregator.
Proof.
  eexists. split; [reflexivity|].
  refine (proj1 (@calm_service_follows demo_os demo_common (Some demo_aggregator) demo_service demo_new logged_in (logged_in_reach true))
    demo_aggregator 0%nat _ _ _ _ _); reflexivity.
Defined.

(** ** Races

    A reload between a login's reading the configurations and its installing the control
    is lost: the service has the new configurations, its control runs the old ones. *)
Lemma reload_lost_during_login : ∃ s x, rtc (svstep false) demo_service s ∧ sv_login s = LWait 0 ∧ sv_reload s = RIdle
  ∧ sv_controls s !! 0%nat = Some x ∧ k_closed x = false ∧ length (k_cfgs x).1 = 0%nat ∧ length (sv_cfgs s).1 = 1%nat.
Proof.
  pose (p := demo_proxy_cfg "ssh" None).
  eexists _, (mkCtl ([], []) false). split.
  { eapply rtc_l; [by apply sv_loop|]. eapply rtc_l; [by apply (sv_success _ "" "r")|].
    eapply rtc_l; [by apply sv_read|].
    eapply rtc_l; [apply (sv_update _ demo_common [Some p] []); reflexivity|].
    eapply rtc_l; [by eapply sv_load|]. eapply rtc_l; [by apply sv_store|].
    eapply rtc_l; [by eapply sv_lookup|].
    eapply rtc_l; [by apply sv_run|]. eapply rtc_l; [by apply sv_install|].
    eapply rtc_l; [by apply sv_wait|]. apply rtc_refl. }
  vm_compute. auto 10.
Qed.

(** A login that succeeds while [Run] stops leaves a control that nobody closes. *)
Lemma control_outlives_stop : ∃ s x, rtc (svstep false) demo_service s ∧ sv_main s = MReturned
  ∧ sv_ctl s = Some 1%nat ∧ sv_controls s !! 1%nat = Some x ∧ k_closed x = false.
Proof.
  eexists _, (mkCtl ([], []) false). split.
  { eapply rtc_trans; [apply logged_in_reach|].
    eapply rtc_l; [by apply sv_wait|]. eapply rtc_l; [by apply (sv_dies _ 0)|].
    eapply rtc_l; [by eapply (sv_done _ 0)|]. eapply rtc_l; [by apply sv_loop|].
    eapply rtc_l; [by apply sv_cancel|]. eapply rtc_l; [by apply sv_stop|].
    eapply rtc_l; [by apply sv_stop_sources|]. eapply rtc_l; [by apply sv_stop_ctl|].
    eapply rtc_l; [by apply (sv_success _ "r" "r")|]. eapply rtc_l; [by apply sv_read|].
    eapply rtc_l; [by apply sv_run|]. eapply rtc_l; [by apply sv_install|]. apply rtc_refl. }
  vm_compute. auto 10.
Qed.

(** [keepControllerWorking] reads [svr.ctl] after [stop] has set it to nil. *)
Lemma keeper_finds_nil : ∃ s, rtc (svstep false) demo_service s ∧ sv_login s = LPanicked.
Proof.
  eexists. split.
  { eapply rtc_trans; [apply logged_in_reach|].
    eapply rtc_l; [by apply sv_cancel|]. eapply rtc_l; [by apply sv_stop|].
    eapply rtc_l; [by apply sv_stop_sources|]. eapply rtc_l; [by apply sv_stop_ctl|].
    eapply rtc_l; [by apply sv_wait|]. apply rtc_refl. }
  reflexivity.
Qed.
