(* ===== verification/Backoff.v ===== *)
(** * Waiting between attempts: [pkg/util/wait/backoff.go]

    Durations and times are nanoseconds.  A [float64] is the rational it stands for, and
    every float operation is the exact one followed by the rounding [fl] of a class,
    whose laws are those of IEEE rounding in the range used here: monotone, and exact on
    integers of at most 53 bits.  The numbers of [rand.Float64] are arguments. *)
From S2P Require Import Prelude GoStd ConfigV1 ClientControl.
From Stdlib Require Import QArith Qround Lqa.
From stdpp Require Import list.
Local Open Scope Z_scope.

Class Float64 := { fl : Q → Q }.
Class Float64Laws `{Float64} := {
  fl_mono : ∀ x y, (x <= y)%Q → (fl x <= fl y)%Q;
  fl_int : ∀ z, Z.abs z ≤ 9007199254740992 → (fl (inject_Z z) == inject_Z z)%Q;
}.

(** [time.Duration(x)]: truncation towards zero. *)
Definition duration_of (x : Q) : Z := if Qle_bool 0 x then Qfloor x else - Qfloor (- x).

Record FastBackoffOptions := mkOptions {
  fb_Duration : Z;
  fb_Factor : Q;
  fb_Jitter : Q;
  fb_MaxDuration : Z;
  fb_InitDurationIfFail : Z;
  fb_FastRetryCount : Z;
  fb_FastRetryDelay : Z;
  fb_FastRetryJitter : Q;
  fb_FastRetryWindow : Z;
}.
(** [fastBackoffImpl]; the zero time is before every clock reading. *)
Record fastBackoff := mkBackoff {
  bo_lastCalled : Z;
  bo_errors : Z;
  bo_cutoff : Z;
  bo_counts : Z;
}.
Definition newFastBackoffManager : fastBackoff := mkBackoff 0 0 0 1.

Section backoff.
Context `{Float64}.

(** [Jitter]; [r] is [rand.Float64()]. *)
Definition Jitter (r : Q) (duration : Z) (maxFactor : Q) : Z :=
  let maxFactor := if Qle_bool maxFactor 0 then 1%Q else maxFactor in
  wrap64 (duration + duration_of (fl (fl (r * maxFactor) * fl (inject_Z duration)))).

(** The part of [Backoff] that a failure reaches outside the fast retries. *)
Definition slow_duration (o : FastBackoffOptions) (r : Q) (errors previous : Z) : Z :=
  let duration := if decide (errors = 1) then int_or (fb_InitDurationIfFail o) previous else previous in
  let duration := int_or duration second in
  let duration := if Qeq_bool (fb_Factor o) 0 then duration
                  else duration_of (fl (fl (inject_Z duration) * fb_Factor o)) in
  let duration := if Qle_bool (fb_Jitter o) 0 then duration else Jitter r duration (fb_Jitter o) in
  if (0 <? fb_MaxDuration o) && (fb_MaxDuration o <? duration) then fb_MaxDuration o else duration.

(** [Backoff] at time [now]. *)
Definition Backoff (o : FastBackoffOptions) (now : Z) (r : Q) (previous : Z) (failed : bool) (b : fastBackoff)
    : Z * fastBackoff :=
  if decide (bo_lastCalled b = 0)
  then (fb_Duration o, mkBackoff now (bo_errors b) (bo_cutoff b) (bo_counts b))
  else
    let errors := if failed then bo_errors b + 1 else 0 in
    if (0 <? fb_FastRetryCount o) && failed then
      let counts := bo_counts b + 1 in
      if counts <=? fb_FastRetryCount o
      then (Jitter r (fb_FastRetryDelay o) (fb_FastRetryJitter o), mkBackoff now errors (bo_cutoff b) counts)
      else
        (slow_duration o r errors previous,
         if bo_cutoff b <? now then mkBackoff now errors (now + fb_FastRetryWindow o) 0
         else mkBackoff now errors (bo_cutoff b) counts)
    else
      (if failed then slow_duration o r errors previous else fb_Duration o,
       mkBackoff now errors (bo_cutoff b) (bo_counts b)).

(** [BackoffUntil] after its first call of [Backoff]: what each round meets, and the
    delays it gives to the ticker. *)
Record round := mkRound {
  rd_stop : bool;            (* [stopCh] closed at the head of the loop *)
  rd_done : bool;            (* what [f] returns *)
  rd_failed : bool;
  rd_now : Z;
  rd_rand : Q;
  rd_stopped_waiting : bool; (* [stopCh] chosen while waiting *)
}.
Inductive outcome : Type := Running | Stopped | Done.
Fixpoint until_loop (o : FastBackoffOptions) (sliding : bool) (delay : Z) (previousError : bool) (b : fastBackoff)
    (rounds : list round) : list Z * outcome :=
  match rounds with
  | [] => ([], Running)
  | r :: rounds =>
      if rd_stop r then ([], Stopped)
      else
        let '(delay, b) := if sliding then (delay, b) else Backoff o (rd_now r) (rd_rand r) delay previousError b in
        if rd_done r then ([], Done)
        else
          let '(delay, b) := if sliding then Backoff o (rd_now r) (rd_rand r) delay (rd_failed r) b else (delay, b) in
          if rd_stopped_waiting r then ([delay], Stopped)
          else let '(l, out) := until_loop o sliding delay (rd_failed r) b rounds in (delay :: l, out)
  end.
Definition BackoffUntil (o : FastBackoffOptions) (sliding : bool) (now : Z) (r : Q) (rounds : list round) : list Z * outcome :=
  let '(first, b) := Backoff o now r 0 false newFastBackoffManager in
  let '(l, out) := until_loop o sliding 0 false b rounds in (first :: l, out).
End backoff.

(** The managers of [client/service.go] and [client/control.go]. *)
Definition login_backoff (maxInterval : Z) : FastBackoffOptions :=
  mkOptions second 2 (1 # 10) maxInterval 0 0 0 0 0.
Definition keeper_backoff : FastBackoffOptions :=
  mkOptions second 2 (1 # 10) (20 * second) 0 3 (200 * 1000000) (1 # 2) (60 * second).
Definition heartbeat_backoff (interval : Z) : FastBackoffOptions :=
  mkOptions (interval * second) 2 (1 # 10) (interval * second) second 0 0 0 0.

(** ** Lemmas *)
Section laws.
Context `{Float64Laws}.
(** Two powers below the integers that floats represent. *)
Definition small (z : Z) : Prop := 0 < z ≤ 2251799813685248.

Lemma duration_of_nonneg x : (0 <= x)%Q → duration_of x = Qfloor x.
Proof. intros Hx. unfold duration_of. by rewrite (proj2 (Qle_bool_iff _ _) Hx). Qed.

Lemma duration_of_bounds x lo hi : 0 ≤ lo → (inject_Z lo <= x)%Q → (x <= inject_Z hi)%Q → lo ≤ duration_of x ≤ hi.
Proof.
  intros Hlo Hx Hhi. rewrite duration_of_nonneg.
  - rewrite <-(Qfloor_Z lo), <-(Qfloor_Z hi). split; by apply Qfloor_resp_le.
  - eapply Qle_trans; [|done]. change 0%Q with (inject_Z 0). by rewrite <-Zle_Qle.
Qed.

Lemma fl_between x lo hi : Z.abs lo ≤ 9007199254740992 → Z.abs hi ≤ 9007199254740992 →
  (inject_Z lo <= x)%Q → (x <= inject_Z hi)%Q → (inject_Z lo <= fl x)%Q ∧ (fl x <= inject_Z hi)%Q.
Proof.
  intros Hl Hh Hx Hy. split.
  - rewrite <-(fl_int lo) by done. by apply fl_mono.
  - rewrite <-(fl_int hi) by done. by apply fl_mono.
Qed.

(** A jitter of at most the duration. *)
Lemma Jitter_bounds r d f : (0 <= r <= 1)%Q → (f <= 1)%Q → small d → d ≤ Jitter r d f ≤ 2 * d.
Proof.
  intros [Hr0 Hr1] Hf Hd. unfold small in Hd. unfold Jitter. set (g := if Qle_bool f 0 then 1%Q else f).
  assert (Hg : (0 <= g <= 1)%Q).
  { unfold g. destruct (Qle_bool f 0) eqn:E; [split; [done|apply Qle_refl]|]. split; [|done].
    apply Qlt_le_weak, Qnot_le_lt. intros Hle%Qle_bool_iff. congruence. }
  assert (Hrg : (inject_Z 0 <= fl (r * g) <= inject_Z 1)%Q).
  { apply fl_between; [lia..| |]; unfold inject_Z; nra. }
  assert (Hdq : (0 < inject_Z d)%Q) by (change 0%Q with (inject_Z 0); rewrite <-Zlt_Qlt; lia).
  assert (Hfd : (fl (inject_Z d) == inject_Z d)%Q) by (apply fl_int; lia).
  assert (Hb : (inject_Z 0 <= fl (fl (r * g) * fl (inject_Z d)) <= inject_Z d)%Q).
  { apply fl_between; [lia..| |]; rewrite Hfd; unfold inject_Z at 1 in Hrg; destruct Hrg as [Hrg1 Hrg2];
      unfold inject_Z in Hrg1, Hrg2 |- *; unfold inject_Z in Hdq; nra. }
  destruct Hb as [Hb1 Hb2]. pose proof (duration_of_bounds _ 0 d ltac:(lia) Hb1 Hb2) as Hj.
  rewrite wrap64_id; [lia|]. unfold in_int64, MinInt64, MaxInt64. lia.
Qed.

(** Scaling by a factor between one and two. *)
Lemma scale_bounds d f : (1 <= f <= 2)%Q → small d → d ≤ duration_of (fl (fl (inject_Z d) * f)) ≤ 2 * d.
Proof.
  intros [Hf1 Hf2] Hd. unfold small in Hd.
  assert (Hdq : (0 < inject_Z d)%Q) by (change 0%Q with (inject_Z 0); rewrite <-Zlt_Qlt; lia).
  assert (Hfd : (fl (inject_Z d) == inject_Z d)%Q) by (apply fl_int; lia).
  assert (Hb : (inject_Z d <= fl (fl (inject_Z d) * f) <= inject_Z (2 * d))%Q).
  { apply fl_between; [lia..| |]; rewrite Hfd; [|rewrite inject_Z_mult]; unfold inject_Z in *; nra. }
  destruct Hb. apply duration_of_bounds; [lia|done..].
Qed.

(** Options a manager can run with: durations of at most six days, a factor between one
    and two, jitters of at most the duration. *)
Definition short (z : Z) : Prop := 0 < z ≤ 562949953421312.
Record sane (o : FastBackoffOptions) : Prop := mkSane {
  sn_duration : short (fb_Duration o);
  sn_max : short (fb_MaxDuration o);
  sn_factor : (1 <= fb_Factor o <= 2)%Q;
  sn_jitter : (fb_Jitter o <= 1)%Q;
  sn_init : 0 ≤ fb_InitDurationIfFail o ≤ 562949953421312;
  sn_fast : 0 < fb_FastRetryCount o → short (fb_FastRetryDelay o) ∧ (fb_FastRetryJitter o <= 1)%Q;
}.
(** The longest delay. *)
Definition longest (o : FastBackoffOptions) : Z :=
  Z.max (fb_Duration o) (Z.max (fb_MaxDuration o) (if 0 <? fb_FastRetryCount o then 2 * fb_FastRetryDelay o else 0)).

Lemma int_or_cases v fb : int_or v fb = v ∧ v ≠ 0 ∨ int_or v fb = fb ∧ v = 0.
Proof. unfold int_or, EmptyOr. case_decide; auto. Qed.

Lemma slow_duration_bounds o r errors previous : sane o → (0 <= r <= 1)%Q → 0 ≤ previous ≤ 1125899906842624 →
  0 < slow_duration o r errors previous ≤ fb_MaxDuration o
  ∧ (errors ≠ 1 → 0 < previous → previous ≤ slow_duration o r errors previous ∨ slow_duration o r errors previous = fb_MaxDuration o).
Proof.
  intros [HD [HM1 HM2] HF HJ HI _] Hr Hp. unfold slow_duration.
  set (d0 := if decide (errors = 1) then int_or (fb_InitDurationIfFail o) previous else previous).
  assert (Hd0 : 0 ≤ d0 ≤ 1125899906842624 ∧ (errors ≠ 1 → d0 = previous)).
  { unfold d0. destruct (decide (errors = 1)); [|lia]. destruct (int_or_cases (fb_InitDurationIfFail o) previous); lia. }
  set (d1 := int_or d0 second).
  assert (Hd1 : 0 < d1 ≤ 1125899906842624 ∧ (0 < d0 → d1 = d0)).
  { unfold d1. destruct (int_or_cases d0 second) as [[-> ?]|[-> ?]]; unfold second; lia. }
  replace (Qeq_bool (fb_Factor o) 0) with false.
  2: { symmetry. apply not_true_iff_false. intros E%Qeq_bool_iff. destruct HF as [HF _]. rewrite E in HF. by apply Qle_bool_iff in HF. }
  set (d2 := duration_of _). assert (Hd2 : d1 ≤ d2 ≤ 2 * d1) by (apply scale_bounds; [done|unfold small; lia]).
  set (d3 := if Qle_bool _ _ then _ else _).
  assert (Hd3 : d2 ≤ d3 ≤ 2 * d2).
  { unfold d3. destruct (Qle_bool _ _); [lia|]. apply Jitter_bounds; [done|done|unfold small; lia]. }
  rewrite (proj2 (Z.ltb_lt 0 _)) by done. simpl. destruct (Z.ltb_spec (fb_MaxDuration o) d3); lia.
Qed.

Lemma Backoff_bounds o now r previous failed b : sane o → (0 <= r <= 1)%Q → 0 ≤ previous ≤ 1125899906842624 →
  0 < (Backoff o now r previous failed b).1 ≤ longest o.
Proof.
  intros Hs Hr Hp. pose proof Hs as [[HD ?] [HM1 HM2] _ _ _ Hfast].
  assert (Hslow : ∀ errors, 0 < slow_duration o r errors previous ≤ longest o).
  { intros errors. destruct (slow_duration_bounds o r errors previous Hs Hr Hp) as [? _]. unfold longest. lia. }
  unfold Backoff. case_decide; [simpl; unfold longest; lia|].
  destruct (0 <? fb_FastRetryCount o) eqn:Hc, failed; cbn [andb fst]; try (apply Hslow); try (simpl; unfold longest; lia).
  destruct (_ <=? _); [|simpl; by destruct (_ <? _); apply Hslow].
  apply Z.ltb_lt in Hc as Hc'. destruct (Hfast Hc') as [[Hd ?] Hj].
  destruct (Jitter_bounds r (fb_FastRetryDelay o) (fb_FastRetryJitter o)) as [? ?]; [done|done|unfold small; lia|].
  simpl. unfold longest. rewrite Hc. lia.
Qed.

Lemma longest_small o : sane o → 0 < longest o ≤ 1125899906842624.
Proof.
  intros [[??] [??] _ _ _ Hf]. unfold longest. destruct (Z.ltb_spec 0 (fb_FastRetryCount o)) as [Hc|Hc]; [|lia].
  destruct (Hf Hc) as [[??] _]. lia.
Qed.

Lemma until_loop_bounds o sliding rounds delay failed b : sane o → 0 ≤ delay ≤ longest o →
  Forall (λ r, 0 <= rd_rand r <= 1)%Q rounds →
  Forall (λ d, 0 < d ≤ longest o) (until_loop o sliding delay failed b rounds).1.
Proof.
  intros Hs. pose proof (longest_small o Hs) as Hl. revert delay failed b.
  induction rounds as [|r rounds IH]; intros delay failed b Hd Hr; [constructor|].
  apply Forall_cons in Hr as [Hr0 Hr]. cbn [until_loop]. destruct (rd_stop r); [constructor|].
  destruct sliding.
  - destruct (rd_done r); [constructor|].
    pose proof (Backoff_bounds o (rd_now r) (rd_rand r) delay (rd_failed r) b Hs Hr0 ltac:(lia)) as Hb.
    destruct (Backoff _ _ _ _ _ _) as [d b']. simpl in Hb. destruct (rd_stopped_waiting r); [by apply Forall_singleton|].
    specialize (IH d (rd_failed r) b' ltac:(lia) Hr). destruct (until_loop _ _ _ _ _ _). by constructor.
  - pose proof (Backoff_bounds o (rd_now r) (rd_rand r) delay failed b Hs Hr0 ltac:(lia)) as Hb.
    destruct (Backoff _ _ _ _ _ _) as [d b']. simpl in Hb. destruct (rd_done r); [constructor|].
    destruct (rd_stopped_waiting r); [by apply Forall_singleton|].
    specialize (IH d (rd_failed r) b' ltac:(lia) Hr). destruct (until_loop _ _ _ _ _ _). by constructor.
Qed.

(** C38. Every delay is positive and bounded.  For sane options - those of the login loops,
    of the keeper and of the heartbeat are, as long as the configured interval is one to
    six days' worth of seconds - every duration given to the ticker is positive, so that
    neither [NewTicker] nor [Reset] panics, and at most the longest of the options;
    whatever [f] returns, however the clock runs, and whatever numbers are drawn. *)
Theorem backoff_delays_bounded (o : FastBackoffOptions) (sliding : bool) (now : Z) (r : Q) (rounds : list round) :
  sane o → (0 <= r <= 1)%Q → Forall (λ r, 0 <= rd_rand r <= 1)%Q rounds →
  Forall (λ d, 0 < d ≤ longest o) (BackoffUntil o sliding now r rounds).1.
Proof.
  intros Hs Hr Hrs. unfold BackoffUntil.
  pose proof (Backoff_bounds o now r 0 false newFastBackoffManager Hs Hr ltac:(lia)) as Hb.
  destruct (Backoff _ _ _ _ _ _) as [d b]. simpl in Hb. pose proof (longest_small o Hs).
  pose proof (until_loop_bounds o sliding rounds 0 false b Hs ltac:(lia) Hrs) as Hl.
  destruct (until_loop _ _ _ _ _ _). by constructor.
Qed.

(** ** Growth *)
Lemma slow_duration_doubles o r errors previous : sane o → (0 <= r <= 1)%Q → 0 ≤ previous ≤ 1125899906842624 →
  (fb_Factor o == 2)%Q → fb_InitDurationIfFail o = 0 →
  Z.min (fb_MaxDuration o) (2 * int_or previous second) ≤ slow_duration o r errors previous.
Proof.
  intros [HD [HM1 HM2] HF HJ _ _] Hr Hp H2 Hi. unfold slow_duration. rewrite Hi.
  replace (if decide (errors = 1) then int_or 0 previous else previous) with previous.
  2: { case_decide; [|done]. unfold int_or, EmptyOr. by rewrite decide_True. }
  set (d1 := int_or previous second).
  assert (Hd1 : 0 < d1 ≤ 1125899906842624).
  { unfold d1. destruct (int_or_cases previous second) as [[-> ?]|[-> ?]]; unfold second; lia. }
  replace (Qeq_bool (fb_Factor o) 0) with false.
  2: { symmetry. apply not_true_iff_false. intros E%Qeq_bool_iff. rewrite E in H2. discriminate H2. }
  set (d2 := duration_of _). assert (Hd2 : d2 = 2 * d1).
  { unfold d2. assert (Hx : (fl (fl (inject_Z d1) * fb_Factor o) == inject_Z (2 * d1))%Q).
    { assert (Hy : (fl (inject_Z d1) * fb_Factor o == inject_Z (2 * d1))%Q).
      { rewrite H2, (fl_int d1) by lia. rewrite inject_Z_mult. apply Qmult_comm. }
      apply (Qeq_trans _ (fl (inject_Z (2 * d1)))); [|apply fl_int; lia].
      apply Qle_antisym; apply fl_mono; rewrite Hy; apply Qle_refl. }
    rewrite duration_of_nonneg by (rewrite Hx; change 0%Q with (inject_Z 0); rewrite <-Zle_Qle; lia).
    rewrite Hx. apply Qfloor_Z. }
  set (d3 := if Qle_bool _ _ then _ else _).
  assert (Hd3 : d2 ≤ d3).
  { unfold d3. destruct (Qle_bool _ _); [lia|]. apply Jitter_bounds; [done|done|unfold small; lia]. }
  rewrite (proj2 (Z.ltb_lt 0 _)) by done. simpl. destruct (Z.ltb_spec (fb_MaxDuration o) d3); lia.
Qed.

(** Repeated failures back off exponentially.  A manager with factor two and neither
    fast retries nor an initial duration, as the login loops use it: after [n]
    consecutive failures the delay is at least [2^n] seconds or the maximum, which is
    therefore reached after finitely many failures and never left while they last. *)
Theorem backoff_reaches_maximum (o : FastBackoffOptions) (now : Z) (r : Q) (rounds : list round) (n : nat) (d : Z) :
  sane o → (fb_Factor o == 2)%Q → fb_InitDurationIfFail o = 0 → fb_FastRetryCount o = 0 → 0 < now →
  (0 <= r <= 1)%Q →
  Forall (λ r, (0 <= rd_rand r <= 1)%Q ∧ rd_failed r = true ∧ 0 < rd_now r) rounds →
  (BackoffUntil o true now r rounds).1 !! S n = Some d →
  Z.min (fb_MaxDuration o) (2 ^ Z.of_nat (S n) * second) ≤ d ≤ fb_MaxDuration o.
Proof.
  intros Hs H2 Hi Hc Hnow Hr Hrs. pose proof (longest_small o Hs) as Hlong.
  assert (HM : fb_MaxDuration o ≤ 1125899906842624) by (destruct (sn_max o Hs); lia).
  assert (Hgen : ∀ k delay failed b, bo_lastCalled b ≠ 0 → 0 ≤ delay ≤ fb_MaxDuration o →
    Z.min (fb_MaxDuration o) (2 ^ Z.of_nat k * second) ≤ int_or delay second →
    ∀ n d, (until_loop o true delay failed b rounds).1 !! n = Some d →
    Z.min (fb_MaxDuration o) (2 ^ Z.of_nat (S (k + n)) * second) ≤ d ≤ fb_MaxDuration o).
  { clear n d. induction Hrs as [|x rounds (Hx & Hf & Ht) _ IH]; intros k delay failed b Hb Hd Hmin n d; [done|].
    cbn [until_loop]. destruct (rd_stop x); [done|]. destruct (rd_done x); [done|].
    destruct (Backoff o (rd_now x) (rd_rand x) delay (rd_failed x) b) as [d1 b1] eqn:E.
    unfold Backoff in E. rewrite decide_False, Hc, Hf in E by done. cbn in E. injection E as <- <-.
    set (d1 := slow_duration _ _ _ _) in *.
    assert (Hd1 : Z.min (fb_MaxDuration o) (2 ^ Z.of_nat (S k) * second) ≤ d1 ≤ fb_MaxDuration o ∧ 0 < d1).
    { pose proof (slow_duration_doubles o (rd_rand x) (bo_errors b + 1) delay Hs Hx ltac:(lia) H2 Hi) as Hlo.
      pose proof (slow_duration_bounds o (rd_rand x) (bo_errors b + 1) delay Hs Hx ltac:(lia)) as [Hhi _].
      fold d1 in Hlo, Hhi. rewrite Nat2Z.inj_succ, Z.pow_succ_r by lia. lia. }
    assert (Hhead : ∀ l, (d1 :: l) !! n = Some d → (n = 0%nat ∧ d = d1) ∨ ∃ m, n = S m ∧ l !! m = Some d).
    { intros l Hl. destruct n; [left; by injection Hl|right; eauto]. }
    destruct (rd_stopped_waiting x).
    - intros [[-> ->]|(m & -> & ?)]%Hhead; [|done]. rewrite Nat.add_0_r. lia.
    - specialize (IH (S k) d1 (rd_failed x) (mkBackoff (rd_now x) (bo_errors b + 1) (bo_cutoff b) (bo_counts b))).
      destruct (until_loop _ _ _ _ _ _) as [l out]. cbn [fst] in *.
      intros [[-> ->]|(m & -> & Hm)]%Hhead; [rewrite Nat.add_0_r; lia|].
      rewrite <-plus_n_Sm. apply IH; [simpl; lia|lia| |done].
      destruct (int_or_cases d1 second); lia. }
  unfold BackoffUntil, Backoff. rewrite decide_True by done.
  specialize (Hgen 0%nat 0 false (mkBackoff now 0 0 1)). cbn [bo_errors bo_cutoff bo_counts newFastBackoffManager].
  destruct (until_loop _ _ _ _ _ _) as [l out]. cbn [fst] in *. intros Hl.
  apply (Hgen ltac:(simpl; lia) ltac:(destruct (sn_max o Hs); lia)) in Hl; [done|].
  change (int_or 0 second) with second. lia.
Qed.
End laws.

(** ** The client's managers *)
Lemma login_sane m : short m → sane (login_backoff m).
Proof. intros Hm. split; cbn; try done; unfold short, second; lia. Qed.
Lemma keeper_sane : sane keeper_backoff.
Proof. by split. Qed.
Lemma heartbeat_sane i : 0 < i ≤ 562949 → sane (heartbeat_backoff i).
Proof. intros Hi. split; cbn; try done; unfold short, second; lia. Qed.

#[local] Instance exact_float : Float64 := {| fl x := x |}.
#[local] Instance exact_laws : Float64Laws.
Proof. by split. Defined.
Definition failing (now : Z) : round := mkRound false false true now 0 false.

Lemma backoff_delays_bounded_witness :
  let l := (BackoffUntil (heartbeat_backoff 30) true 5 0 [failing 6; mkRound false false false 7 (1 # 2) false]).1 in
  l = [30 * second; 2 * second; 30 * second] ∧ Forall (λ d, 0 < d ≤ longest (heartbeat_backoff 30)) l.
Proof.
  split; [vm_compute; reflexivity|].
  apply (backoff_delays_bounded (heartbeat_backoff 30) true 5 0 [failing 6; mkRound false false false 7 (1 # 2) false]);
    [apply heartbeat_sane; lia|split; discriminate|].
  repeat (apply Forall_cons; split; [split; discriminate|]). apply Forall_nil. exact I.
Defined.

Lemma backoff_reaches_maximum_witness :
  (BackoffUntil (login_backoff (10 * second)) true 5 0 [failing 6; failing 7; failing 8; failing 9]).1 !! 4%nat = Some (10 * second)
  ∧ Z.min (10 * second) (2 ^ 4 * second) ≤ 10 * second ≤ 10 * second.
Proof.
  split; [vm_compute; reflexivity|].
  apply (backoff_reaches_maximum (login_backoff (10 * second)) 5 0 [failing 6; failing 7; failing 8; failing 9] 3 (10 * second));
    [apply login_sane; split; [reflexivity|discriminate]|reflexivity|reflexivity|reflexivity|reflexivity|split; discriminate| |vm_compute; reflexivity].
  repeat (apply Forall_cons; split; [split; [split; discriminate|split; reflexivity]|]). apply Forall_nil. exact I.
Defined.

(** The keeper's fast retries are not the first three in a minute: two come, then a
    computed delay that starts the window, then three more. *)
Lemma keeper_fast_retries : (BackoffUntil keeper_backoff true 1 0 (failing <$> [2; 3; 4; 5; 6; 7; 8; 9])).1
  = (λ ms, ms * 1000000) <$> [1000; 200; 200; 400; 200; 200; 200; 400; 800].
Proof. vm_compute. reflexivity. Qed.
