(* ===== verification/Tunnel.v ===== *)
(** * The visitor's tunnel: [client/visitor/xtcp.go]

    The user's connection through [handleConn], the loop of [openTunnel] over the times
    its timer and its deadline fire, and the tunnel session shared by the goroutine that
    makes holes, the users' connections, the keeper and [Close], as a step relation.
    [KCPTunnelSession] and [QUICTunnelSession] have the same fields and operations here:
    a multiplexed session over a UDP connection; KCP, QUIC and the multiplexer are
    third-party code, known by whether a session is open. *)
From S2P Require Import Prelude GoStd ConfigV1 ClientControl ClientVisitor.
From stdpp Require Import gmap list.
Local Open Scope Z_scope.

(** ** The user's connection *)
Inductive ueffect : Type :=
| UClose (e : option string)    (* [CloseWithError] when the connection has it *)
| UTransferred (visitor : string)
| UJoined
| UTunnelClosed.
(** [handleConn]: [opened] is the result of [openTunnel], [transfer] that of the helper's
    [TransferConn], [wrap] that of [wrapVisitorConn]; [supports] tells whether the
    connection has [CloseWithError].  [Join] closes both connections at its end. *)
Definition close_user (supports : bool) (e : option string) : ueffect := UClose (if supports then e else None).
Definition handleConn (fallbackTo : string) (supports : bool) (opened transfer wrap : result unit) : list ueffect :=
  match opened with
  | Err e =>
      if decide (fallbackTo = "") then [close_user supports (Some e)]
      else match transfer with
           | Err _ => [close_user supports (Some e)]
           | Ok _ => [UTransferred fallbackTo]
           end
  | Ok _ =>
      match wrap with
      | Err e => [UTunnelClosed; close_user supports (Some e)]
      | Ok _ => [UJoined; UTunnelClosed; close_user supports None]
      end
  end.

(** ** Opening a tunnel *)
Definition ms : Z := 1000000.
Definition openTunnelTimeout : Z := 20 * second.
Definition retryInterval : Z := 500 * ms.
(** [time.Duration(FallbackTimeoutMs)*time.Millisecond] in [handleConn], a product of 64 bits. *)
Definition fallback_timeout (fallbackTimeoutMs : Z) : Z := wrap64 (fallbackTimeoutMs * ms).
(** The deadline of the context at [now]: with a fallback, the earlier of two. *)
Definition deadline (now : Z) (fallbackTo : string) (fallbackTimeoutMs : Z) : Z :=
  if decide (fallbackTo = "") then now + openTunnelTimeout
  else Z.min (now + openTunnelTimeout) (now + fallback_timeout fallbackTimeoutMs).
(** One round of the loop: whether the visitor's context is done, which of two events at
    the same time [select] takes, how long [getTunnelConn] takes and what it returns. *)
Record attempt := mkAttempt { at_closed : bool; at_timeout_first : bool; at_duration : Z; at_result : result unit }.
(** [openTunnel]: [timer] is when the timer fires next; [None] when the script ends. *)
Fixpoint openTunnel (deadline timer : Z) (l : list attempt) : option (result unit) :=
  match l with
  | [] => None
  | a :: l =>
      if at_closed a then Some (Err "context canceled")
      else if (deadline <? timer) || (deadline =? timer) && at_timeout_first a then Some (Err "open tunnel timeout")
      else match at_result a with
           | Ok _ => Some (Ok tt)
           | Err _ => openTunnel deadline (timer + at_duration a + retryInterval) l
           end
  end.

(** ** The session *)
(** The goroutine of [processTunnelStartEvents]: in its [select], in [makeNatHole] before
    [Init], sleeping, returned. *)
Inductive pphase : Type := PSelect | PHole | PSleep | PReturned.
Record tunnel := mkTunnel {
  tn_session : option nat;      (* [session] with its connection *)
  tn_open : list bool;          (* every session ever made: open *)
  tn_done : bool;               (* the visitor's context *)
  tn_proc : pphase;
  tn_errors : nat;              (* [getTunnelConn] calls between [OpenConn] and [Close] *)
  tn_starters : nat;            (* and between [Close] and the send on [startTunnelCh] *)
  tn_keeper : bool;             (* [keepTunnelOpenWorker] is at its first, blocking send *)
}.
Definition tunnel_start (keep : bool) : tunnel := mkTunnel None [] false PSelect 0 0 keep.

(** [Init] when its calls succeed. *)
Definition Init (t : tunnel) : tunnel :=
  mkTunnel (Some (length (tn_open t))) (tn_open t ++ [true]) (tn_done t) (tn_proc t) (tn_errors t) (tn_starters t) (tn_keeper t).
(** [Close] of the session. *)
Definition Session_Close (t : tunnel) : tunnel :=
  mkTunnel None (match tn_session t with Some k => <[k := false]> (tn_open t) | None => tn_open t end)
    (tn_done t) (tn_proc t) (tn_errors t) (tn_starters t) (tn_keeper t).
Definition set_proc (p : pphase) (t : tunnel) : tunnel :=
  mkTunnel (tn_session t) (tn_open t) (tn_done t) p (tn_errors t) (tn_starters t) (tn_keeper t).
Definition set_callers (e s : nat) (t : tunnel) : tunnel :=
  mkTunnel (tn_session t) (tn_open t) (tn_done t) (tn_proc t) e s (tn_keeper t).
Definition keeper_sent (t : tunnel) : tunnel :=
  mkTunnel (tn_session t) (tn_open t) (tn_done t) (tn_proc t) (tn_errors t) (tn_starters t) false.
(** [XTCPVisitor.Close]. *)
Definition Visitor_Close (t : tunnel) : tunnel :=
  Session_Close (mkTunnel (tn_session t) (tn_open t) true (tn_proc t) (tn_errors t) (tn_starters t) (tn_keeper t)).

(** [calm] runs: a start is sent only while there is no session, and the visitor is not
    closed while a hole is made. *)
Inductive tstep (calm : bool) : tunnel → tunnel → Prop :=
| t_fails t : tstep calm t (set_callers (S (tn_errors t)) (tn_starters t) t)
| t_close n t : tn_errors t = S n → tstep calm t (set_callers n (S (tn_starters t)) (Session_Close t))
| t_start n t : tn_starters t = S n → tn_proc t = PSelect → (calm = true → tn_session t = None) →
    tstep calm t (set_proc PHole (set_callers (tn_errors t) n t))
| t_no_start n t : tn_starters t = S n → tstep calm t (set_callers (tn_errors t) n t)
| t_keeper t : tn_keeper t = true → tn_proc t = PSelect → (calm = true → tn_session t = None) →
    tstep calm t (set_proc PHole (keeper_sent t))
| t_made t : tn_proc t = PHole → tstep calm t (set_proc PSleep (Init t))
| t_not_made t : tn_proc t = PHole → tstep calm t (set_proc PSleep t)
| t_wake t : tn_proc t = PSleep → tstep calm t (set_proc PSelect t)
| t_return t : tn_proc t = PSelect → tn_done t = true → tstep calm t (set_proc PReturned t)
| t_visitor_close t : (calm = true → tn_proc t ≠ PHole) → tstep calm t (Visitor_Close t)
| t_dies k t : tn_open t !! k = Some true → tstep calm t
    (mkTunnel (tn_session t) (<[k := false]> (tn_open t)) (tn_done t) (tn_proc t) (tn_errors t) (tn_starters t) (tn_keeper t)).

(** ** Lemmas *)
(** The open sessions: the current one, and none while a hole is made. *)
Definition tunnel_ok (t : tunnel) : Prop :=
  (∀ k, tn_open t !! k = Some true → tn_session t = Some k)
  ∧ (∀ k, tn_session t = Some k → (k < length (tn_open t))%nat)
  ∧ (tn_proc t = PHole → tn_session t = None).

Lemma close_all t : tunnel_ok t → ∀ k, tn_open (Session_Close t) !! k ≠ Some true.
Proof.
  intros (H1 & H2 & _) k Hk. simpl in Hk. destruct (tn_session t) as [j|] eqn:E; [|by apply H1 in Hk].
  destruct (decide (j = k)) as [<-|Hne].
  - rewrite list_lookup_insert_eq in Hk by auto. done.
  - rewrite list_lookup_insert_ne in Hk by done. apply H1 in Hk. congruence.
Qed.

Lemma tunnel_ok_close t t' : tunnel_ok t → tn_session t' = None → tn_open t' = tn_open (Session_Close t) → tunnel_ok t'.
Proof.
  intros Hok E1 E2. unfold tunnel_ok. rewrite E1, E2. split; [|split; [done|done]].
  intros k Hk. by destruct (close_all t Hok k).
Qed.

Lemma tunnel_ok_ext t t' : tn_session t' = tn_session t → tn_open t' = tn_open t →
  (tn_proc t' = PHole → tn_session t = None) → tunnel_ok t → tunnel_ok t'.
Proof. intros E1 E2 E3 (H1 & H2 & H3). unfold tunnel_ok. rewrite E1, E2. auto. Qed.

Lemma tunnel_ok_step t t' : tstep true t t' → tunnel_ok t → tunnel_ok t'.
Proof.
  intros Hs Hok. pose proof Hok as (H1 & H2 & H3).
  destruct Hs as [t|n t E|n t E Hp Hc|n t E|t E Hp Hc|t Hp|t Hp|t Hp|t Hp Hd|t Hc|k t Hk];
    try (by apply (tunnel_ok_ext t); auto).
  - by apply (tunnel_ok_close t).
  - specialize (H3 Hp). unfold tunnel_ok. simpl. split_and!; [|intros k [= <-]; rewrite length_app; simpl; lia|done].
    intros k [Hk|[-> _]]%lookup_snoc_Some; [destruct Hk as [_ Hk%H1]; congruence|done].
  - by apply (tunnel_ok_close t).
  - unfold tunnel_ok. simpl. split_and!; [|by intros j; rewrite length_insert; apply H2|done].
    intros j. destruct (decide (k = j)) as [<-|Hne]; [|rewrite list_lookup_insert_ne by done; apply H1].
    rewrite list_lookup_insert_eq by (by eapply lookup_lt_Some). done.
Qed.

Lemma tunnel_reachable t t' : rtc (tstep true) t t' → tunnel_ok t → tunnel_ok t'.
Proof. induction 1; eauto using tunnel_ok_step. Qed.

(** ** Properties *)

Definition is_user_close (e : ueffect) : bool := match e with UClose _ => true | _ => false end.

(** The user's connection has one fate.  Whatever the tunnel, the wrapping and the
    fallback give, a user's connection is closed exactly once or handed to the fallback
    visitor, never both; it is handed over only when no tunnel could be opened and a
    fallback is configured; and a tunnel connection that was opened is closed. *)
Theorem user_conn_one_fate (fallbackTo : string) (supports : bool) (opened transfer wrap : result unit) :
  let t := handleConn fallbackTo supports opened transfer wrap in
  let closes := filter (λ e, is_user_close e = true) t in
  (length closes = 1%nat ∧ (∀ v, UTransferred v ∉ t) ∨ closes = [] ∧ t = [UTransferred fallbackTo])
  ∧ (UTransferred fallbackTo ∈ t ↔ is_ok opened = false ∧ fallbackTo ≠ "" ∧ is_ok transfer = true)
  ∧ (UTunnelClosed ∈ t ↔ is_ok opened = true) ∧ (UJoined ∈ t ↔ is_ok opened = true ∧ is_ok wrap = true).
Proof.
  unfold handleConn, close_user.
  destruct opened as [|e]; [destruct wrap as [|e]|case_decide as Hf; [|destruct transfer]];
    (split; [|split; [|split]]);
    try (left; split; [done|]; intros v; rewrite ?elem_of_cons, ?elem_of_nil; naive_solver);
    try (by right); rewrite ?elem_of_cons, ?elem_of_nil; cbn; naive_solver.
Qed.

Lemma deadline_fits now fallbackTo t : in_int64 (t * ms) → fallbackTo ≠ "" →
  deadline now fallbackTo t = now + Z.min (20 * second) (t * ms).
Proof.
  intros Ht Hf. unfold deadline, fallback_timeout. rewrite decide_False, wrap64_id by done.
  unfold openTunnelTimeout. lia.
Qed.

(** C37. Opening a tunnel terminates.  However long the attempts take and whatever they
    return, the loop returns within forty-two rounds: with the result of a successful
    attempt, when the visitor is closed, or with the time-out, which it never reports
    before the deadline and only after failed attempts.  The deadline is twenty seconds
    away; with a fallback whose time-out in nanoseconds fits in 64 bits it is that time-out
    away, if that is shorter. *)
Theorem openTunnel_terminates (now : Z) (fallbackTo : string) (fallbackTimeoutMs : Z) (l : list attempt) :
  Forall (λ a, 0 ≤ at_duration a) l → (42 ≤ length l)%nat →
  ∃ r l1 a l2, openTunnel (deadline now fallbackTo fallbackTimeoutMs) now l = Some r ∧ l = l1 ++ a :: l2
    ∧ (length l1 < 42)%nat
    ∧ Forall (λ b, at_closed b = false ∧ is_ok (at_result b) = false) l1
    ∧ match r with
      | Ok _ => is_ok (at_result a) = true
      | Err e => at_closed a = true ∨ e = "open tunnel timeout"
          ∧ deadline now fallbackTo fallbackTimeoutMs
            ≤ now + foldr (λ b t, at_duration b + retryInterval + t) 0 l1
      end
    ∧ deadline now "" fallbackTimeoutMs = now + 20 * second
    ∧ (in_int64 (fallbackTimeoutMs * ms) → fallbackTo ≠ "" →
       deadline now fallbackTo fallbackTimeoutMs = now + Z.min (20 * second) (fallbackTimeoutMs * ms)).
Proof.
  intros Hl Hlen. set (d := deadline now fallbackTo fallbackTimeoutMs).
  assert (Hd : d < now + Z.of_nat 41 * retryInterval).
  { unfold d, deadline, openTunnelTimeout, retryInterval, ms, second. case_decide; lia. }
  assert (Hgen : ∀ n timer l, d < timer + Z.of_nat n * retryInterval → Forall (λ a, 0 ≤ at_duration a) l → (n < length l)%nat →
    ∃ r l1 a l2, openTunnel d timer l = Some r ∧ l = l1 ++ a :: l2 ∧ (length l1 ≤ n)%nat
      ∧ Forall (λ b, at_closed b = false ∧ is_ok (at_result b) = false) l1
      ∧ match r with
        | Ok _ => is_ok (at_result a) = true
        | Err e => at_closed a = true ∨ e = "open tunnel timeout"
            ∧ d ≤ timer + foldr (λ b t, at_duration b + retryInterval + t) 0 l1
        end).
  { clear. induction n as [|n IH]; intros timer l Ht Hl Hlen; (destruct l as [|a l]; [simpl in Hlen; lia|]);
      cbn [openTunnel]; (destruct (at_closed a) eqn:Hc; [eexists _, [], a, l; split_and!; [done|done|simpl; lia|done|by left]|]).
    - rewrite (proj2 (Z.ltb_lt _ _)) by lia. eexists _, [], a, l. split_and!; [done..|]. right. simpl. split; [done|lia].
    - destruct ((d <? timer) || (d =? timer) && at_timeout_first a) eqn:Hto.
      { eexists _, [], a, l. split_and!; [done|done|simpl; lia|done|]. right. split; [done|]. simpl.
        apply orb_true_iff in Hto as [?%Z.ltb_lt|[?%Z.eqb_eq _]%andb_true_iff]; lia. }
      destruct (at_result a) as [|e] eqn:Hr; [eexists _, [], a, l; split_and!; [done|done|simpl; lia|done|by rewrite Hr]|].
      apply Forall_cons in Hl as [Ha Hl]. destruct (IH (timer + at_duration a + retryInterval) l) as (r & l1 & b & l2 & E & -> & Hn & Hf & Hres);
        [lia|done|simpl in Hlen; lia|].
      exists r, (a :: l1), b, l2. split_and!; [done|done|simpl; lia|constructor; [by rewrite Hr|done]|].
      destruct r; [done|]. destruct Hres as [?|[-> ?]]; [by left|right]. split; [done|]. simpl. lia. }
  destruct (Hgen 41%nat now l Hd Hl) as (r & l1 & a & l2 & ? & ? & ? & ? & ?); [lia|].
  exists r, l1, a, l2. split_and!; [done|done|lia|done|done|done|by apply deadline_fits].
Qed.

(** A fallback time-out of more than 292 years in milliseconds wraps around to the past: the
    time-out is reported before the first attempt. *)
Lemma huge_fallback_timeout (now : Z) (a : attempt) (l : list attempt) : at_closed a = false →
  openTunnel (deadline now "other" 9223372036855) now (a :: l) = Some (Err "open tunnel timeout").
Proof.
  intros Ha. cbn [openTunnel]. rewrite Ha.
  assert (Hd : deadline now "other" 9223372036855 < now).
  { unfold deadline, fallback_timeout. rewrite decide_False by done.
    change (wrap64 (9223372036855 * ms)) with (-9223372036854551616). lia. }
  by rewrite (proj2 (Z.ltb_lt _ _) Hd).
Qed.

(** A visitor has one tunnel.  In calm runs - a start reaches the goroutine only while
    there is no session, and the visitor is not closed while a hole is made - the only
    open session is the current one, through any number of users, failures and holes;
    and closing the visitor leaves none open. *)
Theorem one_tunnel (keep : bool) (t : tunnel) : rtc (tstep true) (tunnel_start keep) t →
  (∀ j k, tn_open t !! j = Some true → tn_open t !! k = Some true → j = k ∧ tn_session t = Some j)
  ∧ ∀ k, tn_open (Visitor_Close t) !! k ≠ Some true.
Proof.
  intros Hr. assert (Hok : tunnel_ok t).
  { apply (tunnel_reachable _ _ Hr). split; [done|]. split; done. }
  split; [|by apply close_all]. destruct Hok as (H1 & _). intros j k Hj%H1 Hk%H1. split; congruence.
Qed.

(** ** Runs *)
Definition no_answer : attempt := mkAttempt false false (100 * ms) (Err "no tunnel session").
Lemma openTunnel_terminates_witness :
  Forall (λ a, 0 ≤ at_duration a) (replicate 42 no_answer)
  ∧ ∃ r, openTunnel (deadline 5 "other" 1000) 5 (replicate 42 no_answer) = Some r.
Proof.
  assert (Hf : Forall (λ a, 0 ≤ at_duration a) (replicate 42 no_answer)) by (by apply Forall_replicate).
  split; [exact Hf|].
  destruct (openTunnel_terminates 5 "other" 1000 (replicate 42 no_answer) Hf (le_n 42)) as (r & _ & _ & _ & E & _).
  exists r. exact E.
Defined.

(** A user finds no session, the hole is made, another user finds the session dead. *)
Definition tunnel_run : tunnel :=
  mkTunnel (Some 0%nat) [true] false PSelect 0 0 false.
Lemma tunnel_run_reach calm : rtc (tstep calm) (tunnel_start false) tunnel_run.
Proof.
  eapply rtc_l; [apply t_fails|]. eapply rtc_l; [by apply (t_close _ 0)|].
  eapply rtc_l; [by apply (t_start _ 0)|]. eapply rtc_l; [by apply t_made|].
  eapply rtc_l; [by apply t_wake|]. apply rtc_refl.
Qed.
Lemma one_tunnel_witness : tn_open tunnel_run !! 0%nat = Some true
  ∧ (∀ k, tn_open (Visitor_Close tunnel_run) !! k ≠ Some true).
Proof. split; [reflexivity|]. exact (proj2 (one_tunnel false tunnel_run (tunnel_run_reach true))). Defined.

(** ** Races

    With [keepTunnelOpen] a user who comes first has a tunnel made; then the keeper's
    first send is received, a second hole is made, and [Init] drops the first session
    without closing it. *)
Lemma session_overwritten : ∃ t, rtc (tstep false) (tunnel_start true) t
  ∧ tn_session t = Some 1%nat ∧ tn_open t !! 0%nat = Some true
  ∧ tn_open (Visitor_Close t) !! 0%nat = Some true.
Proof.
  eexists. split.
  { eapply rtc_l; [apply t_fails|]. eapply rtc_l; [by apply (t_close _ 0)|].
    eapply rtc_l; [by apply (t_start _ 0)|]. eapply rtc_l; [by apply t_made|].
    eapply rtc_l; [by apply t_wake|]. eapply rtc_l; [by apply t_keeper|].
    eapply rtc_l; [by apply t_made|]. apply rtc_refl. }
  by vm_compute.
Qed.

(** A hole that is made while the visitor is closed leaves a session that stays open. *)
Lemma session_after_close : ∃ t, rtc (tstep false) (tunnel_start false) t
  ∧ tn_done t = true ∧ tn_proc t = PReturned ∧ tn_open t !! 0%nat = Some true.
Proof.
  eexists. split.
  { eapply rtc_l; [apply t_fails|]. eapply rtc_l; [by apply (t_close _ 0)|].
    eapply rtc_l; [by apply (t_start _ 0)|]. eapply rtc_l; [by apply t_visitor_close|].
    eapply rtc_l; [by apply t_made|]. eapply rtc_l; [by apply t_wake|].
    eapply rtc_l; [by apply t_return|]. apply rtc_refl. }
  by vm_compute.
Qed.

(** A user whose [OpenConn] found no session closes the one that was made meanwhile. *)
Lemma fresh_session_closed : ∃ t, rtc (tstep true) (tunnel_start false) t
  ∧ tn_open t = [false] ∧ tn_session t = None.
Proof.
  eexists. split.
  { eapply rtc_l; [apply t_fails|]. eapply rtc_l; [apply t_fails|]. eapply rtc_l; [by apply (t_close _ 1)|].
    eapply rtc_l; [by apply (t_start _ 0)|]. eapply rtc_l; [by apply t_made|].
    eapply rtc_l; [by apply (t_close _ 0)|]. apply rtc_refl. }
  by vm_compute.
Qed.
