(* ===== verification/HoleFlow.v ===== *)
(** * Both ends of a hole: [client/proxy/xtcp.go], [client/visitor/xtcp.go]

    [InWorkConn] of the owner and [makeNatHole] of the visitor from their first step to their
    last, with [Prepare] of [pkg/nathole] and what follows a hole: KCP or QUIC over its
    socket.  The calls give what the environments say; the result is the list of what happens to
    sockets, messages and connections.  The messages are those of [EndToEnd], the checks of an
    answer those of [MakeHole], the classification that of [NatClassify]. *)
From S2P Require Import Prelude GoStd Hash Naming Msg ConfigV1 NatClassify Analyzer NatController Wire MsgV2 MakeHole EndToEnd.
From stdpp Require Import gmap list.
Local Open Scope Z_scope.

(** ** [Prepare] *)

(** What STUN discovery gives (external addresses and the local one), the local addresses,
    the port of the local address, and the error of listening on it. *)
Record prepare_env := mkPrepareEnv {
  pe_discover : result (list string);
  pe_localIPs : list string;
  pe_port : result Z;
  pe_listen : option string;
}.
Record PrepareResult := mkPrepareResult {
  pr_Addrs : list string;
  pr_AssistedAddrs : list string;
  pr_NatType : string;
  pr_Behavior : string;
}.
Definition Prepare (disable : bool) (e : prepare_env) : result PrepareResult :=
  wrap_err "discover error: " (pe_discover e) ≫= λ addrs,
  if decide (length addrs < 2)%nat then Err "discover error: not enough addresses"
  else
    wrap_err "classify nat feature error: " (ClassifyNATFeature addrs (pe_localIPs e)) ≫= λ f,
    wrap_err "resolve local udp addr error: " (pe_port e) ≫= λ port,
    match pe_listen e with
    | Some err => Err ("listen local udp addr error: " +:+ err)
    | None => Ok (mkPrepareResult addrs (assisted_addrs disable (pe_localIPs e) port) (NatType f) (Behavior f))
    end.

(** ** Effects *)

(** The sockets: the one of [Prepare], another one that [MakeHole] made, the one KCP dials. *)
Inductive sock : Type := Prepared | Extra | Dialed.
#[export] Instance sock_eq_dec : EqDecision sock.
Proof. solve_decision. Defined.
Inductive feffect : Type :=
| FOpened (s : sock)
| FClosed (s : sock)
| FSent (m : Message)
| FServed (stream : nat)       (* [HandleTCPWorkConnection] of a stream starts *)
| FSessionClosed               (* the session over a socket, or the KCP connection under it *)
| FHeld (s : sock)             (* the tunnel session has it *)
| FWorkClosed.                 (* the work connection *)

(** One attempt: the transaction, what [Do] returned, and [MakeHole]'s result, which is [true]
    when the hole is on a socket of its own.  [MakeHole] closes, now or at their read timeout,
    all sockets but the one it returns. *)
Record hole_env := mkHoleEnv {
  he_prepare : prepare_env;
  he_tx : string;
  he_answer : result Message;
  he_hole : result bool;
}.
Definition hole_effects (r : result bool) : list feffect :=
  match r with Ok true => [FOpened Extra; FClosed Prepared] | _ => [] end.
Definition hole_sock (other : bool) : sock := if other then Extra else Prepared.

(** The errors of the calls that put KCP or QUIC on a socket, and how many streams are
    accepted before the session ends. *)
Record carrier_env := mkCarrierEnv {
  ce_dial : option string;      (* KCP: [DialUDP] *)
  ce_conn : option string;      (* KCP: [NewKCPConnFromUDP]; QUIC: the TLS configuration *)
  ce_mux : option string;       (* KCP: the multiplexer; QUIC: [Listen] or [Dial] *)
  ce_accept : option string;    (* QUIC: [Accept] *)
  ce_streams : nat;
}.

(** ** The owner *)
Section owner.
Context `{MsgJSON} `{V1Codec}.
Definition readNatHoleSid (wireProtocol : string) (s : list byte) : result NatHoleSid :=
  rw_ReadMsgInto wireProtocol TNatHoleSid s ≫= λ '(m, _),
  match m with MNatHoleSid m => Ok m | _ => Err "unexpected message type" end.
End owner.

Definition listenByKCP (s : sock) (e : carrier_env) : list feffect :=
  FClosed s ::
  match ce_dial e with
  | Some _ => []
  | None =>
      FOpened Dialed ::
      match ce_conn e, ce_mux e with
      | None, None => (FServed <$> seq 0 (ce_streams e)) ++ [FSessionClosed]
      | _, _ => []
      end ++ [FClosed Dialed]
  end.
Definition listenByQUIC (s : sock) (e : carrier_env) : list feffect :=
  match ce_conn e, ce_mux e, ce_accept e with
  | None, None, None => (FServed <$> seq 0 (ce_streams e)) ++ [FSessionClosed]
  | _, _, _ => []
  end ++ [FClosed s].
Definition report (r : NatHoleResp) (ok : bool) : feffect :=
  FSent (MNatHoleReport (mkNatHoleReport (nr_Sid r) ok)).

(** [InWorkConn]: [sid] is what [readNatHoleSid] returned.  The two deferred calls come last. *)
Definition InWorkConn (user : string) (cfg : XTCPProxyConfig) (sid : result NatHoleSid)
    (e : hole_env) (c : carrier_env) : list feffect :=
  match sid with
  | Err _ => [FWorkClosed]
  | Ok m =>
      match Prepare (disables_assisted (xp_NatTraversal cfg)) (he_prepare e) with
      | Err _ => [FWorkClosed]
      | Ok p =>
          FOpened Prepared ::
          FSent (MNatHoleClient (client_reply user (he_tx e) (ns_Sid m) (pr_Addrs p) (pr_AssistedAddrs p) cfg)) ::
          match ExchangeInfo (he_answer e) with
          | Err _ => []
          | Ok resp =>
              hole_effects (he_hole e) ++
              match he_hole e with
              | Err _ => [FClosed Prepared; report resp false]
              | Ok other =>
                  report resp true ::
                  (if decide (nr_Protocol resp = "kcp") then listenByKCP (hole_sock other) c
                   else listenByQUIC (hole_sock other) c)
              end
          end ++ [FClosed Prepared; FWorkClosed]
      end
  end.

(** ** The visitor *)

(** [Init] of the two sessions: the socket the session then has. *)
Definition KCP_Init (s : sock) (e : carrier_env) : result sock * list feffect :=
  match ce_dial e with
  | Some err => (Err ("dial udp error: " +:+ err), [FClosed s])
  | None =>
      match ce_conn e with
      | Some err => (Err ("create kcp connection from udp connection error: " +:+ err),
                     [FClosed s; FOpened Dialed; FClosed Dialed])
      | None =>
          match ce_mux e with
          | Some err => (Err ("initial client session error: " +:+ err),
                         [FClosed s; FOpened Dialed; FSessionClosed])
          | None => (Ok Dialed, [FClosed s; FOpened Dialed])
          end
      end
  end.
Definition QUIC_Init (s : sock) (e : carrier_env) : result sock * list feffect :=
  match ce_conn e with
  | Some err => (Err ("create tls config error: " +:+ err), [])
  | None => match ce_mux e with Some err => (Err ("dial quic error: " +:+ err), []) | None => (Ok s, []) end
  end.

(** [makeNatHole]: [tx1] and [answer1] are the pre-check's; the session is the one [Run] made
    for the configured protocol. *)
Definition makeNatHole (user : string) (v : XTCPVisitorConfig) (now : Z) (tx1 : string) (answer1 : result Message)
    (e : hole_env) (c : carrier_env) : list feffect :=
  FSent (MNatHoleVisitor (precheck_request user tx1 v)) ::
  match PreCheck answer1 with
  | Err _ => []
  | Ok _ =>
      match Prepare (disables_assisted (xv_NatTraversal v)) (he_prepare e) with
      | Err _ => []
      | Ok p =>
          FOpened Prepared ::
          FSent (MNatHoleVisitor (visitor_request user (he_tx e) now (pr_Addrs p) (pr_AssistedAddrs p) v)) ::
          match ExchangeInfo (he_answer e) with
          | Err _ => [FClosed Prepared]
          | Ok _ =>
              hole_effects (he_hole e) ++
              match he_hole e with
              | Err _ => [FClosed Prepared]
              | Ok other =>
                  let s := hole_sock other in
                  match (if decide (xv_Protocol v = "kcp") then KCP_Init s c else QUIC_Init s c) with
                  | (Err _, t) => t ++ [FClosed s]
                  | (Ok held, t) => t ++ [FHeld held]
                  end
              end
          end
      end
  end.

(** ** Theorems *)
Lemma served_elem x n : x ∈ FServed <$> seq 0 n ↔ ∃ i, x = FServed i ∧ (i < n)%nat.
Proof. rewrite list_elem_of_fmap. setoid_rewrite elem_of_seq. naive_solver lia. Qed.

(** An effect in a list that is written out, up to the streams served. *)
Ltac in_flow := repeat rewrite ?elem_of_app, ?elem_of_cons, ?elem_of_nil, ?served_elem.

(** The answer the owner got from the server, when it got that far. *)
Definition owner_answer (cfg : XTCPProxyConfig) (sid : result NatHoleSid) (e : hole_env) : result NatHoleResp :=
  sid ≫= λ _, Prepare (disables_assisted (xp_NatTraversal cfg)) (he_prepare e) ≫= λ _, ExchangeInfo (he_answer e).

Lemma listen_elem x k s c : x ∈ (if decide (k = "kcp") then listenByKCP s c else listenByQUIC s c) →
  x = FClosed s ∨ x = FOpened Dialed ∨ x = FClosed Dialed ∨ x = FSessionClosed ∨ ∃ i, x = FServed i.
Proof.
  unfold listenByKCP, listenByQUIC.
  case_decide; repeat case_match; in_flow; naive_solver.
Qed.
Lemma listen_closes k s c (t := if decide (k = "kcp") then listenByKCP s c else listenByQUIC s c) :
  FClosed s ∈ t ∧ (FOpened Dialed ∈ t → FClosed Dialed ∈ t).
Proof.
  unfold t, listenByKCP, listenByQUIC.
  case_decide; repeat case_match; in_flow; naive_solver.
Qed.

(** The reports sent, in order. *)
Definition reports (t : list feffect) : list NatHoleReport :=
  omap (λ x, match x with FSent (MNatHoleReport r) => Some r | _ => None end) t.
Lemma reports_served n : reports (FServed <$> seq 0 n) = [].
Proof. unfold reports. induction (seq 0 n); [done|]. by cbn. Qed.
Lemma reports_app a b : reports (a ++ b) = reports a ++ reports b.
Proof. apply omap_app. Qed.
Lemma reports_listen k s c : reports (if decide (k = "kcp") then listenByKCP s c else listenByQUIC s c) = [].
Proof.
  unfold listenByKCP, listenByQUIC. case_decide; repeat case_match; cbn;
    rewrite ?reports_app, ?reports_served; done.
Qed.

(** C29. An attempt of the owner.  Whatever fails, and wherever, every socket that was opened is
    closed, and the work connection is closed once, as the last thing.  The server gets a
    report exactly when it had answered: one, of its session, that says whether the hole
    was made; streams are served only after a report of success.  The message sent to the
    server carries the session id read from the work connection and the registered name. *)
Theorem owner_attempt (user : string) (cfg : XTCPProxyConfig) (sid : result NatHoleSid)
    (e : hole_env) (c : carrier_env) :
  let t := InWorkConn user cfg sid e c in
  (∀ s, FOpened s ∈ t → FClosed s ∈ t)
  ∧ (∃ t', t = t' ++ [FWorkClosed] ∧ FWorkClosed ∉ t')
  ∧ reports t = match owner_answer cfg sid e with
                | Ok resp => [mkNatHoleReport (nr_Sid resp) (is_ok (he_hole e))]
                | Err _ => []
                end
  ∧ (∀ i, FServed i ∈ t → ∃ resp, owner_answer cfg sid e = Ok resp ∧ report resp true ∈ t)
  ∧ (∀ m, FSent (MNatHoleClient m) ∈ t → ∃ s, sid = Ok s ∧ nc_Sid m = ns_Sid s
       ∧ nc_ProxyName m = AddUserPrefix user (pc_Name (xp_Base cfg))).
Proof.
  intros t. unfold t, InWorkConn, owner_answer. clear t.
  destruct sid as [m|]; [|split_and!; [set_solver|by exists []; set_solver|done|set_solver..]].
  destruct (Prepare _ _) as [p|]; [|split_and!; [set_solver|by exists []; set_solver|done|set_solver..]].
  cbn [mbind result_bind].
  destruct (ExchangeInfo _) as [resp|].
  2:{ split_and!; [set_solver|eexists [_; _; _]; split; [done|set_solver]|done|set_solver|set_solver]. }
  destruct (he_hole e) as [other|].
  2:{ split_and!; [set_solver|eexists [_; _; _; _; _]; split; [done|set_solver]|done|set_solver|set_solver]. }
  pose proof (λ x, listen_elem x (nr_Protocol resp) (hole_sock other) c) as Hin.
  pose proof (listen_closes (nr_Protocol resp) (hole_sock other) c) as [Hs Hd].
  pose proof (reports_listen (nr_Protocol resp) (hole_sock other) c) as Hr.
  set (L := if decide (nr_Protocol resp = "kcp") then _ else _) in *.
  assert (Hw : FWorkClosed ∉ L) by (intros ?%Hin; naive_solver).
  assert (Hm : ∀ m, FSent m ∉ L) by (intros ? ?%Hin; naive_solver).
  split_and!.
  - intros s. rewrite !elem_of_cons, !elem_of_app, !elem_of_cons. destruct other; cbn; set_solver.
  - exists (FOpened Prepared :: FSent (MNatHoleClient (client_reply user (he_tx e) (ns_Sid m) (pr_Addrs p) (pr_AssistedAddrs p) cfg))
      :: (hole_effects (Ok other) ++ report resp true :: L) ++ [FClosed Prepared]).
    split; [cbn [app]; by rewrite <-!(assoc_L (++))|]. destruct other; set_solver.
  - change (reports ((hole_effects (Ok other) ++ report resp true :: L) ++ [FClosed Prepared; FWorkClosed])
      = [mkNatHoleReport (nr_Sid resp) true]).
    rewrite !reports_app. change (reports (report resp true :: L)) with (mkNatHoleReport (nr_Sid resp) true :: reports L).
    rewrite Hr. by destruct other.
  - intros i _. exists resp. set_solver.
  - intros m'. destruct other; set_solver.
Qed.

(** C30. An attempt of the visitor.  After [makeNatHole] either a tunnel session was initialised:
    it holds one socket, the only open one, after a passed pre-check, an answer and a hole;
    or none was, and every socket that was opened is closed, except that the socket
    dialed for KCP is not closed here when the multiplexer fails on it.  Two messages at
    most are sent, the second one only after the pre-check passed, with the addresses found. *)
Theorem visitor_attempt (user : string) (v : XTCPVisitorConfig) (now : Z) (tx1 : string) (answer1 : result Message)
    (e : hole_env) (c : carrier_env) :
  let t := makeNatHole user v now tx1 answer1 e c in
  (∀ h, FHeld h ∈ t →
     FOpened h ∈ t ∧ (∀ s, FOpened s ∈ t → s = h ∨ FClosed s ∈ t) ∧ (FClosed h ∈ t → False)
     ∧ (h = Dialed ↔ xv_Protocol v = "kcp")
     ∧ is_ok (PreCheck answer1) = true ∧ is_ok (ExchangeInfo (he_answer e)) = true ∧ is_ok (he_hole e) = true)
  ∧ ((∀ h, FHeld h ∉ t) → ∀ s, FOpened s ∈ t →
       FClosed s ∈ t ∨ s = Dialed ∧ xv_Protocol v = "kcp" ∧ ∃ err, ce_mux c = Some err)
  ∧ (∀ m, FSent m ∈ t → m = MNatHoleVisitor (precheck_request user tx1 v)
       ∨ is_ok (PreCheck answer1) = true ∧ ∃ p, Prepare (disables_assisted (xv_NatTraversal v)) (he_prepare e) = Ok p
         ∧ m = MNatHoleVisitor (visitor_request user (he_tx e) now (pr_Addrs p) (pr_AssistedAddrs p) v)).
Proof.
  intros t. unfold t, makeNatHole. clear t.
  destruct (PreCheck answer1) as [[]|]; [|set_solver].
  destruct (Prepare _ _) as [p|] eqn:Hp; [|set_solver].
  destruct (ExchangeInfo _) as [resp|]; [|split_and!; set_solver].
  destruct (he_hole e) as [other|]; [|split_and!; set_solver].
  unfold KCP_Init, QUIC_Init. destruct (decide (xv_Protocol v = "kcp")).
  - destruct (ce_dial c); [destruct other; split_and!; set_solver|].
    destruct (ce_conn c); [destruct other; split_and!; set_solver|].
    destruct (ce_mux c); destruct other; split_and!; set_solver.
  - destruct (ce_conn c); [destruct other; split_and!; set_solver|].
    destruct (ce_mux c); destruct other; split_and!; set_solver.
Qed.

(** The socket dialed for KCP when the multiplexer fails: opened, and nothing closes it. *)
Lemma kcp_init_leaks s e err : ce_dial e = None → ce_conn e = None → ce_mux e = Some err →
  FOpened Dialed ∈ (KCP_Init s e).2 ∧ (s ≠ Dialed → FClosed Dialed ∉ (KCP_Init s e).2 ++ [FClosed s]).
Proof. intros H1 H2 H3. unfold KCP_Init. rewrite H1, H2, H3. split; set_solver. Qed.

(** The instructions of a session are accepted by both ends: when the controller's analysis of a
    visitor's request and an owner's answer succeeds, both responses pass [ExchangeInfo], they
    name the session, and the owner listens by KCP exactly when the visitor dials KCP. *)
Theorem answers_accepted (t now : Z) (an an' : Analyzer) (s s' : Session) (cm : NatHoleClient) (user tx : string)
    (ma aa : list string) (v : XTCPVisitorConfig) (vr cr : NatHoleResp) :
  s_visitorMsg s = visitor_request user tx now ma aa v → analysis t an s cm = Ok (vr, cr, s', an') →
  ExchangeInfo (Ok (MNatHoleResp vr)) = Ok vr ∧ ExchangeInfo (Ok (MNatHoleResp cr)) = Ok cr
  ∧ nr_Sid vr = s_sid s ∧ nr_Sid cr = s_sid s
  ∧ nr_Protocol cr = xv_Protocol v.
Proof.
  intros Hvm (cNat & vNat & mode & index & cB & vB & Hc & Hv & _ & _ & _ & _ & _ &
    tv & pc & c1 & c2 & Hvr & pv & v1 & v2 & Hcr & _)%analysis_Ok.
  assert (Hne : ∀ l ips f, ClassifyNATFeature l ips = Ok f → Compact l ≠ []).
  { intros l ips f Hf Hl. unfold ClassifyNATFeature in Hf. destruct l as [|x l]; [done|].
    apply (not_elem_of_nil x). rewrite <-Hl. apply elem_of_Compact. left. }
  unfold newNatHoleResponse in Hvr, Hcr. rewrite Hvm in *. simplify_eq.
  unfold ExchangeInfo, nat_hole_resp. cbn [wrap_err mbind result_bind nr_Error nr_CandidateAddrs nr_Sid nr_Protocol].
  rewrite !(decide_False (P := "" ≠ "")) by (by intros []).
  by rewrite !decide_False by eauto.
Qed.
