(* ===== verification/DataPath.v ===== *)
(** * The bytes of a tunnel: [client/proxy/proxy.go], [client/visitor/visitor.go],
    [pkg/util/net/listener.go]

    The layers that visitor and owner put on a tunnel's stream, the owner's work on one stream,
    and the listener through which one visitor passes connections to another.  Encryption and
    compression are third-party: a class of functions on the whole stream of one direction.
    The listener's channel is shared by goroutines: a step relation. *)
From S2P Require Import Prelude GoStd ConfigV1.
From stdpp Require Import gmap list.
Local Open Scope Z_scope.

(** ** Layers *)

(** [golib/io]: the error of [WithEncryption], what the layers write for a stream of bytes
    (encryption with an initialisation vector) and what they read back. *)
Class Layers := {
  WithEncryption : list byte → result unit;
  encrypt : list byte → list byte → list byte → list byte;
  decrypt : list byte → list byte → option (list byte);
  compress : list byte → list byte;
  decompress : list byte → option (list byte);
}.
Class LayersLaws `{Layers} := {
  decrypt_encrypt key iv d : decrypt key (encrypt key iv d) = Some d;
  decompress_compress d : decompress (compress d) = Some d;
}.

Inductive layer : Type := Encryption (key : list byte) | Compression.
#[export] Instance layer_eq_dec : EqDecision layer.
Proof. solve_decision. Defined.

Section layers.
Context `{Layers}.
(** The layers of a connection, outermost first; [err] is the text before a failure. *)
Definition wrap_layers (err : string) (encryption compression : bool) (key : list byte) : result (list layer) :=
  (if encryption then wrap_err err (WithEncryption key) ≫= λ _, Ok [Encryption key] else Ok []) ≫= λ ls,
  Ok (if compression then Compression :: ls else ls).
(** [wrapWorkConn] of a proxy, and [wrapVisitorConn]. *)
Definition wrapWorkConn (cfg : ProxyBaseConfig) (encKey : list byte) : result (list layer) :=
  wrap_layers "create encryption stream error: " (pt_UseEncryption (pc_Transport cfg))
    (pt_UseCompression (pc_Transport cfg)) encKey.
Definition wrapVisitorConn (cfg : VisitorBaseConfig) : result (list layer) :=
  wrap_layers "create encryption stream error: " (vt_UseEncryption (vb_Transport cfg))
    (vt_UseCompression (vb_Transport cfg)) (bytes_of (vb_SecretKey cfg)).

(** What is on the wire when [d] is written, and what is read from it. *)
Fixpoint write_through (iv : list byte) (ls : list layer) (d : list byte) : list byte :=
  match ls with
  | [] => d
  | Encryption key :: ls => write_through iv ls (encrypt key iv d)
  | Compression :: ls => write_through iv ls (compress d)
  end.
Fixpoint read_through (ls : list layer) (w : list byte) : option (list byte) :=
  match ls with
  | [] => Some w
  | Encryption key :: ls => read_through ls w ≫= decrypt key
  | Compression :: ls => read_through ls w ≫= decompress
  end.
End layers.

(** ** One stream at the owner *)
Inductive peffect : Type :=
| PWorkClosed                     (* the stream *)
| PDialed (addr : string)         (* the local service *)
| PJoined (ls : list layer)       (* [Join] copies both ways and closes both ends *)
| PRecycled.                      (* the compressor goes back to its pool *)
Definition local_addr (cfg : ProxyBaseConfig) : string :=
  JoinHostPort (pb_LocalIP (pc_Backend cfg)) (Itoa (pb_LocalPort (pc_Backend cfg))).
(** [HandleTCPWorkConnection]; [dial] is the error of dialing the local service. *)
Definition HandleTCPWorkConnection `{Layers} (cfg : ProxyBaseConfig) (encKey : list byte) (dial : option string)
    : list peffect :=
  match wrapWorkConn cfg encKey with
  | Err _ => [PWorkClosed]
  | Ok ls =>
      (match dial with
       | Some _ => [PWorkClosed]
       | None => [PDialed (local_addr cfg); PJoined ls]
       end) ++ (if pt_UseCompression (pc_Transport cfg) then [PRecycled] else [])
  end.

(** ** The internal listener *)

(** The channel and what became of connections: handed out by [Accept], closed by [PutConn]
    when the channel is full, refused with an error when it is closed. *)
Record listener := mkListener {
  acceptCh : list nat;
  l_closed : bool;
  l_accepted : list nat;
  l_dropped : list nat;
  l_refused : list nat;
}.
Definition acceptCh_capacity : nat := 128.
Definition NewInternalListener : listener := mkListener [] false [] [] [].
(** Sending on a closed channel panics, which [PanicToError] turns into an error. *)
Definition PutConn (c : nat) (l : listener) : result unit * listener :=
  if l_closed l then
    (Err "put conn error: listener is closed", mkListener (acceptCh l) true (l_accepted l) (l_dropped l) (l_refused l ++ [c]))
  else if decide (length (acceptCh l) < acceptCh_capacity)%nat then
    (Ok tt, mkListener (acceptCh l ++ [c]) false (l_accepted l) (l_dropped l) (l_refused l))
  else (Ok tt, mkListener (acceptCh l) false (l_accepted l) (l_dropped l ++ [c]) (l_refused l)).
(** [None] when [Accept] has to wait. *)
Definition Accept (l : listener) : option (result nat * listener) :=
  match acceptCh l with
  | c :: q => Some (Ok c, mkListener q (l_closed l) (l_accepted l ++ [c]) (l_dropped l) (l_refused l))
  | [] => if l_closed l then Some (Err "listener closed", l) else None
  end.
Definition Listener_Close (l : listener) : listener :=
  mkListener (acceptCh l) true (l_accepted l) (l_dropped l) (l_refused l).
(** Runs, with the connections put so far. *)
Inductive ilstep : list nat * listener → list nat * listener → Prop :=
| il_put c ps l : ilstep (ps, l) (ps ++ [c], (PutConn c l).2)
| il_accept r ps l l' : Accept l = Some (r, l') → ilstep (ps, l) (ps, l')
| il_close ps l : ilstep (ps, l) (ps, Listener_Close l).

(** ** Theorems *)
Lemma read_write_through `{LayersLaws} iv ls d : read_through ls (write_through iv ls d) = Some d.
Proof.
  revert d. induction ls as [|[key|] ls IH]; intros d; cbn; [done|rewrite IH; apply decrypt_encrypt|].
  rewrite IH. apply decompress_compress.
Qed.

Definition same_settings (x : XTCPProxyConfig) (v : XTCPVisitorConfig) : Prop :=
  let p := pc_Transport (xp_Base x) in
  let t := vb_Transport (xv_Base v) in
  pt_UseEncryption p = vt_UseEncryption t ∧ pt_UseCompression p = vt_UseCompression t
  ∧ (pt_UseEncryption p = true → xp_Secretkey x = vb_SecretKey (xv_Base v)).

Lemma wrap_layers_Ok `{Layers} err enc comp key ls : wrap_layers err enc comp key = Ok ls →
  ls = (if comp then [Compression] else []) ++ (if enc then [Encryption key] else []).
Proof.
  unfold wrap_layers. intros (k & Hk & [= <-])%result_bind_Ok.
  destruct enc; [apply result_bind_Ok in Hk as (? & _ & [= <-])|injection Hk as <-]; by destruct comp.
Qed.

Lemma wrap_layers_ext `{Layers} err e e' c c' k k' : e = e' → c = c' → (e = true → k = k') →
  wrap_layers err e c k = wrap_layers err e' c' k'.
Proof. intros <- <- Hk. destruct e; [by rewrite Hk|done]. Qed.

(** C31. A tunnel carries the user's bytes.  When visitor and owner have the same transport settings,
    and the same secret if they encrypt, the visitor's stream and the owner's have the same
    layers: either none can be put on and the owner closes the stream, or, once the local
    service is dialed, what one end writes the other end reads, byte for byte, whatever the
    initialisation vector; the owner joins the stream with the local address of its
    configuration, or closes it.  Only with the same settings are the layers the same. *)
Theorem tunnel_carries_bytes `{LayersLaws} (x : XTCPProxyConfig) (v : XTCPVisitorConfig) (dial : option string) :
  let t := HandleTCPWorkConnection (xp_Base x) (bytes_of (xp_Secretkey x)) dial in
  (same_settings x v →
     match wrapVisitorConn (xv_Base v) with
     | Err _ => t = [PWorkClosed]
     | Ok ls =>
         (dial = None → PDialed (local_addr (xp_Base x)) ∈ t ∧ PJoined ls ∈ t ∧ PWorkClosed ∉ t)
         ∧ (dial ≠ None → PWorkClosed ∈ t ∧ ∀ ls', PJoined ls' ∉ t)
         ∧ ∀ iv d, read_through ls (write_through iv ls d) = Some d
     end)
  ∧ (∀ ls, wrapVisitorConn (xv_Base v) = Ok ls → PJoined ls ∈ t → same_settings x v).
Proof.
  intros t. unfold t, HandleTCPWorkConnection, wrapVisitorConn, wrapWorkConn. clear t. split.
  - intros (He & Hc & Hk). rewrite (wrap_layers_ext _ _ _ _ _ _ _ He Hc (λ h, f_equal bytes_of (Hk h))).
    destruct (wrap_layers _ _ _ _) as [ls|]; [|done].
    split_and!; [destruct dial, (pt_UseCompression _); set_solver..|]. intros. apply read_write_through.
  - intros ls Hls%wrap_layers_Ok. destruct (wrap_layers _ _ _ (bytes_of (xp_Secretkey x))) as [ls'|] eqn:Hls'; [|set_solver].
    apply wrap_layers_Ok in Hls'. intros Hin.
    assert (ls = ls') as <- by (destruct dial, (pt_UseCompression _); set_solver).
    rewrite Hls in Hls'. unfold same_settings.
    destruct (vt_UseCompression _), (vt_UseEncryption _), (pt_UseCompression _), (pt_UseEncryption _);
      simplify_eq/=; split_and!; try done; intros _; by apply bytes_of_inj.
Qed.

Record listener_ok (x : list nat * listener) : Prop := mkListenerOk {
  lo_all : l_accepted x.2 ++ acceptCh x.2 ++ l_dropped x.2 ++ l_refused x.2 ≡ₚ x.1;
  lo_order : sublist (l_accepted x.2 ++ acceptCh x.2) x.1;
  lo_cap : (length (acceptCh x.2) ≤ acceptCh_capacity)%nat;
  lo_open : l_closed x.2 = false → l_refused x.2 = [];
}.
Lemma put_ok c ps l : listener_ok (ps, l) → listener_ok (ps ++ [c], (PutConn c l).2).
Proof.
  intros [H1 H2 H3 H4]. cbn in *. unfold PutConn.
  destruct (l_closed l) eqn:Hc; [|case_decide]; split; cbn; try done; try (by apply sublist_inserts_r).
  - by rewrite <-H1, !(assoc_L (++)).
  - rewrite <-H1. solve_Permutation.
  - rewrite (assoc_L (++)). by apply sublist_app.
  - rewrite length_app. cbn. lia.
  - rewrite <-H1, H4 by done. by rewrite !app_nil_r, !(assoc_L (++)).
Qed.
Lemma ilstep_ok x y : ilstep x y → listener_ok x → listener_ok y.
Proof.
  intros [c ps l|r ps l l' Ha|ps l] Hok; [by apply put_ok| |].
  - unfold Accept in Ha. destruct (acceptCh l) as [|c q] eqn:Hq.
    { destruct (l_closed l); [|done]. by injection Ha as _ <-. }
    injection Ha as _ <-. destruct Hok as [H1 H2 H3 H4]. cbn in *. rewrite Hq in *.
    split; cbn; rewrite <-?(assoc_L (++)); cbn in *; try done. lia.
  - destruct Hok as [H1 H2 H3 H4]. by split.
Qed.

(** Every connection put into an internal listener has one place: handed out, waiting,
    closed because 128 were waiting, or refused because the listener is closed; those
    handed out and those waiting are in the order in which they were put.  A closed
    listener still hands out what waits and then ends the accept loop: it never blocks. *)
Theorem listener_fates ps l : rtc ilstep ([], NewInternalListener) (ps, l) →
  l_accepted l ++ acceptCh l ++ l_dropped l ++ l_refused l ≡ₚ ps
  ∧ sublist (l_accepted l ++ acceptCh l) ps
  ∧ (length (acceptCh l) ≤ acceptCh_capacity)%nat
  ∧ (l_closed l = true → is_Some (Accept l))
  ∧ (l_closed l = false → l_refused l = []).
Proof.
  intros Hr. assert (Hok : listener_ok (ps, l)).
  { assert (H0 : listener_ok ([], NewInternalListener)) by (split; cbn; done || lia).
    revert H0. induction Hr; [done|]. eauto using ilstep_ok. }
  destruct Hok as [H1 H2 H3 H4]. split_and!; try done.
  intros Hc. unfold Accept. rewrite Hc. destruct (acceptCh l); by eexists.
Qed.

(** ** Witness *)
Definition flip_byte (b : byte) : byte := byte_of_Z (Z.lxor (Z_of_byte b) 54).
Definition demo_layers : Layers :=
  {| WithEncryption key := if decide (key = []) then Err "empty key" else Ok tt;
     encrypt _ _ d := flip_byte <$> d; decrypt _ w := Some (flip_byte <$> w);
     compress d := Byte.x01 :: d;
     decompress w := match w with Byte.x01 :: d => Some d | _ => None end |}.
Lemma flip_byte_twice b : flip_byte (flip_byte b) = b.
Proof. by destruct b. Qed.
Lemma demo_layers_laws : @LayersLaws demo_layers.
Proof.
  split; [|done]. intros key iv d. cbn. f_equal. rewrite <-list_fmap_compose.
  rewrite <-(list_fmap_id d) at 2. apply list_fmap_ext. intros i b _. apply flip_byte_twice.
Qed.
Definition path_proxy : XTCPProxyConfig :=
  mkXTCPProxyConfig (mkProxyBaseConfig "ssh" "xtcp" None ∅ (mkProxyTransport true true) ∅
    (mkProxyBackend "127.0.0.1" 22)) "secret" [] None.
Definition path_visitor : XTCPVisitorConfig :=
  mkXTCPVisitorConfig (mkVisitorBaseConfig "ssh_visitor" "xtcp" None (mkVisitorTransport true true) "secret"
    "alice" "ssh" "127.0.0.1" 9000) "quic" false 8 90 "" 1000 None.

Lemma tunnel_carries_bytes_witness : ∃ ls,
  @wrapVisitorConn demo_layers (xv_Base path_visitor) = Ok ls
  ∧ PJoined ls ∈ @HandleTCPWorkConnection demo_layers (xp_Base path_proxy) (bytes_of "secret") None
  ∧ @read_through demo_layers ls (@write_through demo_layers [] ls [Byte.x41]) = Some [Byte.x41].
Proof.
  destruct (@tunnel_carries_bytes demo_layers demo_layers_laws path_proxy path_visitor None) as [H _].
  specialize (H ltac:(split_and!; reflexivity)).
  assert (He : @wrapVisitorConn demo_layers (xv_Base path_visitor) = Ok [Compression; Encryption (bytes_of "secret")])
    by reflexivity.
  rewrite He in H. destruct H as (H1 & _ & H2). exists [Compression; Encryption (bytes_of "secret")].
  split; [exact He|]. split; [exact (proj1 (proj2 (H1 eq_refl)))|apply H2].
Defined.
