(* ===== verification/UdpListener.v ===== *)
(** * Connections over one UDP socket: [pkg/util/net/udp.go]

    A [UDPListener] makes a connection out of the datagrams of every remote address: its
    reader, its writer, the goroutine that watches each connection for idleness and the
    callers of [Accept], [Read], [Write], [WriteMsg] and [Close] as the events of a step
    function.  Packets are queued by reference to a store of buffers, as the code keeps the
    caller's slice.  An address stands for the text of the [*net.UDPAddr] it is. *)
From S2P Require Import Prelude GoStd.
From stdpp Require Import gmap list.
Local Open Scope Z_scope.
Local Notation bytes := (list byte).

(** ** Data *)
(** [fc_lastActive] is [None] for the zero time; [fc_wake] is when the sleep of the
    connection's goroutine ends, [None] when it has returned. *)
Record FakeUDPConn := mkFake {
  fc_localAddr : string;
  fc_remoteAddr : string;
  fc_packets : list bytes;
  fc_closeFlag : bool;
  fc_lastActive : option Z;
  fc_wake : option Z;
}.
(** [up_Buf] is a buffer of the store; a nil [*net.UDPAddr] is [None]. *)
Record UDPPacket := mkUDPPacket {
  up_Buf : nat;
  up_LocalAddr : option string;
  up_RemoteAddr : option string;
}.
(** The reader: in [ReadFromUDP], before [putPacket], at the send on [acceptCh], returned. *)
Inductive rphase : Type :=
| RRead
| RPut (c : nat) (content : bytes)
| RDeliver (c : nat)
| REnded.
(** [acceptCh] and [writeCh] are closed when the reader has returned.  [ul_writes] are the
    calls of [Write] between their check of [closeFlag] and their send. *)
Record world := mkWorld {
  ul_addr : string;
  ul_now : Z;
  ul_conns : list FakeUDPConn;
  ul_fakeConns : gmap string nat;
  ul_reader : rphase;
  ul_writeCh : list UDPPacket;
  ul_holding : option UDPPacket;
  ul_writes : list (nat * nat);
  ul_sockOpen : bool;
  ul_closeFlag : bool;
  ul_mem : list bytes;
}.
Definition packetsCap : nat := 20.
Definition writeChCap : nat := 1000.
Definition bufSize : nat := 1450.
(** [ListenUDP] after its socket is bound; the store holds the callers' buffers. *)
Definition ListenUDP (addr : string) (now : Z) (mem : list bytes) : world :=
  mkWorld addr now [] ∅ RRead [] None [] true false mem.

Definition set_conn (c : nat) (f : FakeUDPConn) (w : world) : world :=
  mkWorld (ul_addr w) (ul_now w) (<[c := f]> (ul_conns w)) (ul_fakeConns w) (ul_reader w) (ul_writeCh w)
    (ul_holding w) (ul_writes w) (ul_sockOpen w) (ul_closeFlag w) (ul_mem w).
Definition add_conn (a : string) (f : FakeUDPConn) (w : world) : world :=
  mkWorld (ul_addr w) (ul_now w) (ul_conns w ++ [f]) (<[a := length (ul_conns w)]> (ul_fakeConns w)) (ul_reader w)
    (ul_writeCh w) (ul_holding w) (ul_writes w) (ul_sockOpen w) (ul_closeFlag w) (ul_mem w).
Definition set_reader (r : rphase) (w : world) : world :=
  mkWorld (ul_addr w) (ul_now w) (ul_conns w) (ul_fakeConns w) r (ul_writeCh w)
    (ul_holding w) (ul_writes w) (ul_sockOpen w) (ul_closeFlag w) (ul_mem w).
Definition set_queue (q : list UDPPacket) (h : option UDPPacket) (w : world) : world :=
  mkWorld (ul_addr w) (ul_now w) (ul_conns w) (ul_fakeConns w) (ul_reader w) q
    h (ul_writes w) (ul_sockOpen w) (ul_closeFlag w) (ul_mem w).
Definition set_writes (ps : list (nat * nat)) (w : world) : world :=
  mkWorld (ul_addr w) (ul_now w) (ul_conns w) (ul_fakeConns w) (ul_reader w) (ul_writeCh w)
    (ul_holding w) ps (ul_sockOpen w) (ul_closeFlag w) (ul_mem w).

(** ** One connection *)
Definition NewFakeUDPConn (laddr raddr : string) (now : Z) : FakeUDPConn :=
  mkFake laddr raddr [] false None (Some (now + 5 * Second)).
(** [putPacket] drops the packet when the channel is full or closed. *)
Definition putPacket (content : bytes) (f : FakeUDPConn) : FakeUDPConn :=
  if fc_closeFlag f then f
  else if (length (fc_packets f) <? packetsCap)%nat
  then mkFake (fc_localAddr f) (fc_remoteAddr f) (fc_packets f ++ [content]) false (fc_lastActive f) (fc_wake f)
  else f.
Definition touch (now : Z) (f : FakeUDPConn) : FakeUDPConn :=
  mkFake (fc_localAddr f) (fc_remoteAddr f) (fc_packets f) (fc_closeFlag f) (Some now) (fc_wake f).
(** [Read] into a buffer of [blen] bytes: [None] blocks, [Some None] is [io.EOF]. *)
Definition Read (blen : nat) (now : Z) (f : FakeUDPConn) : option (option bytes * FakeUDPConn) :=
  match fc_packets f with
  | content :: rest =>
      Some (Some (take blen content),
            touch now (mkFake (fc_localAddr f) (fc_remoteAddr f) rest (fc_closeFlag f) (fc_lastActive f) (fc_wake f)))
  | [] => if fc_closeFlag f then Some (None, f) else None
  end.
Definition Close (f : FakeUDPConn) : FakeUDPConn :=
  mkFake (fc_localAddr f) (fc_remoteAddr f) (fc_packets f) true (fc_lastActive f) (fc_wake f).
Definition set_wake (t : option Z) (f : FakeUDPConn) : FakeUDPConn :=
  mkFake (fc_localAddr f) (fc_remoteAddr f) (fc_packets f) (fc_closeFlag f) (fc_lastActive f) t.
(** [time.Since] of the zero time is the largest duration. *)
Definition idle (now : Z) (f : FakeUDPConn) : bool :=
  match fc_lastActive f with None => true | Some t => 10 * Second <? now - t end.
(** One round of the goroutine of [NewFakeUDPConn]; [None] while it sleeps or after it. *)
Definition idle_check (now : Z) (f : FakeUDPConn) : option FakeUDPConn :=
  match fc_wake f with
  | Some t =>
      if now <? t then None
      else if idle now f then Some (set_wake None (Close f))
      else Some (set_wake (Some (now + 5 * Second)) f)
  | None => None
  end.

(** ** The listener *)
(** What an event lets the outside see; [OQueued] and [OSent] carry the bytes the buffer
    holds at that moment, [OSent] whether the socket took them. *)
Inductive obs : Type :=
| OReceived (a : string) (c : nat) (data : bytes)
| OAccepted (c : option nat)
| ORead (c blen : nat) (r : option bytes)
| OWrite (c : nat) (r : result nat)
| OWriteMsg (r : result unit)
| OQueued (a : option string) (data : bytes)
| OSent (a : option string) (data : bytes) (ok : bool)
| OOverwritten (b : nat).

(** [writeUDPPacket]: a send on the closed channel panics, which becomes an error; [None]
    blocks. *)
Definition writeUDPPacket (p : UDPPacket) (w : world) : option (result unit * world * list obs) :=
  match ul_reader w with
  | REnded => Some (Err "udp write closed listener", w, [])
  | _ =>
      if (length (ul_writeCh w) <? writeChCap)%nat
      then Some (Ok tt, set_queue (ul_writeCh w ++ [p]) (ul_holding w) w,
                 [OQueued (up_RemoteAddr p) (default [] (ul_mem w !! up_Buf p))])
      else None
  end.
(** The reader after [ReadFromUDP] of [data] from [a]. *)
Definition lookup_conn (a : string) (w : world) : nat * world :=
  match ul_fakeConns w !! a with
  | Some c =>
      if default true (fc_closeFlag <$> (ul_conns w !! c))
      then (length (ul_conns w), add_conn a (NewFakeUDPConn (ul_addr w) a (ul_now w)) w)
      else (c, w)
  | None => (length (ul_conns w), add_conn a (NewFakeUDPConn (ul_addr w) a (ul_now w)) w)
  end.
Definition Accept (w : world) : option (option nat * world) :=
  match ul_reader w with
  | RDeliver c => Some (Some c, set_reader RRead w)
  | REnded => Some (None, w)
  | _ => None
  end.
(** The result of [Accept] as the caller sees it. *)
Definition Accept_err (r : option nat) : result nat :=
  match r with Some c => Ok c | None => Err "channel for udp listener closed" end.
Definition Write (c b : nat) (w : world) : option (world * list obs) :=
  f ← ul_conns w !! c;
  if fc_closeFlag f then Some (w, [OWrite c (Err "io: read/write on closed pipe")])
  else Some (set_writes (ul_writes w ++ [(c, b)]) w, []).
(** The rest of the [i]-th pending [Write]: its send, and [lastActive]. *)
Definition Write_send (i : nat) (w : world) : option (world * list obs) :=
  '(c, b) ← ul_writes w !! i;
  f ← ul_conns w !! c;
  '(_, w1, o) ← writeUDPPacket (mkUDPPacket b (Some (fc_localAddr f)) (Some (fc_remoteAddr f))) w;
  Some (set_conn c (touch (ul_now w) f) (set_writes (delete i (ul_writes w)) w1),
        o ++ [OWrite c (Ok (length (default [] (ul_mem w !! b))))]).
Definition WriteMsg (b : nat) (a : option string) (w : world) : option (world * list obs) :=
  '(r, w1, o) ← writeUDPPacket (mkUDPPacket b None a) w;
  Some (w1, o ++ [OWriteMsg r]).
Definition UDPListener_Close (w : world) : world :=
  if ul_closeFlag w then w
  else mkWorld (ul_addr w) (ul_now w) (ul_conns w) (ul_fakeConns w) (ul_reader w) (ul_writeCh w)
         (ul_holding w) (ul_writes w) false true (ul_mem w).
(** The writer: the receive from [writeCh], then [WriteToUDP], which refuses a nil address
    and a closed socket and whose error is dropped; [net_ok] is the network's part. *)
Definition writer_take (w : world) : option world :=
  match ul_holding w, ul_writeCh w with
  | None, p :: q => Some (set_queue q (Some p) w)
  | _, _ => None
  end.
Definition writer_send (net_ok : bool) (w : world) : option (world * list obs) :=
  p ← ul_holding w;
  Some (set_queue (ul_writeCh w) None w,
        [OSent (up_RemoteAddr p) (default [] (ul_mem w !! up_Buf p))
           (ul_sockOpen w && bool_decide (is_Some (up_RemoteAddr p)) && net_ok)]).

Inductive event : Type :=
| ERecv (a : string) (datagram : bytes)
| ERecvErr
| EPut
| EAccept
| ERead (c blen : nat)
| EClose (c : nat)
| EWrite (c b : nat)
| EWriteSend (i : nat)
| EWriteMsg (b : nat) (a : option string)
| ETake
| ESend (net_ok : bool)
| ECheck (c : nat)
| ETick (d : nat)
| ECloseListener
| EOverwrite (b : nat) (data : bytes).
Definition tick (d : nat) (w : world) : world :=
  mkWorld (ul_addr w) (ul_now w + Z.of_nat d) (ul_conns w) (ul_fakeConns w) (ul_reader w) (ul_writeCh w)
    (ul_holding w) (ul_writes w) (ul_sockOpen w) (ul_closeFlag w) (ul_mem w).
Definition overwrite (b : nat) (data : bytes) (w : world) : world :=
  mkWorld (ul_addr w) (ul_now w) (ul_conns w) (ul_fakeConns w) (ul_reader w) (ul_writeCh w)
    (ul_holding w) (ul_writes w) (ul_sockOpen w) (ul_closeFlag w) (<[b := data]> (ul_mem w)).

(** The first half of a round of the reader, its error path, and its second half. *)
Definition reader_recv (a : string) (datagram : bytes) (w : world) : option (world * list obs) :=
  match ul_reader w with
  | RRead =>
      if ul_sockOpen w then
        let content := take bufSize datagram in
        let '(c, w1) := lookup_conn a w in
        Some (set_reader (RPut c content) w1, [OReceived a c content])
      else None
  | _ => None
  end.
Definition reader_err (w : world) : option world :=
  match ul_reader w with RRead => Some (set_reader REnded w) | _ => None end.
Definition reader_put (w : world) : option world :=
  match ul_reader w with
  | RPut c content => f ← ul_conns w !! c; Some (set_reader (RDeliver c) (set_conn c (putPacket content f) w))
  | _ => None
  end.

Definition step (w : world) (e : event) : option (world * list obs) :=
  match e with
  | ERecv a d => reader_recv a d w
  | ERecvErr => w1 ← reader_err w; Some (w1, [])
  | EPut => w1 ← reader_put w; Some (w1, [])
  | EAccept => '(r, w1) ← Accept w; Some (w1, [OAccepted r])
  | ERead c blen =>
      f ← ul_conns w !! c; '(r, f1) ← Read blen (ul_now w) f; Some (set_conn c f1 w, [ORead c blen r])
  | EClose c => f ← ul_conns w !! c; Some (set_conn c (Close f) w, [])
  | EWrite c b => Write c b w
  | EWriteSend i => Write_send i w
  | EWriteMsg b a => WriteMsg b a w
  | ETake => w1 ← writer_take w; Some (w1, [])
  | ESend ok => writer_send ok w
  | ECheck c => f ← ul_conns w !! c; f1 ← idle_check (ul_now w) f; Some (set_conn c f1 w, [])
  | ETick d => Some (tick d w, [])
  | ECloseListener => Some (UDPListener_Close w, [])
  | EOverwrite b data =>
      if decide (length data = length (default [] (ul_mem w !! b)))
      then Some (overwrite b data w, [OOverwritten b]) else None
  end.
(** A run from the listener's creation with what it lets see, and a run between states. *)
Inductive reach (w0 : world) : list obs -> world -> Prop :=
| reach_start : reach w0 [] w0
| reach_step log w e w' o : reach w0 log w -> step w e = Some (w', o) -> reach w0 (log ++ o) w'.
Fixpoint run (w : world) (es : list event) : option (world * list obs) :=
  match es with
  | [] => Some (w, [])
  | e :: es =>
      match step w e with
      | Some (w1, o) => match run w1 es with Some (w2, o2) => Some (w2, o ++ o2) | None => None end
      | None => None
      end
  end.

(** ** Projections of a log *)
(** The datagrams received from an address, those handed to a connection, and its reads. *)
Definition received (a : string) (log : list obs) : list bytes :=
  omap (λ o, match o with OReceived a' _ d => if decide (a' = a) then Some d else None | _ => None end) log.
Definition handed (log : list obs) : list nat :=
  omap (λ o, match o with OReceived _ c _ => Some c | _ => None end) log.
Definition accepts (log : list obs) : list nat :=
  omap (λ o, match o with OAccepted (Some c) => Some c | _ => None end) log.
Definition reads (c : nat) (log : list obs) : list (nat * bytes) :=
  omap (λ o, match o with ORead c' n (Some d) => if decide (c' = c) then Some (n, d) else None | _ => None end) log.
Definition queued (log : list obs) : list (option string * bytes) :=
  omap (λ o, match o with OQueued a d => Some (a, d) | _ => None end) log.
Definition sent (log : list obs) : list (option string * bytes) :=
  omap (λ o, match o with OSent a d _ => Some (a, d) | _ => None end) log.
Definition overwritten (log : list obs) : list nat :=
  omap (λ o, match o with OOverwritten b => Some b | _ => None end) log.
(** What the packets that are not sent yet say now. *)
Definition contents (w : world) (ps : list UDPPacket) : list (option string * bytes) :=
  (λ p, (up_RemoteAddr p, default [] (ul_mem w !! up_Buf p))) <$> ps.
Definition unsent (w : world) : list UDPPacket :=
  match ul_holding w with Some p => p :: ul_writeCh w | None => ul_writeCh w end.
Definition in_reader (r : rphase) : list nat :=
  match r with RPut c _ | RDeliver c => [c] | _ => [] end.
Definition putting (c : nat) (r : rphase) : list bytes :=
  match r with RPut c' d => if decide (c' = c) then [d] else [] | _ => [] end.

(** ** The invariant *)
Definition conn_ok (f : FakeUDPConn) : Prop :=
  (length (fc_packets f) <= packetsCap)%nat /\ (fc_closeFlag f = false -> is_Some (fc_wake f)).
Record inv (w : world) : Prop := mkInv {
  inv_map : forall a c, ul_fakeConns w !! a = Some c -> exists f, ul_conns w !! c = Some f /\ fc_remoteAddr f = a;
  inv_open : forall c f, ul_conns w !! c = Some f -> fc_closeFlag f = false -> ul_fakeConns w !! fc_remoteAddr f = Some c;
  inv_conns : forall c f, ul_conns w !! c = Some f -> conn_ok f;
  inv_reader : forall c, c ∈ in_reader (ul_reader w) -> (c < length (ul_conns w))%nat;
  inv_queue : (length (ul_writeCh w) <= writeChCap)%nat;
}.
(** How an operation may change a connection. *)
Record evolves (f f1 : FakeUDPConn) : Prop := mkEvolves {
  ev_remote : fc_remoteAddr f1 = fc_remoteAddr f;
  ev_closed : fc_closeFlag f = true -> fc_closeFlag f1 = true;
  ev_ok : conn_ok f -> conn_ok f1;
}.
Lemma evolves_touch now f : evolves f (touch now f).
Proof. by split. Qed.
Lemma evolves_Close f : evolves f (Close f).
Proof. split; [done..|]. intros [? ?]; split; [done|]. simpl. done. Qed.
Lemma evolves_put d f : evolves f (putPacket d f).
Proof.
  unfold putPacket. destruct (fc_closeFlag f) eqn:E; [done|].
  destruct (Nat.ltb_spec (length (fc_packets f)) packetsCap) as [Hl|Hl]; [|done].
  split; [done|congruence|]. intros [_ Hw]; split; [|by auto]. simpl. rewrite length_app. simpl. lia.
Qed.
Lemma evolves_Read n now f r f1 : Read n now f = Some (r, f1) -> evolves f f1.
Proof.
  unfold Read. destruct (fc_packets f) as [|d l] eqn:E.
  - destruct (fc_closeFlag f); [|done]. by intros [= <- <-].
  - intros [= <- <-]. split; [done..|]. intros [Hl Hw]. rewrite E in Hl. simpl in Hl. split; [simpl; lia|done].
Qed.
Lemma evolves_check now f f1 : idle_check now f = Some f1 -> evolves f f1.
Proof.
  unfold idle_check. destruct (fc_wake f) as [t|]; [|done]. destruct (now <? t); [done|].
  destruct (idle now f); intros [= <-]; (split; [done..|]); intros [Hl Hw]; split; try done.
Qed.
#[local] Hint Resolve evolves_touch evolves_Close evolves_put evolves_Read evolves_check : core.

Lemma inv_set_conn w c f f1 : ul_conns w !! c = Some f -> evolves f f1 -> inv w -> inv (set_conn c f1 w).
Proof.
  intros Hc [Hr Hcl Hok] [H1 H2 H3 H4 H5].
  assert (Hlt := lookup_lt_Some _ _ _ Hc).
  split; simpl; try done.
  - intros a c' Ha. destruct (H1 _ _ Ha) as (f' & Hf' & <-). destruct (decide (c' = c)) as [->|Hne].
    + exists f1. rewrite list_lookup_insert_eq by done. split; [done|]. congruence.
    + exists f'. by rewrite list_lookup_insert_ne by done.
  - intros c' f' Hl Ho. destruct (decide (c' = c)) as [->|Hne].
    + rewrite list_lookup_insert_eq in Hl by done. simplify_eq. rewrite Hr. apply H2; [done|].
      destruct (fc_closeFlag f); [|done]. by rewrite Hcl in Ho.
    + rewrite list_lookup_insert_ne in Hl by done. by apply H2.
  - intros c' f' Hl. destruct (decide (c' = c)) as [->|Hne].
    + rewrite list_lookup_insert_eq in Hl by done. simplify_eq. eauto.
    + rewrite list_lookup_insert_ne in Hl by done. eauto.
  - intros c' Hin. rewrite length_insert. auto.
Qed.
Lemma conn_ok_new la a now : conn_ok (NewFakeUDPConn la a now).
Proof. split; [simpl; lia|]. intros _. by eexists. Qed.
Lemma inv_add_conn w a :
  (forall c f, ul_fakeConns w !! a = Some c -> ul_conns w !! c = Some f -> fc_closeFlag f = true) -> inv w ->
  inv (add_conn a (NewFakeUDPConn (ul_addr w) a (ul_now w)) w).
Proof.
  intros Hold [H1 H2 H3 H4 H5]. split; simpl; try done.
  - intros a' c Ha. destruct (decide (a = a')) as [<-|Hne].
    + rewrite lookup_insert_eq in Ha. simplify_eq. exists (NewFakeUDPConn (ul_addr w) a (ul_now w)).
      by rewrite lookup_app_r, Nat.sub_diag by lia.
    + rewrite lookup_insert_ne in Ha by done. destruct (H1 _ _ Ha) as (f & Hf & <-). exists f.
      by rewrite (lookup_app_l_Some _ _ _ _ Hf).
  - intros c f [Hl|[Hge Hl]]%lookup_app_Some Ho.
    + pose proof (H2 _ _ Hl Ho) as Hm. rewrite lookup_insert_ne; [done|]. intros ->.
      by rewrite (Hold _ _ Hm Hl) in Ho.
    + apply list_lookup_singleton_Some in Hl as [? <-]. simpl. rewrite lookup_insert_eq. f_equal. lia.
  - intros c f [Hl|[Hge Hl]]%lookup_app_Some; [eauto|].
    apply list_lookup_singleton_Some in Hl as [? <-]. apply conn_ok_new.
  - intros c Hin. rewrite length_app. specialize (H4 c Hin). lia.
Qed.
(** What [lookup_conn] returns: a known connection that is open, or a new one. *)
Lemma lookup_conn_spec w a c w1 : inv w -> lookup_conn a w = (c, w1) ->
  inv w1 /\ ul_reader w1 = ul_reader w /\ (exists f, ul_conns w1 !! c = Some f /\ fc_remoteAddr f = a /\ fc_closeFlag f = false) /\
  (w1 = w \/ c = length (ul_conns w) /\ w1 = add_conn a (NewFakeUDPConn (ul_addr w) a (ul_now w)) w).
Proof.
  intros Hi. unfold lookup_conn.
  set (f0 := NewFakeUDPConn (ul_addr w) a (ul_now w)).
  assert (Hnew : exists f, ul_conns (add_conn a f0 w) !! length (ul_conns w) = Some f /\
    fc_remoteAddr f = a /\ fc_closeFlag f = false).
  { exists f0. simpl. by rewrite lookup_app_r, Nat.sub_diag by lia. }
  destruct (ul_fakeConns w !! a) as [c'|] eqn:Ea.
  - destruct (inv_map _ Hi _ _ Ea) as (f & Hf & Hr). rewrite Hf. simpl.
    destruct (fc_closeFlag f) eqn:Ec; intros [= <- <-].
    + split; [apply inv_add_conn; [|done]; intros; congruence|]. split_and!; [done|done|by right].
    + split_and!; [done|done|by exists f|by left].
  - intros [= <- <-]. split; [apply inv_add_conn; [|done]; intros; congruence|]. split_and!; [done|done|by right].
Qed.
Lemma inv_reader_set w r : inv w -> (forall c, c ∈ in_reader r -> (c < length (ul_conns w))%nat) -> inv (set_reader r w).
Proof. intros [? ? ? ? ?] ?. by split. Qed.
Lemma inv_queue_set w q h : inv w -> (length q <= writeChCap)%nat -> inv (set_queue q h w).
Proof. intros [? ? ? ? ?] ?. by split. Qed.
Lemma inv_set_writes w ps : inv w -> inv (set_writes ps w).
Proof. by intros [? ? ? ? ?]. Qed.
(** [writeUDPPacket] changes only the queue, and only when it may. *)
Lemma writeUDPPacket_spec p w r w1 o : writeUDPPacket p w = Some (r, w1, o) ->
  (ul_reader w = REnded /\ r = Err "udp write closed listener" /\ w1 = w /\ o = []) \/
  (ul_reader w ≠ REnded /\ r = Ok tt /\ (length (ul_writeCh w) < writeChCap)%nat /\
   w1 = set_queue (ul_writeCh w ++ [p]) (ul_holding w) w /\
   o = [OQueued (up_RemoteAddr p) (default [] (ul_mem w !! up_Buf p))]).
Proof.
  unfold writeUDPPacket.
  destruct (Nat.ltb_spec (length (ul_writeCh w)) writeChCap); destruct (ul_reader w) eqn:Er;
    intros [= <- <- <-]; (left + right); done.
Qed.
Lemma inv_writeUDPPacket p w r w1 o : inv w -> writeUDPPacket p w = Some (r, w1, o) -> inv w1.
Proof.
  intros Hi [(_ & _ & -> & _)|(_ & _ & Hl & -> & _)]%writeUDPPacket_spec; [done|].
  apply inv_queue_set; [done|]. rewrite length_app. simpl. lia.
Qed.
(** The steps with their arguments: what each needs and makes of the world. *)
Ltac step_cases H :=
  unfold step, reader_recv, reader_err, reader_put, Accept, Write, Write_send, WriteMsg, writer_take, writer_send in H;
  repeat match goal with
  | E : _ ≫= _ = Some _ |- _ => apply bind_Some in E as (? & ? & E)
  | E : (let (_, _) := ?x in _) = Some _ |- _ => destruct x eqn:?
  | E : (match ?x with _ => _ end) = Some _ |- _ => destruct x eqn:?; simplify_eq
  end; simplify_eq.

Lemma inv_step w e w' o : inv w -> step w e = Some (w', o) -> inv w'.
Proof.
  intros Hi H. destruct e; step_cases H;
    repeat match goal with
    | E : lookup_conn _ _ = _ |- _ => apply (lookup_conn_spec _ _ _ _ Hi) in E as (? & ? & (? & ? & ? & ?) & ?)
    | E : writeUDPPacket _ _ = Some _ |- _ => pose proof (writeUDPPacket_spec _ _ _ _ _ E); apply (inv_writeUDPPacket _ _ _ _ _ Hi) in E
    end; eauto using inv_set_conn.
  - apply inv_reader_set; [done|]. intros c' ->%list_elem_of_singleton. by eapply lookup_lt_Some.
  - apply inv_reader_set; [done|]. by intros c' ?%not_elem_of_nil.
  - apply inv_reader_set; [eauto using inv_set_conn|]. intros c' ->%list_elem_of_singleton. simpl.
    rewrite length_insert. by eapply lookup_lt_Some.
  - apply inv_reader_set; [done|]. by intros c' ?%not_elem_of_nil.
  - by apply inv_set_writes.
  - apply (inv_set_conn _ _ x0); [|done|by apply inv_set_writes].
    destruct H as [(_ & _ & -> & _)|(_ & _ & _ & -> & _)]; done.
  - apply inv_queue_set; [done|]. pose proof (inv_queue _ Hi) as Hq. rewrite Heql in Hq. simpl in Hq. lia.
  - apply inv_queue_set; [done|]. apply Hi.
  - by destruct Hi.
  - unfold UDPListener_Close. destruct (ul_closeFlag w); [done|]. by destruct Hi.
  - by destruct Hi.
Qed.
Lemma reach_inv a now mem log w : reach (ListenUDP a now mem) log w -> inv w.
Proof.
  remember (ListenUDP a now mem) as w0 eqn:E. induction 1 as [|log w e w' o Hr IH Hs]; [|eauto using inv_step].
  subst. split; simpl; try done; try lia. intros c ?%not_elem_of_nil. done.
Qed.

(** ** Datagrams and connections *)
Definition read_fits (r : nat * bytes) (m : bytes) : Prop := r.2 = take r.1 m.
Definition demux_conn (log : list obs) (rd : rphase) (c : nat) (f : FakeUDPConn) : Prop :=
  exists ms, sublist (ms ++ fc_packets f ++ putting c rd) (received (fc_remoteAddr f) log) /\
    Forall2 read_fits (reads c log) ms.
Record demux (log : list obs) (w : world) : Prop := mkDemux {
  dm_conn : forall c f, ul_conns w !! c = Some f -> demux_conn log (ul_reader w) c f;
  dm_fresh : forall c, (length (ul_conns w) <= c)%nat -> reads c log = [];
}.
(** Observations that are neither a datagram nor a read. *)
Definition silent (o : list obs) : Prop := (forall a, received a o = []) /\ (forall c, reads c o = []).
Lemma demux_silent log o w w' : silent o -> demux log w ->
  length (ul_conns w') = length (ul_conns w) ->
  (forall c f', ul_conns w' !! c = Some f' -> exists f, ul_conns w !! c = Some f /\ fc_remoteAddr f' = fc_remoteAddr f /\
     sublist (fc_packets f' ++ putting c (ul_reader w')) (fc_packets f ++ putting c (ul_reader w))) ->
  demux (log ++ o) w'.
Proof.
  intros [Hs1 Hs2] [H1 H2] Hlen Hc. split.
  - intros c f' Hf'. destruct (Hc _ _ Hf') as (f & Hf & Hr & Hsub). destruct (H1 _ _ Hf) as (ms & Hms & Hfit).
    exists ms. unfold received, reads in *. rewrite !omap_app, Hs1, Hs2, !app_nil_r, Hr. split; [|done].
    etrans; [|exact Hms]. by apply sublist_app.
  - intros c Hc'. unfold reads in *. rewrite omap_app, Hs2, app_nil_r. apply H2. lia.
Qed.
Lemma demux_set_conn log o w w' c f f1 : silent o -> demux log w -> ul_conns w !! c = Some f ->
  ul_conns w' = <[c := f1]> (ul_conns w) -> fc_remoteAddr f1 = fc_remoteAddr f ->
  sublist (fc_packets f1 ++ putting c (ul_reader w')) (fc_packets f ++ putting c (ul_reader w)) ->
  (forall c', c' ≠ c -> sublist (putting c' (ul_reader w')) (putting c' (ul_reader w))) ->
  demux (log ++ o) w'.
Proof.
  intros Ho Hd Hc Hw Hr Hsub Hput. apply (demux_silent log o w); [done|done|rewrite Hw; apply length_insert|].
  intros c' f' Hl. rewrite Hw in Hl. destruct (decide (c' = c)) as [->|Hne].
  - rewrite list_lookup_insert_eq in Hl by (by eapply lookup_lt_Some). simplify_eq. by exists f.
  - rewrite list_lookup_insert_ne in Hl by done. exists f'. split; [done|]. split; [done|].
    apply sublist_app; auto.
Qed.
Lemma sublist_putting_put d f : sublist (fc_packets (putPacket d f)) (fc_packets f ++ [d]).
Proof.
  unfold putPacket. destruct (fc_closeFlag f); [by apply sublist_inserts_r|].
  destruct (_ <? _)%nat; [done|by apply sublist_inserts_r].
Qed.
Lemma silent_nil : silent [].
Proof. done. Qed.
Lemma silent_other o : match o with OReceived _ _ _ | ORead _ _ (Some _) => False | _ => True end -> silent [o].
Proof. by destruct o as [| |? ? []| | | | |]. Qed.
Lemma silent_cons o l : silent [o] -> silent l -> silent (o :: l).
Proof.
  intros [H1 H2] [H3 H4]. split; [intros a|intros c]; unfold received, reads in *; rewrite <- (app_nil_l l), app_comm_cons, omap_app.
  - by rewrite H1, H3.
  - by rewrite H2, H4.
Qed.
#[local] Hint Resolve silent_nil : core.
Lemma writeUDPPacket_keeps p w r w1 o : writeUDPPacket p w = Some (r, w1, o) ->
  ul_conns w1 = ul_conns w /\ ul_reader w1 = ul_reader w /\ forall o', silent [o'] -> silent (o ++ [o']).
Proof.
  intros [(_ & _ & -> & ->)|(_ & _ & _ & -> & ->)]%writeUDPPacket_spec; split_and!; try done.
Qed.
(** A datagram reaches the connection its address names: a known one or a new one. *)
Lemma demux_recv log w a d c w1 : inv w -> demux log w -> in_reader (ul_reader w) = [] ->
  lookup_conn a w = (c, w1) -> demux (log ++ [OReceived a c d]) (set_reader (RPut c d) w1).
Proof.
  intros Hi [H1 H2] Hrd Hl.
  assert (Hp : forall c', putting c' (ul_reader w) = []) by (intros; by destruct (ul_reader w)).
  assert (Hrecv : forall a', received a' (log ++ [OReceived a c d]) = received a' log ++ (if decide (a = a') then [d] else [])).
  { intros a'. unfold received. rewrite omap_app. f_equal. simpl. by destruct (decide (a = a')). }
  assert (Hreads : forall c', reads c' (log ++ [OReceived a c d]) = reads c' log).
  { intros c'. unfold reads. by rewrite omap_app, app_nil_r. }
  destruct (lookup_conn_spec _ _ _ _ Hi Hl) as (_ & _ & (f & Hf & Hra & _) & Hw). split; simpl.
  - intros c' f' Hf'. unfold demux_conn. rewrite Hrecv, Hreads. simpl.
    assert (Hold : ul_conns w !! c' = Some f' \/ c' = length (ul_conns w) /\ fc_packets f' = [] /\ reads c' log = []).
    { destruct Hw as [->|[-> ->]]; [by left|]. simpl in Hf'. apply lookup_app_Some in Hf' as [?|[Hge Hs]]; [by left|right].
      apply list_lookup_singleton_Some in Hs as [? <-]. split; [lia|]. split; [done|]. by apply H2. }
    assert (Hput : sublist (if decide (c = c') then [d] else []) (if decide (a = fc_remoteAddr f') then [d] else [])).
    { destruct (decide (c = c')) as [<-|]; [|by apply sublist_nil_l]. rewrite Hf in Hf'. simplify_eq. by rewrite decide_True. }
    destruct Hold as [Hc'|(-> & Hp0 & Hr0)].
    + destruct (H1 _ _ Hc') as (ms & Hms & Hfit). exists ms. split; [|done]. rewrite Hp, app_nil_r in Hms.
      rewrite app_assoc. by apply sublist_app.
    + exists []. rewrite Hp0, Hr0. split; [|constructor]. simpl. by apply sublist_inserts_l.
  - intros c' Hc'. rewrite Hreads. apply H2. destruct Hw as [->|[_ ->]]; [done|]. simpl in Hc'. rewrite length_app in Hc'. lia.
Qed.
Lemma demux_read log w c n f r f1 : demux log w -> ul_conns w !! c = Some f -> Read n (ul_now w) f = Some (r, f1) ->
  demux (log ++ [ORead c n r]) (set_conn c f1 w).
Proof.
  intros [H1 H2] Hc Hrd. unfold Read in Hrd. destruct (fc_packets f) as [|m q] eqn:Eq.
  - destruct (fc_closeFlag f); [|done]. simplify_eq. eapply demux_set_conn; try done.
  - simplify_eq. set (f1 := touch _ _).
    assert (Hrecv : forall a, received a (log ++ [ORead c n (Some (take n m))]) = received a log).
    { intros a. unfold received. by rewrite omap_app, app_nil_r. }
    assert (Hreads : forall c', reads c' (log ++ [ORead c n (Some (take n m))]) =
      reads c' log ++ (if decide (c = c') then [(n, take n m)] else [])).
    { intros c'. unfold reads. rewrite omap_app. f_equal. simpl. by destruct (decide (c = c')). }
    assert (Hlt := lookup_lt_Some _ _ _ Hc). split; simpl.
    + intros c' f' Hl. unfold demux_conn. rewrite Hrecv, Hreads. destruct (decide (c = c')) as [<-|Hne].
      * rewrite list_lookup_insert_eq in Hl by done. simplify_eq. destruct (H1 _ _ Hc) as (ms & Hms & Hfit).
        exists (ms ++ [m]). simpl. rewrite Eq in Hms. rewrite <- app_assoc. split; [done|].
        apply Forall2_app; [done|]. by repeat constructor.
      * rewrite list_lookup_insert_ne in Hl by done. rewrite app_nil_r. by apply H1.
    + intros c'. rewrite length_insert, Hreads. intros Hle. rewrite decide_False, app_nil_r by lia. by apply H2.
Qed.
Lemma demux_same log o w w' : silent o -> demux log w -> ul_conns w' = ul_conns w ->
  (forall c, sublist (putting c (ul_reader w')) (putting c (ul_reader w))) -> demux (log ++ o) w'.
Proof.
  intros Ho Hd Hc Hr. apply (demux_silent log o w); [done|done|by rewrite Hc|]. rewrite Hc.
  intros c f Hf. exists f. split; [done|]. split; [done|]. by apply sublist_app.
Qed.
Lemma demux_step log w e w' o : inv w -> demux log w -> step w e = Some (w', o) -> demux (log ++ o) w'.
Proof.
  intros Hi Hd H. destruct e; step_cases H;
    repeat match goal with
    | E : writeUDPPacket _ _ = Some _ |- _ => apply writeUDPPacket_keeps in E as (Hk1 & Hk2 & Hk3)
    end.
  all: try (by apply (demux_same _ _ w); [..|intros; apply sublist_nil_l]).
  all: try (by eapply demux_same).
  - apply (demux_recv _ w); [done|done|by rewrite Heqr|done].
  - apply (demux_set_conn _ _ w _ c x (putPacket content x)); try done.
    + by apply evolves_put.
    + simpl. rewrite Heqr. simpl. rewrite decide_True, app_nil_r by done. apply sublist_putting_put.
    + intros c' _. apply sublist_nil_l.
  - by eapply demux_read.
  - by apply (demux_set_conn _ _ w _ c x (Close x)).
  - eapply (demux_set_conn _ _ w _ n x0 (touch (ul_now w) x0)); try done; simpl; rewrite ?Hk1, ?Hk2; auto.
  - apply (demux_same _ _ w); rewrite ?Hk2; auto.
  - eapply (demux_set_conn _ _ w _ c x x0); try done; [by apply evolves_check in H1 as []|].
    unfold idle_check in H1. destruct (fc_wake x); [|done]. destruct (_ <? _); [done|].
    by destruct (idle _ x); simplify_eq.
  - unfold UDPListener_Close. by destruct (ul_closeFlag w); apply (demux_same _ _ w).
Qed.
Lemma reach_demux a now mem log w : reach (ListenUDP a now mem) log w -> demux log w.
Proof.
  remember (ListenUDP a now mem) as w0 eqn:E. induction 1 as [|log w e w' o Hr IH Hs]; subst; [by split|].
  eapply demux_step; eauto using reach_inv.
Qed.

(** ** Accepts and writes *)
Lemma handed_step w e w' o : step w e = Some (w', o) ->
  in_reader (ul_reader w) ++ handed o = accepts o ++ in_reader (ul_reader w').
Proof.
  intros H. destruct e; step_cases H;
    repeat match goal with
    | E : writeUDPPacket _ _ = Some _ |- _ =>
        apply writeUDPPacket_spec in E as [(? & ? & ? & ?)|(? & ? & ? & ? & ?)]; subst
    | E : ul_reader ?v = _ |- _ => is_var v; simpl; rewrite ?E; clear E
    end; rewrite ?app_nil_r; try done.
  unfold UDPListener_Close. by destruct (ul_closeFlag w).
Qed.
Lemma handed_exact w0 log w : ul_reader w0 = RRead -> reach w0 log w -> handed log = accepts log ++ in_reader (ul_reader w).
Proof.
  intros H0. induction 1 as [|log w e w' o Hr IH Hs]; [by rewrite H0|].
  unfold handed, accepts in *. rewrite !omap_app, IH, <- !app_assoc. f_equal. by apply handed_step in Hs.
Qed.
Definition addrs (ps : list UDPPacket) : list (option string) := up_RemoteAddr <$> ps.
Lemma unsent_set_queue q h w : unsent (set_queue q h w) = match h with Some p => p :: q | None => q end.
Proof. done. Qed.
Lemma writes_step w e w' o : step w e = Some (w', o) ->
  addrs (unsent w) ++ (queued o).*1 = (sent o).*1 ++ addrs (unsent w') /\
  (overwritten o = [] -> contents w (unsent w) ++ queued o = sent o ++ contents w' (unsent w')).
Proof.
  intros H. destruct e; step_cases H;
    repeat match goal with
    | E : writeUDPPacket _ _ = Some _ |- _ =>
        apply writeUDPPacket_spec in E as [(? & ? & ? & ?)|(? & ? & ? & ? & ?)]; subst
    | E : lookup_conn ?a w = _ |- _ => unfold lookup_conn in E; destruct (ul_fakeConns w !! a); [destruct (default _ _)|]; simplify_eq
    end; rewrite ?app_nil_r; try done.
  all: unfold unsent, addrs, contents, queued, sent; cbn -[fmap].
  1-2: by destruct (ul_holding w); rewrite ?fmap_cons, !fmap_app.
  - by rewrite Heqo0, Heql.
  - by rewrite H0.
  - unfold UDPListener_Close. by destruct (ul_closeFlag w).
Qed.
Lemma writes_exact w0 log w : unsent w0 = [] -> reach w0 log w ->
  (queued log).*1 = (sent log).*1 ++ addrs (unsent w) /\
  (overwritten log = [] -> queued log = sent log ++ contents w (unsent w)).
Proof.
  intros H0. induction 1 as [|log w e w' o Hr [IH1 IH2] Hs].
  - unfold addrs, contents. by rewrite H0.
  - apply writes_step in Hs as [Hs1 Hs2]. unfold queued, sent, overwritten in *. rewrite !omap_app, !fmap_app. split.
    + by rewrite IH1, <- !app_assoc, Hs1.
    + intros [Ho1 Ho2]%app_eq_nil. by rewrite IH2, <- !app_assoc, Hs2.
Qed.

Lemma run_reach w0 log w es w' o : reach w0 log w -> run w es = Some (w', o) -> reach w0 (log ++ o) w'.
Proof.
  revert log w o. induction es as [|e es IH]; intros log w o Hr; simpl.
  - intros [= <- <-]. by rewrite app_nil_r.
  - destruct (step w e) as [[w1 o1]|] eqn:Es; [|done]. destruct (run w1 es) as [[w2 o2]|] eqn:E2; [|done].
    intros [= <- <-]. rewrite app_assoc. eauto using reach_step.
Qed.

(** ** Theorems *)
(** What a connection of the listener has read, in the buffers it read into, and still
    holds are datagrams that came from its address, in their order and each at most once;
    it holds at most twenty, an address has at most one open connection, an open connection
    is watched for idleness, and [Accept] has returned a connection once for every datagram
    handed to it, up to the one the reader is busy with. *)
Theorem udp_demultiplexed addr now mem log w :
  reach (ListenUDP addr now mem) log w ->
  (forall c f, ul_conns w !! c = Some f ->
     (exists ms, sublist (ms ++ fc_packets f) (received (fc_remoteAddr f) log) /\ Forall2 read_fits (reads c log) ms) /\
     (length (fc_packets f) <= 20)%nat /\ (fc_closeFlag f = false -> is_Some (fc_wake f))) /\
  (forall c1 c2 f1 f2, ul_conns w !! c1 = Some f1 -> ul_conns w !! c2 = Some f2 ->
     fc_closeFlag f1 = false -> fc_closeFlag f2 = false -> fc_remoteAddr f1 = fc_remoteAddr f2 -> c1 = c2) /\
  handed log = accepts log ++ in_reader (ul_reader w).
Proof.
  intros Hr. pose proof (reach_inv _ _ _ _ _ Hr) as Hi. pose proof (reach_demux _ _ _ _ _ Hr) as Hd. split_and!.
  - intros c f Hf. split; [|by apply (inv_conns _ Hi c)]. destruct (dm_conn _ _ Hd _ _ Hf) as (ms & Hms & Hfit).
    exists ms. split; [|done]. etrans; [|exact Hms]. apply sublist_app; [done|]. by apply sublist_inserts_r.
  - intros c1 c2 f1 f2 H1 H2 Ho1 Ho2 E. apply (inv_open _ Hi) in H1, H2; try done. congruence.
  - by apply (handed_exact (ListenUDP addr now mem)).
Qed.
(** Two addresses; the second datagram of the first is read, the third cut to two bytes. *)
Definition example_run : list event :=
  [ERecv "a" [x01]; EPut; EAccept; ERecv "b" [x02]; EPut; EAccept; ERecv "a" [x03; x04; x05]; EPut; EAccept;
   ERead 0 9; ERead 0 2; ETick 20; EClose 1].
Lemma udp_demultiplexed_witness : exists log w, run (ListenUDP "s" 0 []) example_run = Some (w, log) /\
  reads 0 log = [(9%nat, [x01]); (2%nat, [x03; x04])] /\ handed log = accepts log ++ in_reader (ul_reader w).
Proof.
  eexists _, _. split; [vm_compute; reflexivity|]. split; [vm_compute; reflexivity|].
  eapply (udp_demultiplexed "s" 0 []). eapply (run_reach _ [] _ example_run); [constructor|]. vm_compute; reflexivity.
Defined.

(** What has been sent or tried, what the writer holds and the queue are what was queued,
    in that order; the bytes too, when no caller has written to a buffer meanwhile. *)
Theorem writes_in_order addr now mem log w :
  reach (ListenUDP addr now mem) log w ->
  (queued log).*1 = (sent log).*1 ++ addrs (unsent w) /\
  (overwritten log = [] -> queued log = sent log ++ contents w (unsent w)) /\
  (length (ul_writeCh w) <= 1000)%nat.
Proof.
  intros Hr. destruct (writes_exact (ListenUDP addr now mem) log w eq_refl Hr). split_and!; [done|done|]. by apply (inv_queue w), (reach_inv _ _ _ _ _ Hr).
Qed.
(** [Write] keeps the caller's slice: a buffer reused after it returned changes what is
    sent. *)
Theorem write_keeps_buffer : exists w log,
  run (ListenUDP "s" 0 [[x07]]) [ERecv "a" [x01]; EPut; EWrite 0 0; EWriteSend 0; EOverwrite 0 [x08]; ETake; ESend true]
  = Some (w, log) /\ OWrite 0 (Ok 1%nat) ∈ log /\ queued log = [(Some "a", [x07])] /\ sent log = [(Some "a", [x08])].
Proof.
  eexists _, _. split; [vm_compute; reflexivity|]. split; [|by vm_compute].
  apply list_elem_of_In. simpl. auto.
Qed.

(** The goroutine of a connection closes it at the first check that finds it unused for ten
    seconds, never read or written included, and otherwise sleeps five seconds more. *)
Theorem idle_check_closes now f f1 : idle_check now f = Some f1 ->
  fc_packets f1 = fc_packets f /\
  if idle now f then fc_closeFlag f1 = true /\ fc_wake f1 = None
  else fc_closeFlag f1 = fc_closeFlag f /\ fc_wake f1 = Some (now + 5 * Second).
Proof.
  unfold idle_check. destruct (fc_wake f); [|done]. destruct (_ <? _); [done|].
  by destruct (idle now f); intros [= <-].
Qed.

(** Once the reader has returned, [Accept] and [WriteMsg] fail for ever, while [Write] on
    an open connection still reports that everything was written. *)
Lemma ended_stable w e w' o : ul_reader w = REnded -> step w e = Some (w', o) -> ul_reader w' = REnded /\ handed o = [] /\ queued o = [].
Proof.
  intros Hr H. destruct e; step_cases H; try congruence;
    repeat match goal with
    | E : writeUDPPacket _ _ = Some _ |- _ => apply writeUDPPacket_spec in E as [(? & ? & ? & ?)|(? & ? & ? & ? & ?)]; subst
    end; try done.
  unfold UDPListener_Close. by destruct (ul_closeFlag w).
Qed.
Theorem listener_ended w b a : ul_reader w = REnded ->
  Accept w = Some (None, w) /\ WriteMsg b a w = Some (w, [OWriteMsg (Err "udp write closed listener")]) /\
  forall i c f, ul_writes w !! i = Some (c, b) -> ul_conns w !! c = Some f ->
    exists w', Write_send i w = Some (w', [OWrite c (Ok (length (default [] (ul_mem w !! b))))]).
Proof.
  intros Hr. unfold Accept, WriteMsg, Write_send, writeUDPPacket. rewrite Hr. split_and!; [done|done|].
  intros i c f Hi Hc. rewrite Hi. simpl. rewrite Hc. simpl. by eexists.
Qed.
(** [Close] alone does not end a reader that waits for [Accept]: until somebody accepts,
    the listener's channels stay open, whatever else happens. *)
Theorem close_waits_for_accept w c es w' log : ul_reader w = RDeliver c -> EAccept ∉ es ->
  run w es = Some (w', log) -> ul_reader w' = RDeliver c.
Proof.
  revert w log. induction es as [|e es IH]; intros w log Hr Hn; simpl; [by intros [= <- <-]|].
  apply not_elem_of_cons in Hn as [Hne Hn].
  destruct (step w e) as [[w1 o1]|] eqn:Es; [|done]. destruct (run w1 es) as [[w2 o2]|] eqn:E2; [|done].
  intros [= <- <-]. eapply IH; [|done|done]. clear IH E2.
  destruct e; try done; step_cases Es; try congruence;
    repeat match goal with
    | E : writeUDPPacket _ _ = Some _ |- _ => apply writeUDPPacket_spec in E as [(? & ? & ? & ?)|(? & ? & ? & ? & ?)]; subst
    end; try done.
  unfold UDPListener_Close. by destruct (ul_closeFlag w).
Qed.
