(* ===== verification/NetConn.v ===== *)
(** * Wrappers of connections: [pkg/util/net/conn.go]

    A connection is a record of operations over a state of its own; the wrappers make one
    connection of another.  [StatsConn] and [CloseNotifyConn] promise the same thing, a
    connection that can be closed any number of times and closes what it wraps once, and
    each calls back once; both are shown to refine that promise.  The ciphers of the same
    file are in [ControlCrypto]. *)
From S2P Require Import Prelude GoStd.
From stdpp Require Import list.
Local Open Scope Z_scope.

(** ** Connections *)
(** An address, or the nil [*net.TCPAddr]. *)
Inductive netAddr : Type := Addr (s : string) | NilTCPAddr.
Inductive deadline_kind : Type := BothDeadline | ReadDeadline | WriteDeadline.
(** [net.Conn]; the error of an operation is [None] when it is nil. *)
Record Conn (S : Type) := mkConn {
  c_Read : nat -> S -> (list byte * option string) * S;
  c_Write : list byte -> S -> (Z * option string) * S;
  c_Close : S -> option string * S;
  c_LocalAddr : S -> netAddr;
  c_RemoteAddr : S -> netAddr;
  c_SetDeadline : deadline_kind -> Z -> S -> option string * S;
}.
Arguments c_Read {S}. Arguments c_Write {S}. Arguments c_Close {S}.
Arguments c_LocalAddr {S}. Arguments c_RemoteAddr {S}. Arguments c_SetDeadline {S}.

(** The calls of a user and what they return; [CloseWithError] is only known to a
    [CloseNotifyConn], on others it is [Close]. *)
Inductive cop : Type :=
| CRead (n : nat)
| CWrite (p : list byte)
| CClose
| CCloseWithError (e : option string).
Inductive cres : Type :=
| RRead (data : list byte) (e : option string)
| RWrite (n : Z) (e : option string)
| RClose (e : option string).
Definition conn_op {S} (c : Conn S) (o : cop) (s : S) : cres * S :=
  match o with
  | CRead n => let '((d, e), s) := c_Read c n s in (RRead d e, s)
  | CWrite p => let '((n, e), s) := c_Write c p s in (RWrite n e, s)
  | CClose | CCloseWithError _ => let '(e, s) := c_Close c s in (RClose e, s)
  end.
Fixpoint run_ops {S} (f : cop -> S -> cres * S) (os : list cop) (s : S) : list cres * S :=
  match os with
  | [] => ([], s)
  | o :: os => let '(r, s) := f o s in let '(rs, s) := run_ops f os s in (r :: rs, s)
  end.

(** The promise of the wrappers: the first close closes, the others do nothing. *)
Definition close_once {S} (c : Conn S) (o : cop) (s : S * bool) : cres * (S * bool) :=
  match o with
  | CClose | CCloseWithError _ =>
      if s.2 then (RClose None, s)
      else let '(e, s1) := c_Close c s.1 in (RClose e, (s1, true))
  | _ => let '(r, s1) := conn_op c o s.1 in (r, (s1, s.2))
  end.

(** ** Contexts *)
(** A connection has a context when it is a [ContextGetter]. *)
Record ContextConn (ctx S : Type) := mkContextConn { cx_Conn : S; cx_ctx : ctx }.
Arguments mkContextConn {ctx S}. Arguments cx_Conn {ctx S}. Arguments cx_ctx {ctx S}.
Definition NewContextConn {ctx S} (x : ctx) (c : S) : ContextConn ctx S := mkContextConn c x.
Definition WithContext {ctx S} (x : ctx) (c : ContextConn ctx S) : ContextConn ctx S := mkContextConn (cx_Conn c) x.
Definition NewContextFromConn {ctx S} (background : ctx) (c : ContextConn ctx S + S) : ctx :=
  match c with inl c => cx_ctx c | inr _ => background end.
(** [NewLogFromConn]: the logger of the context when it has one, else a new one. *)
Definition NewLogFromConn {ctx L S} (FromContextSafe : ctx -> L) (New : L) (c : ContextConn ctx S + S) : L :=
  match c with inl c => FromContextSafe (cx_ctx c) | inr _ => New end.

(** ** [WrapReadWriteCloserConn] *)
Record WrapReadWriteCloserConn (R S : Type) := mkWrap {
  wr_ReadWriteCloser : R;
  wr_underConn : option S;
  wr_remoteAddr : option netAddr;
}.
Arguments mkWrap {R S}. Arguments wr_ReadWriteCloser {R S}. Arguments wr_underConn {R S}. Arguments wr_remoteAddr {R S}.
Definition WrapReadWriteCloserToConn {R S} (rwc : R) (under : option S) : WrapReadWriteCloserConn R S := mkWrap rwc under None.
Definition wrap_LocalAddr {R S} (c : Conn S) (w : WrapReadWriteCloserConn R S) : netAddr :=
  match wr_underConn w with Some s => c_LocalAddr c s | None => NilTCPAddr end.
Definition wrap_SetRemoteAddr {R S} (a : option netAddr) (w : WrapReadWriteCloserConn R S) : WrapReadWriteCloserConn R S :=
  mkWrap (wr_ReadWriteCloser w) (wr_underConn w) a.
Definition wrap_RemoteAddr {R S} (c : Conn S) (w : WrapReadWriteCloserConn R S) : netAddr :=
  match wr_remoteAddr w with
  | Some a => a
  | None => match wr_underConn w with Some s => c_RemoteAddr c s | None => NilTCPAddr end
  end.
Definition deadline_unsupported : string := "set wrap: deadline not supported".
Definition wrap_SetDeadline {R S} (c : Conn S) (k : deadline_kind) (t : Z) (w : WrapReadWriteCloserConn R S)
    : option string * WrapReadWriteCloserConn R S :=
  match wr_underConn w with
  | Some s => let '(e, s) := c_SetDeadline c k t s in (e, mkWrap (wr_ReadWriteCloser w) (Some s) (wr_remoteAddr w))
  | None => (Some deadline_unsupported, w)
  end.

(** ** [CloseNotifyConn] *)
(** [closeFn] is present or nil; [cl_called] are the errors it was called with. *)
Record CloseNotifyConn (S : Type) := mkCloseNotify {
  cl_Conn : S;
  cl_closeFlag : bool;
  cl_closeFn : bool;
  cl_called : list (option string);
}.
Arguments mkCloseNotify {S}. Arguments cl_Conn {S}. Arguments cl_closeFlag {S}.
Arguments cl_closeFn {S}. Arguments cl_called {S}.
Definition WrapCloseNotifyConn {S} (s : S) (closeFn : bool) : CloseNotifyConn S := mkCloseNotify s false closeFn [].
Definition CloseWithError {S} (c : Conn S) (err : option string) (cc : CloseNotifyConn S) : option string * CloseNotifyConn S :=
  if cl_closeFlag cc then (None, cc)
  else
    let '(e, s) := c_Close c (cl_Conn cc) in
    (e, mkCloseNotify s true (cl_closeFn cc) (cl_called cc ++ if cl_closeFn cc then [err] else [])).
Definition closenotify_op {S} (c : Conn S) (o : cop) (cc : CloseNotifyConn S) : cres * CloseNotifyConn S :=
  match o with
  | CClose => let '(e, cc) := CloseWithError c None cc in (RClose e, cc)
  | CCloseWithError err => let '(e, cc) := CloseWithError c err cc in (RClose e, cc)
  | _ => let '(r, s) := conn_op c o (cl_Conn cc) in
         (r, mkCloseNotify s (cl_closeFlag cc) (cl_closeFn cc) (cl_called cc))
  end.

(** ** [StatsConn] *)
Record StatsConn (S : Type) := mkStats {
  st_Conn : S;
  st_closed : bool;
  st_totalRead : Z;
  st_totalWrite : Z;
  st_statsFunc : bool;
  st_called : list (Z * Z);
}.
Arguments mkStats {S}. Arguments st_Conn {S}. Arguments st_closed {S}. Arguments st_totalRead {S}.
Arguments st_totalWrite {S}. Arguments st_statsFunc {S}. Arguments st_called {S}.
Definition WrapStatsConn {S} (s : S) (statsFunc : bool) : StatsConn S := mkStats s false 0 0 statsFunc [].
Definition stats_Read {S} (c : Conn S) (n : nat) (sc : StatsConn S) : (list byte * option string) * StatsConn S :=
  let '((d, e), s) := c_Read c n (st_Conn sc) in
  ((d, e), mkStats s (st_closed sc) (wrap64 (st_totalRead sc + Z.of_nat (length d))) (st_totalWrite sc)
             (st_statsFunc sc) (st_called sc)).
Definition stats_Write {S} (c : Conn S) (p : list byte) (sc : StatsConn S) : (Z * option string) * StatsConn S :=
  let '((n, e), s) := c_Write c p (st_Conn sc) in
  ((n, e), mkStats s (st_closed sc) (st_totalRead sc) (wrap64 (st_totalWrite sc + n))
             (st_statsFunc sc) (st_called sc)).
Definition stats_Close {S} (c : Conn S) (sc : StatsConn S) : option string * StatsConn S :=
  if st_closed sc then (None, sc)
  else
    let '(e, s) := c_Close c (st_Conn sc) in
    (e, mkStats s true (st_totalRead sc) (st_totalWrite sc) (st_statsFunc sc)
          (st_called sc ++ if st_statsFunc sc then [(st_totalRead sc, st_totalWrite sc)] else [])).
Definition stats_op {S} (c : Conn S) (o : cop) (sc : StatsConn S) : cres * StatsConn S :=
  match o with
  | CRead n => let '((d, e), sc) := stats_Read c n sc in (RRead d e, sc)
  | CWrite p => let '((n, e), sc) := stats_Write c p sc in (RWrite n e, sc)
  | CClose | CCloseWithError _ => let '(e, sc) := stats_Close c sc in (RClose e, sc)
  end.

(** ** [wrapQuicStream] *)
(** The stream's operations are the library's; [qs_c] is the connection, when there is one. *)
Record wrapQuicStream (Q : Type) := mkQuicStream { qs_Stream : Q; qs_c : option (netAddr * netAddr) }.
Arguments mkQuicStream {Q}. Arguments qs_Stream {Q}. Arguments qs_c {Q}.
Definition QuicStreamToNetConn {Q} (s : Q) (c : option (netAddr * netAddr)) : wrapQuicStream Q := mkQuicStream s c.
Definition quic_LocalAddr {Q} (q : wrapQuicStream Q) : netAddr := match qs_c q with Some (a, _) => a | None => NilTCPAddr end.
Definition quic_RemoteAddr {Q} (q : wrapQuicStream Q) : netAddr := match qs_c q with Some (_, a) => a | None => NilTCPAddr end.
(** [Close]: the reading side is cancelled with the code 0, then the writing side closed. *)
Definition quic_Close {Q} (CancelRead : Z -> Q -> Q) (StreamClose : Q -> option string * Q) (q : wrapQuicStream Q)
    : option string * wrapQuicStream Q :=
  let '(e, s) := StreamClose (CancelRead 0 (qs_Stream q)) in (e, mkQuicStream s (qs_c q)).

(** ** Simulation of one connection by another *)
Lemma run_ops_simulation {S T} (R : S -> T -> Prop) (f : cop -> S -> cres * S) (g : cop -> T -> cres * T) :
  (forall o s t, R s t -> (f o s).1 = (g o t).1 /\ R (f o s).2 (g o t).2) ->
  forall os s t, R s t -> (run_ops f os s).1 = (run_ops g os t).1 /\ R (run_ops f os s).2 (run_ops g os t).2.
Proof.
  intros Hsim os. induction os as [|o os IH]; intros s t Hst; [done|]. simpl.
  pose proof (Hsim o s t Hst) as [H1 H2]. destruct (f o s) as [r s1], (g o t) as [r' t1]; simpl in *. subst.
  pose proof (IH s1 t1 H2) as [H3 H4]. destruct (run_ops f os s1), (run_ops g os t1). simpl in *. by subst.
Qed.
Lemma run_ops_invariant {S} (P : list cop -> S -> Prop) (f : cop -> S -> cres * S) :
  (forall done o s, P done s -> P (done ++ [o]) (f o s).2) ->
  forall os done s, P done s -> P (done ++ os) (run_ops f os s).2.
Proof.
  intros Hstep os. induction os as [|o os IH]; intros before s Hs; simpl; [by rewrite app_nil_r|].
  specialize (Hstep before o s Hs). destruct (f o s) as [r s1]. specialize (IH (before ++ [o]) s1 Hstep).
  destruct (run_ops f os s1). rewrite <- app_assoc in IH. done.
Qed.

Definition is_close (o : cop) : bool := match o with CClose | CCloseWithError _ => true | _ => false end.
Definition close_error (o : cop) : option string := match o with CCloseWithError e => e | _ => None end.
(** The first close among the calls. *)
Definition first_close (os : list cop) : option cop := find is_close os.
Lemma first_close_snoc os o : first_close (os ++ [o]) =
  match first_close os with Some o' => Some o' | None => if is_close o then Some o else None end.
Proof. induction os as [|o' os IH]; simpl; [done|]. by destruct (is_close o'). Qed.


(** Both wrappers, seen as the promised connection. *)
Definition notify_view {S} (cc : CloseNotifyConn S) (t : S * bool) : Prop := t = (cl_Conn cc, cl_closeFlag cc).
Definition stats_view {S} (sc : StatsConn S) (t : S * bool) : Prop := t = (st_Conn sc, st_closed sc).
Ltac conn_cases :=
  repeat match goal with
  | |- context [c_Read ?c ?n ?s] => destruct (c_Read c n s) as [[]]
  | |- context [c_Write ?c ?n ?s] => destruct (c_Write c n s) as [[]]
  | |- context [c_Close ?c ?s] => destruct (c_Close c s)
  | |- context [cl_closeFlag ?c] => is_var c; destruct (cl_closeFlag c) eqn:?
  | |- context [st_closed ?c] => is_var c; destruct (st_closed c) eqn:?
  end.
Lemma notify_step {S} (c : Conn S) o cc t : notify_view cc t ->
  (closenotify_op c o cc).1 = (close_once c o t).1 /\ notify_view (closenotify_op c o cc).2 (close_once c o t).2.
Proof. intros ->. destruct o; simpl; unfold CloseWithError, conn_op, notify_view; simpl; conn_cases; (split; simpl; [done|congruence]). Qed.
Lemma stats_step {S} (c : Conn S) o sc t : stats_view sc t ->
  (stats_op c o sc).1 = (close_once c o t).1 /\ stats_view (stats_op c o sc).2 (close_once c o t).2.
Proof.
  intros ->. destruct o; simpl; unfold stats_Read, stats_Write, stats_Close, conn_op, stats_view; simpl; conn_cases; (split; simpl; [done|congruence]).
Qed.

(** The callback of a [CloseNotifyConn] after the calls [os]. *)
Definition notify_calls (fn : bool) (os : list cop) : list (option string) :=
  if fn then match first_close os with Some o => [close_error o] | None => [] end else [].
Definition notify_inv {S} (fn : bool) (os : list cop) (cc : CloseNotifyConn S) : Prop :=
  cl_closeFn cc = fn /\ cl_closeFlag cc = bool_decide (is_Some (first_close os)) /\ cl_called cc = notify_calls fn os.
Lemma notify_inv_step {S} (c : Conn S) fn os o cc : notify_inv fn os cc -> notify_inv fn (os ++ [o]) (closenotify_op c o cc).2.
Proof.
  intros (Hfn & Hflag & Hcalled). unfold notify_inv, notify_calls in *. rewrite first_close_snoc.
  destruct o; simpl; unfold CloseWithError; conn_cases; simpl; destruct (first_close os); simpl in *; try done;
    rewrite Hcalled, Hfn; by destruct fn.
Qed.
(** A [CloseNotifyConn] gives its user the results of the promised connection and leaves the
    wrapped one in its state; its callback has been called once, with nil or the error of
    the first close, when somebody has closed it, and not otherwise. *)
Theorem close_notify_refines {S} (c : Conn S) os s fn :
  let r := run_ops (closenotify_op c) os (WrapCloseNotifyConn s fn) in
  let spec := run_ops (close_once c) os (s, false) in
  r.1 = spec.1 /\ (cl_Conn r.2, cl_closeFlag r.2) = spec.2 /\ cl_called r.2 = notify_calls fn os.
Proof.
  simpl. destruct (run_ops_simulation notify_view (closenotify_op c) (close_once c) (notify_step c) os
    (WrapCloseNotifyConn s fn) (s, false) eq_refl) as [H1 H2].
  split; [done|]. split; [done|].
  apply (run_ops_invariant (notify_inv fn) (closenotify_op c) (notify_inv_step c fn) os []). by destruct fn.
Qed.


(** The callback of a [StatsConn]: the bytes read and the counts of the writes before the
    first close, once, when somebody closed it. *)
Definition count_read (r : cres) : option Z := match r with RRead d _ => Some (Z.of_nat (length d)) | _ => None end.
Definition count_write (r : cres) : option Z := match r with RWrite n _ => Some n | _ => None end.
Definition total (t0 : Z) (f : cres -> option Z) (rs : list cres) : Z := fold_left (fun t n => wrap64 (t + n)) (omap f rs) t0.
Fixpoint before_close (os : list cop) (rs : list cres) : option (list cres) :=
  match os, rs with
  | o :: os, r :: rs => if is_close o then Some [] else (cons r) <$> before_close os rs
  | _, _ => None
  end.
Definition stats_calls (fn : bool) (os : list cop) (rs : list cres) : list (Z * Z) :=
  if fn then match before_close os rs with Some l => [(total 0 count_read l, total 0 count_write l)] | None => [] end else [].
Lemma stats_run_closed {S} (c : Conn S) os sc : st_closed sc = true ->
  st_called (run_ops (stats_op c) os sc).2 = st_called sc.
Proof.
  revert sc. induction os as [|o os IH]; intros sc Hc; [done|]. simpl.
  destruct (stats_op c o sc) as [r sc1] eqn:E. specialize (IH sc1). destruct (run_ops (stats_op c) os sc1). simpl in *.
  destruct o; simpl in E; unfold stats_Read, stats_Write, stats_Close in E; rewrite ?Hc in E;
    repeat match type of E with context [c_Read ?a ?b ?d] => destruct (c_Read a b d) as [[]] | context [c_Write ?a ?b ?d] => destruct (c_Write a b d) as [[]] end;
    simplify_eq; by rewrite IH.
Qed.
(** The calls of a run that starts open, by what its first call does. *)
Definition calls_from {S} (sc : StatsConn S) (os : list cop) (rs : list cres) : list (Z * Z) :=
  if st_statsFunc sc then
    match before_close os rs with
    | Some l => [(total (st_totalRead sc) count_read l, total (st_totalWrite sc) count_write l)]
    | None => []
    end
  else [].
Lemma calls_from_step {S} (sc sc1 : StatsConn S) o os r rs : is_close o = false ->
  st_statsFunc sc1 = st_statsFunc sc ->
  st_totalRead sc1 = total (st_totalRead sc) count_read [r] ->
  st_totalWrite sc1 = total (st_totalWrite sc) count_write [r] ->
  calls_from sc (o :: os) (r :: rs) = calls_from sc1 os rs.
Proof.
  intros Ho Hf Hr Hw. unfold calls_from. simpl. rewrite Ho, Hf, Hr, Hw.
  destruct (st_statsFunc sc); [|done]. destruct (before_close os rs); [|done]. simpl.
  unfold total. simpl. by destruct r.
Qed.
Lemma stats_op_data {S} (c : Conn S) o sc r sc1 : is_close o = false -> stats_op c o sc = (r, sc1) ->
  st_closed sc1 = st_closed sc /\ st_called sc1 = st_called sc /\ st_statsFunc sc1 = st_statsFunc sc /\
  st_totalRead sc1 = total (st_totalRead sc) count_read [r] /\
  st_totalWrite sc1 = total (st_totalWrite sc) count_write [r].
Proof.
  intros Ho. destruct o; try done; simpl; unfold stats_Read, stats_Write.
  - destruct (c_Read _ _ _) as [[]]. by intros [= <- <-].
  - destruct (c_Write _ _ _) as [[]]. by intros [= <- <-].
Qed.
Lemma stats_run_calls {S} (c : Conn S) os sc : st_closed sc = false ->
  let r := run_ops (stats_op c) os sc in st_called r.2 = st_called sc ++ calls_from sc os r.1.
Proof.
  revert sc. induction os as [|o os IH]; intros sc Hc.
  { simpl. unfold calls_from. by destruct (st_statsFunc sc); rewrite app_nil_r. }
  cbn [run_ops]. destruct (stats_op c o sc) as [r sc1] eqn:E. pose proof (IH sc1) as IH1.
  pose proof (stats_run_closed c os sc1) as Hclosed. destruct (run_ops (stats_op c) os sc1) as [rs sc2]. cbn [fst snd] in *.
  destruct (is_close o) eqn:Ho.
  - assert (E' : (let '(e, s) := stats_Close c sc in (RClose e, s)) = (r, sc1)) by (by destruct o).
    unfold stats_Close in E'. rewrite Hc in E'. destruct (c_Close c (st_Conn sc)) as [e s]. simplify_eq.
    rewrite Hclosed by done. unfold calls_from. simpl. by rewrite Ho.
  - destruct (stats_op_data c o sc r sc1 Ho E) as (H1 & H2 & H3 & H4 & H5).
    rewrite (calls_from_step sc sc1) by done. rewrite IH1, H2; [done|congruence].
Qed.
(** A [StatsConn] gives its user the results of the promised connection and leaves the
    wrapped one in its state; its callback is told once what was read and written before
    the first close. *)
Theorem stats_refines {S} (c : Conn S) os s fn :
  let r := run_ops (stats_op c) os (WrapStatsConn s fn) in
  let spec := run_ops (close_once c) os (s, false) in
  r.1 = spec.1 /\ (st_Conn r.2, st_closed r.2) = spec.2 /\ st_called r.2 = stats_calls fn os r.1.
Proof.
  simpl. destruct (run_ops_simulation stats_view (stats_op c) (close_once c) (stats_step c) os
    (WrapStatsConn s fn) (s, false) eq_refl) as [H1 H2].
  split; [done|]. split; [done|]. by rewrite stats_run_calls.
Qed.
(** The totals do not wrap while what was counted fits. *)
Lemma total_exact f rs t0 : 0 <= t0 -> Forall (fun n => 0 <= n) (omap f rs) ->
  t0 + fold_right Z.add 0 (omap f rs) <= MaxInt64 -> total t0 f rs = t0 + fold_right Z.add 0 (omap f rs).
Proof.
  unfold total. generalize (omap f rs) as l. intros l Ht Hl. revert t0 Ht. induction Hl as [|n l Hn Hl IH]; intros t0 Ht Hb; simpl in *; [lia|].
  assert (0 <= fold_right Z.add 0 l) by (clear -Hl; induction Hl; simpl; lia).
  rewrite wrap64_id by (unfold in_int64, MinInt64, MaxInt64 in *; lia). rewrite IH by lia. lia.
Qed.

(** ** Addresses *)
(** A wrapped stream has the addresses of what is under it, unless another remote address
    was set; without one it has the nil address and no deadlines. *)
Theorem wrap_addresses {R S} (c : Conn S) (w : WrapReadWriteCloserConn R S) a :
  wrap_RemoteAddr c (wrap_SetRemoteAddr (Some a) w) = a /\
  wrap_LocalAddr c (wrap_SetRemoteAddr (Some a) w) = wrap_LocalAddr c w /\
  wrap_RemoteAddr c (wrap_SetRemoteAddr None w) =
    match wr_underConn w with Some s => c_RemoteAddr c s | None => NilTCPAddr end /\
  forall k t, wr_underConn w = None -> wrap_SetDeadline c k t w = (Some deadline_unsupported, w).
Proof. split_and!; try done. intros k t H. unfold wrap_SetDeadline. by rewrite H. Qed.
