(* ===== verification/ServerListen.v ===== *)
(** * The server's listeners: [server/service.go], [pkg/transport/tls.go], [pkg/util/net/tls.go]

    How [frps] starts, accepts and stops: the TLS configurations of both sides, the choice
    between TLS and plain by the first byte of a connection, the loop of [HandleListener]
    with its multiplexed streams, [NewService], and [Run] with [Close] as a step relation.
    What happens on a connection after that is in [ServerConn].  Certificates, TLS and the
    multiplexers are libraries: a class and the outcomes of calls. *)
From S2P Require Import Prelude GoStd ConfigV1 Decode Auth Wire Msg Connector.
From stdpp Require Import list.
Local Open Scope Z_scope.

(** ** TLS configurations *)
(** [x509.Certificate] as far as the code sets it. *)
Record x509_template := mkTemplate { tp_SerialNumber : Z; tp_NotBefore : Z; tp_NotAfter : Z }.
Class TLSLib := {
  Certificate : Type;
  CertPool : Type;
  RSAKey : Type;
  LoadX509KeyPair : string -> string -> result Certificate;
  CreateCertificate : x509_template -> RSAKey -> result (list byte);
  MarshalPKCS1PrivateKey : RSAKey -> list byte;
  PemEncode : string -> list byte -> list byte;
  X509KeyPair : list byte -> list byte -> result Certificate;
  AppendCertsFromPEM : string -> option CertPool;    (* [None]: nothing was appended *)
}.
Inductive ClientAuthType : Type := NoClientCert | RequireAndVerifyClientCert.

Section tls.
Context `{OS} `{TLSLib}.

(** [tls.Config] as far as the code sets it. *)
Record tlsConfig := mkTlsConf {
  tl_Certificates : list Certificate;
  tl_ClientAuth : ClientAuthType;
  tl_ClientCAs : option CertPool;
  tl_ServerName : string;
  tl_RootCAs : option CertPool;
  tl_InsecureSkipVerify : bool;
}.

Definition newCustomTLSKeyPair (certfile keyfile : string) : result Certificate := LoadX509KeyPair certfile keyfile.
(** [serial] is the result of [rand.Int] below 2^128. *)
Definition random_template (now serial : Z) : x509_template :=
  mkTemplate (if decide (serial = 0) then 1 else serial) (now - 3600 * Second) (now + 365 * 24 * 3600 * Second * 10).
Definition newRandomTLSKeyPair (now : Z) (key : result RSAKey) (serial : result Z) : result Certificate :=
  key ≫= λ key, serial ≫= λ serial,
  CreateCertificate (random_template now serial) key ≫= λ der,
  X509KeyPair (PemEncode "CERTIFICATE" der) (PemEncode "RSA PRIVATE KEY" (MarshalPKCS1PrivateKey key)).
Definition NewRandomPrivateKey (key : result RSAKey) : result (list byte) :=
  key ≫= λ key, Ok (PemEncode "RSA PRIVATE KEY" (MarshalPKCS1PrivateKey key)).
Definition newCertPool (caPath : string) : result CertPool :=
  ReadFile caPath ≫= λ caCrt,
  match AppendCertsFromPEM caCrt with
  | Some pool => Ok pool
  | None => Err ("failed to parse CA certificate from file " +:+ squoted caPath +:+ ": no valid PEM certificates found")
  end.
(** [random] is [newRandomTLSKeyPair ()]. *)
Definition NewServerTLSConfig (random : result Certificate) (certPath keyPath caPath : string) : result tlsConfig :=
  (if decide (certPath = "" \/ keyPath = "") then random else newCustomTLSKeyPair certPath keyPath) ≫= λ cert,
  if decide (caPath = "") then Ok (mkTlsConf [cert] NoClientCert None "" None false)
  else newCertPool caPath ≫= λ pool, Ok (mkTlsConf [cert] RequireAndVerifyClientCert (Some pool) "" None false).
Definition NewClientTLSConfig (certPath keyPath caPath serverName : string) : result tlsConfig :=
  (if decide (certPath ≠ "" /\ keyPath ≠ "")
   then newCustomTLSKeyPair certPath keyPath ≫= λ cert, Ok [cert] else Ok []) ≫= λ certs,
  if decide (caPath = "") then Ok (mkTlsConf certs NoClientCert None serverName None true)
  else newCertPool caPath ≫= λ pool, Ok (mkTlsConf certs NoClientCert None serverName (Some pool) false).
End tls.

(** ** TLS or plain *)
Definition FRPTLSHeadByte : byte := x17.
Definition tls_record_byte : byte := x16.
(** What the server reads from: TLS over the bytes, or the bytes themselves. *)
Inductive served : Type := TLSOver (s : list byte) | PlainOver (s : list byte).
(** [CheckAndEnableTLSServerConnWithTimeout] on a connection whose peer sends [s]; [e] is the
    error of the read when nothing comes: the deadline, or the end of the connection.  The
    first byte is read through a shared connection, which keeps it; of a custom one only
    what follows is used.  The flags are [isTLS] and [custom]. *)
Definition CheckAndEnableTLSServerConnWithTimeout (s : list byte) (e : string) (tlsOnly : bool)
    : result (served * bool * bool) :=
  match s with
  | [] => Err e
  | b :: rest =>
      if Byte.eqb b FRPTLSHeadByte then Ok (TLSOver rest, true, true)
      else if Byte.eqb b tls_record_byte then Ok (TLSOver s, true, false)
      else if tlsOnly then Err "non-TLS connection received on a TlsOnly server"
      else Ok (PlainOver s, false, false)
  end.
(** The match function of [tlsListener] on the first byte. *)
Definition tls_listener_match (b : byte) : bool := Byte.eqb b FRPTLSHeadByte || Byte.eqb b tls_record_byte.
(** The client's side: the bytes a dialed connection starts with, [tls] being what its TLS
    layer sends and [plain] what it sends without one. *)
Definition dialed_bytes (o : dial_options) (tls plain : list byte) : list byte :=
  match do_tls o with
  | Some _ => (if do_headByte o then [FRPTLSHeadByte] else []) ++ tls
  | None => plain
  end.

(** ** [HandleListener] *)
(** An accepted connection: its first bytes, the error of reading none, and, of the
    multiplexer's server, its error or the number of streams it accepts before it ends. *)
Record incoming := mkIncoming { in_bytes : list byte; in_error : string; in_mux : result nat }.
(** Effects of the [c]-th connection: closed because of its first byte or by a failed
    multiplexer, one of its streams or itself given to [handleConnection], its session
    closed; the loop ended. *)
Inductive heffect : Type :=
| HRefused (c : nat)
| HMuxFailed (c : nat)
| HStream (c i : nat) (s : served)
| HSessionClosed (c : nat)
| HConn (c : nat) (s : served)
| HEnded.
(** The goroutine of one connection. *)
Definition serve_conn (tcpMux : bool) (c : nat) (s : served) (mux : result nat) : list heffect :=
  if tcpMux then
    match mux with
    | Err _ => [HMuxFailed c]
    | Ok n => ((fun i => HStream c i s) <$> seq 0 n) ++ [HSessionClosed c]
    end
  else [HConn c s].
(** One round of the loop after [Accept]. *)
Definition handle_accepted (cfg : ServerConfig) (c : nat) (x : incoming) : list heffect :=
  match CheckAndEnableTLSServerConnWithTimeout (in_bytes x) (in_error x) (ts_Force (st_TLS (sc_Transport cfg))) with
  | Err _ => [HRefused c]
  | Ok (s, _, _) => serve_conn (from_ptr (st_TCPMux (sc_Transport cfg))) c s (in_mux x)
  end.
(** The loop over what [Accept] returns, from the [c]-th connection on; the goroutines of
    the connections are run in their order. *)
Fixpoint HandleListener (cfg : ServerConfig) (c : nat) (accepts : list (result incoming)) : list heffect :=
  match accepts with
  | [] => []
  | Err _ :: _ => [HEnded]
  | Ok x :: accepts => handle_accepted cfg c x ++ HandleListener cfg (S c) accepts
  end.

(** ** [NewService] *)
(** The listeners it opens: the address it listens on with the keep-alive, and the two
    listeners of the multiplexer. *)
Inductive neffect : Type :=
| NListen (address : string)
| NServe (keepAlive : Z)
| NDefaultListener
| NTLSListener.
Section service.
Context `{OS} `{TLSLib}.
Record Service := mkNewService { ns_tlsConfig : tlsConfig; ns_auth : ServerAuth; ns_cfg : ServerConfig }.
(** [random] is a new key pair, [listen] the error of [net.Listen].  [NewController] of the
    hole controller never fails. *)
Definition NewService (random : result Certificate) (listen : option string) (cfg : ServerConfig)
    : result Service * list neffect :=
  let t := ts_TLSConfig (st_TLS (sc_Transport cfg)) in
  match NewServerTLSConfig random (tls_CertFile t) (tls_KeyFile t) (tls_TrustedCaFile t) with
  | Err e => (Err e, [])
  | Ok tls =>
      match BuildServerAuth (Some (sc_Auth cfg)) with
      | Err e => (Err e, [])
      | Ok auth =>
          match listen with
          | Some e => (Err ("create server listener error, " +:+ e), [])
          | None =>
              (Ok (mkNewService tls auth cfg),
               [NListen (JoinHostPort (sc_BindAddr cfg) (Itoa (sc_BindPort cfg)));
                NServe (seconds (st_TCPKeepAlive (sc_Transport cfg))); NDefaultListener; NTLSListener])
          end
      end
  end.
End service.

(** ** [Run] and [Close] *)
Inductive run_phase : Type := SNotRun | SAccepting | SWaiting | SReturned.
(** [sr_cancelled] is the context of [Run], [sr_cancel] whether [svr.cancel] is set. *)
Record srv := mkSrv {
  sr_run : run_phase;
  sr_cancel : bool;
  sr_cancelled : bool;
  sr_tls_open : bool;
  sr_open : bool;
  sr_muxer_open : bool;
  sr_manager_open : bool;
}.
Definition service_start : srv := mkSrv SNotRun false false true true true true.
Definition set_run (r : run_phase) (s : srv) : srv :=
  mkSrv r (sr_cancel s) (sr_cancelled s) (sr_tls_open s) (sr_open s) (sr_muxer_open s) (sr_manager_open s).
Definition cancel_context (s : srv) : srv :=
  mkSrv (sr_run s) (sr_cancel s) true (sr_tls_open s) (sr_open s) (sr_muxer_open s) (sr_manager_open s).
(** [Close]; the resource controller has nothing to close. *)
Definition Service_Close (s : srv) : srv :=
  mkSrv (sr_run s) (sr_cancel s) (sr_cancelled s || sr_cancel s) false false false false.
Inductive sevent : Type :=
| SRun                 (* [Run] is called: its context, the goroutine of the TLS listener *)
| SAcceptFails         (* [HandleListener] of the listener returns *)
| SContextDone         (* [Run] sees its context done, closes and returns *)
| SCloseCall           (* somebody calls [Close] *)
| SParentCancelled.    (* the context given to [Run] is cancelled *)
Definition sstep (s : srv) (e : sevent) : option srv :=
  match e with
  | SRun =>
      match sr_run s with
      | SNotRun => Some (mkSrv SAccepting true (sr_cancelled s) (sr_tls_open s) (sr_open s) (sr_muxer_open s) (sr_manager_open s))
      | _ => None
      end
  | SAcceptFails =>
      match sr_run s with
      | SAccepting => if sr_open s then None else Some (set_run SWaiting s)
      | _ => None
      end
  | SContextDone =>
      match sr_run s with
      | SWaiting => if sr_cancelled s then Some (set_run SReturned (Service_Close s)) else None
      | _ => None
      end
  | SCloseCall => Some (Service_Close s)
  | SParentCancelled => Some (cancel_context s)
  end.
Fixpoint srun (s : srv) (es : list sevent) : option srv :=
  match es with [] => Some s | e :: es => s1 ← sstep s e; srun s1 es end.

(** ** Theorems *)
#[local] Arguments CheckAndEnableTLSServerConnWithTimeout : simpl never.
Definition tls_start (b : byte) : Prop := b = FRPTLSHeadByte \/ b = tls_record_byte.
Lemma check_head b s e only : CheckAndEnableTLSServerConnWithTimeout (b :: s) e only =
  if decide (b = FRPTLSHeadByte) then Ok (TLSOver s, true, true)
  else if decide (b = tls_record_byte) then Ok (TLSOver (b :: s), true, false)
  else if only then Err "non-TLS connection received on a TlsOnly server" else Ok (PlainOver (b :: s), false, false).
Proof.
  unfold CheckAndEnableTLSServerConnWithTimeout.
  assert (Heq : forall x, Byte.eqb b x = bool_decide (b = x)).
  { intros x. case_bool_decide as Hb; [subst; by apply Byte.byte_dec_lb|].
    destruct (Byte.eqb b x) eqn:E; [|done]. by apply Byte.byte_dec_bl in E. }
  by rewrite !Heq; repeat case_bool_decide; repeat case_decide.
Qed.

(** C39. Client and server agree on TLS by the first byte: with TLS enabled, with or without the
    custom head byte, the server runs TLS over exactly what the client's TLS layer sends,
    whose first byte is that of a handshake record; without it, it uses exactly the client's
    bytes, or refuses them when it forces TLS; and the connection comes from the TLS listener
    of the multiplexer just when it is TLS. *)
Theorem tls_choice_meets cfg proxy tls plain b e only :
  head tls = Some tls_record_byte -> head plain = Some b -> ~ tls_start b ->
  let o := real_options cfg proxy in
  let bytes := dialed_bytes o tls plain in
  CheckAndEnableTLSServerConnWithTimeout bytes e only =
    (if from_ptr (tc_Enable (ct_TLS (cc_Transport cfg)))
     then Ok (TLSOver tls, true, negb (from_ptr (tc_DisableCustomTLSFirstByte (ct_TLS (cc_Transport cfg)))))
     else if only then Err "non-TLS connection received on a TlsOnly server"
     else Ok (PlainOver plain, false, false)) /\
  (tls_listener_match <$> head bytes) = Some (from_ptr (tc_Enable (ct_TLS (cc_Transport cfg)))).
Proof.
  intros Htls Hplain Hb. cbn zeta. unfold real_options, dialed_bytes, head_byte. simpl.
  destruct tls as [|t tls]; simplify_eq/=. destruct plain as [|p plain]; simplify_eq/=.
  destruct (from_ptr (tc_Enable _)); simpl.
  - by destruct (from_ptr (tc_DisableCustomTLSFirstByte _)); split.
  - rewrite check_head. rewrite !decide_False by (intros ->; apply Hb; unfold tls_start; auto). split; [done|].
    f_equal. unfold tls_listener_match. apply orb_false_iff. split; apply not_true_is_false;
      intros E%Byte.byte_dec_bl; apply Hb; unfold tls_start; auto.
Qed.

(** A client with TLS and without the custom first byte. *)
Definition example_transport : ClientTransportConfig :=
  mkClientTransportConfig "tcp" "v2" 0 0 "" "" 0 None 0 zero_QUICOptions 0 0 (mkTLSClientConfig (Some true) (Some true) zero_TLSConfig).
Definition example_client : ClientCommonConfig :=
  mkClientCommonConfig "" zero_AuthClientConfig "" "" "example.com" 7000 "" "" None [] zero_LogConfig example_transport ∅ [] "".
Lemma tls_choice_meets_witness :
  CheckAndEnableTLSServerConnWithTimeout (dialed_bytes (real_options example_client ("", "", "")) [x16; x03; x01] MagicV2) "EOF" true =
  Ok (TLSOver [x16; x03; x01], true, false).
Proof.
  refine (proj1 (tls_choice_meets example_client ("", "", "") [x16; x03; x01] MagicV2 x46 "EOF" true eq_refl eq_refl _)).
  by intros [].
Defined.

(** ** What is handled *)
Definition handled (e : heffect) : option served :=
  match e with HStream _ _ s | HConn _ s => Some s | _ => None end.
Definition is_tls (s : served) : Prop := match s with TLSOver _ => True | PlainOver _ => False end.
Lemma handle_accepted_served cfg c x e s : e ∈ handle_accepted cfg c x -> handled e = Some s ->
  exists tls custom, CheckAndEnableTLSServerConnWithTimeout (in_bytes x) (in_error x) (ts_Force (st_TLS (sc_Transport cfg))) = Ok (s, tls, custom).
Proof.
  unfold handle_accepted. destruct (CheckAndEnableTLSServerConnWithTimeout _ _ _) as [[[s' tls] custom]|err].
  - unfold serve_conn. intros He Hs. exists tls, custom. do 3 f_equal. destruct (from_ptr _); [destruct (in_mux x) as [n|]|].
    + apply elem_of_app in He as [(i & -> & _)%list_elem_of_fmap| ->%list_elem_of_singleton]; simpl in Hs; congruence.
    + apply list_elem_of_singleton in He as ->. done.
    + apply list_elem_of_singleton in He as ->. simpl in Hs. congruence.
  - intros ->%list_elem_of_singleton. done.
Qed.
(** Nothing that happens on a connection ends the loop: it runs to the first error of
    [Accept], and treats each connection before it as it would alone. *)
Theorem listener_isolates cfg c xs e rest :
  HandleListener cfg c ((Ok <$> xs) ++ Err e :: rest) =
  concat (imap (fun i x => handle_accepted cfg (c + i) x) xs) ++ [HEnded].
Proof.
  revert c. induction xs as [|x xs IH]; intros c; [done|]. simpl. rewrite IH, Nat.add_0_r, app_assoc. do 3 f_equal.
  apply imap_ext. intros i y _. simpl. f_equal. lia.
Qed.
Lemma handled_forced cfg accepts c e s : ts_Force (st_TLS (sc_Transport cfg)) = true ->
  e ∈ HandleListener cfg c accepts -> handled e = Some s -> is_tls s.
Proof.
  intros Hf. revert c. induction accepts as [|[x|err] accepts IH]; intros c; simpl.
  - by intros ?%not_elem_of_nil.
  - intros [He|He]%elem_of_app Hs; [|eauto]. destruct (handle_accepted_served _ _ _ _ _ He Hs) as (tls & custom & Hc).
    rewrite Hf in Hc. unfold CheckAndEnableTLSServerConnWithTimeout in Hc. destruct (in_bytes x); [done|].
    destruct (Byte.eqb _ _); [by simplify_eq|]. destruct (Byte.eqb _ _); by simplify_eq.
  - intros ->%list_elem_of_singleton. done.
Qed.
Section trusted.
Context `{OS} `{TLSLib}.
Lemma NewServerTLSConfig_ca random cert key ca tls : NewServerTLSConfig random cert key ca = Ok tls ->
  if decide (ca = "") then tl_ClientAuth tls = NoClientCert /\ tl_ClientCAs tls = None
  else tl_ClientAuth tls = RequireAndVerifyClientCert /\ exists pool, newCertPool ca = Ok pool /\ tl_ClientCAs tls = Some pool.
Proof.
  unfold NewServerTLSConfig. intros Hc. destruct (decide (cert = "" \/ _)); simpl in Hc;
    [destruct random|destruct (newCustomTLSKeyPair _ _)]; simpl in Hc; try done;
    (destruct (decide (ca = "")); [by simplify_eq|]; destruct (newCertPool ca) as [pool|]; simpl in Hc; simplify_eq; eauto).
Qed.
(** C13. A server whose completed configuration names a trusted CA checks every client: its TLS
    wants a certificate verified against the CA's pool, and no connection and no stream is
    handled that is not TLS, whatever the listeners accept. *)
Theorem trusted_ca_enforced c cfg random listen svc eff :
  ServerConfig_Complete c = Ok cfg ->
  tls_TrustedCaFile (ts_TLSConfig (st_TLS (sc_Transport c))) ≠ "" ->
  NewService random listen cfg = (Ok svc, eff) ->
  (tl_ClientAuth (ns_tlsConfig svc) = RequireAndVerifyClientCert /\
   exists pool, newCertPool (tls_TrustedCaFile (ts_TLSConfig (st_TLS (sc_Transport c)))) = Ok pool /\
     tl_ClientCAs (ns_tlsConfig svc) = Some pool) /\
  forall n accepts e s, e ∈ HandleListener cfg n accepts -> handled e = Some s -> is_tls s.
Proof.
  intros Hc Hca Hnew.
  assert (Htls : st_TLS (sc_Transport cfg) = mkTLSServerConfig true (ts_TLSConfig (st_TLS (sc_Transport c)))).
  { unfold ServerConfig_Complete in Hc. destruct (AuthServerConfig_Complete _); simpl in Hc; [|done]. simplify_eq. simpl.
    by rewrite bool_decide_false. }
  split; [|intros n accepts e s; apply handled_forced; by rewrite Htls].
  unfold NewService in Hnew. rewrite Htls in Hnew. simpl in Hnew.
  destruct (NewServerTLSConfig _ _ _ _) as [tls|] eqn:E; [|done]. apply NewServerTLSConfig_ca in E.
  rewrite decide_False in E by done. destruct (resolve_token _ _ _); simpl in Hnew; [|done]. destruct listen; [done|]. by simplify_eq.
Qed.
(** A client verifies the server just when it trusts a CA. *)
Theorem client_verifies cert key ca name tls : NewClientTLSConfig cert key ca name = Ok tls ->
  tl_ServerName tls = name /\ (tl_InsecureSkipVerify tls = false <-> ca ≠ "") /\ (is_Some (tl_RootCAs tls) <-> ca ≠ "").
Proof.
  unfold NewClientTLSConfig. intros Hc.
  destruct (if decide _ then _ else _) as [certs|]; simpl in Hc; [|done].
  destruct (decide (ca = "")) as [->|Hca]; [simplify_eq; simpl; split_and!; try done; by split; [intros []|]|].
  destruct (newCertPool ca) as [pool|]; simpl in Hc; [|done]. simplify_eq. simpl. by split_and!; try (split; eauto).
Qed.
(** The serial number of a generated certificate is positive. *)
Theorem random_serial_positive now serial : 0 <= serial -> 0 < tp_SerialNumber (random_template now serial).
Proof. intros ?. unfold random_template. simpl. case_decide; lia. Qed.
End trusted.

(** A library in which a certificate is the name of its file, and a file its own name. *)
Definition example_os : OS :=
  {| ReadFile f := Ok f; CommandOutput _ _ _ := Err "no command"; Getenv _ := ""; Environ := [] |}.
Definition example_tls : TLSLib :=
  {| Certificate := string; CertPool := string; RSAKey := unit; LoadX509KeyPair c _ := Ok c;
     CreateCertificate _ _ := Ok []; MarshalPKCS1PrivateKey _ := []; PemEncode _ d := d; X509KeyPair _ _ := Ok "random";
     AppendCertsFromPEM f := Some f |}.
Definition example_server : ServerConfig :=
  mkServerConfig "" zero_AuthServerConfig "" 0 zero_LogConfig
    (mkServerTransportConfig None 0 0 0 0 zero_QUICOptions (mkTLSServerConfig false (mkTLSConfig "" "" "ca.pem" ""))) None 0 0.
Lemma trusted_ca_enforced_witness : exists cfg svc eff,
  @ServerConfig_Complete example_server = Ok cfg /\
  @NewService example_os example_tls (Ok "random") None cfg = (Ok svc, eff) /\
  tl_ClientCAs (ns_tlsConfig svc) = Some "ca.pem" /\
  HandleListener cfg 0 [Ok (mkIncoming [x16] "EOF" (Ok 2%nat)); Ok (mkIncoming [x6f] "EOF" (Ok 1%nat)); Err "closed"] =
    [HStream 0 0 (TLSOver [x16]); HStream 0 1 (TLSOver [x16]); HSessionClosed 0; HRefused 1; HEnded] /\
  forall n accepts e s, e ∈ HandleListener cfg n accepts -> handled e = Some s -> is_tls s.
Proof.
  eexists _, _, _. split; [vm_compute; reflexivity|]. split; [vm_compute; reflexivity|].
  split; [vm_compute; reflexivity|]. split; [vm_compute; reflexivity|].
  refine (proj2 (@trusted_ca_enforced example_os example_tls example_server _ (Ok "random") None _ _ _ _ _));
    [vm_compute; reflexivity|by vm_compute|vm_compute; reflexivity].
Defined.

(** ** Stopping *)
(** Cancelling the context given to [Run] does not stop it: while nobody calls [Close], it
    stays in its listener's loop. *)
Theorem run_ignores_cancel es s : srun service_start (SRun :: es) = Some s -> SCloseCall ∉ es ->
  sr_run s = SAccepting /\ sr_open s = true.
Proof.
  cbn [srun sstep service_start sr_run]. simpl. set (s0 := mkSrv _ _ _ _ _ _ _). intros Hr Hn.
  assert (H0 : sr_run s0 = SAccepting /\ sr_open s0 = true) by done. clearbody s0.
  revert s0 H0 Hr. induction es as [|e es IH]; intros s0 [H1 H2]; simpl; [by intros [= <-]|].
  apply not_elem_of_cons in Hn as [Hne Hn]. destruct e; simpl; rewrite ?H1, ?H2; simpl; try done.
  intros Hr. by apply (IH Hn) in Hr.
Qed.
(** After a [Close] during [Run], two steps end it with everything closed. *)
Theorem close_ends_run s : sr_run s = SAccepting -> sr_cancel s = true ->
  exists s', srun s [SCloseCall; SAcceptFails; SContextDone] = Some s' /\ sr_run s' = SReturned /\
    sr_open s' = false /\ sr_tls_open s' = false /\ sr_muxer_open s' = false /\ sr_manager_open s' = false.
Proof. intros H1 H2. simpl. rewrite H1. simpl. rewrite H2, orb_true_r. eexists. by split. Qed.
(** A [Close] before [Run] is not seen by it: its loop ends at once, and it waits for a
    context that only the caller of [Run] can cancel. *)
Theorem close_before_run_waits es s : srun service_start (SCloseCall :: SRun :: SAcceptFails :: es) = Some s ->
  SParentCancelled ∉ es -> SCloseCall ∉ es -> sr_run s = SWaiting.
Proof.
  simpl. set (s0 := set_run _ _). intros Hr Hn Hn2.
  assert (H0 : sr_run s0 = SWaiting /\ sr_cancelled s0 = false) by done. clearbody s0.
  revert s0 H0 Hr. induction es as [|e es IH]; intros s0 [H1 H2]; simpl; [by intros [= <-]|].
  apply not_elem_of_cons in Hn as [? Hn]. apply not_elem_of_cons in Hn2 as [? Hn2].
  destruct e; simpl; rewrite ?H1, ?H2; simpl; try done.
Qed.
