(* ===== verification/Flags.v ===== *)
(** * Command-line flags: [pkg/config/flags.go] and the flags of [cmd/frpc/sub] and [cmd/frps]

    The tables of flags that the commands register, each with its name, its letter, its
    default and the field it is bound to.  Reading the command line is the library's
    (pflag): what it hands over is a list of names with typed values, in order, its names
    compared after [WordSepNormalizeFunc].  The flags of a command end in a configuration;
    the program's own flags are in [root_flags]. *)
From S2P Require Import Prelude GoStd ConfigV1 Decode Validation.
From Stdlib Require Import Ascii.
From stdpp Require Import gmap list strings.
Local Open Scope Z_scope.

(** ** Names *)
Fixpoint replace_underscores (s : string) : string :=
  match s with
  | EmptyString => EmptyString
  | String c s => String (if Ascii.eqb c "_" then "-"%char else c) (replace_underscores s)
  end.
Fixpoint contains_underscore (s : string) : bool :=
  match s with EmptyString => false | String c s => Ascii.eqb c "_" || contains_underscore s end.
Definition WordSepNormalizeFunc (name : string) : string :=
  if contains_underscore name then replace_underscores name else name.

(** ** Flags *)
Inductive fvalue : Type :=
| VString (s : string) | VInt (n : Z) | VBool (b : bool) | VStrings (l : list string) | VMap (m : gmap string string).
(** A flag bound to a field of [T]: its default, a setter that refuses a value of another
    type, and whether it is inherited by the commands below. *)
Record flag (T : Type) := mkFlag {
  fg_name : string;
  fg_short : string;
  fg_persistent : bool;
  fg_default : fvalue;
  fg_set : fvalue -> T -> option T;
}.
Arguments mkFlag {T}. Arguments fg_name {T}. Arguments fg_short {T}. Arguments fg_persistent {T}.
Arguments fg_default {T}. Arguments fg_set {T}.
Section kinds.
Context {T : Type} (persistent : bool) (name short : string).
Definition StringVarP (d : string) (set : string -> T -> T) : flag T :=
  mkFlag name short persistent (VString d) (fun v x => match v with VString s => Some (set s x) | _ => None end).
Definition IntVarP (d : Z) (set : Z -> T -> T) : flag T :=
  mkFlag name short persistent (VInt d) (fun v x => match v with VInt n => Some (set n x) | _ => None end).
Definition BoolVarP (d : bool) (set : bool -> T -> T) : flag T :=
  mkFlag name short persistent (VBool d) (fun v x => match v with VBool b => Some (set b x) | _ => None end).
Definition StringSliceVarP (d : list string) (set : list string -> T -> T) : flag T :=
  mkFlag name short persistent (VStrings d) (fun v x => match v with VStrings l => Some (set l x) | _ => None end).
Definition StringToStringVarP (d : gmap string string) (set : gmap string string -> T -> T) : flag T :=
  mkFlag name short persistent (VMap d) (fun v x => match v with VMap m => Some (set m x) | _ => None end).
End kinds.
(** A flag's binding seen from a larger value. *)
Definition lift_flag {T U} (get : U -> T) (put : T -> U -> U) (f : flag T) : flag U :=
  mkFlag (fg_name f) (fg_short f) (fg_persistent f) (fg_default f)
    (fun v u => (fun x => put x u) <$> fg_set f v (get u)).

(** Registering a flag gives its field the default; a flag given on the command line sets
    it, the last one winning; [None] when there is no such flag or the type is wrong. *)
Definition find_flag {T} (fs : list (flag T)) (name : string) : option (flag T) :=
  find (fun f => bool_decide (WordSepNormalizeFunc (fg_name f) = WordSepNormalizeFunc name)) fs.
Definition with_defaults {T} (fs : list (flag T)) (x : T) : T :=
  foldl (fun x f => default x (fg_set f (fg_default f) x)) x fs.
Definition give {T} (fs : list (flag T)) (x : T) (g : string * fvalue) : option T :=
  f ← find_flag fs g.1; fg_set f g.2 x.
Fixpoint with_given {T} (fs : list (flag T)) (given : list (string * fvalue)) (x : T) : option T :=
  match given with
  | [] => Some x
  | g :: given => x1 ← give fs x g; with_given fs given x1
  end.
Definition parse_flags {T} (fs : list (flag T)) (given : list (string * fvalue)) (x : T) : option T :=
  with_given fs given (with_defaults fs x).

(** ** Proxies *)
Definition registerProxyBaseConfigFlags : list (flag ProxyBaseConfig) :=
  let p := false in
  [StringVarP p "proxy_name" "n" "" (fun s c => mkProxyBaseConfig s (pc_Type c) (pc_Enabled c) (pc_Annotations c)
     (pc_Transport c) (pc_Metadatas c) (pc_Backend c));
   StringToStringVarP p "metadatas" "" ∅ (fun m c => mkProxyBaseConfig (pc_Name c) (pc_Type c) (pc_Enabled c)
     (pc_Annotations c) (pc_Transport c) m (pc_Backend c));
   StringToStringVarP p "annotations" "" ∅ (fun m c => mkProxyBaseConfig (pc_Name c) (pc_Type c) (pc_Enabled c) m
     (pc_Transport c) (pc_Metadatas c) (pc_Backend c));
   StringVarP p "local_ip" "i" "127.0.0.1" (fun s c => mkProxyBaseConfig (pc_Name c) (pc_Type c) (pc_Enabled c)
     (pc_Annotations c) (pc_Transport c) (pc_Metadatas c) (mkProxyBackend s (pb_LocalPort (pc_Backend c))));
   IntVarP p "local_port" "l" 0 (fun n c => mkProxyBaseConfig (pc_Name c) (pc_Type c) (pc_Enabled c)
     (pc_Annotations c) (pc_Transport c) (pc_Metadatas c) (mkProxyBackend (pb_LocalIP (pc_Backend c)) n));
   BoolVarP p "ue" "" false (fun b c => mkProxyBaseConfig (pc_Name c) (pc_Type c) (pc_Enabled c) (pc_Annotations c)
     (mkProxyTransport b (pt_UseCompression (pc_Transport c))) (pc_Metadatas c) (pc_Backend c));
   BoolVarP p "uc" "" false (fun b c => mkProxyBaseConfig (pc_Name c) (pc_Type c) (pc_Enabled c) (pc_Annotations c)
     (mkProxyTransport (pt_UseEncryption (pc_Transport c)) b) (pc_Metadatas c) (pc_Backend c))].
Definition xtcp_flags : list (flag XTCPProxyConfig) :=
  [StringVarP false "sk" "" "" (fun s c => mkXTCPProxyConfig (xp_Base c) s (xp_AllowUsers c) (xp_NatTraversal c));
   StringSliceVarP false "allow_users" "" [] (fun l c => mkXTCPProxyConfig (xp_Base c) (xp_Secretkey c) l (xp_NatTraversal c))].
(** [RegisterProxyFlags] on the proxy that [c] holds; XTCP is the only kind. *)
Definition of_xtcp (c : ProxyConfigurer) : XTCPProxyConfig := match c with PC_XTCP x => x end.
Definition RegisterProxyFlags : list (flag ProxyConfigurer) :=
  (lift_flag (fun c => xp_Base (of_xtcp c))
     (fun b c => PC_XTCP (mkXTCPProxyConfig b (xp_Secretkey (of_xtcp c)) (xp_AllowUsers (of_xtcp c)) (xp_NatTraversal (of_xtcp c))))
     <$> registerProxyBaseConfigFlags)
  ++ (lift_flag of_xtcp (fun x _ => PC_XTCP x) <$> xtcp_flags).

(** ** Visitors *)
Definition registerVisitorBaseConfigFlags : list (flag VisitorBaseConfig) :=
  let p := false in
  let set_transport t c := mkVisitorBaseConfig (vb_Name c) (vb_Type c) (vb_Enabled c) t (vb_SecretKey c)
    (vb_ServerUser c) (vb_ServerName c) (vb_BindAddr c) (vb_BindPort c) in
  [StringVarP p "visitor_name" "n" "" (fun s c => mkVisitorBaseConfig s (vb_Type c) (vb_Enabled c) (vb_Transport c)
     (vb_SecretKey c) (vb_ServerUser c) (vb_ServerName c) (vb_BindAddr c) (vb_BindPort c));
   BoolVarP p "ue" "" false (fun b c => set_transport (mkVisitorTransport b (vt_UseCompression (vb_Transport c))) c);
   BoolVarP p "uc" "" false (fun b c => set_transport (mkVisitorTransport (vt_UseEncryption (vb_Transport c)) b) c);
   StringVarP p "sk" "" "" (fun s c => mkVisitorBaseConfig (vb_Name c) (vb_Type c) (vb_Enabled c) (vb_Transport c)
     s (vb_ServerUser c) (vb_ServerName c) (vb_BindAddr c) (vb_BindPort c));
   StringVarP p "server_name" "" "" (fun s c => mkVisitorBaseConfig (vb_Name c) (vb_Type c) (vb_Enabled c) (vb_Transport c)
     (vb_SecretKey c) (vb_ServerUser c) s (vb_BindAddr c) (vb_BindPort c));
   StringVarP p "server-user" "" "" (fun s c => mkVisitorBaseConfig (vb_Name c) (vb_Type c) (vb_Enabled c) (vb_Transport c)
     (vb_SecretKey c) s (vb_ServerName c) (vb_BindAddr c) (vb_BindPort c));
   StringVarP p "bind_addr" "" "" (fun s c => mkVisitorBaseConfig (vb_Name c) (vb_Type c) (vb_Enabled c) (vb_Transport c)
     (vb_SecretKey c) (vb_ServerUser c) (vb_ServerName c) s (vb_BindPort c));
   IntVarP p "bind_port" "" 0 (fun n c => mkVisitorBaseConfig (vb_Name c) (vb_Type c) (vb_Enabled c) (vb_Transport c)
     (vb_SecretKey c) (vb_ServerUser c) (vb_ServerName c) (vb_BindAddr c) n)].
Definition of_visitor (c : VisitorConfigurer) : XTCPVisitorConfig := match c with VC_XTCP x => x end.
Definition RegisterVisitorFlags : list (flag VisitorConfigurer) :=
  lift_flag (fun c => xv_Base (of_visitor c))
    (fun b c => let x := of_visitor c in VC_XTCP (mkXTCPVisitorConfig b (xv_Protocol x) (xv_KeepTunnelOpen x)
       (xv_MaxRetriesAnHour x) (xv_MinRetryInterval x) (xv_FallbackTo x) (xv_FallbackTimeoutMs x) (xv_NatTraversal x)))
    <$> registerVisitorBaseConfigFlags.

(** ** The client *)
Definition set_Transport (t : ClientTransportConfig) (c : ClientCommonConfig) : ClientCommonConfig :=
  mkClientCommonConfig (cc_Version c) (cc_Auth c) (cc_User c) (cc_ClientID c) (cc_ServerAddr c) (cc_ServerPort c)
    (cc_NatHoleSTUNServer c) (cc_DNSServer c) (cc_LoginFailExit c) (cc_Start c) (cc_Log c) t (cc_Metadatas c)
    (cc_IncludeConfigFiles c) (cc_Store_Path c).
Definition set_Log (l : LogConfig) (c : ClientCommonConfig) : ClientCommonConfig :=
  mkClientCommonConfig (cc_Version c) (cc_Auth c) (cc_User c) (cc_ClientID c) (cc_ServerAddr c) (cc_ServerPort c)
    (cc_NatHoleSTUNServer c) (cc_DNSServer c) (cc_LoginFailExit c) (cc_Start c) l (cc_Transport c) (cc_Metadatas c)
    (cc_IncludeConfigFiles c) (cc_Store_Path c).
Definition set_tls (t : TLSClientConfig) (c : ClientTransportConfig) : ClientTransportConfig :=
  mkClientTransportConfig (ct_Protocol c) (ct_WireProtocol c) (ct_DialServerTimeout c) (ct_DialServerKeepAlive c)
    (ct_ConnectServerLocalIP c) (ct_ProxyURL c) (ct_PoolCount c) (ct_TCPMux c) (ct_TCPMuxKeepaliveInterval c) (ct_QUIC c)
    (ct_HeartbeatInterval c) (ct_HeartbeatTimeout c) t.
(** The fields of [ClientCommonConfig] itself that flags set. *)
Definition set_common (user clientID addr : string) (port : Z) (stun dns : string) (c : ClientCommonConfig) : ClientCommonConfig :=
  mkClientCommonConfig (cc_Version c) (cc_Auth c) user clientID addr port stun dns (cc_LoginFailExit c) (cc_Start c)
    (cc_Log c) (cc_Transport c) (cc_Metadatas c) (cc_IncludeConfigFiles c) (cc_Store_Path c).
Definition set_ServerAddr s c := set_common (cc_User c) (cc_ClientID c) s (cc_ServerPort c) (cc_NatHoleSTUNServer c) (cc_DNSServer c) c.
Definition set_ServerPort n c := set_common (cc_User c) (cc_ClientID c) (cc_ServerAddr c) n (cc_NatHoleSTUNServer c) (cc_DNSServer c) c.
Definition set_STUNServer s c := set_common (cc_User c) (cc_ClientID c) (cc_ServerAddr c) (cc_ServerPort c) s (cc_DNSServer c) c.
Definition set_DNSServer s c := set_common (cc_User c) (cc_ClientID c) (cc_ServerAddr c) (cc_ServerPort c) (cc_NatHoleSTUNServer c) s c.
Definition set_User s c := set_common s (cc_ClientID c) (cc_ServerAddr c) (cc_ServerPort c) (cc_NatHoleSTUNServer c) (cc_DNSServer c) c.
Definition set_ClientID s c := set_common (cc_User c) s (cc_ServerAddr c) (cc_ServerPort c) (cc_NatHoleSTUNServer c) (cc_DNSServer c) c.
Definition set_client_token (s : string) (c : ClientCommonConfig) : ClientCommonConfig :=
  let a := cc_Auth c in
  mkClientCommonConfig (cc_Version c) (mkAuthClientConfig (ac_Method a) (ac_AdditionalScopes a) s (ac_TokenSource a))
    (cc_User c) (cc_ClientID c) (cc_ServerAddr c) (cc_ServerPort c) (cc_NatHoleSTUNServer c) (cc_DNSServer c)
    (cc_LoginFailExit c) (cc_Start c) (cc_Log c) (cc_Transport c) (cc_Metadatas c) (cc_IncludeConfigFiles c) (cc_Store_Path c).
Definition set_Protocol (s : string) (t : ClientTransportConfig) : ClientTransportConfig :=
  mkClientTransportConfig s (ct_WireProtocol t) (ct_DialServerTimeout t) (ct_DialServerKeepAlive t)
    (ct_ConnectServerLocalIP t) (ct_ProxyURL t) (ct_PoolCount t) (ct_TCPMux t) (ct_TCPMuxKeepaliveInterval t) (ct_QUIC t)
    (ct_HeartbeatInterval t) (ct_HeartbeatTimeout t) (ct_TLS t).
Definition set_tls_name (s : string) (t : TLSClientConfig) : TLSClientConfig :=
  let x := tc_TLSConfig t in
  mkTLSClientConfig (tc_Enable t) (tc_DisableCustomTLSFirstByte t)
    (mkTLSConfig (tls_CertFile x) (tls_KeyFile x) (tls_TrustedCaFile x) s).
Definition set_tls_enable (b : bool) (t : TLSClientConfig) : TLSClientConfig :=
  mkTLSClientConfig (Some b) (tc_DisableCustomTLSFirstByte t) (tc_TLSConfig t).
(** The flags of a log; the color flag is always last. *)
Definition log_level_flag (p : bool) : flag LogConfig :=
  StringVarP p "log_level" "" "info" (fun s c => mkLogConfig (log_To c) s (log_MaxDays c) (log_DisablePrintColor c)).
Definition log_file_flag (p : bool) : flag LogConfig :=
  StringVarP p "log_file" "" "console" (fun s c => mkLogConfig s (log_Level c) (log_MaxDays c) (log_DisablePrintColor c)).
Definition log_rest_flags (p : bool) : list (flag LogConfig) :=
  [IntVarP p "log_max_days" "" 3 (fun n c => mkLogConfig (log_To c) (log_Level c) n (log_DisablePrintColor c));
   BoolVarP p "disable_log_color" "" false (fun b c => mkLogConfig (log_To c) (log_Level c) (log_MaxDays c) b)].
Definition RegisterClientCommonConfigFlags : list (flag ClientCommonConfig) :=
  let p := true in
  let log := lift_flag cc_Log set_Log in
  let transport := lift_flag cc_Transport set_Transport in
  let tls f := transport (lift_flag ct_TLS set_tls f) in
  [StringVarP p "server_addr" "s" "127.0.0.1" set_ServerAddr;
   IntVarP p "server_port" "P" 7000 set_ServerPort;
   transport (StringVarP p "protocol" "p" "tcp" set_Protocol);
   log (log_level_flag p); log (log_file_flag p)]
  ++ (log <$> log_rest_flags p) ++
  [tls (StringVarP p "tls_server_name" "" "" set_tls_name);
   StringVarP p "dns_server" "" "" set_DNSServer;
   tls (BoolVarP p "tls_enable" "" true set_tls_enable);
   StringVarP p "user" "u" "" set_User;
   StringVarP p "client-id" "" "" set_ClientID;
   StringVarP p "token" "t" "" set_client_token].

(** ** The server *)
Definition set_server (addr : string) (port : Z) (auth : AuthServerConfig) (l : LogConfig) (t : ServerTransportConfig)
    (c : ServerConfig) : ServerConfig :=
  mkServerConfig (sc_Version c) auth addr port l t (sc_DetailedErrorsToClient c) (sc_UserConnTimeout c)
    (sc_NatHoleAnalysisDataReserveHours c).
Definition RegisterServerConfigFlags : list (flag ServerConfig) :=
  let p := true in
  let log := lift_flag sc_Log (fun l c => set_server (sc_BindAddr c) (sc_BindPort c) (sc_Auth c) l (sc_Transport c) c) in
  [StringVarP p "bind_addr" "" "0.0.0.0" (fun s c => set_server s (sc_BindPort c) (sc_Auth c) (sc_Log c) (sc_Transport c) c);
   IntVarP p "bind_port" "p" 7000 (fun n c => set_server (sc_BindAddr c) n (sc_Auth c) (sc_Log c) (sc_Transport c) c);
   log (log_file_flag p); log (log_level_flag p)]
  ++ (log <$> log_rest_flags p) ++
  [StringVarP p "token" "t" "" (fun s c => let a := sc_Auth c in
     set_server (sc_BindAddr c) (sc_BindPort c) (mkAuthServerConfig (as_Method a) (as_AdditionalScopes a) s (as_TokenSource a))
       (sc_Log c) (sc_Transport c) c);
   BoolVarP p "tls_only" "" false (fun b c => let t := sc_Transport c in
     set_server (sc_BindAddr c) (sc_BindPort c) (sc_Auth c) (sc_Log c)
       (mkServerTransportConfig (st_TCPMux t) (st_TCPMuxKeepaliveInterval t) (st_TCPKeepAlive t) (st_MaxPoolCount t)
          (st_HeartbeatTimeout t) (st_QUIC t) (mkTLSServerConfig b (ts_TLSConfig (st_TLS t)))) c)].

(** ** The programs' own flags *)
Record program := mkProgram {
  pr_cfgFile : string;
  pr_cfgDir : string;
  pr_showVersion : bool;
  pr_strictConfigMode : bool;
  pr_allowUnsafe : list string;
  pr_natHoleSTUNServer : string;
  pr_natHoleLocalAddr : string;
}.
Definition zero_program : program := mkProgram "" "" false false [] "" "".
Definition set_program (file dir : string) (version strict : bool) (unsafe : list string) (x : program) : program :=
  mkProgram file dir version strict unsafe (pr_natHoleSTUNServer x) (pr_natHoleLocalAddr x).
Definition config_flag (d : string) : flag program :=
  StringVarP true "config" "c" d (fun s x => set_program s (pr_cfgDir x) (pr_showVersion x) (pr_strictConfigMode x) (pr_allowUnsafe x) x).
Definition program_flags : list (flag program) :=
  [BoolVarP true "version" "v" false (fun b x => set_program (pr_cfgFile x) (pr_cfgDir x) b (pr_strictConfigMode x) (pr_allowUnsafe x) x);
   BoolVarP true "strict_config" "" true (fun b x => set_program (pr_cfgFile x) (pr_cfgDir x) (pr_showVersion x) b (pr_allowUnsafe x) x);
   StringSliceVarP true "allow-unsafe" "" [] (fun l x => set_program (pr_cfgFile x) (pr_cfgDir x) (pr_showVersion x) (pr_strictConfigMode x) l x)].
(** [frpc] and [frps]. *)
Definition frpc_root_flags : list (flag program) :=
  config_flag "./frpc.toml" ::
  StringVarP true "config_dir" "" "" (fun s x => set_program (pr_cfgFile x) s (pr_showVersion x) (pr_strictConfigMode x) (pr_allowUnsafe x) x) ::
  program_flags.
Definition frps_root_flags : list (flag program) := config_flag "" :: program_flags.
(** [frpc nathole]. *)
Definition nathole_flags : list (flag program) :=
  let set s a x := mkProgram (pr_cfgFile x) (pr_cfgDir x) (pr_showVersion x) (pr_strictConfigMode x) (pr_allowUnsafe x) s a in
  [StringVarP true "nat_hole_stun_server" "" "" (fun s x => set s (pr_natHoleLocalAddr x) x);
   StringVarP true "nat_hole_local_addr" "l" "" (fun s x => set (pr_natHoleSTUNServer x) s x)].

(** The names and letters a command knows: its own and those inherited. *)
Definition names {T} (fs : list (flag T)) : list string := (fun f => WordSepNormalizeFunc (fg_name f)) <$> fs.
Definition letters {T} (fs : list (flag T)) : list string := filter (fun s => s ≠ "") (fg_short <$> fs).
Definition frpc_xtcp_names : list string := names frpc_root_flags ++ names RegisterClientCommonConfigFlags ++ names RegisterProxyFlags.
Definition frpc_visitor_names : list string := names frpc_root_flags ++ names RegisterClientCommonConfigFlags ++ names RegisterVisitorFlags.
Definition frpc_nathole_names : list string := names frpc_root_flags ++ names nathole_flags.
Definition frps_names : list string := names frps_root_flags ++ names RegisterServerConfigFlags.
Definition frpc_xtcp_letters : list string := letters frpc_root_flags ++ letters RegisterClientCommonConfigFlags ++ letters RegisterProxyFlags.
Definition frpc_visitor_letters : list string := letters frpc_root_flags ++ letters RegisterClientCommonConfigFlags ++ letters RegisterVisitorFlags.
Definition frpc_nathole_letters : list string := letters frpc_root_flags ++ letters nathole_flags.
Definition frps_letters : list string := letters frps_root_flags ++ letters RegisterServerConfigFlags.

(** ** Theorems *)
Lemma WordSepNormalizeFunc_replaces s : WordSepNormalizeFunc s = replace_underscores s.
Proof.
  unfold WordSepNormalizeFunc. destruct (contains_underscore s) eqn:E; [done|].
  induction s as [|c s IH]; [done|]. simpl in *. apply orb_false_iff in E as [Ec Es]. rewrite Ec. by rewrite <- IH.
Qed.
Lemma normalize_idempotent s : WordSepNormalizeFunc (WordSepNormalizeFunc s) = WordSepNormalizeFunc s.
Proof.
  rewrite !WordSepNormalizeFunc_replaces. induction s as [|c s IH]; [done|]. simpl.
  destruct (Ascii.eqb c "_") eqn:Ec; simpl; [by rewrite IH|]. by rewrite Ec, IH.
Qed.
(** No command has two flags of one name, after normalization, or of one letter: the
    library panics on the second. *)
Theorem flags_distinct :
  Forall NoDup [frpc_xtcp_names; frpc_visitor_names; frpc_nathole_names; frps_names] /\
  Forall NoDup [frpc_xtcp_letters; frpc_visitor_letters; frpc_nathole_letters; frps_letters].
Proof. split; (apply (bool_decide_unpack _); vm_compute; exact I). Qed.
Lemma find_flag_normalized {T} (fs : list (flag T)) n : find_flag fs (WordSepNormalizeFunc n) = find_flag fs n.
Proof. unfold find_flag. induction fs as [|f fs IH]; [done|]. simpl. by rewrite IH, normalize_idempotent. Qed.
(** A flag may be given with dashes or underscores. *)
Theorem flags_either_spelling {T} (fs : list (flag T)) given x :
  with_given fs ((fun g => (WordSepNormalizeFunc g.1, g.2)) <$> given) x = with_given fs given x.
Proof.
  revert x. induction given as [|g given IH]; intros x; [done|]. simpl. unfold give. simpl.
  rewrite find_flag_normalized. destruct (find_flag fs g.1) as [f|]; simpl; [|done]. destruct (fg_set f g.2 x); simpl; auto.
Qed.
(** The defaults of the flags are those of [Complete], but for the server's address. *)
Theorem flag_defaults_agree `{OS} :
  ServerConfig_Complete (with_defaults RegisterServerConfigFlags zero_ServerConfig) = ServerConfig_Complete zero_ServerConfig /\
  ClientCommonConfig_Complete (with_defaults RegisterClientCommonConfigFlags zero_ClientCommonConfig) =
    ClientCommonConfig_Complete (set_ServerAddr "127.0.0.1" zero_ClientCommonConfig) /\
  Proxy_Complete (with_defaults RegisterProxyFlags (PC_XTCP zero_XTCPProxyConfig)) = Proxy_Complete (PC_XTCP zero_XTCPProxyConfig) /\
  Visitor_Complete (with_defaults RegisterVisitorFlags (VC_XTCP zero_XTCPVisitorConfig)) = Visitor_Complete (VC_XTCP zero_XTCPVisitorConfig).
Proof. by split_and!. Qed.
