(* ===== verification/Discovery.v ===== *)
(** * Discovering external addresses: [pkg/nathole/discovery.go], [pkg/nathole/utils.go]

    The exchange with the STUN servers over one socket, the local addresses offered for a
    hole, and the coding of the messages two peers send each other.  A request is known by
    the outcomes of its calls: resolving, the transaction, the deadline and the answer; the
    [n]-th request of a discovery has the [n]-th outcomes. *)
From S2P Require Import Prelude GoStd Msg MakeHole.
From stdpp Require Import list.
Local Open Scope Z_scope.

(** ** STUN *)
Record stunResponse := mkStun { sr_externalAddr : string; sr_otherAddr : string }.
(** Errors are texts; [rq_timeout] tells whether the error of [Do] is a timeout.  The answer
    is its mapped and its other address, which may be missing. *)
Record request := mkRequest {
  rq_resolve : option string;
  rq_transaction : option string;
  rq_deadline : option string;
  rq_answer : result (option string * option string);
  rq_timeout : bool;
}.
Definition fails (e : option string) : result unit := match e with Some e => Err e | None => Ok tt end.
Definition doSTUNRequest (r : request) : result stunResponse :=
  fails (rq_resolve r) ≫= λ _, fails (rq_transaction r) ≫= λ _, fails (rq_deadline r) ≫= λ _,
  match rq_answer r with
  | Err e => Err (if rq_timeout r then "wait response from stun server timeout" else e)
  | Ok (mapped, other) => Ok (mkStun (default "" mapped) (default "" other))
  end.
(** What the network does: the outcomes of the [n]-th request, to an address. *)
Definition network : Type := nat -> string -> request.
(** [discoverFromStunServer] from the [n]-th request on: the addresses and the requests made. *)
Definition discoverFromStunServer (net : network) (n : nat) (addr : string) : result (list string) * nat :=
  match doSTUNRequest (net n addr) with
  | Err e => (Err e, S n)
  | Ok resp =>
      if decide (sr_externalAddr resp = "") then (Err "no external address found", S n)
      else if decide (sr_otherAddr resp = "") then (Ok [sr_externalAddr resp], S n)
      else match doSTUNRequest (net (S n) (sr_otherAddr resp)) with
           | Err e => (Err e, S (S n))
           | Ok resp2 =>
               (Ok (sr_externalAddr resp :: if decide (sr_externalAddr resp2 = "") then [] else [sr_externalAddr resp2]), S (S n))
           end
  end.
Fixpoint discover_servers (net : network) (n : nat) (stunServers : list string) : result (list string) * nat :=
  match stunServers with
  | [] => (Ok [], n)
  | addr :: servers =>
      match discoverFromStunServer net n addr with
      | (Err e, n) => (Err e, n)
      | (Ok l, n) => let '(r, n) := discover_servers net n servers in (r ≫= λ ls, Ok (l ++ ls), n)
      end
  end.
(** The socket: resolving the local address, listening, which gives the address it is bound
    to, and the STUN client. *)
Record listen_env := mkListenEnv { le_resolve : option string; le_listen : result string; le_client : option string }.
(** What happens to the socket. *)
Inductive socket_effect : Type := SocketOpened | SocketClosed.
Definition listen (localAddr : string) (e : listen_env) : result string * list socket_effect :=
  match (if decide (localAddr = "") then Ok tt else fails (le_resolve e)) with
  | Err err => (Err err, [])
  | Ok _ =>
      match le_listen e with
      | Err err => (Err err, [])
      | Ok bound =>
          match le_client e with
          | Some err => (Err err, [SocketOpened; SocketClosed])
          | None => (Ok bound, [SocketOpened])
          end
      end
  end.
(** [Discover]: the addresses with the local one, and what happened to its socket. *)
Definition Discover (net : network) (stunServers : list string) (localAddr : string) (e : listen_env)
    : result (list string * string) * list socket_effect :=
  match listen localAddr e with
  | (Err err, eff) => (Err err, eff)
  | (Ok bound, eff) =>
      (match (discover_servers net 0 stunServers).1 with Err err => Err err | Ok l => Ok (l, bound) end,
       eff ++ [SocketClosed])
  end.

(** ** Local addresses *)
(** [net.IP]: an address for which [To4] answers, or another. *)
Record IPv4 := mkIPv4 { ip_a : Z; ip_b : Z; ip_c : Z; ip_d : Z }.
Inductive IP : Type := V4 (ip : IPv4) | V6 (ip : list byte).
(** The tests and the text of an IPv4 address. *)
Definition IsLoopback (ip : IPv4) : bool := ip_a ip =? 127.
Definition IsLinkLocalUnicast (ip : IPv4) : bool := (ip_a ip =? 169) && (ip_b ip =? 254).
Definition IsLinkLocalMulticast (ip : IPv4) : bool := (ip_a ip =? 224) && (ip_b ip =? 0) && (ip_c ip =? 0).
Definition IP_String (ip : IPv4) : string :=
  Itoa (ip_a ip) +:+ "." +:+ Itoa (ip_b ip) +:+ "." +:+ Itoa (ip_c ip) +:+ "." +:+ Itoa (ip_d ip).
(** [ListAllLocalIPs]: the addresses of the interfaces, [None] when [ParseCIDR] fails. *)
Definition ListAllLocalIPs (addrs : result (list (option IP))) : result (list IP) :=
  addrs ≫= λ l : list (option IP), Ok (omap id l).
(** The loop of [ListLocalIPsForNatHole]. *)
Fixpoint filter_ips (maxItems : Z) (filtered : list string) (ips : list IP) : list string :=
  match ips with
  | [] => filtered
  | ip :: ips =>
      if maxItems <=? Z.of_nat (length filtered) then filtered
      else match ip with
           | V6 _ => filter_ips maxItems filtered ips
           | V4 ip =>
               if IsLoopback ip || IsLinkLocalUnicast ip || IsLinkLocalMulticast ip then filter_ips maxItems filtered ips
               else filter_ips maxItems (filtered ++ [IP_String ip]) ips
           end
  end.
Definition ListLocalIPsForNatHole (maxItems : Z) (addrs : result (list (option IP))) : result (list string) :=
  if maxItems <=? 0 then Err "maxItems must be greater than 0"
  else ListAllLocalIPs addrs ≫= λ ips, Ok (filter_ips maxItems [] ips).

(** ** Messages between peers *)
(** [golib/crypto] with a key, and the v1 coding of one kind of message. *)
Class Sealing := {
  crypto_Encode : list byte -> list byte -> result (list byte);
  crypto_Decode : list byte -> list byte -> result (list byte);
}.
Class PeerCodec := {
  sid_WriteMsg : NatHoleSid -> result (list byte);
  sid_ReadMsgInto : list byte -> result NatHoleSid;
}.
Definition Encode_Message `{Sealing} `{PeerCodec} (m : NatHoleSid) (key : list byte) : result (list byte) :=
  sid_WriteMsg m ≫= λ buffer, crypto_Encode buffer key.
Definition Decode_MessageInto `{Sealing} `{PeerCodec} (data key : list byte) : result NatHoleSid :=
  crypto_Decode data key ≫= λ buf, sid_ReadMsgInto buf.
(** What [MakeHole] uses. *)
Definition sid_codec `{Sealing} `{PeerCodec} : SidCodec := {| EncodeMessage := Encode_Message; DecodeMessageInto := Decode_MessageInto |}.
(** A stream cipher: what the start of a sealed text opens to is a start of the text. *)
Class SealingLaws `{Sealing} : Prop :=
  opens_prefix b key d n b' : crypto_Encode b key = Ok d -> crypto_Decode (take n d) key = Ok b' -> b' `prefix_of` b.
(** The v1 coding writes the length first: of a start of a message nothing is read, or the message. *)
Class PeerLaws `{PeerCodec} : Prop :=
  reads_message m b p m' : sid_texts_ok m -> sid_WriteMsg m = Ok b -> p `prefix_of` b -> sid_ReadMsgInto p = Ok m' -> m' = m.

(** ** Theorems *)
(** So what [MakeHole] relies on holds of it. *)
Lemma sid_codec_faithful `{SealingLaws} `{PeerLaws} key : @faithful sid_codec key.
Proof.
  intros m d m' Hm He Hd. cbn in He, Hd. unfold Encode_Message, Decode_MessageInto in *.
  apply result_bind_Ok in He as (b & Hb & He). apply result_bind_Ok in Hd as (b' & Hb' & Hd).
  eapply reads_message; [exact Hm|exact Hb|by eapply opens_prefix|exact Hd].
Qed.
Lemma doSTUNRequest_Ok r resp : doSTUNRequest r = Ok resp -> rq_resolve r = None /\ rq_transaction r = None /\ rq_deadline r = None /\
  exists m o, rq_answer r = Ok (m, o) /\ sr_externalAddr resp = default "" m /\ sr_otherAddr resp = default "" o.
Proof.
  unfold doSTUNRequest. destruct (rq_resolve r); [done|]. destruct (rq_transaction r); [done|]. destruct (rq_deadline r); [done|]. simpl.
  destruct (rq_answer r) as [[m o]|e]; [|by destruct (rq_timeout r)]. intros [= <-]. eauto 10.
Qed.
(** One server gives one or two addresses, none of them empty, in one or two requests; two
    exactly when it names another address and that one answers with an address. *)
Lemma discoverFromStunServer_Ok net n addr l n' : discoverFromStunServer net n addr = (Ok l, n') ->
  exists resp, doSTUNRequest (net n addr) = Ok resp /\ sr_externalAddr resp ≠ "" /\
  if decide (sr_otherAddr resp = "") then l = [sr_externalAddr resp] /\ n' = S n
  else n' = S (S n) /\ exists resp2, doSTUNRequest (net (S n) (sr_otherAddr resp)) = Ok resp2 /\
    l = sr_externalAddr resp :: (if decide (sr_externalAddr resp2 = "") then [] else [sr_externalAddr resp2]).
Proof.
  unfold discoverFromStunServer. destruct (doSTUNRequest (net n addr)) as [resp|]; [|done].
  destruct (decide (sr_externalAddr resp = "")) as [|Hne]; [done|]. intros H. exists resp. split; [done|]. split; [done|].
  destruct (decide (sr_otherAddr resp = "")); [by simplify_eq|].
  destruct (doSTUNRequest (net (S n) _)) as [resp2|]; [|done]. simplify_eq. eauto.
Qed.
Lemma discover_servers_Ok net servers : forall n l n', discover_servers net n servers = (Ok l, n') ->
  (length servers <= length l <= 2 * length servers)%nat /\ Forall (fun a => a ≠ "") l /\
  (n + length servers <= n' <= n + 2 * length servers)%nat.
Proof.
  induction servers as [|a servers IH]; intros n l n'; simpl; [intros [= <- <-]; split_and!; simpl; (constructor || lia)|].
  destruct (discoverFromStunServer net n a) as [[l1|] n1] eqn:E; [|done].
  destruct (discover_servers net n1 servers) as [[l2|] n2] eqn:E2; simpl; intros [= <- <-].
  apply discoverFromStunServer_Ok in E as (resp & _ & Hne & H). apply IH in E2 as (H1 & H2 & H3).
  assert (Hl : (1 <= length l1 <= 2 /\ S n <= n1 <= S (S n))%nat /\ Forall (fun a => a ≠ "") l1).
  { destruct (decide (sr_otherAddr resp = "")); [destruct H as [-> ->]|destruct H as (-> & resp2 & _ & ->)].
    - split; [simpl; lia|by constructor].
    - destruct (decide (sr_externalAddr resp2 = "")); split; simpl; try lia; by repeat constructor. }
  rewrite length_app, Forall_app. split_and!; try lia; try done; apply Hl.
Qed.
(** The socket of a discovery is closed exactly when it was opened, whatever happens. *)
Theorem Discover_closes net servers localAddr e :
  (Discover net servers localAddr e).2 = [] \/ (Discover net servers localAddr e).2 = [SocketOpened; SocketClosed].
Proof.
  unfold Discover, listen. destruct (if decide (localAddr = "") then _ else _); [|by left].
  destruct (le_listen e); [|by left]. destruct (le_client e); simpl; by right.
Qed.
(** A discovery that succeeds has at least one and at most two addresses of every server. *)
Theorem Discover_addresses net servers localAddr e l bound :
  (Discover net servers localAddr e).1 = Ok (l, bound) ->
  (length servers <= length l <= 2 * length servers)%nat /\ Forall (fun a => a ≠ "") l /\ le_listen e = Ok bound.
Proof.
  unfold Discover, listen. destruct (if decide (localAddr = "") then _ else _); [|done].
  destruct (le_listen e) as [b|]; [|done]. destruct (le_client e); [done|]. simpl.
  destruct (discover_servers net 0 servers) as [[l'|] n] eqn:E; [|done]. simpl. intros [= <- <-].
  apply discover_servers_Ok in E. naive_solver.
Qed.

(** The local addresses are the first [maxItems] of the interfaces' IPv4 addresses that are
    neither loopback nor link-local, in their order. *)
Definition usable (ip : IP) : option string :=
  match ip with
  | V4 ip => if IsLoopback ip || IsLinkLocalUnicast ip || IsLinkLocalMulticast ip then None else Some (IP_String ip)
  | V6 _ => None
  end.
Lemma filter_ips_spec maxItems ips : forall filtered, Z.of_nat (length filtered) <= maxItems ->
  filter_ips maxItems filtered ips = filtered ++ take (Z.to_nat (maxItems - Z.of_nat (length filtered))) (omap usable ips).
Proof.
  induction ips as [|ip ips IH]; intros filtered Hl; simpl; [by rewrite take_nil, app_nil_r|].
  destruct (Z.leb_spec maxItems (Z.of_nat (length filtered))) as [Hle|Hgt].
  { replace (Z.to_nat _) with 0%nat by lia. by rewrite app_nil_r. }
  destruct ip as [ip|]; simpl; [|by apply IH].
  destruct (IsLoopback ip || IsLinkLocalUnicast ip || IsLinkLocalMulticast ip); simpl; [by apply IH|].
  rewrite IH by (rewrite length_app; simpl; lia). rewrite length_app, <- app_assoc. f_equal. simpl.
  replace (Z.to_nat (maxItems - Z.of_nat (length filtered))) with (S (Z.to_nat (maxItems - Z.of_nat (length filtered + 1)))) by lia.
  done.
Qed.
Theorem local_ips_usable maxItems l :
  ListLocalIPsForNatHole maxItems (Ok l) =
    if maxItems <=? 0 then Err "maxItems must be greater than 0"
    else Ok (take (Z.to_nat maxItems) (omap usable (omap id l))).
Proof.
  unfold ListLocalIPsForNatHole. destruct (Z.leb_spec maxItems 0); [done|]. simpl. f_equal.
  rewrite filter_ips_spec by (simpl; lia). simpl. by rewrite Z.sub_0_r.
Qed.
