(* ===== verification/Commands.v ===== *)
(** * The commands: [cmd/frpc], [cmd/frps]

    What the two programs do with their flags: loading, the sources and the store of a
    client, validation, and the service they start, or what they print and with which code
    they exit.  The flags are those of [Flags]; [os.Exit] is a code, and a command that
    starts a service ends in it.  Signals and the printing of the library's help are not
    modelled. *)
From S2P Require Import Prelude GoStd Msg ConfigV1 Decode Auth Validation ConfigLoad ConfigSource.
From S2P Require Import NatClassify Flags Discovery.
From S2P Require ClientService ServerListen.
From Stdlib Require Import Ascii.
From stdpp Require Import gmap list sorting.
Local Open Scope Z_scope.

(** ** [path/filepath] on Unix *)
Definition slash : ascii := Ascii.ascii_of_nat 47.
Definition IsAbs (path : string) : bool := match path with String c _ => bool_decide (c = slash) | _ => false end.
(** The elements of [Clean]: [stack] is reversed; an element [..] that cannot be resolved
    stays, and at the root is dropped. *)
Fixpoint clean_elements (rooted : bool) (stack : list string) (l : list string) : list string :=
  match l with
  | [] => rev stack
  | e :: l =>
      if bool_decide (e = "" \/ e = ".") then clean_elements rooted stack l
      else if bool_decide (e = "..") then
        match stack with
        | top :: rest => if bool_decide (top = "..") then clean_elements rooted (e :: stack) l else clean_elements rooted rest l
        | [] => if rooted then clean_elements rooted [] l else clean_elements rooted [e] l
        end
      else clean_elements rooted (e :: stack) l
  end.
Definition Clean (path : string) : string :=
  let rooted := IsAbs path in
  let body := join_str "/" (clean_elements rooted [] (split_on slash path)) in
  if rooted then "/" +:+ body else if decide (body = "") then "." else body.
(** [Dir]: everything up to the last separator, cleaned. *)
Definition Dir (path : string) : string :=
  Clean (match last_index_byte slash path with Some i => str_take (S i) path | None => "" end).
(** [Join] of two elements. *)
Definition Join (a b : string) : string :=
  if decide (a = "") then (if decide (b = "") then "" else Clean b) else Clean (a +:+ "/" +:+ b).

(** ** How a command ends *)
Inductive outcome (S : Type) : Type :=
| Exits (printed : list string) (code : Z)
| Serves (printed : list string) (s : S).
Arguments Exits {S}. Arguments Serves {S}.
Definition warning_lines (w : errs) : list string := match w with [] => [] | _ => ["WARNING: " +:+ join_str (String (Ascii.ascii_of_nat 10) "") w] end.
(** Prints the error and exits with 1, or serves. *)
Definition finish {S} (printed : list string) (r : result S) : outcome S :=
  match r with Ok s => Serves printed s | Err e => Exits (printed ++ [e]) 1 end.

(** ** [frpc] *)
Section client.
Context `{Loader} `{Dirs} `{OS} `{Text} `{StoreCodec}.

(** A running client: its service, and whether a signal closes it gracefully. *)
Definition running : Type := ClientService.Service * bool.
Definition startServiceWithAggregator (cfg : ClientCommonConfig) (a : ClientService.Aggregator) : result running :=
  ClientService.NewService cfg (Some a) ≫= λ s,
  Ok (s, bool_decide (ct_Protocol (cc_Transport (ClientService.sv_reloadCommon s)) = "tcp")).
(** Where the store is: a relative path is taken from the directory of the configuration. *)
Definition store_path (storePath cfgFilePath : string) : string :=
  if decide (storePath ≠ "" /\ cfgFilePath ≠ "" /\ IsAbs storePath = false) then Join (Dir cfgFilePath) storePath else storePath.
Definition open_store (common : ClientCommonConfig) (cfgFilePath : string) (fs : fsys) : result (option baseSource) :=
  if StoreConfig_IsEnabled (cc_Store_Path common)
  then wrap_err "failed to create store source: " (NewStoreSource (store_path (cc_Store_Path common) cfgFilePath) fs)
       ≫= λ s, Ok (Some (st_base s))
  else Ok None.
(** [runClientWithAggregator]: the warnings and the running client. *)
Definition runClientWithAggregator (r : ClientConfig) (unsafe : ConfigValidator) (cfgFilePath : string) (fs : fsys)
    : errs * result running :=
  match ReplaceAll (Some <$> cl_Proxies r) (Some <$> cl_Visitors r) newBaseSource with
  | (_, Err e) => ([], Err ("failed to set config source: " +:+ e))
  | (config, Ok _) =>
      match open_store (cl_Common r) cfgFilePath fs with
      | Err e => ([], Err e)
      | Ok store =>
          let a := ClientService.mkAggregator config store in
          let '(ps, vs) := ClientService.pipeline (cl_Common r) a in
          let '(warning, e) := ValidateAllClientConfig (Some (cl_Common r)) ps vs unsafe in
          (warning, e ≫= λ _, startServiceWithAggregator (cl_Common r) a)
      end
  end.
Definition runClient (cfgFilePath : string) (strict : bool) (unsafe : ConfigValidator) (fs : fsys) : errs * result running :=
  match LoadClientConfigResult cfgFilePath strict with
  | Err e => ([], Err e)
  | Ok r => runClientWithAggregator r unsafe cfgFilePath fs
  end.
(** [runMultipleClients] over what [WalkDir] visits: each path with whether it is a
    directory or could not be read; every file is run on its own. *)
Definition run_one (p : program) (fs : fsys) (path : string) : outcome running :=
  let '(warning, r) := runClient path (pr_strictConfigMode p) (Some (NewUnsafeFeatures (pr_allowUnsafe p))) fs in
  match r with
  | Ok s => Serves (warning_lines warning) s
  | Err _ => Exits (warning_lines warning ++ ["frpc service error for config file [" +:+ path +:+ "]"]) 0
  end.
Definition runMultipleClients (p : program) (fs : fsys) (visited : list (string * bool)) : list (outcome running) :=
  (fun v => run_one p fs v.1) <$> filter (fun v => v.2 = false) visited.
(** [frpc] without a command. *)
Definition frpc_root (version : string) (p : program) (fs : fsys) (visited : list (string * bool)) : list (outcome running) :=
  if pr_showVersion p then [Exits [version] 0]
  else if decide (pr_cfgDir p ≠ "") then runMultipleClients p fs visited
  else let '(warning, r) := runClient (pr_cfgFile p) (pr_strictConfigMode p) (Some (NewUnsafeFeatures (pr_allowUnsafe p))) fs in
       [finish (warning_lines warning) r].

(** [frpc verify]. *)
Definition verifyClientConfig (configFile : string) (strict : bool) (unsafe : ConfigValidator) : errs * result unit :=
  match LoadClientConfig configFile strict with
  | Err e => ([], Err e)
  | Ok (cliCfg, proxyCfgs, visitorCfgs) => ValidateAllClientConfig (Some cliCfg) proxyCfgs visitorCfgs unsafe
  end.
Definition frpc_verify (p : program) : outcome Empty_set :=
  if decide (pr_cfgFile p = "") then Exits ["frpc: the configuration file is not specified"] 0
  else
    let '(warning, r) := verifyClientConfig (pr_cfgFile p) (pr_strictConfigMode p) (Some (NewUnsafeFeatures (pr_allowUnsafe p))) in
    match r with
    | Ok _ => Exits (warning_lines warning ++ ["frpc: the configuration file " +:+ pr_cfgFile p +:+ " syntax is ok"]) 0
    | Err e => Exits (warning_lines warning ++ [e]) 1
    end.

(** [startService]: one proxy or visitor from the command line. *)
Definition startService (cfg : ClientCommonConfig) (ps : list ProxyConfigurer) (vs : list VisitorConfigurer) : result running :=
  match ReplaceAll (Some <$> ps) (Some <$> vs) newBaseSource with
  | (_, Err e) => Err ("failed to set config source: " +:+ e)
  | (config, Ok _) => startServiceWithAggregator cfg (ClientService.mkAggregator config None)
  end.
Definition set_proxy_Type (t : string) (c : ProxyConfigurer) : ProxyConfigurer :=
  let x := of_xtcp c in let b := xp_Base x in
  PC_XTCP (mkXTCPProxyConfig (mkProxyBaseConfig (pc_Name b) t (pc_Enabled b) (pc_Annotations b) (pc_Transport b)
    (pc_Metadatas b) (pc_Backend b)) (xp_Secretkey x) (xp_AllowUsers x) (xp_NatTraversal x)).
Definition set_visitor_Type (t : string) (c : VisitorConfigurer) : VisitorConfigurer :=
  let x := of_visitor c in let b := xv_Base x in
  VC_XTCP (mkXTCPVisitorConfig (mkVisitorBaseConfig (vb_Name b) t (vb_Enabled b) (vb_Transport b) (vb_SecretKey b)
    (vb_ServerUser b) (vb_ServerName b) (vb_BindAddr b) (vb_BindPort b)) (xv_Protocol x) (xv_KeepTunnelOpen x)
    (xv_MaxRetriesAnHour x) (xv_MinRetryInterval x) (xv_FallbackTo x) (xv_FallbackTimeoutMs x) (xv_NatTraversal x)).
(** The two commands on what their flags gave. *)
Definition NewProxyCommand (name : string) (c : ProxyConfigurer) (clientCfg : ClientCommonConfig) (unsafe : ConfigValidator)
    : outcome running :=
  finish []
    (ClientCommonConfig_Complete clientCfg ≫= λ clientCfg,
     as_result (ValidateClientCommonConfig unsafe clientCfg).2 ≫= λ _,
     let c := Proxy_Complete (set_proxy_Type name c) in
     ValidateProxyConfigurerForClient c ≫= λ _, startService clientCfg [c] []).
Definition NewVisitorCommand (name : string) (c : VisitorConfigurer) (clientCfg : ClientCommonConfig) (unsafe : ConfigValidator)
    : outcome running :=
  finish []
    (ClientCommonConfig_Complete clientCfg ≫= λ clientCfg,
     as_result (ValidateClientCommonConfig unsafe clientCfg).2 ≫= λ _,
     let c := Visitor_Complete (set_visitor_Type name c) in
     ValidateVisitorConfigurer c ≫= λ _, startService clientCfg [] [c]).
(** [frpc xtcp] and [frpc xtcp visitor]: the command line's flags for the client and for
    the proxy or visitor; [None] when the library refuses a flag. *)
Definition frpc_xtcp (p : program) (client proxy : list (string * fvalue)) : option (outcome running) :=
  cfg ← parse_flags RegisterClientCommonConfigFlags client zero_ClientCommonConfig;
  c0 ← NewProxyConfigurerByType "xtcp";
  c ← parse_flags RegisterProxyFlags proxy c0;
  Some (NewProxyCommand "xtcp" c cfg (Some (NewUnsafeFeatures (pr_allowUnsafe p)))).
Definition frpc_xtcp_visitor (p : program) (client visitor : list (string * fvalue)) : option (outcome running) :=
  cfg ← parse_flags RegisterClientCommonConfigFlags client zero_ClientCommonConfig;
  c0 ← NewVisitorConfigurerByType "xtcp";
  c ← parse_flags RegisterVisitorFlags visitor c0;
  Some (NewVisitorCommand "xtcp" c cfg (Some (NewUnsafeFeatures (pr_allowUnsafe p)))).

(** [frpc nathole discover]: a file that cannot be loaded is ignored. *)
Definition validateForNatHoleDiscovery (cfg : ClientCommonConfig) : result unit :=
  if decide (cc_NatHoleSTUNServer cfg = "") then Err "nat_hole_stun_server can not be empty" else Ok tt.
Definition print_addrs (l : list string) : string := fmt_slice l.
Definition frpc_nathole_discover (p : program) (net : network) (e : listen_env) (interfaces : result (list (option IP)))
    : outcome Empty_set :=
  let cfg := match LoadClientConfig (pr_cfgFile p) (pr_strictConfigMode p) with
             | Ok (cfg, _, _) => Ok cfg
             | Err _ => ClientCommonConfig_Complete zero_ClientCommonConfig
             end in
  match cfg with
  | Err err => Exits ["failed to complete config: " +:+ err] 1
  | Ok cfg =>
      let cfg := if decide (pr_natHoleSTUNServer p = "") then cfg else set_STUNServer (pr_natHoleSTUNServer p) cfg in
      match validateForNatHoleDiscovery cfg with
      | Err err => Exits [err] 1
      | Ok _ =>
          match (Discover net [cc_NatHoleSTUNServer cfg] (pr_natHoleLocalAddr p) e).1 with
          | Err err => Exits ["discover error: " +:+ err] 1
          | Ok (addrs, localAddr) =>
              if (length addrs <? 2)%nat
              then Exits ["discover error: can not get enough addresses, need 2, got: " +:+ print_addrs addrs] 1
              else
                let localIPs := match ListLocalIPsForNatHole 10 interfaces with Ok l => l | Err _ => [] end in
                match ClassifyNATFeature addrs localIPs with
                | Err err => Exits ["classify nat feature error: " +:+ err] 1
                | Ok f =>
                    Exits ["STUN server: " +:+ cc_NatHoleSTUNServer cfg; "Your NAT type is: " +:+ NatType f;
                           "Behavior is: " +:+ Behavior f; "External address is: " +:+ print_addrs addrs;
                           "Local address is: " +:+ localAddr; "Public Network: " +:+ FormatBool (PublicNetwork f)] 0
                end
          end
      end
  end.
End client.

(** ** [frps] *)
Section server.
Context `{Loader} `{OS} `{ServerListen.TLSLib}.

(** [runServer] before [Run]: the service, with what it listens on. *)
Definition served_by : Type := ServerListen.Service * list ServerListen.neffect.
Definition runServer (random : result ServerListen.Certificate) (listen : option string) (cfg : ServerConfig) : result served_by :=
  match ServerListen.NewService random listen cfg with
  | (Ok svr, eff) => Ok (svr, eff)
  | (Err e, _) => Err e
  end.
(** The configuration: the file's, or that of the flags. *)
Definition server_config (p : program) (flags : ServerConfig) : result ServerConfig :=
  if decide (pr_cfgFile p ≠ "") then LoadServerConfig (pr_cfgFile p) (pr_strictConfigMode p)
  else wrap_err "failed to complete server config: " (ServerConfig_Complete flags).
Definition frps_root (version : string) (p : program) (flags : ServerConfig) (random : result ServerListen.Certificate)
    (listen : option string) : outcome served_by :=
  if pr_showVersion p then Exits [version] 0
  else
    match server_config p flags with
    | Err e => Exits [e] 1
    | Ok cfg =>
        let '(warning, e) := ValidateServerConfig (Some (NewUnsafeFeatures (pr_allowUnsafe p))) cfg in
        finish (warning_lines warning) (as_result e ≫= λ _, runServer random listen cfg)
    end.
Definition frps_verify (p : program) : outcome Empty_set :=
  if decide (pr_cfgFile p = "") then Exits ["frps: the configuration file is not specified"] 0
  else
    match LoadServerConfig (pr_cfgFile p) (pr_strictConfigMode p) with
    | Err e => Exits [e] 1
    | Ok cfg =>
        let '(warning, e) := ValidateServerConfig (Some (NewUnsafeFeatures (pr_allowUnsafe p))) cfg in
        match as_result e with
        | Ok _ => Exits (warning_lines warning ++ ["frps: the configuration file " +:+ pr_cfgFile p +:+ " syntax is ok"]) 0
        | Err e => Exits (warning_lines warning ++ [e]) 1
        end
    end.
End server.

(** ** Lemmas *)
Section sources.
Context {T : Type} `{EntryLaws T}.
Definition well_named (l : list T) : Prop := NoDup (entry_name <$> l) /\ Forall (fun x => entry_name x ≠ "") l.
Lemma replace_all_named (l : list T) m : Forall (fun x => entry_name x ≠ "") l ->
  replace_all (Some <$> l) m = Ok (merge_entries m l).
Proof.
  intros Hl. revert m. induction Hl as [|x l Hx Hl IH]; intros m; [done|].
  change (validate_name (Some x) ≫= (λ name, replace_all (Some <$> l) (<[name := x]> m)) = Ok (merge_entries (<[entry_name x := x]> m) l)).
  unfold validate_name. rewrite decide_False by done. apply IH.
Qed.
Lemma well_named_keyed (l : list T) : well_named l -> keyed (merge_entries ∅ l).
Proof.
  intros [_ Hl]. apply (replace_all_keyed (Some <$> l) ∅); [apply map_Forall_empty|]. by apply replace_all_named.
Qed.
Lemma well_named_values (l : list T) : well_named l -> values (merge_entries ∅ l) ≡ₚ l.
Proof.
  intros Hw. pose proof (well_named_keyed l Hw) as Hk. destruct Hw as [Hnd Hl].
  apply NoDup_Permutation; [by eapply NoDup_fmap_1, values_nodup|by eapply NoDup_fmap_1|].
  intros x. rewrite elem_of_values by done. split.
  - intros Hx. destruct (decide (entry_name x ∈ entry_name <$> l)) as [Hin|Hin].
    + apply list_elem_of_fmap in Hin as (y & Exy & Hy). rewrite Exy, (merge_lookup l ∅ y Hnd Hy) in Hx. by simplify_eq.
    + by rewrite merge_lookup_ne, lookup_empty in Hx.
  - intros Hx. by apply merge_lookup.
Qed.
(** The values of one source come back sorted, the enabled ones only. *)
Lemma one_source (l : list T) : (forall x, entry_clone x = x) -> well_named l ->
  sorted_values (merge_entries ∅ (load_entries (values (merge_entries ∅ l)))) ≡ₚ filter (fun x => ConfigSource.is_enabled x = true) l.
Proof.
  intros Hclone Hw. unfold sorted_values. rewrite merge_sort_Permutation.
  change (values (merge_entries ∅ (load_entries (values (merge_entries ∅ l)))) ≡ₚ filter (fun x => ConfigSource.is_enabled x = true) l).
  assert (Hload : load_entries (values (merge_entries ∅ l)) ≡ₚ filter (fun x => ConfigSource.is_enabled x = true) l).
  { unfold load_entries. rewrite (list_fmap_ext _ id) by (intros; apply Hclone). rewrite list_fmap_id.
    by rewrite well_named_values. }
  rewrite well_named_values; [done|]. split.
  - eapply load_entries_nodup; [by apply well_named_keyed|done].
  - rewrite Hload. apply Forall_forall. intros x [_ Hx]%list_elem_of_filter. destruct Hw as [_ Hl]. rewrite Forall_forall in Hl. by apply Hl.
Qed.
End sources.
Lemma Proxy_Clone_id c : Proxy_Clone c = c.
Proof. by destruct c as [[[? ? [] ? ? ? ?] ? ? []]]. Qed.
Lemma Visitor_Clone_id c : Visitor_Clone c = c.
Proof. by destruct c as [[[? ? [] ? ? ? ? ? ?] ? ? ? ? ? ? []]]. Qed.

Lemma Lfilter_filter {A} (f : A -> bool) l : List.filter f l = filter (fun x => f x = true) l.
Proof. induction l as [|x l IH]; [done|]. rewrite filter_cons. simpl. rewrite IH. by destruct (f x). Qed.
(** What is left of one list of configurations after the filter, in any order. *)
Lemma Lfilter_perm {A} (f : A -> bool) l l' : l ≡ₚ l' -> List.filter f l ≡ₚ List.filter f l'.
Proof. intros Hl. rewrite !Lfilter_filter. by rewrite Hl. Qed.
Lemma filter_after_source {A} (en st : A -> bool) (l l' : list A) :
  l' ≡ₚ List.filter en l -> List.filter en (List.filter st l') ≡ₚ List.filter en (List.filter st l).
Proof.
  intros Hl. rewrite (Lfilter_perm en _ _ (Lfilter_perm st _ _ Hl)). clear Hl.
  replace (List.filter en (List.filter st (List.filter en l))) with (List.filter en (List.filter st l)); [done|].
  induction l as [|x l IH]; [done|]. simpl.
  destruct (en x) eqn:Ee; simpl; destruct (st x); simpl; rewrite ?Ee, IH; done.
Qed.
(** The service's configurations without a store are those that loading hands out. *)
Lemma pipeline_loads common ps vs config :
  well_named ps -> well_named vs -> ReplaceAll (Some <$> ps) (Some <$> vs) newBaseSource = (config, Ok tt) ->
  let '(fps, fvs) := FilterClientConfigurers (cc_Start common) ps vs in
  let '(rps, rvs) := ClientService.pipeline common (ClientService.mkAggregator config None) in
  rps ≡ₚ CompleteProxyConfigurers fps /\ rvs ≡ₚ CompleteVisitorConfigurers fvs.
Proof.
  intros Hp Hv. unfold ReplaceAll. rewrite !replace_all_named by (apply Hp || apply Hv). simpl. intros [= <-].
  unfold ClientService.pipeline, ClientService.Aggregator_Load, FilterClientConfigurers. simpl.
  split; apply fmap_Permutation, filter_after_source; rewrite Lfilter_filter;
    (etrans; [apply one_source; [apply Proxy_Clone_id || apply Visitor_Clone_id|done]|]).
  - apply reflexive_eq, list_filter_iff. intros x. unfold ConfigSource.is_enabled. simpl. by destruct (pc_Enabled _) as [[]|].
  - apply reflexive_eq, list_filter_iff. intros x. unfold ConfigSource.is_enabled. simpl. by destruct (vb_Enabled _) as [[]|].
Qed.
Lemma ValidateAll_perm `{Text} `{Dirs} c ps ps' vs vs' unsafe : ps ≡ₚ ps' -> vs ≡ₚ vs' ->
  (ValidateAllClientConfig (Some c) ps vs unsafe).2 = Ok tt <-> (ValidateAllClientConfig (Some c) ps' vs' unsafe).2 = Ok tt.
Proof.
  intros Hp Hv. unfold ValidateAllClientConfig. destruct (ValidateClientCommonConfig unsafe c) as [w e]. simpl.
  assert (Hall : forall ps vs, as_result e ≫= (λ _, validate_proxies ps ≫= λ _, validate_visitors vs) = Ok tt <->
    as_result e = Ok tt /\ Forall (λ c, ValidateProxyConfigurerForClient c = Ok tt) ps /\
    Forall (λ c, ValidateVisitorConfigurer c = Ok tt) vs).
  { intros ps0 vs0. rewrite <- validate_proxies_Ok, <- validate_visitors_Ok.
    destruct (as_result e) as [[]|]; simpl; [|naive_solver]. destruct (validate_proxies ps0) as [[]|]; simpl; naive_solver. }
  by rewrite !Hall, Hp, Hv.
Qed.

(** ** Theorems *)
Section run.
#[local] Arguments BuildClientAuth : simpl never.
#[local] Arguments ClientService.pipeline : simpl never.
Context `{Loader} `{Dirs} `{OS} `{Text} `{StoreCodec}.
(** [LoadClientConfigResult] gives a completed common part and distinct names. *)
Lemma loaded_result path strict r : LoadClientConfigResult path strict = Ok r ->
  ClientCommonConfig_Complete (cl_Common r) = Ok (cl_Common r) /\
  NoDup (entry_name <$> cl_Proxies r) /\ NoDup (entry_name <$> cl_Visitors r).
Proof.
  unfold LoadClientConfigResult. intros Hr. repeat (apply result_bind_Ok in Hr as (? & ? & Hr)). simplify_eq. simpl.
  match goal with E : ClientCommonConfig_Complete ?c = Ok ?c' |- _ =>
    destruct (complete_idempotent c zero_ServerConfig) as [(c1 & Hc1 & Hc2) _]; rewrite E in Hc1 end.
  simplify_eq. split; [done|]. apply validateNoDuplicateNames_Ok. by match goal with u : () |- _ => destruct u end.
Qed.
Lemma run_no_store r unsafe path fs config : cc_Store_Path (cl_Common r) = "" ->
  ReplaceAll (Some <$> cl_Proxies r) (Some <$> cl_Visitors r) newBaseSource = (config, Ok tt) ->
  let a := ClientService.mkAggregator config None in
  let c := ClientService.pipeline (cl_Common r) a in
  runClientWithAggregator r unsafe path fs =
    ((ValidateAllClientConfig (Some (cl_Common r)) c.1 c.2 unsafe).1,
     (ValidateAllClientConfig (Some (cl_Common r)) c.1 c.2 unsafe).2 ≫= λ _, startServiceWithAggregator (cl_Common r) a).
Proof.
  intros Hs Hc a c. subst c. unfold runClientWithAggregator. rewrite Hc. unfold open_store, StoreConfig_IsEnabled. rewrite Hs.
  rewrite bool_decide_true by done. change (negb true) with false. cbv iota. fold a.
  destruct (ClientService.pipeline (cl_Common r) a) as [rps rvs]. cbn [fst snd].
  by destruct (ValidateAllClientConfig (Some (cl_Common r)) rps rvs unsafe).
Qed.
Lemma start_completed c a s g : ClientCommonConfig_Complete c = Ok c ->
  startServiceWithAggregator c a = Ok (s, g) <->
  (exists b, BuildClientAuth (Some (cc_Auth c)) = Ok b) /\
  s = ClientService.mkService c (Some a) (ClientService.pipeline c a) "" None [] false ClientService.LTop ClientService.RIdle ClientService.MLogin /\
  g = bool_decide (ct_Protocol (cc_Transport c) = "tcp").
Proof.
  intros Hidem. unfold startServiceWithAggregator, ClientService.NewService. rewrite Hidem. simpl.
  destruct (BuildClientAuth (Some (cc_Auth c))) as [b|]; simpl; [|naive_solver].
  split; [intros [= <- <-]; eauto|by intros (_ & -> & ->)].
Qed.
(** C22. Verifying a file predicts running it: for a configuration without a store whose proxies
    and visitors all have names, [frpc verify] accepts the file and the token can be
    resolved exactly when [frpc] starts a service, and that service has the proxies and
    visitors that were verified. *)
Theorem verify_predicts_run path strict unsafe fs r common ps vs :
  LoadClientConfigResult path strict = Ok r -> LoadClientConfig path strict = Ok (common, ps, vs) ->
  cc_Store_Path common = "" ->
  Forall (fun x => proxy_name x ≠ "") (cl_Proxies r) -> Forall (fun x => visitor_name x ≠ "") (cl_Visitors r) ->
  ((exists s, (runClient path strict unsafe fs).2 = Ok s) <->
   (verifyClientConfig path strict unsafe).2 = Ok tt /\ exists a, BuildClientAuth (Some (cc_Auth common)) = Ok a) /\
  (forall s g, (runClient path strict unsafe fs).2 = Ok (s, g) ->
     (ClientService.sv_cfgs s).1 ≡ₚ ps /\ (ClientService.sv_cfgs s).2 ≡ₚ vs).
Proof.
  intros Hr Hl Hstore Hpn Hvn. destruct (loaded_result _ _ _ Hr) as (Hidem & Hpd & Hvd).
  unfold runClient, verifyClientConfig. rewrite Hr, Hl. unfold LoadClientConfig in Hl.
  apply result_bind_Ok in Hl as (r' & Hr' & Hl). rewrite Hr in Hr'. injection Hr' as <-.
  destruct (FilterClientConfigurers _ _ _) as [fps fvs] eqn:Hf. injection Hl as <- <- <-.
  assert (Hconfig : ReplaceAll (Some <$> cl_Proxies r) (Some <$> cl_Visitors r) newBaseSource =
    (mkBase (merge_entries ∅ (cl_Proxies r)) (merge_entries ∅ (cl_Visitors r)), Ok tt)).
  { unfold ReplaceAll. by rewrite !replace_all_named. }
  pose proof (pipeline_loads (cl_Common r) _ _ _ (conj Hpd Hpn) (conj Hvd Hvn) Hconfig) as Hpipe. rewrite Hf in Hpipe.
  rewrite (run_no_store r unsafe path fs _ Hstore Hconfig). set (a := ClientService.mkAggregator _ None) in *. cbn [snd].
  assert (Hnew := fun s g => start_completed (cl_Common r) a s g Hidem).
  destruct (ClientService.pipeline (cl_Common r) a) as [rps rvs]. destruct Hpipe as [Hp1 Hp2]. cbn [fst snd].
  pose proof (ValidateAll_perm (cl_Common r) _ _ _ _ unsafe Hp1 Hp2) as Hval.
  split; [split|].
  - intros ([s g] & ([] & Hv & Hs)%result_bind_Ok). apply Hnew in Hs as [Hb _]. split; [by apply Hval|done].
  - intros (Hv & b & Hb). apply Hval in Hv. eexists (_, _). apply result_bind_Ok. exists tt. split; [done|]. apply Hnew. eauto.
  - intros s g ([] & _ & (_ & -> & _)%Hnew)%result_bind_Ok. done.
Qed.
End run.

(** A loader that knows two files: that of [demo_loader], and one whose second proxy is
    disabled and has no name. *)
Definition nameless_loader : Loader :=
  {| LoadClientFile path strict :=
       if decide (path = "nameless.toml")
       then Ok (mkClientConfig demo_common [demo_proxy_cfg "ssh" None; demo_proxy_cfg "" (Some false)] [])
       else @LoadClientFile demo_loader path strict;
     LoadServerFile _ _ := Err "no such file"; ReadDir _ := Ok []; MatchFile _ _ := false |}.
Definition demo_run (path : string) : errs * result running :=
  @runClient nameless_loader demo_dirs demo_os demo_text ConfigSource.demo_codec path true None ∅.
Lemma verify_predicts_run_witness :
  match (demo_run "frpc.toml").2 with
  | Ok (s, _) => proxy_name <$> (ClientService.sv_cfgs s).1 = ["ssh"] /\
      (exists ps, (ClientService.sv_cfgs s).1 ≡ₚ ps /\ proxy_name <$> ps = ["ssh"])
  | Err _ => False
  end.
Proof.
  destruct (@LoadClientConfigResult nameless_loader demo_dirs demo_os "frpc.toml" true) as [r|] eqn:Er; [|vm_compute in Er; discriminate].
  destruct (@LoadClientConfig nameless_loader demo_dirs demo_os "frpc.toml" true) as [[[common ps] vs]|] eqn:El; [|vm_compute in El; discriminate].
  pose proof (@verify_predicts_run nameless_loader demo_dirs demo_os demo_text ConfigSource.demo_codec
    "frpc.toml" true None ∅ r common ps vs Er El) as Hv.
  destruct (demo_run "frpc.toml") as [w [[s g]|]] eqn:Es; [|vm_compute in Es; discriminate]. cbn [snd].
  split; [vm_compute in Es; injection Es as _ <- _; reflexivity|]. exists ps. split.
  - apply (proj2 (Hv ltac:(vm_compute in El; injection El as <- _ _; reflexivity)
      ltac:(vm_compute in Er; injection Er as <-; repeat constructor; discriminate)
      ltac:(vm_compute in Er; injection Er as <-; repeat constructor)) s g).
    change (@runClient _ _ _ _ _ _ _ _ _) with (demo_run "frpc.toml"). by rewrite Es.
  - vm_compute in El. injection El as _ <- _. reflexivity.
Defined.
(** A disabled proxy without a name: accepted by [verify], refused by [frpc]. *)
Theorem verify_accepts_nameless :
  (@verifyClientConfig nameless_loader demo_dirs demo_os demo_text "nameless.toml" true None).2 = Ok tt /\
  (demo_run "nameless.toml").2 = Err "failed to set config source: proxy name cannot be empty".
Proof. by split; vm_compute. Qed.
(** The flags of [frpc xtcp] give a service with the one proxy they describe. *)
Definition demo_xtcp_command : option (outcome running) :=
  @frpc_xtcp demo_dirs demo_os demo_text zero_program [("server-addr", VString "example.com"); ("token", VString "t")]
    [("proxy_name", VString "ssh"); ("sk", VString "k"); ("local-port", VInt 22)].
Lemma xtcp_command_serves : match demo_xtcp_command with
  | Some (Serves _ (s, g)) =>
      (ClientService.sv_cfgs s).1 = [PC_XTCP (mkXTCPProxyConfig (mkProxyBaseConfig "ssh" "xtcp" None ∅ (mkProxyTransport false false) ∅
         (mkProxyBackend "127.0.0.1" 22)) "k" [] None)] /\
      cc_ServerAddr (ClientService.sv_reloadCommon s) = "example.com" /\ g = true
  | _ => False
  end.
Proof. by vm_compute. Qed.
(** Where a store lies. *)
Lemma store_path_examples :
  store_path "store.json" "/etc/frp/frpc.toml" = "/etc/frp/store.json" /\ store_path "../s" "conf/frpc.toml" = "s" /\
  store_path "s" "frpc.toml" = "s" /\ store_path "/var/s" "conf/frpc.toml" = "/var/s" /\ Clean "/../a//b/./c/.." = "/a/b".
Proof. by split_and!. Qed.

(** A configuration that [frps verify] accepts fails in [frps] only where the service cannot
    be made: its TLS, its token, or listening. *)
Theorem frps_verify_predicts `{Loader} `{OS} `{ServerListen.TLSLib} version p flags random listen printed :
  pr_cfgFile p ≠ "" -> pr_showVersion p = false -> frps_verify p = Exits printed 0 ->
  exists cfg warnings, LoadServerConfig (pr_cfgFile p) (pr_strictConfigMode p) = Ok cfg /\
    frps_root version p flags random listen = finish warnings (runServer random listen cfg).
Proof.
  intros Hf Hv. unfold frps_verify, frps_root, server_config. rewrite Hv, decide_False, decide_True by done.
  destruct (LoadServerConfig _ _) as [cfg|]; [|done].
  destruct (ValidateServerConfig _ cfg) as [w e]. destruct (as_result e) as [[]|] eqn:Ee; [|done].
  intros _. exists cfg, (warning_lines w). done.
Qed.
