(* ===== verification/Xlog.v ===== *)
(** * Loggers: [pkg/util/xlog], [pkg/util/log], [pkg/util/version]

    A logger's prefixes, what they are printed as, how a context carries a logger, and what
    [InitLogger] asks of the logging library.  A logger is shared by pointer: the operations
    here are those on the logger itself, and what shares it sees them all.  Writing lines is
    the library's. *)
From S2P Require Import Prelude GoStd.
From stdpp Require Import list sorting.
Local Open Scope Z_scope.

(** ** Prefixes *)
Record LogPrefix := mkLogPrefix { lp_Name : string; lp_Value : string; lp_Priority : Z }.
Record Logger := mkLogger { lg_prefixes : list LogPrefix; lg_prefixString : string }.
Definition New : Logger := mkLogger [] "".
Definition ResetPrefixes (l : Logger) : list LogPrefix * Logger := (lg_prefixes l, New).
(** [slices.SortStableFunc] by priority: every element goes behind those not after it. *)
Fixpoint insert_prefix (x : LogPrefix) (l : list LogPrefix) : list LogPrefix :=
  match l with
  | [] => [x]
  | y :: l => if lp_Priority y <=? lp_Priority x then y :: insert_prefix x l else x :: y :: l
  end.
Definition sort_prefixes (l : list LogPrefix) : list LogPrefix := foldl (fun acc x => insert_prefix x acc) [] l.
Fixpoint render (l : list LogPrefix) : string :=
  match l with [] => "" | p :: l => "[" +:+ lp_Value p +:+ "] " +:+ render l end.
Definition renderPrefixString (l : list LogPrefix) : Logger := let l := sort_prefixes l in mkLogger l (render l).
(** The loop of [AddPrefix]: the first prefix of the name is replaced. *)
Fixpoint replace_prefix (p : LogPrefix) (l : list LogPrefix) : option (list LogPrefix) :=
  match l with
  | [] => None
  | q :: l =>
      if decide (lp_Name q = lp_Name p) then Some (mkLogPrefix (lp_Name q) (lp_Value p) (lp_Priority p) :: l)
      else (cons q) <$> replace_prefix p l
  end.
Definition AddPrefix (p : LogPrefix) (l : Logger) : Logger :=
  let p := mkLogPrefix (lp_Name p) (lp_Value p) (if lp_Priority p <=? 0 then 10 else lp_Priority p) in
  renderPrefixString (default (lg_prefixes l ++ [p]) (replace_prefix p (lg_prefixes l))).
Definition AppendPrefix (prefix : string) (l : Logger) : Logger := AddPrefix (mkLogPrefix prefix prefix 10) l.
Definition Spawn (l : Logger) : Logger := renderPrefixString (lg_prefixes l).
(** A line: [Errorf] and its siblings print the message after the prefixes; a writer of
    lines trims what it is given and reports all of it written. *)
Definition logged (l : Logger) (message : string) : string := lg_prefixString l +:+ message.
Definition LogWriter_Write (l : Logger) (p : string) : string * Z := (logged l (TrimSpace p), Z.of_nat (length (bytes_of p))).

(** ** Contexts *)
(** The logger a context carries. *)
Definition FromContext (ctx : option Logger) : option Logger := ctx.
Definition FromContextSafe (ctx : option Logger) : Logger := default New ctx.

(** ** [InitLogger] *)
Inductive log_option : Type := WithConsole (colorful : bool) | WithRotateFile (file : string) (maxDays : Z) | WithLevel (level : string).
(** [ParseLevel] is the library's: the level, [None] on an error. *)
Definition InitLogger (ParseLevel : string -> option string) (logPath levelStr : string) (maxDays : Z) (disableLogColor : bool)
    : list log_option :=
  (if decide (logPath = "console") then (if disableLogColor then [] else [WithConsole true]) else [WithRotateFile logPath maxDays])
  ++ [WithLevel (default "info" (ParseLevel levelStr))].

(** ** Version *)
Definition version_Full : string := "0.71.0".

(** ** Theorems *)
Definition names (l : list LogPrefix) : list string := lp_Name <$> l.
Definition ordered (x y : LogPrefix) : Prop := lp_Priority x <= lp_Priority y.
Definition of_priority (n : Z) (l : list LogPrefix) : list LogPrefix := filter (fun p => lp_Priority p = n) l.
Lemma insert_prefix_perm x l : insert_prefix x l ≡ₚ x :: l.
Proof. induction l as [|y l IH]; simpl; [done|]. destruct (_ <=? _); [|done]. rewrite IH. apply Permutation_swap. Qed.
Lemma insert_prefix_sorted x l : StronglySorted ordered l -> StronglySorted ordered (insert_prefix x l).
Proof.
  induction 1 as [|y l Hl IH Hy]; simpl; [repeat constructor|].
  destruct (Z.leb_spec (lp_Priority y) (lp_Priority x)) as [Hle|Hlt].
  - constructor; [done|]. rewrite insert_prefix_perm. by constructor.
  - constructor; [by constructor|]. unfold ordered in *. constructor; [lia|]. eapply Forall_impl; [exact Hy|]. simpl. intros; lia.
Qed.
Lemma of_priority_none n l : Forall (fun p => lp_Priority p ≠ n) l -> of_priority n l = [].
Proof. unfold of_priority. induction 1 as [|x l Hx Hl IH]; [done|]. by rewrite filter_cons_False. Qed.
Lemma of_priority_cons n x l : of_priority n (x :: l) = of_priority n [x] ++ of_priority n l.
Proof. unfold of_priority. rewrite !filter_cons. by destruct (decide (lp_Priority x = n)). Qed.
Lemma insert_prefix_stable n x l : StronglySorted ordered l -> of_priority n (insert_prefix x l) = of_priority n l ++ of_priority n [x].
Proof.
  induction 1 as [|y l Hl IH Hy]; [done|]. cbn [insert_prefix].
  destruct (Z.leb_spec (lp_Priority y) (lp_Priority x)) as [Hle|Hlt].
  - by rewrite (of_priority_cons n y), IH, (of_priority_cons n y l), app_assoc.
  - rewrite (of_priority_cons n x). destruct (decide (lp_Priority x = n)) as [<-|Hne].
    + rewrite (of_priority_none _ (y :: l)); [by rewrite app_nil_r|].
      constructor; [lia|]. eapply Forall_impl; [exact Hy|]. unfold ordered. intros; lia.
    + rewrite (of_priority_none n [x]) by (by repeat constructor). by rewrite app_nil_r.
Qed.
Lemma sort_prefixes_snoc l x : sort_prefixes (l ++ [x]) = insert_prefix x (sort_prefixes l).
Proof. unfold sort_prefixes. by rewrite foldl_app. Qed.
(** The sort is one: sorted, with the same prefixes, those of one priority in their order. *)
Lemma sort_prefixes_spec l : StronglySorted ordered (sort_prefixes l) /\ sort_prefixes l ≡ₚ l /\
  forall n, of_priority n (sort_prefixes l) = of_priority n l.
Proof.
  induction l as [|x l (IH1 & IH2 & IH3)] using rev_ind; [by split_and!; [constructor|..]|].
  rewrite sort_prefixes_snoc. split_and!.
  - by apply insert_prefix_sorted.
  - rewrite insert_prefix_perm, IH2. apply Permutation_cons_append.
  - intros n. rewrite insert_prefix_stable by done. rewrite IH3. unfold of_priority. by rewrite filter_app.
Qed.
Lemma insert_prefix_last x l : Forall (fun y => ordered y x) l -> insert_prefix x l = l ++ [x].
Proof. induction 1 as [|y l Hy Hl IH]; [done|]. simpl. unfold ordered in Hy. by rewrite (proj2 (Z.leb_le _ _) Hy), IH. Qed.
Lemma sort_prefixes_sorted l : StronglySorted ordered l -> sort_prefixes l = l.
Proof.
  induction l as [|x l IH] using rev_ind; [done|]. intros (H2 & H1 & _)%StronglySorted_app. rewrite sort_prefixes_snoc, IH by done.
  apply insert_prefix_last, Forall_forall. intros y Hy. apply H2; [done|by apply list_elem_of_singleton].
Qed.
Lemma replace_prefix_names p l : match replace_prefix p l with
  | Some l' => names l' = names l /\ lp_Name p ∈ names l
  | None => lp_Name p ∉ names l
  end.
Proof.
  induction l as [|q l IH]; simpl; [apply not_elem_of_nil|]. destruct (decide (lp_Name q = lp_Name p)) as [E|Hne].
  - split; [done|]. rewrite E. apply elem_of_cons. by left.
  - destruct (replace_prefix p l) as [l'|]; simpl.
    + destruct IH as [IH1 IH2]. split; [by rewrite <- IH1|]. apply elem_of_cons. by right.
    + apply not_elem_of_cons. split; [by apply not_eq_sym|done].
Qed.
(** A logger as its operations leave it: prefixes of distinct names, sorted, and their text. *)
Definition logger_ok (l : Logger) : Prop :=
  NoDup (names (lg_prefixes l)) /\ StronglySorted ordered (lg_prefixes l) /\ lg_prefixString l = render (lg_prefixes l).
Theorem logger_invariant : logger_ok New /\ (forall p l, logger_ok l -> logger_ok (AddPrefix p l)) /\
  (forall l, logger_ok l -> logger_ok (Spawn l) /\ lg_prefixString (Spawn l) = lg_prefixString l).
Proof.
  split_and!; [by split_and!; constructor| |].
  - intros p l (Hnd & _ & _). unfold AddPrefix, renderPrefixString. set (p' := mkLogPrefix _ _ _).
    pose proof (replace_prefix_names p' (lg_prefixes l)) as Hr. set (l' := default _ _).
    destruct (sort_prefixes_spec l') as (H1 & H2 & _). split_and!; simpl; [|done|done].
    unfold names. rewrite H2. subst l'. destruct (replace_prefix p' (lg_prefixes l)) as [l'|]; simpl.
    + destruct Hr as [Hr _]. unfold names in *. by rewrite Hr.
    + rewrite fmap_app. apply NoDup_app. split_and!; [done| |by apply NoDup_singleton].
      intros x Hx ->%list_elem_of_singleton. done.
  - intros l (Hnd & Hs & Ht). destruct (sort_prefixes_spec (lg_prefixes l)) as (H1 & H2 & H3).
    assert (Hsort : sort_prefixes (lg_prefixes l) = lg_prefixes l).
    { by apply sort_prefixes_sorted. }
    unfold Spawn, renderPrefixString. rewrite Hsort. by split.
Qed.
(** The prefix of the smaller number comes first, the default is ten. *)
Theorem smaller_priority_first :
  lg_prefixString (AddPrefix (mkLogPrefix "b" "b" 20) (AddPrefix (mkLogPrefix "a" "a" 0) New)) = "[a] [b] " /\
  lg_prefixString (AddPrefix (mkLogPrefix "b" "b" 5) (AddPrefix (mkLogPrefix "a" "a" 0) New)) = "[b] [a] ".
Proof. by split. Qed.
(** Two logins on the streams of one connection share its logger: the lines of both carry
    the run ids of both. *)
Theorem shared_logger_mixes : lg_prefixString (AppendPrefix "run2" (AppendPrefix "run1" New)) = "[run1] [run2] ".
Proof. done. Qed.
