(* ===== verification/VisitorRun.v ===== *)
(** * The life of a visitor: [client/visitor/visitor.go], [client/visitor/xtcp.go]

    What [Run] starts and what [Close] ends: the two accept loops, a goroutine for every user
    connection, the goroutine that makes holes, the keeper, and the sessions they use.  The
    tunnel they share is [Tunnel], the internal listener [DataPath]; here they are put together
    with the goroutines, to show when a closed visitor comes to rest, and where the keeper
    is stuck for ever. *)
From S2P Require Import Prelude GoStd ConfigV1 Tunnel DataPath.
From stdpp Require Import relations gmap list.
Local Open Scope Z_scope.

(** ** The visitor *)
Inductive session_kind : Type := KCPTunnel | QUICTunnel.
(** The keeper: not started, about to make its ticker, at its first send (which [Tunnel]
    has as [tn_keeper]), in its loop, in [getTunnelConn] after [OpenConn] failed, and after
    closing the session, waiting for the limiter, returned, panicked. *)
Inductive kphase : Type := KNone | KTicker | KFirst | KLoop | KErr | KStart | KLimiter | KReturned | KPanicked.
#[export] Instance kphase_eq_dec : EqDecision kphase.
Proof. solve_decision. Defined.
#[export] Instance pphase_eq_dec : EqDecision pphase.
Proof. solve_decision. Defined.
(** A goroutine of [handleConn]: in [openTunnel], in [getTunnelConn] after [OpenConn] failed, and
    after closing the session, wrapping the tunnel connection or joining, returned. *)
Inductive uphase : Type := UOpening | UErr | UStart | UJoined | UDone.
(** [vr_local] is the listener for users, open or closed, when there is one; the loops are
    running or not; [vr_handled] are the connections given to [handleConn], [vr_users] their
    goroutines ([tn_errors] and [tn_starters] of [Tunnel], which only counts them, stay zero). *)
Record visitor := mkVisitor {
  vr_cfg : XTCPVisitorConfig;
  vr_session : option session_kind;
  vr_cancel : bool;
  vr_local : option bool;
  vr_local_loop : bool;
  vr_internal : listener;
  vr_internal_loop : bool;
  vr_keeper : kphase;
  vr_tunnel : tunnel;
  vr_handled : list nat;
  vr_users : list uphase;
}.
(** [NewVisitor]; the goroutine of the tunnel is not running yet. *)
Definition NewVisitor (cfg : VisitorConfigurer) : visitor :=
  match cfg with
  | VC_XTCP c => mkVisitor c None false None false NewInternalListener false KNone (set_proc PReturned (tunnel_start false)) [] []
  end.
Definition session_for (protocol : string) : session_kind := if decide (protocol = "kcp") then KCPTunnel else QUICTunnel.
(** [Run]; [listen] is the error of listening for users.  With [KeepTunnelOpen] the rate of
    the limiter divides an hour by [MaxRetriesAnHour]: zero panics ([None]). *)
Definition Run (listen : option string) (v : visitor) : option (option string * visitor) :=
  let c := vr_cfg v in
  let session := Some (session_for (xv_Protocol c)) in
  let base local loop k := mkVisitor c session true local loop (vr_internal v) true k (tunnel_start false) (vr_handled v) (vr_users v) in
  let start local loop :=
    if xv_KeepTunnelOpen c then
      if decide (xv_MaxRetriesAnHour c = 0) then None
      else Some (None, base local loop KTicker)
    else Some (None, base local loop KNone) in
  if 0 <? vb_BindPort (xv_Base c) then
    match listen with
    | Some e => Some (Some e, mkVisitor c session true None false (vr_internal v) false (vr_keeper v) (vr_tunnel v) (vr_handled v) (vr_users v))
    | None => start (Some true) true
    end
  else start None false.
Definition AcceptConn (conn : nat) (v : visitor) : result unit * visitor :=
  let '(r, l) := PutConn conn (vr_internal v) in
  (r, mkVisitor (vr_cfg v) (vr_session v) (vr_cancel v) (vr_local v) (vr_local_loop v) l (vr_internal_loop v)
        (vr_keeper v) (vr_tunnel v) (vr_handled v) (vr_users v)).
(** [Close] of the visitor with that of its [BaseVisitor]. *)
Definition Close (v : visitor) : visitor :=
  let t := vr_tunnel v in
  let t := mkTunnel (tn_session t) (tn_open t) (tn_done t || vr_cancel v) (tn_proc t) (tn_errors t) (tn_starters t) (tn_keeper t) in
  mkVisitor (vr_cfg v) (vr_session v) (vr_cancel v) ((fun _ => false) <$> vr_local v) (vr_local_loop v)
    (Listener_Close (vr_internal v)) (vr_internal_loop v) (vr_keeper v)
    (match vr_session v with Some _ => Session_Close t | None => t end) (vr_handled v) (vr_users v).
(** [OpenConn] of the two kinds of session: the error without one, else what opening a stream
    gives; [session] is the answer of the library, when there is a session. *)
Definition KCP_OpenConn (session : option (result nat)) : result nat :=
  match session with None => Err "no tunnel session" | Some r => r end.
Definition QUIC_OpenConn (session : option (nat * result nat)) : result (nat * nat) :=
  match session with
  | None => Err "no tunnel session"
  | Some (_, Err e) => Err e
  | Some (s, Ok stream) => Ok (stream, s)
  end.
(** The QUIC session and its socket; [qs_closed] are the sessions and the sockets closed. *)
Record QUICTunnelSession := mkQUICTunnelSession {
  qs_session : option nat;
  qs_listenConn : option nat;
  qs_closed : list (nat + nat);
}.
Definition NewQUICTunnelSession : QUICTunnelSession := mkQUICTunnelSession None None [].
(** [Init] once its calls succeeded. *)
Definition QUIC_Init (session conn : nat) (q : QUICTunnelSession) : QUICTunnelSession :=
  mkQUICTunnelSession (Some session) (Some conn) (qs_closed q).
Definition QUIC_Close (q : QUICTunnelSession) : QUICTunnelSession :=
  mkQUICTunnelSession None None (qs_closed q ++ (match qs_session q with Some s => [inl s] | None => [] end) ++
    match qs_listenConn q with Some c => [inr c] | None => [] end).

(** ** Its goroutines *)
Definition set_tunnel (t : tunnel) (v : visitor) : visitor :=
  mkVisitor (vr_cfg v) (vr_session v) (vr_cancel v) (vr_local v) (vr_local_loop v) (vr_internal v) (vr_internal_loop v)
    (vr_keeper v) t (vr_handled v) (vr_users v).
Definition set_keeper (k : kphase) (v : visitor) : visitor :=
  mkVisitor (vr_cfg v) (vr_session v) (vr_cancel v) (vr_local v) (vr_local_loop v) (vr_internal v) (vr_internal_loop v)
    k (vr_tunnel v) (vr_handled v) (vr_users v).
Definition handle (c : nat) (v : visitor) : visitor :=
  mkVisitor (vr_cfg v) (vr_session v) (vr_cancel v) (vr_local v) (vr_local_loop v) (vr_internal v) (vr_internal_loop v)
    (vr_keeper v) (vr_tunnel v) (vr_handled v ++ [c]) (vr_users v ++ [UOpening]).
Definition set_loops (local internal : bool) (l : listener) (v : visitor) : visitor :=
  mkVisitor (vr_cfg v) (vr_session v) (vr_cancel v) (vr_local v) local l internal
    (vr_keeper v) (vr_tunnel v) (vr_handled v) (vr_users v).
Definition set_user (i : nat) (u : uphase) (v : visitor) : visitor :=
  mkVisitor (vr_cfg v) (vr_session v) (vr_cancel v) (vr_local v) (vr_local_loop v) (vr_internal v) (vr_internal_loop v)
    (vr_keeper v) (vr_tunnel v) (vr_handled v) (<[i := u]> (vr_users v)).
(** The steps of the goroutines.  A start, of a user or of the keeper's loop, is received by the
    goroutine in its [select], or dropped (also when the goroutine is only about to reach the
    [select]).  A user opens a stream only of an open session, gives up at the end of a
    context, and ends when one side of the joined connections does. *)
Inductive gstep : visitor -> visitor -> Prop :=
| g_user c v : vr_local_loop v = true -> vr_local v = Some true -> gstep v (handle c v)
| g_user_end v : vr_local_loop v = true -> vr_local v ≠ Some true -> gstep v (set_loops false (vr_internal_loop v) (vr_internal v) v)
| g_internal c l v : vr_internal_loop v = true -> Accept (vr_internal v) = Some (Ok c, l) ->
    gstep v (handle c (set_loops (vr_local_loop v) true l v))
| g_internal_end e l v : vr_internal_loop v = true -> Accept (vr_internal v) = Some (Err e, l) ->
    gstep v (set_loops (vr_local_loop v) false l v)
| g_return v : tn_proc (vr_tunnel v) = PSelect -> tn_done (vr_tunnel v) = true ->
    gstep v (set_tunnel (set_proc PReturned (vr_tunnel v)) v)
| g_made v : tn_proc (vr_tunnel v) = PHole -> gstep v (set_tunnel (set_proc PSleep (Init (vr_tunnel v))) v)
| g_not_made v : tn_proc (vr_tunnel v) = PHole -> gstep v (set_tunnel (set_proc PSleep (vr_tunnel v)) v)
| g_wake v : tn_proc (vr_tunnel v) = PSleep -> gstep v (set_tunnel (set_proc PSelect (vr_tunnel v)) v)
| g_ticker v : vr_keeper v = KTicker ->
    gstep v (set_keeper (if wrap64 (xv_MinRetryInterval (vr_cfg v) * Second) <=? 0 then KPanicked else KFirst) v)
| g_first v : vr_keeper v = KFirst -> tn_proc (vr_tunnel v) = PSelect ->
    gstep v (set_keeper KLoop (set_tunnel (set_proc PHole (vr_tunnel v)) v))
| g_tick_ok v : vr_keeper v = KLoop -> gstep v v
| g_tick_fails v : vr_keeper v = KLoop -> gstep v (set_keeper KErr v)
| g_tick_close v : vr_keeper v = KErr -> gstep v (set_keeper KStart (set_tunnel (Session_Close (vr_tunnel v)) v))
| g_tick_start v : vr_keeper v = KStart -> tn_proc (vr_tunnel v) = PSelect ->
    gstep v (set_keeper KLimiter (set_tunnel (set_proc PHole (vr_tunnel v)) v))
| g_tick_no_start v : vr_keeper v = KStart -> gstep v (set_keeper KLimiter v)
| g_limiter v : vr_keeper v = KLimiter -> gstep v (set_keeper KLoop v)
| g_keeper_return v : vr_keeper v = KLoop -> tn_done (vr_tunnel v) = true -> gstep v (set_keeper KReturned v)
| g_put c v : gstep v (AcceptConn c v).2
| g_user_fails i v : vr_users v !! i = Some UOpening -> gstep v (set_user i UErr v)
| g_user_close i v : vr_users v !! i = Some UErr -> gstep v (set_user i UStart (set_tunnel (Session_Close (vr_tunnel v)) v))
| g_user_start i v : vr_users v !! i = Some UStart -> tn_proc (vr_tunnel v) = PSelect ->
    gstep v (set_user i UOpening (set_tunnel (set_proc PHole (vr_tunnel v)) v))
| g_user_no_start i v : vr_users v !! i = Some UStart -> gstep v (set_user i UOpening v)
| g_user_opens i k v : vr_users v !! i = Some UOpening -> tn_session (vr_tunnel v) = Some k -> tn_open (vr_tunnel v) !! k = Some true ->
    gstep v (set_user i UJoined v)
| g_user_gives_up i v : vr_users v !! i = Some UOpening -> gstep v (set_user i UDone v)
| g_user_joined_ends i v : vr_users v !! i = Some UJoined -> gstep v (set_user i UDone v).

(** ** Coming to rest *)
Definition closed (v : visitor) : Prop := vr_local v ≠ Some true /\ l_closed (vr_internal v) = true /\ tn_done (vr_tunnel v) = true.
Definition keeper_ended (k : kphase) : Prop := k = KNone \/ k = KReturned \/ k = KPanicked.
Definition at_rest (v : visitor) : Prop :=
  vr_local_loop v = false /\ vr_internal_loop v = false /\ tn_proc (vr_tunnel v) = PReturned /\ keeper_ended (vr_keeper v) /\
  Forall (fun u => u = UDone) (vr_users v).
(** Everything but the keeper. *)
Definition others_at_rest (v : visitor) : Prop :=
  vr_local_loop v = false /\ vr_internal_loop v = false /\ tn_proc (vr_tunnel v) = PReturned /\
  Forall (fun u => u = UDone) (vr_users v).
(** The keeper waits, or will wait, for a goroutine that has returned to receive its first send. *)
Definition keeper_waits (v : visitor) : Prop :=
  vr_keeper v = KFirst \/ vr_keeper v = KTicker /\ 0 < wrap64 (xv_MinRetryInterval (vr_cfg v) * Second).
Definition leaked (v : visitor) : Prop := tn_proc (vr_tunnel v) = PReturned /\ keeper_waits v.
Lemma Close_closes v : vr_cancel v = true -> closed (Close v).
Proof.
  intros Hc. unfold closed, Close. simpl. rewrite Hc. split_and!; [by destruct (vr_local v)|done|].
  destruct (vr_session v); simpl; apply orb_true_r.
Qed.
(** The parts come to rest one after the other; each leaves the others as they are. *)
Lemma local_ends v : vr_local v ≠ Some true -> exists v', rtc gstep v v' /\ vr_local_loop v' = false /\
  vr_internal_loop v' = vr_internal_loop v /\ vr_internal v' = vr_internal v /\ vr_tunnel v' = vr_tunnel v /\
  vr_keeper v' = vr_keeper v /\ vr_local v' = vr_local v.
Proof.
  intros Hl. destruct (vr_local_loop v) eqn:E.
  - eexists. split; [apply rtc_once; by apply g_user_end|]. done.
  - exists v. by split_and!; [apply rtc_refl|..].
Qed.
Lemma internal_ends v : l_closed (vr_internal v) = true -> exists v', rtc gstep v v' /\ vr_internal_loop v' = false /\
  vr_local_loop v' = vr_local_loop v /\ vr_tunnel v' = vr_tunnel v /\ vr_keeper v' = vr_keeper v.
Proof.
  intros Hc. destruct (vr_internal_loop v) eqn:E; [|by exists v; split_and!; [apply rtc_refl|..]].
  remember (acceptCh (vr_internal v)) as q eqn:Eq. revert v Hc E Eq. induction q as [|c q IH]; intros v Hc E Eq.
  - eexists. split; [apply rtc_once; apply (g_internal_end "listener closed" (vr_internal v)); [done|]|done].
    unfold Accept. by rewrite <- Eq, Hc.
  - set (l := mkListener q (l_closed (vr_internal v)) (l_accepted (vr_internal v) ++ [c]) (l_dropped (vr_internal v)) (l_refused (vr_internal v))).
    destruct (IH (handle c (set_loops (vr_local_loop v) true l v))) as (v' & Hv' & H1 & H2 & H3 & H4); [done..|].
    exists v'. split; [|done]. eapply rtc_l; [|exact Hv']. apply g_internal; [done|]. unfold Accept. by rewrite <- Eq.
Qed.
(** The goroutine reaches its [select]. *)
Lemma proc_selects v : tn_proc (vr_tunnel v) ≠ PReturned -> exists v', rtc gstep v v' /\ tn_proc (vr_tunnel v') = PSelect /\
  tn_done (vr_tunnel v') = tn_done (vr_tunnel v) /\ vr_local_loop v' = vr_local_loop v /\
  vr_internal_loop v' = vr_internal_loop v /\ vr_keeper v' = vr_keeper v /\ vr_cfg v' = vr_cfg v.
Proof.
  intros Hp. destruct (tn_proc (vr_tunnel v)) eqn:E; [|eexists..|done].
  - exists v. by split_and!; [apply rtc_refl|..].
  - split; [eapply rtc_l; [by apply g_not_made|]; apply rtc_once; by apply g_wake|done].
  - split; [apply rtc_once; by apply g_wake|done].
Qed.
(** The keeper returns from its loop, or ends before it. *)
Lemma keeper_ends v : tn_done (vr_tunnel v) = true -> vr_keeper v ≠ KTicker -> vr_keeper v ≠ KFirst -> exists v', rtc gstep v v' /\
  keeper_ended (vr_keeper v') /\ vr_local_loop v' = vr_local_loop v /\ vr_internal_loop v' = vr_internal_loop v /\
  tn_proc (vr_tunnel v') = tn_proc (vr_tunnel v) /\ tn_done (vr_tunnel v') = true.
Proof.
  intros Hd H1 H2. unfold keeper_ended. destruct (vr_keeper v) eqn:E; try done;
    try (by exists v; split_and!; [apply rtc_refl|rewrite ?E; auto..]).
  - exists (set_keeper KReturned v). split; [apply rtc_once; by apply g_keeper_return|]. by split_and!; [auto|..].
  - eexists. split; [|shelve].
    eapply rtc_l; [by apply g_tick_close|]. eapply rtc_l; [by apply g_tick_no_start|]. eapply rtc_l; [by apply g_limiter|].
    apply rtc_once. by apply g_keeper_return.
    Unshelve. by split_and!; [auto|..].
  - eexists. split; [|shelve]. eapply rtc_l; [by apply g_tick_no_start|]. eapply rtc_l; [by apply g_limiter|].
    apply rtc_once. by apply g_keeper_return.
    Unshelve. by split_and!; [auto|..].
  - eexists. split; [|shelve]. eapply rtc_l; [by apply g_limiter|]. apply rtc_once. by apply g_keeper_return.
    Unshelve. by split_and!; [auto|..].
Qed.
Lemma proc_ends v : tn_done (vr_tunnel v) = true -> exists v', rtc gstep v v' /\ tn_proc (vr_tunnel v') = PReturned /\
  vr_local_loop v' = vr_local_loop v /\ vr_internal_loop v' = vr_internal_loop v /\ vr_keeper v' = vr_keeper v.
Proof.
  intros Hd. destruct (decide (tn_proc (vr_tunnel v) = PReturned)) as [E|E]; [by exists v; split_and!; [apply rtc_refl|..]|].
  destruct (proc_selects v E) as (w & Hw & Hs & Hdw & Hl & Hi & Hk & _).
  exists (set_tunnel (set_proc PReturned (vr_tunnel w)) w). split_and!; [|done..].
  etrans; [exact Hw|]. apply rtc_once. apply g_return; [done|congruence].
Qed.
(** While the goroutine of the tunnel runs, the keeper gets past its first send. *)
Lemma keeper_sends v : tn_proc (vr_tunnel v) ≠ PReturned -> vr_keeper v = KFirst -> exists v', rtc gstep v v' /\
  vr_keeper v' = KLoop /\ tn_done (vr_tunnel v') = tn_done (vr_tunnel v) /\
  vr_local_loop v' = vr_local_loop v /\ vr_internal_loop v' = vr_internal_loop v.
Proof.
  intros Hp Hk. destruct (proc_selects v Hp) as (w & Hw & Hs & Hd & Hl & Hi & Hkw & _).
  exists (set_keeper KLoop (set_tunnel (set_proc PHole (vr_tunnel w)) w)). split_and!; [|done..].
  etrans; [exact Hw|]. apply rtc_once. apply g_first; [congruence|done].
Qed.
Lemma keeper_starts v : ~ leaked v -> exists v', rtc gstep v v' /\
  vr_keeper v' ≠ KTicker /\ vr_keeper v' ≠ KFirst /\ tn_done (vr_tunnel v') = tn_done (vr_tunnel v) /\
  vr_local_loop v' = vr_local_loop v /\ vr_internal_loop v' = vr_internal_loop v.
Proof.
  intros Hn. destruct (decide (vr_keeper v = KTicker)) as [E|E].
  - pose proof (g_ticker v E) as Hstep. destruct (Z.leb_spec (wrap64 (xv_MinRetryInterval (vr_cfg v) * Second)) 0) as [Hle|Hlt].
    + eexists. by split_and!; [by apply rtc_once|..].
    + destruct (keeper_sends (set_keeper KFirst v)) as (w & Hw & Hk & Hrest); [|done|].
      { intros Hp. apply Hn. split; [exact Hp|]. by right. }
      exists w. rewrite Hk. split_and!; [by eapply rtc_l|done..|apply Hrest|apply Hrest|apply Hrest].
  - destruct (decide (vr_keeper v = KFirst)) as [E'|E'].
    + destruct (keeper_sends v) as (w & Hw & Hk & Hrest); [intros Hp; apply Hn; by split; [|left]|done|].
      exists w. rewrite Hk. split_and!; [done..|apply Hrest|apply Hrest|apply Hrest].
    + by exists v; split_and!; [apply rtc_refl|..].
Qed.

(** The users end, one after the other, without the others. *)
Definition frame (v : visitor) := (vr_local_loop v, vr_internal_loop v, vr_keeper v, tn_proc (vr_tunnel v), tn_done (vr_tunnel v)).
Lemma user_ends i u v : vr_users v !! i = Some u -> exists v', rtc gstep v v' /\ vr_users v' = <[i := UDone]> (vr_users v) /\ frame v' = frame v.
Proof.
  intros Hu. pose proof (lookup_lt_Some _ _ _ Hu) as Hi.
  assert (Hopening : forall v, vr_users v !! i = Some UOpening -> exists v', rtc gstep v v' /\ vr_users v' = <[i := UDone]> (vr_users v) /\ frame v' = frame v).
  { intros w Hw. exists (set_user i UDone w). split; [apply rtc_once; by apply g_user_gives_up|done]. }
  assert (Hstart : forall v, (i < length (vr_users v))%nat -> vr_users v !! i = Some UStart -> exists v', rtc gstep v v' /\ vr_users v' = <[i := UDone]> (vr_users v) /\ frame v' = frame v).
  { intros w Hlen Hw. destruct (Hopening (set_user i UOpening w)) as (w' & R & E1 & E2); [by apply list_lookup_insert_eq|].
    exists w'. split; [eapply rtc_l; [by apply g_user_no_start|done]|]. split; [|by rewrite E2]. rewrite E1. apply list_insert_insert_eq. }
  destruct u; [by apply Hopening| |by apply Hstart| |].
  - destruct (Hstart (set_user i UStart (set_tunnel (Session_Close (vr_tunnel v)) v))) as (w' & R & E1 & E2);
      [simpl; by rewrite length_insert|by apply list_lookup_insert_eq|].
    exists w'. split; [eapply rtc_l; [by apply g_user_close|done]|]. split; [|by rewrite E2]. rewrite E1. apply list_insert_insert_eq.
  - exists (set_user i UDone v). split; [apply rtc_once; by apply g_user_joined_ends|done].
  - exists v. split; [apply rtc_refl|]. split; [|done]. symmetry. by apply list_insert_id.
Qed.
Lemma users_end v : exists v', rtc gstep v v' /\ Forall (fun u => u = UDone) (vr_users v') /\ frame v' = frame v.
Proof.
  assert (H : forall n, exists v', rtc gstep v v' /\ length (vr_users v') = length (vr_users v) /\
    (forall i u, (i < n)%nat -> vr_users v' !! i = Some u -> u = UDone) /\ frame v' = frame v).
  { induction n as [|n (w & R & Hlen & Hd & Hf)]; [exists v; split_and!; [apply rtc_refl|done|lia|done]|].
    destruct (vr_users w !! n) as [u|] eqn:E.
    - destruct (user_ends n u w E) as (w' & R' & E1 & E2). exists w'. rewrite E1, E2, length_insert.
      split_and!; [by etrans|done| |done]. intros i u' Hi [(<- & <- & _)|(Hne & Hl)]%list_lookup_insert_Some; [done|].
      eapply Hd; [|exact Hl]. lia.
    - exists w. split_and!; [done..| |done]. intros i u' Hi Hl. destruct (decide (i = n)) as [->|]; [congruence|]. eapply Hd; [|exact Hl]. lia. }
  destruct (H (length (vr_users v))) as (w & R & Hlen & Hd & Hf). exists w. split_and!; [done| |done].
  apply Forall_lookup. intros i u Hi. eapply Hd; [|exact Hi]. rewrite <- Hlen. by eapply lookup_lt_Some.
Qed.
(** Closed is for ever. *)
Lemma gstep_closed v w : gstep v w -> closed v -> closed w.
Proof.
  unfold closed. intros S (Hl & Hi & Hd). destruct S; simpl; try done.
  - unfold Accept in *. by repeat case_match; simplify_eq.
  - unfold Accept in *. by repeat case_match; simplify_eq.
  - unfold AcceptConn, PutConn. by rewrite Hi.
Qed.
Lemma run_closed v w : rtc gstep v w -> closed v -> closed w.
Proof. induction 1; eauto using gstep_closed. Qed.
(** Past its first send the keeper does not come back to it. *)
Definition keeper_past (v : visitor) : Prop := vr_keeper v ≠ KTicker /\ vr_keeper v ≠ KFirst.
Lemma gstep_past v w : gstep v w -> keeper_past v -> keeper_past w.
Proof. unfold keeper_past. intros S [H1 H2]. destruct S; simpl; try (split; try done; congruence). unfold AcceptConn. by destruct (PutConn _ _). Qed.
Lemma run_past v w : rtc gstep v w -> keeper_past v -> keeper_past w.
Proof. induction 1; eauto using gstep_past. Qed.
Lemma past_not_leaked v : keeper_past v -> ~ leaked v.
Proof. intros [H1 H2] [_ [?|[? _]]]; congruence. Qed.
(** A leaked keeper stays where it is. *)
Lemma gstep_leaked v w : gstep v w -> leaked v -> leaked w.
Proof.
  unfold leaked, keeper_waits. intros S [Hp Hk]. destruct S; simpl in *; try done; try (destruct Hk as [?|[? _]]; congruence).
  2: { unfold AcceptConn. by destruct (PutConn _ _). }
  split; [done|]. left. destruct Hk as [?|[_ Hk]]; [congruence|]. by rewrite (proj2 (Z.leb_gt _ _) Hk).
Qed.
Lemma run_leaked v w : rtc gstep v w -> leaked v -> leaked w.
Proof. induction 1; eauto using gstep_leaked. Qed.

(** ** What is shown *)
(** A session closed twice, as [getTunnelConn] and [Close] may, closes its parts once. *)
Theorem QUIC_Close_once q s c : QUIC_Close (QUIC_Close (QUIC_Init s c q)) = QUIC_Close (QUIC_Init s c q) /\
  qs_closed (QUIC_Close (QUIC_Init s c q)) = qs_closed q ++ [inl s; inr c].
Proof. unfold QUIC_Close. simpl. by rewrite !app_nil_r. Qed.
(** A session set up over another leaves that one open. *)
Theorem QUIC_Init_overwrites q s c s' c' : qs_closed q = [] -> s ≠ s' ->
  ~ inl s ∈ qs_closed (QUIC_Close (QUIC_Init s' c' (QUIC_Init s c q))).
Proof. unfold QUIC_Close. simpl. intros -> Hs H. repeat (apply elem_of_cons in H as [H|H]; [congruence|]). by apply not_elem_of_nil in H. Qed.
(** Of a closed visitor the accept loops, the goroutine of the tunnel and the users can all
    return, whatever they were doing, and the keeper too unless it is stuck. *)
Lemma others_rest v : closed v -> exists v', rtc gstep v v' /\ others_at_rest v'.
Proof.
  intros (Hl & Hi & Hd). destruct (local_ends v Hl) as (v1 & R1 & L1 & _ & I1 & T1 & _).
  rewrite <- I1 in Hi. destruct (internal_ends v1 Hi) as (v2 & R2 & I2 & L2 & T2 & _).
  rewrite <- T1, <- T2 in Hd. destruct (proc_ends v2 Hd) as (v3 & R3 & P3 & L3 & I3 & _).
  destruct (users_end v3) as (v4 & R4 & U4 & [= L4 I4 _ P4 _]).
  exists v4. split; [etrans; [exact R1|]; etrans; [exact R2|]; by etrans|]. split_and!; [congruence..|done].
Qed.
Lemma closed_rests v : closed v -> ~ leaked v -> exists v', rtc gstep v v' /\ at_rest v'.
Proof.
  intros Hc Hn. destruct (keeper_starts v Hn) as (v1 & R1 & H1 & H1' & _).
  pose proof (run_closed _ _ R1 Hc) as Hc1. destruct (keeper_ends v1 (proj2 (proj2 Hc1)) H1 H1') as (v2 & R2 & K2 & _).
  pose proof (run_closed _ _ R2 Hc1) as Hc2. pose proof Hc2 as (Hl & Hi & Hd).
  destruct (local_ends v2 Hl) as (v3 & R3 & L3 & _ & I3 & T3 & K3 & _).
  rewrite <- I3 in Hi. destruct (internal_ends v3 Hi) as (v4 & R4 & I4 & L4 & T4 & K4).
  rewrite <- T3, <- T4 in Hd. destruct (proc_ends v4 Hd) as (v5 & R5 & P5 & L5 & I5 & K5).
  destruct (users_end v5) as (v6 & R6 & U6 & [= L6 I6 K6 P6 _]).
  exists v6. split; [etrans; [exact R1|]; etrans; [exact R2|]; etrans; [exact R3|]; etrans; [exact R4|]; by etrans|].
  split_and!; [congruence..| |done]. by rewrite K6, K5, K4, K3.
Qed.
(** The send of the keeper does not look at the context: once the goroutine of the tunnel has
    returned, the keeper stays at it in every run. *)
Theorem keeper_leaks v v' : tn_proc (vr_tunnel v) = PReturned -> vr_keeper v = KFirst -> rtc gstep v v' ->
  tn_proc (vr_tunnel v') = PReturned /\ vr_keeper v' = KFirst.
Proof.
  intros Hp Hk R. induction R as [|x y z S R IH]; [done|]. apply IH; inversion S; subst; simpl; unfold AcceptConn; try destruct (PutConn _ _); simpl; congruence || done.
Qed.
(** The schedule exists: closed between [Run] and the keeper's send, with the goroutine of
    the tunnel taking the end of the context first. *)
Definition sample_keep : XTCPVisitorConfig :=
  mkXTCPVisitorConfig (mkVisitorBaseConfig "v" "xtcp" None (mkVisitorTransport false false) "" "" "s" "" 0) "" true 8 90 "" 1000 None.
Example keeper_leaks_after_close : exists v v', Run None (NewVisitor (VC_XTCP sample_keep)) = Some (None, v) /\
  rtc gstep (Close v) v' /\ tn_proc (vr_tunnel v') = PReturned /\ vr_keeper v' = KFirst.
Proof.
  eexists; eexists. split; [reflexivity|]. split.
  - eapply rtc_l; [by apply g_return|]. apply rtc_once. by apply g_ticker.
  - done.
Qed.
(** [Run] with an error of listening starts nothing, and can be closed. *)
Theorem Run_listen_error e v v' r : Run (Some e) v = Some (r, v') -> 0 < vb_BindPort (xv_Base (vr_cfg v)) ->
  r = Some e /\ vr_internal_loop v' = false /\ vr_local_loop v' = false /\ vr_tunnel v' = vr_tunnel v /\ closed (Close v').
Proof.
  unfold Run. intros H Hp. apply Z.ltb_lt in Hp. rewrite Hp in H. injection H as <- <-.
  split_and!; [done..|]. by apply Close_closes.
Qed.
(** Before [Close] nothing has returned. *)
Definition running (v : visitor) : Prop := vr_cancel v = true /\ tn_done (vr_tunnel v) = false /\ tn_proc (vr_tunnel v) ≠ PReturned.
Lemma Run_running listen v v' : Run listen v = Some (None, v') -> running v'.
Proof. unfold Run, running. intros H. by repeat case_match; simplify_eq. Qed.
Lemma gstep_running v w : gstep v w -> running v -> running w.
Proof.
  unfold running. intros S (Hc & Hd & Hp). inversion S; subst; simpl in *; split_and!; try done; try congruence.
  all: unfold AcceptConn; by destruct (PutConn _ _).
Qed.
Lemma Close_proc v : tn_proc (vr_tunnel (Close v)) = tn_proc (vr_tunnel v).
Proof. unfold Close. simpl. by destruct (vr_session v). Qed.
(** C21. A visitor comes to rest after [Close], but for one goroutine that can leak.  Once [Run]
    has succeeded, the visitor is closed at any moment [w] of its life and runs on in any way, to
    [z].  From there both accept loops, every user's goroutine, the goroutine of the tunnel and
    the keeper can all end (the keeper also by the panic of its ticker, where the interval is
    not positive) -- unless the keeper has leaked: it has its first, blocking send
    before it while the goroutine that receives has returned.  Then it never returns, whatever
    happens, though the others still can.  It does not leak when it is past that send
    at the time of [Close], nor where there is no keeper. *)
Theorem visitor_closes listen v0 v w z : Run listen v0 = Some (None, v) -> rtc gstep v w -> rtc gstep (Close w) z ->
  (~ leaked z -> exists v', rtc gstep z v' /\ at_rest v')
  /\ (leaked z -> (forall u, rtc gstep z u -> ~ keeper_ended (vr_keeper u)) /\ exists v', rtc gstep z v' /\ others_at_rest v')
  /\ (keeper_past w \/ xv_KeepTunnelOpen (vr_cfg v0) = false -> ~ leaked z).
Proof.
  intros Hrun R Rz. pose proof (Run_running _ _ _ Hrun) as Hr.
  assert (Hw : running w) by (clear -Hr R; induction R; eauto using gstep_running). destruct Hw as (Hc & _).
  pose proof (run_closed _ _ Rz (Close_closes _ Hc)) as Hcz. split_and!.
  - by apply closed_rests.
  - intros Hl. split; [|by apply others_rest]. intros u Ru. destruct (run_leaked _ _ Ru Hl) as [_ [Hk|[Hk _]]];
      rewrite Hk; by intros [?|[?|?]].
  - intros Hp. apply past_not_leaked, (run_past _ _ Rz). change (keeper_past w). destruct Hp as [Hp|Hk]; [done|].
    apply (run_past _ _ R). clear -Hrun Hk. unfold Run in Hrun. rewrite Hk in Hrun. by repeat case_match; simplify_eq.
Qed.
(** Closed while a hole is made for the keeper, and a user waits for it. *)
Lemma visitor_closes_witness : exists v w, Run None (NewVisitor (VC_XTCP sample_keep)) = Some (None, v) /\
  rtc gstep v w /\ vr_keeper w = KLoop /\ tn_proc (vr_tunnel w) = PHole /\ vr_users w = [UOpening] /\
  exists v', rtc gstep (Close w) v' /\ at_rest v'.
Proof.
  set (v := match Run None (NewVisitor (VC_XTCP sample_keep)) with Some (_, v) => v | None => NewVisitor (VC_XTCP sample_keep) end).
  set (w1 := set_keeper KLoop (set_tunnel (set_proc PHole (vr_tunnel v)) v)).
  set (w2 := (AcceptConn 7 w1).2).
  set (w := handle 7 (set_loops (vr_local_loop w2) true (mkListener [] false [7%nat] [] []) w2)).
  assert (R : rtc gstep v w).
  { eapply rtc_l; [by apply g_ticker|]. eapply rtc_l; [by apply (g_first (set_keeper KFirst v))|].
    eapply rtc_l; [apply (g_put 7 w1)|]. apply rtc_once. by apply (g_internal 7 _ w2). }
  exists v, w. do 5 (split; [done|]).
  destruct (visitor_closes None (NewVisitor (VC_XTCP sample_keep)) v w (Close w) eq_refl R (rtc_refl _ _)) as (Hrest & _ & Hpast).
  apply Hrest, Hpast. left. by split.
Defined.
(** Zero for [maxRetriesAnHour] panics; a completed configuration has it never zero. *)
Theorem Run_panics listen v : xv_KeepTunnelOpen (vr_cfg v) = true -> xv_MaxRetriesAnHour (vr_cfg v) = 0 ->
  (listen = None \/ vb_BindPort (xv_Base (vr_cfg v)) <= 0) -> Run listen v = None.
Proof.
  intros Hk Hm Hl. unfold Run. rewrite Hk. destruct (0 <? _) eqn:E; [apply Z.ltb_lt in E|].
  - destruct Hl as [->|]; [by rewrite decide_True|lia].
  - by rewrite decide_True.
Qed.
Theorem completed_never_panics listen cfg : Run listen (NewVisitor (Visitor_Complete cfg)) ≠ None.
Proof.
  destruct cfg as [c]. unfold Run. simpl. assert (int_or (xv_MaxRetriesAnHour c) 8 ≠ 0).
  { unfold int_or, EmptyOr. by repeat case_match; simplify_eq. }
  rewrite decide_False by done. by repeat case_match.
Qed.
