(* ===== verification/ControlLink.v ===== *)
(** * The control connection of both sides: [client/control.go], [server/control.go], [pkg/msg/handler.go]

    The handlers each side registers, the dispatch of what arrives, and the two ends put
    together over the bytes they write to each other.  The heartbeats of [Auth], [Session]
    and [ClientControl], the codecs of [MsgV2] and the tables of handlers meet here: a
    session whose two ends have the same token is lost only to a late check. *)
From S2P Require Import Prelude GoStd Json Hash Naming Msg ConfigV1 Auth Wire MsgV2 JsonCodec MsgJson Session ClientProxy ClientVisitor ClientControl ServerConn.
From stdpp Require Import gmap list.
Local Open Scope Z_scope.

(** ** Tables of handlers *)
(** A handler changes the state of its side; [None] is a panic, of the type assertion with
    which every handler starts. *)
Definition handler (S : Type) : Type := Message → S → option S.
Definition table (S : Type) : Type := MsgType → option (handler S).
Definition no_handlers {S} : table S := λ _, None.
Definition RegisterHandler {S} (t : MsgType) (h : handler S) (tbl : table S) : table S :=
  λ t', if decide (t' = t) then Some h else tbl t'.
(** The body of [readLoop] for one message. *)
Definition dispatch {S} (tbl : table S) (m : Message) (s : S) : option S :=
  match tbl (type_of m) with Some h => h m s | None => Some s end.

(** ** The server's side *)
(** What its handlers share: the control, the messages sent, the goroutines started for a
    message, the proxies asked to close. *)
Record sside := mkSSide {
  ss_ctl : Session.Control;
  ss_sent : list Message;
  ss_go : list Message;
  ss_closing : list string;
}.
Definition s_send (m : Message) (s : sside) : sside := mkSSide (ss_ctl s) (ss_sent s ++ [m]) (ss_go s) (ss_closing s).
(** [AsyncHandler]: the handler runs in a goroutine of its own. *)
Definition s_async (m : Message) (s : sside) : sside := mkSSide (ss_ctl s) (ss_sent s) (ss_go s ++ [m]) (ss_closing s).
(** Two of the handlers as [Session] has them; [reg] is what [RegisterProxy] returns. *)
Definition s_handlePing (v : TokenAuth) (now : Z) : handler sside := λ m s,
  match m with
  | MPing p => let '(pong, c) := Session.handlePing now v p (ss_ctl s) in
               Some (s_send (MPong pong) (mkSSide c (ss_sent s) (ss_go s) (ss_closing s)))
  | _ => None
  end.
Definition s_handleNewProxy (reg : NewProxy → result string) : handler sside := λ m s,
  match m with
  | MNewProxy p => Some (s_send (MNewProxyResp (new_proxy_resp p (reg p) (ss_ctl s))) s)
  | _ => None
  end.
Definition s_handleCloseProxy : handler sside := λ m s,
  match m with
  | MCloseProxy p => Some (mkSSide (ss_ctl s) (ss_sent s) (ss_go s) (ss_closing s ++ [cp_ProxyName p]))
  | _ => None
  end.
Definition server_handlers (v : TokenAuth) (reg : NewProxy → result string) (now : Z) : table sside :=
  RegisterHandler TCloseProxy s_handleCloseProxy $
  RegisterHandler TNatHoleReport (λ m s, Some (s_async m s)) $
  RegisterHandler TNatHoleClient (λ m s, Some (s_async m s)) $
  RegisterHandler TNatHoleVisitor (λ m s, Some (s_async m s)) $
  RegisterHandler TPing (s_handlePing v now) $
  RegisterHandler TNewProxy (s_handleNewProxy reg) no_handlers.
(** [heartbeatWorker]'s check; nothing is checked without a time-out. *)
Definition s_heartbeat_check (now : Z) (c : Session.Control) : Session.Control :=
  if heartbeat_expired now c then Control_Close c else c.

(** ** The client's side *)
(** The control, the goroutines started, the answers for the lanes of the transporter. *)
Record cside := mkCSide {
  cs_ctl : ClientControl.Control;
  cs_go : list Message;
  cs_lanes : list (string * NatHoleResp);
}.
Definition c_handleNewProxyResp (user : string) : handler cside := λ m s,
  match m with
  | MNewProxyResp r => Some (mkCSide (ClientControl.handleNewProxyResp user r (cs_ctl s)) (cs_go s) (cs_lanes s))
  | _ => None
  end.
Definition c_handleNatHoleResp : handler cside := λ m s,
  match m with
  | MNatHoleResp r => Some (mkCSide (cs_ctl s) (cs_go s) (cs_lanes s ++ [(nat_hole_lane r, r)]))
  | _ => None
  end.
Definition c_handlePong (now : Z) : handler cside := λ m s,
  match m with
  | MPong r => Some (mkCSide (ClientControl.handlePong now r (cs_ctl s)) (cs_go s) (cs_lanes s))
  | _ => None
  end.
Definition client_handlers (user : string) (now : Z) : table cside :=
  RegisterHandler TPong (c_handlePong now) $
  RegisterHandler TNatHoleResp c_handleNatHoleResp $
  RegisterHandler TNewProxyResp (c_handleNewProxyResp user) $
  RegisterHandler TReqWorkConn (λ m s, Some (mkCSide (cs_ctl s) (cs_go s ++ [m]) (cs_lanes s))) no_handlers.
(** What [heartbeatWorker] starts: the goroutine that sends, and the one that checks. *)
Definition heartbeatWorker (t : ClientTransportConfig) : bool * bool :=
  ((0 <? ct_HeartbeatInterval t), (0 <? ct_HeartbeatInterval t) && (0 <? ct_HeartbeatTimeout t)).
Definition sendHeartBeat (a : TokenAuth) (now : Z) : Message := MPing (SetPing a now (mkPing "" 0)).

(** ** The two ends *)
Section link.
Context `{MsgJSON} `{V1Codec}.
Variable proto user : string.
Variable a v : TokenAuth.                     (* the client's setter, the server's verifier *)
Variable reg : NewProxy → result string.
Variable tr : ClientTransportConfig.          (* the client's, with its heartbeat settings *)

(** [lk_up] and [lk_down] are the bytes written and not yet read; [lk_lost]: a read failed
    ([readLoop] of that side closes its dispatcher) or a handler panicked. *)
Record link := mkLink {
  lk_client : cside;
  lk_server : sside;
  lk_up : list byte;
  lk_down : list byte;
  lk_lost : bool;
}.
(** [sendLoop]: a message that cannot be written is dropped. *)
Definition written (m : Message) : list byte := match rw_WriteMsg proto m with Ok b => b | Err _ => [] end.
Inductive event : Type :=
| LBeat (now : Z)            (* the client's heartbeat; [now] in seconds *)
| LSay (m : Message)         (* another message of the client *)
| LTell (m : Message)        (* a message of the server that answers none *)
| LServer (now : Z)          (* the server's [readLoop] reads one message, if there is one *)
| LClient (now : Z)
| LServerCheck (now : Z)
| LClientCheck (now : Z).
Definition over (l : link) : bool :=
  ct_closed (cs_ctl (lk_client l)) || c_interrupted (ss_ctl (lk_server l)) || lk_lost l.
Definition set_sctl (c : Session.Control) (s : sside) : sside := mkSSide c (ss_sent s) (ss_go s) (ss_closing s).
Definition set_cctl (c : ClientControl.Control) (s : cside) : cside := mkCSide c (cs_go s) (cs_lanes s).
Definition lost (l : link) : link := mkLink (lk_client l) (lk_server l) (lk_up l) (lk_down l) true.
(** One event; nothing happens once the session is over. *)
Definition lstep (e : event) (l : link) : link :=
  if over l then l else
  let 'mkLink c s up down lst := l in
  match e with
  | LBeat now => mkLink c s (up ++ written (sendHeartBeat a now)) down lst
  | LSay m => mkLink c s (up ++ written m) down lst
  | LTell m => mkLink c s up (down ++ written m) lst
  | LServer now =>
      match up with
      | [] => l
      | _ =>
          match rw_ReadMsg proto up with
          | Err _ => lost l
          | Ok (m, rest) =>
              match dispatch (server_handlers v reg now) m (mkSSide (ss_ctl s) [] (ss_go s) (ss_closing s)) with
              | None => lost l
              | Some s' => mkLink c (mkSSide (ss_ctl s') (ss_sent s ++ ss_sent s') (ss_go s') (ss_closing s')) rest
                             (down ++ concat (written <$> ss_sent s')) lst
              end
          end
      end
  | LClient now =>
      match down with
      | [] => l
      | _ =>
          match rw_ReadMsg proto down with
          | Err _ => lost l
          | Ok (m, rest) =>
              match dispatch (client_handlers user now) m c with
              | None => lost l
              | Some c' => mkLink c' s up rest lst
              end
          end
      end
  | LServerCheck now => mkLink c (set_sctl (s_heartbeat_check now (ss_ctl s)) s) up down lst
  | LClientCheck now => mkLink (set_cctl (heartbeat_check tr now (cs_ctl c)) c) s up down lst
  end.
Definition link_start (c : ClientControl.Control) (s : Session.Control) : link :=
  mkLink (mkCSide c [] []) (mkSSide s [] [] []) [] [] false.
Definition lrun (es : list event) (l : link) : link := foldl (λ l e, lstep e l) l es.

(** ** The session as messages *)
(** What it is for both sides: queues of messages and the time of the last heartbeat each
    side saw.  Heartbeats are never refused and every message is understood. *)
Record session := mkSession {
  se_up : list Message;
  se_down : list Message;
  se_lastPing : Z;
  se_lastPong : Z;
  se_over : bool;
}.
Definition answer (c : Session.Control) (m : Message) : list Message :=
  match m with
  | MPing _ => [MPong (mkPong "")]
  | MNewProxy p => [MNewProxyResp (new_proxy_resp p (reg p) c)]
  | _ => []
  end.
Definition sstep (c : Session.Control) (e : event) (s : session) : session :=
  if se_over s then s else
  let 'mkSession up down ping pong ov := s in
  match e with
  | LBeat now => mkSession (up ++ [sendHeartBeat a now]) down ping pong ov
  | LSay m => mkSession (up ++ [m]) down ping pong ov
  | LTell m => mkSession up (down ++ [m]) ping pong ov
  | LServer now =>
      match up with
      | [] => s
      | m :: up => mkSession up (down ++ answer c m) (if decide (type_of m = TPing) then now else ping) pong ov
      end
  | LClient now =>
      match down with
      | [] => s
      | m :: down => mkSession up down ping (if decide (type_of m = TPong) then now else pong) ov
      end
  | LServerCheck now => mkSession up down ping pong (heartbeat_expired now (set_lastPing ping c))
  | LClientCheck now => mkSession up down ping pong (heartbeat_late tr now pong)
  end.
Definition srun (c : Session.Control) (es : list event) (s : session) : session := foldl (λ s e, sstep c e s) s es.
(** A message that the codec of the session carries. *)
Definition carried (m : Message) : Prop :=
  ∃ b, rw_WriteMsg proto m = Ok b ∧ b ≠ [] ∧ ∀ rest, rw_ReadMsg proto (b ++ rest) = Ok (m, rest).
(** The messages a side may send by itself. *)
Definition says (m : Message) : Prop :=
  type_of m ∈ [TNewProxy; TCloseProxy; TNatHoleVisitor; TNatHoleClient; TNatHoleReport].
Definition tells (m : Message) : Prop := type_of m ∈ [TReqWorkConn; TNatHoleResp].
Definition event_ok (c : Session.Control) (e : event) : Prop :=
  match e with
  | LBeat now => carried (sendHeartBeat a now)
  | LSay m => says m ∧ carried m ∧ Forall carried (answer c m)
  | LTell m => tells m ∧ carried m
  | _ => True
  end.
Definition refines (l : link) (s : session) : Prop :=
  over l = se_over s ∧ lk_lost l = false ∧
  lk_up l = concat (written <$> se_up s) ∧ lk_down l = concat (written <$> se_down s) ∧
  c_lastPing (ss_ctl (lk_server l)) = se_lastPing s ∧ ct_lastPong (cs_ctl (lk_client l)) = se_lastPong s.
End link.

(** ** Lemmas *)
(** The tables have each type once, so no registration hides another. *)
Lemma server_table v reg now t : is_Some (server_handlers v reg now t) ↔
  t ∈ [TNewProxy; TPing; TNatHoleVisitor; TNatHoleClient; TNatHoleReport; TCloseProxy].
Proof. split; [|set_unfold; destruct t; intuition (try discriminate); by eexists]. intros [h Hh]. by destruct t; try done; set_solver. Qed.
Lemma client_table user now t : is_Some (client_handlers user now t) ↔ t ∈ [TReqWorkConn; TNewProxyResp; TNatHoleResp; TPong].
Proof. split; [|set_unfold; destruct t; intuition (try discriminate); by eexists]. intros [h Hh]. by destruct t; try done; set_solver. Qed.
(** The type assertions of the handlers hold for every message there is. *)
Lemma server_dispatch_total v reg now m s : is_Some (dispatch (server_handlers v reg now) m s).
Proof. destruct m; try by eexists. unfold dispatch. simpl. unfold server_handlers, RegisterHandler. simpl. unfold s_handlePing, handlePing. case_match; case_match; simplify_eq; by eexists. Qed.
Lemma client_dispatch_total user now m s : is_Some (dispatch (client_handlers user now) m s).
Proof. destruct m; by eexists. Qed.

Lemma heartbeat_verifies (a v : TokenAuth) now : ta_token a = ta_token v →
  (AuthScopeHeartBeats ∈ ta_scopes v → AuthScopeHeartBeats ∈ ta_scopes a) → token_VerifyPing v (SetPing a now (mkPing "" 0)) = Ok tt.
Proof.
  intros Ht Hs. unfold token_VerifyPing, SetPing. destruct (contains (ta_scopes v) _) eqn:Hv; [|done].
  apply contains_spec in Hv. rewrite (proj2 (contains_spec _ _) (Hs Hv)). simpl. rewrite Ht, ConstantTimeEqString_spec.
  by rewrite bool_decide_eq_true_2.
Qed.
Lemma Control_Close_interrupts c : c_interrupted (Control_Close c) = true ∧ c_lastPing (Control_Close c) = c_lastPing c.
Proof. unfold Control_Close, close_state, finishLocked. split; [done|]. by destruct (c_state c). Qed.
Lemma set_lastPing_eta c : set_lastPing (c_lastPing c) c = c.
Proof. by destruct c. Qed.

Section refinement.
Context `{MsgJSON} `{V1Codec}.
Context (proto user : string) (a v : TokenAuth) (reg : NewProxy → result string) (tr : ClientTransportConfig) (c0 : Session.Control).
Hypothesis Hpong : carried proto (MPong (mkPong "")).
Hypothesis Htok : ta_token a = ta_token v.
Hypothesis Hscope : AuthScopeHeartBeats ∈ ta_scopes v → AuthScopeHeartBeats ∈ ta_scopes a.
Hypothesis Hopen : c_interrupted c0 = false.

Definition good_up (m : Message) : Prop :=
  carried proto m ∧ ((∃ now, m = sendHeartBeat a now) ∨ says m) ∧ Forall (carried proto) (answer reg c0 m).
Definition good_down (m : Message) : Prop :=
  carried proto m ∧ (m = MPong (mkPong "") ∨ type_of m ∈ [TNewProxyResp; TReqWorkConn; TNatHoleResp]).
Definition link_inv (l : link) (s : session) : Prop :=
  refines proto l s ∧ (se_over s = false → ss_ctl (lk_server l) = set_lastPing (se_lastPing s) c0 ∧
    Forall good_up (se_up s) ∧ Forall good_down (se_down s)).

Lemma written_carried m : carried proto m → written proto m ≠ [] ∧ ∀ rest, rw_ReadMsg proto (written proto m ++ rest) = Ok (m, rest).
Proof. intros (b & Hb & Hne & Hr). unfold written. by rewrite Hb. Qed.
(** A queue of messages is read one at a time. *)
Lemma read_head m q : carried proto m →
  concat (written proto <$> m :: q) ≠ [] ∧ rw_ReadMsg proto (concat (written proto <$> m :: q)) = Ok (m, concat (written proto <$> q)).
Proof. intros [Hne Hr]%written_carried. simpl. split; [|apply Hr]. intros [? _]%app_nil. done. Qed.
Lemma answer_good m : good_up m → Forall good_down (answer reg c0 m).
Proof.
  intros (_ & Hm & Hc). destruct m; simpl in *; try constructor; inversion Hc; subst; try constructor; try done.
  - right. set_solver.
  - by left.
Qed.
(** What the server does with a message it may get. *)
Lemma server_dispatch ping now m s : good_up m → ss_ctl s = set_lastPing ping c0 → ss_sent s = [] →
  ∃ s', dispatch (server_handlers v reg now) m s = Some s' ∧ ss_sent s' = answer reg c0 m ∧
    ss_ctl s' = set_lastPing (if decide (type_of m = TPing) then now else ping) c0.
Proof.
  intros (_ & Hm & _) Hctl Hsent. destruct Hm as [[t ->]|Hm].
  - pose proof (heartbeat_verifies a v t Htok Hscope) as Hv. unfold dispatch, sendHeartBeat. simpl.
    unfold handlePing. simpl. rewrite Hv, Hctl, Hsent. by eexists.
  - unfold says in Hm. unfold dispatch. destruct m; simpl in *; try (exfalso; set_solver); eexists; (split; [reflexivity|]); simpl; rewrite ?Hsent, ?Hctl; done.
Qed.
Lemma client_dispatch now m (c : cside) : good_down m →
  ∃ c', dispatch (client_handlers user now) m c = Some c' ∧ ct_closed (cs_ctl c') = ct_closed (cs_ctl c) ∧
    ct_lastPong (cs_ctl c') = if decide (type_of m = TPong) then now else ct_lastPong (cs_ctl c).
Proof.
  intros (_ & [->|Hm]); [by eexists|]. unfold dispatch. destruct m; simpl in *; try (exfalso; set_solver); eexists; (split; [reflexivity|]); simpl; try done.
  unfold ClientControl.handleNewProxyResp. by case_match.
Qed.

Notation lstep := (lstep proto user a v reg tr).
Notation sstep := (sstep a reg tr c0).
Lemma concat_snoc_written q m : concat (written proto <$> q ++ [m]) = concat (written proto <$> q) ++ written proto m.
Proof. by rewrite fmap_app, concat_app; simpl; rewrite app_nil_r. Qed.
Lemma link_inv_open l s : link_inv l s → over l = false → se_over s = false ∧ ct_closed (cs_ctl (lk_client l)) = false ∧
  c_interrupted (ss_ctl (lk_server l)) = false ∧ lk_lost l = false ∧ ss_ctl (lk_server l) = set_lastPing (se_lastPing s) c0 ∧
  Forall good_up (se_up s) ∧ Forall good_down (se_down s).
Proof.
  intros [(Ho & _) Hi] Hl. rewrite Hl in Ho. symmetry in Ho. unfold over in Hl.
  apply orb_false_iff in Hl as [[? ?]%orb_false_iff ?]. by destruct (Hi Ho) as (? & ? & ?).
Qed.
(** Messages put on the queues by an end itself. *)
Lemma inv_say m c ss up down ping pong q r :
  good_up m → link_inv (mkLink c ss up down false) (mkSession q r ping pong false) →
  link_inv (mkLink c ss (up ++ written proto m) down false) (mkSession (q ++ [m]) r ping pong false).
Proof.
  intros Hm [(Ho & _ & Hu & Hd & Hp & Hq) Hi]. destruct (Hi eq_refl) as (H1 & H2 & H3). simpl in *.
  split; [split_and!; simpl; try done|].
  - by rewrite concat_snoc_written, Hu.
  - intros _. simpl. split_and!; [done|apply Forall_app; split; [done|by constructor]|done].
Qed.
Lemma inv_tell m c ss up down ping pong q r :
  good_down m → link_inv (mkLink c ss up down false) (mkSession q r ping pong false) →
  link_inv (mkLink c ss up (down ++ written proto m) false) (mkSession q (r ++ [m]) ping pong false).
Proof.
  intros Hm [(Ho & _ & Hu & Hd & Hp & Hq) Hi]. destruct (Hi eq_refl) as (H1 & H2 & H3). simpl in *.
  split; [split_and!; simpl; try done|].
  - by rewrite concat_snoc_written, Hd.
  - intros _. simpl. split_and!; [done|done|apply Forall_app; split; [done|by constructor]].
Qed.
Lemma event_good_up e : event_ok proto a reg c0 e →
  match e with LBeat now => good_up (sendHeartBeat a now) | LSay m => good_up m | LTell m => good_down m | _ => True end.
Proof.
  destruct e as [now|m|m| | | |]; simpl; try done.
  - intros Hc. split_and!; [done|left; by exists now|]. by constructor.
  - intros (Hs & Hc & Ha). split_and!; [done|by right|done].
  - intros (Ht & Hc). split; [done|]. right. unfold tells in Ht. set_solver.
Qed.
(** The two ends read. *)
Lemma inv_server now c ss up down ping pong q r :
  link_inv (mkLink c ss up down false) (mkSession q r ping pong false) → over (mkLink c ss up down false) = false →
  link_inv (lstep (LServer now) (mkLink c ss up down false)) (sstep (LServer now) (mkSession q r ping pong false)).
Proof.
  intros Hinv Hov. destruct (link_inv_open _ _ Hinv Hov) as (_ & Hcl & Hin & _ & Hctl & Hgu & Hgd).
  destruct Hinv as [(Ho & _ & Hu & Hd & Hp & Hq) _]. simpl in *. unfold ControlLink.lstep. rewrite Hov.
  destruct q as [|m q]; simpl in Hu; [subst up; split; [done|]; intros _; done|].
  apply Forall_cons_1 in Hgu as [Hm Hgu]. destruct (read_head m q (proj1 Hm)) as [Hne Hr]. simpl in Hne, Hr.
  destruct up as [|b up']; [congruence|]. rewrite Hu, Hr.
  destruct (server_dispatch ping now m (mkSSide (ss_ctl ss) [] (ss_go ss) (ss_closing ss)) Hm Hctl eq_refl)
    as (s' & -> & Hs & Hc'). simpl.
  split; [split_and!; simpl; try done|].
  - unfold over. simpl. rewrite Hcl, Hc'. simpl. by rewrite Hopen.
  - by rewrite fmap_app, concat_app, Hd, Hs.
  - by rewrite Hc'.
  - intros _. simpl. split_and!; [done|done|]. apply Forall_app. split; [done|by apply answer_good].
Qed.
Lemma inv_client now c ss up down ping pong q r :
  link_inv (mkLink c ss up down false) (mkSession q r ping pong false) → over (mkLink c ss up down false) = false →
  link_inv (lstep (LClient now) (mkLink c ss up down false)) (sstep (LClient now) (mkSession q r ping pong false)).
Proof.
  intros Hinv Hov. destruct (link_inv_open _ _ Hinv Hov) as (_ & Hcl & Hin & _ & Hctl & Hgu & Hgd).
  destruct Hinv as [(Ho & _ & Hu & Hd & Hp & Hq) _]. simpl in *. unfold ControlLink.lstep. rewrite Hov.
  destruct r as [|m r]; simpl in Hd; [subst down; split; [done|]; intros _; done|].
  apply Forall_cons_1 in Hgd as [Hm Hgd]. destruct (read_head m r (proj1 Hm)) as [Hne Hr]. simpl in Hne, Hr.
  destruct down as [|b down']; [congruence|]. rewrite Hd, Hr.
  destruct (client_dispatch now m c Hm) as (c' & -> & Hc & Hl). simpl.
  split; [split_and!; simpl; try done|done].
  - unfold over. simpl. by rewrite Hc, Hcl, Hin.
  - by rewrite Hl, Hq.
Qed.
Lemma lstep_inv e l s : event_ok proto a reg c0 e → link_inv l s → link_inv (lstep e l) (sstep e s).
Proof.
  intros He%event_good_up Hinv. destruct (over l) eqn:Hov.
  { destruct Hinv as [(Ho & Hrest) Hi]. unfold ControlLink.lstep, ControlLink.sstep. rewrite Hov, <- Ho, Hov. by split. }
  destruct (link_inv_open _ _ Hinv Hov) as (Hso & Hcl & Hin & Hlost & Hctl & _).
  destruct l as [c ss up down lst], s as [q r ping pong ov]. simpl in *. subst lst ov.
  destruct e as [now|m|m|now|now|now|now];
    [unfold ControlLink.lstep, ControlLink.sstep; rewrite Hov; simpl; by apply inv_say
    |unfold ControlLink.lstep, ControlLink.sstep; rewrite Hov; simpl; by apply inv_say
    |unfold ControlLink.lstep, ControlLink.sstep; rewrite Hov; simpl; by apply inv_tell
    |by apply inv_server|by apply inv_client| |];
    unfold ControlLink.lstep, ControlLink.sstep; rewrite Hov; simpl; destruct Hinv as [(Ho & _ & Hu & Hd & Hp & Hq) Hi]; simpl in *.
  - unfold s_heartbeat_check. rewrite Hctl. destruct (heartbeat_expired now _) eqn:E.
    + rewrite <-Hctl. pose proof (Control_Close_interrupts (ss_ctl ss)) as [Hi1 Hi2]. split; [|done].
      split_and!; simpl; try done.
      * unfold over. simpl. by rewrite orb_true_r.
      * by rewrite <-Hp.
    + rewrite <- Hctl. split; [|done]. split_and!; simpl; try done.
  - unfold heartbeat_check. rewrite Hq. destruct (heartbeat_late _ _ _) eqn:E.
    + split; [|done]. by split_and!.
    + split; [|done]. by split_and!.
Qed.
Lemma lrun_inv es l s : Forall (event_ok proto a reg c0) es → link_inv l s →
  link_inv (lrun proto user a v reg tr es l) (srun a reg tr c0 es s).
Proof. unfold lrun, srun. intros He. revert l s. induction He as [|e es He _ IH]; intros l s Hi; simpl; [done|]. apply IH. by apply lstep_inv. Qed.
Lemma start_inv c : ct_closed c = false → link_inv (link_start c c0) (mkSession [] [] (c_lastPing c0) (ct_lastPong c) false).
Proof.
  intros Hc. split.
  - split_and!; simpl; try done. unfold over. simpl. by rewrite Hc, Hopen.
  - intros _. simpl. by rewrite set_lastPing_eta.
Qed.
End refinement.

(** ** What is shown *)
(** A check that comes too late, after the events [es]; [heartbeat_late_spec] of [ClientControl] says
    what it means when the time-out fits in 64 bits. *)
Definition late (a : TokenAuth) (reg : NewProxy → result string) (tr : ClientTransportConfig) (c0 : Session.Control) (s0 : session)
    (es : list event) (e : event) : Prop :=
  let s := srun a reg tr c0 es s0 in
  match e with
  | LServerCheck now => heartbeat_expired now (set_lastPing (se_lastPing s) c0) = true
  | LClientCheck now => heartbeat_late tr now (se_lastPong s) = true
  | _ => False
  end.
Lemma sstep_over a reg tr c0 e s : se_over (sstep a reg tr c0 e s) = true ↔ se_over s = true ∨
  match e with
  | LServerCheck now => heartbeat_expired now (set_lastPing (se_lastPing s) c0) = true
  | LClientCheck now => heartbeat_late tr now (se_lastPong s) = true
  | _ => False
  end.
Proof.
  destruct s as [q r ping pong []]; simpl; [tauto|]. unfold sstep. simpl.
  destruct e as [now|m|m|now|now|now|now]; simpl; try (destruct q); try (destruct r); simpl; intuition done.
Qed.
Lemma srun_over a reg tr c0 es s : se_over s = false →
  se_over (srun a reg tr c0 es s) = true ↔ ∃ l e l', es = l ++ e :: l' ∧ late a reg tr c0 s l e.
Proof.
  intros Hs. induction es as [|e es IH] using rev_ind; [simpl; split; [congruence|intros ([|??] & ? & ? & [=] & _)]|].
  unfold srun at 1. rewrite foldl_snoc. fold (srun a reg tr c0 es s). rewrite sstep_over, IH. split.
  - intros [(l & e' & l' & -> & Hl)|Hl]; [exists l, e', (l' ++ [e]); by rewrite <- (assoc_L (++))|by exists es, e, []].
  - intros (l & e' & l' & Heq & Hl). destruct l' as [|x l' _] using rev_ind.
    + apply app_inj_tail in Heq as [-> ->]. by right.
    + left. rewrite app_comm_cons, (assoc_L (++)) in Heq. apply app_inj_tail in Heq as [-> ->]. by exists l, e', l'.
Qed.
(** C11. The control connection of a client and a server with the same token, over the bytes of
    either wire protocol, is the session of messages: no heartbeat is refused, every message
    is read, understood by a handler of the other side and answered in order, no handler
    panics, and the session is lost exactly when a check of one side is late: the server's
    [heartbeat_expired] for the time of its last [Ping], or the client's [heartbeat_late] for
    that of its last [Pong].  Both compare the time passed with the configured seconds as a
    64-bit number of nanoseconds, and check nothing without a positive time-out (at the
    client: also without a positive interval). *)
Theorem link_is_session `{MsgJSON} `{V1Codec} proto user (a v : TokenAuth) reg tr c c0 es :
  ta_token a = ta_token v → (AuthScopeHeartBeats ∈ ta_scopes v → AuthScopeHeartBeats ∈ ta_scopes a) →
  carried proto (MPong (mkPong "")) → c_interrupted c0 = false → ct_closed c = false →
  Forall (event_ok proto a reg c0) es →
  let s0 := mkSession [] [] (c_lastPing c0) (ct_lastPong c) false in
  let l := lrun proto user a v reg tr es (link_start c c0) in
  refines proto l (srun a reg tr c0 es s0) ∧
  (over l = true ↔ ∃ es' e es'', es = es' ++ e :: es'' ∧ late a reg tr c0 s0 es' e).
Proof.
  intros Ht Hs Hp Hi Hc He s0 l.
  destruct (lrun_inv proto user a v reg tr c0 Hp Ht Hs Hi es _ _ He (start_inv proto a reg c0 Hi c Hc)) as [Hr _].
  split; [exact Hr|]. destruct Hr as (Ho & _). unfold l. rewrite Ho. by apply srun_over.
Qed.
(** Protocol v2 carries every well-formed message that fits in a frame. *)
Lemma v2_carried `{MsgTextsLaws} `{V1Codec} m : msg_ok m →
  Z.of_nat (length (print (msg_value m))) + 2 ≤ DefaultMaxFramePayloadSize → carried "v2" m.
Proof.
  intros Hm Hlen. unfold carried, rw_WriteMsg, rw_ReadMsg. simpl.
  destruct (V2_WriteMsg (Some m)) as [b|e] eqn:Hw.
  - exists b. split_and!; [done| |].
    + intros ->. assert (V2_ReadMsg ([] ++ []) = Ok (m, [])) as Hr; [|discriminate].
      apply v2_message_roundtrip; [|done]. intros p [= <-]. by apply msg_json_roundtrip.
    + intros rest. apply v2_message_roundtrip; [|done]. intros p [= <-]. by apply msg_json_roundtrip.
  - exfalso. unfold V2_WriteMsg, EncodeV2MessageFrame in Hw. cbn [MarshalMsg msg_json mbind result_bind] in Hw.
    unfold WriteFrame in Hw. cbn [f_Type f_Flags f_Payload] in Hw. rewrite decide_False in Hw by (intros Hn; by apply Hn).
    rewrite (proj2 (Z.ltb_ge _ _)) in Hw; [done|]. rewrite length_app, length_be_split. lia.
Qed.

(** ** Witness *)
Definition demo_auth : TokenAuth := mkTokenAuth [AuthScopeHeartBeats] "t".
Definition demo_reg (_ : NewProxy) : result string := Ok ":6000".
(** A proxy is started and one heartbeat answered; then the server falls silent, and the check
    of the client at two minutes ends the session. *)
Definition demo_events : list event :=
  [LSay demo_new_proxy; LBeat 1700000000; LServer second; LServer (2 * second); LClient (3 * second);
   LClient (4 * second); LClientCheck (90 * second); LServerCheck (91 * second); LClientCheck (120 * second)].
Definition demo_client : ClientControl.Control := ClientControl.NewControl 0.
Lemma demo_carried m : @msg_ok demo_texts m →
  Z.of_nat (length (print (@msg_value demo_texts m))) + 2 ≤ DefaultMaxFramePayloadSize →
  @carried (@msg_json demo_texts) demo_v1 "v2" m.
Proof. exact (@v2_carried demo_texts demo_texts_laws demo_v1 m). Qed.
Ltac solve_carried := apply demo_carried;
  [cbn [msg_ok demo_new_proxy]; repeat (constructor; [cbn; apply (bool_decide_unpack _); vm_compute; exact I|]); constructor
  |apply Z.leb_le; vm_compute; reflexivity].
Lemma demo_pong_carried : @carried (@msg_json demo_texts) demo_v1 "v2" (MPong (mkPong "")).
Proof. solve_carried. Qed.
Lemma demo_events_ok : Forall (@event_ok (@msg_json demo_texts) demo_v1 "v2" demo_auth demo_reg (demo_control "r1")) demo_events.
Proof.
  unfold demo_events. rewrite !Forall_cons, Forall_nil. cbn [event_ok]. split_and!; try done.
  - unfold says. simpl. set_solver.
  - solve_carried.
  - apply Forall_singleton. solve_carried.
  - solve_carried.
Qed.
Lemma link_is_session_witness :
  ∃ l, l = @lrun (@msg_json demo_texts) demo_v1 "v2" "alice" demo_auth demo_auth demo_reg (demo_transport 30 90) demo_events (link_start demo_client (demo_control "r1"))
    ∧ ct_lastPong (cs_ctl (lk_client l)) = 4 * second ∧ c_lastPing (ss_ctl (lk_server l)) = 2 * second
    ∧ lk_lost l = false ∧ over l = true.
Proof.
  eexists. split; [reflexivity|].
  destruct (@link_is_session (@msg_json demo_texts) demo_v1 "v2" "alice" demo_auth demo_auth demo_reg (demo_transport 30 90) demo_client (demo_control "r1") demo_events)
    as [(_ & Hl & _ & _ & Hp & Hq) Ho]; [reflexivity|done|exact demo_pong_carried|reflexivity|reflexivity|exact demo_events_ok|].
  split_and!; [rewrite Hq; vm_compute; reflexivity|rewrite Hp; vm_compute; reflexivity|exact Hl|].
  apply Ho. exists (take 8 demo_events), (LClientCheck (120 * second)), []. split; [reflexivity|]. vm_compute. reflexivity.
Defined.
