(* ===== verification/SidSend.v ===== *)
(** * Sending the messages of a hole: [sendSidMessage] and the sends of [MakeHole] in [pkg/nathole/nathole.go]

    [MakeHole] (the file) says which addresses a side probes and what its sockets do with what
    they read.  Here is the sending itself: the resolved address, the encoded message, the TTL
    of the socket that is lowered for one datagram and put back, the errors of every call --
    and all the datagrams a run of [MakeHole] leaves on the wire, each with its TTL: first the
    probes sent one after the other, then those of the goroutines for random ports,
    interleaved call by call with each other and with the answers of [waitDetectMessage]. *)
From S2P Require Import Prelude GoStd Msg NatClassify Analyzer NatController MakeHole.
From stdpp Require Import gmap list.
Local Open Scope Z_scope.

(** What the calls of one [sendSidMessage] return: the resolved address, the length of the
    nonce, the transaction id drawn when there is none, the errors of reading and setting the
    TTL, of putting it back, and of the write. *)
Record send_env := mkSend {
  sd_resolve : string → result string;
  sd_nonce : nat;
  sd_newID : string;
  sd_getTTL : option string;
  sd_setTTL : option string;
  sd_restore : option string;
  sd_write : option string;
}.
Record datagram := mkDatagram { dg_conn : nat; dg_raddr : string; dg_ttl : Z; dg_bytes : list byte; dg_answer : bool }.
(** The TTL of every socket and the datagrams written, in order. *)
Record outgoing := mkOutgoing { so_ttl : gmap nat Z; so_log : list datagram }.
Definition default_ttl : Z := 64.
Definition ttl_of (conn : nat) (st : outgoing) : Z := default default_ttl (so_ttl st !! conn).
Definition SetTTL (conn : nat) (ttl : Z) (st : outgoing) : outgoing := mkOutgoing (<[conn := ttl]> (so_ttl st)) (so_log st).
Definition WriteToUDP (answer : bool) (e : option string) (conn : nat) (buf : list byte) (raddr : string) (st : outgoing)
    : option string * outgoing :=
  match e with
  | Some e => (Some e, st)
  | None => (None, mkOutgoing (so_ttl st) (so_log st ++ [mkDatagram conn raddr (ttl_of conn st) buf answer]))
  end.
(** A [sendSidMessage] that is about to write: where to, what, and the TTL to put back. *)
Record pending := mkPending { pd_raddr : string; pd_buf : list byte; pd_original : option Z }.

Section send.
Context `{SidCodec}.
(** [sendSidMessage] up to its write, the write, and its deferred call. *)
Definition prepare (x : send_env) (conn : nat) (sid transactionID addr : string) (key : list byte) (ttl : Z) (st : outgoing)
    : result pending * outgoing :=
  match sd_resolve x addr with
  | Err e => (Err e, st)
  | Ok raddr =>
      let transactionID := if decide (transactionID = "") then sd_newID x else transactionID in
      match EncodeMessage (sid_msg transactionID sid (sd_nonce x)) key with
      | Err e => (Err e, st)
      | Ok buf =>
          if 0 <? ttl then
            match sd_getTTL x with
            | Some e => (Err e, st)
            | None =>
                let original := ttl_of conn st in
                match sd_setTTL x with
                | Some _ => (Ok (mkPending raddr buf None), st)
                | None => (Ok (mkPending raddr buf (Some original)), SetTTL conn ttl st)
                end
            end
          else (Ok (mkPending raddr buf None), st)
      end
  end.
Definition restore (x : send_env) (conn : nat) (p : pending) (st : outgoing) : outgoing :=
  match pd_original p, sd_restore x with
  | Some original, None => SetTTL conn original st
  | _, _ => st
  end.
Definition sendSidMessage (x : send_env) (conn : nat) (sid transactionID addr : string) (key : list byte) (ttl : Z) (st : outgoing)
    : option string * outgoing :=
  let '(r, st) := prepare x conn sid transactionID addr key ttl st in
  match r with
  | Err e => (Some e, st)
  | Ok p => let '(e, st) := WriteToUDP false (sd_write x) conn (pd_buf p) (pd_raddr p) st in (e, restore x conn p st)
  end.

(** The sockets of a receiver: its own, and one for every [net.ListenUDP] that succeeds. *)
Definition listen_conns (m : NatHoleResp) (listen : list (option string)) : nat :=
  if is_sender m then 1%nat
  else S (length (filter (λ e, e = None) (take (Z.to_nat (db_ListenRandomPorts (nr_DetectBehavior m))) listen))).

Section hole.
Context (m : NatHoleResp) (transactionID : string) (key : list byte).
Notation strategy_ttl := (db_TTL (nr_DetectBehavior m)).
(** The sends of [MakeHole] for a list of (socket, address), the outcomes of each an argument;
    their errors are only logged. *)
Fixpoint send_all (ps : list (nat * string)) (xs : list send_env) (st : outgoing) : outgoing :=
  match ps, xs with
  | (conn, addr) :: ps, x :: xs => send_all ps xs (sendSidMessage x conn (nr_Sid m) transactionID addr key strategy_ttl st).2
  | _, _ => st
  end.
(** [MakeHole] until it starts the goroutines for random ports, or waits. *)
Definition hole_sends (listen : list (option string)) (xs : list send_env) (st : outgoing) : outgoing :=
  send_all (probes (listen_conns m listen) m) xs st.

(** One goroutine of [sendSidMessageToRandomPorts] with its socket: where it is in a
    [sendSidMessage], the addresses left of its round, the rounds left, and whether
    [waitDetectMessage] still reads the socket. *)
Inductive flight : Type := FIdle | FPrepared (addr : string) (x : send_env) (p : pending) | FWritten (x : send_env) (p : pending).
Record goro := mkGoro { go_flight : flight; go_now : list string; go_rounds : list (list string); go_reading : bool }.
(** The goroutines by socket, and the probes tried so far. *)
Record sends := mkSends { sn_out : outgoing; sn_goros : list goro; sn_tried : list (nat * string * send_env) }.
Definition with_flight (f : flight) (g : goro) : goro := mkGoro f (go_now g) (go_rounds g) (go_reading g).

(** The goroutines' calls, in any order the scheduler likes: the next round, a cancelled
    context seen between two rounds, the three parts of a [sendSidMessage], and a datagram
    read by [waitDetectMessage]. *)
Inductive act : Type :=
| ARound (conn : nat) | ACancel (conn : nat) | APrepare (conn : nat) (x : send_env)
| AWrite (conn : nat) | ARestore (conn : nat) | ARead (conn : nat) (data : list byte) (raddr : string).
Definition act_conn (a : act) : nat :=
  match a with ARound c | ACancel c | APrepare c _ | AWrite c | ARestore c | ARead c _ _ => c end.
(** One call; nothing happens where the goroutine is not at it.  [werr] is what the write
    of a socket's answer returns: a socket answers once. *)
Definition exec1 (werr : nat → option string) (a : act) (g : goro) (out : outgoing)
    : goro * outgoing * list (nat * string * send_env) :=
  match a, go_flight g, go_now g, go_rounds g with
  | ARound c, FIdle, [], r :: rs => (mkGoro FIdle r rs (go_reading g), out, [])
  | ACancel c, FIdle, [], _ => (mkGoro FIdle [] [] (go_reading g), out, [])
  | APrepare c x, FIdle, addr :: now, rs =>
      let '(r, out) := prepare x c (nr_Sid m) transactionID addr key strategy_ttl out in
      match r with
      | Err _ => (mkGoro FIdle now rs (go_reading g), out, [(c, addr, x)])
      | Ok p => (mkGoro (FPrepared addr x p) now rs (go_reading g), out, [])
      end
  | AWrite c, FPrepared addr x p, _, _ =>
      (with_flight (FWritten x p) g, (WriteToUDP false (sd_write x) c (pd_buf p) (pd_raddr p) out).2, [(c, addr, x)])
  | ARestore c, FWritten x p, _, _ => (with_flight FIdle g, restore x c p out, [])
  | ARead c data raddr, _, _, _ =>
      if go_reading g then
        match detect (nr_Sid m) key (is_sender m) data with
        | Skip => (g, out, [])
        | Accept reply =>
            (mkGoro (go_flight g) (go_now g) (go_rounds g) false,
             match reply with None => out | Some b => (WriteToUDP true (werr c) c b raddr out).2 end, [])
        end
      else (g, out, [])
  | _, _, _, _ => (g, out, [])
  end.
Definition exec (werr : nat → option string) (s : sends) (a : act) : sends :=
  match sn_goros s !! act_conn a with
  | None => s
  | Some g =>
      let '(g, out, tried) := exec1 werr a g (sn_out s) in
      mkSends out (<[act_conn a := g]> (sn_goros s)) (sn_tried s ++ tried)
  end.
(** The goroutines [MakeHole] starts, each with random numbers of its own, and their run. *)
Definition goros_start (n : nat) (rnd : nat → list Z) (out : outgoing) : sends :=
  mkSends out ((λ c, mkGoro FIdle [] (random_rounds m (rnd c)) true) <$> seq 0 n) [].
Definition MakeHole_sends (listen : list (option string)) (xs : list send_env) (rnd : nat → list Z)
    (werr : nat → option string) (acts : list act) (st : outgoing) : sends :=
  foldl (exec werr) (goros_start (listen_conns m listen) rnd (hole_sends listen xs st)) acts.

(** ** The reference *)
(** What one probe sends when it sends something: the address, the message, and the TTL it set. *)
Definition letter (addr : string) (x : send_env) : option (string * list byte * option Z) :=
  match sd_resolve x addr, EncodeMessage (sid_msg (if decide (transactionID = "") then sd_newID x else transactionID) (nr_Sid m) (sd_nonce x)) key with
  | Ok raddr, Ok buf =>
      if 0 <? strategy_ttl then
        match sd_getTTL x with
        | Some _ => None
        | None => Some (raddr, buf, match sd_setTTL x with None => Some strategy_ttl | Some _ => None end)
        end
      else Some (raddr, buf, None)
  | _, _ => None
  end.
Definition mail_of (px : nat * string * send_env) : option (nat * string * list byte * option Z) :=
  let '(conn, addr, x) := px in
  match letter addr x, sd_write x with
  | Some (raddr, buf, asked), None => Some (conn, raddr, buf, asked)
  | _, _ => None
  end.
(** A probe whose socket keeps the low TTL, as putting the old one back fails. *)
Definition sticks (c : nat) (px : nat * string * send_env) : bool :=
  let '(conn, addr, x) := px in
  bool_decide (conn = c) && match letter addr x, sd_restore x with Some (_, _, Some _), Some _ => true | _, _ => false end.
(** The TTL of a socket that nobody is sending from, after the probes [tried]. *)
Definition rest_ttl (own : nat → Z) (tried : list (nat * string * send_env)) (c : nat) : Z :=
  if existsb (sticks c) tried then strategy_ttl else own c.
(** The datagrams of probes sent one after the other, with what was tried [before]. *)
Fixpoint reference (own : nat → Z) (before l : list (nat * string * send_env)) : list datagram :=
  match l with
  | [] => []
  | px :: l =>
      option_list ((λ '(conn, raddr, buf, asked),
        mkDatagram conn raddr (default (rest_ttl own before conn) asked) buf false) <$> mail_of px)
      ++ reference own (before ++ [px]) l
  end.
(** A datagram of a goroutine, from the probe it is of. *)
Definition sent_as (own : nat → Z) (ml : nat * string * list byte * option Z) (d : datagram) : Prop :=
  let '(conn, raddr, buf, asked) := ml in
  dg_conn d = conn ∧ dg_raddr d = raddr ∧ dg_bytes d = buf
  ∧ match asked with Some ttl => dg_ttl d = ttl | None => dg_ttl d = own conn ∨ 0 < strategy_ttl ∧ dg_ttl d = strategy_ttl end.
Definition probes_of (ds : list datagram) : list datagram := filter (λ d, dg_answer d = false) ds.
Definition answers_of (c : nat) (ds : list datagram) : list datagram := filter (λ d, dg_answer d = true ∧ dg_conn d = c) ds.
Definition tried_on (c : nat) (tried : list (nat * string * send_env)) : list string :=
  (λ px, px.1.2) <$> filter (λ px, px.1.1 = c) tried.
(** What a goroutine still has to send. *)
Definition go_left (g : goro) : list string :=
  match go_flight g with FPrepared addr _ _ => [addr] | _ => [] end ++ go_now g ++ concat (go_rounds g).
(** What a socket reads. *)
Definition reads (c : nat) (acts : list act) : list (list byte * string) :=
  omap (λ a, match a with ARead c' data raddr => if decide (c' = c) then Some (data, raddr) else None | _ => None end) acts.
(** What the socket answers. *)
Definition answers (werr : nat → option string) (c : nat) (acts : list act) : list (list byte * string) :=
  if decide (werr c = None) then (waitDetectMessage (nr_Sid m) key (is_sender m) "" (reads c acts)).2 else [].
End hole.
End send.
(** The end of the hole that socket [conn] of this side is, and its packets. *)
Definition end_of (m : NatHoleResp) (conn : nat) : endpoint := if is_sender m then SenderEnd else ReceiverEnd conn.
Definition packet_of (m : NatHoleResp) (d : datagram) : packet := mkPacket (end_of m (dg_conn d)) (dg_raddr d) (dg_bytes d).

(** ** Lemmas: one send *)
Lemma ttl_of_SetTTL conn c ttl st : ttl_of conn (SetTTL c ttl st) = if decide (c = conn) then ttl else ttl_of conn st.
Proof. unfold ttl_of, SetTTL. simpl. case_decide; [subst; by rewrite lookup_insert_eq|by rewrite lookup_insert_ne]. Qed.
Lemma ttl_of_Write conn b e c buf r st : ttl_of conn (WriteToUDP b e c buf r st).2 = ttl_of conn st.
Proof. by destruct e. Qed.
Lemma log_of_Write b e c buf r st : so_log (WriteToUDP b e c buf r st).2 =
  so_log st ++ match e with None => [mkDatagram c r (ttl_of c st) buf b] | Some _ => [] end.
Proof. destruct e; [simpl; by rewrite app_nil_r|done]. Qed.

Section lemmas.
Context `{SidCodec} (m : NatHoleResp) (tx : string) (key : list byte).
Notation strategy_ttl := (db_TTL (nr_DetectBehavior m)).
Notation letter := (letter m tx key).
Notation mail_of := (mail_of m tx key).
Notation rest_ttl := (rest_ttl m tx key).
Notation sticks := (sticks m tx key).

Lemma letter_asked addr x raddr buf t : letter addr x = Some (raddr, buf, Some t) → t = strategy_ttl ∧ 0 < t.
Proof. unfold SidSend.letter. intros E. repeat case_match; simplify_eq; (split; [done|by apply Z.ltb_lt]). Qed.
Lemma prepare_spec x conn addr st :
  match letter addr x with
  | None => ∃ e, prepare x conn (nr_Sid m) tx addr key strategy_ttl st = (Err e, st)
  | Some (raddr, buf, None) => prepare x conn (nr_Sid m) tx addr key strategy_ttl st = (Ok (mkPending raddr buf None), st)
  | Some (raddr, buf, Some t) => prepare x conn (nr_Sid m) tx addr key strategy_ttl st
      = (Ok (mkPending raddr buf (Some (ttl_of conn st))), SetTTL conn t st)
  end.
Proof.
  unfold SidSend.letter, prepare. destruct (sd_resolve x addr) as [raddr|e]; [|by eexists].
  destruct (EncodeMessage _ _) as [buf|e]; [|by eexists]. destruct (0 <? _); [|done].
  destruct (sd_getTTL x) as [e|]; [by eexists|]. by destruct (sd_setTTL x).
Qed.
Lemma rest_snoc own T px c : rest_ttl own (T ++ [px]) c = if sticks c px then strategy_ttl else rest_ttl own T c.
Proof.
  unfold SidSend.rest_ttl. rewrite existsb_app. simpl. rewrite orb_false_r.
  destruct (existsb _ T); [by destruct (sticks c px)|]. by destruct (sticks c px).
Qed.
Lemma sticks_other c c' addr x : c ≠ c' → sticks c (c', addr, x) = false.
Proof. intros Hc. unfold SidSend.sticks. by rewrite bool_decide_eq_false_2. Qed.
Lemma sticks_own c addr x : sticks c (c, addr, x) =
  match letter addr x, sd_restore x with Some (_, _, Some _), Some _ => true | _, _ => false end.
Proof. unfold SidSend.sticks. by rewrite bool_decide_eq_true_2. Qed.
Lemma rest_other own T c c' addr x : c ≠ c' → rest_ttl own (T ++ [(c', addr, x)]) c = rest_ttl own T c.
Proof. intros Hc. by rewrite rest_snoc, sticks_other. Qed.
Lemma sticks_low c px : sticks c px = true → 0 < strategy_ttl.
Proof.
  destruct px as [[c' addr] x]. intros [_ Hl]%andb_true_iff. destruct (letter addr x) as [[[raddr buf] [t|]]|] eqn:E; [|done..].
  apply letter_asked in E as [-> ?]. done.
Qed.
Definition loose (own : nat → Z) (c : nat) (t : Z) : Prop := t = own c ∨ 0 < strategy_ttl ∧ t = strategy_ttl.
Lemma rest_loose own T c : loose own c (rest_ttl own T c).
Proof.
  unfold SidSend.rest_ttl. destruct (existsb (sticks c) T) eqn:E; [right|by left].
  apply existsb_exists in E as (px & _ & ?%sticks_low). done.
Qed.

(** One send writes its datagram and leaves every TTL as it was, or low where that fails. *)
Lemma sendSidMessage_spec own T x conn addr st : (∀ c, ttl_of c st = rest_ttl own T c) →
  let r := (sendSidMessage x conn (nr_Sid m) tx addr key strategy_ttl st).2 in
  so_log r = so_log st ++ reference m tx key own T [(conn, addr, x)] ∧ ∀ c, ttl_of c r = rest_ttl own (T ++ [(conn, addr, x)]) c.
Proof.
  intros Hst. unfold sendSidMessage. pose proof (prepare_spec x conn addr st) as Hp. simpl.
  assert (Hrest : ∀ c, rest_ttl own (T ++ [(conn, addr, x)]) c = if decide (conn = c) then if sticks conn (conn, addr, x) then strategy_ttl else rest_ttl own T conn else rest_ttl own T c).
  { intros c. case_decide; [subst; by rewrite rest_snoc|by rewrite rest_other]. }
  rewrite sticks_own in Hrest. unfold SidSend.mail_of. destruct (letter addr x) as [[[raddr buf] [t|]]|] eqn:E.
  - rewrite Hp. pose proof (log_of_Write false (sd_write x) conn buf raddr (SetTTL conn t st)) as Hl.
    pose proof (λ c, ttl_of_Write c false (sd_write x) conn buf raddr (SetTTL conn t st)) as Ht.
    destruct (WriteToUDP _ _ _ _ _ _) as [e st']. simpl in *. rewrite ttl_of_SetTTL, decide_True in Hl by done.
    apply letter_asked in E as [-> _]. unfold restore. simpl. destruct (sd_restore x) as [e'|]; simpl; rewrite ?Hl.
    all: split; [by destruct (sd_write x)|]; intros c; rewrite Hrest, ?ttl_of_SetTTL, ?Ht, ?ttl_of_SetTTL; case_decide; subst; by rewrite ?Hst.
  - rewrite Hp. pose proof (log_of_Write false (sd_write x) conn buf raddr st) as Hl.
    pose proof (λ c, ttl_of_Write c false (sd_write x) conn buf raddr st) as Ht.
    destruct (WriteToUDP _ _ _ _ _ _) as [e st']. simpl in *. unfold restore. simpl. split.
    + rewrite Hl, Hst. by destruct (sd_write x).
    + intros c. rewrite Hrest, Ht, Hst. by case_decide; subst.
  - destruct Hp as [e ->]. simpl. split; [by rewrite app_nil_r|]. intros c. rewrite Hrest, Hst. by case_decide; subst.
Qed.
Lemma send_all_spec own T ps xs st : (∀ c, ttl_of c st = rest_ttl own T c) →
  so_log (send_all m tx key ps xs st) = so_log st ++ reference m tx key own T (zip ps xs) ∧
  ∀ c, ttl_of c (send_all m tx key ps xs st) = rest_ttl own (T ++ zip ps xs) c.
Proof.
  revert T ps st. induction xs as [|x xs IH]; intros T [|[conn addr] ps] st Hst; try (cbn; rewrite !app_nil_r; done).
  destruct (sendSidMessage_spec own T x conn addr st Hst) as [H1 H2]. cbn [send_all zip zip_with].
  destruct (IH _ ps _ H2) as [H3 H4]. rewrite H3, H1. split.
  - rewrite <- (assoc_L (++)). f_equal. simpl. by rewrite app_nil_r.
  - intros c. by rewrite H4, <- (assoc_L (++)).
Qed.

(** ** Lemmas: the goroutines *)
Section goroutines.
Context (werr : nat → option string) (own : nat → Z).
Notation mail := (λ d, (dg_bytes d, dg_raddr d)).

(** The TTL of a socket through a send of its goroutine. *)
Definition ginv (T : list (nat * string * send_env)) (out : outgoing) (c : nat) (g : goro) : Prop :=
  match go_flight g with
  | FIdle => ttl_of c out = rest_ttl own T c
  | FPrepared addr x p => ∃ asked, letter addr x = Some (pd_raddr p, pd_buf p, asked) ∧
      match asked with
      | Some t => ttl_of c out = t ∧ pd_original p = Some (rest_ttl own T c)
      | None => ttl_of c out = rest_ttl own T c ∧ pd_original p = None
      end
  | FWritten x p =>
      match pd_original p with
      | Some o => 0 < strategy_ttl ∧ ttl_of c out = strategy_ttl
                  ∧ rest_ttl own T c = match sd_restore x with None => o | Some _ => strategy_ttl end
      | None => ttl_of c out = rest_ttl own T c
      end
  end.
Lemma ginv_loose T out c g : ginv T out c g → loose own c (ttl_of c out).
Proof.
  unfold ginv. destruct (go_flight g) as [|addr x p|x p]; [intros ->; apply rest_loose| |].
  - intros ([t|] & Hl & Ho & _); rewrite Ho; [|apply rest_loose]. apply letter_asked in Hl as [-> ?]. by right.
  - destruct (pd_original p); [intros (? & -> & _); by right|intros ->; apply rest_loose].
Qed.
Lemma ginv_ext T T' out out' c g : ttl_of c out' = ttl_of c out → rest_ttl own T' c = rest_ttl own T c →
  ginv T out c g → ginv T' out' c g.
Proof. intros E1 E2. unfold ginv. by rewrite E1, E2. Qed.

(** What one datagram read adds to the answers of its socket. *)
Definition answer1 (a : act) (g : goro) : list (list byte * string) :=
  match a with
  | ARead c data raddr =>
      if go_reading g && bool_decide (werr c = None)
      then match detect (nr_Sid m) key (is_sender m) data with Accept (Some b) => [(b, raddr)] | _ => [] end else []
  | _ => []
  end.

(** One call of the goroutine of socket [c]. *)
Record exec1_ok (T : list (nat * string * send_env)) (out : outgoing) (a : act) (g g' : goro) (out' : outgoing)
    (T' : list (nat * string * send_env)) (ds : list datagram) : Prop := mkExec1 {
  e1_log : so_log out' = so_log out ++ ds;
  e1_others : ∀ c, c ≠ act_conn a → ttl_of c out' = ttl_of c out;
  e1_tried : Forall (λ px, px.1.1 = act_conn a) T';
  e1_datagrams : Forall (λ d, dg_conn d = act_conn a ∧ loose own (dg_conn d) (dg_ttl d)) ds;
  e1_ginv : ginv (T ++ T') out' (act_conn a) g';
  e1_probes : Forall2 (sent_as m own) (omap mail_of T') (probes_of ds);
  e1_answers : mail <$> filter (λ d, dg_answer d = true) ds = answer1 a g;
  e1_left : (∃ k, tried_on (act_conn a) T' ++ go_left g' ++ k = go_left g ∧ (a ≠ ACancel (act_conn a) → k = []));
}.
Lemma exec1_idle T out a g g' : ginv T out (act_conn a) g → ginv T out (act_conn a) g' → answer1 a g = [] →
  (∃ k, go_left g' ++ k = go_left g ∧ (a ≠ ACancel (act_conn a) → k = [])) → exec1_ok T out a g g' out [] [].
Proof.
  intros Hg Hg' Ha Hl. split; try done; rewrite ?app_nil_r; try done; constructor.
Qed.
Lemma exec1_prepare T out c x g addr now : ginv T out c g → go_flight g = FIdle → go_now g = addr :: now →
  let '(g', out', T') := exec1 m tx key werr (APrepare c x) g out in exec1_ok T out (APrepare c x) g g' out' T' [].
Proof.
  intros Hg Hf Hn. unfold exec1. rewrite Hf, Hn. pose proof (prepare_spec x c addr out) as Hp.
  unfold ginv in Hg. rewrite Hf in Hg. assert (Hleft : go_left g = addr :: now ++ concat (go_rounds g)) by (unfold go_left; by rewrite Hf, Hn).
  destruct (letter addr x) as [[[raddr buf] [t|]]|] eqn:E; [rewrite Hp..|destruct Hp as [e ->]]; split; simpl; rewrite ?app_nil_r; try done.
  - intros c' Hc. by rewrite ttl_of_SetTTL, decide_False.
  - exists (Some t). rewrite E, ttl_of_SetTTL, decide_True, Hg by done. done.
  - exists []. by rewrite app_nil_r.
  - by exists None.
  - exists []. by rewrite app_nil_r.
  - by repeat constructor.
  - unfold ginv. simpl. by rewrite rest_snoc, sticks_own, E.
  - unfold SidSend.mail_of. by rewrite E.
  - exists []. unfold tried_on. rewrite filter_cons_True, app_nil_r by done. done.
Qed.
Lemma exec1_write T out c g addr x p : ginv T out c g → go_flight g = FPrepared addr x p →
  let '(g', out', T') := exec1 m tx key werr (AWrite c) g out in ∃ ds, exec1_ok T out (AWrite c) g g' out' T' ds.
Proof.
  intros Hg Hf. pose proof (ginv_loose _ _ _ _ Hg) as Hloose. unfold exec1. rewrite Hf. unfold ginv in Hg. rewrite Hf in Hg. destruct Hg as (asked & E & Ha).
  exists (match sd_write x with None => [mkDatagram c (pd_raddr p) (ttl_of c out) (pd_buf p) false] | Some _ => [] end).
  split; simpl.
  - by rewrite log_of_Write.
  - intros c' _. apply ttl_of_Write.
  - by repeat constructor.
  - destruct (sd_write x); [by constructor|by apply Forall_singleton].
  - unfold ginv. simpl. rewrite ttl_of_Write, rest_snoc, sticks_own, E. destruct asked as [t|]; destruct Ha as [H1 H2]; rewrite H2; [|done].
    apply letter_asked in E as [-> ?]. by destruct (sd_restore x).
  - unfold SidSend.mail_of. rewrite E. destruct (sd_write x); simpl; [constructor|]. repeat constructor; simpl.
    destruct asked; [by destruct Ha|]. exact Hloose.
  - by destruct (sd_write x).
  - exists []. unfold tried_on. rewrite filter_cons_True, app_nil_r by done. unfold go_left. by rewrite Hf.
Qed.
Lemma exec1_restore T out c g x p : ginv T out c g → go_flight g = FWritten x p →
  let '(g', out', T') := exec1 m tx key werr (ARestore c) g out in exec1_ok T out (ARestore c) g g' out' T' [].
Proof.
  intros Hg Hf. unfold exec1. rewrite Hf. unfold ginv in Hg. rewrite Hf in Hg. unfold restore.
  assert (Hl : ∃ k, tried_on c [] ++ go_left (with_flight FIdle g) ++ k = go_left g ∧ (ARestore c ≠ ACancel c → k = [])).
  { exists []. unfold go_left. by rewrite Hf, app_nil_r. }
  destruct (pd_original p) as [o|]; [destruct Hg as (? & Ht & Hr); destruct (sd_restore x)|];
    split; rewrite ?app_nil_r; try done; try constructor.
  - unfold ginv. simpl. congruence.
  - intros c' Hc. by rewrite ttl_of_SetTTL, decide_False.
  - unfold ginv. simpl. by rewrite ttl_of_SetTTL, decide_True.
Qed.
Lemma exec1_read T out c data raddr g : ginv T out c g →
  let '(g', out', T') := exec1 m tx key werr (ARead c data raddr) g out in ∃ ds, exec1_ok T out (ARead c data raddr) g g' out' T' ds.
Proof.
  intros Hg. pose proof (ginv_loose _ _ _ _ Hg) as Hloose.
  assert (Hleft : ∀ g', go_left g' = go_left g → ∃ k, go_left g' ++ k = go_left g ∧ (ARead c data raddr ≠ ACancel c → k = [])).
  { intros g' ->. exists []. by rewrite app_nil_r. }
  unfold exec1. destruct (go_reading g) eqn:Hr; [|exists []; apply exec1_idle; [done..| |by apply Hleft]; unfold answer1; by rewrite Hr].
  destruct (detect _ _ _ _) as [|[b|]] eqn:Hd; [exists []; apply exec1_idle; [done..| |by apply Hleft]; unfold answer1; rewrite Hr, Hd; by destruct (bool_decide _)| |].
  - exists (match werr c with None => [mkDatagram c raddr (ttl_of c out) b true] | Some _ => [] end). split; rewrite ?app_nil_r.
    + apply log_of_Write.
    + intros c' _. apply ttl_of_Write.
    + constructor.
    + destruct (werr c); [by constructor|by apply Forall_singleton].
    + eapply ginv_ext; [apply ttl_of_Write|reflexivity|exact Hg].
    + destruct (werr c); constructor.
    + unfold answer1. rewrite Hr, Hd. by destruct (werr c).
    + by apply Hleft.
  - exists []. apply exec1_idle; [done..| |by apply Hleft]. unfold answer1. rewrite Hr, Hd. by destruct (bool_decide _).
Qed.
Lemma exec1_spec T out a g : ginv T out (act_conn a) g →
  let '(g', out', T') := exec1 m tx key werr a g out in ∃ ds, exec1_ok T out a g g' out' T' ds.
Proof.
  intros Hg. assert (Hsame : answer1 a g = [] → ∃ ds, exec1_ok T out a g g out [] ds).
  { intros Ha. exists []. apply exec1_idle; [done..|]. exists []. by rewrite app_nil_r. }
  assert (Hnext : ∀ g', go_flight g = FIdle → go_flight g' = FIdle → answer1 a g = [] →
    (∃ k, go_left g' ++ k = go_left g ∧ (a ≠ ACancel (act_conn a) → k = [])) → ∃ ds, exec1_ok T out a g g' out [] ds).
  { intros g' Hf Hf' Ha Hl. exists []. apply exec1_idle; [done| |done..]. unfold ginv in *. by rewrite Hf, Hf' in *. }
  destruct a as [c|c|c x|c|c|c data raddr]; [| | | | |by apply exec1_read].
  all: destruct (go_flight g) as [|addr y p|y p] eqn:Hf.
  all: try (unfold exec1; rewrite Hf; by apply Hsame).
  - unfold exec1. rewrite Hf. destruct (go_now g) as [|? ?] eqn:Hn; [|by apply Hsame]. destruct (go_rounds g) as [|r rs] eqn:Hr; [by apply Hsame|].
    apply Hnext; [done..|]. exists []. unfold go_left. simpl. by rewrite Hf, Hn, Hr, app_nil_r.
  - unfold exec1. rewrite Hf. destruct (go_now g) as [|? ?] eqn:Hn; [|by apply Hsame].
    apply Hnext; [done..|]. exists (go_left g). done.
  - destruct (go_now g) as [|? ?] eqn:Hn; [unfold exec1; rewrite Hf, Hn; by apply Hsame|].
    pose proof (exec1_prepare T out c x g _ _ Hg Hf Hn) as Hp. destruct (exec1 _ _ _ _ _ _ _) as [[g' out'] T']. by exists [].
  - by eapply exec1_write.
  - pose proof (exec1_restore T out c g _ _ Hg Hf) as Hp. destruct (exec1 _ _ _ _ _ _ _) as [[g' out'] T']. by exists [].
Qed.

(** ** Lemmas: runs of the goroutines *)
Lemma wait_snoc sid snd e l d r : waitDetectMessage sid key snd e (l ++ [(d, r)]) =
  match waitDetectMessage sid key snd e l with
  | (Ok a, rs) => (Ok a, rs)
  | (Err _, _) => match detect sid key snd d with
                  | Skip => (Err e, [])
                  | Accept reply => (Ok r, from_option (λ b, [(b, r)]) [] reply)
                  end
  end.
Proof. induction l as [|[d' r'] l IH]; cbn; [done|]. by destruct (detect sid key snd d') as [|[?|]]. Qed.
Lemma wait_Err sid snd e l e' : (waitDetectMessage sid key snd e l).1 = Err e' → (waitDetectMessage sid key snd e l).2 = [].
Proof. induction l as [|[d' r'] l IH]; cbn; [done|]. by destruct (detect sid key snd d') as [|[?|]]. Qed.
Lemma reads_snoc c acts a : reads c (acts ++ [a]) =
  reads c acts ++ match a with ARead c' data raddr => if decide (c' = c) then [(data, raddr)] else [] | _ => [] end.
Proof. unfold reads. rewrite omap_app. f_equal. destruct a; try done. simpl. by case_decide. Qed.
Lemma reads_other c acts a : act_conn a ≠ c → reads c (acts ++ [a]) = reads c acts.
Proof. intros Hc. rewrite reads_snoc. destruct a; rewrite ?app_nil_r; try done. simpl in Hc. by rewrite decide_False, app_nil_r. Qed.

(** A socket answers as [waitDetectMessage] does with what it reads. *)
Definition still_reads (c : nat) (acts : list act) : bool :=
  match (waitDetectMessage (nr_Sid m) key (is_sender m) "" (reads c acts)).1 with Err _ => true | Ok _ => false end.
Lemma answers_snoc a g out acts : go_reading g = still_reads (act_conn a) acts →
  let '(g', _, _) := exec1 m tx key werr a g out in
  go_reading g' = still_reads (act_conn a) (acts ++ [a]) ∧
  answers m key werr (act_conn a) acts ++ answer1 a g = answers m key werr (act_conn a) (acts ++ [a]).
Proof.
  unfold still_reads, answers. rewrite reads_snoc. intros Hr.
  destruct a as [c|c|c x|c|c|c data raddr]; simpl in *; rewrite ?app_nil_r.
  1-5: repeat case_match; simplify_eq/=; done.
  rewrite decide_True, wait_snoc by done.
  destruct (waitDetectMessage _ _ _ _ _) as [[a|e] rs] eqn:E; simpl in Hr; rewrite Hr; simpl; [by rewrite app_nil_r|].
  pose proof (wait_Err _ _ _ _ e (f_equal fst E)) as Hn. rewrite E in Hn. simpl in Hn. subst rs.
  destruct (detect _ _ _ _) as [|[b|]]; simpl; case_bool_decide; by rewrite ?decide_True, ?decide_False by done.
Qed.

Section run.
Context (rnd : nat → list Z) (n : nat) (out0 : outgoing).
Record sinv (acts : list act) (s : sends) (ds : list datagram) : Prop := mkSinv {
  v_log : so_log (sn_out s) = so_log out0 ++ ds;
  v_len : length (sn_goros s) = n;
  v_probes : Forall2 (sent_as m own) (omap mail_of (sn_tried s)) (probes_of ds);
  v_loose : Forall (λ d, loose own (dg_conn d) (dg_ttl d)) ds;
  v_goro : ∀ c g, sn_goros s !! c = Some g →
    ginv (sn_tried s) (sn_out s) c g
    ∧ (∃ k, tried_on c (sn_tried s) ++ go_left g ++ k = random_probes m (rnd c) ∧ (ACancel c ∉ acts → k = []))
    ∧ go_reading g = still_reads c acts
    ∧ mail <$> answers_of c ds = answers m key werr c acts;
}.
Lemma sinv_start : (∀ c, ttl_of c out0 = own c) → sinv [] (goros_start m n rnd out0) [].
Proof.
  intros Ho. split; simpl; rewrite ?app_nil_r; try done.
  - by rewrite length_fmap, length_seq.
  - intros c g Hg. apply list_lookup_fmap_Some in Hg as (c' & -> & [-> _]%lookup_seq). split_and!; simpl.
    + apply Ho.
    + exists []. rewrite app_nil_r. done.
    + done.
    + unfold answers. simpl. by case_decide.
Qed.
Lemma tried_on_other c T : Forall (λ px : nat * string * send_env, px.1.1 ≠ c) T → tried_on c T = [].
Proof. unfold tried_on. induction 1 as [|px T Hp _ IH]; [done|]. by rewrite filter_cons_False. Qed.
Lemma rest_others c T T' : Forall (λ px : nat * string * send_env, px.1.1 ≠ c) T' → rest_ttl own (T ++ T') c = rest_ttl own T c.
Proof.
  intros HT. revert T. induction HT as [|[[c' addr] x] T' Hp _ IH]; intros T; [by rewrite app_nil_r|].
  rewrite (cons_middle _ T T'), (assoc_L (++)), IH. by apply rest_other.
Qed.
Lemma answers_of_other c ds : Forall (λ d, dg_conn d ≠ c) ds → answers_of c ds = [].
Proof. unfold answers_of. induction 1 as [|d ds Hd _ IH]; [done|]. rewrite filter_cons_False; [done|]. by intros [_ ?]. Qed.
Lemma answers_of_own c ds : Forall (λ d, dg_conn d = c) ds → answers_of c ds = filter (λ d, dg_answer d = true) ds.
Proof.
  unfold answers_of. induction 1 as [|d ds Hd _ IH]; [done|]. destruct (dg_answer d) eqn:E.
  - rewrite !filter_cons_True by done. by rewrite IH.
  - rewrite !filter_cons_False by (rewrite E; by intros [? _] || done). done.
Qed.
Lemma sinv_exec acts s ds a : sinv acts s ds → ∃ ds', sinv (acts ++ [a]) (exec m tx key werr s a) (ds ++ ds').
Proof.
  intros [H1 H2 H3 H4 H5]. unfold exec. destruct (sn_goros s !! act_conn a) as [g|] eqn:Hg.
  - destruct (H5 _ _ Hg) as (Hgi & (k & Hk & Hc) & Hr & Ha).
    pose proof (exec1_spec _ _ a g Hgi) as Hs. pose proof (answers_snoc a g (sn_out s) acts Hr) as Hw.
    destruct (exec1 _ _ _ _ _ _ _) as [[g' out'] T'] eqn:Ex. destruct Hs as (ds' & [E1 E2 E3 E4 E5 E6 E7 (k' & Ek & Ec)]). destruct Hw as [Hr' Hw].
    exists ds'. split; simpl.
    + by rewrite E1, H1, (assoc_L (++)).
    + by rewrite length_insert.
    + unfold probes_of. rewrite omap_app, filter_app. by apply Forall2_app.
    + apply Forall_app. split; [done|]. eapply Forall_impl; [exact E4|]. by intros d [_ ?].
    + intros c h Hh. apply list_lookup_insert_Some in Hh as [(<- & <- & _)|(Hne & Hh)].
      * split_and!; [exact E5| |exact Hr'|].
        -- exists (k' ++ k). rewrite <- Hk, <- Ek. unfold tried_on. rewrite filter_app, fmap_app, <- !(assoc_L (++)). split; [done|].
           intros Hn. rewrite not_elem_of_app in Hn. destruct Hn as [Hn1 Hn2]. rewrite (Hc Hn1), Ec; [done|].
           intros E. apply Hn2, list_elem_of_singleton. done.
        -- unfold answers_of. rewrite filter_app, fmap_app. fold (answers_of (act_conn a) ds). rewrite Ha, <- Hw. f_equal.
           rewrite <- E7. fold (answers_of (act_conn a) ds'). rewrite answers_of_own; [done|]. eapply Forall_impl; [exact E4|]. by intros d [? _].
      * destruct (H5 _ _ Hh) as (Gi & (k2 & Gk & Gc) & Gr & Ga).
        assert (HT : Forall (λ px, px.1.1 ≠ c) T') by (eapply Forall_impl; [exact E3|]; by intros px ->).
        split_and!.
        -- eapply ginv_ext; [by apply E2|by apply rest_others|exact Gi].
        -- exists k2. unfold tried_on in *. rewrite filter_app, fmap_app. fold (tried_on c T'). rewrite tried_on_other, app_nil_r by done.
           split; [done|]. intros Hn. apply Gc. rewrite not_elem_of_app in Hn. tauto.
        -- unfold still_reads. by rewrite reads_other.
        -- unfold answers_of, answers. rewrite filter_app, fmap_app, reads_other by done. fold (answers_of c ds) (answers_of c ds').
           rewrite (answers_of_other c ds'); [by rewrite app_nil_r|]. eapply Forall_impl; [exact E4|]. by intros d [-> _].
  - exists []. rewrite app_nil_r. split; try done. intros c h Hh. assert (Hne : act_conn a ≠ c) by congruence.
    destruct (H5 _ _ Hh) as (Gi & (k2 & Gk & Gc) & Gr & Ga). split_and!; [done| | |].
    + exists k2. split; [done|]. intros Hn. apply Gc. rewrite not_elem_of_app in Hn. tauto.
    + unfold still_reads. by rewrite reads_other.
    + unfold answers. by rewrite reads_other.
Qed.
Lemma sinv_run acts : (∀ c, ttl_of c out0 = own c) →
  ∃ ds, sinv acts (foldl (exec m tx key werr) (goros_start m n rnd out0) acts) ds.
Proof.
  intros Ho. induction acts as [|a acts [ds IH]] using rev_ind; [exists []; by apply sinv_start|].
  rewrite foldl_snoc. destruct (sinv_exec _ _ _ a IH) as [ds' ?]. by eexists.
Qed.
End run.
End goroutines.

(** ** Lemmas: the other side *)
(** A letter is a probe of the hole. *)
Lemma letter_probe nw w c addr x raddr buf asked :
  ValidString tx = true → ValidString (sd_newID x) = true → (sd_resolve x addr = Ok raddr → targets nw (end_of m c) raddr) →
  letter addr x = Some (raddr, buf, asked) → h_sid w = nr_Sid m → h_key w = key →
  hstep nw w (to_net [mkPacket (end_of m c) raddr buf] w).
Proof.
  unfold SidSend.letter. intros Htx Hid Ht E Hs Hk. destruct (sd_resolve x addr) as [raddr'|] eqn:Er; [|done].
  destruct (EncodeMessage _ _) as [buf'|] eqn:Ee; [|done].
  assert (raddr' = raddr ∧ buf' = buf) as [-> ->] by (repeat case_match; by simplify_eq).
  eapply (h_probe _ _ _ (if decide (tx = "") then sd_newID x else tx)); [| |by case_decide|by rewrite Hs, Hk].
  - unfold end_of. by destruct (is_sender m).
  - by apply Ht.
Qed.
Lemma mail_letter c addr x c' raddr buf asked : mail_of (c, addr, x) = Some (c', raddr, buf, asked) →
  c' = c ∧ letter addr x = Some (raddr, buf, asked).
Proof. unfold SidSend.mail_of. intros E. repeat case_match; by simplify_eq. Qed.
Lemma elem_of_reference own T l d : d ∈ reference m tx key own T l →
  ∃ px asked, px ∈ l ∧ mail_of px = Some (dg_conn d, dg_raddr d, dg_bytes d, asked).
Proof.
  revert T. induction l as [|px l IH]; intros T Hd; [by apply not_elem_of_nil in Hd|]. simpl in Hd.
  apply elem_of_app in Hd as [Hd|(qx & asked & ? & ?)%IH]; [|exists qx, asked; split; [by right|done]].
  destruct (mail_of px) as [[[[c r] b] asked]|] eqn:E; [|by apply not_elem_of_nil in Hd].
  apply list_elem_of_singleton in Hd as ->. exists px, asked. split; [by left|done].
Qed.
Lemma elem_of_sent own T ds d : Forall2 (sent_as m own) (omap mail_of T) ds → d ∈ ds →
  ∃ px asked, px ∈ T ∧ mail_of px = Some (dg_conn d, dg_raddr d, dg_bytes d, asked).
Proof.
  intros HF Hd. destruct (proj1 (list_elem_of_lookup _ _) Hd) as [i Hi].
  destruct (Forall2_lookup_r _ _ _ _ _ HF Hi) as ([[[c r] b] asked] & Hl & <- & <- & <- & _).
  apply list_elem_of_lookup_2, list_elem_of_omap in Hl as (px & ? & ?). eauto.
Qed.
End lemmas.

(** ** What is shown *)
Section theorems.
Context `{SidCodec}.
(** C23. The datagrams of a side on the wire, whatever call fails and however the goroutines
    interleave.  First come those of the reference, one for each probe whose calls succeed, in
    the order of [probes]; after them every socket has its own TTL again, except where
    putting it back failed: that one keeps the strategy's.  Then come those of the goroutines
    for random ports and the answers: a goroutine tries its random addresses in their
    order, all of them unless it is cancelled or not done, and the datagrams are those of the
    probes that were tried and whose calls succeed, once each, with the TTL they set; a socket
    answers what [waitDetectMessage] answers to the datagrams it reads, at most once; a
    datagram that sets no TTL leaves with the socket's or the strategy's, and between two
    sends a socket has its own TTL or, after a failure to put it back, the strategy's.  To the
    other side every probe is a step of the hole that [MakeHole] models. *)
Theorem hole_sends_datagrams m tx key listen xs rnd werr acts st :
  let n := listen_conns m listen in
  let ttl := db_TTL (nr_DetectBehavior m) in
  let first := zip (probes n m) xs in
  let ref := reference m tx key (λ c, ttl_of c st) [] first in
  let out := hole_sends m tx key listen xs st in
  let s := MakeHole_sends m tx key listen xs rnd werr acts st in
  so_log out = so_log st ++ ref
  ∧ (∀ c, ttl_of c out = if existsb (sticks m tx key c) first then ttl else ttl_of c st)
  ∧ ∃ ds, so_log (sn_out s) = so_log out ++ ds
  ∧ Forall2 (sent_as m (λ c, ttl_of c out)) (omap (mail_of m tx key) (sn_tried s)) (probes_of ds)
  ∧ Forall (λ d, dg_ttl d = ttl_of (dg_conn d) out ∨ 0 < ttl ∧ dg_ttl d = ttl) ds
  ∧ (∀ c, (c < n)%nat → ∃ g, sn_goros s !! c = Some g
     ∧ tried_on c (sn_tried s) `prefix_of` random_probes m (rnd c)
     ∧ (ACancel c ∉ acts → tried_on c (sn_tried s) ++ go_left g = random_probes m (rnd c))
     ∧ (λ d, (dg_bytes d, dg_raddr d)) <$> answers_of c ds = answers m key werr c acts
     ∧ (go_flight g = FIdle → ttl_of c (sn_out s) =
          if existsb (sticks m tx key c) (sn_tried s) then ttl else ttl_of c out))
  ∧ (∀ nw, ValidString tx = true →
     (∀ c addr x, (c, addr, x) ∈ first ++ sn_tried s → ValidString (sd_newID x) = true ∧
        ∀ raddr, sd_resolve x addr = Ok raddr → targets nw (end_of m c) raddr) →
     ∀ d w, d ∈ ref ++ probes_of ds → h_sid w = nr_Sid m → h_key w = key → hstep nw w (to_net [packet_of m d] w)).
Proof.
  intros n ttl first ref out s.
  destruct (send_all_spec m tx key (λ c, ttl_of c st) [] (probes n m) xs st (λ c, eq_refl)) as [H1 H2].
  split; [exact H1|]. split; [exact H2|].
  destruct (sinv_run m tx key werr (λ c, ttl_of c out) rnd n out acts (λ c, eq_refl)) as [ds [V1 V2 V3 V4 V5]].
  exists ds. split_and!; [exact V1|exact V3|exact V4| |].
  - intros c Hc. destruct (lookup_lt_is_Some_2 (sn_goros s) c) as [g Hg]; [exact (eq_ind_r (λ k, (c < k)%nat) Hc V2)|]. exists g.
    destruct (V5 c g Hg) as (Hi & (k & Hk & Hn) & _ & Ha). split_and!; [done| | |exact Ha|].
    + exists (go_left g ++ k). by rewrite <- Hk.
    + intros Hcan. by rewrite <- Hk, (Hn Hcan), app_nil_r.
    + intros Hf. unfold ginv in Hi. by rewrite Hf in Hi.
  - intros nw Htx Hpx d w Hd Hs Hk.
    assert (∃ px asked, px ∈ first ++ sn_tried s ∧ mail_of m tx key px = Some (dg_conn d, dg_raddr d, dg_bytes d, asked))
      as ([[c addr] x] & asked & Hin & [Hc Hl]%mail_letter).
    { apply elem_of_app in Hd as [(px & asked & ? & ?)%elem_of_reference|Hd].
      - exists px, asked. split; [apply elem_of_app; by left|done].
      - apply (elem_of_sent m tx key _ _ _ _ V3) in Hd as (px & asked & ? & ?).
        exists px, asked. split; [apply elem_of_app; by right|done]. }
    destruct (Hpx _ _ _ Hin) as [Hid Hr]. unfold packet_of. rewrite Hc. apply (letter_probe m tx key nw w c addr x _ _ asked); try done. apply Hr.
Qed.
(** Without a failure every probe is sent. *)
Theorem every_probe_sent m tx key own T ps xs : length xs = length ps →
  Forall (λ x, (∀ a, ∃ r, sd_resolve x a = Ok r) ∧ sd_getTTL x = None ∧ sd_write x = None ∧
    ∀ tx, ∃ b, EncodeMessage (sid_msg tx (nr_Sid m) (sd_nonce x)) key = Ok b) xs →
  dg_conn <$> reference m tx key own T (zip ps xs) = ps.*1.
Proof.
  intros Hl Hx. revert ps T Hl. induction Hx as [|x xs (Hr & Ht & Hw & He) _ IH]; intros [|[c a] ps] T Hl; try done.
  destruct (He (if decide (tx = "") then sd_newID x else tx)) as [b Hb]. destruct (Hr a) as [r Ha].
  assert (∃ asked, mail_of m tx key (c, a, x) = Some (c, r, b, asked)) as [asked E].
  { unfold mail_of, letter. rewrite Ha, Hb, Hw, Ht. destruct (0 <? _); by eexists. }
  cbn [zip zip_with reference]. rewrite E. simpl. f_equal. apply IH. by injection Hl.
Qed.
End theorems.
(** The server's strategies lower the TTL only for a receiver, and only a sender probes random
    ports: so no goroutine lowers the TTL of a socket that answers, and the answer leaves
    with the TTL the socket was left with. *)
Theorem low_ttl_never_answers now an an' s s' cm v c m : a_reachable an → analysis now an s cm = Ok (v, c, s', an') → m = v ∨ m = c →
  (is_sender m = true → db_TTL (nr_DetectBehavior m) = 0) ∧
  (is_sender m = false → db_SendRandomPorts (nr_DetectBehavior m) = 0).
Proof.
  intros Han Ha Hm.
  apply analysis_Ok in Ha as (cNat & vNat & mode & index & cB & vB & _ & _ & Hg & _ & _ & _ & _ &
    tv & pc & c1 & c2 & Hv & pv & v1 & v2 & Hc & _).
  destruct (GetRecommand_spec _ _ _ _ _ _ _ _ _ _ (a_reachable_ok _ Han) Hg) as (_ & _ & _ & _ & _ & _ & Hor & _ & Hmode & Hi).
  assert (Htab : ∀ b, b = (getBehaviorByModeAndIndex mode index).1 ∨ b = (getBehaviorByModeAndIndex mode index).2 →
    if bool_decide (rb_Role b = DetectRoleSender) then rb_TTL b = 0 else rb_PortsRandomNumber b = 0).
  { unfold getBehaviorByModeAndIndex. destruct (Z.leb_spec (Z.of_nat (length (getBehaviorByMode mode))) index); [lia|].
    destruct (lookup_lt_is_Some_2 (getBehaviorByMode mode) (Z.to_nat index) ltac:(lia)) as [p Hp]. rewrite Hp. simpl.
    apply list_elem_of_lookup_2 in Hp.
    assert (Hall : Forall (λ p : RecommandBehavior * RecommandBehavior, ∀ b, b = p.1 ∨ b = p.2 →
      if bool_decide (rb_Role b = DetectRoleSender) then rb_TTL b = 0 else rb_PortsRandomNumber b = 0) (getBehaviorByMode mode)).
    { assert (mode = 0 ∨ mode = 1 ∨ mode = 2 ∨ mode = 3 ∨ mode = 4) as [->|[->|[->|[->| ->]]]] by lia;
        unfold getBehaviorByMode; repeat constructor; simpl; intros b [->| ->]; reflexivity. }
    rewrite Forall_forall in Hall. by apply Hall. }
  assert (Hb : ∀ b, b = cB ∨ b = vB → if bool_decide (rb_Role b = DetectRoleSender) then rb_TTL b = 0 else rb_PortsRandomNumber b = 0).
  { intros b Hb. apply Htab. unfold orient in Hor. repeat case_match; simplify_eq/=; destruct (getBehaviorByModeAndIndex mode index); simplify_eq/=; tauto. }
  unfold newNatHoleResponse in Hv, Hc. simplify_eq. unfold is_sender.
  destruct Hm as [->| ->]; simpl; [specialize (Hb vB (or_intror eq_refl))|specialize (Hb cB (or_introl eq_refl))]; case_bool_decide; done.
Qed.


(** ** Witness *)
(** A receiver with a TTL of seven and two addresses, the second of which does not resolve; it
    probes two random ports, as no strategy of the server asks a receiver to. *)
Definition demo_resp : NatHoleResp :=
  mkNatHoleResp "t" "s1" "quic" ["1.2.3.4:5000"; "host:5000"] []
    (mkNatHoleDetectBehavior DetectRoleReceiver 0 7 0 5000 [] 2 0) "".
Definition demo_resolve (a : string) : result string := if decide (a = "host:5000") then Err "no such host" else Ok a.
Definition demo_send : send_env := mkSend demo_resolve 0 "" None None None None.
Definition demo_out : outgoing := mkOutgoing ∅ [].
(** The probe that comes in is answered while the first random probe has the TTL lowered. *)
Definition demo_acts : list act :=
  [ARound 0; APrepare 0 demo_send; ARead 0 [Byte.x01] "A"; AWrite 0; ARestore 0; ACancel 0].
Definition demo_receiver_net : network := mkNetwork demo_owner (λ e _, e = ReceiverEnd 0).
Definition demo_rnd (c : nat) : list Z := [1; 2].
Definition demo_sends : sends := @MakeHole_sends demo_codec demo_resp "t" [] [] [demo_send; demo_send] demo_rnd (λ _, None) demo_acts demo_out.

Example demo_log : so_log (sn_out demo_sends) =
  [mkDatagram 0 "1.2.3.4:5000" 7 [Byte.x01] false; mkDatagram 0 "A" 7 [Byte.x02] true; mkDatagram 0 "1.2.3.4:1025" 7 [Byte.x01] false].
Proof. vm_compute. reflexivity. Qed.
Lemma hole_sends_datagrams_witness :
  (∃ ds, so_log (sn_out demo_sends) = mkDatagram 0 "1.2.3.4:5000" 7 [Byte.x01] false :: ds
    ∧ (λ d, (dg_bytes d, dg_raddr d)) <$> answers_of 0 ds = [([Byte.x02], "A")]
    ∧ tried_on 0 (sn_tried demo_sends) `prefix_of` ["1.2.3.4:1025"; "host:1025"; "1.2.3.4:1026"; "host:1026"]
    ∧ ∀ d, d ∈ probes_of ds → @hstep demo_codec demo_receiver_net (hole_start "s1" [] 1) (to_net [packet_of demo_resp d] (hole_start "s1" [] 1))).
Proof.
  destruct (@hole_sends_datagrams demo_codec demo_resp "t" [] [] [demo_send; demo_send] demo_rnd (λ _, None) demo_acts demo_out)
    as (H1 & _ & ds & H3 & _ & _ & Hc & Hn).
  exists ds. split.
  - etransitivity; [exact H3|]. rewrite H1. vm_compute. reflexivity.
  - destruct (Hc 0%nat) as (g & _ & Hp & _ & Ha & _); [vm_compute; lia|]. split; [rewrite Ha; vm_compute; reflexivity|].
    split; [exact Hp|]. intros d Hd. apply (Hn demo_receiver_net eq_refl); [|apply elem_of_app; by right|reflexivity|reflexivity].
    intros c addr x Hx. assert (E : zip (probes (listen_conns demo_resp []) demo_resp) [demo_send; demo_send] ++ sn_tried demo_sends
      = [(0%nat, "1.2.3.4:5000", demo_send); (0%nat, "host:5000", demo_send); (0%nat, "1.2.3.4:1025", demo_send)]) by (vm_compute; reflexivity).
    unfold demo_sends in E. rewrite E in Hx. rewrite !elem_of_cons in Hx. destruct Hx as [[= -> -> ->]|[[= -> -> ->]|[[= -> -> ->]|[]%not_elem_of_nil]]]; done.
Defined.
(** When putting the TTL back fails, which is ignored, the socket that becomes the tunnel keeps
    the low one. *)
Example low_ttl_stays :
  let x := mkSend demo_resolve 0 "" None None (Some "sendto: operation not permitted") None in
  ttl_of 0 (@hole_sends demo_codec demo_resp "t" [] [] [x; x] demo_out) = 7.
Proof. reflexivity. Qed.
