(* ===== verification/HelloJson.v ===== *)
(** * The hellos as JSON: [pkg/proto/wire/wire.go]

    The struct tags of the two hellos, and [encoding/json]'s base64 for [[]byte].  They are the
    codec ([Wire.JSON]) that the handshake's definitions take as a parameter, so what
    [ServerConn] asks of it holds of the real one. *)
From S2P Require Import Prelude GoStd Json JsonCodec Msg ConfigV1 Wire MsgV2 MsgJson Auth ClientDial ServerConn.
From stdpp Require Import gmap list.
Local Open Scope Z_scope.

(** ** [base64.StdEncoding] *)
Definition enc6 (z : Z) : byte :=
  byte_of_Z (if z <? 26 then 65 + z else if z <? 52 then 71 + z else if z <? 62 then z - 4 else if z =? 62 then 43 else 47).
Definition dec6 (b : byte) : option Z :=
  let c := Z_of_byte b in
  if (65 <=? c) && (c <=? 90) then Some (c - 65)
  else if (97 <=? c) && (c <=? 122) then Some (c - 71)
  else if (48 <=? c) && (c <=? 57) then Some (c + 4)
  else if c =? 43 then Some 62 else if c =? 47 then Some 63 else None.
Definition pad : byte := "="%byte.
Fixpoint b64_encode (l : list byte) : list byte :=
  match l with
  | a :: b :: c :: l =>
      let '(x, y, z) := (Z_of_byte a, Z_of_byte b, Z_of_byte c) in
      enc6 (x / 4) :: enc6 (x mod 4 * 16 + y / 16) :: enc6 (y mod 16 * 4 + z / 64) :: enc6 (z mod 64) :: b64_encode l
  | [a; b] =>
      let '(x, y) := (Z_of_byte a, Z_of_byte b) in
      [enc6 (x / 4); enc6 (x mod 4 * 16 + y / 16); enc6 (y mod 16 * 4); pad]
  | [a] => let x := Z_of_byte a in [enc6 (x / 4); enc6 (x mod 4 * 16); pad; pad]
  | [] => []
  end.
Definition is_newline (b : byte) : bool := bool_decide (b = x0a ∨ b = x0d).
Fixpoint skip_newlines (l : list byte) (si : Z) : list byte * Z :=
  match l with
  | b :: r => if is_newline b then skip_newlines r (si + 1) else (l, si)
  | [] => (l, si)
  end.
(** After the padding: nothing but newlines. *)
Definition b64_finish (l : list byte) (si : Z) (out : list byte) : list byte + Z :=
  match skip_newlines l si with ([], _) => inl out | (_, si) => inr si end.
Definition byte1 (x y : Z) : byte := byte_of_Z (x * 4 + y / 16).
Definition byte2 (y z : Z) : byte := byte_of_Z (y mod 16 * 16 + z / 4).
Definition byte3 (z w : Z) : byte := byte_of_Z (z mod 4 * 64 + w).
(** [Decode] from position [si] with the digits [acc] of the current quantum; an error has the
    position of the input byte. *)
Fixpoint b64_decode (si : Z) (acc : list Z) (l : list byte) : list byte + Z :=
  match l with
  | [] => match acc with [] => inl [] | _ => inr (si - Z.of_nat (length acc)) end
  | b :: l =>
      match dec6 b with
      | Some w =>
          match acc with
          | [x; y; z] =>
              match b64_decode (si + 1) [] l with
              | inl out => inl (byte1 x y :: byte2 y z :: byte3 z w :: out)
              | inr e => inr e
              end
          | _ => b64_decode (si + 1) (acc ++ [w]) l
          end
      | None =>
          if is_newline b then b64_decode (si + 1) acc l
          else if bool_decide (b ≠ pad) then inr si
          else match acc with
               | [x; y] =>
                   match skip_newlines l (si + 1) with
                   | ([], si) => inr si
                   | (b :: l, si) => if bool_decide (b ≠ pad) then inr (si - 1) else b64_finish l (si + 1) [byte1 x y]
                   end
               | [x; y; z] => b64_finish l (si + 1) [byte1 x y; byte2 y z]
               | _ => inr si
               end
      end
  end.

Ltac zbool := repeat match goal with
  | |- context [?a <? ?b] => destruct (Z.ltb_spec a b); try lia
  | |- context [?a <=? ?b] => destruct (Z.leb_spec a b); try lia
  | |- context [?a =? ?b] => destruct (Z.eqb_spec a b); try lia
  end.
Lemma enc6_code z : 0 ≤ z < 64 → ∃ c, Z_of_byte (enc6 z) = c ∧ 43 ≤ c ≤ 122 ∧ dec6 (enc6 z) = Some z.
Proof.
  intros Hz. eexists. split; [reflexivity|]. unfold dec6, enc6. rewrite Z_of_byte_of_Z, Z.mod_small by (zbool).
  zbool; simpl; split; try lia; f_equal; lia.
Qed.
Lemma dec6_enc6 z : 0 ≤ z < 64 → dec6 (enc6 z) = Some z.
Proof. intros Hz. by destruct (enc6_code z Hz) as (c & _ & _ & H). Qed.
(** *** What is encoded is decoded *)
Lemma b64_three a b c : let '(x, y, z) := (Z_of_byte a, Z_of_byte b, Z_of_byte c) in
  byte1 (x / 4) (x mod 4 * 16 + y / 16) = a ∧ byte2 (x mod 4 * 16 + y / 16) (y mod 16 * 4 + z / 64) = b ∧
  byte3 (y mod 16 * 4 + z / 64) (z mod 64) = c.
Proof.
  pose proof (Z_of_byte_range a). pose proof (Z_of_byte_range b). pose proof (Z_of_byte_range c).
  unfold byte1, byte2, byte3. split_and!; (etrans; [|apply byte_of_Z_of_byte]); f_equal; Z.to_euclidean_division_equations; lia.
Qed.
Lemma digit_bounds a b c : let '(x, y, z) := (Z_of_byte a, Z_of_byte b, Z_of_byte c) in
  0 ≤ x / 4 < 64 ∧ 0 ≤ x mod 4 * 16 + y / 16 < 64 ∧ 0 ≤ y mod 16 * 4 + z / 64 < 64 ∧ 0 ≤ z mod 64 < 64.
Proof.
  pose proof (Z_of_byte_range a). pose proof (Z_of_byte_range b). pose proof (Z_of_byte_range c).
  split_and!; Z.to_euclidean_division_equations; lia.
Qed.
Lemma list_ind3 {A} (P : list A → Prop) : P [] → (∀ a, P [a]) → (∀ a b, P [a; b]) →
  (∀ a b c l, P l → P (a :: b :: c :: l)) → ∀ l, P l.
Proof.
  intros H0 H1 H2 H3. assert (∀ l, P l ∧ (∀ a, P (a :: l)) ∧ (∀ a b, P (a :: b :: l))) as H; [|intros l; apply H].
  induction l as [|c l (IH1 & IH2 & IH3)]; [done|]. split_and!; auto.
Qed.
(** One digit of a quantum. *)
Lemma decode_digit z si acc l : 0 ≤ z < 64 → (length acc < 3)%nat → b64_decode si acc (enc6 z :: l) = b64_decode (si + 1) (acc ++ [z]) l.
Proof. intros Hz Ha. cbn [b64_decode]. rewrite dec6_enc6 by done. by destruct acc as [|? [|? [|? [|]]]]; simpl in *; [..|lia|lia]. Qed.
Lemma decode_last x y z w si l : 0 ≤ w < 64 → b64_decode si [x; y; z] (enc6 w :: l) =
  match b64_decode (si + 1) [] l with inl out => inl (byte1 x y :: byte2 y z :: byte3 z w :: out) | inr e => inr e end.
Proof. intros Hw. cbn [b64_decode]. by rewrite dec6_enc6. Qed.
Theorem b64_roundtrip l : b64_decode 0 [] (b64_encode l) = inl l.
Proof.
  generalize 0 as si. induction l as [|a|a b|a b c l IH] using list_ind3; intros si; [done|..].
  - pose proof (digit_bounds a x00 x00) as (H1 & H2 & _). pose proof (b64_three a x00 x00) as (E1 & _). cbn in H2, E1. rewrite Z.add_0_r in H2, E1.
    cbn [b64_encode]. rewrite !decode_digit by (done || simpl; lia). cbn -[byte1]. by rewrite E1.
  - pose proof (digit_bounds a b x00) as (H1 & H2 & H3 & _). pose proof (b64_three a b x00) as (E1 & E2 & _). cbn in H3, E2. rewrite Z.add_0_r in H3, E2.
    cbn [b64_encode]. rewrite !decode_digit by (done || simpl; lia). cbn -[byte1 byte2]. by rewrite E1, E2.
  - pose proof (digit_bounds a b c) as (H1 & H2 & H3 & H4). pose proof (b64_three a b c) as (E1 & E2 & E3).
    cbn [b64_encode]. rewrite !decode_digit by (done || simpl; lia). cbn [app]. rewrite decode_last by done. rewrite IH. congruence.
Qed.
Lemma b64_ascii l : Forall (λ b, Z_of_byte b < 128) (b64_encode l).
Proof.
  assert (He : ∀ z, 0 ≤ z < 64 → Z_of_byte (enc6 z) < 128) by (intros z Hz; destruct (enc6_code z Hz) as (c & -> & ? & _); lia).
  induction l as [|a|a b|a b c l IH] using list_ind3; cbn [b64_encode].
  - constructor.
  - pose proof (digit_bounds a x00 x00) as (H1 & H2 & _). cbn in H2. rewrite Z.add_0_r in H2. repeat constructor; auto; by cbn.
  - pose proof (digit_bounds a b x00) as (H1 & H2 & H3 & _). cbn in H3. rewrite Z.add_0_r in H3. repeat constructor; auto; by cbn.
  - pose proof (digit_bounds a b c) as (H1 & H2 & H3 & H4). repeat constructor; auto.
Qed.
Lemma b64_valid l : ValidString (string_of (b64_encode l)) = true.
Proof. apply utf8_valid. generalize (b64_ascii l). induction 1; [constructor|by apply utf8_byte]. Qed.

(** *** [[]byte] *)
Definition c_uint8 : codec Z := {|
  c_type := "uint8"; c_zero := 0;
  c_dec _ j old := match j with
                   | JNum lit =>
                       match parse_uint (string_of lit) with
                       | inl z => if z <? 256 then (z, [])
                                  else (old, [JTypeError ("number " +:+ string_of lit) "" [] "uint8"])
                       | inr _ => (old, [JTypeError ("number " +:+ string_of lit) "" [] "uint8"])
                       end
                   | JNull => (old, []) | _ => (old, [type_error j "uint8"])
                   end;
  c_enc z := JNum (bytes_of (Itoa z)); c_empty z := bool_decide (z = 0); c_ok z := 0 ≤ z < 256;
  c_depth := 0 |}.
(** A text is base64, an array is stored element by element; nil and empty are one value. *)
Definition c_bytes : codec (list byte) := {|
  c_type := "[]uint8"; c_zero := [];
  c_dec strict j old :=
    match j with
    | JNull => ([], [])
    | JStr s => match b64_decode 0 [] (bytes_of s) with
                | inl l => (l, [])
                | inr n => (old, [JOther ("illegal base64 data at input byte " +:+ Itoa n)])
                end
    | JArr js => let '(l, es) := slice_dec c_uint8 strict js (Z_of_byte <$> old) in (byte_of_Z <$> l, es)
    | _ => (old, [type_error j "[]uint8"])
    end;
  c_enc l := JStr (string_of (b64_encode l)); c_empty l := bool_decide (length l = 0%nat); c_ok _ := True; c_depth := 0 |}.
#[export] Instance c_bytes_lawful : Lawful c_bytes.
Proof.
  split; [done|done|done| | |].
  - intros strict x old _ _. simpl. by rewrite bytes_of_string_of, b64_roundtrip.
  - intros x _. simpl. apply b64_valid.
  - by intros [] ?%bool_decide_eq_true.
Qed.
#[export] Instance c_bytes_notnull : NotNull c_bytes.
Proof. done. Qed.
Example b64_vectors : (string_of ∘ b64_encode ∘ bytes_of) <$> [""; "f"; "fo"; "foo"; "foob"; "fooba"; "foobar"] =
  [""; "Zg=="; "Zm8="; "Zm9v"; "Zm9vYg=="; "Zm9vYmE="; "Zm9vYmFy"].
Proof. vm_compute. reflexivity. Qed.
Example b64_errors : (b64_decode 0 [] ∘ bytes_of) <$> ["Zg"; "Zg="; "Z!=="; "Zg==x"; "Z"] =
  [inr 0; inr 3; inr 1; inr 4; inr 0].
Proof. vm_compute. reflexivity. Qed.

(** ** The structs *)
Definition zero_BootstrapInfo : BootstrapInfo := mkBootstrap "" false false.
Definition fields_BootstrapInfo : list (field BootstrapInfo) :=
  [mkField "transport" [] (c_string "string") true bi_Transport (λ x r, mkBootstrap x (bi_TLS r) (bi_TCPMux r));
   mkField "tls" [] c_bool true bi_TLS (λ x r, mkBootstrap (bi_Transport r) x (bi_TCPMux r));
   mkField "tcpMux" [] c_bool true bi_TCPMux (λ x r, mkBootstrap (bi_Transport r) (bi_TLS r) x)].
Definition c_BootstrapInfo : codec BootstrapInfo := c_struct "wire" "BootstrapInfo" zero_BootstrapInfo fields_BootstrapInfo.
#[export] Instance BootstrapInfo_laws : StructLaws zero_BootstrapInfo fields_BootstrapInfo.
Proof.
  struct_laws.
  - intros [] []. repeat split.
  - repeat constructor; by intros [].
Qed.
Definition zero_MessageCapabilities : MessageCapabilities := mkMessageCap [] [].
Definition fields_MessageCapabilities : list (field MessageCapabilities) :=
  [mkField "codecs" [] (c_slice "[]string" (c_string "string")) true mc_Codecs (λ x r, mkMessageCap x (mc_UDPPacketCodecs r));
   mkField "udpPacketCodecs" [] (c_slice "[]string" (c_string "string")) true mc_UDPPacketCodecs (λ x r, mkMessageCap (mc_Codecs r) x)].
Definition c_MessageCapabilities : codec MessageCapabilities :=
  c_struct "wire" "MessageCapabilities" zero_MessageCapabilities fields_MessageCapabilities.
#[export] Instance MessageCapabilities_laws : StructLaws zero_MessageCapabilities fields_MessageCapabilities.
Proof.
  struct_laws.
  - intros [] []. repeat split.
  - repeat constructor; by intros [].
Qed.
Definition zero_CryptoCapabilities : CryptoCapabilities := mkCryptoCap [] [].
Definition fields_CryptoCapabilities : list (field CryptoCapabilities) :=
  [mkField "algorithms" [] (c_slice "[]string" (c_string "string")) true cc_Algorithms (λ x r, mkCryptoCap x (cc_ClientRandom r));
   mkField "clientRandom" [] c_bytes true cc_ClientRandom (λ x r, mkCryptoCap (cc_Algorithms r) x)].
Definition c_CryptoCapabilities : codec CryptoCapabilities :=
  c_struct "wire" "CryptoCapabilities" zero_CryptoCapabilities fields_CryptoCapabilities.
#[export] Instance CryptoCapabilities_laws : StructLaws zero_CryptoCapabilities fields_CryptoCapabilities.
Proof.
  struct_laws.
  - intros [] []. repeat split.
  - repeat constructor; by intros [].
Qed.
(** [ClientCapabilities] is a struct of its own in the source. *)
Definition zero_ClientCapabilities : MessageCapabilities * CryptoCapabilities := (zero_MessageCapabilities, zero_CryptoCapabilities).
Definition fields_ClientCapabilities : list (field (MessageCapabilities * CryptoCapabilities)) :=
  [mkField "message" [] c_MessageCapabilities true fst (λ x r, (x, r.2));
   mkField "crypto" [] c_CryptoCapabilities true snd (λ x r, (r.1, x))].
Definition c_ClientCapabilities : codec (MessageCapabilities * CryptoCapabilities) :=
  c_struct "wire" "ClientCapabilities" zero_ClientCapabilities fields_ClientCapabilities.
#[export] Instance ClientCapabilities_laws : StructLaws zero_ClientCapabilities fields_ClientCapabilities.
Proof.
  struct_laws.
  - intros [] []. repeat split.
  - repeat constructor; by intros [].
Qed.
Definition zero_ClientHello : ClientHello := mkClientHello zero_BootstrapInfo zero_MessageCapabilities zero_CryptoCapabilities.
Definition fields_ClientHello : list (field ClientHello) :=
  [mkField "bootstrap" [] c_BootstrapInfo true ch_Bootstrap (λ x r, mkClientHello x (ch_Message r) (ch_Crypto r));
   mkField "capabilities" [] c_ClientCapabilities true (λ r, (ch_Message r, ch_Crypto r))
     (λ x r, mkClientHello (ch_Bootstrap r) x.1 x.2)].
Definition c_ClientHello : codec ClientHello := c_struct "wire" "ClientHello" zero_ClientHello fields_ClientHello.
#[export] Instance ClientHello_laws : StructLaws zero_ClientHello fields_ClientHello.
Proof.
  struct_laws.
  - intros [] []. repeat split.
  - repeat constructor; by intros [].
  - by intros [] r.
Qed.

Definition zero_MessageSelection : MessageSelection := mkMessageSel "" "".
Definition fields_MessageSelection : list (field MessageSelection) :=
  [mkField "codec" [] (c_string "string") true ms_Codec (λ x r, mkMessageSel x (ms_UDPPacketCodec r));
   mkField "udpPacketCodec" [] (c_string "string") true ms_UDPPacketCodec (λ x r, mkMessageSel (ms_Codec r) x)].
Definition c_MessageSelection : codec MessageSelection := c_struct "wire" "MessageSelection" zero_MessageSelection fields_MessageSelection.
#[export] Instance MessageSelection_laws : StructLaws zero_MessageSelection fields_MessageSelection.
Proof.
  struct_laws.
  - intros [] []. repeat split.
  - repeat constructor; by intros [].
Qed.
Definition zero_CryptoSelection : CryptoSelection := mkCryptoSel "" [].
Definition fields_CryptoSelection : list (field CryptoSelection) :=
  [mkField "algorithm" [] (c_string "string") true cs_Algorithm (λ x r, mkCryptoSel x (cs_ServerRandom r));
   mkField "serverRandom" [] c_bytes true cs_ServerRandom (λ x r, mkCryptoSel (cs_Algorithm r) x)].
Definition c_CryptoSelection : codec CryptoSelection := c_struct "wire" "CryptoSelection" zero_CryptoSelection fields_CryptoSelection.
#[export] Instance CryptoSelection_laws : StructLaws zero_CryptoSelection fields_CryptoSelection.
Proof.
  struct_laws.
  - intros [] []. repeat split.
  - repeat constructor; by intros [].
Qed.
(** [ServerSelection] is a struct of its own in the source. *)
Definition zero_ServerSelection : MessageSelection * CryptoSelection := (zero_MessageSelection, zero_CryptoSelection).
Definition fields_ServerSelection : list (field (MessageSelection * CryptoSelection)) :=
  [mkField "message" [] c_MessageSelection true fst (λ x r, (x, r.2));
   mkField "crypto" [] c_CryptoSelection true snd (λ x r, (r.1, x))].
Definition c_ServerSelection : codec (MessageSelection * CryptoSelection) :=
  c_struct "wire" "ServerSelection" zero_ServerSelection fields_ServerSelection.
#[export] Instance ServerSelection_laws : StructLaws zero_ServerSelection fields_ServerSelection.
Proof.
  struct_laws.
  - intros [] []. repeat split.
  - repeat constructor; by intros [].
Qed.
Definition zero_ServerHello : ServerHello := mkServerHello zero_MessageSelection zero_CryptoSelection "".
Definition fields_ServerHello : list (field ServerHello) :=
  [mkField "selected" [] c_ServerSelection true (λ r, (sh_Message r, sh_Crypto r)) (λ x r, mkServerHello x.1 x.2 (sh_Error r));
   mkField "error" [] (c_string "string") true sh_Error (λ x r, mkServerHello (sh_Message r) (sh_Crypto r) x)].
Definition c_ServerHello : codec ServerHello := c_struct "wire" "ServerHello" zero_ServerHello fields_ServerHello.
#[export] Instance ServerHello_laws : StructLaws zero_ServerHello fields_ServerHello.
Proof.
  struct_laws.
  - intros [] []. repeat split.
  - repeat constructor; by intros [].
  - by intros [] r.
Qed.

(** ** The codec of the handshake *)
Section hello_json.
Context `{MsgTexts}.
Definition unmarshal {T} (c : codec T) (p : list byte) : result T :=
  match json_Unmarshal c p (c_zero c) with inl x => Ok x | inr e => Err (json_error_text syntax_text p e) end.
#[export] Instance hello_json : JSON := {|
  MarshalClientHello h := Ok (json_Marshal c_ClientHello h);
  MarshalServerHello h := Ok (json_Marshal c_ServerHello h);
  UnmarshalClientHello := unmarshal c_ClientHello;
  UnmarshalServerHello := unmarshal c_ServerHello |}.
Lemma unmarshal_marshal {T} (c : codec T) `{!Lawful c} x : c_ok c x → c_depth c ≤ maxNestingDepth →
  unmarshal c (json_Marshal c x) = Ok x.
Proof. intros Hx Hd. unfold unmarshal. by rewrite (proj1 (json_roundtrip c x Hx Hd)). Qed.
Lemma client_hello_ok fast b rc : c_ok c_BootstrapInfo b → c_ok c_ClientHello (clientHelloWithCryptoRandom fast b rc).
Proof.
  intros Hb. unfold clientHelloWithCryptoRandom. apply Forall_cons; split; [exact Hb|]. apply Forall_singleton.
  apply Forall_cons; split; [|apply Forall_singleton]; destruct fast; repeat constructor.
Qed.
Lemma server_hello_ok fast rs : c_ok c_ServerHello (server_hello fast rs).
Proof. destruct fast; repeat constructor. Qed.
End hello_json.

(** *** Frames of JSON *)
Section frames.
Context `{MsgTexts}.
Definition NewJSONFrame {T} (c : codec T) (frameType : Z) (x : T) : Frame := mkFrame frameType 0 (json_Marshal c x).
Definition WriteJSONFrame {T} (c : codec T) (frameType : Z) (x : T) : result (list byte) :=
  WriteFrame DefaultMaxFramePayloadSize (NewJSONFrame c frameType x).
Definition UnmarshalFrame {T} (c : codec T) (f : Frame) : result T := unmarshal c (f_Payload f).
Definition ReadJSONFrame {T} (c : codec T) (frameType : Z) (s : list byte) : result (T * list byte) :=
  ReadFrame DefaultMaxFramePayloadSize s ≫= λ '(f, s),
  if decide (f_Type f ≠ frameType) then Err ("unexpected frame type " +:+ Itoa (f_Type f) +:+ ", want " +:+ Itoa frameType)
  else UnmarshalFrame c f ≫= λ x, Ok (x, s).
(** A value sent in a frame is received from it; a reader that waits for another type refuses. *)
Theorem json_frame_roundtrip {T} (c : codec T) `{!Lawful c} frameType other x bs rest :
  c_ok c x → c_depth c ≤ maxNestingDepth → 0 ≤ frameType < 65536 → WriteJSONFrame c frameType x = Ok bs →
  ReadJSONFrame c frameType (bs ++ rest) = Ok (x, rest) ∧
  (other ≠ frameType → ReadJSONFrame c other (bs ++ rest) =
     Err ("unexpected frame type " +:+ Itoa frameType +:+ ", want " +:+ Itoa other)).
Proof.
  intros Hx Hd Ht Hw. unfold ReadJSONFrame.
  rewrite (read_written_frame _ (NewJSONFrame c frameType x) bs) by (done || simpl; lia). cbn [mbind result_bind]. split.
  - rewrite decide_False by (intros Hn; by apply Hn). unfold UnmarshalFrame. simpl. by rewrite unmarshal_marshal.
  - intros Ho. by rewrite decide_True.
Qed.
End frames.

(** *** The size of the server's hello *)
Lemma b64_length l : (length (b64_encode l) ≤ 4 + 2 * length l)%nat.
Proof. induction l as [|a|a b|a b c l IH] using list_ind3; cbn [b64_encode length]; lia. Qed.
Lemma quote_loop_ascii fuel l : Forall (λ b, Z_of_byte b < 128) l → (length (quote_loop fuel l) ≤ 6 * length l)%nat.
Proof.
  intros Hl. revert fuel. induction Hl as [|b l Hb Hl IH]; intros [|fuel]; cbn [quote_loop length]; try lia.
  rewrite (proj2 (Z.ltb_lt _ _) Hb), length_app. specialize (IH fuel).
  assert (length (quote_byte b) ≤ 6)%nat by (destruct b; vm_compute; lia). lia.
Qed.
(** The text of the server's hello around the random bytes. *)
Lemma server_hello_text fast rs : length rs = CryptoRandomSize →
  json_Marshal c_ServerHello (server_hello fast rs) =
    bytes_of ("{" +:+ squoted "selected" +:+ ":{" +:+ squoted "message" +:+ ":{" +:+ squoted "codec" +:+ ":" +:+ squoted "json"
      +:+ "," +:+ squoted "udpPacketCodec" +:+ ":" +:+ squoted "binary-v1" +:+ "}," +:+ squoted "crypto" +:+ ":{"
      +:+ squoted "algorithm" +:+ ":" +:+ squoted (if fast then AEADAlgorithmAES256GCM else AEADAlgorithmXChaCha20Poly1305)
      +:+ "," +:+ squoted "serverRandom" +:+ ":") ++ quote (string_of (b64_encode rs)) ++ bytes_of "}}}".
Proof.
  intros Hrs. unfold json_Marshal.
  assert (c_enc c_ServerHello (server_hello fast rs) = JObj [("selected", JObj [
    ("message", JObj [("codec", JStr "json"); ("udpPacketCodec", JStr "binary-v1")]);
    ("crypto", JObj [("algorithm", JStr (if fast then AEADAlgorithmAES256GCM else AEADAlgorithmXChaCha20Poly1305));
                     ("serverRandom", JStr (string_of (b64_encode rs)))])])]) as ->.
  { destruct rs as [|r rs]; [done|]. by destruct fast. }
  generalize (string_of (b64_encode rs)). intros t. cbn [print List.map fst snd commas]. generalize (quote t). clear. intros q.
  destruct fast; cbn -[app]; rewrite <- !(assoc_L (++)); cbn; by rewrite <- !(assoc_L (++)).
Qed.
Lemma server_hello_fits fast rs : length rs = CryptoRandomSize →
  Z.of_nat (length (json_Marshal c_ServerHello (server_hello fast rs))) ≤ DefaultMaxFramePayloadSize.
Proof.
  intros Hrs. rewrite server_hello_text by done. rewrite !length_app. unfold quote. rewrite bytes_of_string_of. cbn [length]. rewrite length_app.
  pose proof (quote_loop_ascii (length (b64_encode rs)) _ (b64_ascii rs)). pose proof (b64_length rs). rewrite Hrs in *. unfold CryptoRandomSize in *.
  assert (length (bytes_of ("{" +:+ squoted "selected" +:+ ":{" +:+ squoted "message" +:+ ":{" +:+ squoted "codec" +:+ ":" +:+ squoted "json"
      +:+ "," +:+ squoted "udpPacketCodec" +:+ ":" +:+ squoted "binary-v1" +:+ "}," +:+ squoted "crypto" +:+ ":{"
      +:+ squoted "algorithm" +:+ ":" +:+ squoted (if fast then AEADAlgorithmAES256GCM else AEADAlgorithmXChaCha20Poly1305)
      +:+ "," +:+ squoted "serverRandom" +:+ ":")) ≤ 200)%nat by (destruct fast; vm_compute; lia).
  cbn [length]. change (length (bytes_of "}}}")) with 3%nat. unfold DefaultMaxFramePayloadSize. lia.
Qed.

(** ** What is shown *)
(** The two ends of a login agree on its JSON: for a login whose texts are valid UTF-8, the
    hellos with their random bytes in base64, the login, and the response with any valid run
    id read back as they were written, and the server's hello fits a frame.  It is what
    [ServerConn] relies on when it shows that the ends of a login meet. *)
Theorem hello_json_ok `{MsgTextsLaws} fast b rc rs (m : Login) version :
  ValidString (bi_Transport b) = true → length rs = CryptoRandomSize → msg_ok (MLogin m) → ValidString version = true →
  json_ok (clientHelloWithCryptoRandom fast b rc) (server_hello fast rs) m (λ run, mkLoginResp version run "")
    (json_Marshal c_ServerHello (server_hello fast rs)).
Proof.
  intros Hb Hrs Hm Hv. split.
  - intros p [= <-]. apply (unmarshal_marshal c_ClientHello); [by apply client_hello_ok; repeat constructor|by vm_compute].
  - split_and!; [done|by apply server_hello_fits|].
    apply (unmarshal_marshal c_ServerHello); [apply server_hello_ok|by vm_compute].
  - intros p Hp. injection Hp as <-. by apply (msg_json_roundtrip (MLogin m)).
  - intros run p Hr Hp. assert (print (msg_value (MLoginResp (mkLoginResp version run ""))) = p) as <- by (by injection Hp).
    apply (msg_json_roundtrip (MLoginResp (mkLoginResp version run ""))). repeat constructor; [exact Hv|exact Hr].
Qed.

(** ** Witness *)
Lemma hello_json_ok_witness :
  let h := clientHelloWithCryptoRandom false (mkBootstrap "tcp" true true) (replicate 32 x07) in
  let q := json_Marshal c_ServerHello (server_hello false (replicate 32 x09)) in
  @UnmarshalClientHello (@hello_json demo_texts) (json_Marshal c_ClientHello h) = Ok h
  ∧ @UnmarshalServerHello (@hello_json demo_texts) q = Ok (server_hello false (replicate 32 x09))
  ∧ @UnmarshalMsg (@msg_json demo_texts) TLogin (print (@msg_value demo_texts (MLogin meet_login))) = Ok (MLogin meet_login).
Proof.
  assert (Hm : @msg_ok demo_texts (MLogin meet_login)).
  { cbn [msg_ok]. repeat (constructor; [cbn; first [apply (bool_decide_unpack _); vm_compute; exact I|repeat constructor]|]). constructor. }
  destruct (@hello_json_ok demo_texts demo_texts_laws false (mkBootstrap "tcp" true true) (replicate 32 x07) (replicate 32 x09)
    meet_login "0.1") as [H1 (_ & _ & H2) H3 _]; [reflexivity|reflexivity|exact Hm|reflexivity|].
  split; [by apply H1|]. split; [exact H2|]. by apply H3.
Defined.
(** The hello of a server without AES instructions. *)
Example server_hello_example : json_Marshal c_ServerHello (server_hello false (replicate 32 x09)) =
  bytes_of ("{" +:+ squoted "selected" +:+ ":{" +:+ squoted "message" +:+ ":{" +:+ squoted "codec" +:+ ":" +:+ squoted "json"
    +:+ "," +:+ squoted "udpPacketCodec" +:+ ":" +:+ squoted "binary-v1" +:+ "}," +:+ squoted "crypto" +:+ ":{"
    +:+ squoted "algorithm" +:+ ":" +:+ squoted "xchacha20-poly1305" +:+ "," +:+ squoted "serverRandom" +:+ ":"
    +:+ squoted "CQkJCQkJCQkJCQkJCQkJCQkJCQkJCQkJCQkJCQkJCQk=" +:+ "}}}").
Proof. vm_compute. reflexivity. Qed.
