(* ===== verification/StoreJson.v ===== *)
(** * The store's file as JSON: [pkg/config/source/store.go], [pkg/util/jsonx]

    [jsonx.MarshalIndent] and the two structs of the store's file.  They are the codec
    ([ConfigSource.StoreCodec]) that the store takes as a parameter, and its laws
    ([StoreLaws]) hold of them: what the store writes, a restart reads. *)
From S2P Require Import Prelude GoStd Json JsonCodec Msg ConfigV1 MsgJson Decode ConfigSource.
From stdpp Require Import gmap list strings.
Local Open Scope Z_scope.

(** ** [json.MarshalIndent] with no prefix and two spaces *)
Definition newline (n : nat) : list byte := x0a :: replicate (2 * n) x20.
(** The elements between the brackets, each on its own line. *)
Fixpoint lines (n : nat) (l : list (list byte)) : list byte :=
  match l with
  | [] => []
  | [x] => newline n ++ x
  | x :: l => newline n ++ x ++ ","%byte :: lines n l
  end.
Fixpoint indent (n : nat) (j : json) : list byte :=
  match j with
  | JArr [] => bytes_of "[]"
  | JArr l => "["%byte :: lines (S n) (List.map (indent (S n)) l) ++ newline n ++ ["]"%byte]
  | JObj [] => bytes_of "{}"
  | JObj l =>
      "{"%byte :: lines (S n) (List.map (λ kv, quote kv.1 ++ ":"%byte :: x20 :: indent (S n) kv.2) l) ++ newline n ++ ["}"%byte]
  | j => print j
  end.

(** *** What is printed so is read back *)
Lemma skip_newline n k : skip_ws (newline n ++ k) = skip_ws k.
Proof.
  unfold newline. cbn [app]. change (skip_ws (x0a :: ?x)) with (skip_ws x). generalize (2 * n)%nat. intros m.
  induction m as [|m IH]; [done|]. cbn [replicate app]. change (skip_ws (x20 :: ?x)) with (skip_ws x). exact IH.
Qed.
Lemma parse_value_ws fuel d k k' : skip_ws k = skip_ws k' → parse_value fuel d k = parse_value fuel d k'.
Proof. intros H. destruct fuel as [|fuel]; [done|]. cbn [parse_value]. by rewrite H. Qed.
Lemma indent_head n j : printable j = true → ∃ b r, indent n j = b :: r ∧ value_head b = true.
Proof.
  intros H. destruct j as [|[]|lit|s|[|]|[|]]; try (by eexists _, _; split). by apply (print_head (JNum lit)).
Qed.
Definition indent_reads (j : json) : Prop := printable j = true → ∀ n d k fuel, nesting j ≤ d → stops k →
  (2 * length (indent n j) < fuel)%nat → parse_value fuel d (indent n j ++ k) = Some (j, k).
Lemma stops_newline n k : stops (newline n ++ k).
Proof. done. Qed.
Lemma indent_elems n l : Forall indent_reads l → l ≠ [] → forallb printable l = true →
  ∀ d k fuel, foldr (λ j n, Z.max (nesting j) n) 0 l ≤ d → (2 * length (lines n (List.map (indent n) l)) + 1 < fuel)%nat →
  parse_elems fuel d (lines n (List.map (indent n) l) ++ newline (pred n) ++ "]"%byte :: k) = Some (l, k).
Proof.
  induction l as [|j l IH]; [done|]. intros [Hj Hl]%Forall_cons _ [Hpj Hpl]%andb_true_iff d k fuel Hd Hf.
  simpl in Hd. destruct fuel as [|fuel]; [lia|]. destruct (indent_head n j Hpj) as (b & r & Hb & _).
  assert (1 ≤ length (indent n j))%nat by (rewrite Hb; simpl; lia). destruct l as [|j' l].
  - cbn [List.map lines] in *. rewrite length_app in Hf. cbn [parse_elems]. rewrite <- (assoc_L (++)).
    rewrite (parse_value_ws _ _ _ (indent n j ++ newline (pred n) ++ "]"%byte :: k)) by (by rewrite skip_newline).
    rewrite Hj by (done || lia). cbn [mbind option_bind]. by rewrite skip_newline.
  - cbn [List.map] in *. change (lines n (?x :: ?y :: ?z)) with (newline n ++ x ++ ","%byte :: lines n (y :: z)) in *.
    rewrite !length_app in Hf. cbn [length] in Hf. cbn [parse_elems]. rewrite <- !(assoc_L (++)). cbn [app].
    rewrite (parse_value_ws _ _ _ (indent n j ++ ","%byte :: lines n (indent n j' :: List.map (indent n) l) ++ newline (pred n) ++ "]"%byte :: k))
      by (by rewrite skip_newline).
    rewrite Hj by (done || lia). cbn [mbind option_bind].
    change (skip_ws (","%byte :: ?x)) with (","%byte :: x). change (Byte.eqb "," ",") with true. cbv iota.
    rewrite IH; [done|done|done|done|lia|lia].
Qed.
Notation member_lines n := (λ kv : string * json, quote kv.1 ++ ":"%byte :: x20 :: indent n kv.2).
Lemma indent_members n l : Forall (λ kv, indent_reads kv.2) l → l ≠ [] →
  forallb (λ kv, ValidString kv.1 && printable kv.2) l = true →
  ∀ d k fuel, foldr (λ kv n, Z.max (nesting kv.2) n) 0 l ≤ d → (2 * length (lines n (List.map (member_lines n) l)) + 1 < fuel)%nat →
  parse_members fuel d (lines n (List.map (member_lines n) l) ++ newline (pred n) ++ "}"%byte :: k) = Some (l, k).
Proof.
  induction l as [|[key j] l IH]; [done|].
  intros [Hj Hl]%Forall_cons _ [[Hk Hpj]%andb_true_iff Hpl]%andb_true_iff d k fuel Hd Hf.
  cbn [fst snd] in *. simpl in Hd. destruct fuel as [|fuel]; [lia|].
  assert (Hkey : ∀ r, parse_string (skip_ws (newline n ++ quote key ++ r)) = Some (key, r)).
  { intros r. rewrite skip_newline. unfold quote at 1. cbn [app]. rewrite skip_ws_head by done. by apply (parse_string_quote key). }
  assert (Hval : ∀ r, stops r → (2 * length (indent n j) < fuel)%nat → parse_value fuel d (x20 :: indent n j ++ r) = Some (j, r)).
  { intros r Hr Hfu. rewrite (parse_value_ws _ _ _ (indent n j ++ r)) by done. apply Hj; first [done|lia]. }
  destruct l as [|kv l].
  - cbn [List.map lines fst snd] in *. rewrite !length_app in Hf. cbn [length] in Hf.
    cbn [parse_members]. rewrite <- !(assoc_L (++)), Hkey. cbn [app mbind option_bind].
    change (skip_ws (":"%byte :: ?x)) with (":"%byte :: x). change (Byte.eqb ":" ":") with true. cbv iota.
    rewrite Hval by (done || lia). cbn [mbind option_bind]. by rewrite skip_newline.
  - cbn [List.map] in *. change (lines n (?x :: ?y :: ?z)) with (newline n ++ x ++ ","%byte :: lines n (y :: z)) in *.
    rewrite !length_app in Hf. cbn [length fst snd] in Hf.
    cbn [parse_members fst snd]. rewrite <- !(assoc_L (++)), Hkey. cbn [app mbind option_bind].
    change (skip_ws (":"%byte :: ?x)) with (":"%byte :: x). change (Byte.eqb ":" ":") with true. cbv iota.
    rewrite Hval by (done || lia). cbn [mbind option_bind app].
    change (skip_ws (","%byte :: ?x)) with (","%byte :: x). change (Byte.eqb "," ",") with true. cbv iota.
    rewrite IH; [done|done|done|done|lia|lia].
Qed.
Lemma lines_head n x l k : lines n (x :: l) ++ k = newline n ++ x ++ (match l with [] => [] | _ => ","%byte :: lines n l end) ++ k.
Proof. destruct l; cbn [lines]; [by rewrite app_nil_l, <- (assoc_L (++))|by rewrite <- !(assoc_L (++))]. Qed.
Lemma indent_parse j : indent_reads j.
Proof.
  induction j as [|b|lit|s|l IH|l IH] using json_full_ind; intros Hp n d k fuel Hd Hk Hf;
    try (by apply parse_value_print); (destruct l as [|x l];
    [destruct fuel as [|fuel]; [lia|]; cbn [nesting foldr] in Hd; cbn [indent parse_value]; cbn -[parse_value parse_elems parse_members];
     rewrite (proj2 (Z.leb_gt _ _)) by lia; done|]); (destruct fuel as [|fuel]; [lia|]).
  - change (indent n (JArr (x :: l))) with ("["%byte :: lines (S n) (List.map (indent (S n)) (x :: l)) ++ newline n ++ ["]"%byte]) in *.
    cbn [app parse_value] in *. rewrite skip_ws_head by done.
    change (Byte.eqb "[" "{") with false. change (Byte.eqb "[" "[") with true. cbv iota.
    cbn [nesting] in Hd. pose proof (foldr_max_nonneg nesting (x :: l)). rewrite (proj2 (Z.leb_gt _ _)) by lia.
    cbn [length] in Hf. rewrite !length_app in Hf. cbn [length] in Hf. rewrite <- !(assoc_L (++)). cbn [app].
    assert (∃ c r, skip_ws (lines (S n) (List.map (indent (S n)) (x :: l)) ++ newline n ++ "]"%byte :: k) = c :: r ∧ Byte.eqb c "]" = false) as (c & r & Hc & He).
    { cbn [printable forallb] in Hp. apply andb_true_iff in Hp as [Hpx _]. destruct (indent_head (S n) x Hpx) as (c & r & Hc & Hh).
      cbn [List.map]. rewrite lines_head, skip_newline, Hc. cbn [app]. rewrite skip_ws_head by done. eexists _, _. split; [done|].
      unfold value_head in Hh. destruct (Byte.eqb c "]"); [|done]. by rewrite orb_true_r in Hh. }
    rewrite Hc, He. rewrite (indent_elems (S n)); [done|done|done|done|lia|lia].
  - change (indent n (JObj (x :: l))) with ("{"%byte :: lines (S n) (List.map (member_lines (S n)) (x :: l)) ++ newline n ++ ["}"%byte]) in *.
    cbn [app parse_value] in *. rewrite skip_ws_head by done. change (Byte.eqb "{" "{") with true. cbv iota.
    cbn [nesting] in Hd. pose proof (foldr_max_nonneg (λ kv : string * json, nesting kv.2) (x :: l)). rewrite (proj2 (Z.leb_gt _ _)) by lia.
    cbn [length] in Hf. rewrite !length_app in Hf. cbn [length] in Hf. rewrite <- !(assoc_L (++)). cbn [app].
    assert (∃ r, skip_ws (lines (S n) (List.map (member_lines (S n)) (x :: l)) ++ newline n ++ "}"%byte :: k) = quote_char :: r) as (r & Hc).
    { cbn [List.map]. rewrite lines_head, skip_newline. unfold quote. cbn [app]. rewrite skip_ws_head by done. by eexists. }
    rewrite Hc. change (Byte.eqb quote_char "}") with false. cbv iota.
    rewrite (indent_members (S n)); [done|done|done|done|lia|lia].
Qed.
Lemma parse_indent j : printable j = true → nesting j ≤ maxNestingDepth → parse_all (indent 0 j) = Some j.
Proof.
  intros Hp Hn. unfold parse_all. rewrite <- (app_nil_r (indent 0 j)) at 2.
  by rewrite (indent_parse j Hp 0%nat _ [] _ Hn) by (done || lia).
Qed.
Example indent_example : indent 0 (JObj [("proxies", JArr [JObj [("name", JStr "a")]; JArr []])]) =
  bytes_of "{" ++ newline 1 ++ bytes_of (squoted "proxies" +:+ ": [") ++ newline 2 ++ bytes_of "{" ++ newline 3 ++
  bytes_of (squoted "name" +:+ ": " +:+ squoted "a") ++ newline 2 ++ bytes_of "}," ++ newline 2 ++ bytes_of "[]" ++
  newline 1 ++ bytes_of "]" ++ newline 0 ++ bytes_of "}".
Proof. vm_compute. reflexivity. Qed.

(** ** The structs *)
(** [rawStoreData]. *)
Record rawStoreData := mkRawStore { rs_Proxies : list RawMessage; rs_Visitors : list RawMessage }.
Definition fields_rawStoreData : list (field rawStoreData) :=
  [mkField "proxies" [] (c_slice "[]jsonx.RawMessage" c_raw) true rs_Proxies (λ x r, mkRawStore x (rs_Visitors r));
   mkField "visitors" [] (c_slice "[]jsonx.RawMessage" c_raw) true rs_Visitors (λ x r, mkRawStore (rs_Proxies r) x)].
Definition zero_rawStoreData : rawStoreData := mkRawStore [] [].
Definition c_rawStoreData : codec rawStoreData := c_struct "source" "rawStoreData" zero_rawStoreData fields_rawStoreData.
#[export] Instance rawStoreData_laws : StructLaws zero_rawStoreData fields_rawStoreData.
Proof.
  struct_laws.
  - intros [] []. repeat split.
  - repeat constructor; by intros [].
Qed.
(** [storeData] as it is printed: its entries print as their configurers. *)
Definition storeData (ps : list ProxyConfigurer) (vs : list VisitorConfigurer) : rawStoreData :=
  mkRawStore (c_enc c_ProxyConfigurer <$> ps) (c_enc c_VisitorConfigurer <$> vs).
(** [err.Error()]. *)
Fixpoint go_error_text (syntax : string) (e : go_error) : string :=
  match e with
  | EText e => e
  | EJson e => json_error_text (λ _, syntax) [] e
  | EFmtV p e | EFmtW p e => p +:+ go_error_text syntax e
  end.
Section codec.
Variable syntax_text : list byte → string.
(** A raw entry stands for its text. *)
Definition decode_raw {C} (decode : json_text → DecodeOptions → C + go_error) (raw : list byte) : result C :=
  match decode (text_of_bytes raw) (mkDecodeOptions false) with
  | inl c => Ok c
  | inr e => Err (go_error_text (syntax_text raw) e)
  end.
Definition store_codec : StoreCodec := {|
  MarshalStore ps vs := Ok (indent 0 (c_enc c_rawStoreData (storeData ps vs)));
  UnmarshalStore data :=
    match json_Unmarshal c_rawStoreData data zero_rawStoreData with
    | inl s => Ok (print <$> rs_Proxies s, print <$> rs_Visitors s)
    | inr e => Err (json_error_text syntax_text data e)
    end;
  DecodeProxy := decode_raw DecodeProxyConfigurerJSON;
  DecodeVisitor := decode_raw DecodeVisitorConfigurerJSON;
  visit _ m := (map_to_list m).*2;
|}.

(** ** Its laws *)
Lemma enc_readable {T} (c : codec T) `{!Lawful c} x : c_ok c x → c_depth c ≤ maxNestingDepth → readable (c_enc c x).
Proof. intros Hx Hd. split; [by apply enc_printable|]. etrans; [by apply enc_nesting|done]. Qed.
Lemma storeData_ok ps vs : Forall proxy_typed ps → Forall visitor_typed vs → c_ok c_rawStoreData (storeData ps vs).
Proof.
  intros Hp Hv. repeat (apply Forall_cons; split); [| |constructor]; apply Forall_fmap.
  - eapply Forall_impl; [exact Hp|]. intros p [_ Hok]. apply (enc_readable _ p Hok). by vm_compute.
  - eapply Forall_impl; [exact Hv|]. intros p [_ Hok]. apply (enc_readable _ p Hok). by vm_compute.
Qed.
Lemma enc_raws type l : c_enc (c_slice type c_raw) l = JArr l.
Proof. cbn [c_enc c_slice c_raw]. f_equal. apply list_fmap_id. Qed.
Lemma nesting_obj n l : 0 ≤ n → Forall (λ kv : string * json, nesting kv.2 ≤ n) l → nesting (JObj l) ≤ 1 + n.
Proof. intros Hn Hl. cbn [nesting]. induction Hl as [|kv l H _ IH]; cbn [foldr]; lia. Qed.
Lemma storeData_nesting ps vs : Forall proxy_typed ps → Forall visitor_typed vs →
  nesting (c_enc c_rawStoreData (storeData ps vs)) ≤ maxNestingDepth.
Proof.
  intros Hp Hv.
  assert (Hps : nesting (JArr (c_enc c_ProxyConfigurer <$> ps)) ≤ 100).
  { etrans; [apply (enc_nesting (c := c_slice "" c_ProxyConfigurer) ps); eapply Forall_impl; [exact Hp|]; by intros p [_ Hok]|by vm_compute]. }
  assert (Hvs : nesting (JArr (c_enc c_VisitorConfigurer <$> vs)) ≤ 100).
  { etrans; [apply (enc_nesting (c := c_slice "" c_VisitorConfigurer) vs); eapply Forall_impl; [exact Hv|]; by intros p [_ Hok]|by vm_compute]. }
  etrans; [apply (nesting_obj 100); [lia|]|by vm_compute]. apply Forall_forall. intros kv Hkv.
  apply list_elem_of_omap in Hkv as (f & Hf & Hm). unfold field_member in Hm. destruct (_ && _); [done|]. injection Hm as <-.
  apply elem_of_cons in Hf as [->|Hf]; [|apply list_elem_of_singleton in Hf as ->];
    cbn [f_name f_codec f_get snd storeData rs_Proxies rs_Visitors]; rewrite enc_raws; [exact Hps|exact Hvs].
Qed.
Lemma store_reads ps vs : Forall proxy_typed ps → Forall visitor_typed vs →
  json_Unmarshal c_rawStoreData (indent 0 (c_enc c_rawStoreData (storeData ps vs))) zero_rawStoreData = inl (storeData ps vs).
Proof.
  intros Hp Hv. unfold json_Unmarshal. rewrite parse_indent; [|by apply enc_printable, storeData_ok|by apply storeData_nesting].
  unfold store. rewrite dec_enc; [done|by apply storeData_ok|by left].
Qed.
Lemma decode_raw_typed {C} (decode : json_text → DecodeOptions → C + go_error) raw c (P : C → Prop) :
  (∀ t options c, coherent t → decode t options = inl c → P c) → decode_raw decode raw = Ok c → P c.
Proof.
  intros H. unfold decode_raw. destruct (decode _ _) as [c'|e] eqn:E; [|done]. intros [= <-]. by eapply H; [apply coherent_bytes|].
Qed.
#[local] Existing Instance store_codec.
#[export] Instance store_laws : StoreLaws.
Proof.
  refine {| plain_proxy := proxy_typed; plain_visitor := visitor_typed |}.
  - intros ps vs data Hp Hv Hd.
    assert (data = indent 0 (c_enc c_rawStoreData (storeData ps vs))) as -> by (unfold MarshalStore, store_codec in Hd; congruence). clear Hd.
    exists (print <$> (c_enc c_ProxyConfigurer <$> ps)), (print <$> (c_enc c_VisitorConfigurer <$> vs)). split_and!.
    + unfold UnmarshalStore, store_codec. by rewrite store_reads.
    + clear Hv. induction Hp as [|p ps Hp _ IH]; constructor; [|done]. unfold DecodeProxy, store_codec, decode_raw.
      by rewrite (proxy_print_decode p _ Hp).
    + clear Hp. induction Hv as [|v vs Hv _ IH]; constructor; [|done]. unfold DecodeVisitor, store_codec, decode_raw.
      by rewrite (visitor_print_decode v _ Hv).
  - intros r p Hd. eapply decode_raw_typed; [|exact Hd]. apply DecodeProxy_typed.
  - intros r v Hd. eapply decode_raw_typed; [|exact Hd]. apply DecodeVisitor_typed.
  - done.
Defined.
End codec.

(** ** What is shown *)
(** C20. A store survives a restart.  The file written for a store whose entries have their names
    as keys, with texts of valid UTF-8 and integers that fit, is read back as that very store
    by [NewStoreSource]; and whatever file [NewStoreSource] accepts, the entries have their
    names as keys, the type of their kind, and texts and integers that the types can hold. *)
Theorem store_file_roundtrip syntax b path fs : path ≠ "" →
  (keyed_source b → map_Forall (λ _ p, proxy_typed p) (b_proxies b) → map_Forall (λ _ v, visitor_typed v) (b_visitors b) →
   fs !! path = Some (indent 0 (c_enc c_rawStoreData (storeData (values (b_proxies b)) (values (b_visitors b))))) →
   @NewStoreSource (store_codec syntax) path fs = Ok (mkStore path b)) ∧
  (∀ s, @NewStoreSource (store_codec syntax) path fs = Ok s → keyed_source (st_base s) ∧
     map_Forall (λ _ p, proxy_typed p) (b_proxies (st_base s)) ∧ map_Forall (λ _ v, visitor_typed v) (b_visitors (st_base s))).
Proof.
  intros Hp. split.
  - intros Hk Hps Hvs Hf. pose proof (@load_marshalled _ (store_laws syntax) b _ (conj Hk (conj Hps Hvs)) eq_refl) as Hl.
    change (@visit (store_codec syntax)) with (λ T (m : gmap string T), values m) in Hl. cbv beta in Hl.
    unfold NewStoreSource. rewrite decide_False, Hf by done. rewrite Hl. done.
  - intros s Hs. by apply (@NewStoreSource_good _ (store_laws syntax)) in Hs.
Qed.

(** ** Witness *)
Definition demo_store : baseSource :=
  mkBase (<["ssh" := demo_xtcp "ssh" None]> {["web" := demo_xtcp "web" (Some false)]}) ∅.
Lemma demo_typed name enabled : ValidString name = true → proxy_typed (demo_xtcp name enabled).
Proof.
  intros Hn. split; [done|].
  destruct enabled; repeat (apply Forall_cons; split; [cbn; first [exact Hn|exact I|by apply map_Forall_empty|
    apply (bool_decide_unpack _); vm_compute; exact I|repeat constructor]|]); constructor.
Qed.
Lemma store_file_roundtrip_witness :
  let data := indent 0 (c_enc c_rawStoreData (storeData (values (b_proxies demo_store)) (values (b_visitors demo_store)))) in
  @NewStoreSource (store_codec (λ _, "syntax")) "store.json" {["store.json" := data]} = Ok (mkStore "store.json" demo_store)
  ∧ data ≠ [].
Proof.
  intros data. split; [|unfold data; intros E; vm_compute in E; discriminate].
  apply (proj1 (store_file_roundtrip (λ _, "syntax") demo_store "store.json" {["store.json" := data]} ltac:(discriminate))).
  - split; apply (bool_decide_unpack _); vm_compute; exact I.
  - apply map_Forall_insert_2; [by apply demo_typed|]. apply map_Forall_singleton. by apply demo_typed.
  - apply map_Forall_empty.
  - apply lookup_insert_eq.
Defined.
