(* ===== verification/SidRelay.v ===== *)
(** * The way of a session id: [server/proxy/xtcp.go], [server/proxy/proxy.go], [server/control.go]

    The goroutine of [XTCPProxy.Run] takes the session ids of the visitors' handlers from its
    channel, gets a work connection for each ([GetWorkConn], [GetWorkConnFromPool]), writes
    the [StartWorkConn] and the id on it and closes it.  At the other end [handleReqWorkConn]
    ([ClientControl]) reads the first message and [InWorkConn] ([HoleFlow]) the second.  The
    two ends are put together over the bytes of the connection, which may break off
    anywhere. *)
From S2P Require Import Prelude GoStd Json Hash Naming Msg ConfigV1 Auth Wire MsgV2 JsonCodec MsgJson Session ServerProxy ClientProxy ClientControl MakeHole EndToEnd HoleFlow ServerConn.
From stdpp Require Import gmap list.
Local Open Scope Z_scope.

(** ** The server's end *)
Definition ErrCtlClosed : string := "control is closed".
(** [GetWorkConn].  [sendable] is whether the dispatcher takes the request for a connection,
    [later] the control when the second [select] receives, [None] when its timer wins.  The
    result, the requests sent and the control. *)
Definition GetWorkConn (c : Session.Control) (sendable : bool) (later : option Session.Control)
    : result nat * list Message * Session.Control :=
  match take_work_conn c with
  | Some (Ok conn, c) => (Ok conn, [MReqWorkConn], c)
  | Some (Err _, c) => (Err ErrCtlClosed, [], c)
  | None =>
      if negb sendable then (Err "control is already closed", [], c)
      else
        match later ≫= take_work_conn with
        | Some (Ok conn, c) => (Ok conn, [MReqWorkConn; MReqWorkConn], c)
        | Some (Err _, c) => (Err ErrCtlClosed, [MReqWorkConn], c)
        | None => (Err "timeout trying to get work connection", [MReqWorkConn], default c later)
        end
  end.

(** What the goroutine does to a connection: a message it tries to write, and whether
    [WriteMsg] succeeds; the close. *)
Inductive reffect : Type := RWrite (conn : nat) (m : Message) (ok : bool) | RClose (conn : nat).

Definition sid_msg (sid : string) : NatHoleSid := mkNatHoleSid "" sid false "".
(** [writeNatHoleSid]. *)
Definition writeNatHoleSid (write : nat → Message → result unit) (conn : nat) (sid : string) : list reffect :=
  let m := MNatHoleSid (sid_msg sid) in [RWrite conn m (is_ok (write conn m))].
(** What [GetWorkConnFromPool] does. *)
Definition relay_effect (x : peffect) : reffect :=
  match x with PStart c m ok => RWrite c (MStartWorkConn m) ok | PClose c => RClose c end.
(** One turn of the goroutine, for [sid]. *)
Definition relay_one (name : string) (poolCount : nat) (get : nat → result nat)
    (write : nat → Message → result unit) (sid : string) : list reffect :=
  let '(r, t) := GetWorkConnFromPool name poolCount None None get (λ c m, write c (MStartWorkConn m)) in
  (relay_effect <$> t) ++
  match r with
  | Err _ => []
  | Ok c => writeNatHoleSid write c sid ++ [RClose c]
  end.

(** The cases its [select] takes, one after the other: [closeCh], or an id with what the
    calls of that turn give. *)
Inductive turn : Type :=
| TClose
| TSid (sid : string) (get : nat → result nat) (write : nat → Message → result unit).
Fixpoint sid_loop (name : string) (poolCount : nat) (turns : list turn) : list (string * list reffect) :=
  match turns with
  | [] | TClose :: _ => []
  | TSid sid get write :: turns => (sid, relay_one name poolCount get write sid) :: sid_loop name poolCount turns
  end.

(** ** The bytes of one connection *)
Section ends.
Context `{MsgJSON} `{V1Codec}.
Variable proto : string.

Definition bytes (m : Message) : list byte := match rw_WriteMsg proto m with Ok b => b | Err _ => [] end.
Definition writes_on (c : nat) (t : list reffect) : list Message :=
  omap (λ x, match x with RWrite c' m _ => if decide (c' = c) then Some m else None | _ => None end) t.
(** Everything the server tries to write on connection [c]; a prefix of it arrives. *)
Definition stream (c : nat) (t : list reffect) : list byte := concat (bytes <$> writes_on c t).

(** ** The client's end *)
Definition taken (t : list weffect) : option string :=
  match last t with Some (WTaken name _) => Some name | _ => None end.
Definition proxy_conf (name : string) (pm : ClientProxy.Manager) : option XTCPProxyConfig :=
  i ← proxies pm !! name; w ← wrappers pm !! i; match pw_Cfg w with PC_XTCP cfg => Some cfg end.
(** A work connection on which the server's bytes are [s]: [handleReqWorkConn] from its
    first read, and [InWorkConn] of the proxy that gets the connection, on the rest. *)
Definition owner_end (user runID : string) (auth : TokenAuth) (pm : ClientProxy.Manager) (now : Z) (s : list byte)
    (e : hole_env) (ce : carrier_env) : list weffect * list feffect :=
  let start := rw_ReadMsgInto proto TStartWorkConn s ≫= λ '(m, rest),
    match m with MStartWorkConn m => Ok (m, rest) | _ => Err "message type error" end in
  let t := handleReqWorkConn user runID auth pm (mkWork None now None (fst <$> start)) in
  (t, match taken t ≫= λ name, proxy_conf name pm, start with
      | Some cfg, Ok (_, rest) => InWorkConn user cfg (readNatHoleSid proto rest) e ce
      | _, _ => []
      end).

(** What is relied on of the codec for a message: it is read back, also by its type, whatever
    follows, and not from a part of its bytes. *)
Record delivers (m : Message) : Prop := mkDelivers {
  dl_some : bytes m ≠ [];
  dl_read rest : rw_ReadMsgInto proto (type_of m) (bytes m ++ rest) = Ok (m, rest);
  dl_cut p q : bytes m = p ++ q → q ≠ [] → ∃ e, rw_ReadMsgInto proto (type_of m) p = Err e;
}.
End ends.

(** ** Lemmas: the server's end *)
Definition discarded (start : Message) (c : nat) : list reffect := [RWrite c start false; RClose c].
Lemma relay_discarded m dead : relay_effect <$> (dead ≫= ServerProxy.discarded m) = dead ≫= discarded (MStartWorkConn m).
Proof. induction dead as [|c dead IH]; [done|]. cbn. by rewrite IH. Qed.
(** The shape of a turn: connections that could not be written to, then at most one other. *)
Lemma relay_shape name poolCount get write sid (start := MStartWorkConn (ServerProxy.start_msg name None None)) :
  (∀ i j c, get i = Ok c → get j = Ok c → i = j) →
  ∃ closed r, NoDup closed ∧ (length closed ≤ S poolCount)%nat ∧ (∀ c, r = Some c → c ∉ closed) ∧
    relay_one name poolCount get write sid = (closed ≫= discarded start) ++
      from_option (λ c, [RWrite c start true; RWrite c (MNatHoleSid (sid_msg sid)) (is_ok (write c (MNatHoleSid (sid_msg sid)))); RClose c]) [] r.
Proof.
  intros Hinj. unfold relay_one.
  pose proof (work_conn_from_pool name poolCount None None get (λ c m, write c (MStartWorkConn m))) as H. cbv zeta in H.
  destruct (GetWorkConnFromPool _ _ _ _ _ _) as [r t]. destruct H as (dead & Ht & H).
  exists dead, (match r with Ok c => Some c | Err _ => None end). split_and!.
  - apply NoDup_alt. intros i j c [Hi _]%Ht [Hj _]%Ht. eauto.
  - destruct r; [lia|]. destruct H as [_ [[_ ?]|[? _]]]; lia.
  - intros c. destruct r as [c'|]; [|done]. intros [= ->] [j Hj]%list_elem_of_lookup.
    destruct H as (_ & _ & Hg & _). destruct (Ht _ _ Hj) as [Hg' _]. apply lookup_lt_Some in Hj.
    assert (j = length dead) by eauto. lia.
  - destruct r as [c|]; destruct H as [-> _]; [rewrite fmap_app, <-(assoc_L (++))|]; by rewrite relay_discarded, ?app_nil_r.
Qed.
(** The id is tried when the pool gives a connection that takes its start. *)
Lemma relay_tries name poolCount get write sid k c (idm := MNatHoleSid (sid_msg sid)) : (k ≤ poolCount)%nat →
  (∀ j, (j < k)%nat → ∃ d, get j = Ok d) → get k = Ok c →
  write c (MStartWorkConn (ServerProxy.start_msg name None None)) = Ok tt →
  ∃ c', RWrite c' idm (is_ok (write c' idm)) ∈ relay_one name poolCount get write sid.
Proof.
  intros Hk Hj Hc Hw. unfold relay_one.
  pose proof (work_conn_from_pool name poolCount None None get (λ c m, write c (MStartWorkConn m))) as H. cbv zeta in H.
  destruct (GetWorkConnFromPool _ _ _ _ _ _) as [[d|e] t]; destruct H as (dead & Ht & H).
  - exists d. apply elem_of_app. right. by left.
  - assert (Hlt : (length dead ≤ k)%nat).
    { apply Nat.nlt_ge. intros [c' Hl]%lookup_lt_is_Some_2. destruct (Ht _ _ Hl) as [Hg [e' He]]. congruence. }
    destruct H as (_ & [[He _]|[? _]]); [|lia].
    destruct (decide (length dead = k)) as [E|]; [congruence|]. destruct (Hj (length dead)) as [d ?]; [lia|congruence].
Qed.
Lemma writes_app c t t' : writes_on c (t ++ t') = writes_on c t ++ writes_on c t'.
Proof. apply omap_app. Qed.
Lemma writes_discarded c start closed : NoDup closed →
  writes_on c (closed ≫= discarded start) = if decide (c ∈ closed) then [start] else [].
Proof.
  induction 1 as [|d l Hd _ IH]; [by rewrite decide_False by set_solver|].
  change (writes_on c (discarded start d ++ (l ≫= discarded start)) = if decide (c ∈ d :: l) then [start] else []).
  rewrite writes_app, IH. cbn. destruct (decide (d = c)) as [->|Hne].
  - by rewrite (decide_False (P := c ∈ l)), decide_True by set_solver.
  - destruct (decide (c ∈ l)); [rewrite decide_True by set_solver|rewrite decide_False by set_solver]; done.
Qed.
(** Every connection of a turn is closed once, after everything else that is done to it. *)
Lemma discarded_other c start dead x : c ∉ dead → x ∈ dead ≫= discarded start → x ≠ RClose c ∧ ∀ m ok, x ≠ RWrite c m ok.
Proof.
  intros Hc (d & Hx & Hd)%list_elem_of_bind. unfold discarded in Hx. set_unfold in Hx.
  assert (d ≠ c) by congruence. destruct Hx as [->|[->|[]]]; split; congruence.
Qed.
Lemma relay_closes name poolCount get write sid c m ok (t := relay_one name poolCount get write sid) :
  (∀ i j c, get i = Ok c → get j = Ok c → i = j) → RWrite c m ok ∈ t →
  ∃ t1 t2, t = t1 ++ RClose c :: t2 ∧ RClose c ∉ t1 ∧ RClose c ∉ t2 ∧ ∀ m' ok', RWrite c m' ok' ∉ t2.
Proof.
  intros Hinj. unfold t. destruct (relay_shape name poolCount get write sid Hinj) as (dead & r & Hnd & _ & Hr & ->).
  set (start := MStartWorkConn _). set (idm := MNatHoleSid _).
  rewrite elem_of_app. intros [(d & Hd & Hl)%list_elem_of_bind|Hin].
  - assert (d = c) as -> by (unfold discarded in Hd; set_unfold in Hd; naive_solver).
    apply list_elem_of_split in Hl as (l1 & l2 & ->). apply NoDup_app in Hnd as (_ & Hd1 & Hnd2).
    apply NoDup_cons in Hnd2 as [Hd2 _]. assert (Hd1' : c ∉ l1) by (intros Hx; apply (Hd1 _ Hx); by left).
    assert (Hrc : ∀ c', r = Some c' → c' ≠ c) by (intros c' E ->; apply (Hr _ E), elem_of_app; right; left).
    exists ((l1 ≫= discarded start) ++ [RWrite c start false]),
      ((l2 ≫= discarded start) ++ from_option (λ c, [RWrite c start true; RWrite c idm (is_ok (write c idm)); RClose c]) [] r).
    split; [rewrite bind_app; cbn; by rewrite <-!(assoc_L (++))|].
    assert (Hr' : ∀ x, x ∈ from_option (λ c, [RWrite c start true; RWrite c idm (is_ok (write c idm)); RClose c]) [] r →
      x ≠ RClose c ∧ ∀ m ok, x ≠ RWrite c m ok).
    { intros x Hx. destruct r as [c'|]; cbn in Hx; [|by apply not_elem_of_nil in Hx]. specialize (Hrc c' eq_refl). set_unfold in Hx.
      destruct Hx as [->|[->|[->|[]]]]; split; congruence. }
    split_and!.
    + intros [Hx|Hx]%elem_of_app; [by destruct (discarded_other c start l1 _ Hd1' Hx)|set_unfold in Hx; naive_solver].
    + intros [Hx|Hx]%elem_of_app; [by destruct (discarded_other c start l2 _ Hd2 Hx)|by destruct (Hr' _ Hx)].
    + intros m' ok' [Hx|Hx]%elem_of_app; [destruct (discarded_other c start l2 _ Hd2 Hx) as [_ Hn]|destruct (Hr' _ Hx) as [_ Hn]]; by eapply Hn.
  - destruct r as [c'|]; cbn in Hin; [|by apply not_elem_of_nil in Hin]. specialize (Hr c' eq_refl).
    assert (c' = c) as -> by (set_unfold in Hin; naive_solver).
    exists ((dead ≫= discarded start) ++ [RWrite c start true; RWrite c idm (is_ok (write c idm))]), [].
    split; [cbn; by rewrite <-!(assoc_L (++))|]. split_and!; [|set_solver|set_solver].
    intros [Hx|Hx]%elem_of_app; [by destruct (discarded_other c start dead _ Hr Hx)|set_unfold in Hx; naive_solver].
Qed.
(** What is tried on one connection, and when the id is. *)
Lemma relay_writes name poolCount get write sid c (t := relay_one name poolCount get write sid) :
  (∀ i j c, get i = Ok c → get j = Ok c → i = j) →
  let start := MStartWorkConn (ServerProxy.start_msg name None None) in
  let m := MNatHoleSid (sid_msg sid) in
  (writes_on c t = [] ∧ (∀ m ok, RWrite c m ok ∉ t)) ∨ (writes_on c t = [start] ∧ ∀ ok, RWrite c m ok ∉ t)
  ∨ (writes_on c t = [start; m] ∧ (∀ c' ok, RWrite c' m ok ∈ t → c' = c) ∧ RWrite c m (is_ok (write c m)) ∈ t).
Proof.
  intros Hinj start m. unfold t. destruct (relay_shape name poolCount get write sid Hinj) as (closed & r & Hnd & _ & Hr & ->).
  fold start m. rewrite writes_app, writes_discarded by done.
  assert (Hin : ∀ c' m' ok, RWrite c' m' ok ∈ closed ≫= discarded start → c' ∈ closed ∧ m' = start ∧ ok = false).
  { intros c' m' ok (d & Hd & Hl)%list_elem_of_bind. unfold discarded in Hd. set_unfold in Hd. naive_solver. }
  assert (Hne : start ≠ m) by done.
  destruct r as [d|]; cbn -[decide].
  - specialize (Hr d eq_refl). destruct (decide (d = c)) as [->|Hcd].
    + right; right. rewrite (decide_False (P := c ∈ closed)) by done. split_and!; [done| |set_solver].
      intros c' ok. rewrite elem_of_app. intros [[? [? _]]%Hin|H]; [congruence|]. set_unfold in H. naive_solver.
    + rewrite app_nil_r. case_decide as Hc.
      * right; left. split; [done|]. intros ok. rewrite elem_of_app. intros [[_ [? _]]%Hin|H]; [congruence|]. set_unfold in H. naive_solver.
      * left. split; [done|]. intros m' ok. rewrite elem_of_app. intros [[? _]%Hin|H]; [done|]. set_unfold in H. naive_solver.
  - rewrite !app_nil_r. case_decide as Hc; [right; left|left]; (split; [done|]); intros; intros [? [? ?]]%Hin; congruence.
Qed.

(** ** Lemmas: the client's end *)
(** The only message of its kind in an attempt. *)
Lemma InWorkConn_client user cfg e ce s m : FSent (MNatHoleClient m) ∈ InWorkConn user cfg s e ce →
  ∃ s', s = Ok s' ∧ nc_Sid m = ns_Sid s' ∧ nc_ProxyName m = AddUserPrefix user (pc_Name (xp_Base cfg)).
Proof.
  destruct s as [s'|]; cbn [InWorkConn]; [|set_solver]. intros Hm. exists s'. split; [done|]. revert Hm.
  unfold InWorkConn. destruct (Prepare _ _) as [r|]; [|set_solver].
  destruct (ExchangeInfo _) as [resp|]; [|set_unfold; naive_solver].
  destruct (he_hole e) as [other|]; [|unfold report; set_unfold; naive_solver].
  pose proof (λ x, listen_elem x (nr_Protocol resp) (hole_sock other) ce) as Hin.
  set (L := if decide (nr_Protocol resp = "kcp") then _ else _) in *. clearbody L.
  rewrite !elem_of_cons, !elem_of_app, !elem_of_cons. unfold report.
  intros [?|[[= ->]|[[Ho|[?|?%Hin]]|?]]]; [done|done| |done|naive_solver|set_unfold; naive_solver].
  destruct other; cbn in Ho; set_unfold in Ho; naive_solver.
Qed.
Section owner.
Context `{MsgJSON} `{V1Codec}.
Context (proto user runID name sid : string) (auth : TokenAuth) (pm : ClientProxy.Manager) (now : Z) (cfg : XTCPProxyConfig)
  (e : hole_env) (ce : carrier_env).
Let wire : string := AddUserPrefix user name.
Let start : Message := MStartWorkConn (ServerProxy.start_msg wire None None).
Let idm : Message := MNatHoleSid (sid_msg sid).
Hypothesis Hstart : delivers proto start.
Hypothesis Hid : delivers proto idm.
Hypothesis Hrun : HandleWorkConn name pm = true.
Hypothesis Hcfg : proxy_conf name pm = Some cfg.
Notation oend := (owner_end proto user runID auth pm now).

(** The answer to the request does not come whole. *)
Lemma owner_cut p q : bytes proto start = p ++ q → q ≠ [] →
  ∃ m, oend p e ce = ([WConnected; WSent m; WClosed], []).
Proof.
  intros Hp Hq. destruct (dl_cut _ _ Hstart p q Hp Hq) as [err Herr].
  unfold owner_end. cbn [type_of start] in Herr. rewrite Herr. cbn. by eexists.
Qed.
(** It does, and what follows it goes to the proxy. *)
Lemma owner_started p : ∃ m, oend (bytes proto start ++ p) e ce =
  ([WConnected; WSent m; WTaken name (ServerProxy.start_msg name None None)], InWorkConn user cfg (readNatHoleSid proto p) e ce).
Proof.
  pose proof (dl_read _ _ Hstart p) as Hr. cbn [type_of start] in Hr. unfold owner_end. rewrite Hr. unfold start. cbn [mbind result_bind].
  change (fst <$> Ok (ServerProxy.start_msg wire None None, p)) with (@Ok StartWorkConn (ServerProxy.start_msg wire None None)).
  unfold handleReqWorkConn. cbn [we_connect we_write we_read we_now].
  unfold ServerProxy.start_msg, wire. cbn [split_or_empty sw_Error sw_ProxyName].
  rewrite decide_False by (by intros []). rewrite StripUserPrefix_AddUserPrefix, Hrun.
  eexists. cbn -[handleReqWorkConn]. rewrite Hcfg. reflexivity.
Qed.
Lemma sid_read rest : readNatHoleSid proto (bytes proto idm ++ rest) = Ok (sid_msg sid).
Proof. unfold readNatHoleSid. change TNatHoleSid with (type_of idm). by rewrite (dl_read _ _ Hid rest). Qed.
Lemma sid_cut p q : bytes proto idm = p ++ q → q ≠ [] → ∃ err, readNatHoleSid proto p = Err err.
Proof.
  intros Hp Hq. destruct (dl_cut _ _ Hid p q Hp Hq) as [err Herr]. exists err. unfold readNatHoleSid.
  change TNatHoleSid with (type_of idm). by rewrite Herr.
Qed.
Lemma InWorkConn_failed err : InWorkConn user cfg (Err err) e ce = [FWorkClosed].
Proof. done. Qed.
(** By where the bytes of the connection break off, and whether the id was tried. *)
Lemma owner_at (tried : bool) p q : bytes proto start ++ (if tried then bytes proto idm else []) = p ++ q →
  let '(wt, ft) := oend p e ce in
  if decide (tried = true ∧ q = []) then
    (∃ m, wt = [WConnected; WSent m; WTaken name (ServerProxy.start_msg name None None)])
    ∧ ft = InWorkConn user cfg (Ok (sid_msg sid)) e ce
  else (WClosed ∈ wt ∧ ft = []) ∨ ft = [FWorkClosed].
Proof.
  intros Hst. destruct (app_eq_inv _ _ _ _ Hst) as [(k & Hp & Hq)|(k & -> & Hq)].
  - destruct (decide (k = [])) as [->|Hk].
    + rewrite app_nil_r in Hp. subst p. destruct (owner_started []) as [m Ho]. rewrite app_nil_r in Ho. rewrite Ho.
      simpl in Hq. subst q. destruct tried.
      * pose proof (dl_some _ _ Hid). rewrite decide_False by naive_solver. right.
        destruct (sid_cut [] (bytes proto idm) eq_refl H1) as [err ->]. done.
      * rewrite decide_False by naive_solver. right.
        destruct (sid_cut [] (bytes proto idm) eq_refl (dl_some _ _ Hid)) as [err ->]. done.
    + destruct (owner_cut p k Hp Hk) as [m ->]. rewrite decide_False; [left; set_solver|].
      intros [_ ->]. destruct k; [done|]. simpl in Hq. discriminate.
  - destruct (owner_started k) as [m ->]. destruct tried; [|symmetry in Hq; apply app_nil in Hq as [-> ->]].
    + case_decide as Hd.
      * destruct Hd as [_ ->]. rewrite app_nil_r in Hq. subst k. split; [by eexists|].
        by rewrite <- (app_nil_r (bytes proto idm)), sid_read.
      * right. destruct (sid_cut k q Hq) as [err ->]; [naive_solver|done].
    + rewrite decide_False by naive_solver. right.
      destruct (sid_cut [] (bytes proto idm) eq_refl (dl_some _ _ Hid)) as [err ->]. done.
Qed.
End owner.

(** A running proxy of a reachable manager has the configuration of its name. *)
Lemma running_conf user pm name : rtc (pmstep user) NewManager pm → HandleWorkConn name pm = true →
  ∃ cfg, proxy_conf name pm = Some cfg ∧ pc_Name (xp_Base cfg) = name.
Proof.
  intros Hi%pm_reachable. unfold HandleWorkConn, proxy_conf.
  destruct (proxies pm !! name) as [i|] eqn:Hp; [|done]. intros _.
  destruct (pi_map _ _ Hi _ _ Hp) as (w & Hw & _ & Hn). pose proof (wo_name _ _ _ (pi_ok _ _ Hi _ _ Hw)) as Hc.
  cbn. rewrite Hw. cbn. destruct (pw_Cfg w) as [cfg]. exists cfg. split; [done|]. by rewrite <- Hn, <- Hc.
Qed.

(** ** Properties *)
(** C12. A session id reaches the owner whole or not at all.  Whatever connections the pool gives
    and whichever writes fail, the last thing that happens to every connection of a turn is that
    it is closed; the id is tried on at most one, and on one if any that the pool gives in time
    takes its start.  Wherever the bytes of a connection break off, the owner tells the server about
    that session, under the proxy's registered name, only if all of them came and the id was
    among them, and it ends the connection otherwise; when the id was written it comes to the
    proxy of that name, whose attempt starts with it. *)
Theorem sid_relay `{MsgJSON} `{V1Codec} (proto user runID name sid : string) (auth : TokenAuth)
    (pm : ClientProxy.Manager) (now : Z) (e : hole_env) (ce : carrier_env) (poolCount : nat)
    (get : nat → result nat) (write : nat → Message → result unit) :
  let wire := AddUserPrefix user name in
  let idm := MNatHoleSid (sid_msg sid) in
  let t := relay_one wire poolCount get write sid in
  delivers proto (MStartWorkConn (ServerProxy.start_msg wire None None)) → delivers proto idm →
  (∀ i j c, get i = Ok c → get j = Ok c → i = j) →
  rtc (pmstep user) NewManager pm → HandleWorkConn name pm = true →
  (∀ c m ok, RWrite c m ok ∈ t → ∃ t1 t2, t = t1 ++ RClose c :: t2 ∧ RClose c ∉ t1 ∧ RClose c ∉ t2 ∧ ∀ m' ok', RWrite c m' ok' ∉ t2)
  ∧ (∀ c c' ok ok', RWrite c idm ok ∈ t → RWrite c' idm ok' ∈ t → c = c')
  ∧ (∀ k c, (k ≤ poolCount)%nat → (∀ j, (j < k)%nat → ∃ d, get j = Ok d) → get k = Ok c →
     write c (MStartWorkConn (ServerProxy.start_msg wire None None)) = Ok tt → ∃ c', RWrite c' idm (is_ok (write c' idm)) ∈ t)
  ∧ ∃ cfg, proxy_conf name pm = Some cfg ∧ ∀ c p q, stream proto c t = p ++ q →
      let '(wt, ft) := owner_end proto user runID auth pm now p e ce in
      (∀ m, FSent (MNatHoleClient m) ∈ ft →
         nc_Sid m = sid ∧ nc_ProxyName m = wire ∧ q = [] ∧ ∃ ok, RWrite c idm ok ∈ t)
      ∧ (q = [] → (∃ ok, RWrite c idm ok ∈ t) →
         (∃ m, wt = [WConnected; WSent m; WTaken name (ServerProxy.start_msg name None None)])
         ∧ ft = InWorkConn user cfg (Ok (sid_msg sid)) e ce)
      ∧ (q ≠ [] → WClosed ∈ wt ∨ ft = [FWorkClosed]).
Proof.
  intros wire idm t Hs Hd Hinj Hpm Hrun.
  destruct (running_conf user pm name Hpm Hrun) as (cfg & Hcfg & Hname).
  split_and!.
  - intros c m ok. by apply relay_closes.
  - intros c c' ok ok' H1 H2. destruct (relay_writes wire poolCount get write sid c' Hinj) as [[_ H3]|[[_ H3]|(_ & H3 & _)]].
    + by apply H3 in H2.
    + by apply H3 in H2.
    + by eapply H3.
  - intros k c. apply relay_tries.
  - exists cfg. split; [done|]. intros c p q Hst. unfold stream in Hst.
    assert (Hfin : ∀ tried, (tried = true ↔ ∃ ok, RWrite c idm ok ∈ t) →
      bytes proto (MStartWorkConn (ServerProxy.start_msg wire None None)) ++ (if tried then bytes proto idm else []) = p ++ q →
      let '(wt, ft) := owner_end proto user runID auth pm now p e ce in
      (∀ m, FSent (MNatHoleClient m) ∈ ft → nc_Sid m = sid ∧ nc_ProxyName m = wire ∧ q = [] ∧ ∃ ok, RWrite c idm ok ∈ t)
      ∧ (q = [] → (∃ ok, RWrite c idm ok ∈ t) →
         (∃ m, wt = [WConnected; WSent m; WTaken name (ServerProxy.start_msg name None None)])
         ∧ ft = InWorkConn user cfg (Ok (sid_msg sid)) e ce)
      ∧ (q ≠ [] → WClosed ∈ wt ∨ ft = [FWorkClosed])).
    { intros tried Htr Hb. pose proof (owner_at proto user runID name sid auth pm now cfg e ce Hs Hd Hrun Hcfg tried p q Hb) as Ho.
      destruct (owner_end _ _ _ _ _ _ _ _ _) as [wt ft]. case_decide as Hc.
      - destruct Hc as [Hc ->], Ho as [Hwt ->]. split_and!; [|done|done].
        intros m (s' & [= <-] & Hsid & Hn)%InWorkConn_client. rewrite Hname in Hn. split_and!; [done..|by apply Htr].
      - split_and!.
        + intros m Hm. destruct Ho as [[_ ->]| ->]; set_solver.
        + intros -> Hok. destruct Hc. split; [by apply Htr|done].
        + intros _. destruct Ho as [[? _]|?]; eauto. }
    destruct (relay_writes wire poolCount get write sid c Hinj) as [[Hw Hn]|[[Hw Hn]|(Hw & _ & Hin)]];
      fold t in Hw, Hn || fold t in Hw, Hin; rewrite Hw in Hst; cbn in Hst; rewrite ?app_nil_r in Hst.
    + symmetry in Hst. apply app_nil in Hst as [-> ->].
      destruct (owner_cut proto user runID name auth pm now e ce Hs [] _ eq_refl (dl_some _ _ Hs)) as [m ->].
      split_and!; [by intros m' ?%not_elem_of_nil|intros _ [ok Hok]; by apply Hn in Hok|done].
    + apply (Hfin false); [split; [done|intros [ok Hok]; by apply Hn in Hok]|by rewrite app_nil_r].
    + apply (Hfin true); [split; [by eexists|done]|done].
Qed.

(** Protocol v2 is such a codec for every well-formed message that fits in a frame. *)
Lemma v2_delivers `{MsgTextsLaws} `{V1Codec} m : msg_ok m →
  Z.of_nat (length (print (msg_value m))) + 2 ≤ DefaultMaxFramePayloadSize → delivers "v2" m.
Proof.
  intros Hm Hlen. set (f := mkFrame FrameTypeMessage 0 (be_split 2 (v2MsgTypeID (type_of m)) ++ print (msg_value m))).
  assert (∃ bs, WriteFrame DefaultMaxFramePayloadSize f = Ok bs) as [bs Hf].
  { unfold WriteFrame, f. cbn [f_Type f_Flags f_Payload]. rewrite decide_False by (intros Hn; by apply Hn).
    rewrite (proj2 (Z.ltb_ge _ _)); [by eexists|]. rewrite length_app, length_be_split. lia. }
  assert (Hw : V2_WriteMsg (Some m) = Ok bs) by exact Hf.
  assert (bytes "v2" m = bs) as Hb by (unfold bytes, rw_WriteMsg; simpl; by rewrite Hw).
  assert (Hr : ∀ rest, V2_ReadMsgInto (type_of m) (bs ++ rest) = Ok (m, rest)).
  { intros rest. destruct (v2_message_roundtrip m bs rest) as [_ Hr]; [|done|by rewrite Hr, decide_True].
    intros p [= <-]. by apply msg_json_roundtrip. }
  split; rewrite ?Hb.
  - intros ->. specialize (Hr []). discriminate.
  - intros rest. unfold rw_ReadMsgInto. simpl. apply Hr.
  - intros p q -> Hq. unfold rw_ReadMsgInto. simpl. unfold V2_ReadMsgInto.
    assert (DefaultMaxFramePayloadSize < 4294967296) by reflexivity.
    assert (0 ≤ f_Type f < 65536) by (subst f; cbn [f_Type]; unfold FrameTypeMessage; lia).
    destruct (read_cut_frame DefaultMaxFramePayloadSize f (p ++ q) p q) as [err ->]; try done. by exists err.
Qed.

(** What [GetWorkConn] gives is the oldest connection of the pool at a moment it looked; every
    connection it takes is replaced by a request, and it asks for one more when it found none. *)
Lemma GetWorkConn_taken c sendable later conn reqs c' : GetWorkConn c sendable later = (Ok conn, reqs, c') →
  ∃ x q, (x = c ∧ reqs = [MReqWorkConn] ∨ later = Some x ∧ c_workConnCh c = [] ∧ reqs = [MReqWorkConn; MReqWorkConn])
    ∧ c_workConnCh x = conn :: q ∧ c' = set_work q (c_workOpen x) x.
Proof.
  unfold GetWorkConn, take_work_conn. destruct (c_workConnCh c) as [|conn0 q0] eqn:Hq.
  - destruct (c_workOpen c); [|done]. destruct sendable; [|done]. cbn. destruct later as [x|]; cbn; [|done].
    destruct (c_workConnCh x) as [|conn1 q1] eqn:Hx; [by destruct (c_workOpen x)|].
    intros [= -> <- <-]. exists x, q1. by split_and!; [right|..].
  - intros [= -> <- <-]. exists c, q0. by split_and!; [left|..].
Qed.
(** It fails when the control is closed and its pool drained, when the dispatcher has ended,
    or after its time-out with an empty pool. *)
Lemma GetWorkConn_fails c sendable later e reqs c' : GetWorkConn c sendable later = (Err e, reqs, c') →
  c_workConnCh c = [] ∧
  (e = ErrCtlClosed ∧ (c_workOpen c = false ∨ ∃ x, later = Some x ∧ c_workOpen x = false)
   ∨ e = "control is already closed" ∧ sendable = false ∧ reqs = []
   ∨ e = "timeout trying to get work connection" ∧ reqs = [MReqWorkConn]).
Proof.
  unfold GetWorkConn, take_work_conn. destruct (c_workConnCh c) as [|conn0 q0]; [|done].
  destruct (c_workOpen c); [|intros [= <- <- <-]; eauto]. destruct sendable; [|intros [= <- <- <-]; naive_solver]. cbn.
  destruct later as [x|]; cbn; [|intros [= <- <- <-]; naive_solver].
  destruct (c_workConnCh x); [|done]. destruct (c_workOpen x) eqn:?; intros [= <- <- <-]; naive_solver.
Qed.
(** The ids are relayed in order, one after the other, until the proxy closes. *)
Definition turn_sid (x : turn) : option string := match x with TSid sid _ _ => Some sid | TClose => None end.
Lemma sid_loop_order name poolCount turns : ∃ k, (k ≤ length turns)%nat ∧
  (sid_loop name poolCount turns).*1 = omap turn_sid (take k turns) ∧
  length (sid_loop name poolCount turns) = k ∧ ((k < length turns)%nat → turns !! k = Some TClose).
Proof.
  induction turns as [|[|sid get write] turns (k & Hk & IH & Hl & Hc)]; [exists 0%nat; by split_and!; [| | |simpl; lia]| |].
  - exists 0%nat. simpl. split_and!; [lia|done..].
  - exists (S k). cbn [sid_loop take omap list_omap turn_sid length lookup list_lookup fmap list_fmap fst].
    split_and!; [lia|by f_equal|by f_equal|]. intros ?. apply Hc. lia.
Qed.

(** ** Witness *)
(** The first connection is dead, the second takes both messages. *)
Definition demo_get (i : nat) : result nat := Ok i.
Definition demo_write (c : nat) (_ : Message) : result unit := if decide (c = 0%nat) then Err "broken pipe" else Ok tt.
Example demo_relay : relay_one "u.a" 2 demo_get demo_write "s1" =
  let start := MStartWorkConn (mkStartWorkConn "u.a" "" "" 0 0 "") in
  [RWrite 0 start false; RClose 0; RWrite 1 start true; RWrite 1 (MNatHoleSid (mkNatHoleSid "" "s1" false "")) true; RClose 1].
Proof. reflexivity. Qed.
Lemma demo_relayed : RWrite 1 (MNatHoleSid (sid_msg "s1")) true ∈ relay_one "u.a" 2 demo_get demo_write "s1".
Proof. rewrite demo_relay. cbn. set_solver. Qed.
Lemma demo_delivers m : @msg_ok demo_texts m →
  Z.of_nat (length (print (@msg_value demo_texts m))) + 2 ≤ DefaultMaxFramePayloadSize →
  @delivers (@msg_json demo_texts) demo_v1 "v2" m.
Proof. exact (@v2_delivers demo_texts demo_texts_laws demo_v1 m). Qed.
(** The proxy "a" of user "u" runs. *)
Definition demo_pm4 : ClientProxy.Manager := match StartProxy_lookup "a" "" "" demo_pm3 with Ok pm => pm | Err _ => demo_pm3 end.
Definition demo_pm5 : ClientProxy.Manager :=
  let '(w, ms, _) := SetRunningStatus 1 "" "" (pw_set_worker WSelect demo_check.1) in
  let pm := set_wrapper 0 w ms demo_pm4 in mkManager (proxies pm) (wrappers pm) (pm_sent pm) [] (clock pm).
Lemma demo_pm5_reach : rtc (pmstep "u") NewManager demo_pm5.
Proof.
  etrans; [exact demo_reach|].
  eapply rtc_l; [apply (pm_lookup "u" "a" "" "" demo_pm3 demo_pm4); reflexivity|].
  eapply rtc_l; [|apply rtc_refl].
  apply (pm_start "u" [] 0 "" "" [] (pw_set_worker WSelect demo_check.1) _ _ (Ok tt) demo_pm4); reflexivity.
Qed.
Definition demo_env : hole_env :=
  mkHoleEnv (mkPrepareEnv (Ok ["1.2.3.4:1000"; "1.2.3.4:1001"]) [] (Ok 5000) None) "t1" (Err "timeout") (Err "").
Definition demo_carrier : carrier_env := mkCarrierEnv None None None None 0.
Definition demo_cfg : XTCPProxyConfig := match demo_proxy "a" "k" with PC_XTCP c => c end.

(** On the second connection the owner tells the server the id; when the last byte is missing
    it closes. *)
Lemma sid_relay_witness :
  let t := relay_one "u.a" 2 demo_get demo_write "s1" in
  let b := @stream (@msg_json demo_texts) demo_v1 "v2" 1 t in
  let own := λ p, @owner_end (@msg_json demo_texts) demo_v1 "v2" "u" "r" (mkTokenAuth [] "tok") demo_pm5 7 p demo_env demo_carrier in
  FSent (MNatHoleClient (mkNatHoleClient "t1" "u.a" "s1" ["1.2.3.4:1000"; "1.2.3.4:1001"] [])) ∈ (own b).2
  ∧ (WClosed ∈ (own (take (length b - 1) b)).1 ∨ (own (take (length b - 1) b)).2 = [FWorkClosed]).
Proof.
  intros t b own.
  destruct (@sid_relay (@msg_json demo_texts) demo_v1 "v2" "u" "r" "a" "s1" (mkTokenAuth [] "tok") demo_pm5 7 demo_env demo_carrier
    2 demo_get demo_write) as (_ & _ & _ & cfg & Hcfg & H).
  - apply demo_delivers; [|apply Z.leb_le; vm_compute; reflexivity].
    repeat (constructor; [cbn; apply (bool_decide_unpack _); vm_compute; exact I|]). constructor.
  - apply demo_delivers; [|apply Z.leb_le; vm_compute; reflexivity].
    repeat (constructor; [cbn; apply (bool_decide_unpack _); vm_compute; exact I|]). constructor.
  - by intros i j c [= <-] [= <-].
  - exact demo_pm5_reach.
  - vm_compute. reflexivity.
  - injection Hcfg as <-. split.
    + specialize (H 1%nat b [] (eq_sym (app_nil_r b))). unfold own. destruct (owner_end _ _ _ _ _ _ _ _ _) as [wt ft].
      destruct H as (_ & H & _). destruct (H eq_refl) as [_ ->]; [exists true; exact demo_relayed|].
      vm_compute. right. left.
    + specialize (H 1%nat (take (length b - 1) b) (drop (length b - 1) b) (eq_sym (take_drop _ b))). unfold own.
      destruct (owner_end _ _ _ _ _ _ _ _ _) as [wt ft]. apply H. vm_compute. discriminate.
Defined.
