(* ===== verification/ClientStatus.v ===== *)
(** * What a client service shows and starts: [client/service.go], [client/proxy/proxy.go], [server/proxy/proxy.go]

    The options of a service and their defaults, the status of a proxy as the exporter gives
    it, the configuration of a visitor, and the registries in which both sides look up the
    factory of a proxy by the type of its configuration. *)
From S2P Require Import Prelude GoStd Naming Msg ConfigV1 Auth ConfigLoad ServerProxy ClientProxy ClientVisitor ClientService.
From stdpp Require Import gmap list strings.
Local Open Scope Z_scope.

(** ** Options *)
(** A connector creator is the client's own or a function of the caller. *)
Inductive creator : Type := NewConnector | CustomConnector (id : nat).
Record ServiceOptions := mkServiceOptions {
  so_Common : option ClientCommonConfig;
  so_Aggregator : option Aggregator;
  so_ConfigFilePath : string;
  so_ClientSpec : option ClientSpec;
  so_ConnectorCreator : option creator;
  so_HandleWorkConnCb : bool;     (* given *)
}.
Definition setServiceOptionsDefault `{OS} (o : ServiceOptions) : result ServiceOptions :=
  match so_Common o with
  | Some c => ClientCommonConfig_Complete c ≫= λ c, Ok (Some c)
  | None => Ok None
  end ≫= λ common,
  Ok (mkServiceOptions common (so_Aggregator o) (so_ConfigFilePath o) (so_ClientSpec o)
        (Some (default NewConnector (so_ConnectorCreator o))) (so_HandleWorkConnCb o)).

(** ** Status *)
Record WorkingStatus := mkWorkingStatus {
  ws_Name : string;
  ws_Type : string;
  ws_Phase : ProxyPhase;
  ws_Err : string;
  ws_Cfg : ProxyConfigurer;
  ws_RemoteAddr : string;
}.
Definition GetStatus (w : Wrapper) : WorkingStatus :=
  mkWorkingStatus (pw_Name w) (pw_Type w) (pw_Phase w) (pw_Err w) (pw_Cfg w) (pw_RemoteAddr w).
Definition GetProxyStatus (name : string) (pm : Manager) : option WorkingStatus :=
  i ← proxies pm !! name; GetStatus <$> wrappers pm !! i.
(** The service's [ctl] is the two managers, or nil. *)
Definition getProxyStatus (ctl : option (Manager * vmanager)) (name : string) : option WorkingStatus :=
  match ctl with None => None | Some (pm, _) => GetProxyStatus name pm end.
Definition getVisitorCfg (ctl : option (Manager * vmanager)) (name : string) : option VisitorConfigurer :=
  match ctl with None => None | Some (_, vm) => GetVisitorCfg name vm end.
(** The exporter is the method as a function value. *)
Definition StatusExporter (ctl : option (Manager * vmanager)) : string → option WorkingStatus := getProxyStatus ctl.

(** ** Factories *)
(** [reflect.TypeOf] of a configurer, by its text. *)
Definition reflect_TypeOf (c : ProxyConfigurer) : string := match c with PC_XTCP _ => "*v1.XTCPProxyConfig" end.
(** A factory asserts the type of the configurer again and may return nil. *)
Definition registry (P : Type) : Type := gmap string (ProxyConfigurer → option P).
Definition RegisterProxyFactory {P} (proxyConfType : string) (factory : ProxyConfigurer → option P) (r : registry P) : registry P :=
  <[proxyConfType := factory]> r.
(** The server's proxy is an object of control [k] and user [user]. *)
Definition server_NewXTCPProxy (k : nat) (user : string) (c : ProxyConfigurer) : option SProxy :=
  match c with PC_XTCP x => Some (mkSProxy k user x PhChecked) end.
Definition server_registry (k : nat) (user : string) : registry SProxy :=
  RegisterProxyFactory "*v1.XTCPProxyConfig" (server_NewXTCPProxy k user) ∅.
Definition server_NewProxy (r : registry SProxy) (c : ProxyConfigurer) : result SProxy :=
  match r !! reflect_TypeOf c with
  | None => Err "proxy type not support"
  | Some factory => match factory c with None => Err "proxy not created" | Some p => Ok p end
  end.
(** The client's proxy keeps the typed configuration. *)
Definition client_NewXTCPProxy (c : ProxyConfigurer) : option XTCPProxyConfig := match c with PC_XTCP x => Some x end.
Definition client_registry : registry XTCPProxyConfig := RegisterProxyFactory "*v1.XTCPProxyConfig" client_NewXTCPProxy ∅.
Definition client_NewProxy (r : registry XTCPProxyConfig) (c : ProxyConfigurer) : option XTCPProxyConfig :=
  r !! reflect_TypeOf c ≫= λ factory, factory c.

(** ** Theorems *)

(** Every configuration there is has a factory on both sides, and the one that makes the
    proxy it is for: [NewProxy] of the server cannot fail, the client's never returns nil,
    which [Wrapper] would call. *)
Theorem factories_total (k : nat) (user : string) (c : ProxyConfigurer) :
  server_NewProxy (server_registry k user) c = Ok (NewProxy_obj k user c)
  ∧ ∃ x, client_NewProxy client_registry c = Some x ∧ PC_XTCP x = c.
Proof.
  destruct c as [c]. unfold server_NewProxy, client_NewProxy, server_registry, client_registry, RegisterProxyFactory.
  unfold registry. cbn [reflect_TypeOf]. rewrite !lookup_insert. cbn. split; [done|]. by eexists.
Qed.
(** Nothing is made of a type that no package registered. *)
Lemma unregistered_type r c : r !! reflect_TypeOf c = None → server_NewProxy r c = Err "proxy type not support".
Proof. unfold server_NewProxy. by intros ->. Qed.

(** The status of a name is that of the wrapper under it.  There is one exactly for the names
    that are configured; it shows the configuration of that name, never the phases of a
    closed or unhealthy proxy, and a phase after "new" exactly when the last the server
    heard of the name is the request of that configuration. *)
Theorem status_tells (user name : string) (pm : Manager) (vm : vmanager) : rtc (pmstep user) ClientProxy.NewManager pm →
  (is_Some (StatusExporter (Some (pm, vm)) name) ↔ is_Some (proxies pm !! name))
  ∧ ∀ st, StatusExporter (Some (pm, vm)) name = Some st →
      ws_Name st = name ∧ cfg_name (ws_Cfg st) = name ∧ ws_Phase st ≠ ProxyPhaseClosed ∧ ws_Phase st ≠ ProxyPhaseCheckFailed
      ∧ (ws_Phase st ≠ ProxyPhaseNew →
         ∃ w, ClientProxy.start_msg w = ClientProxy.start_msg (NewWrapper user (ws_Cfg st))
           ∧ last (of_name user name (pm_sent pm)) = Some (ClientProxy.start_msg w)).
Proof.
  intros Hi%pm_reachable. unfold StatusExporter, getProxyStatus, GetProxyStatus.
  destruct (proxies pm !! name) as [i|] eqn:Hp; cbn.
  2:{ split; [split; intros [? ?]; done|done]. }
  destruct (pi_map _ _ Hi _ _ Hp) as (w & Hw & Hc & Hn). pose proof (pi_ok _ _ Hi _ _ Hw) as Hok.
  rewrite Hw. cbn. split; [split; intros _; by eexists|]. intros st [= <-]. cbn. split_and!.
  - done.
  - by rewrite (wo_name _ _ _ Hok).
  - intros Hx%(wo_closed _ _ _ Hok). congruence.
  - apply (wo_phase _ _ _ Hok).
  - intros Hx. pose proof (pi_last _ _ Hi name) as Hl. unfold last_tells in Hl. rewrite Hp in Hl. cbn in Hl.
    rewrite Hw, decide_False in Hl by done. exists w. split; [|done].
    unfold ClientProxy.start_msg. cbn. pose proof (wo_wire _ _ _ Hok) as Hwire. pose proof (wo_name _ _ _ Hok) as Hname.
    unfold cfg_name in Hname. by rewrite Hwire, <- Hname.
Qed.

(** The defaults of the options: a configuration that is given is completed, the caller's own
    connector is kept. *)
Lemma options_default `{OS} o o' : setServiceOptionsDefault o = Ok o' →
  so_ConnectorCreator o' = Some (default NewConnector (so_ConnectorCreator o)) ∧
  match so_Common o with
  | Some c => ∃ c', ClientCommonConfig_Complete c = Ok c' ∧ so_Common o' = Some c'
  | None => so_Common o' = None
  end.
Proof.
  unfold setServiceOptionsDefault. intros (common & Hc & [= <-])%result_bind_Ok. split; [done|].
  cbn [so_Common]. destruct (so_Common o) as [c|]; [|by injection Hc as <-].
  apply result_bind_Ok in Hc as (c' & Hc & [= <-]). by exists c'.
Qed.

Lemma status_tells_witness : ∃ st, StatusExporter (Some (demo_pm3, ClientVisitor.NewManager)) "a" = Some st
  ∧ ws_Phase st = ProxyPhaseWaitStart ∧ ws_Name st = "a".
Proof.
  eexists. split; [reflexivity|]. split; [reflexivity|].
  refine (proj1 (proj2 (status_tells "u" "a" demo_pm3 ClientVisitor.NewManager demo_reach) _ eq_refl)).
Defined.
