(* ===== verification/Sockets.v ===== *)
(** * Sockets: [pkg/util/net/kcp.go], [pkg/util/net/dns.go], [ConnectedUDPConn] of [pkg/util/net/udp.go]

    The listener for KCP connections as a step relation of its goroutine, the callers of
    [Accept] and [Close]; a KCP connection over a given UDP socket, where the KCP library
    and the resolver are arguments; the address of the resolver that replaces the default one. *)
From S2P Require Import Prelude GoStd.
From stdpp Require Import list.
Local Open Scope Z_scope.

(** ** The DNS server *)
Definition SetDefaultDNSAddress (dnsAddress : string) : string :=
  match SplitHostPort dnsAddress with
  | Ok _ => dnsAddress
  | Err _ => JoinHostPort dnsAddress "53"
  end.

(** ** KCP connections *)
(** What a connection is set to: stream mode, write delay, no-delay, MTU, windows, ACKs. *)
Record kcp_options := mkKcpOptions {
  ko_StreamMode : bool;
  ko_WriteDelay : bool;
  ko_NoDelay : Z * Z * Z * Z;
  ko_Mtu : Z;
  ko_WindowSize : Z * Z;
  ko_ACKNoDelay : bool;
}.
Definition options : kcp_options := mkKcpOptions true true (1, 20, 2, 1) 1350 (1024, 1024) false.

(** How the packets of a socket are written: to the given address, or, when it is connected,
    with a plain [Write] that ignores it ([ConnectedUDPConn.WriteTo]). *)
Inductive packet_conn : Type := PlainUDP | ConnectedUDPConn.
Definition WriteTo (c : packet_conn) (peer : string) (addr : string) : string :=
  match c with PlainUDP => addr | ConnectedUDPConn => peer end.
Section kcp.
(** [net.ResolveUDPAddr] and [kcp.NewConn3] with its conversation, address and socket. *)
Context {C : Type} (resolve : string → result string) (newConn : Z → string → packet_conn → result C).
Definition NewKCPConnFromUDP (connected : bool) (raddr : string) : result (C * kcp_options) :=
  resolve raddr ≫= λ udpAddr,
  newConn 1 udpAddr (if connected then ConnectedUDPConn else PlainUDP) ≫= λ c, Ok (c, options).
End kcp.

(** ** The listener *)
(** The goroutine: in [AcceptKCP], at its send, returned. *)
Inductive kphase : Type := KAccept | KSend (c : nat) | KReturned.
Record KCPListener := mkKCPListener {
  kl_open : bool;                 (* the library's listener *)
  kl_closeFlag : bool;
  kl_phase : kphase;
  kl_chClosed : nat;              (* how often [close(acceptCh)] ran *)
  kl_set : list (nat * kcp_options);
  kl_taken : list nat;            (* what [Accept] returned *)
}.
Definition ListenKcp (listen : result unit) : result KCPListener :=
  listen ≫= λ _, Ok (mkKCPListener true false KAccept 0 [] []).
(** [Accept] returns [None] for the error of the closed channel. *)
Definition Accept (l : KCPListener) : option (option nat * KCPListener) :=
  match kl_phase l with
  | KSend c => Some (Some c, mkKCPListener (kl_open l) (kl_closeFlag l) KAccept (kl_chClosed l) (kl_set l) (kl_taken l ++ [c]))
  | _ => if (0 <? Z.of_nat (kl_chClosed l)) then Some (None, l) else None
  end.
Definition Close (l : KCPListener) : KCPListener :=
  if kl_closeFlag l then l
  else mkKCPListener false true (kl_phase l) (kl_chClosed l) (kl_set l) (kl_taken l).
(** What the goroutine does with the result of [AcceptKCP]. *)
Definition accepted (r : result nat) (l : KCPListener) : KCPListener :=
  match r with
  | Ok c => mkKCPListener (kl_open l) (kl_closeFlag l) (KSend c) (kl_chClosed l) (kl_set l ++ [(c, options)]) (kl_taken l)
  | Err _ =>
      if kl_closeFlag l
      then mkKCPListener (kl_open l) (kl_closeFlag l) KReturned (S (kl_chClosed l)) (kl_set l) (kl_taken l)
      else l
  end.
(** A closed listener of the library gives errors; an open one may give anything. *)
Inductive kstep : KCPListener → KCPListener → Prop :=
| ks_accept r l : kl_phase l = KAccept → (kl_open l = false → ∃ e, r = Err e) → kstep l (accepted r l)
| ks_take r l l' : Accept l = Some (r, l') → kstep l l'
| ks_close l : kstep l (Close l).
Definition k_reachable (l : KCPListener) : Prop := ∃ l0, ListenKcp (Ok tt) = Ok l0 ∧ rtc kstep l0 l.

(** ** Lemmas: addresses *)
Lemma contains_byte_false c s : contains_byte c s = false ↔ index_byte c s = None.
Proof. unfold contains_byte. rewrite bool_decide_eq_false, <-eq_None_not_Some. done. Qed.
Lemma last_index_app_None c s t : index_byte c t = None → last_index_byte c (s +:+ String c t) = Some (String.length s).
Proof.
  intros Ht%last_index_byte_None. rewrite (last_index_byte_app c s (String c t) 0); [by rewrite Nat.add_0_r|].
  simpl. by rewrite Ht, decide_True.
Qed.
Lemma str_drop_app_plus n s t : str_drop (String.length s + n) (s +:+ t) = str_drop n t.
Proof. induction s as [|c s IH]; [done|]. cbn. apply IH. Qed.
Lemma index_byte_none_drop c n s : index_byte c s = None → index_byte c (str_drop n s) = None.
Proof.
  revert n. induction s as [|d s IH]; intros [|n]; simpl; try done. case_decide; [done|].
  destruct (index_byte c s) eqn:E; [done|]. intros _. by apply IH.
Qed.
Lemma index_byte_none_app c s t : index_byte c s = None → index_byte c t = None → index_byte c (s +:+ t) = None.
Proof. intros Hs Ht. by rewrite index_byte_app_None, Ht. Qed.

Lemma str_app_assoc a b c : (a +:+ b) +:+ c = a +:+ (b +:+ c).
Proof. induction a as [|x a IH]; [done|]. change (String x ((a +:+ b) +:+ c) = String x (a +:+ (b +:+ c))). by rewrite IH. Qed.
Lemma str_length_app a b : String.length (a +:+ b) = (String.length a + String.length b)%nat.
Proof. induction a as [|x a IH]; [done|]. change (S (String.length (a +:+ b)) = S (String.length a + String.length b)). by rewrite IH. Qed.

(** [net.JoinHostPort] and [net.SplitHostPort] are inverse on hosts and ports without brackets. *)
Definition plain_host (h : string) : Prop := index_byte lbracket h = None ∧ index_byte rbracket h = None.
Lemma split_join_plain h p : plain_host h → index_byte colon h = None →
  index_byte colon p = None → plain_host p → SplitHostPort (h +:+ String colon p) = Ok (h, p).
Proof.
  intros [Hl Hr] Hc Hpc [Hpl Hpr]. unfold SplitHostPort. rewrite (last_index_app_None colon h p Hpc).
  assert (bool_decide (str_at 0 (h +:+ String colon p) = Some lbracket) = false) as ->.
  { apply bool_decide_eq_false. destruct h as [|d h]; [done|]. change (Some d ≠ Some lbracket). intros [= ->].
    simpl in Hl. discriminate. }
  rewrite str_take_app, (proj2 (contains_byte_false colon h) Hc).
  rewrite <- (Nat.add_1_r (String.length h)), str_drop_app_plus. change (str_drop 0 (h +:+ String colon p)) with (h +:+ String colon p).
  rewrite (proj2 (contains_byte_false lbracket _)) by (apply index_byte_none_app; [done|]; simpl; by rewrite Hpl).
  rewrite (proj2 (contains_byte_false rbracket _)) by (apply index_byte_none_app; [done|]; simpl; by rewrite Hpr).
  done.
Qed.
Lemma split_join_bracket h p : plain_host h → index_byte colon p = None → plain_host p →
  SplitHostPort ("[" +:+ h +:+ "]:" +:+ p) = Ok (h, p).
Proof.
  intros [Hl Hr] Hpc [Hpl Hpr]. set (a := String lbracket (h +:+ "]")).
  assert ("[" +:+ h +:+ "]:" +:+ p = a +:+ String colon p) as ->.
  { change (String lbracket (h +:+ String rbracket (String colon p)) = String lbracket ((h +:+ "]") +:+ String colon p)).
    by rewrite str_app_assoc. }
  assert (String.length a = S (S (String.length h))) as Ha by (unfold a; cbn; rewrite str_length_app; simpl; lia).
  assert (a +:+ String colon p = String lbracket (h +:+ String rbracket (String colon p))) as Hfull.
  { unfold a. change (String lbracket ((h +:+ "]") +:+ String colon p) = String lbracket (h +:+ String rbracket (String colon p))).
    by rewrite str_app_assoc. }
  assert (str_drop (S (S (String.length h))) (a +:+ String colon p) = String colon p) as Hd by (by rewrite <- Ha, str_drop_app).
  unfold SplitHostPort. rewrite (last_index_app_None colon a p Hpc), Ha.
  rewrite <- (Nat.add_1_r (S (S _))), <- Ha, str_drop_app_plus. change (str_drop 1 (String colon p)) with p.
  assert (index_byte rbracket (a +:+ String colon p) = Some (S (String.length h))) as ->.
  { rewrite Hfull. simpl. rewrite index_byte_app_None, index_byte_head by done. simpl. by rewrite Nat.add_0_r. }
  rewrite bool_decide_eq_true_2 by (by rewrite Hfull).
  rewrite bool_decide_eq_false_2 by (rewrite str_length_app, Ha; simpl; lia).
  rewrite bool_decide_eq_true_2 by done.
  rewrite Hd, Hfull. cbn [str_drop]. replace (S (String.length h) - 1)%nat with (String.length h) by lia.
  rewrite str_take_app.
  rewrite (proj2 (contains_byte_false lbracket _)) by (apply index_byte_none_app; [done|]; by simpl; rewrite Hpl).
  rewrite (proj2 (contains_byte_false rbracket _)); [done|]. simpl. by rewrite Hpr.
Qed.
Lemma split_of_join h p : plain_host h → index_byte colon p = None → plain_host p → SplitHostPort (JoinHostPort h p) = Ok (h, p).
Proof.
  intros Hh Hc Hp. unfold JoinHostPort. destruct (contains_byte colon h) eqn:E; [by apply split_join_bracket|].
  apply contains_byte_false in E. by apply (split_join_plain h p).
Qed.

(** ** Theorems *)

(** The resolver's address always has a port: the one that was given, or 53 for a host
    without brackets. *)
Theorem dns_address_splits (a : string) :
  match SplitHostPort a with
  | Ok hp => SplitHostPort (SetDefaultDNSAddress a) = Ok hp
  | Err _ => plain_host a → SplitHostPort (SetDefaultDNSAddress a) = Ok (a, "53")
  end.
Proof.
  unfold SetDefaultDNSAddress. destruct (SplitHostPort a) as [hp|e] eqn:E; [done|].
  intros Ha. by apply split_of_join.
Qed.
(** An IPv6 address in brackets and without a port becomes one that cannot be dialed. *)
Lemma bracketed_dns_broken : SetDefaultDNSAddress "[::1]" = "[[::1]]:53"
  ∧ ∃ e, SplitHostPort (SetDefaultDNSAddress "[::1]") = Err e.
Proof. split; [reflexivity|]. eexists. reflexivity. Qed.

(** The listener's state. *)
Record kinv (l : KCPListener) : Prop := mkKinv {
  ki_set : kl_set l = ((., options) <$> kl_taken l ++ match kl_phase l with KSend c => [c] | _ => [] end);
  ki_closed : kl_chClosed l = match kl_phase l with KReturned => 1%nat | _ => 0%nat end;
  ki_returned : kl_phase l = KReturned → kl_closeFlag l = true;
  ki_flag : kl_open l = negb (kl_closeFlag l);
}.
Lemma kstep_inv l l' : kstep l l' → kinv l → kinv l'.
Proof.
  intros Hs [H1 H2 H3 H4]. destruct Hs as [r l Hp He|r l l' Ha|l].
  - rewrite Hp in *. destruct r as [c|e]; cbn.
    + split; cbn; [|done..]. rewrite H1, app_nil_r, fmap_app. done.
    + destruct (kl_closeFlag l) eqn:Hc; [|by split; rewrite ?Hp, ?Hc].
      split; cbn; [done|by rewrite H2|done|done].
  - unfold Accept in Ha. destruct (kl_phase l) as [|c|] eqn:Hp.
    + rewrite H2 in Ha. done.
    + injection Ha as <- <-. split; cbn; [by rewrite H1, app_nil_r|done..].
    + rewrite H2 in Ha. simpl in Ha. injection Ha as <- <-. split; rewrite ?Hp; auto.
  - unfold Close. destruct (kl_closeFlag l) eqn:Hc; [by split; rewrite ?Hc|].
    split; cbn; [done|done|done|done].
Qed.
Lemma listener_inv l : k_reachable l → kinv l.
Proof. intros (l0 & [= <-] & Hr). assert (Hi : kinv (mkKCPListener true false KAccept 0 [] [])) by (by split).
  induction Hr as [|x y z Hs _ IH]; [done|]. by apply IH, (kstep_inv _ _ Hs). Qed.

(** Every connection is set up before it is handed out, in the order it came and to one caller;
    the channel is closed once, when the goroutine returns, which it does only after [Close]. *)
Theorem kcp_listener_exact (l : KCPListener) : k_reachable l →
  kl_taken l `prefix_of` (kl_set l).*1 ∧ Forall (λ x, x.2 = options) (kl_set l)
  ∧ (kl_chClosed l ≤ 1)%nat ∧ (kl_chClosed l = 1%nat ↔ kl_phase l = KReturned) ∧ (kl_phase l = KReturned → kl_open l = false).
Proof.
  intros [H1 H2 H3 H4]%listener_inv. split_and!.
  - rewrite H1, <- list_fmap_compose, (list_fmap_ext _ id), list_fmap_id by done. by apply prefix_app_r.
  - rewrite H1. apply Forall_fmap, Forall_true. done.
  - rewrite H2. destruct (kl_phase l); lia.
  - rewrite H2. by destruct (kl_phase l).
  - intros Hp. by rewrite H4, H3.
Qed.

(** After [Close] the goroutine can return at once when it is in [AcceptKCP]; at its send it
    waits for a caller of [Accept], and without one it stays there with its connection. *)
Theorem kcp_close (l : KCPListener) : k_reachable l → kl_closeFlag l = true →
  (kl_phase l = KAccept → ∃ l', kstep l l' ∧ kl_phase l' = KReturned)
  ∧ (∀ c, kl_phase l = KSend c → ∀ l', kstep l l' → l' = l ∨ Accept l = Some (Some c, l')).
Proof.
  intros [H1 H2 H3 H4]%listener_inv Hc. split.
  - intros Hp. exists (accepted (Err "closed") l). split; [apply ks_accept; eauto|]. cbn. by rewrite Hc.
  - intros c Hp l' Hs. destruct Hs as [r l Hp' He|r l l' Ha|l]; [congruence| |].
    + right. unfold Accept in *. rewrite Hp in *. by injection Ha as <- <-.
    + left. unfold Close. by rewrite Hc.
Qed.
(** While its listener is open the goroutine ignores every error and calls [AcceptKCP] again. *)
Lemma kcp_errors_spin e l : kl_phase l = KAccept → kl_closeFlag l = false → accepted (Err e) l = l.
Proof. intros _ Hc. cbn. by rewrite Hc. Qed.

(** The connection that a hole gets: with the options of the listener, over a socket whose
    packets go to its peer whatever address they name. *)
Lemma kcp_from_udp {C} resolve newConn raddr (c : C) o : NewKCPConnFromUDP resolve newConn true raddr = Ok (c, o) →
  o = options ∧ ∃ a, resolve raddr = Ok a ∧ newConn 1 a ConnectedUDPConn = Ok c ∧ ∀ peer addr, WriteTo ConnectedUDPConn peer addr = peer.
Proof.
  unfold NewKCPConnFromUDP. intros (a & Ha & (c' & Hc & [= <- <-])%result_bind_Ok)%result_bind_Ok. split; [done|]. by exists a.
Qed.

(** ** Witnesses *)
Definition demo_kcp : KCPListener := mkKCPListener false true (KSend 7) 0 [(3%nat, options); (7%nat, options)] [3%nat].
Lemma demo_kcp_reachable : k_reachable demo_kcp.
Proof.
  eexists. split; [reflexivity|].
  eapply rtc_l; [by apply (ks_accept (Ok 3%nat))|]. eapply rtc_l; [by eapply ks_take|].
  eapply rtc_l; [by apply (ks_accept (Ok 7%nat))|]. eapply rtc_l; [apply ks_close|]. apply rtc_refl.
Qed.
Lemma kcp_listener_exact_witness : kl_taken demo_kcp `prefix_of` (kl_set demo_kcp).*1.
Proof. apply (kcp_listener_exact demo_kcp demo_kcp_reachable). Defined.
Lemma kcp_close_witness : ∀ l', kstep demo_kcp l' → l' = demo_kcp ∨ Accept demo_kcp = Some (Some 7%nat, l').
Proof. exact (proj2 (kcp_close demo_kcp demo_kcp_reachable eq_refl) 7%nat eq_refl). Defined.
