(* ===== verification/Quantity.v ===== *)
(** * Quantities with fractions: [BandwidthQuantity] of [pkg/config/types/types.go], [RandomSleep] of [pkg/util/util/util.go]

    A bandwidth is a text such as [1.5MB] and the bytes it means.  The [float64] arithmetic is
    that of the Standard Library's specification of IEEE 754; [strconv.ParseFloat] is its
    grammar, with signs, dots, exponents, hexadecimal digits and underscores, and the
    correctly rounded value of the text.  What a conversion of a value outside of [int64] gives
    is left open by the language: the argument [unspecified]. *)
From S2P Require Import Prelude GoStd Json JsonCodec MsgJson.
From Stdlib Require Import SpecFloat.
From stdpp Require Import list strings.
Local Open Scope Z_scope.

(** ** [float64] *)
Notation float64 := spec_float.
Definition prec : Z := 53.
Definition emax : Z := 1024.
Definition float_mul (x y : float64) : float64 := SFmul prec emax x y.
(** The nearest value of the integer [m], and of [m * 2^e]. *)
Definition float_of_Z (m : Z) : float64 := binary_normalize prec emax m 0 false.
Definition scaled2 (neg : bool) (m e : Z) : float64 :=
  match m with Zpos m => binary_round prec emax neg m e | _ => S754_zero neg end.
(** The nearest value of [m / d]. *)
Definition quotient (neg : bool) (m d : positive) : float64 :=
  let '(q, e, l) := SFdiv_core_binary prec emax (Zpos m) 0 (Zpos d) 0 in binary_round_aux prec emax neg q e l.
(** The nearest value of [m * 10^e]; beyond the range of the type nothing is computed. *)
Definition scaled10 (neg : bool) (m e dp : Z) : float64 :=
  match m with
  | Zpos p =>
      if 310 <? dp then S754_infinity neg
      else if dp <? -330 then S754_zero neg
      else if 0 <=? e then scaled2 neg (m * 10 ^ e) 0
      else quotient neg p (Z.to_pos (10 ^ (- e)))
  | _ => S754_zero neg
  end.
Definition is_inf (x : float64) : bool := match x with S754_infinity _ => true | _ => false end.

(** [int64(x)]: towards zero. *)
Definition trunc (x : float64) : option Z :=
  match x with
  | S754_zero _ => Some 0
  | S754_finite s m e => Some (cond_Zopp s (if 0 <=? e then Zpos m * 2 ^ e else Zpos m / 2 ^ (- e)))
  | _ => None
  end.
Section int64.
Variable unspecified : float64 → Z.
Definition int64_of (x : float64) : Z :=
  match trunc x with
  | Some z => if (MinInt64 <=? z) && (z <=? MaxInt64) then z else unspecified x
  | None => unspecified x
  end.

(** ** [strconv.ParseFloat] *)
Definition lower (c : Z) : Z := Z.lor c 32.
(** Letters only, for the special values. *)
Definition to_lower (c : Z) : Z := if (65 <=? c) && (c <=? 90) then c + 32 else c.
Definition is_digit (c : Z) : bool := (48 <=? c) && (c <=? 57).
Definition is_hex (c : Z) : bool := (97 <=? lower c) && (lower c <=? 102).
Definition codes (s : string) : list Z := Z_of_byte <$> bytes_of s.

(** The first loop of [readFloat]: [rf_mant] is the integer of all digits after leading zeros, [rf_nd]
    their number, [rf_dp] the place of the point. *)
Record rfloat := mkRf {
  rf_sawdot : bool; rf_sawdigits : bool; rf_under : bool; rf_mant : Z; rf_nd : Z; rf_dp : Z;
}.
Definition digit_of (hex : bool) (c : Z) : option Z :=
  if is_digit c then Some (c - 48) else if hex && is_hex c then Some (lower c - 87) else None.
Fixpoint mant_loop (hex : bool) (s : list Z) (x : rfloat) : rfloat * list Z :=
  match s with
  | [] => (x, [])
  | c :: r =>
      let 'mkRf dot dig und m nd dp := x in
      if c =? 95 then mant_loop hex r (mkRf dot dig true m nd dp)
      else if c =? 46 then if dot then (x, s) else mant_loop hex r (mkRf true dig und m nd nd)
      else match digit_of hex c with
           | None => (x, s)
           | Some d =>
               if (c =? 48) && (nd =? 0) then mant_loop hex r (mkRf dot true und m nd (dp - 1))
               else mant_loop hex r (mkRf dot true und (m * (if hex then 16 else 10) + d) (nd + 1) dp)
           end
  end.
(** The digits of the exponent, which are no longer read from 10000 on. *)
Fixpoint exp_loop (s : list Z) (e : Z) (und : bool) : Z * bool * list Z :=
  match s with
  | [] => (e, und, [])
  | c :: r =>
      if is_digit c then exp_loop r (if e <? 10000 then e * 10 + (c - 48) else e) und
      else if c =? 95 then exp_loop r e true
      else (e, und, s)
  end.
(** [underscoreOK]: the previous character is a digit, an underscore, or something else. *)
Inductive prev : Type := PDigit | PUnder | POther.
Fixpoint underscore_loop (hex : bool) (s : list Z) (i : prev) : bool :=
  match s with
  | [] => match i with PUnder => false | _ => true end
  | c :: r =>
      if is_digit c || (hex && is_hex c) then underscore_loop hex r PDigit
      else if c =? 95 then match i with PDigit => underscore_loop hex r PUnder | _ => false end
      else match i with PUnder => false | _ => underscore_loop hex r POther end
  end.
Definition cut_sign (s : list Z) : bool * list Z :=
  match s with 45 :: r => (true, r) | 43 :: r => (false, r) | _ => (false, s) end.
Definition underscoreOK (s : list Z) : bool :=
  match (cut_sign s).2 with
  | 48 :: c :: r =>
      if (lower c =? 98) || (lower c =? 111) || (lower c =? 120)
      then underscore_loop (lower c =? 120) r PDigit else underscore_loop false (48 :: c :: r) POther
  | r => underscore_loop false r POther
  end.
Definition special (s : list Z) : option float64 :=
  let '(neg, r) := cut_sign s in
  if decide (to_lower <$> r = codes "inf" ∨ to_lower <$> r = codes "infinity") then Some (S754_infinity neg)
  else if decide (to_lower <$> s = codes "nan") then Some S754_nan
  else None.
(** The exponent, when there is one: the place of the point, whether an underscore was seen, and
    the rest. *)
Definition read_exp (hex : bool) (dp : Z) (und : bool) (r : list Z) : option (Z * bool * list Z) :=
  match r with
  | c :: r' =>
      if lower c =? (if hex then 112 else 101) then
        let '(esign, r') := match r' with 43 :: r' => (1, r') | 45 :: r' => (-1, r') | _ => (1, r') end in
        match r' with
        | d :: _ => if is_digit d then let '(e, und, r') := exp_loop r' 0 und in Some (dp + e * esign, und, r') else None
        | [] => None
        end
      else if hex then None else Some (dp, und, r)
  | [] => if hex then None else Some (dp, und, [])
  end.
Definition cut_hex (s : list Z) : bool * list Z :=
  match s with 48 :: c :: x :: r => if lower c =? 120 then (true, x :: r) else (false, s) | _ => (false, s) end.
(** The sign, whether it is hexadecimal, the integer of the digits, its exponent and the place of
    the point: of the whole text, or nothing. *)
Definition readFloat (s : list Z) : option (bool * bool * Z * Z * Z) :=
  let '(neg, r) := cut_sign s in
  let '(hex, r) := cut_hex r in
  let '(x, r) := mant_loop hex r (mkRf false false false 0 0 0) in
  if negb (rf_sawdigits x) then None
  else
    let scale := if hex then 4 else 1 in
    match read_exp hex ((if rf_sawdot x then rf_dp x else rf_nd x) * scale) (rf_under x) r with
    | Some (dp, und, []) =>
        if und && negb (underscoreOK s) then None
        else Some (neg, hex, rf_mant x, dp - rf_nd x * scale, dp)
    | _ => None
    end.
Definition float_value (neg hex : bool) (m e dp : Z) : float64 :=
  if hex then scaled2 neg m e else scaled10 neg m e dp.
Definition ParseFloat (s : string) : result float64 :=
  match special (codes s) with
  | Some f => Ok f
  | None =>
      match readFloat (codes s) with
      | None => Err (num_error "ParseFloat" s ErrSyntax)
      | Some (neg, hex, m, e, dp) =>
          let f := float_value neg hex m e dp in
          if is_inf f then Err (num_error "ParseFloat" s ErrRange) else Ok f
      end
  end.

(** ** [BandwidthQuantity] *)
Definition MB : Z := 1024 * 1024.
Definition KB : Z := 1024.
Record BandwidthQuantity := mkBandwidth { bq_s : string; bq_i : Z }.
Definition zero_quantity : BandwidthQuantity := mkBandwidth "" 0.
(** [strings.CutSuffix]. *)
Definition cut_suffix (suffix s : string) : option string :=
  let n := (String.length s - String.length suffix)%nat in
  if decide (String.length suffix ≤ String.length s ∧ str_drop n s = suffix)%nat then Some (str_take n s) else None.
Definition UnmarshalString (str : string) (q : BandwidthQuantity) : result BandwidthQuantity :=
  let s := TrimSpace str in
  if decide (s = "") then Ok q
  else
    match cut_suffix "MB" s, cut_suffix "KB" s with
    | Some fstr, _ => Ok (MB, fstr)
    | None, Some fstr => Ok (KB, fstr)
    | None, None => Err "unit not support"
    end ≫= λ '(base, fstr),
    ParseFloat fstr ≫= λ f, Ok (mkBandwidth s (int64_of (float_mul f (float_of_Z base)))).
Definition NewBandwidthQuantity (s : string) : result BandwidthQuantity := UnmarshalString s zero_quantity.
(** [None] is a nil pointer. *)
Definition Equal (q u : option BandwidthQuantity) : bool :=
  match q, u with
  | None, None => true
  | Some q, Some u => bq_i q =? bq_i u
  | _, _ => false
  end.
(** [json_text] gives the text of an error of the package. *)
Definition UnmarshalJSON (json_text : list byte → json_error → string) (b : list byte) (q : BandwidthQuantity)
    : result BandwidthQuantity :=
  if decide (b = bytes_of "null") then Ok q
  else match json_Unmarshal (c_string "string") b "" with
       | inl str => UnmarshalString str q
       | inr e => Err (json_text b e)
       end.
Definition MarshalJSON (q : BandwidthQuantity) : list byte := quote_char :: bytes_of (bq_s q) ++ [quote_char].

(** ** [RandomSleep]: how long it sleeps; [rand n] is [mathrand.Int64N n], which panics unless
    [n] is positive *)
Definition sleep_time (duration n : Z) : Z := Z.quot (wrap64 (duration * n)) 1000.
Definition RandomSleep (duration : Z) (minRatio maxRatio : float64) (rand : Z → Z) : option Z :=
  let minValue := int64_of (float_mul minRatio (float_of_Z 1000)) in
  let maxValue := int64_of (float_mul maxRatio (float_of_Z 1000)) in
  if maxValue <=? minValue then Some (sleep_time duration minValue)
  else
    let range := wrap64 (maxValue - minValue) in
    if range <=? 0 then None else Some (sleep_time duration (wrap64 (rand range + minValue))).
End int64.

(** [CanonicalAddr]. *)
Definition CanonicalAddr (host : string) (port : Z) : string :=
  if decide (port = 80 ∨ port = 443) then host else JoinHostPort host (Itoa port).

Definition demo_unspecified (_ : float64) : Z := MinInt64.
Example quantity_fraction : NewBandwidthQuantity demo_unspecified " 1.5MB" = Ok (mkBandwidth "1.5MB" 1572864).
Proof. vm_compute. reflexivity. Qed.
Example quantity_tenth : NewBandwidthQuantity demo_unspecified "0.1KB" = Ok (mkBandwidth "0.1KB" 102).
Proof. vm_compute. reflexivity. Qed.
Example quantity_exp : NewBandwidthQuantity demo_unspecified "1_0e-1_0MB" = Ok (mkBandwidth "1_0e-1_0MB" 0).
Proof. vm_compute. reflexivity. Qed.
Example quantity_hex : NewBandwidthQuantity demo_unspecified "0x1.8p1KB" = Ok (mkBandwidth "0x1.8p1KB" 3072).
Proof. vm_compute. reflexivity. Qed.
Example quantity_range : NewBandwidthQuantity demo_unspecified "1e400KB" =
  Err (num_error "ParseFloat" "1e400" ErrRange).
Proof. vm_compute. reflexivity. Qed.
Example quantity_unit : NewBandwidthQuantity demo_unspecified "10GB" = Err "unit not support".
Proof. vm_compute. reflexivity. Qed.
Example quantity_third : ParseFloat "0.3333333333333333333333" = Ok (S754_finite false 6004799503160661 (-54)).
Proof. vm_compute. reflexivity. Qed.

(** ** Lemmas: exact arithmetic *)
Lemma digits2_log2 p : Zpos (digits2_pos p) = Z.log2 (Zpos p) + 1.
Proof.
  assert (digits2_pos p = Pos.size p) as -> by (induction p as [p IH|p IH|]; simpl; by rewrite ?IH).
  destruct p; simpl; rewrite ?Pos2Z.inj_succ; lia.
Qed.
Lemma digits2_shift p q k : 0 ≤ k → Zpos q = Zpos p * 2 ^ k → Zpos (digits2_pos q) = Zpos (digits2_pos p) + k.
Proof. intros Hk Hq. rewrite !digits2_log2, Hq, Z.log2_mul_pow2 by lia. lia. Qed.
Lemma digits2_bound p : 2 ^ (Zpos (digits2_pos p) - 1) ≤ Zpos p < 2 ^ Zpos (digits2_pos p).
Proof. rewrite digits2_log2. pose proof (Z.log2_spec (Zpos p)). replace (Z.log2 (Z.pos p) + 1 - 1) with (Z.log2 (Zpos p)) by lia. lia. Qed.

Lemma shr_1_double m : 0 ≤ m → shr_1 {| shr_m := m * 2; shr_r := false; shr_s := false |} = {| shr_m := m; shr_r := false; shr_s := false |}.
Proof. intros Hm. destruct m as [|p|p]; [done| |lia]. rewrite Z.mul_comm. done. Qed.
(** Shifting right loses nothing when the low bits are zero. *)
Lemma shr_exact p m : 0 ≤ m →
  SpecFloat.iter_pos shr_1 p {| shr_m := m * 2 ^ Zpos p; shr_r := false; shr_s := false |} = {| shr_m := m; shr_r := false; shr_s := false |}.
Proof.
  revert m. induction p as [p IH|p IH|]; intros m Hm; cbn [SpecFloat.iter_pos].
  - replace (m * 2 ^ Zpos p~1) with ((m * 2 ^ Zpos p * 2 ^ Zpos p) * 2).
    2:{ replace (Zpos p~1) with (Zpos p + Zpos p + 1) by lia. rewrite !Z.pow_add_r, Z.pow_1_r by lia. ring. }
    rewrite shr_1_double by lia. rewrite (IH (m * 2 ^ Zpos p)) by lia. by apply IH.
  - replace (m * 2 ^ Zpos p~0) with (m * 2 ^ Zpos p * 2 ^ Zpos p).
    2:{ replace (Zpos p~0) with (Zpos p + Zpos p) by lia. rewrite Z.pow_add_r by lia. ring. }
    rewrite (IH (m * 2 ^ Zpos p)) by lia. by apply IH.
  - rewrite Z.pow_1_r. by apply shr_1_double.
Qed.
Lemma fexp_normal d e : emin prec emax ≤ d + e - prec → fexp prec emax (d + e) - e = d - prec.
Proof. unfold fexp. intros. rewrite Z.max_l by lia. lia. Qed.
(** Rounding a number that has at most 53 digits, or only zeros below them, changes nothing. *)
Lemma round_exact s m m' e k : 0 ≤ k → Zpos m' = Zpos m * 2 ^ k → Zpos (digits2_pos m) = prec →
  emin prec emax ≤ e + k → e + k ≤ emax - prec →
  binary_round_aux prec emax s (Zpos m') e loc_Exact = S754_finite s m (e + k).
Proof.
  intros Hk Hm Hd Hlo Hhi. pose proof (digits2_shift m m' k Hk Hm) as Hd'.
  unfold binary_round_aux, shr_fexp. cbn [Zdigits2 shr_record_of_loc]. rewrite fexp_normal by lia.
  rewrite Hd', Hd, Hm. replace (prec + k - prec) with k by lia.
  assert (shr {| shr_m := Zpos m * 2 ^ k; shr_r := false; shr_s := false |} e k
    = ({| shr_m := Zpos m; shr_r := false; shr_s := false |}, e + k)) as ->.
  { destruct k as [|k|k]; [by rewrite Z.mul_1_r, Z.add_0_r| |lia]. unfold shr. by rewrite shr_exact. }
  cbn [shr_m loc_of_shr_record round_nearest_even Zdigits2]. rewrite fexp_normal by lia. rewrite Hd, Z.sub_diag.
  cbn [shr shr_m]. by rewrite (proj2 (Z.leb_le _ _)).
Qed.
Lemma iter_xO m d : Zpos (Pos.iter xO m d) = Zpos m * 2 ^ Zpos d.
Proof.
  revert m. induction d as [|d IH] using Pos.peano_ind; intros m; [simpl; lia|].
  rewrite Pos.iter_succ, Pos2Z.inj_succ, Z.pow_succ_r by lia. rewrite Pos2Z.inj_xO, IH. lia.
Qed.
(** An integer below [2^53] is a value of the type, with 53 digits. *)
Lemma scaled2_int p : Zpos p < 2 ^ prec → ∃ m, scaled2 false (Zpos p) 0 = S754_finite false m (Zpos (digits2_pos p) - prec)
  ∧ Zpos (digits2_pos m) = prec ∧ Zpos m = Zpos p * 2 ^ (prec - Zpos (digits2_pos p)).
Proof.
  intros Hp. pose proof (digits2_bound p) as Hb. set (d := Zpos (digits2_pos p)) in *.
  assert (1 ≤ d) by (unfold d; lia).
  assert (Hd : d ≤ prec) by (destruct (Z.le_gt_cases d prec) as [|Hgt]; [done|]; assert (2 ^ prec ≤ 2 ^ (d - 1)) by (apply Z.pow_le_mono_r; lia); lia).
  unfold scaled2, binary_round. rewrite Z.add_0_r. fold d.
  assert (fexp prec emax d = d - prec) as -> by (unfold fexp, emin; rewrite Z.max_l; unfold prec, emax in *; lia).
  unfold shl_align. rewrite Z.sub_0_r. assert (∃ m, (match d - prec with Zneg q => (Pos.iter xO p q, d - prec) | _ => (p, 0) end) = (m, d - prec)
    ∧ Zpos m = Zpos p * 2 ^ (prec - d)) as (m & -> & Hm).
  { destruct (d - prec) as [|q|q] eqn:E; [|lia|].
    - exists p. split; [done|]. replace (prec - d) with 0 by lia. lia.
    - exists (Pos.iter xO p q). split; [done|]. rewrite iter_xO. do 2 f_equal. lia. }
  assert (Hdm : Zpos (digits2_pos m) = prec) by (rewrite (digits2_shift p m (prec - d)) by (lia || done); lia).
  exists m. split; [|done].
  rewrite (round_exact false m m (d - prec) 0); rewrite ?Z.add_0_r, ?Z.mul_1_r; try done; unfold emin, prec, emax in *; lia.
Qed.
(** A unit is a power of two; multiplying by it is exact. *)
Lemma mul_unit m e k u : float_of_Z u = S754_finite false (2 ^ 52) (k - 52) → Zpos (digits2_pos m) = prec →
  emin prec emax ≤ e + k → e + k ≤ emax - prec →
  float_mul (S754_finite false m e) (float_of_Z u) = S754_finite false m (e + k).
Proof.
  intros -> Hm H1 H2. unfold float_mul, SFmul. cbn [xorb].
  rewrite (round_exact false m (m * 2 ^ 52) (e + (k - 52)) 52); [f_equal; lia|lia| |done|lia|lia].
  rewrite Pos2Z.inj_mul. done.
Qed.
Lemma int64_scaled unspecified p u k : float_of_Z u = S754_finite false (2 ^ 52) (k - 52) → u = 2 ^ k → 0 ≤ k ≤ 100 →
  Zpos p < 2 ^ prec → Zpos p * u ≤ MaxInt64 →
  int64_of unspecified (float_mul (scaled2 false (Zpos p) 0) (float_of_Z u)) = Zpos p * u.
Proof.
  intros Hu Huk Hk Hp Hmax. destruct (scaled2_int p Hp) as (m & -> & Hd & Hm). pose proof (digits2_bound p) as Hb.
  set (d := Zpos (digits2_pos p)) in *. assert (1 ≤ d) by (unfold d; lia).
  assert (d ≤ prec) by (destruct (Z.le_gt_cases d prec) as [|Hgt]; [done|]; assert (2 ^ prec ≤ 2 ^ (d - 1)) by (apply Z.pow_le_mono_r; lia); lia).
  rewrite (mul_unit m (d - prec) k u Hu Hd) by (unfold emin, prec, emax in *; lia).
  unfold int64_of. cbn [trunc cond_Zopp].
  assert ((if 0 <=? d - prec + k then Zpos m * 2 ^ (d - prec + k) else Zpos m / 2 ^ (- (d - prec + k))) = Zpos p * u) as ->.
  { rewrite Hm, Huk. destruct (Z.leb_spec 0 (d - prec + k)).
    - rewrite <-Z.mul_assoc, <-Z.pow_add_r by lia. do 2 f_equal. lia.
    - replace (prec - d) with (k + - (d - prec + k)) by lia. rewrite Z.pow_add_r, Z.mul_assoc by lia.
      apply Z.div_mul. apply Z.pow_nonzero; lia. }
  rewrite (proj2 (Z.leb_le _ _)), (proj2 (Z.leb_le _ _)); [done|done|]. unfold MinInt64. lia.
Qed.

(** ** Lemmas: whole numbers *)
Lemma code_digit c d : digit_val c = Some d → Z_of_byte (Ascii.byte_of_ascii c) = d + 48 ∧ 0 ≤ d ≤ 9.
Proof.
  unfold digit_val. intros H. case_bool_decide as Hr; [|done]. injection H as <-.
  assert (Z_of_byte (Ascii.byte_of_ascii c) = Z.of_nat (Ascii.nat_of_ascii c)) as ->; [|lia].
  clear. by destruct c as [[] [] [] [] [] [] [] []].
Qed.
Lemma codes_cons c s : codes (String c s) = Z_of_byte (Ascii.byte_of_ascii c) :: codes s.
Proof. unfold codes. by rewrite bytes_of_cons. Qed.
Lemma codes_app s t : codes (s +:+ t) = codes s ++ codes t.
Proof. unfold codes. by rewrite bytes_of_app, fmap_app. Qed.
Lemma uint_digits s acc n : parse_uint_loop acc s = inl n → Forall (λ c, 48 ≤ c ≤ 57) (codes s).
Proof.
  revert acc. induction s as [|c s IH]; intros acc; [constructor|]. simpl. destruct (digit_val c) as [d|] eqn:Hd; [|done].
  case_bool_decide; [done|]. intros Hn. rewrite codes_cons. apply code_digit in Hd as [-> ?]. constructor; [lia|eauto].
Qed.
(** The digits of a whole number are all its mantissa. *)
Lemma mant_loop_digits s acc n und nd : parse_uint_loop acc s = inl n → 0 ≤ nd → (nd = 0 → acc = 0) → (0 < nd → 10 ^ (nd - 1) ≤ acc) →
  ∀ dig dp, ∃ nd' dp', mant_loop false (codes s) (mkRf false dig und acc nd dp) =
      (mkRf false (dig || negb (bool_decide (s = "")))  und n nd' dp', [])
    ∧ 0 ≤ nd' ∧ (0 < nd' → 10 ^ (nd' - 1) ≤ n).
Proof.
  revert acc nd. induction s as [|c s IH]; intros acc nd Hn Hnd H0 H1 dig dp.
  { simpl in Hn. injection Hn as ->. exists nd, dp. split; [by rewrite orb_false_r|done]. }
  simpl in Hn. destruct (digit_val c) as [d|] eqn:Hd; [|done]. case_bool_decide; [done|].
  rewrite codes_cons. apply code_digit in Hd as [-> Hd]. cbn [mant_loop].
  rewrite (proj2 (Z.eqb_neq _ _)), (proj2 (Z.eqb_neq _ _)) by lia.
  unfold digit_of, is_digit. rewrite (proj2 (Z.leb_le _ _)), (proj2 (Z.leb_le _ _)) by lia. cbn [andb].
  replace (d + 48 - 48) with d by lia. rewrite bool_decide_false, orb_true_r by done.
  destruct (Z.eqb_spec (d + 48) 48), (Z.eqb_spec nd 0); cbn [andb].
  - subst nd. rewrite (H0 eq_refl) in *. assert (d = 0) as -> by lia.
    destruct (IH 0 0 Hn ltac:(lia) ltac:(lia) ltac:(lia) true (dp - 1)) as (nd' & dp' & -> & Hb). by exists nd', dp'.
  - destruct (IH _ (nd + 1) Hn ltac:(lia) ltac:(lia) ltac:(intros _; replace (nd + 1 - 1) with (Z.succ (nd - 1)) by lia; rewrite Z.pow_succ_r; lia) true dp)
      as (nd' & dp' & -> & Hb). by exists nd', dp'.
  - destruct (IH _ (nd + 1) Hn ltac:(lia) ltac:(lia) ltac:(intros _; subst nd; simpl; lia) true dp) as (nd' & dp' & -> & Hb). by exists nd', dp'.
  - destruct (IH _ (nd + 1) Hn ltac:(lia) ltac:(lia) ltac:(intros _; replace (nd + 1 - 1) with (Z.succ (nd - 1)) by lia; rewrite Z.pow_succ_r; lia) true dp)
      as (nd' & dp' & -> & Hb). by exists nd', dp'.
Qed.
(** A text of digits is no special value, and has no sign and no prefix. *)
Lemma digits_plain l : Forall (λ c, 48 ≤ c ≤ 57) l → l ≠ [] → cut_sign l = (false, l) ∧ cut_hex l = (false, l) ∧ special l = None.
Proof.
  intros Hl Hne. destruct l as [|c l]; [done|]. apply Forall_cons in Hl as [Hc Hl].
  assert (Hs : cut_sign (c :: l) = (false, c :: l)).
  { unfold cut_sign. repeat case_match; try done; subst; lia. }
  split_and!; [done| |].
  - unfold cut_hex. destruct (Z.eq_dec c 48) as [->|Hne0]; [|repeat case_match; try done; subst; lia].
    destruct l as [|c2 [|x r]]; [done..|]. apply Forall_cons in Hl as [Hc2 _]. destruct (Z.eqb_spec (lower c2) 120) as [He|]; [|done].
    exfalso. assert (c2 ∈ seqZ 48 10) as Hin by (apply elem_of_seqZ; lia).
    revert He. unfold lower. repeat (apply elem_of_cons in Hin as [->|Hin]; [done|]). by apply elem_of_nil in Hin.
  - unfold special. rewrite Hs.
    assert (to_lower c = c) as Ht by (unfold to_lower; by rewrite (proj2 (Z.leb_gt _ _)) by lia).
    rewrite decide_False, decide_False; [done| |]; cbn; rewrite Ht; [intros [= ->]; lia|intros [[= ->]|[= ->]]; lia].
Qed.
Lemma whole_nonneg d n : parse_uint d = inl n → 0 ≤ n.
Proof.
  unfold parse_uint. assert (∀ s acc, 0 ≤ acc → parse_uint_loop acc s = inl n → 0 ≤ n) as Hl.
  { intros s. induction s as [|c s IH]; simpl; intros acc Ha; [by intros [= <-]|].
    destruct (digit_val c) as [x|] eqn:Hx; [|done]. apply code_digit in Hx as [_ ?]. case_bool_decide; [done|]. apply IH. lia. }
  destruct d as [|c d]; [done|]. by apply Hl.
Qed.
(** [ParseFloat] of a whole number below [2^53]. *)
Lemma ParseFloat_whole d n : parse_uint d = inl n → n < 2 ^ prec → ParseFloat d = Ok (scaled2 false n 0).
Proof.
  intros Hd Hn. unfold parse_uint in Hd. assert (d ≠ "") as Hne by (by intros ->).
  assert (Hd' : parse_uint_loop 0 d = inl n) by (by destruct d). clear Hd.
  pose proof (uint_digits _ _ _ Hd') as Hdig. assert (codes d ≠ []) as Hne' by (destruct d; [done|by rewrite codes_cons]).
  destruct (digits_plain _ Hdig Hne') as (Hs & Hx & Hsp). unfold ParseFloat. rewrite Hsp. unfold readFloat. rewrite Hs, Hx.
  destruct (mant_loop_digits d 0 n false 0 Hd' ltac:(lia) ltac:(done) ltac:(lia) false 0) as (nd & dp & -> & Hnd & Hb).
  rewrite bool_decide_false by done. cbn [negb orb rf_sawdigits rf_sawdot rf_nd rf_under rf_mant read_exp andb].
  rewrite !Z.mul_1_r, Z.sub_diag. cbn [float_value].
  assert (scaled10 false n 0 nd = scaled2 false n 0) as ->.
  { unfold scaled10. destruct n as [|p|p]; [done| |done]. assert (nd ≤ 310).
    { destruct (Z.le_gt_cases nd 310) as [|Hgt]; [done|]. assert (10 ^ 310 ≤ 10 ^ (nd - 1)) by (apply Z.pow_le_mono_r; lia).
      assert (2 ^ prec < 10 ^ 310) by (by vm_compute). lia. }
    rewrite (proj2 (Z.ltb_ge _ _)), (proj2 (Z.ltb_ge _ _)) by lia. change (10 ^ 0) with 1. by rewrite Z.mul_1_r. }
  destruct n as [|p|p]; [done| |done]. destruct (scaled2_int p Hn) as (m & -> & _). done.
Qed.

Lemma str_drop_suffix s t : str_drop (String.length (s +:+ t) - String.length t) (s +:+ t) = t
  ∧ str_take (String.length (s +:+ t) - String.length t) (s +:+ t) = s.
Proof.
  assert (String.length (s +:+ t) = (String.length s + String.length t)%nat) as ->.
  { rewrite <-!length_bytes_of, bytes_of_app, length_app. done. }
  replace (String.length s + String.length t - String.length t)%nat with (String.length s) by lia.
  split; [apply str_drop_app|apply str_take_app].
Qed.
Lemma cut_suffix_app suffix s t : String.length t = String.length suffix →
  cut_suffix suffix (s +:+ t) = if decide (t = suffix) then Some s else None.
Proof.
  intros Hl. unfold cut_suffix. rewrite <-Hl. destruct (str_drop_suffix s t) as [-> ->].
  assert (String.length t ≤ String.length (s +:+ t))%nat.
  { rewrite <-!length_bytes_of, bytes_of_app, length_app. lia. }
  destruct (decide (t = suffix)); [by rewrite decide_True|]. rewrite decide_False; [done|]. by intros [_ ?].
Qed.
Lemma cut_suffix_Some suffix s r : cut_suffix suffix s = Some r → s = r +:+ suffix.
Proof.
  unfold cut_suffix. case_decide as H; [|done]. destruct H as [_ H]. intros [= <-]. revert H.
  generalize (String.length s - String.length suffix)%nat as n. intros n <-. revert n.
  induction s as [|c s IH]; intros [|n]; [reflexivity..|].
  change (String c s = String c (str_take n s +:+ str_drop n s)). by rewrite <-IH.
Qed.
Lemma visible_codes s : Forall (λ c, 33 ≤ c ≤ 126) (codes s) → Forall visible (bytes_of s).
Proof. unfold codes. rewrite Forall_fmap. done. Qed.

(** ** Lemmas: the characters of a number *)
Definition safe (c : Z) : bool :=
  is_digit c || ((65 <=? c) && (c <=? 90)) || ((97 <=? c) && (c <=? 122)) || (c =? 43) || (c =? 45) || (c =? 46) || (c =? 95).
Definition is_byte (c : Z) : Prop := 0 ≤ c < 256.
Lemma codes_bytes s : Forall is_byte (codes s).
Proof. unfold codes. rewrite Forall_fmap. apply Forall_true. intros b. apply Z_of_byte_range. Qed.
Lemma lower_safe c : is_byte c → 97 ≤ lower c ≤ 122 → safe c = true.
Proof.
  intros Hc Hl. assert (forallb (λ c, negb ((97 <=? lower c) && (lower c <=? 122)) || safe c) (seqZ 0 256) = true) as Hall by (by vm_compute).
  rewrite forallb_forall in Hall. specialize (Hall c). rewrite (proj2 (Z.leb_le _ _)), (proj2 (Z.leb_le _ _)) in Hall by lia.
  apply Hall. apply list_elem_of_In, elem_of_seqZ. unfold is_byte in Hc. lia.
Qed.
Lemma digit_of_safe hex c d : is_byte c → digit_of hex c = Some d → safe c = true.
Proof.
  unfold digit_of, safe. destruct (is_digit c) eqn:E; [done|]. intros Hc. destruct (hex && is_hex c) eqn:Hh; [|done]. intros _.
  apply andb_true_iff in Hh as [_ Hh]. unfold is_hex in Hh. apply andb_true_iff in Hh as [?%Z.leb_le ?%Z.leb_le].
  pose proof (lower_safe c Hc ltac:(lia)) as Hs. unfold safe in Hs. by rewrite E in Hs.
Qed.
Lemma mant_loop_safe hex s x x' r : Forall is_byte s → mant_loop hex s x = (x', r) →
  ∃ l, s = l ++ r ∧ Forall (λ c, safe c = true) l.
Proof.
  intros Hs. revert x. induction Hs as [|c s Hc Hs IH]; intros x; cbn [mant_loop].
  { intros [= _ <-]. by exists []. }
  destruct x as [dot dig und m nd dp].
  assert (Hnil : ∀ x0, (x0, c :: s) = (x', r) → ∃ l, c :: s = l ++ r ∧ Forall (λ c, safe c = true) l) by (intros x0 [= _ <-]; by exists []).
  assert (Hcons : ∀ x0, safe c = true → mant_loop hex s x0 = (x', r) → ∃ l, c :: s = l ++ r ∧ Forall (λ c, safe c = true) l).
  { intros x0 Hsc (l & -> & Hl)%IH. exists (c :: l). split; [done|by constructor]. }
  destruct (Z.eqb_spec c 95) as [->|]; [by apply Hcons|]. destruct (Z.eqb_spec c 46) as [->|].
  { destruct dot; [apply Hnil|by apply Hcons]. }
  destruct (digit_of hex c) as [d|] eqn:Hd; [|apply Hnil]. apply digit_of_safe in Hd; [|done].
  destruct ((c =? 48) && (nd =? 0)); by apply Hcons.
Qed.
Lemma exp_loop_safe s e und e' und' r : exp_loop s e und = (e', und', r) → ∃ l, s = l ++ r ∧ Forall (λ c, safe c = true) l.
Proof.
  revert e und. induction s as [|c s IH]; intros e und; cbn [exp_loop]; [intros [= _ _ <-]; by exists []|].
  destruct (is_digit c) eqn:Hd.
  { intros (l & -> & Hl)%IH. exists (c :: l). split; [done|]. constructor; [unfold safe; by rewrite Hd|done]. }
  destruct (Z.eqb_spec c 95) as [->|]; [|intros [= _ _ <-]; by exists []].
  intros (l & -> & Hl)%IH. exists (95 :: l). split; [done|by constructor].
Qed.
Lemma read_exp_safe hex dp und s e und' : Forall is_byte s → read_exp hex dp und s = Some (e, und', []) → Forall (λ c, safe c = true) s.
Proof.
  intros Hb. unfold read_exp. destruct s as [|c s]; [constructor|]. apply Forall_cons in Hb as [Hc Hb].
  destruct (Z.eqb_spec (lower c) (if hex then 112 else 101)) as [He|]; [|by destruct hex].
  assert (safe c = true) as Hsc by (apply lower_safe; [done|destruct hex; lia]).
  assert (Hr : ∀ es r, match r with [] => None | d :: _ => if is_digit d then let '(e, u, r') := exp_loop r 0 und in Some (dp + e * es, u, r') else None end
      = Some (e, und', []) → Forall (λ c, safe c = true) r).
  { intros es r. destruct r as [|d r]; [constructor|]. destruct (is_digit d); [|done].
    destruct (exp_loop (d :: r) 0 und) as [[e0 u0] r0] eqn:Hx. intros [= _ _ ->].
    apply exp_loop_safe in Hx as (l & -> & Hl). by rewrite app_nil_r. }
  intros H. constructor; [done|]. destruct s as [|c2 s2]; [constructor|].
  destruct (decide (c2 = 43)) as [->|N1]; [constructor; [done|by apply (Hr 1)]|].
  destruct (decide (c2 = 45)) as [->|N2]; [constructor; [done|by apply (Hr (-1))]|].
  apply (Hr 1). revert H. clear -N1 N2. repeat (case_match; try done); congruence.
Qed.
Lemma cut_sign_safe s neg r : cut_sign s = (neg, r) → ∃ l, s = l ++ r ∧ Forall (λ c, safe c = true) l.
Proof.
  destruct s as [|c s]; cbn [cut_sign]; [intros [= _ <-]; by exists []|].
  destruct (decide (c = 45)) as [->|N1]; [intros [= _ <-]; exists [45]; split; [done|by repeat constructor]|].
  destruct (decide (c = 43)) as [->|N2]; [intros [= _ <-]; exists [43]; split; [done|by repeat constructor]|].
  assert (∀ x : bool * list Z, match c with 45 => (true, s) | 43 => (false, s) | _ => (false, c :: s) end = x → x = (false, c :: s)) as Hx
    by (intros x <-; repeat (case_match; try congruence)).
  intros H%Hx. injection H as _ ->. by exists [].
Qed.
Lemma cut_hex_safe s hex r : Forall is_byte s → cut_hex s = (hex, r) → ∃ l, s = l ++ r ∧ Forall (λ c, safe c = true) l.
Proof.
  intros Hb. assert (Hnil : (false, s) = (hex, r) → ∃ l, s = l ++ r ∧ Forall (λ c, safe c = true) l) by (intros [= _ <-]; by exists []).
  unfold cut_hex. destruct s as [|c s]; [done|]. destruct (decide (c = 48)) as [->|N]; [|revert Hnil; clear -N; repeat (case_match; try congruence); exact id].
  destruct s as [|c2 [|x s]]; [done..|]. destruct (Z.eqb_spec (lower c2) 120) as [E|]; [|done].
  intros [= _ <-]. exists [48; c2]. split; [done|]. rewrite !Forall_cons in Hb. repeat constructor. apply lower_safe; [apply Hb|lia].
Qed.
Lemma Forall_byte_drop (l r : list Z) : Forall is_byte (l ++ r) → Forall is_byte r.
Proof. by intros [_ ?]%Forall_app. Qed.
Lemma readFloat_safe s x : Forall is_byte s → readFloat s = Some x → Forall (λ c, safe c = true) s.
Proof.
  intros Hb. unfold readFloat. destruct (cut_sign s) as [neg r1] eqn:H1. apply cut_sign_safe in H1 as (l1 & -> & S1). apply Forall_byte_drop in Hb.
  destruct (cut_hex r1) as [hex r2] eqn:H2. apply cut_hex_safe in H2 as (l2 & -> & S2); [|done]. apply Forall_byte_drop in Hb.
  destruct (mant_loop hex r2 _) as [y r3] eqn:H3. apply mant_loop_safe in H3 as (l3 & -> & S3); [|done]. apply Forall_byte_drop in Hb.
  destruct (negb _); [done|]. destruct (read_exp _ _ _ r3) as [[[dp und] [|? ?]]|] eqn:H4; [|done..].
  apply read_exp_safe in H4; [|done]. intros _. by rewrite !Forall_app.
Qed.
(** A letter that [to_lower] makes one of a word is a letter. *)
Lemma to_lower_safe l w : Forall (λ c, 97 ≤ c ≤ 122) w → to_lower <$> l = w → Forall (λ c, safe c = true) l.
Proof.
  intros Hw <-. rewrite Forall_fmap in Hw. eapply Forall_impl; [exact Hw|]. intros c. cbn. unfold to_lower, safe.
  destruct ((65 <=? c) && (c <=? 90)) eqn:E; [by rewrite orb_true_r|]. intros Hc.
  rewrite (proj2 (Z.leb_le 97 c)), (proj2 (Z.leb_le c 122)) by lia. by rewrite orb_true_r.
Qed.
Lemma special_safe s f : special s = Some f → Forall (λ c, safe c = true) s.
Proof.
  unfold special. destruct (cut_sign s) as [neg r] eqn:H1. apply cut_sign_safe in H1 as (l & -> & Hl).
  assert (Hw : ∀ w l, w ∈ [codes "inf"; codes "infinity"; codes "nan"] → to_lower <$> l = w → Forall (λ c, safe c = true) l).
  { intros w l' Hin. apply to_lower_safe. rewrite !elem_of_cons, elem_of_nil in Hin.
    destruct Hin as [->|[->|[->|[]]]]; apply (bool_decide_unpack _); vm_compute; exact I. }
  case_decide as Hi; [|case_decide as Hn; [|done]]; intros _.
  - apply Forall_app. split; [done|]. destruct Hi as [Hi|Hi]; (eapply Hw; [|exact Hi]); set_solver.
  - eapply Hw; [|exact Hn]. set_solver.
Qed.
Lemma ParseFloat_safe s f : ParseFloat s = Ok f → Forall (λ c, safe c = true) (codes s).
Proof.
  unfold ParseFloat. destruct (special (codes s)) as [g|] eqn:Hs; [intros _; by eapply special_safe|].
  destruct (readFloat (codes s)) as [x|] eqn:Hr; [|done]. intros _. eapply readFloat_safe; [apply codes_bytes|done].
Qed.
Lemma safe_range c : safe c = true → 33 ≤ c ≤ 126 ∧ c ≠ 34 ∧ c ≠ 92 ∧ c ≠ 60 ∧ c ≠ 62 ∧ c ≠ 38.
Proof.
  unfold safe, is_digit. rewrite !orb_true_iff, !andb_true_iff, !Z.leb_le, !Z.eqb_eq. lia.
Qed.
(** A text of such characters is its own JSON text. *)
Lemma quote_safe s : Forall (λ c, safe c = true) (codes s) → quote s = quote_char :: bytes_of s ++ [quote_char].
Proof.
  unfold codes. rewrite Forall_fmap. intros Hs. unfold quote. do 2 f_equal. generalize (bytes_of s), Hs. clear.
  intros l Hs. induction Hs as [|b l Hb Hl IH]; [done|]. cbn [length quote_loop].
  pose proof (safe_range _ Hb). rewrite (proj2 (Z.ltb_lt _ _)) by lia. rewrite IH.
  assert (quote_byte b = [b]) as -> by (revert Hb; clear; by destruct b). done.
Qed.
Lemma safe_valid s : Forall (λ c, safe c = true) (codes s) → ValidString s = true.
Proof.
  unfold codes. rewrite Forall_fmap. intros Hs. rewrite <-(string_of_bytes_of s). apply utf8_valid.
  induction Hs as [|b l Hb Hl IH]; [constructor|]. change (b :: l) with ([b] ++ l). pose proof (safe_range _ Hb).
  eapply utf8_rune; [simpl; lia|apply decode_rune_ascii; lia|done].
Qed.
Lemma safe_trim s : Forall (λ c, safe c = true) (codes s) → TrimSpace s = s.
Proof. intros Hs. apply TrimSpace_visible, visible_codes. eapply Forall_impl; [exact Hs|]. intros c Hc%safe_range. lia. Qed.

(** What [UnmarshalString] accepts. *)
Lemma UnmarshalString_inv u str q q' : UnmarshalString u str q = Ok q' → TrimSpace str ≠ "" →
  ∃ base unit fstr f, (base, unit) ∈ [(MB, "MB"); (KB, "KB")] ∧ bq_s q' = TrimSpace str ∧ bq_s q' = fstr +:+ unit
    ∧ ParseFloat fstr = Ok f ∧ bq_i q' = int64_of u (float_mul f (float_of_Z base)) ∧ Forall (λ c, safe c = true) (codes (bq_s q')).
Proof.
  unfold UnmarshalString. intros H Hne. rewrite decide_False in H by done.
  apply result_bind_Ok in H as ([base fstr] & Hu & (f & Hf & [= <-])%result_bind_Ok). cbn [bq_s bq_i].
  assert (∃ unit, (base, unit) ∈ [(MB, "MB"); (KB, "KB")] ∧ TrimSpace str = fstr +:+ unit) as (unit & Hin & Hs).
  { destruct (cut_suffix "MB" _) as [r|] eqn:HM.
    - injection Hu as <- <-. apply cut_suffix_Some in HM. exists "MB". split; [left|done].
    - destruct (cut_suffix "KB" _) as [r|] eqn:HK; [|done]. injection Hu as <- <-. apply cut_suffix_Some in HK. exists "KB". split; [right; left|done]. }
  exists base, unit, fstr, f. split_and!; try done. rewrite Hs, codes_app, Forall_app. split; [by eapply ParseFloat_safe|].
  rewrite !elem_of_cons, elem_of_nil in Hin. destruct Hin as [[= _ ->]|[[= _ ->]|[]]]; apply (bool_decide_unpack _); vm_compute; exact I.
Qed.

(** ** Theorems *)

(** C40. A whole number of kilobytes or megabytes means exactly that many bytes: for every text of
    digits below [2^53] whose bytes fit in an [int64], the quantity read is the text and the
    product, although it goes through [float64]. *)
Theorem whole_quantity_exact (unspecified : float64 → Z) (d : string) (n : Z) : parse_uint d = inl n → n < 2 ^ prec →
  (n * KB ≤ MaxInt64 → NewBandwidthQuantity unspecified (d +:+ "KB") = Ok (mkBandwidth (d +:+ "KB") (n * KB)))
  ∧ (n * MB ≤ MaxInt64 → NewBandwidthQuantity unspecified (d +:+ "MB") = Ok (mkBandwidth (d +:+ "MB") (n * MB))).
Proof.
  intros Hd Hn. pose proof (ParseFloat_whole d n Hd Hn) as Hf.
  assert (Hgen : ∀ unit base k, (base, unit) ∈ [(MB, "MB"); (KB, "KB")] → float_of_Z base = S754_finite false (2 ^ 52) (k - 52) →
    base = 2 ^ k → 0 ≤ k ≤ 100 → n * base ≤ MaxInt64 →
    NewBandwidthQuantity unspecified (d +:+ unit) = Ok (mkBandwidth (d +:+ unit) (n * base))).
  { intros unit base k Hin Hb Hbk Hk Hmax. unfold NewBandwidthQuantity, UnmarshalString.
    rewrite !elem_of_cons, elem_of_nil in Hin.
    assert (TrimSpace (d +:+ unit) = d +:+ unit) as ->.
    { apply safe_trim. rewrite codes_app, Forall_app. split; [by eapply ParseFloat_safe|].
      destruct Hin as [[= _ ->]|[[= _ ->]|[]]]; apply (bool_decide_unpack _); vm_compute; exact I. }
    rewrite decide_False by (intros Hx; apply (f_equal String.length) in Hx; rewrite <-!length_bytes_of, bytes_of_app, length_app in Hx;
      destruct Hin as [[= _ ->]|[[= _ ->]|[]]]; simpl in Hx; lia).
    assert (match cut_suffix "MB" (d +:+ unit), cut_suffix "KB" (d +:+ unit) with
      | Some fstr, _ => Ok (MB, fstr) | None, Some fstr => Ok (KB, fstr) | None, None => Err "unit not support" end = Ok (base, d)) as ->.
    { rewrite (cut_suffix_app "MB"), (cut_suffix_app "KB") by (by destruct Hin as [[= _ ->]|[[= _ ->]|[]]]).
      by destruct Hin as [[= -> ->]|[[= -> ->]|[]]]. }
    cbn [mbind result_bind]. rewrite Hf. cbn [mbind result_bind]. do 2 f_equal.
    destruct n as [|p|p]; [|by apply (int64_scaled unspecified p base k)|].
    - rewrite Hb. done.
    - apply whole_nonneg in Hd. lia. }
  split; intros Hmax; [apply (Hgen "KB" KB 10)|apply (Hgen "MB" MB 20)]; try done; set_solver.
Qed.

(** A quantity is written to JSON and read back as it was: every text that is accepted, with its
    blanks cut off, has only characters that JSON needs not escape, and means the same bytes
    again, whatever the quantity it is read into. *)
Theorem quantity_roundtrip (unspecified : float64 → Z) (json_text : list byte → json_error → string) (str : string)
    (q q' q0 : BandwidthQuantity) :
  UnmarshalString unspecified str q = Ok q' → TrimSpace str ≠ "" →
  MarshalJSON q' = json_Marshal (c_string "string") (bq_s q')
  ∧ UnmarshalJSON unspecified json_text (MarshalJSON q') q0 = Ok q' ∧ Equal (Some q') (Some q') = true.
Proof.
  intros H Hne. destruct (UnmarshalString_inv _ _ _ _ H Hne) as (base & unit & fstr & f & Hin & Hs & Hs' & Hf & Hi & Hsafe).
  assert (Hm : MarshalJSON q' = json_Marshal (c_string "string") (bq_s q')).
  { unfold MarshalJSON. by rewrite <-quote_safe. }
  split_and!; [done| |simpl; by rewrite Z.eqb_refl]. unfold UnmarshalJSON. rewrite decide_False by (intros Hn; discriminate).
  destruct (json_roundtrip (c_string "string") (bq_s q') (safe_valid _ Hsafe) ltac:(cbn; unfold maxNestingDepth; lia)) as [Hr _].
  rewrite Hm. cbn [c_zero c_string] in Hr. rewrite Hr. revert H. unfold UnmarshalString.
  rewrite (safe_trim (bq_s q') Hsafe), Hs, !decide_False by done. destruct (_ ≫= _) as [x|e] eqn:E; [|done]. by intros [= ->].
Qed.

(** A sleep is between the two ratios of the duration, in thousandths, when nothing overflows. *)
Lemma random_sleep_bounds u duration lo hi rand (a := int64_of u (float_mul lo (float_of_Z 1000))) (b := int64_of u (float_mul hi (float_of_Z 1000))) :
  0 ≤ duration → 0 ≤ a → a < b → duration * b ≤ MaxInt64 → b ≤ MaxInt64 → (∀ n, 0 < n → 0 ≤ rand n < n) →
  ∃ t, RandomSleep u duration lo hi rand = Some t ∧ duration * a / 1000 ≤ t ≤ duration * b / 1000.
Proof.
  intros Hd Ha Hab Hmax Hb Hr. unfold RandomSleep. fold a b. rewrite (proj2 (Z.leb_gt _ _)) by lia.
  rewrite (wrap64_id (b - a)) by (unfold in_int64, MinInt64; lia). rewrite (proj2 (Z.leb_gt _ _)) by lia.
  specialize (Hr (b - a) ltac:(lia)). rewrite (wrap64_id (rand (b - a) + a)) by (unfold in_int64, MinInt64; lia).
  eexists. split; [done|]. unfold sleep_time. set (n := rand (b - a) + a). assert (a ≤ n < b) by lia.
  assert (duration * a ≤ duration * n ≤ duration * b) by (split; apply Z.mul_le_mono_nonneg_l; lia).
  rewrite wrap64_id by (unfold in_int64, MinInt64; lia). rewrite Z.quot_div_nonneg by lia.
  split; apply Z.div_le_mono; lia.
Qed.

(** No sign is refused: a quantity may be negative, or what the language leaves open. *)
Lemma negative_quantity u : NewBandwidthQuantity u "-1MB" = Ok (mkBandwidth "-1MB" (-1048576)).
Proof. vm_compute. reflexivity. Qed.
Lemma infinite_quantity u : NewBandwidthQuantity u "infKB" = Ok (mkBandwidth "infKB" (u (S754_infinity false))).
Proof. vm_compute. reflexivity. Qed.
(** An empty text, or null, leaves the quantity as it was. *)
Lemma blank_quantity u jt q str : TrimSpace str = "" → UnmarshalString u str q = Ok q ∧ UnmarshalJSON u jt (bytes_of "null") q = Ok q.
Proof. intros Hs. unfold UnmarshalString, UnmarshalJSON. by rewrite Hs, !decide_True. Qed.

(** ** Witnesses *)
Lemma whole_quantity_exact_witness :
  NewBandwidthQuantity demo_unspecified "0640KB" = Ok (mkBandwidth "0640KB" 655360)
  ∧ NewBandwidthQuantity demo_unspecified "8796093022207MB" = Ok (mkBandwidth "8796093022207MB" 9223372036853727232).
Proof.
  split.
  - refine (proj1 (whole_quantity_exact demo_unspecified "0640" 640 _ _) _); [reflexivity|reflexivity|]. intros Hx. discriminate Hx.
  - refine (proj2 (whole_quantity_exact demo_unspecified "8796093022207" 8796093022207 _ _) _); [reflexivity|reflexivity|].
    intros Hx. discriminate Hx.
Defined.
Lemma quantity_roundtrip_witness :
  UnmarshalJSON demo_unspecified (λ _ _, "") (MarshalJSON (mkBandwidth "1.5MB" 1572864)) zero_quantity = Ok (mkBandwidth "1.5MB" 1572864).
Proof.
  refine (proj1 (proj2 (quantity_roundtrip demo_unspecified (λ _ _, "") " 1.5MB" zero_quantity _ zero_quantity quantity_fraction _))).
  vm_compute. discriminate.
Defined.
