(* ===== verification/HoleSession.v ===== *)
(** * One hole from both requests to both instructions

    The composition of [NatController], [HoleFlow] and [EndToEnd]: what both clients found out in
    [Prepare] is enough for the server to answer both of them.  [session_runs] is the
    path of one session through the controller, from [HandleVisitor] to the end of its
    handler; [hole_session] puts the two ends around it. *)
From S2P Require Import Prelude GoStd Hash Wire MsgV2 Sockets Naming Msg ConfigV1 Auth Validation ConfigLoad ServerProxy ClientProxy MakeHole EndToEnd HoleFlow SidRelay NatClassify Analyzer NatController.
From stdpp Require Import gmap list.
Local Open Scope Z_scope.

(** ** What the server sees of a client's addresses *)

Lemma index_byte_digits b s : Forall (λ c, 48 ≤ Z_of_byte c ≤ 57) (bytes_of s) →
  ¬ (48 ≤ Z_of_byte (Ascii.byte_of_ascii b) ≤ 57) → index_byte b s = None.
Proof. intros Hs Hb. apply index_byte_None_bytes. eapply Forall_impl; [exact Hs|]. by intros c ? ->. Qed.

Lemma port_text port : 0 ≤ port → index_byte colon (Itoa port) = None ∧ plain_host (Itoa port).
Proof.
  intros H%Itoa_digits. unfold plain_host.
  split_and!; (apply index_byte_digits; [done|apply (bool_decide_unpack _); vm_compute; exact I]).
Qed.

(** The addresses [Prepare] sends give the server back the addresses of the client's
    interfaces, and nothing when the client disables them. *)
Theorem server_sees_interfaces (disable : bool) (ips : list string) (port : Z) :
  0 ≤ port → Forall plain_host ips →
  parseIPs (assisted_addrs disable ips port) = if disable then [] else ips.
Proof.
  intros Hp Hips. destruct (port_text port Hp) as [Hc Hpl]. unfold assisted_addrs. destruct disable; [done|].
  induction Hips as [|ip ips Hip _ IH]; [done|]. cbn [fmap list_fmap parseIPs].
  by rewrite (split_of_join ip _ Hip Hc Hpl), IH.
Qed.

(** ** A session's path through the controller *)
Definition classifiable (addrs : list string) : Prop := (2 ≤ length addrs)%nat ∧ Forall (λ a, ∃ p, addr_parse a p) addrs.

Lemma classify_ok addrs ips : classifiable addrs → ∃ f, ClassifyNATFeature addrs ips = Ok f.
Proof.
  intros H. destruct (ClassifyNATFeature_total ips addrs) as [[_ Ht] _].
  destruct (ClassifyNATFeature addrs ips); [by eauto|by discriminate Ht].
Qed.
Lemma prepared_classifiable dis e p : Prepare dis e = Ok p → classifiable (pr_Addrs p).
Proof.
  unfold Prepare. intros (addrs & _ & H)%result_bind_Ok. case_decide; [done|].
  apply result_bind_Ok in H as (f & Hf & H). apply wrap_err_Ok in Hf.
  apply result_bind_Ok in H as (port & _ & H). destruct (pe_listen e); [done|]. injection H as <-.
  apply (proj1 (ClassifyNATFeature_total (pe_localIPs e) addrs)). by rewrite Hf.
Qed.

(** [analysis] fails only when a classification does. *)
Lemma analysis_total t an s cm : classifiable (nc_MappedAddrs cm) → classifiable (nv_MappedAddrs (s_visitorMsg s)) →
  ∃ vr cr s' an', analysis t an s cm = Ok (vr, cr, s', an').
Proof.
  intros Hc Hv. destruct (classify_ok _ (parseIPs (nc_AssistedAddrs cm)) Hc) as [cNat Ec].
  destruct (classify_ok _ (parseIPs (nv_AssistedAddrs (s_visitorMsg s))) Hv) as [vNat Ev].
  unfold analysis. cbv zeta. rewrite Ec, Ev. cbn [wrap_err mbind result_bind].
  destruct (GetRecommandBehaviors _ _ _ _ _) as [[[[mode index] cB] vB] an1].
  unfold newNatHoleResponse. by eauto.
Qed.

Lemma analysis_keeps t an s cm vr cr s' an' : analysis t an s cm = Ok (vr, cr, s', an') →
  s_sid s' = s_sid s ∧ s_visitorTransporter s' = s_visitorTransporter s ∧ s_clientTransporter s' = s_clientTransporter s.
Proof.
  unfold analysis. cbv zeta. intros (cNat & _ & H)%result_bind_Ok. apply result_bind_Ok in H as (vNat & _ & H).
  destruct (GetRecommandBehaviors _ _ _ _ _) as [[[[mode index] cB] vB] an1].
  unfold newNatHoleResponse in H. by simplify_eq.
Qed.

(** From [n] to [n'] one session was served: its id was offered once on the proxy's channel, the
    visitor's transporter and the owner's got one response each, and the handler and its
    session are gone. *)
Definition session_served (ch : nat) (sid : string) (visitor owner : transporter * NatHoleResp) (n n' : Controller) : Prop :=
  rtc cstep n n'
  ∧ delivered n' = delivered n ++ [(ch, sid)]
  ∧ sent n' = sent n ++ [visitor; owner]
  ∧ sessions n' = sessions n ∧ handlers n' = handlers n ∧ clientCfgs n' = clientCfgs n.

(** An admitted request, the id taken by the proxy, the owner's answer and an analysis that
    succeeds: the handler answers both transporters and is gone. *)
Lemma session_runs (n : Controller) cfg vm tv (u : string) cm tc (r : nat) t vr cr s' an' (sid := nc_Sid cm) :
  ctl_inv n → nv_PreCheck vm = false → admit_visitor vm n = Ok cfg → cfg_sidCh cfg ∈ receivers n →
  sessions n !! sid = None → heap n !! r = None →
  analysis t (analyzer n) (take_token (set_client (new_session sid vm tv) cm tc)) cm = Ok (vr, cr, s', an') →
  ∃ n', session_served (cfg_sidCh cfg) sid (tv, vr) (tc, cr) n n'.
Proof.
  intros Hinv Hpre Hadm Hch Hsid Hr Ha. destruct (analysis_keeps _ _ _ _ _ _ _ _ Ha) as (Hs' & Htv & Htc).
  assert (Hh : handlers n !! r = None).
  { destruct (handlers n !! r) eqn:E; [|done]. destruct (proj2 (inv_links _ Hinv) r) as [? ?]; [by eauto|congruence]. }
  set (h1 := <[r := new_session sid vm tv]> (heap n)).
  eexists. split; [|shelve].
  eapply rtc_l; [by apply (cs_visitor r sid vm tv u)|]. unfold HandleVisitor. rewrite Hpre, Hadm.
  eapply rtc_l; [eapply (cs_deliver r (cfg_sidCh cfg) (new_session sid vm tv)); [apply lookup_insert_eq|exact Hch|apply lookup_insert_eq]|].
  unfold deliver_sid. cbn -[analysis].
  eapply rtc_l; [apply (cs_client cm tc)|]. unfold HandleClient. cbn [sessions]. fold sid. rewrite lookup_insert_eq.
  cbn [heap handlers receivers next_ch sent delivered clientCfgs analyzer].
  eapply rtc_l; [eapply (cs_decide t r (set_client (new_session sid vm tv) cm tc) cm); cbn [handlers heap];
    [apply lookup_insert_eq|by rewrite lookup_alter_eq, lookup_insert_eq|done|done]|].
  unfold decide_session. cbn [analyzer]. rewrite Ha.
  cbn [heap handlers receivers next_ch sent delivered clientCfgs analyzer sessions].
  eapply rtc_l; [eapply (cs_send_visitor r vr (Some cr) s'); apply lookup_insert_eq|].
  unfold set_phase, Send. cbn [heap handlers receivers next_ch sent delivered clientCfgs analyzer sessions].
  eapply rtc_l; [eapply (cs_send_client r None cr s' tc); [apply lookup_insert_eq|apply lookup_insert_eq|exact Htc]|].
  unfold set_phase, Send. cbn [heap handlers receivers next_ch sent delivered clientCfgs analyzer sessions].
  eapply rtc_l; [apply (cs_sleep r); apply lookup_insert_eq|].
  eapply rtc_l; [eapply (cs_wake r s'); apply lookup_insert_eq|]. apply rtc_refl.
  Unshelve.
  unfold finish, set_phase. cbn [heap handlers receivers next_ch sent delivered clientCfgs analyzer sessions].
  rewrite Hs', Htv. cbn [s_sid s_visitorTransporter take_token set_client new_session].
  rewrite !insert_insert_eq, !delete_insert_eq, !delete_id, <-!(assoc_L (++)) by done. by split_and!.
Qed.

(** ** The two ends *)
Lemma owner_takes user cfg sid e c p resp :
  Prepare (disables_assisted (xp_NatTraversal cfg)) (he_prepare e) = Ok p → ExchangeInfo (he_answer e) = Ok resp →
  let t := InWorkConn user cfg (Ok (sid_msg sid)) e c in
  FSent (MNatHoleClient (client_reply user (he_tx e) sid (pr_Addrs p) (pr_AssistedAddrs p) cfg)) ∈ t
  ∧ reports t = [mkNatHoleReport (nr_Sid resp) (is_ok (he_hole e))].
Proof.
  intros Hp Hx. unfold InWorkConn. rewrite Hp, Hx. split; [set_solver|].
  destruct (he_hole e) as [other|]; [|done].
  pose proof (reports_listen (nr_Protocol resp) (hole_sock other) c) as Hl.
  change (reports ([FOpened Prepared; FSent (MNatHoleClient (client_reply user (he_tx e) sid (pr_Addrs p) (pr_AssistedAddrs p) cfg))]
    ++ (hole_effects (Ok other) ++ [report resp true] ++
        (if decide (nr_Protocol resp = "kcp") then listenByKCP (hole_sock other) c else listenByQUIC (hole_sock other) c))
    ++ [FClosed Prepared; FWorkClosed]) = [mkNatHoleReport (nr_Sid resp) true]).
  rewrite !reports_app, Hl. by destruct other.
Qed.
Lemma visitor_asks user v now tx1 answer1 e c p :
  PreCheck answer1 = Ok tt → Prepare (disables_assisted (xv_NatTraversal v)) (he_prepare e) = Ok p →
  FSent (MNatHoleVisitor (visitor_request user (he_tx e) now (pr_Addrs p) (pr_AssistedAddrs p) v))
    ∈ makeNatHole user v now tx1 answer1 e c.
Proof. intros H1 Hp. unfold makeNatHole. rewrite H1, Hp. set_solver. Qed.

(** C4. A tunnel's signalling from end to end.  An owner and a visitor whose configurations name
    the same proxy and share its secret, and who both got through [Prepare], reach a session:
    from any reachable state of the controller in which the proxy was just run, there is a run
    that offers the session's id on that proxy's channel once, answers the visitor's request
    and the owner's reply once each, and leaves no handler and no session behind.  Both ends
    accept their answers; these belong to the session and to their own transactions, tell one
    side to send and the other to receive, and carry the addresses the other side found.
    The owner then reports this session, successful exactly when its hole was made. *)
Theorem hole_session `{Text} (k r : nat) (owner visitor txo txv tx1 u sid : string) (x y : XTCPProxyConfig)
    (v : XTCPVisitorConfig) (m : NewProxy) (n n' : Controller) (ch : nat) (now t : Z)
    (eo ev : prepare_env) (po pv : PrepareResult) (to tv : transporter) :
  c_reachable n →
  start_msg (NewWrapper owner (PC_XTCP x)) = MNewProxy m →
  NewProxyConfigurerFromMsg m = Ok (PC_XTCP y) →
  Run (NewProxy_obj k owner (PC_XTCP y)) n = (Ok ch, n') →
  target_name visitor v = AddUserPrefix owner (pc_Name (xp_Base x)) →
  vb_SecretKey (xv_Base v) = xp_Secretkey x →
  Prepare (disables_assisted (xp_NatTraversal x)) eo = Ok po →
  Prepare (disables_assisted (xv_NatTraversal v)) ev = Ok pv →
  sessions n !! sid = None → heap n !! r = None →
  ∃ n'' vr cr, session_served ch sid (tv, vr) (to, cr) n' n''
    ∧ (∀ ho c, let e := mkHoleEnv eo txo (Ok (MNatHoleResp cr)) ho in
         let tr := InWorkConn owner x (Ok (sid_msg sid)) e c in
         FSent (MNatHoleClient (client_reply owner txo sid (pr_Addrs po) (pr_AssistedAddrs po) x)) ∈ tr
         ∧ reports tr = [mkNatHoleReport sid (is_ok ho)])
    ∧ (∀ answer1 hv c, PreCheck answer1 = Ok tt →
         let e := mkHoleEnv ev txv (Ok (MNatHoleResp vr)) hv in
         ExchangeInfo (he_answer e) = Ok vr
         ∧ FSent (MNatHoleVisitor (visitor_request visitor txv now (pr_Addrs pv) (pr_AssistedAddrs pv) v))
             ∈ makeNatHole visitor v now tx1 answer1 e c)
    ∧ (nr_Sid vr = sid ∧ nr_TransactionID vr = txv ∧ nr_TransactionID cr = txo ∧ nr_Protocol cr = xv_Protocol v)
    ∧ (nr_CandidateAddrs vr = Compact (pr_Addrs po) ∧ nr_CandidateAddrs cr = Compact (pr_Addrs pv))
    ∧ (is_sender vr = negb (is_sender cr)).
Proof.
  intros Hn Hm Hy Hrun Hname Hsk Ho Hv Hsid Hr.
  destruct (from_msg_fields _ _ _ _ Hm Hy) as (Hyn & Hysk & _).
  pose proof (registered_cfg _ _ _ _ Hrun) as Hcfg. unfold sp_name in Hcfg. cbn [NewProxy_obj sp_cfg] in Hcfg.
  rewrite Hyn in Hcfg.
  assert (Hn' : c_reachable n').
  { destruct Hn as [dur Hn]. exists dur. eapply rtc_r; [exact Hn|]. by eapply cs_listen. }
  pose proof (c_reachable_inv _ Hn') as Hinv.
  set (vm := visitor_request visitor txv now (pr_Addrs pv) (pr_AssistedAddrs pv) v).
  set (cm := client_reply owner txo sid (pr_Addrs po) (pr_AssistedAddrs po) x).
  set (s := take_token (set_client (new_session sid vm tv) cm to)).
  destruct (analysis_total t (analyzer n') s cm (prepared_classifiable _ _ _ Ho) (prepared_classifiable _ _ _ Hv))
    as (vr & cr & s' & an' & Ha).
  destruct (answers_accepted t now _ _ s s' cm visitor txv _ _ v vr cr eq_refl Ha) as (Hxv & Hxc & Hsv & Hsc & Hproto).
  destruct (analysis_coordinated _ _ _ _ _ _ _ _ (inv_analyzer _ Hinv) Ha)
    as (_ & [Htv Htc] & _ & _ & Hroles & (Hav & Hac & _) & _).
  assert (Hfresh : sessions n' !! sid = None ∧ heap n' !! r = None ∧ ch ∈ receivers n').
  { unfold Run, ListenClient in Hrun. destruct (clientCfgs n !! _); [done|]. injection Hrun as <- <-. set_solver. }
  destruct Hfresh as (Hsid' & Hr' & Hch).
  assert (Hadm : ∃ cfg, admit_visitor vm n' = Ok cfg ∧ cfg_sidCh cfg = ch).
  { unfold admit_visitor. cbn [vm visitor_request nv_ProxyName nv_SignKey nv_Timestamp]. rewrite Hname, Hcfg.
    rewrite ConstantTimeEqString_spec. cbn [cfg_sk]. rewrite Hysk, Hsk, bool_decide_true by done. by eauto. }
  destruct Hadm as (cfg & Hadm & <-).
  destruct (session_runs n' cfg vm tv u cm to r t vr cr s' an' Hinv eq_refl Hadm Hch Hsid' Hr' Ha)
    as (n'' & Hserved).
  exists n'', vr, cr. split; [exact Hserved|]. split.
  { intros ho c. pose proof (owner_takes owner x sid (mkHoleEnv eo txo (Ok (MNatHoleResp cr)) ho) c po cr Ho Hxc) as Hot.
    cbn zeta in Hot. rewrite Hsc in Hot. exact Hot. }
  split.
  { intros answer1 hv c H1. split; [exact Hxv|].
    exact (visitor_asks visitor v now tx1 answer1 (mkHoleEnv ev txv (Ok (MNatHoleResp vr)) hv) c pv H1 Hv). }
  split; [by split_and!|]. split; [by split|].
  unfold is_sender. by destruct Hroles as [[-> ->]|[-> ->]].
Qed.

(** ** Witness *)
Definition owner_env : prepare_env := mkPrepareEnv (Ok ["5.6.7.8:5000"; "5.6.7.8:5001"]) ["10.0.0.3"] (Ok 5000) None.
Definition visitor_env : prepare_env := mkPrepareEnv (Ok ["1.2.3.4:4000"; "1.2.3.4:4000"]) ["10.0.0.2"] (Ok 4000) None.
Example owner_prepares : Prepare (disables_assisted (xp_NatTraversal demo_xtcp)) owner_env
  = Ok (mkPrepareResult ["5.6.7.8:5000"; "5.6.7.8:5001"] ["10.0.0.3:5000"] HardNAT BehaviorPortChanged).
Proof. vm_compute. reflexivity. Qed.
Example visitor_prepares : Prepare (disables_assisted (xv_NatTraversal demo_visitor)) visitor_env
  = Ok (mkPrepareResult ["1.2.3.4:4000"; "1.2.3.4:4000"] ["10.0.0.2:4000"] EasyNAT BehaviorNoChange).
Proof. vm_compute. reflexivity. Qed.

(** "bob" reaches the proxy "ssh" of "alice". *)
Lemma hole_session_witness :
  match demo_accepted with
  | Ok (PC_XTCP y) =>
      match Run (NewProxy_obj 0 "alice" (PC_XTCP y)) (NewController Hour) with
      | (Ok ch, n') => ∃ n'' vr cr, rtc cstep n' n'' ∧ delivered n'' = [(ch, "s1")] ∧ sent n'' = [(8%nat, vr); (7%nat, cr)]
          ∧ nr_CandidateAddrs vr = ["5.6.7.8:5000"; "5.6.7.8:5001"] ∧ nr_CandidateAddrs cr = ["1.2.3.4:4000"]
          ∧ is_sender vr = negb (is_sender cr)
      | _ => False
      end
  | Err _ => False
  end.
Proof.
  unfold demo_accepted. destruct (start_msg (NewWrapper "alice" (PC_XTCP demo_xtcp))) as [| |m| | | | | | | | | | | | | | |] eqn:Em;
    try discriminate Em.
  destruct (@NewProxyConfigurerFromMsg demo_text m) as [[y]|e] eqn:Ey.
  2:{ injection Em as <-. vm_compute in Ey. discriminate Ey. }
  destruct (Run (NewProxy_obj 0 "alice" (PC_XTCP y)) (NewController Hour)) as [[ch|e] n'] eqn:Er; [|discriminate Er].
  destruct (@hole_session demo_text 0%nat 0%nat "alice" "bob" "to" "tv" "t1" "bob" "s1" demo_xtcp y demo_visitor m (NewController Hour) n' ch
    1700000000 1 owner_env visitor_env _ _ 7%nat 8%nat (ex_intro _ Hour (rtc_refl _ _)) Em Ey Er eq_refl eq_refl owner_prepares visitor_prepares
    eq_refl eq_refl) as (n'' & vr & cr & (Hs & Hd & Hsent & _) & _ & _ & _ & [Hv Hc] & Hrole).
  exists n'', vr, cr. injection Er as <- <-. by split_and!.
Defined.
